(* ===== verification/_CoqProject ===== *)
-Q . S2P
Prelude.v
Outcome.v
DramConfig.v
AddressMapping.v
Pipe.v
BusTypes.v
DramRank.v
CommandQueue.v
MemoryController.v
MemorySystem.v
RankSafety.v
BankSim.v
QueueInv.v
PopSpec.v
ControllerInv.v
ControllerStages.v
IssueStages.v
PowerStages.v
ChannelSafety.v
QueueTheorems.v
ClockDomain.v
MultiChannel.v
MultiChannelSafety.v
GemDefines.v
Flows.v
SystemAgent.v
GemMemory.v
MemStats.v
MemoryFlow.v
Uncore.v
UncoreSafety.v
MemoryFreq.v
FlowTheorems.v
Ip.v
DeviceSafety.v
IpFreq.v
Coders.v
CoderSafety.v
DecoderSafety.v
AcceleratorFrames.v
Dma.v
TraceFile.v
Gpu.v
GpuTheorems.v
Cores.v
CoreSafety.v
CoreTheorems.v
Platform.v
Governors.v
GemTick.v
GemBuild.v
GovernorSafety.v
StateInv.v
RunInv.v
ClockRates.v
GemSample.v
PlatformTheorems.v
FloatExact.v
SimClock.v
EventQueue.v
EventQueueSpec.v
EventOps.v
SimLoop.v
LoopTheorems.v
EventTheorems.v
GemLoop.v
GemLoopTheorems.v
ExitTheorems.v
IntMath.v
AddrRange.v
MemPacket.v
PacketTheorems.v
PacketQueue.v
PacketQueueTheorems.v
AbstractMemory.v
MemoryTheorems.v
DramPort.v
DramContract.v
DramPortSafety.v
DramPortTheorems.v
