(* ===== verification/Prelude.v ===== *)
(** * GemDroid: a verification development

    GemDroid simulates a mobile system-on-chip inside gem5: cores replay
    traces and call IPs (display, camera, codecs, ...) through a system agent;
    IPs and cores send their memory requests through the agent to DRAMSim2,
    which simulates the memory channels; governors move the frequencies of
    IPs and memory. This library models the C++ of the platform
    ([gemdroid.src/gemdroid], [gemdroid.src/mem/dramsim2_wrapper.cc]), of
    the DRAM simulator it was extended with
    ([gemdroid.needed/gemdroid.dramsim2/DRAMSim2]) and of the event loop of
    gem5 that drives both ([gemdroid.src/sim], changed for GemDroid), and
    proves what each part promises the next.

    ** How the code is modelled

    A class is a [Record] with the members of the class under their names, a
    method a function from the object to the object (and the result), in the
    order of the code. Methods that can stop the program (a failed assertion,
    [exit], [abort], an access out of range) return [Res], an error monad
    whose [Err] says how; tests that cannot fail ([assert(1)]) are left out.
    Integers are [Z] with the wrap-around of their width written where it can
    matter ([u32], [u64], [i32]); counters of statistics are not wrapped.
    [double] and [float] are the IEEE formats of [SpecFloat], rounded to
    nearest even, in the order of the C++ expressions. Pointers between
    objects become arguments or one record that holds both objects; calls to
    parts that are not here go through an interface ([Class]) with its laws.
    What only prints is left out.

    ** The memory, from a bank to the wrapper

    - [DramConfig] ([SystemConfiguration.h]): the configuration globals as the
      class [Cfg], the derived latencies, floats. [AddressMapping]
      ([AddressMapping.cpp]): the seven schemes; they are injective, they
      can be inverted, and every field is in range.
    - [BusTypes] ([BusPacket], [Transaction], [BankState]); [DramRank]
      ([Rank.cpp]); [CommandQueue] ([CommandQueue.cpp]); [MemoryController]
      ([MemoryController.cpp]); [MemorySystem] ([MemorySystem.cpp]). One
      function per method; [MemoryController::update] is cut into its stages.
    - [Pipe]: delay lines in front of a bus. [RankSafety]: a rank accepts
      exactly the commands that are legal for its state. [BankSim]: the
      controller's view of a bank simulates the rank's. [QueueInv],
      [PopSpec]: [pop] terminates and hands out legal commands only.
      [ControllerInv], [ControllerStages], [IssueStages], [PowerStages]: each
      stage of a cycle keeps the controller's invariant.
    - [ChannelSafety], [QueueTheorems]: a channel never faults, conserves
      reads and writes, its buses never collide; the four-activate window,
      the round robin, FR-FCFS against FCFS.
    - [ClockDomain] ([ClockDomain.cpp]), [MultiChannel]
      ([MultiChannelMemorySystem.cpp], [dramsim2_wrapper.cc]),
      [MultiChannelSafety]: the whole memory never faults and loses nothing,
      while its frequency is changed at will.

    ** The platform

    - [GemDefines] ([gemdroid_defines.hh], [gemdroid_request.hh]): types of
      IPs, constants, messages. [Flows] (the flow table of [gemdroid.cc]) and
      [FlowTheorems]: loading it, asking it.
    - [SystemAgent] ([gemdroid_sa.cc]: queues and admission), [GemMemory]
      ([gemdroid_mem.cc]), [Uncore] (both together: injection, completion
      callbacks, delivery, the agent's tick). [MemoryFlow] states the
      contract of the memory towards the agent, [UncoreSafety] the
      properties of the two: no fault, every accepted request answered once,
      bounded queues. [MemoryFreq]: the memory's frequency under its governor.
    - [Ip] ([gemdroid_ip.cc]): the base class, power states, frequencies,
      and the tick of devices, against the interface [IPPort] of the platform.
      [DeviceSafety]: a frame through a device. [IpFreq]: the table of
      frequencies.
    - [Coders] (decoder, encoder and image processor), [CoderSafety],
      [DecoderSafety], [AcceleratorFrames]: one interface [Accelerator] for
      the three classes, instances that discharge its laws, and a frame
      through each.
    - [TraceFile] (the lines of a core's trace, [gemdroid_core.cc:getTrans]
      and [getTransOoO]), [Cores] (the rest of [gemdroid_core.cc]: in-order
      and out-of-order replay, the frame bookkeeping of IP calls, sleeping
      and waking, the core's frequency), against the interface [CorePort] of
      the platform and its [CorePortLaws]. [CoreSafety]: the invariant of a
      run of a core; [CoreTheorems]: when it stops, that it commits each
      instruction once, that its requests leave in the order of the trace,
      that the out-of-order scan returns.

    - [Dma], [Gpu] ([gemdroid_ip_dma.cc], [gemdroid_ip_gpu.cc]): the last two
      IPs. [GpuTheorems]: a rendered frame reaches the frame buffer in order.
    - [Platform] ([gemdroid.cc]: the parts by index, records of frames,
      dispatch of responses and calls, power by the microsecond, clocks): the
      instances of [IPPort], [GPUPort], [CorePort] and [Receivers] that the
      parts were modelled against. [MemStats]: the memory's figures that the
      governors read. [Governors] ([gemdroid_dvfs.cc]): every governor.
      [GemTick]: a cycle of the platform. [GemBuild]: its constructor.
    - [Outcome]: how a computation ends, with rules for each construct.
      [GovernorSafety]: every governor ends and keeps all parts in their
      tables; only the one for a building may read outside of a core's.
      [StateInv]: every cycle of a core, an accelerator and the GPU keeps them
      there, on any platform that keeps its own. [RunInv]: so does a cycle of
      the platform. [ClockRates]: what a cycle does to the clocks.
      [GemSample]: a small platform to run. [PlatformTheorems]: what follows.

    ** The simulator

    - [EventQueue] ([sim/eventq.hh], [sim/eventq.cc]): the queue, a list of
      bins of events linked through the heap of event objects.
      [EventQueueSpec]: the heap represents a sorted list of bins ([chain]),
      insertion, removal and service refine the operations on that list.
      [EventOps]: scheduling, creation and deletion of events, global events
      and the barriers between queues ([global_event.cc]), exit events
      ([sim_events.cc]), check-pointing of an event.
    - [SimLoop] ([serviceOne], [sim/simulate.cc]): service, the loop and
      [simulate()], for any objects whose events are given by the class
      [Objects]. [LoopTheorems]: a turn of the loop around one recurring
      event. [EventTheorems], [ExitTheorems]: order of service, removal,
      round trip of scheduling, and what can and cannot end a simulation.
    - [GemLoop] ([GemDroid::startup], [GemDroid::tick]): the platform as
      [Objects]; [GemLoopTheorems]: the loop runs the platform's cycles.
    - [SimClock] ([sim/core.cc], [clocked_object.hh], [clock_domain.cc]),
      with [FloatExact] on doubles that are integers. [IntMath]
      ([base/intmath.hh], [base/intmath.cc], [base/bitfield.hh]).

    ** Packets and memories of gem5

    - [AddrRange] ([base/addr_range.hh]): ranges; merging the interleaved ones.
      [MemPacket] ([mem/request.hh], [mem/packet.hh], [mem/packet.cc],
      [mem/packet_access.hh]): requests, packets, functional checks, of which
      [PacketTheorems] says what they copy. [PacketQueue]
      ([mem/packet_queue.cc]) against any port; [PacketQueueTheorems]: order,
      retries and its event, functional reads of what is queued.
    - [AbstractMemory] ([mem/abstract_mem.cc]): a memory's bytes and
      reservations. [MemoryTheorems]: it refines a map of bytes and one of
      reserved granules.
    - [DramPort] ([mem/dramsim2.cc]): the memory object that puts the DRAM
      simulator behind a port, over the class [DramSim] of the simulator and
      [Master] of its peer. [DramContract]: the laws of a simulator
      ([DramSimLaws]), which the wrapper of [MultiChannel] keeps.
      [DramPortSafety]: the object's invariant, kept by every operation for a
      master that keeps [MasterLaws]. [DramPortTheorems]: its runs, and one
      over the shipped DDR3 device.

    ** Hypotheses

    The memory theorems assume a well-formed configuration ([cfg_ok],
    [geometry_ok], [memory_config]): powers of two for the geometry, positive
    latencies, at most 256 ranks and banks. Runs are at most 2^62 ticks, so
    that the 64-bit cycle counters do not wrap. The frames of devices and
    accelerators are calls for whole cache lines; what happens otherwise is
    [short_call_completes_every_tick] and [part_line_breaks_next_call].
    The theorems about the platform start from parts in their tables
    ([tables_ok]), as its constructor leaves them. That they stay there holds
    under every governor but the one for a building, which can take a core out
    of its table ([building_leaves_table]); a read outside of a core's table is
    a fault of its own ([OutOfTable]), which [run_keeps_tables] excludes. The
    receivers of the agent ([ReceiverLaws]) take every response; the platform
    seen by an IP ([IPPortLaws]) records what it is asked and may refuse any
    memory request. The traces of the cores are well formed ([trace_ok]); the
    platform seen by a core ([CorePortLaws]) may refuse any request. The
    theorems about the loop are for one thread with one main queue, whose
    pending asynchronous requests are none ([quiet]), and a queue that holds
    the platform's event next to any others ([loop_state]). A packet queue is
    at a port that does not call back. The accesses of a memory are inside its
    range ([legal]); the master of the DRAM memory sends such requests other
    than swaps ([admissible]; a swap stops it, [swap_breaks_port]), from its
    own events or from within its callbacks, and a cycle of the memory is a
    whole number of ticks, as it is for every shipped device.

    ** Bounds and fuel

    The scans of [pop] loop until they are back at their start:
    [scan_fuel] = NUM_RANKS * NUM_BANKS turns are enough, and [pop_contract]
    says that [pop] returns. [cross_loop] has as fuel the number of calls
    that the counters allow; [crosser_rate] says that it is enough.
    [load_ips] stops at the latest when it writes past a row. [log2_loop] has
    one step per bit. The governors' loops over the memory's frequencies have
    [memory_fuel] = 12 turns for at most 8 steps of 0.1 GHz, those over
    figures of merit [drain_fuel] = 17 for 16 figures, CoScale's
    [coscale_fuel] = 32 for the steps of the memory and of the part together;
    [governors_end] says that all of these are enough. A chase along the
    pointers of the event queue has one step per event of the heap
    ([chase_fuel]); the refinement lemmas say that it is enough. The loop of
    the simulator is counted in turns ([sim_turns]).

    ** Not modelled

    gem5 outside the files above (CPU models, caches, Ruby, devices, Python
    bindings): third-party code the platform does not depend on. Of the files
    above: virtual requests, the copy of a packet, printing and labels. Barriers of
    several threads are modelled as calls that wait, without the other
    threads. Parsing of ini files and everything that prints or
    writes files: the values read are parameters. DRAMSim2's storage of data
    ([Bank.cpp]) is compiled out (NO_STORAGE); its trace driver is a test
    program. Of the platform: registration and printing of statistics, and
    functions nothing calls ([dvfsCoScale], [dvfsCoScaleNew],
    [leewayAvailable], [powerCalculator], whose flag is never set). *)

From Stdlib Require Export ZArith Lia Bool String.
From Stdlib Require Export SpecFloat.
From stdpp Require Export base tactics decidable option numbers list.

#[global] Open Scope Z_scope.

(** ** Machine integers

    [unsigned] is 32 bits, [uint64_t] is 64 bits; a C++ expression is computed
    in [Z] and wrapped once, which is sound because [+], [-] and [*] commute
    with the reduction modulo a power of two. *)

Definition u32 (x : Z) : Z := x mod 4294967296.
Definition u64 (x : Z) : Z := x mod 18446744073709551616.

(** Conversion to [int]: the two's complement reading of the low 32 bits. *)
Definition i32 (x : Z) : Z :=
  let y := u32 x in if bool_decide (y < 2147483648) then y else y - 4294967296.

Definition in_u32 (x : Z) : Prop := 0 <= x < 4294967296.
Definition in_u64 (x : Z) : Prop := 0 <= x < 18446744073709551616.

(** ** Faults and the result monad

    What stops the program: [exit(-1)], [abort()], a failed [assert], an
    out-of-range element access or a null dereference (undefined behaviour in
    the source), the use of a variable that was never assigned, and the fuel
    of a loop of the model. [OutOfTable] is a read of a core's table of
    frequencies at an index outside of it: the source does not check it and
    goes on with what it finds there, so a claim that a core stays in its table
    has to exclude this fault as well. *)

Inductive Fault : Type :=
| Exit (msg : string)
| Abort (msg : string)
| AssertFail (msg : string)
| OutOfRange
| OutOfTable
| Unassigned
| OutOfFuel.

Inductive Res (A : Type) : Type :=
| Ok (a : A)
| Err (f : Fault).
Arguments Ok {A} a.
Arguments Err {A} f.

#[export] Instance Res_ret : MRet Res := fun A a => Ok a.
#[export] Instance Res_bind : MBind Res := fun A B k m =>
  match m with Ok a => k a | Err f => Err f end.
#[export] Instance Res_fmap : FMap Res := fun A B g m =>
  match m with Ok a => Ok (g a) | Err f => Err f end.

Definition is_ok {A} (m : Res A) : bool :=
  match m with Ok _ => true | Err _ => false end.

Definition of_option {A} (o : option A) : Res A :=
  match o with Some a => Ok a | None => Err OutOfRange end.

Lemma bind_Ok {A B} (m : Res A) (k : A -> Res B) (b : B) :
  m ≫= k = Ok b -> exists a, m = Ok a /\ k a = Ok b.
Proof. destruct m; cbn; [eauto | discriminate]. Qed.

Lemma bind_Err {A B} (m : Res A) (k : A -> Res B) f :
  m ≫= k = Err f -> m = Err f \/ exists a, m = Ok a /\ k a = Err f.
Proof. destruct m; cbn; [eauto | intros [= ->]; auto]. Qed.

Lemma is_ok_true {A} (m : Res A) : is_ok m = true <-> exists a, m = Ok a.
Proof. destruct m; cbn; naive_solver. Qed.

(** ** Indexing by machine integers

    A C++ container is indexed by an unsigned value. *)

Definition zget {A} (l : list A) (i : Z) : option A :=
  if bool_decide (0 <= i) then l !! Z.to_nat i else None.
Definition zalter {A} (g : A -> A) (l : list A) (i : Z) : list A :=
  if bool_decide (0 <= i) then alter g (Z.to_nat i) l else l.
Definition zget2 {A} (l : list (list A)) (i j : Z) : option A :=
  r ← zget l i; zget r j.
Definition zalter2 {A} (g : A -> A) (l : list (list A)) (i j : Z) : list (list A) :=
  zalter (fun r => zalter g r j) l i.
Definition zlen {A} (l : list A) : Z := Z.of_nat (length l).

(** The indices [0 .. n-1] of a [for (size_t i=0; i<n; i++)] loop. *)
Definition zrange (n : Z) : list Z := Z.of_nat <$> seq 0 (Z.to_nat n).

(** A loop whose body may fault, threading a state. *)
Fixpoint foldM {S A} (body : S -> A -> Res S) (s : S) (l : list A) : Res S :=
  match l with
  | [] => Ok s
  | a :: l' => s' ← body s a; foldM body s' l'
  end.

Lemma foldM_app {S A} (body : S -> A -> Res S) s l1 l2 :
  foldM body s (l1 ++ l2) = (s' ← foldM body s l1; foldM body s' l2).
Proof.
  revert s; induction l1 as [|a l1 IH]; intros s; cbn; [done|].
  destruct (body s a); cbn; auto.
Qed.

(** Invariant rule for [foldM]: the body keeps an invariant and never faults. *)
Lemma foldM_inv {S A} (P : S -> Prop) (body : S -> A -> Res S) l :
  (forall s a, a ∈ l -> P s -> exists s', body s a = Ok s' /\ P s') ->
  forall s, P s -> exists s', foldM body s l = Ok s' /\ P s'.
Proof.
  induction l as [|a l IH]; intros Hb s Hs; cbn; [eauto|].
  destruct (Hb s a) as (s' & -> & Hs'); [left | done |].
  apply IH; [|done]. intros; apply Hb; [by right | done].
Qed.

(** The same rule for the loops over [zrange], with the iteration count. *)
Lemma foldM_zrange_inv {S} (P : Z -> S -> Prop) (body : S -> Z -> Res S) n s :
  0 <= n ->
  (forall i s, 0 <= i < n -> P i s -> exists s', body s i = Ok s' /\ P (i + 1) s') ->
  P 0 s -> exists s', foldM body s (zrange n) = Ok s' /\ P n s'.
Proof.
  intros Hn Hb H0.
  assert (forall k m s, (m + k = Z.to_nat n)%nat -> P (Z.of_nat m) s ->
    exists s', foldM body s (Z.of_nat <$> seq m k) = Ok s' /\ P n s') as Hgen.
  { induction k as [|k IH]; intros m s' Hm HP; cbn.
    - exists s'. split; [done|]. replace n with (Z.of_nat m) by lia. done.
    - destruct (Hb (Z.of_nat m) s') as (s2 & -> & H2); [lia | done |]. cbn.
      apply IH; [lia|]. replace (Z.of_nat (Datatypes.S m)) with (Z.of_nat m + 1) by lia. done. }
  apply (Hgen (Z.to_nat n) 0%nat); [lia | done].
Qed.

(** ** Record update *)

Class Setter {R E : Type} (proj : R -> E) := upd_field : (E -> E) -> R -> R.

Declare Scope gem_scope.
Delimit Scope gem_scope with gem.
Notation "r <| p := v |>" := (upd_field (proj:=p) (fun _ => v) r)
  (at level 1, left associativity, v at level 99, p constr at level 11) : gem_scope.
Notation "r <| p ::= g |>" := (upd_field (proj:=p) g r)
  (at level 1, left associativity, g at level 99, p constr at level 11) : gem_scope.
#[global] Open Scope gem_scope.

(** The constructor applied to the projections; setters are derived from it. *)
Class Settable (R : Type) := eta_expand : R -> R.

Ltac mk_setter :=
  lazymatch goal with |- @Setter ?R ?E ?p =>
    let f := fresh "f" in let r := fresh "r" in intros f r;
    let e := constr:(_ : Settable R) in
    let t := eval cbv beta delta [eta_expand] in (@eta_expand R e r) in
    let t := lazymatch t with ?h _ => eval cbv beta delta [h] in t end in
    let pr := constr:(p r) in
    lazymatch eval pattern pr in t with
    | ?F _ => let u := eval cbv beta in (F (f pr)) in exact u
    end
  end.

(** ** Automation *)

Create HintDb gem discriminated.
Create Rewrite HintDb gem.
#[export] Hint Rewrite @length_alter @length_fmap @length_seq @length_app : gem.

(** Peel a monadic equation [m ≫= k = Ok b] into its steps. *)
Ltac res_inv :=
  repeat match goal with
  | H : _ ≫= _ = Ok _ |- _ =>
      let a := fresh "a" in let Ha := fresh "Ha" in
      apply bind_Ok in H as (a & Ha & H)
  | H : Ok _ = Ok _ |- _ => injection H as H; subst
  | H : Err _ = Ok _ |- _ => discriminate H
  | H : Ok _ = Err _ |- _ => discriminate H
  | H : of_option ?o = Ok _ |- _ =>
      let E := fresh "E" in destruct o eqn:E; cbn in H; [injection H as H; subst | discriminate H]
  end.

(** Split every boolean decision of the goal. *)
Ltac bdec :=
  repeat match goal with
  | |- context [bool_decide ?P] => destruct (bool_decide_reflect P)
  end.
Ltac bdec_in H :=
  repeat match type of H with
  | context [bool_decide ?P] => destruct (bool_decide_reflect P)
  end.

(** ** Machine-integer lemmas *)

Lemma u32_small x : in_u32 x -> u32 x = x.
Proof. apply Z.mod_small. Qed.
Lemma u64_small x : in_u64 x -> u64 x = x.
Proof. apply Z.mod_small. Qed.
Lemma u32_range x : in_u32 (u32 x).
Proof. unfold u32, in_u32; apply Z.mod_pos_bound; lia. Qed.
Lemma u64_range x : in_u64 (u64 x).
Proof. unfold u64, in_u64; apply Z.mod_pos_bound; lia. Qed.
Lemma u64_u64 x : u64 (u64 x) = u64 x.
Proof. apply u64_small, u64_range. Qed.
Lemma u32_u64 x : u32 (u64 x) = u32 x.
Proof.
  unfold u32, u64.
  rewrite <- Znumtheory.Zmod_div_mod; [done | lia | lia | ].
  exists 4294967296; reflexivity.
Qed.

(** ** Indexing lemmas *)

Lemma zget_lookup {A} (l : list A) i x :
  zget l i = Some x <-> 0 <= i /\ l !! Z.to_nat i = Some x.
Proof. unfold zget; case_bool_decide; naive_solver. Qed.

Lemma zget_of_nat {A} (l : list A) (i : nat) : zget l (Z.of_nat i) = l !! i.
Proof. unfold zget. by rewrite bool_decide_true, Nat2Z.id by lia. Qed.

Lemma zalter_of_nat {A} (g : A -> A) (l : list A) (i : nat) : zalter g l (Z.of_nat i) = alter g i l.
Proof. unfold zalter. by rewrite bool_decide_true, Nat2Z.id by lia. Qed.

Lemma zget_lt {A} (l : list A) i : 0 <= i < zlen l -> exists x, zget l i = Some x.
Proof.
  unfold zget, zlen; intros; rewrite bool_decide_true by lia.
  apply lookup_lt_is_Some_2; lia.
Qed.

Lemma zget_Some_range {A} (l : list A) i x : zget l i = Some x -> 0 <= i < zlen l.
Proof.
  rewrite zget_lookup; intros [? H%lookup_lt_Some]; unfold zlen; lia.
Qed.

Lemma zget_zalter {A} (g : A -> A) l i j :
  zget (zalter g l i) j = (if bool_decide (i = j) then g <$> zget l j else zget l j).
Proof.
  unfold zget, zalter. repeat case_bool_decide; subst; try lia; try done.
  - apply list_lookup_alter_eq.
  - apply list_lookup_alter_ne; lia.
Qed.

Lemma zlen_zalter {A} (g : A -> A) l i : zlen (zalter g l i) = zlen l.
Proof. unfold zlen, zalter; case_bool_decide; [by rewrite length_alter | done]. Qed.

Lemma zget2_zalter2 {A} (g : A -> A) l i j i' j' :
  zget2 (zalter2 g l i j) i' j' =
    (if bool_decide (i = i' /\ j = j') then g <$> zget2 l i' j' else zget2 l i' j').
Proof.
  unfold zget2, zalter2. rewrite zget_zalter.
  destruct (decide (i = i')) as [<-|].
  - rewrite (bool_decide_true (i = i)) by done.
    destruct (zget l i) as [r|]; cbn; [|by case_bool_decide].
    rewrite zget_zalter. repeat case_bool_decide; naive_solver.
  - rewrite !bool_decide_false by naive_solver. done.
Qed.

Lemma elem_of_zrange n i : i ∈ zrange n <-> 0 <= i < n.
Proof.
  unfold zrange. rewrite list_elem_of_fmap. setoid_rewrite elem_of_seq.
  split; [intros (? & -> & ?); lia | intros; exists (Z.to_nat i); lia].
Qed.

#[export] Hint Rewrite @zlen_zalter @zget_zalter @zget2_zalter2 : gem.

(** ** [imap] forms of in-place updates *)

Lemma zalter_imap {A} (g : A -> A) l i :
  zalter g l i = imap (fun j x => if bool_decide (Z.of_nat j = i) then g x else x) l.
Proof.
  apply list_eq; intros j. rewrite list_lookup_imap.
  pose proof (zget_zalter g l i (Z.of_nat j)) as H.
  unfold zget in H. rewrite !bool_decide_true, Nat2Z.id in H by lia. rewrite H.
  destruct (bool_decide_reflect (i = Z.of_nat j)), (bool_decide_reflect (Z.of_nat j = i));
    try congruence; destruct (l !! j); done.
Qed.

Lemma zalter2_imap {A} (g : A -> A) l i j :
  zalter2 g l i j =
  imap (fun i' r => imap (fun j' x => if bool_decide (Z.of_nat i' = i /\ Z.of_nat j' = j) then g x else x) r) l.
Proof.
  unfold zalter2. rewrite zalter_imap. apply imap_ext; intros i' r _.
  destruct (decide (Z.of_nat i' = i)).
  - rewrite bool_decide_true by done. rewrite zalter_imap.
    apply imap_ext; intros j' x _. by rewrite (bool_decide_ext _ (Z.of_nat i' = i /\ Z.of_nat j' = j)) by naive_solver.
  - rewrite bool_decide_false by done. symmetry. 
    rewrite <- (list_fmap_id r) at 2. rewrite <- imap_const. apply imap_ext; intros j' x _.
    cbn. by rewrite bool_decide_false by naive_solver.
Qed.

Lemma imap_imap {A B C} (g : nat -> B -> C) (h : nat -> A -> B) l :
  imap g (imap h l) = imap (fun j x => g j (h j x)) l.
Proof. apply list_eq; intros j. rewrite !list_lookup_imap. by destruct (l !! j). Qed.

Lemma imap_as_fmap {A B} (g : A -> B) l : g <$> l = imap (fun _ x => g x) l.
Proof. symmetry; apply imap_const. Qed.

Lemma zget_imap {A B} (g : nat -> A -> B) l i :
  zget (imap g l) i = g (Z.to_nat i) <$> zget l i.
Proof. unfold zget. case_bool_decide; [apply list_lookup_imap | done]. Qed.

Lemma zget_fmap {A B} (g : A -> B) l i : zget (g <$> l) i = g <$> zget l i.
Proof. unfold zget. case_bool_decide; [apply list_lookup_fmap | done]. Qed.

Lemma zlen_imap {A B} (g : nat -> A -> B) l : zlen (imap g l) = zlen l.
Proof. unfold zlen. by rewrite length_imap. Qed.

Lemma zlen_fmap {A B} (g : A -> B) l : zlen (g <$> l) = zlen l.
Proof. unfold zlen. by rewrite length_fmap. Qed.

Lemma zlen_app {A} (l k : list A) : zlen (l ++ k) = zlen l + zlen k.
Proof. unfold zlen. rewrite length_app. lia. Qed.

Lemma zlen_snoc {A} (l : list A) a : zlen (l ++ [a]) = zlen l + 1.
Proof. unfold zlen. rewrite length_app. cbn. lia. Qed.

Lemma zlen_cons {A} (a : A) l : zlen (a :: l) = zlen l + 1.
Proof. unfold zlen. cbn. lia. Qed.

Lemma zlen_nonneg {A} (l : list A) : 0 <= zlen l.
Proof. unfold zlen. lia. Qed.

Lemma zlen_replicate {A} n (a : A) : 0 <= n -> zlen (replicate (Z.to_nat n) a) = n.
Proof. unfold zlen. rewrite length_replicate. lia. Qed.

Lemma zlen_zrange n : 0 <= n -> zlen (zrange n) = n.
Proof. unfold zlen, zrange. rewrite length_fmap, length_seq. lia. Qed.

Lemma of_option_zget {A} (l : list A) i :
  0 <= i < zlen l -> exists x, zget l i = Some x /\ of_option (zget l i) = Ok x.
Proof. intros H. destruct (zget_lt l i H) as [x E]. exists x. by rewrite E. Qed.

#[export] Hint Rewrite @zget_imap @zget_fmap @zlen_imap @zlen_fmap @zlen_app : gem.
