(* ===== verification/Outcome.v ===== *)
(** * How a computation ends

    [ends Q m]: [m] does not run out of the fuel of the model, and a result it
    has satisfies [Q]. A computation that stops at an assertion ends.
    [yields Q m] only speaks of the result. The rules follow the shape of the
    code; [ends_tac] applies them, with the lemmas in the database [ends] for
    the calls. *)

From S2P Require Import Prelude.

(** The faults that are allowed, and what holds of a result. *)
Inductive ends_with {A} (allowed : Fault -> Prop) (Q : A -> Prop) : Res A -> Prop :=
| ends_ok a : Q a -> ends_with allowed Q (Ok a)
| ends_err f : allowed f -> ends_with allowed Q (Err f).
#[export] Hint Resolve ends_ok ends_err | 0 : core.

Notation ends := (ends_with (fun f => f <> OutOfFuel)).
Notation yields := (ends_with (fun _ => True)).

Section Rules.
Context {allowed : Fault -> Prop}.
#[local] Notation "'holds' Q m" := (ends_with allowed Q m) (at level 10, Q at level 9, m at level 9).

Lemma ends_bind {A B} (P : A -> Prop) (Q : B -> Prop) (m : Res A) (k : A -> Res B) :
  holds P m -> (forall a, P a -> holds Q (k a)) -> holds Q (m ≫= k).
Proof. intros [a Ha|f Hf] Hk; [by apply Hk | by apply ends_err]. Qed.

Lemma ends_fmap {A B} (Q : B -> Prop) (m : Res A) (g : A -> B) : holds (fun a => Q (g a)) m -> holds Q (g <$> m).
Proof. intros [a Ha|f Hf]; [by apply ends_ok | by apply ends_err]. Qed.

Lemma ends_mono {A} (P Q : A -> Prop) m : holds P m -> (forall a, P a -> Q a) -> holds Q m.
Proof. intros [a Ha|f Hf] H; [by apply ends_ok, H | by apply ends_err]. Qed.

Lemma ends_True {A} (P : A -> Prop) m : holds P m -> holds (fun _ => True) m.
Proof. intros H. by apply (ends_mono _ _ _ H). Qed.

Lemma ends_result {A} (Q : A -> Prop) m a : holds Q m -> m = Ok a -> Q a.
Proof. by intros [b Hb|f Hf] [= <-]. Qed.

Lemma ends_fault {A} (Q : A -> Prop) m f : holds Q m -> m = Err f -> allowed f.
Proof. by intros [b Hb|g Hg] [= <-]. Qed.

Lemma ends_foldM {S A} (P : S -> Prop) (body : S -> A -> Res S) l :
  (forall s a, a ∈ l -> P s -> holds P (body s a)) -> forall s, P s -> holds P (foldM body s l).
Proof.
  induction l as [|a l IH]; intros Hb s Hs; [by apply ends_ok|]. cbn [foldM].
  apply (ends_bind P); [by apply Hb; [left|]|]. intros s' Hs'. apply IH; [|done].
  intros s'' a' Ha'. apply Hb. by right.
Qed.
End Rules.

Lemma ends_no_fuel {A} (Q : A -> Prop) m : ends Q m -> m <> Err OutOfFuel.
Proof. by intros [b Hb|f Hf] [= ->]. Qed.

Lemma ends_yields {A} allowed (Q : A -> Prop) m : ends_with allowed Q m -> yields Q m.
Proof. intros [a Ha|f Hf]; [by apply ends_ok | by apply ends_err]. Qed.

(** Nothing is asked of a result. *)
Lemma yields_any {A} (m : Res A) : yields (fun _ => True) m.
Proof. destruct m; [by apply ends_ok | by apply ends_err]. Qed.

(** A result is what the computation gives. *)
Lemma yields_result {A} (m : Res A) : yields (fun a => m = Ok a) m.
Proof. destruct m; [by apply ends_ok | by apply ends_err]. Qed.

(** What is known of a result may mention the result. *)
Lemma yields_eq {A} (Q : A -> Prop) m : (forall a, m = Ok a -> Q a) -> yields Q m.
Proof. destruct m; intros H; [by apply ends_ok, H | by apply ends_err]. Qed.

Lemma ends_of_option {A} (o : option A) : ends (fun a => o = Some a) (of_option o).
Proof. destruct o; [by apply ends_ok | by apply ends_err]. Qed.

Lemma ends_of_option_reads {A} (o : option A) : ends (fun _ => True) (of_option o).
Proof. exact (ends_True _ _ (ends_of_option o)). Qed.

Create HintDb ends discriminated.
#[export] Hint Constants Opaque : ends.
#[export] Hint Resolve ends_of_option | 0 : ends.
#[export] Hint Resolve ends_of_option_reads | 5 : ends.
#[export] Hint Resolve ends_yields | 10 : ends.

(** Steps of the code; the premises left are about results. *)
Ltac ends_step :=
  lazymatch goal with
  | |- ends_with _ _ (Ok _) => apply ends_ok
  | |- ends_with _ _ (Err _) => apply ends_err; first [exact I | discriminate | solve [auto with ends]]
  | |- ends_with _ _ (mbind _ _) =>
      eapply ends_bind; [first [solve [eauto with ends] | exact (yields_any _)] | let a := fresh "a" in let H := fresh "H" in intros a H; cbv beta in H]
  | |- ends_with _ _ (fmap _ _) => apply ends_fmap
  | |- ends_with _ _ (if ?b then _ else _) => destruct b eqn:?
  | |- ends_with _ _ (let '(_, _) := ?x in _) => destruct x
  | |- ends_with _ _ (let _ := _ in _) => cbv zeta
  | |- ends_with _ _ _ => first [solve [eauto with ends] | exact (yields_any _)]
  end.
Ltac ends_tac := cbv zeta; repeat ends_step.

(** For code that only reads: what is known of intermediate results is dropped
    where no lemma gives it. *)
Ltac ends_read :=
  cbv zeta; repeat first [ends_step | apply (ends_bind (fun _ => True)); [|intros ? _] | apply I].
