(* ===== verification/DramConfig.v ===== *)
(** * DRAM configuration

    The global parameters of DRAMSim2 ([SystemConfiguration.h]), set once by
    the ini reader, as one record; the derived latencies (macros of that
    header); [dramsim_log2] and [isPowerOfTwo]; and the two single-precision
    computations that turn the refresh period into clock cycles. *)

From S2P Require Import Prelude.

(** ** Enumerations of [SystemConfiguration.h] *)

Inductive AddressMappingScheme :=
| Scheme1 | Scheme2 | Scheme3 | Scheme4 | Scheme5 | Scheme6 | Scheme7.

Inductive RowBufferPolicy := OpenPage | ClosePage.

Inductive QueuingStructure := PerRank | PerRankPerBank.

Inductive SchedulingPolicy := RankThenBankRoundRobin | BankThenRankRoundRobin.

#[export] Instance AddressMappingScheme_eq : EqDecision AddressMappingScheme.
Proof. solve_decision. Defined.
#[export] Instance RowBufferPolicy_eq : EqDecision RowBufferPolicy.
Proof. solve_decision. Defined.
#[export] Instance QueuingStructure_eq : EqDecision QueuingStructure.
Proof. solve_decision. Defined.
#[export] Instance SchedulingPolicy_eq : EqDecision SchedulingPolicy.
Proof. solve_decision. Defined.

(** ** Single precision

    [float] is binary32: 24 bits of precision, maximal exponent 128. *)

Module F32.

Definition of_Z (z : Z) : spec_float := binary_normalize 24 128 z 0 false.
Definition div (x y : spec_float) : spec_float := SFdiv 24 128 x y.

(** Conversion to an integer type truncates toward zero. *)
Definition trunc (x : spec_float) : Z :=
  match x with
  | S754_finite s m e =>
      let a := if bool_decide (0 <= e) then Z.shiftl (Zpos m) e
               else Z.shiftr (Zpos m) (- e) in
      if s then - a else a
  | _ => 0
  end.

End F32.

(** ** Double precision

    [double] is binary64. A decimal literal is the double nearest to the
    quotient of two integers that are doubles themselves. *)

Module F64.

Definition of_Z (z : Z) : spec_float := binary_normalize 53 1024 z 0 false.
Definition add (x y : spec_float) : spec_float := SFadd 53 1024 x y.
Definition sub (x y : spec_float) : spec_float := SFsub 53 1024 x y.
Definition mul (x y : spec_float) : spec_float := SFmul 53 1024 x y.
Definition div (x y : spec_float) : spec_float := SFdiv 53 1024 x y.
Definition leb (x y : spec_float) : bool := SFleb x y.
Definition lit (num den : Z) : spec_float := div (of_Z num) (of_Z den).

(** Rounding to single precision, and the exact conversion back. *)
Definition convert (prec emax : Z) (x : spec_float) : spec_float :=
  match x with
  | S754_finite s m e => binary_normalize prec emax (if s then Zneg m else Zpos m) e s
  | _ => x
  end.
Definition to_F32 : spec_float -> spec_float := convert 24 128.
Definition of_F32 : spec_float -> spec_float := convert 53 1024.

Definition ltb (x y : spec_float) : bool := SFltb x y.
Definition eqb (x y : spec_float) : bool := SFeqb x y.

(** [ceil], converted to an integer type. *)
Definition ceil (x : spec_float) : Z :=
  match x with
  | S754_finite s m e =>
      if bool_decide (0 <= e) then F32.trunc x
      else
        let q := Z.shiftr (Zpos m) (- e) in
        if s then - q
        else if bool_decide (Z.shiftl q (- e) = Zpos m) then q else q + 1
  | _ => 0
  end.

End F64.

(** ** Parameters *)

Class Cfg := {
  NUM_CHANS : Z;
  NUM_RANKS : Z;
  NUM_BANKS : Z;
  NUM_ROWS : Z;
  NUM_COLS : Z;
  DEVICE_WIDTH : Z;
  NUM_DEVICES : Z;
  REFRESH_PERIOD : Z;
  tCK : spec_float;
  CL : Z;
  AL : Z;
  BL : Z;
  tRAS : Z;
  tRCD : Z;
  tRRD : Z;
  tRC : Z;
  tRP : Z;
  tCCD : Z;
  tRTP : Z;
  tWTR : Z;
  tWR : Z;
  tRTRS : Z;
  tRFC : Z;
  tFAW : Z;
  tCKE : Z;
  tXP : Z;
  tCMD : Z;
  IDD0 : Z;
  IDD2P : Z;
  IDD2N : Z;
  IDD3N : Z;
  IDD4W : Z;
  IDD4R : Z;
  IDD5 : Z;
  JEDEC_DATA_BUS_BITS : Z;
  TRANS_QUEUE_DEPTH : Z;
  CMD_QUEUE_DEPTH : Z;
  TOTAL_ROW_ACCESSES : Z;
  FRFCFS : bool;
  USE_LOW_POWER : bool;
  rowBufferPolicy : RowBufferPolicy;
  schedulingPolicy : SchedulingPolicy;
  addressMappingScheme : AddressMappingScheme;
  queuingStructure : QueuingStructure
}.

(** The globals the program overwrites while it runs: the clock period, and
    the numbers of ranks and of devices per rank. *)
Definition with_tCK (x : spec_float) (cfg : Cfg) : Cfg := {|
  NUM_CHANS := @NUM_CHANS cfg; NUM_RANKS := @NUM_RANKS cfg; NUM_BANKS := @NUM_BANKS cfg;
  NUM_ROWS := @NUM_ROWS cfg; NUM_COLS := @NUM_COLS cfg; DEVICE_WIDTH := @DEVICE_WIDTH cfg;
  NUM_DEVICES := @NUM_DEVICES cfg; REFRESH_PERIOD := @REFRESH_PERIOD cfg; tCK := x;
  CL := @CL cfg; AL := @AL cfg; BL := @BL cfg; tRAS := @tRAS cfg; tRCD := @tRCD cfg;
  tRRD := @tRRD cfg; tRC := @tRC cfg; tRP := @tRP cfg; tCCD := @tCCD cfg; tRTP := @tRTP cfg;
  tWTR := @tWTR cfg; tWR := @tWR cfg; tRTRS := @tRTRS cfg; tRFC := @tRFC cfg; tFAW := @tFAW cfg;
  tCKE := @tCKE cfg; tXP := @tXP cfg; tCMD := @tCMD cfg; IDD0 := @IDD0 cfg; IDD2P := @IDD2P cfg;
  IDD2N := @IDD2N cfg; IDD3N := @IDD3N cfg; IDD4W := @IDD4W cfg; IDD4R := @IDD4R cfg;
  IDD5 := @IDD5 cfg; JEDEC_DATA_BUS_BITS := @JEDEC_DATA_BUS_BITS cfg;
  TRANS_QUEUE_DEPTH := @TRANS_QUEUE_DEPTH cfg; CMD_QUEUE_DEPTH := @CMD_QUEUE_DEPTH cfg;
  TOTAL_ROW_ACCESSES := @TOTAL_ROW_ACCESSES cfg; FRFCFS := @FRFCFS cfg;
  USE_LOW_POWER := @USE_LOW_POWER cfg; rowBufferPolicy := @rowBufferPolicy cfg;
  schedulingPolicy := @schedulingPolicy cfg; addressMappingScheme := @addressMappingScheme cfg;
  queuingStructure := @queuingStructure cfg
|}.

Definition with_ranks (n devices : Z) (cfg : Cfg) : Cfg := {|
  NUM_CHANS := @NUM_CHANS cfg; NUM_RANKS := n; NUM_BANKS := @NUM_BANKS cfg;
  NUM_ROWS := @NUM_ROWS cfg; NUM_COLS := @NUM_COLS cfg; DEVICE_WIDTH := @DEVICE_WIDTH cfg;
  NUM_DEVICES := devices; REFRESH_PERIOD := @REFRESH_PERIOD cfg; tCK := @tCK cfg; CL := @CL cfg;
  AL := @AL cfg; BL := @BL cfg; tRAS := @tRAS cfg; tRCD := @tRCD cfg; tRRD := @tRRD cfg;
  tRC := @tRC cfg; tRP := @tRP cfg; tCCD := @tCCD cfg; tRTP := @tRTP cfg; tWTR := @tWTR cfg;
  tWR := @tWR cfg; tRTRS := @tRTRS cfg; tRFC := @tRFC cfg; tFAW := @tFAW cfg; tCKE := @tCKE cfg;
  tXP := @tXP cfg; tCMD := @tCMD cfg; IDD0 := @IDD0 cfg; IDD2P := @IDD2P cfg;
  IDD2N := @IDD2N cfg; IDD3N := @IDD3N cfg; IDD4W := @IDD4W cfg; IDD4R := @IDD4R cfg;
  IDD5 := @IDD5 cfg; JEDEC_DATA_BUS_BITS := @JEDEC_DATA_BUS_BITS cfg;
  TRANS_QUEUE_DEPTH := @TRANS_QUEUE_DEPTH cfg; CMD_QUEUE_DEPTH := @CMD_QUEUE_DEPTH cfg;
  TOTAL_ROW_ACCESSES := @TOTAL_ROW_ACCESSES cfg; FRFCFS := @FRFCFS cfg;
  USE_LOW_POWER := @USE_LOW_POWER cfg; rowBufferPolicy := @rowBufferPolicy cfg;
  schedulingPolicy := @schedulingPolicy cfg; addressMappingScheme := @addressMappingScheme cfg;
  queuingStructure := @queuingStructure cfg
|}.

Section Derived.
Context {cfg : Cfg}.

(** ** Latencies *)

Definition RL : Z := u32 (CL + AL).
Definition WL : Z := u32 (RL - 1).
Definition READ_TO_PRE_DELAY : Z := u32 (AL + BL / 2 + Z.max tRTP tCCD - tCCD).
Definition WRITE_TO_PRE_DELAY : Z := u32 (WL + BL / 2 + tWR).
Definition READ_TO_WRITE_DELAY : Z := u32 (RL + BL / 2 + tRTRS - WL).
Definition READ_AUTOPRE_DELAY : Z := u32 (AL + tRTP + tRP).
Definition WRITE_AUTOPRE_DELAY : Z := u32 (WL + BL / 2 + tWR + tRP).
Definition WRITE_TO_READ_DELAY_B : Z := u32 (WL + BL / 2 + tWTR).
Definition WRITE_TO_READ_DELAY_R : Z := u32 (WL + BL / 2 + tRTRS - RL).

(** ** Refresh intervals, in cycles *)

(** [(int)((REFRESH_PERIOD/tCK)/NUM_RANKS)*(i+1)], stored in an [unsigned]. *)
Definition refreshStagger (i : Z) : Z :=
  u32 (F32.trunc (F32.div (F32.div (F32.of_Z REFRESH_PERIOD) tCK) (F32.of_Z NUM_RANKS)) * (i + 1)).

(** [REFRESH_PERIOD/tCK], stored in an [unsigned]. *)
Definition refreshInterval : Z :=
  u32 (F32.trunc (F32.div (F32.of_Z REFRESH_PERIOD) tCK)).

End Derived.

(** ** Logarithms *)

(** The [while (value>0)] loop: 32 iterations are enough for an [unsigned]. *)
Fixpoint log2_loop (fuel : nat) (value logbase2 : Z) : Z :=
  match fuel with
  | O => logbase2
  | S fuel' =>
      if bool_decide (value > 0) then log2_loop fuel' (Z.shiftr value 1) (logbase2 + 1)
      else logbase2
  end.

Definition dramsim_log2 (value : Z) : Z :=
  let orig := value in
  let logbase2 := log2_loop 32 (Z.shiftr value 1) 0 in
  if bool_decide (u32 (Z.shiftl 1 logbase2) < orig) then logbase2 + 1 else logbase2.

(** [1UL << n] is a 64-bit shift; the argument is narrowed to [unsigned]. *)
Definition isPowerOfTwo (x : Z) : bool :=
  bool_decide (u64 (Z.shiftl 1 (dramsim_log2 (u32 x))) = x).

(** ** The configurations the controller is meant for

    Power-of-two geometry, the relations between latencies every shipped
    device file satisfies, and parameters small enough that no latency sum
    wraps. *)

Record cfg_ok (cfg : Cfg) : Prop := {
  ok_ranks : exists k, 0 <= k <= 8 /\ NUM_RANKS = 2 ^ k;
  ok_banks : exists k, 0 <= k <= 8 /\ NUM_BANKS = 2 ^ k;
  ok_CL : 0 <= CL < 65536;
  ok_AL : 0 <= AL <= tRCD;
  ok_BL : 2 <= BL < 65536;
  ok_tRAS : 0 <= tRAS < 65536;
  ok_tRCD : 0 <= tRCD < 65536;
  ok_tRRD : 0 <= tRRD < 65536;
  ok_tRC : 0 <= tRC < 65536;
  ok_tRP : 1 <= tRP < 65536;
  ok_tCCD : 0 <= tCCD < 65536;
  ok_tRTP : 0 <= tRTP < 65536;
  ok_tWTR : 0 <= tWTR < 65536;
  ok_tWR : 0 <= tWR < 65536;
  ok_tRTRS : 0 <= tRTRS < 65536;
  ok_tRFC : 1 <= tRFC < 65536;
  ok_tFAW : 1 <= tFAW < 65536;
  ok_tCKE : 0 <= tCKE < 65536;
  ok_tXP : 0 <= tXP < 65536;
  ok_tCMD : tCMD = 1;
  ok_latency : 2 <= CL + AL;
  ok_burst_gap : BL / 2 <= tRCD - AL + 1;
  ok_read_pre : READ_TO_PRE_DELAY <= READ_AUTOPRE_DELAY;
  ok_burst_pre : BL / 2 <= AL + tRTP + tRP;
  ok_cmd_queue : 2 <= CMD_QUEUE_DEPTH < 4294967296;
  ok_trans_queue : 1 <= TRANS_QUEUE_DEPTH < 4294967296;
  ok_frfcfs : FRFCFS = true -> rowBufferPolicy = OpenPage
}.

(** The shipped Micron part [DDR3_micron_32M_8B_x8_sg15.ini] under
    [gemdroid.ini], with one rank of eight devices (2 GB modules). *)
Definition DDR3_micron_32M_8B_x8_sg15 : Cfg := {|
  NUM_CHANS := 4; NUM_RANKS := 1; NUM_BANKS := 8; NUM_ROWS := 32768;
  NUM_COLS := 1024; DEVICE_WIDTH := 8; NUM_DEVICES := 8;
  REFRESH_PERIOD := 7800; tCK := F32.div (F32.of_Z 3) (F32.of_Z 2);
  CL := 10; AL := 0; BL := 8; tRAS := 24; tRCD := 10; tRRD := 4; tRC := 34;
  tRP := 10; tCCD := 4; tRTP := 5; tWTR := 5; tWR := 10; tRTRS := 1;
  tRFC := 107; tFAW := 20; tCKE := 4; tXP := 4; tCMD := 1;
  IDD0 := 130; IDD2P := 10; IDD2N := 70; IDD3N := 90; IDD4W := 300;
  IDD4R := 255; IDD5 := 305;
  JEDEC_DATA_BUS_BITS := 64; TRANS_QUEUE_DEPTH := 64; CMD_QUEUE_DEPTH := 24;
  TOTAL_ROW_ACCESSES := 32; FRFCFS := true; USE_LOW_POWER := true;
  rowBufferPolicy := OpenPage; schedulingPolicy := RankThenBankRoundRobin;
  addressMappingScheme := Scheme7; queuingStructure := PerRankPerBank
|}.

Lemma DDR3_micron_32M_8B_x8_sg15_ok : cfg_ok DDR3_micron_32M_8B_x8_sg15.
Proof.
  constructor; cbn; try lia; try done.
  - exists 0; lia.
  - exists 3; lia.
Qed.

(** ** The latencies without wrap-around

    Under [cfg_ok] every macro is the plain sum, and at most [2 ^ 19]. *)

Section Latencies.
Context {cfg : Cfg}.
Hypothesis Hok : cfg_ok cfg.

Lemma BL_half : 1 <= BL / 2 < 32768.
Proof.
  pose proof (ok_BL _ Hok). split; [apply Z.div_le_lower_bound; lia | apply Z.div_lt_upper_bound; lia].
Qed.

Lemma burst_pos : 1 <= BL / 2.
Proof. pose proof BL_half; lia. Qed.

Lemma latencies_exact :
  RL = CL + AL /\ WL = CL + AL - 1 /\
  READ_TO_PRE_DELAY = AL + BL / 2 + Z.max tRTP tCCD - tCCD /\
  WRITE_TO_PRE_DELAY = WL + BL / 2 + tWR /\
  READ_TO_WRITE_DELAY = BL / 2 + tRTRS + 1 /\
  READ_AUTOPRE_DELAY = AL + tRTP + tRP /\
  WRITE_AUTOPRE_DELAY = WRITE_TO_PRE_DELAY + tRP /\
  WRITE_TO_READ_DELAY_B = WL + BL / 2 + tWTR /\
  WRITE_TO_READ_DELAY_R = BL / 2 + tRTRS - 1 /\
  u32 (tRCD - AL) = tRCD - AL.
Proof.
  destruct Hok. pose proof BL_half.
  assert (RL = CL + AL) as HRL by (apply u32_small; unfold in_u32; lia).
  assert (WL = CL + AL - 1) as HWL by (unfold WL; rewrite HRL; apply u32_small; unfold in_u32; lia).
  assert (WRITE_TO_PRE_DELAY = WL + BL / 2 + tWR) as HWP
    by (unfold WRITE_TO_PRE_DELAY; apply u32_small; unfold in_u32; lia).
  repeat split; try assumption;
    unfold READ_TO_PRE_DELAY, READ_TO_WRITE_DELAY, READ_AUTOPRE_DELAY, WRITE_AUTOPRE_DELAY,
      WRITE_TO_READ_DELAY_B, WRITE_TO_READ_DELAY_R;
    rewrite ?HWP, ?HRL, ?HWL, u32_small by (unfold in_u32; lia); lia.
Qed.

(** The bounds the simulation proofs use. *)
Lemma latency_bounds :
  1 <= BL / 2 <= 524288 /\ 2 <= RL <= 524288 /\ WL = RL - 1 /\
  1 <= READ_TO_PRE_DELAY <= 524288 /\ 1 <= WRITE_TO_PRE_DELAY <= 524288 /\
  0 <= READ_TO_WRITE_DELAY <= 524288 /\ BL / 2 <= READ_TO_WRITE_DELAY /\
  0 <= READ_AUTOPRE_DELAY <= 524288 /\ 0 <= WRITE_AUTOPRE_DELAY <= 524288 /\
  0 <= WRITE_TO_READ_DELAY_B <= 524288 /\ BL / 2 <= WRITE_TO_READ_DELAY_B /\
  0 <= WRITE_TO_READ_DELAY_R <= 524288 /\
  0 <= u32 (tRCD - AL) <= 524288 /\ BL / 2 <= u32 (tRCD - AL) + 1 /\
  READ_TO_PRE_DELAY <= READ_AUTOPRE_DELAY /\ WRITE_TO_PRE_DELAY <= WRITE_AUTOPRE_DELAY.
Proof.
  pose proof latencies_exact as (E1 & E2 & E3 & E4 & E5 & E6 & E7 & E8 & E9 & E10).
  pose proof BL_half. destruct Hok.
  repeat split; lia.
Qed.

Lemma RL_pos : 1 <= RL.
Proof. pose proof latency_bounds; lia. Qed.
Lemma WL_pos : 1 <= WL.
Proof. pose proof latency_bounds; lia. Qed.

(** A clock value plus a latency does not wrap. *)
Lemma clock_add t d : 0 <= t < 2 ^ 63 -> 0 <= d <= 524288 -> u64 (t + d) = t + d.
Proof.
  change (2 ^ 63) with 9223372036854775808. intros. apply u64_small. unfold in_u64. lia.
Qed.
End Latencies.
