(* ===== verification/AddressMapping.v ===== *)
(** * Address mapping ([AddressMapping.cpp])

    A physical address is cut into channel, rank, bank, row and column fields
    by shifting and xor-ing; seven schemes fix the order of the fields. *)

From S2P Require Import Prelude.
From S2P Require Import DramConfig.

(** The five output parameters of [addressMapping]. *)
Record Mapped := mkMapped {
  newTransactionChan : Z;
  newTransactionRank : Z;
  newTransactionBank : Z;
  newTransactionRow : Z;
  newTransactionColumn : Z
}.

#[export] Instance Mapped_eq : EqDecision Mapped.
Proof. solve_decision. Defined.

(** The block repeated in every scheme: split off the [width] low bits of
    [physicalAddress], [tempA ^ (tempA >> width << width)], narrowed to
    [unsigned]; returns the field and the shifted address. *)
Definition take_field (physicalAddress width : Z) : Z * Z :=
  let tempA := physicalAddress in
  let physicalAddress := Z.shiftr physicalAddress width in
  let tempB := u64 (Z.shiftl physicalAddress width) in
  (u32 (Z.lxor tempA tempB), physicalAddress).

Section AddressMapping.
Context {cfg : Cfg}.

(** ** Field widths *)

Definition transactionSize : Z := u32 (JEDEC_DATA_BUS_BITS / 8 * BL).
Definition channelBitWidth : Z := dramsim_log2 NUM_CHANS.
Definition rankBitWidth : Z := dramsim_log2 NUM_RANKS.
Definition bankBitWidth : Z := dramsim_log2 NUM_BANKS.
Definition rowBitWidth : Z := dramsim_log2 NUM_ROWS.
Definition colBitWidth : Z := dramsim_log2 NUM_COLS.
Definition byteOffsetWidth : Z := dramsim_log2 (JEDEC_DATA_BUS_BITS / 8).
Definition colLowBitWidth : Z := u32 (dramsim_log2 transactionSize - byteOffsetWidth).
Definition colHighBitWidth : Z := u32 (colBitWidth - colLowBitWidth).

(** ** The schemes *)

(** chan:rank:row:col:bank *)
Definition scheme1 (physicalAddress : Z) : Mapped :=
  let '(bank, physicalAddress) := take_field physicalAddress bankBitWidth in
  let '(column, physicalAddress) := take_field physicalAddress colHighBitWidth in
  let '(row, physicalAddress) := take_field physicalAddress rowBitWidth in
  let '(rank, physicalAddress) := take_field physicalAddress rankBitWidth in
  let '(chan, physicalAddress) := take_field physicalAddress channelBitWidth in
  mkMapped chan rank bank row column.

(** chan:row:col:bank:rank *)
Definition scheme2 (physicalAddress : Z) : Mapped :=
  let '(rank, physicalAddress) := take_field physicalAddress rankBitWidth in
  let '(bank, physicalAddress) := take_field physicalAddress bankBitWidth in
  let '(column, physicalAddress) := take_field physicalAddress colHighBitWidth in
  let '(row, physicalAddress) := take_field physicalAddress rowBitWidth in
  let '(chan, physicalAddress) := take_field physicalAddress channelBitWidth in
  mkMapped chan rank bank row column.

(** chan:rank:bank:col:row *)
Definition scheme3 (physicalAddress : Z) : Mapped :=
  let '(row, physicalAddress) := take_field physicalAddress rowBitWidth in
  let '(column, physicalAddress) := take_field physicalAddress colHighBitWidth in
  let '(bank, physicalAddress) := take_field physicalAddress bankBitWidth in
  let '(rank, physicalAddress) := take_field physicalAddress rankBitWidth in
  let '(chan, physicalAddress) := take_field physicalAddress channelBitWidth in
  mkMapped chan rank bank row column.

(** chan:rank:bank:row:col *)
Definition scheme4 (physicalAddress : Z) : Mapped :=
  let '(column, physicalAddress) := take_field physicalAddress colHighBitWidth in
  let '(row, physicalAddress) := take_field physicalAddress rowBitWidth in
  let '(bank, physicalAddress) := take_field physicalAddress bankBitWidth in
  let '(rank, physicalAddress) := take_field physicalAddress rankBitWidth in
  let '(chan, physicalAddress) := take_field physicalAddress channelBitWidth in
  mkMapped chan rank bank row column.

(** chan:row:col:rank:bank *)
Definition scheme5 (physicalAddress : Z) : Mapped :=
  let '(bank, physicalAddress) := take_field physicalAddress bankBitWidth in
  let '(rank, physicalAddress) := take_field physicalAddress rankBitWidth in
  let '(column, physicalAddress) := take_field physicalAddress colHighBitWidth in
  let '(row, physicalAddress) := take_field physicalAddress rowBitWidth in
  let '(chan, physicalAddress) := take_field physicalAddress channelBitWidth in
  mkMapped chan rank bank row column.

(** chan:row:bank:rank:col *)
Definition scheme6 (physicalAddress : Z) : Mapped :=
  let '(column, physicalAddress) := take_field physicalAddress colHighBitWidth in
  let '(rank, physicalAddress) := take_field physicalAddress rankBitWidth in
  let '(bank, physicalAddress) := take_field physicalAddress bankBitWidth in
  let '(row, physicalAddress) := take_field physicalAddress rowBitWidth in
  let '(chan, physicalAddress) := take_field physicalAddress channelBitWidth in
  mkMapped chan rank bank row column.

(** row:col:rank:bank:chan *)
Definition scheme7 (physicalAddress : Z) : Mapped :=
  let '(chan, physicalAddress) := take_field physicalAddress channelBitWidth in
  let '(bank, physicalAddress) := take_field physicalAddress bankBitWidth in
  let '(rank, physicalAddress) := take_field physicalAddress rankBitWidth in
  let '(column, physicalAddress) := take_field physicalAddress colHighBitWidth in
  let '(row, physicalAddress) := take_field physicalAddress rowBitWidth in
  mkMapped chan rank bank row column.

(** The enumeration has no other value, so the [exit(-1)] of the last [else]
    has no counterpart. *)
Definition addressMapping (physicalAddress : Z) : Mapped :=
  let physicalAddress := Z.shiftr physicalAddress byteOffsetWidth in
  let physicalAddress := Z.shiftr physicalAddress colLowBitWidth in
  match addressMappingScheme with
  | Scheme1 => scheme1 physicalAddress
  | Scheme2 => scheme2 physicalAddress
  | Scheme3 => scheme3 physicalAddress
  | Scheme4 => scheme4 physicalAddress
  | Scheme5 => scheme5 physicalAddress
  | Scheme6 => scheme6 physicalAddress
  | Scheme7 => scheme7 physicalAddress
  end.

End AddressMapping.

(** ** Helper lemmas *)

(** On a 64-bit address [take_field] is the remainder and the quotient. *)
Lemma take_field_divmod pa w :
  in_u64 pa -> 0 <= w <= 32 ->
  take_field pa w = (pa mod 2 ^ w, pa / 2 ^ w).
Proof.
  intros Hpa Hw. unfold take_field.
  rewrite Z.shiftr_div_pow2, Z.shiftl_mul_pow2 by lia. f_equal.
  assert (0 < 2 ^ w) by (apply Z.pow_pos_nonneg; lia).
  assert (2 ^ w <= 2 ^ 32) by (apply Z.pow_le_mono_r; lia).
  pose proof (Z.mod_pos_bound pa (2 ^ w) ltac:(lia)).
  pose proof (Z.div_mod pa (2 ^ w) ltac:(lia)) as Hdm.
  assert (0 <= pa / 2 ^ w) by (apply Z.div_pos; unfold in_u64 in Hpa; lia).
  assert (0 <= pa / 2 ^ w * 2 ^ w <= pa).
  { rewrite (Z.mul_comm (pa / 2 ^ w)). split; [apply Z.mul_nonneg_nonneg; lia | lia]. }
  rewrite u64_small by (unfold in_u64 in *; lia).
  replace (Z.lxor pa (pa / 2 ^ w * 2 ^ w)) with (pa mod 2 ^ w).
  { apply u32_small. unfold in_u32. lia. }
  rewrite <- Z.shiftl_mul_pow2, <- Z.shiftr_div_pow2, <- Z.ldiff_ones_r, <- Z.land_ones by lia.
  apply Z.bits_inj'; intros n Hn.
  rewrite Z.lxor_spec, Z.ldiff_spec, Z.land_spec.
  destruct (Z.testbit pa n), (Z.testbit (Z.ones w) n); done.
Qed.

Lemma take_field_snd_u64 pa w :
  in_u64 pa -> 0 <= w <= 32 -> in_u64 (pa / 2 ^ w).
Proof.
  intros [? ?] Hw. assert (0 < 2 ^ w) by (apply Z.pow_pos_nonneg; lia).
  split; [apply Z.div_pos; lia|].
  apply Z.le_lt_trans with pa; [|done].
  apply Z.div_le_upper_bound; [lia|]. nia.
Qed.

(** ** [dramsim_log2] *)

Lemma log2_loop_spec fuel v l :
  0 <= v < 2 ^ Z.of_nat fuel ->
  log2_loop fuel v l = l + (if bool_decide (v = 0) then 0 else Z.log2 v + 1).
Proof.
  revert v l; induction fuel as [|fuel IH]; intros v l Hv.
  - change (2 ^ Z.of_nat 0) with 1 in Hv. assert (v = 0) as -> by lia. rewrite bool_decide_true by done. cbn. lia.
  - cbn [log2_loop]. destruct (bool_decide_reflect (v > 0)).
    + rewrite IH.
      2:{ rewrite Z.shiftr_div_pow2 by lia. change (2 ^ 1) with 2.
          rewrite Nat2Z.inj_succ, Z.pow_succ_r in Hv by lia.
          split; [apply Z.div_pos; lia | apply Z.div_lt_upper_bound; lia]. }
      rewrite (bool_decide_false (v = 0)) by lia.
      case_bool_decide as Hz.
      * rewrite Z.shiftr_div_pow2 in Hz by lia. change (2 ^ 1) with 2 in Hz.
        assert (v = 1) as -> by (pose proof (Z.div_mod v 2); pose proof (Z.mod_pos_bound v 2); lia).
        cbn; lia.
      * rewrite Z.log2_shiftr by lia. 
        rewrite Z.shiftr_div_pow2 in Hz by lia. change (2 ^ 1) with 2 in Hz.
        assert (2 <= v) by (destruct (decide (v = 1)) as [->|]; [done | lia]).
        pose proof (Z.log2_le_mono 2 v ltac:(lia)). change (Z.log2 2) with 1 in *. lia.
    + assert (v = 0) as -> by lia. rewrite bool_decide_true by done. lia.
Qed.

Lemma dramsim_log2_up v : 1 <= v -> in_u32 v -> dramsim_log2 v = Z.log2_up v.
Proof.
  intros H1 Hv. unfold dramsim_log2, in_u32 in *.
  rewrite log2_loop_spec.
  2:{ rewrite Z.shiftr_div_pow2 by lia. change (2 ^ 1) with 2.
      change (2 ^ Z.of_nat 32) with 4294967296.
      split; [apply Z.div_pos; lia | apply Z.div_lt_upper_bound; lia]. }
  destruct (decide (v = 1)) as [->|]; [done|].
  rewrite (bool_decide_false (Z.shiftr v 1 = 0)).
  2:{ rewrite Z.shiftr_div_pow2 by lia. change (2 ^ 1) with 2.
      assert (1 <= v / 2) by (apply Z.div_le_lower_bound; lia). lia. }
  rewrite Z.log2_shiftr by lia.
  assert (1 <= Z.log2 v) by (apply (proj1 (Z.log2_le_pow2 v 1 ltac:(lia))); change (2 ^ 1) with 2; lia).
  replace (0 + (Z.max 0 (Z.log2 v - 1) + 1)) with (Z.log2 v) by lia.
  assert (Z.log2 v < 32) by (apply (proj1 (Z.log2_lt_pow2 v 32 ltac:(lia))); change (2 ^ 32) with 4294967296; lia).
  assert (0 < 2 ^ Z.log2 v) by (apply Z.pow_pos_nonneg; lia).
  pose proof (Z.log2_spec v ltac:(lia)) as [Hl Hu].
  rewrite Z.shiftl_mul_pow2, Z.mul_1_l, u32_small by (unfold in_u32; lia).
  destruct (Z.log2_up_spec v ltac:(lia)) as [Hl' Hu'].
  pose proof (Z.le_log2_log2_up v). pose proof (Z.le_log2_up_succ_log2 v).
  case_bool_decide.
  - assert (Z.log2_up v <> Z.log2 v) by (intros E; rewrite E in Hu'; lia). lia.
  - assert (v = 2 ^ Z.log2 v) as Hvv by lia.
    rewrite Hvv at 2. rewrite Z.log2_up_pow2 by lia. done.
Qed.

Lemma dramsim_log2_bound v : in_u32 v -> 0 <= dramsim_log2 v <= 32.
Proof.
  intros Hv. destruct (decide (v = 0)) as [->|]; [vm_compute; split; discriminate|].
  rewrite dramsim_log2_up by (unfold in_u32 in *; lia).
  split; [apply Z.log2_up_nonneg|].
  change 32 with (Z.log2_up (2 ^ 32)). apply Z.log2_up_le_mono.
  change (2 ^ 32) with 4294967296. unfold in_u32 in *; lia.
Qed.

Lemma dramsim_log2_pow2 k : 0 <= k < 32 -> dramsim_log2 (2 ^ k) = k.
Proof.
  intros Hk. assert (0 < 2 ^ k) by (apply Z.pow_pos_nonneg; lia).
  assert (2 ^ k < 2 ^ 32) by (apply Z.pow_lt_mono_r; lia).
  change (2 ^ 32) with 4294967296 in *.
  rewrite dramsim_log2_up by (unfold in_u32; lia). apply Z.log2_up_pow2; lia.
Qed.

(** ** Reference layout

    A scheme is an order of the five fields; the reference cuts the shifted
    address into those fields by division and remainder, and puts them back
    together by a mixed-radix sum. *)

Fixpoint split_fields (pa : Z) (ws : list Z) : list Z :=
  match ws with
  | [] => []
  | w :: ws' => pa mod 2 ^ w :: split_fields (pa / 2 ^ w) ws'
  end.

Fixpoint join_fields (ws fs : list Z) : Z :=
  match ws, fs with
  | w :: ws', f :: fs' => f + 2 ^ w * join_fields ws' fs'
  | _, _ => 0
  end.

Definition sum_widths (ws : list Z) : Z := foldr Z.add 0 ws.

Lemma sum_widths_nonneg ws : Forall (Z.le 0) ws -> 0 <= sum_widths ws.
Proof. unfold sum_widths. induction 1; cbn; lia. Qed.

Lemma split_fields_bound ws pa :
  Forall (Z.le 0) ws -> Forall2 (fun w f => 0 <= f < 2 ^ w) ws (split_fields pa ws).
Proof.
  intros H; revert pa; induction H as [|w ws Hw _ IH]; intros pa; cbn; [constructor|].
  constructor; [|apply IH]. apply Z.mod_pos_bound, Z.pow_pos_nonneg; lia.
Qed.

Lemma join_split_fields ws pa :
  Forall (Z.le 0) ws -> join_fields ws (split_fields pa ws) = pa mod 2 ^ sum_widths ws.
Proof.
  intros H; revert pa; induction H as [|w ws Hw Hws IH]; intros pa; cbn.
  - by rewrite Z.mod_1_r.
  - fold (sum_widths ws). rewrite IH, Z.pow_add_r by (auto using sum_widths_nonneg).
    assert (0 < 2 ^ w) by (apply Z.pow_pos_nonneg; lia).
    assert (0 < 2 ^ sum_widths ws) by (apply Z.pow_pos_nonneg; auto using sum_widths_nonneg; lia).
    rewrite Z.rem_mul_r by lia. done.
Qed.

(** The geometry address mapping assumes: all counts powers of two, and a
    burst no longer than a row. *)
Record geometry_ok (cfg : Cfg) : Prop := {
  geo_chans : exists k, 0 <= k < 32 /\ NUM_CHANS = 2 ^ k;
  geo_ranks : exists k, 0 <= k < 32 /\ NUM_RANKS = 2 ^ k;
  geo_banks : exists k, 0 <= k < 32 /\ NUM_BANKS = 2 ^ k;
  geo_rows : exists k, 0 <= k < 32 /\ NUM_ROWS = 2 ^ k;
  geo_cols : exists k, 0 <= k < 32 /\ NUM_COLS = 2 ^ k;
  geo_bus : 8 <= JEDEC_DATA_BUS_BITS < 4294967296;
  geo_low : byteOffsetWidth <= dramsim_log2 transactionSize <= byteOffsetWidth + colBitWidth
}.

Lemma DDR3_geometry_ok : geometry_ok DDR3_micron_32M_8B_x8_sg15.
Proof.
  constructor; cbn.
  - exists 2; lia.
  - exists 0; lia.
  - exists 3; lia.
  - exists 15; lia.
  - exists 10; lia.
  - lia.
  - vm_compute; split; discriminate.
Qed.

Section Layout.
Context {cfg : Cfg}.

(** Fields from the least significant one up, with the output each one is. *)
Definition layout : list (Z * (Mapped -> Z)) :=
  let chan := (channelBitWidth, newTransactionChan) in
  let rank := (rankBitWidth, newTransactionRank) in
  let bank := (bankBitWidth, newTransactionBank) in
  let row := (rowBitWidth, newTransactionRow) in
  let col := (colHighBitWidth, newTransactionColumn) in
  match addressMappingScheme with
  | Scheme1 => [bank; col; row; rank; chan]
  | Scheme2 => [rank; bank; col; row; chan]
  | Scheme3 => [row; col; bank; rank; chan]
  | Scheme4 => [col; row; bank; rank; chan]
  | Scheme5 => [bank; rank; col; row; chan]
  | Scheme6 => [col; rank; bank; row; chan]
  | Scheme7 => [chan; bank; rank; col; row]
  end.

Definition layout_widths : list Z := layout.*1.
Definition layout_fields (m : Mapped) : list Z := (fun f => f.2 m) <$> layout.

(** The first byte of the burst a mapped location holds. *)
Definition physical_address (m : Mapped) : Z :=
  Z.shiftl (join_fields layout_widths (layout_fields m)) (byteOffsetWidth + colLowBitWidth).

(** log2 of the bytes all channels hold. *)
Definition capacity_bits : Z := byteOffsetWidth + colLowBitWidth + sum_widths layout_widths.

Hypothesis Hgeo : geometry_ok cfg.

Lemma widths_exact :
  2 ^ channelBitWidth = NUM_CHANS /\ 2 ^ rankBitWidth = NUM_RANKS /\
  2 ^ bankBitWidth = NUM_BANKS /\ 2 ^ rowBitWidth = NUM_ROWS /\ 2 ^ colBitWidth = NUM_COLS /\
  0 <= channelBitWidth < 32 /\ 0 <= rankBitWidth < 32 /\ 0 <= bankBitWidth < 32 /\
  0 <= rowBitWidth < 32 /\ 0 <= colBitWidth < 32.
Proof.
  destruct Hgeo as [(k1 & ? & E1) (k2 & ? & E2) (k3 & ? & E3) (k4 & ? & E4) (k5 & ? & E5) _ _].
  unfold channelBitWidth, rankBitWidth, bankBitWidth, rowBitWidth, colBitWidth.
  rewrite E1, E2, E3, E4, E5, !dramsim_log2_pow2 by done. auto 12 with lia.
Qed.

Lemma low_widths :
  0 <= byteOffsetWidth <= 32 /\
  colLowBitWidth = dramsim_log2 transactionSize - byteOffsetWidth /\
  0 <= colLowBitWidth /\ colHighBitWidth = colBitWidth - colLowBitWidth /\
  0 <= colHighBitWidth <= colBitWidth.
Proof.
  pose proof (geo_low _ Hgeo) as Hlow. pose proof (geo_bus _ Hgeo) as Hbus.
  pose proof widths_exact as (_ & _ & _ & _ & _ & _ & _ & _ & _ & Hc).
  assert (0 <= byteOffsetWidth <= 32) as Hb.
  { apply dramsim_log2_bound. unfold in_u32. split; [apply Z.div_pos; lia|].
    apply Z.div_lt_upper_bound; lia. }
  assert (colLowBitWidth = dramsim_log2 transactionSize - byteOffsetWidth) as El
    by (apply u32_small; unfold in_u32; lia).
  assert (colHighBitWidth = colBitWidth - colLowBitWidth) as Eh
    by (apply u32_small; unfold in_u32; lia).
  lia.
Qed.

Lemma layout_widths_nonneg : Forall (fun w => 0 <= w <= 32) layout_widths.
Proof.
  pose proof widths_exact. pose proof low_widths.
  unfold layout_widths, layout. destruct addressMappingScheme; cbn; repeat constructor; lia.
Qed.

Definition shifted (pa : Z) : Z := Z.shiftr (Z.shiftr pa byteOffsetWidth) colLowBitWidth.

Lemma shifted_u64 pa : in_u64 pa -> in_u64 (shifted pa).
Proof.
  pose proof widths_exact. pose proof low_widths. intros.
  unfold shifted. rewrite !Z.shiftr_div_pow2 by lia.
  apply take_field_snd_u64; [|lia]. apply take_field_snd_u64; [done | lia].
Qed.

Lemma fields_split pa :
  in_u64 pa -> layout_fields (addressMapping pa) = split_fields (shifted pa) layout_widths.
Proof.
  intros Hpa%shifted_u64.
  pose proof widths_exact. pose proof low_widths.
  unfold layout_fields, layout_widths, addressMapping, layout. fold (shifted pa).
  destruct addressMappingScheme;
    cbn [fmap list_fmap fst snd split_fields];
    unfold scheme1, scheme2, scheme3, scheme4, scheme5, scheme6, scheme7;
    rewrite !take_field_divmod by (repeat apply take_field_snd_u64; first [assumption | lia]);
    reflexivity.
Qed.
End Layout.

(** ** Properties *)

Section Properties.
Context {cfg : Cfg}.

Lemma widths_nonneg_le : geometry_ok cfg -> Forall (Z.le 0) layout_widths.
Proof. intros H. eapply Forall_impl; [exact (layout_widths_nonneg H)|]. cbn; lia. Qed.

Lemma join_layout pa :
  geometry_ok cfg -> in_u64 pa ->
  join_fields layout_widths (layout_fields (addressMapping pa)) =
  pa / 2 ^ (byteOffsetWidth + colLowBitWidth) mod 2 ^ sum_widths layout_widths.
Proof.
  intros Hgeo Hpa. pose proof (low_widths Hgeo).
  rewrite fields_split, join_split_fields by auto using widths_nonneg_le.
  unfold shifted. rewrite Z.shiftr_shiftr, Z.shiftr_div_pow2 by lia. done.
Qed.

Lemma fields_in_range pa :
  geometry_ok cfg -> in_u64 pa ->
  (0 <= newTransactionRank (addressMapping pa) < NUM_RANKS /\
   0 <= newTransactionBank (addressMapping pa) < NUM_BANKS) /\
  0 <= newTransactionChan (addressMapping pa) < NUM_CHANS /\
  0 <= newTransactionRow (addressMapping pa) < NUM_ROWS /\
  0 <= newTransactionColumn (addressMapping pa) < 2 ^ colHighBitWidth.
Proof.
  intros Hgeo Hpa.
  pose proof (split_fields_bound layout_widths (shifted pa) (widths_nonneg_le Hgeo)) as Hb.
  rewrite <- fields_split in Hb by done. generalize dependent (addressMapping pa). intros m Hb.
  destruct (widths_exact Hgeo) as (<- & <- & <- & <- & _).
  unfold layout_widths, layout_fields, layout in Hb.
  destruct addressMappingScheme; cbn in Hb;
    repeat match goal with H : Forall2 _ (_ :: _) (_ :: _) |- _ => inversion H; clear H; subst end;
    auto.
Qed.

(** Every component [addressMapping] returns is inside the geometry, for
    all seven schemes and all 64-bit addresses; the column moreover skips the
    bits that select a word inside a burst. *)
Theorem mapping_in_bounds pa :
  geometry_ok cfg -> in_u64 pa ->
  let m := addressMapping pa in
  0 <= newTransactionChan m < NUM_CHANS /\ 0 <= newTransactionRank m < NUM_RANKS /\
  0 <= newTransactionBank m < NUM_BANKS /\ 0 <= newTransactionRow m < NUM_ROWS /\
  0 <= newTransactionColumn m /\ newTransactionColumn m * 2 ^ colLowBitWidth < NUM_COLS.
Proof.
  intros Hgeo Hpa m. destruct (fields_in_range pa Hgeo Hpa) as ((? & ?) & ? & ? & Hc0 & Hc).
  repeat (split; [done|]).
  destruct (widths_exact Hgeo) as (_ & _ & _ & _ & <- & _).
  destruct (low_widths Hgeo) as (_ & _ & ? & Eh & ?).
  replace colBitWidth with (colHighBitWidth + colLowBitWidth) by lia.
  rewrite Z.pow_add_r by lia. apply Z.mul_lt_mono_pos_r; [|done].
  apply Z.pow_pos_nonneg; lia.
Qed.

(** C28: mapping an address and reassembling the fields in the scheme's order
    gives back the address, modulo the capacity and with the bits inside a
    burst cleared. *)
Theorem mapping_roundtrip pa :
  geometry_ok cfg -> in_u64 pa ->
  physical_address (addressMapping pa) =
  (pa mod 2 ^ capacity_bits) / 2 ^ (byteOffsetWidth + colLowBitWidth)
    * 2 ^ (byteOffsetWidth + colLowBitWidth).
Proof.
  intros Hgeo Hpa. unfold physical_address, capacity_bits.
  destruct (low_widths Hgeo) as (? & _ & ? & _).
  pose proof (sum_widths_nonneg _ (widths_nonneg_le Hgeo)).
  rewrite join_layout, Z.shiftl_mul_pow2 by (done || lia). f_equal.
  set (l := byteOffsetWidth + colLowBitWidth) in *.
  assert (0 < 2 ^ l) by (apply Z.pow_pos_nonneg; lia).
  assert (0 < 2 ^ sum_widths layout_widths) by (apply Z.pow_pos_nonneg; lia).
  rewrite Z.pow_add_r, Z.rem_mul_r by lia.
  rewrite Z.add_comm, Z.mul_comm, Z.div_add_l by lia.
  rewrite (Z.div_small (pa mod 2 ^ l)) by (apply Z.mod_pos_bound; lia). lia.
Qed.

(** C27: two addresses inside the capacity that are mapped to the same channel,
    rank, bank, row and column lie in the same burst: no two bursts of the
    memory share a location. *)
Theorem mapping_injective pa pb :
  geometry_ok cfg -> in_u64 pa -> in_u64 pb ->
  pa < 2 ^ capacity_bits -> pb < 2 ^ capacity_bits ->
  addressMapping pa = addressMapping pb ->
  pa / 2 ^ (byteOffsetWidth + colLowBitWidth) = pb / 2 ^ (byteOffsetWidth + colLowBitWidth).
Proof.
  intros Hgeo Ha Hb Hac Hbc Heq.
  destruct (low_widths Hgeo) as (? & _ & ? & _).
  pose proof (sum_widths_nonneg _ (widths_nonneg_le Hgeo)).
  pose proof (join_layout pa Hgeo Ha) as Ja. pose proof (join_layout pb Hgeo Hb) as Jb.
  unfold capacity_bits in *. set (l := byteOffsetWidth + colLowBitWidth) in *.
  rewrite Z.pow_add_r in Hac, Hbc by lia.
  assert (0 < 2 ^ l) by (apply Z.pow_pos_nonneg; lia).
  unfold in_u64 in *.
  rewrite Z.mod_small in Ja by (split; [apply Z.div_pos; lia | apply Z.div_lt_upper_bound; lia]).
  rewrite Z.mod_small in Jb by (split; [apply Z.div_pos; lia | apply Z.div_lt_upper_bound; lia]).
  congruence.
Qed.

End Properties.

Lemma isPowerOfTwo_pow2 k : 0 <= k < 32 -> isPowerOfTwo (2 ^ k) = true.
Proof.
  intros Hk. assert (2 ^ k <= 2 ^ 31) by (apply Z.pow_le_mono_r; lia).
  pose proof (Z.pow_pos_nonneg 2 k ltac:(lia) ltac:(lia)). change (2 ^ 31) with 2147483648 in *.
  unfold isPowerOfTwo. rewrite u32_small, dramsim_log2_pow2 by (unfold in_u32; lia).
  rewrite Z.shiftl_mul_pow2, Z.mul_1_l, u64_small by (unfold in_u64; lia).
  by apply bool_decide_true.
Qed.

(** [isPowerOfTwo] decides being a power of two, for 32-bit values. *)
Theorem isPowerOfTwo_correct x :
  in_u32 x -> isPowerOfTwo x = true <-> exists k, 0 <= k /\ x = 2 ^ k.
Proof.
  intros Hx. unfold isPowerOfTwo. rewrite bool_decide_eq_true, u32_small by done.
  pose proof (dramsim_log2_bound x Hx) as Hb.
  rewrite Z.shiftl_mul_pow2, Z.mul_1_l by lia.
  assert (2 ^ dramsim_log2 x <= 2 ^ 32) by (apply Z.pow_le_mono_r; lia).
  change (2 ^ 32) with 4294967296 in *.
  rewrite u64_small by (split; [apply Z.pow_nonneg; lia | lia]).
  split; [intros <-; eexists; split; [apply Hb | done]|].
  intros (k & Hk & ->). rewrite dramsim_log2_pow2; [done|].
  split; [done|]. apply (Z.pow_lt_mono_r_iff 2); unfold in_u32 in *; lia.
Qed.

(** ** Witnesses *)

Lemma mapping_in_bounds_witness :
  0 <= newTransactionBank (@addressMapping DDR3_micron_32M_8B_x8_sg15 123456789) < 8.
Proof.
  pose proof (@mapping_in_bounds DDR3_micron_32M_8B_x8_sg15 123456789 DDR3_geometry_ok
    ltac:(unfold in_u64; lia)) as (_ & _ & H & _). exact H.
Defined.

Lemma mapping_roundtrip_witness :
  @physical_address DDR3_micron_32M_8B_x8_sg15
    (@addressMapping DDR3_micron_32M_8B_x8_sg15 123456789) = 123456768.
Proof.
  rewrite (@mapping_roundtrip DDR3_micron_32M_8B_x8_sg15 123456789 DDR3_geometry_ok
    ltac:(unfold in_u64; lia)). vm_compute. reflexivity.
Defined.

Lemma mapping_injective_witness :
  123456768 / 64 = 123456789 / 64.
Proof.
  apply (@mapping_injective DDR3_micron_32M_8B_x8_sg15 123456768 123456789 DDR3_geometry_ok);
    first [unfold in_u64; lia | vm_compute; reflexivity].
Defined.

Lemma isPowerOfTwo_witness : isPowerOfTwo 4096 = true.
Proof. apply (isPowerOfTwo_correct 4096); [unfold in_u32; lia | exists 12; lia]. Defined.
