(* ===== verification/Pipe.v ===== *)
(** * Delay pipelines that feed a bus

    Reads leaving a rank and write data leaving the controller share a shape:
    each item waits for a countdown, the oldest takes the bus when its
    countdown ends and holds it for a burst. [cds] are the countdowns, oldest
    first, and [busy] the cycles the bus is still taken. *)

From S2P Require Import Prelude.

Section Pipe.
(** The burst length on the bus. *)
Context (g : Z).
Hypothesis Hg : 1 <= g.

Fixpoint spaced (cds : list Z) : Prop :=
  match cds with
  | c :: ((c' :: _) as cds') => c + g <= c' /\ spaced cds'
  | _ => True
  end.

Record pipe_ok (cds : list Z) (busy : Z) : Prop := {
  pipe_spaced : spaced cds;
  pipe_pos : Forall (Z.le 1) cds;
  pipe_busy : 0 <= busy <= g;
  pipe_head : forall c, head cds = Some c -> busy <= c
}.

(** The number of cycles until the bus is free for a new item. *)
Definition pipe_end (cds : list Z) (busy : Z) : Z :=
  match last cds with Some c => c + g | None => busy end.

(** One cycle: the bus frees up first, then the head may take it. *)
Definition pipe_tick (cds : list Z) (busy : Z) : list Z * Z :=
  let busy := Z.max 0 (busy - 1) in
  let cds := Z.pred <$> cds in
  match cds with
  | c :: cds' => if bool_decide (c = 0) then (cds', g) else (cds, busy)
  | [] => ([], busy)
  end.

Lemma spaced_pred cds : spaced cds -> spaced (Z.pred <$> cds).
Proof.
  induction cds as [|c [|c' cds] IH]; cbn; [done..|].
  intros [? ?]. split; [lia | by apply IH].
Qed.

Lemma spaced_tail c cds : spaced (c :: cds) -> spaced cds.
Proof. destruct cds; cbn; [done | by intros [_ ?]]. Qed.

(** The countdowns increase along the pipeline. *)
Lemma spaced_above c cds : spaced (c :: cds) -> Forall (fun c' => c + g <= c') cds.
Proof.
  revert c; induction cds as [|c' cds IH]; intros c; [constructor|].
  intros [Hc Hs]. constructor; [done|].
  eapply Forall_impl; [exact (IH _ Hs)|]. cbn; lia.
Qed.

Lemma pipe_tick_free cds busy :
  pipe_ok cds busy -> head (Z.pred <$> cds) = Some 0 -> busy <= 1.
Proof.
  intros [_ Hp _ Hh]. destruct cds as [|c cds]; cbn in *; [done|].
  intros [= Hc]. specialize (Hh c eq_refl). lia.
Qed.

Lemma pipe_end_pred cds : cds <> [] -> pipe_end (Z.pred <$> cds) 0 = pipe_end cds 0 - 1.
Proof.
  intros Hne. unfold pipe_end. rewrite fmap_last.
  destruct (last cds) as [c|] eqn:E; cbn; [lia|]. by apply last_None in E.
Qed.

Lemma pipe_end_nonempty cds b b' : cds <> [] -> pipe_end cds b = pipe_end cds b'.
Proof.
  intros Hne. unfold pipe_end. destruct (last cds) eqn:E; [done|]. by apply last_None in E.
Qed.

Lemma pipe_end_nonneg cds busy : pipe_ok cds busy -> 0 <= pipe_end cds busy.
Proof.
  intros [_ Hp Hb _]. unfold pipe_end. destruct (last cds) as [c|] eqn:E; [|lia].
  apply last_Some_elem_of in E. rewrite Forall_forall in Hp. specialize (Hp _ E). lia.
Qed.

(** A cycle keeps the pipeline well formed and one cycle nearer to its end. *)
Lemma pipe_tick_ok cds busy :
  pipe_ok cds busy ->
  let '(cds', busy') := pipe_tick cds busy in
  pipe_ok cds' busy' /\ pipe_end cds' busy' = Z.max 0 (pipe_end cds busy - 1).
Proof.
  intros Hok. pose proof (pipe_end_nonneg _ _ Hok) as Hnn.
  destruct Hok as [Hs Hp Hb Hh]. unfold pipe_tick.
  destruct cds as [|c cds]; cbn [fmap list_fmap].
  { split; [split; cbn; [done | constructor | lia | done] | unfold pipe_end; cbn; lia]. }
  pose proof (spaced_above _ _ Hs) as Ha. pose proof (spaced_tail _ _ Hs) as Hs'.
  inversion Hp as [|? ? Hc Hp']; subst. specialize (Hh c eq_refl).
  case_bool_decide as Hz.
  - assert (c = 1) as -> by lia. split.
    + split; [by apply spaced_pred | | lia | ].
      * rewrite Forall_fmap. eapply Forall_impl; [exact Ha|]. cbn; lia.
      * destruct cds as [|c' cds]; cbn; [done|]. intros ? [= <-].
        inversion Ha; subst. lia.
    + destruct cds as [|c' cds]; [unfold pipe_end; cbn; lia|].
      rewrite (pipe_end_nonempty _ g 0) by done. rewrite pipe_end_pred by done.
      unfold pipe_end in *. rewrite last_cons_cons in *.
      destruct (last (c' :: cds)) as [l|] eqn:E; [|by apply last_None in E].
      apply last_Some_elem_of in E. rewrite Forall_forall in Ha. specialize (Ha _ E). lia.
  - split.
    + split; [exact (spaced_pred _ Hs) | | lia | ].
      * constructor; [lia|]. rewrite Forall_fmap. eapply Forall_impl; [exact Ha|]. cbn; lia.
      * cbn. intros ? [= <-]. lia.
    + change (Z.pred c :: (Z.pred <$> cds)) with (Z.pred <$> c :: cds).
      rewrite (pipe_end_nonempty _ _ 0) by done. rewrite pipe_end_pred by done.
      rewrite (pipe_end_nonempty (c :: cds) busy 0) by done.
      unfold pipe_end in *. destruct (last (c :: cds)) as [l|] eqn:E; [|by apply last_None in E].
      apply last_Some_elem_of in E.
      assert (1 <= l) by (rewrite Forall_forall in Hp; by apply Hp). lia.
Qed.

(** An item may enter with countdown [L] once the pipeline ends by then. *)
Lemma pipe_push_ok cds busy L :
  1 <= L -> pipe_ok cds busy -> pipe_end cds busy <= L ->
  pipe_ok (cds ++ [L]) busy /\ pipe_end (cds ++ [L]) busy = L + g.
Proof.
  intros HL [Hs Hp Hb Hh] He. split.
  - split.
    + clear Hp Hh. induction cds as [|c [|c' cds] IH]; cbn; [done| |].
      * unfold pipe_end in He; cbn in He. lia.
      * destruct Hs as [? Hs]. split; [done|]. by apply IH.
    + apply Forall_app. split; [done | by repeat constructor].
    + done.
    + destruct cds as [|c cds]; cbn; [|intros ? [= <-]; by apply Hh].
      intros ? [= <-]. unfold pipe_end in He; cbn in He. lia.
  - unfold pipe_end. by rewrite last_snoc.
Qed.

Lemma pipe_empty : pipe_ok [] 0.
Proof. split; cbn; [done | constructor | lia | done]. Qed.

(** Countdowns that are bounded stay so. *)
Lemma pipe_bound cds busy c : pipe_ok cds busy -> c ∈ cds -> 1 <= c <= pipe_end cds busy - g.
Proof.
  intros [Hs Hp _ _] Hc. split; [rewrite Forall_forall in Hp; by apply Hp|].
  clear Hp. unfold pipe_end. induction cds as [|c0 cds IH]; [by apply not_elem_of_nil in Hc|].
  pose proof (spaced_above _ _ Hs) as Ha. pose proof (spaced_tail _ _ Hs) as Hs'.
  apply elem_of_cons in Hc as [->|Hc].
  - destruct cds as [|c1 cds]; cbn [last]; [lia|].
    destruct (last (c1 :: cds)) as [l|] eqn:E; [|by apply last_None in E].
    apply last_Some_elem_of in E. rewrite Forall_forall in Ha. specialize (Ha _ E). lia.
  - destruct cds as [|c1 cds]; [by apply not_elem_of_nil in Hc|]. by apply IH.
Qed.
End Pipe.
