(* ===== verification/BusTypes.v ===== *)
(** * Commands, packets, transactions and bank states

    The data the controller, the command queue and the ranks exchange
    ([BusPacket], [Transaction], [BankState]). The storage of the ranks is
    compiled out (NO_STORAGE), so a [data] pointer is only carried around; it
    is kept as the pointer's value, 0 for NULL. *)

From S2P Require Import Prelude.
From S2P Require Import DramConfig.

(** ** Bus packets *)

Inductive BusPacketType :=
| READ | READ_P | WRITE | WRITE_P | ACTIVATE | PRECHARGE | REFRESH | DATA.

#[export] Instance BusPacketType_eq : EqDecision BusPacketType.
Proof. solve_decision. Defined.

Record BusPacket := mkBusPacket {
  busPacketType : BusPacketType;
  bp_column : Z;
  bp_row : Z;
  bp_bank : Z;
  bp_rank : Z;
  bp_physicalAddress : Z;
  bp_data : Z;
  bp_sender_type : Z;
  bp_sender_id : Z
}.

#[export] Instance eta_BusPacket : Settable BusPacket := fun r =>
  mkBusPacket (busPacketType r) (bp_column r) (bp_row r) (bp_bank r) (bp_rank r)
    (bp_physicalAddress r) (bp_data r) (bp_sender_type r) (bp_sender_id r).

#[export] Instance BusPacket_eq : EqDecision BusPacket.
Proof. solve_decision. Defined.

#[export] Instance set_busPacketType : Setter busPacketType := ltac:(mk_setter).
#[export] Instance set_bp_sender_type : Setter bp_sender_type := ltac:(mk_setter).
#[export] Instance set_bp_sender_id : Setter bp_sender_id := ltac:(mk_setter).

(** The constructor, in the source's argument order; no sender yet. *)
Definition BusPacket_new (packtype : BusPacketType) (physicalAddr col rw r b dat : Z) : BusPacket :=
  mkBusPacket packtype col rw b r physicalAddr dat (-1) (-1).

Definition BusPacket_setSender (sender_type sender_id : Z) (p : BusPacket) : BusPacket :=
  p <| bp_sender_type := sender_type |> <| bp_sender_id := sender_id |>.

(** ** Transactions *)

Inductive TransactionType := DATA_READ | DATA_WRITE | RETURN_DATA.

#[export] Instance TransactionType_eq : EqDecision TransactionType.
Proof. solve_decision. Defined.

Record Transaction := mkTransaction {
  transactionType : TransactionType;
  tr_address : Z;
  tr_data : Z;
  timeAdded : Z;
  timeReturned : Z;
  tr_sender_type : Z;
  tr_sender_id : Z
}.

#[export] Instance eta_Transaction : Settable Transaction := fun r =>
  mkTransaction (transactionType r) (tr_address r) (tr_data r) (timeAdded r) (timeReturned r)
    (tr_sender_type r) (tr_sender_id r).

#[export] Instance Transaction_eq : EqDecision Transaction.
Proof. solve_decision. Defined.
#[export] Instance set_timeAdded : Setter timeAdded := ltac:(mk_setter).
#[export] Instance set_tr_sender_type : Setter tr_sender_type := ltac:(mk_setter).
#[export] Instance set_tr_sender_id : Setter tr_sender_id := ltac:(mk_setter).

(** The constructor sets only the first three fields; the indeterminate ones
    are 0 here, and no code reads them before they are set. *)
Definition Transaction_new (transType : TransactionType) (addr dat : Z) : Transaction :=
  mkTransaction transType addr dat 0 0 0 0.

(** The copy constructor drops the data pointer and the sender. *)
Definition Transaction_copy (t : Transaction) : Transaction :=
  mkTransaction (transactionType t) (tr_address t) 0 (timeAdded t) (timeReturned t) 0 0.

Definition Transaction_setSender (sender_type sender_id : Z) (t : Transaction) : Transaction :=
  t <| tr_sender_type := sender_type |> <| tr_sender_id := sender_id |>.

(** The column command of a transaction under the row-buffer policy. *)
Definition getBusPacketType {cfg : Cfg} (t : Transaction) : Res BusPacketType :=
  match transactionType t with
  | DATA_READ =>
      if decide (rowBufferPolicy = ClosePage) then Ok READ_P else Ok READ
  | DATA_WRITE =>
      if decide (rowBufferPolicy = ClosePage) then Ok WRITE_P else Ok WRITE
  | RETURN_DATA =>
      Err (Abort "This transaction type doesn't have a corresponding bus packet type")
  end.

(** ** Bank states *)

Inductive CurrentBankState := Idle | RowActive | Precharging | Refreshing | PowerDown.

#[export] Instance CurrentBankState_eq : EqDecision CurrentBankState.
Proof. solve_decision. Defined.

Record BankState := mkBankState {
  currentBankState : CurrentBankState;
  openRowAddress : Z;
  nextRead : Z;
  nextWrite : Z;
  nextActivate : Z;
  nextPrecharge : Z;
  nextPowerUp : Z;
  lastCommand : BusPacketType;
  stateChangeCountdown : Z
}.

#[export] Instance eta_BankState : Settable BankState := fun r =>
  mkBankState (currentBankState r) (openRowAddress r) (nextRead r) (nextWrite r) (nextActivate
    r) (nextPrecharge r) (nextPowerUp r) (lastCommand r) (stateChangeCountdown r).

#[export] Instance set_currentBankState : Setter currentBankState := ltac:(mk_setter).
#[export] Instance set_openRowAddress : Setter openRowAddress := ltac:(mk_setter).
#[export] Instance set_nextRead : Setter nextRead := ltac:(mk_setter).
#[export] Instance set_nextWrite : Setter nextWrite := ltac:(mk_setter).
#[export] Instance set_nextActivate : Setter nextActivate := ltac:(mk_setter).
#[export] Instance set_nextPrecharge : Setter nextPrecharge := ltac:(mk_setter).
#[export] Instance set_nextPowerUp : Setter nextPowerUp := ltac:(mk_setter).
#[export] Instance set_lastCommand : Setter lastCommand := ltac:(mk_setter).
#[export] Instance set_stateChangeCountdown : Setter stateChangeCountdown := ltac:(mk_setter).

(** All banks start precharged. *)
Definition BankState_new : BankState := mkBankState Idle 0 0 0 0 0 0 READ 0.

(** ** The data-bus interface

    A rank hands a packet that has left the data bus to its attached memory
    controller, which is all it knows of it. *)
Class BusReceiver (M : Type) := bus_receiveFromBus : M -> BusPacket -> Res M.

(** Decide comparisons between the constructors of the enumerations. *)
Ltac enum_dec :=
  repeat match goal with
  | |- context [bool_decide (@eq ?T ?a ?b)] =>
      first [ rewrite (bool_decide_true (a = b)) by reflexivity
            | rewrite (bool_decide_false (a = b)) by discriminate ]
  | |- context [bool_decide (?a <> ?a)] =>
      rewrite (bool_decide_false (a <> a)) by (intros N; by apply N)
  end; cbn [andb orb negb].
