(* ===== verification/DramRank.v ===== *)
(** * Ranks ([Rank.cpp])

    A rank keeps the real state of its banks. Every command is checked against
    that state and stops the program when it arrives too early or in the wrong
    state; read data waits RL cycles, occupies the data bus for BL/2 cycles and
    is handed to the attached controller. *)

From S2P Require Import Prelude.
From S2P Require Import DramConfig.
From S2P Require Import BusTypes.

Record Rank := mkRank {
  rk_id : Z;
  incomingWriteBank : Z;
  incomingWriteRow : Z;
  incomingWriteColumn : Z;
  isPowerDown : bool;
  rk_outgoingDataPacket : option BusPacket;
  rk_dataCyclesLeft : Z;
  rk_refreshWaiting : bool;
  readReturnPacket : list BusPacket;
  readReturnCountdown : list Z;
  rk_bankStates : list BankState;
  rk_currentClockCycle : Z
}.

#[export] Instance eta_Rank : Settable Rank := fun r =>
  mkRank (rk_id r) (incomingWriteBank r) (incomingWriteRow r) (incomingWriteColumn r)
    (isPowerDown r) (rk_outgoingDataPacket r) (rk_dataCyclesLeft r) (rk_refreshWaiting r)
    (readReturnPacket r) (readReturnCountdown r) (rk_bankStates r) (rk_currentClockCycle r).

#[export] Instance set_rk_id : Setter rk_id := ltac:(mk_setter).
#[export] Instance set_incomingWriteBank : Setter incomingWriteBank := ltac:(mk_setter).
#[export] Instance set_incomingWriteRow : Setter incomingWriteRow := ltac:(mk_setter).
#[export] Instance set_incomingWriteColumn : Setter incomingWriteColumn := ltac:(mk_setter).
#[export] Instance set_isPowerDown : Setter isPowerDown := ltac:(mk_setter).
#[export] Instance set_rk_outgoingDataPacket : Setter rk_outgoingDataPacket := ltac:(mk_setter).
#[export] Instance set_rk_dataCyclesLeft : Setter rk_dataCyclesLeft := ltac:(mk_setter).
#[export] Instance set_rk_refreshWaiting : Setter rk_refreshWaiting := ltac:(mk_setter).
#[export] Instance set_readReturnPacket : Setter readReturnPacket := ltac:(mk_setter).
#[export] Instance set_readReturnCountdown : Setter readReturnCountdown := ltac:(mk_setter).
#[export] Instance set_rk_bankStates : Setter rk_bankStates := ltac:(mk_setter).
#[export] Instance set_rk_currentClockCycle : Setter rk_currentClockCycle := ltac:(mk_setter).

Section Rank.
Context {cfg : Cfg}.

(** [Rank::Rank]; the constructor leaves [incomingWrite*] indeterminate, and
    nothing reads them. *)
Definition Rank_new : Rank :=
  mkRank (-1) 0 0 0 false None 0 false [] [] (replicate (Z.to_nat NUM_BANKS) BankState_new) 0.

Definition Rank_setId (id : Z) (r : Rank) : Rank := r <| rk_id := id |>.

(** [bankStates[packet->bank]]. *)
Definition Rank_bank (r : Rank) (b : Z) : Res BankState := of_option (zget (rk_bankStates r) b).

(** ** Column commands *)

(** The check shared by the four column commands. *)
Definition column_allowed (now : Z) (nextTime : BankState -> Z) (row : Z) (b : BankState) : bool :=
  negb (bool_decide (currentBankState b <> RowActive) || bool_decide (now < nextTime b)
        || bool_decide (row <> openRowAddress b)).

Definition Rank_READ_bank (now : Z) (b : BankState) : BankState :=
  b <| nextPrecharge ::= fun t => Z.max t (u64 (now + READ_TO_PRE_DELAY)) |>.

(** The loop over all banks after a READ or READ_P. *)
Definition Rank_read_all (now : Z) (b : BankState) : BankState :=
  b <| nextRead ::= fun t => Z.max t (u64 (now + Z.max tCCD (BL / 2))) |>
    <| nextWrite ::= fun t => Z.max t (u64 (now + READ_TO_WRITE_DELAY)) |>.

(** The packet becomes a DATA packet that waits RL cycles. *)
Definition Rank_queue_read (packet : BusPacket) (r : Rank) : Rank :=
  r <| readReturnPacket ::= fun l => l ++ [packet <| busPacketType := DATA |>] |>
    <| readReturnCountdown ::= fun l => l ++ [RL] |>.

Definition Rank_receive_READ (r : Rank) (packet : BusPacket) : Res Rank :=
  let now := rk_currentClockCycle r in
  b ← Rank_bank r (bp_bank packet);
  if negb (column_allowed now nextRead (bp_row packet) b)
  then Err (Exit "received a READ when not allowed")
  else
    let r := r <| rk_bankStates ::= fun bs => zalter (Rank_READ_bank now) bs (bp_bank packet) |> in
    let r := r <| rk_bankStates ::= fmap (Rank_read_all now) |> in
    Ok (Rank_queue_read packet r).

Definition Rank_READ_P_bank (now : Z) (b : BankState) : BankState :=
  b <| currentBankState := Idle |>
    <| nextActivate ::= fun t => Z.max t (u64 (now + READ_AUTOPRE_DELAY)) |>.

Definition Rank_receive_READ_P (r : Rank) (packet : BusPacket) : Res Rank :=
  let now := rk_currentClockCycle r in
  b ← Rank_bank r (bp_bank packet);
  if negb (column_allowed now nextRead (bp_row packet) b)
  then Err (Exit "received a READ_P when not allowed")
  else
    let r := r <| rk_bankStates ::= fun bs => zalter (Rank_READ_P_bank now) bs (bp_bank packet) |> in
    let r := r <| rk_bankStates ::= fmap (Rank_read_all now) |> in
    Ok (Rank_queue_read packet r).

(** The loop over all banks after a WRITE or WRITE_P. *)
Definition Rank_write_all (now : Z) (b : BankState) : BankState :=
  b <| nextRead ::= fun t => Z.max t (u64 (now + WRITE_TO_READ_DELAY_B)) |>
    <| nextWrite ::= fun t => Z.max t (u64 (now + Z.max tCCD (BL / 2))) |>.

(** Note where the data is going when it arrives. *)
Definition Rank_note_write (packet : BusPacket) (r : Rank) : Rank :=
  r <| incomingWriteBank := bp_bank packet |>
    <| incomingWriteRow := bp_row packet |>
    <| incomingWriteColumn := bp_column packet |>.

Definition Rank_WRITE_bank (now : Z) (b : BankState) : BankState :=
  b <| nextPrecharge ::= fun t => Z.max t (u64 (now + WRITE_TO_PRE_DELAY)) |>.

Definition Rank_receive_WRITE (r : Rank) (packet : BusPacket) : Res Rank :=
  let now := rk_currentClockCycle r in
  b ← Rank_bank r (bp_bank packet);
  if negb (column_allowed now nextWrite (bp_row packet) b)
  then Err (Exit "received a WRITE when not allowed")
  else
    let r := r <| rk_bankStates ::= fun bs => zalter (Rank_WRITE_bank now) bs (bp_bank packet) |> in
    let r := r <| rk_bankStates ::= fmap (Rank_write_all now) |> in
    Ok (Rank_note_write packet r).

Definition Rank_WRITE_P_bank (now : Z) (b : BankState) : BankState :=
  b <| currentBankState := Idle |>
    <| nextActivate ::= fun t => Z.max t (u64 (now + WRITE_AUTOPRE_DELAY)) |>.

Definition Rank_receive_WRITE_P (r : Rank) (packet : BusPacket) : Res Rank :=
  let now := rk_currentClockCycle r in
  b ← Rank_bank r (bp_bank packet);
  if negb (column_allowed now nextWrite (bp_row packet) b)
  then Err (Exit "received a WRITE_P when not allowed")
  else
    let r := r <| rk_bankStates ::= fun bs => zalter (Rank_WRITE_P_bank now) bs (bp_bank packet) |> in
    let r := r <| rk_bankStates ::= fmap (Rank_write_all now) |> in
    Ok (Rank_note_write packet r).

(** ** Row commands *)

(** Both branches of [if (AL>0)] assign the same values. *)
Definition Rank_ACTIVATE_bank (now row : Z) (b : BankState) : BankState :=
  b <| currentBankState := RowActive |>
    <| nextActivate := u64 (now + tRC) |>
    <| openRowAddress := row |>
    <| nextWrite := u64 (now + u32 (tRCD - AL)) |>
    <| nextRead := u64 (now + u32 (tRCD - AL)) |>
    <| nextPrecharge := u64 (now + tRAS) |>.

Definition Rank_ACTIVATE_other (now : Z) (b : BankState) : BankState :=
  b <| nextActivate ::= fun t => Z.max t (u64 (now + tRRD)) |>.

Definition Rank_receive_ACTIVATE (r : Rank) (packet : BusPacket) : Res Rank :=
  let now := rk_currentClockCycle r in
  b ← Rank_bank r (bp_bank packet);
  if bool_decide (currentBankState b <> Idle) || bool_decide (now < nextActivate b)
  then Err (Exit "received an ACT when not allowed")
  else
    let r := r <| rk_bankStates ::= fun bs =>
      zalter (Rank_ACTIVATE_bank now (bp_row packet)) bs (bp_bank packet) |> in
    Ok (r <| rk_bankStates ::= imap (fun i b =>
      if bool_decide (Z.of_nat i <> bp_bank packet) then Rank_ACTIVATE_other now b else b) |>).

Definition Rank_PRECHARGE_bank (now : Z) (b : BankState) : BankState :=
  b <| currentBankState := Idle |>
    <| nextActivate ::= fun t => Z.max t (u64 (now + tRP)) |>.

Definition Rank_receive_PRECHARGE (r : Rank) (packet : BusPacket) : Res Rank :=
  let now := rk_currentClockCycle r in
  b ← Rank_bank r (bp_bank packet);
  if bool_decide (currentBankState b <> RowActive) || bool_decide (now < nextPrecharge b)
  then Err (Exit "received a PRE when not allowed")
  else Ok (r <| rk_bankStates ::= fun bs => zalter (Rank_PRECHARGE_bank now) bs (bp_bank packet) |>).

(** The refresh loop: check and set bank by bank, stopping the program at the
    first bank that is not idle. *)
Fixpoint refresh_banks (now : Z) (bs : list BankState) : Res (list BankState) :=
  match bs with
  | [] => Ok []
  | b :: bs' =>
      if bool_decide (currentBankState b <> Idle)
      then Err (Exit "received a REF when not allowed")
      else
        bs'' ← refresh_banks now bs';
        Ok (b <| nextActivate := u64 (now + tRFC) |> :: bs'')
  end.

Definition Rank_receive_REFRESH (r : Rank) (packet : BusPacket) : Res Rank :=
  let r := r <| rk_refreshWaiting := false |> in
  bs ← refresh_banks (rk_currentClockCycle r) (rk_bankStates r);
  Ok (r <| rk_bankStates := bs |>).

(** ** [Rank::receiveFromBus] *)

Definition Rank_receiveFromBus (r : Rank) (packet : BusPacket) : Res Rank :=
  match busPacketType packet with
  | READ => Rank_receive_READ r packet
  | READ_P => Rank_receive_READ_P r packet
  | WRITE => Rank_receive_WRITE r packet
  | WRITE_P => Rank_receive_WRITE_P r packet
  | ACTIVATE => Rank_receive_ACTIVATE r packet
  | PRECHARGE => Rank_receive_PRECHARGE r packet
  | REFRESH => Rank_receive_REFRESH r packet
  | DATA => Ok r
  end.

(** ** [Rank::update] *)

(** Book-keeping for the packet on the data bus. *)
Definition Rank_update_outgoing {M} `{!BusReceiver M} (r : Rank) (mc : M) : Res (Rank * M) :=
  match rk_outgoingDataPacket r with
  | None => Ok (r, mc)
  | Some packet =>
      let r := r <| rk_dataCyclesLeft ::= fun n => u32 (n - 1) |> in
      if bool_decide (rk_dataCyclesLeft r = 0)
      then mc ← bus_receiveFromBus mc packet; Ok (r <| rk_outgoingDataPacket := None |>, mc)
      else Ok (r, mc)
  end.

(** Count the waiting reads down; the head goes on the data bus at 0. *)
Definition Rank_update_returns (r : Rank) : Res Rank :=
  let r := r <| readReturnCountdown ::= fmap (fun c => u32 (c - 1)) |> in
  match readReturnCountdown r with
  | c :: cs =>
      if bool_decide (c = 0)
      then
        match readReturnPacket r with
        | p :: ps =>
            Ok (r <| rk_outgoingDataPacket := Some p |>
                  <| rk_dataCyclesLeft := BL / 2 |>
                  <| readReturnPacket := ps |>
                  <| readReturnCountdown := cs |>)
        | [] => Err OutOfRange
        end
      else Ok r
  | [] => Ok r
  end.

Definition Rank_update {M} `{!BusReceiver M} (r : Rank) (mc : M) : Res (Rank * M) :=
  '(r, mc) ← Rank_update_outgoing r mc;
  r ← Rank_update_returns r;
  Ok (r, mc).

Definition Rank_step (r : Rank) : Rank := r <| rk_currentClockCycle ::= fun c => u64 (c + 1) |>.

(** ** Power modes *)

Fixpoint powerDown_banks (now : Z) (bs : list BankState) : Res (list BankState) :=
  match bs with
  | [] => Ok []
  | b :: bs' =>
      if bool_decide (currentBankState b <> Idle)
      then Err (Exit "Trying to power down rank while not all banks are idle")
      else
        bs'' ← powerDown_banks now bs';
        Ok (b <| nextPowerUp := u64 (now + tCKE) |> <| currentBankState := PowerDown |> :: bs'')
  end.

Definition Rank_powerDown (r : Rank) : Res Rank :=
  bs ← powerDown_banks (rk_currentClockCycle r) (rk_bankStates r);
  Ok (r <| rk_bankStates := bs |> <| isPowerDown := true |>).

Fixpoint powerUp_banks (now : Z) (bs : list BankState) : Res (list BankState) :=
  match bs with
  | [] => Ok []
  | b :: bs' =>
      if bool_decide (nextPowerUp b > now)
      then Err (Exit "Trying to power up rank before we're allowed to")
      else
        bs'' ← powerUp_banks now bs';
        Ok (b <| nextActivate := u64 (now + tXP) |> <| currentBankState := Idle |> :: bs'')
  end.

Definition Rank_powerUp (r : Rank) : Res Rank :=
  if negb (isPowerDown r)
  then Err (Exit "Trying to power up rank while it is not already powered down")
  else
    let r := r <| isPowerDown := false |> in
    bs ← powerUp_banks (rk_currentClockCycle r) (rk_bankStates r);
    Ok (r <| rk_bankStates := bs |>).

End Rank.
