(* ===== verification/CommandQueue.v ===== *)
(** * The command queue ([CommandQueue.cpp])

    Per-rank or per-rank-per-bank queues of commands, scanned round robin each
    cycle for one command that may be issued: refreshes first, then column
    accesses and activates, then (open page) precharges of rows nobody waits
    for. The bank states belong to the memory controller, which passes a
    reference to the constructor; here they are an argument. *)

From S2P Require Import Prelude.
From S2P Require Import DramConfig.
From S2P Require Import BusTypes.

Record CommandQueue := mkCommandQueue {
  queues : list (list (list BusPacket));
  nextBank : Z;
  nextRank : Z;
  nextBankPRE : Z;
  nextRankPRE : Z;
  cq_refreshRank : Z;
  cq_refreshWaiting : bool;
  tFAWCountdown : list (list Z);
  rowAccessCounters : list (list Z);
  sendAct : bool;
  totalRowBufferHitsPerBank : list (list Z);
  totalAccessesPerBank : list (list Z);
  prevEpochTotalRowBufferHitsPerBank : list (list Z);
  prevEpochTotalAccessesPerBank : list (list Z);
  cq_currentClockCycle : Z
}.

#[export] Instance eta_CommandQueue : Settable CommandQueue := fun r =>
  mkCommandQueue (queues r) (nextBank r) (nextRank r) (nextBankPRE r) (nextRankPRE r)
    (cq_refreshRank r) (cq_refreshWaiting r) (tFAWCountdown r) (rowAccessCounters r) (sendAct r)
    (totalRowBufferHitsPerBank r) (totalAccessesPerBank r) (prevEpochTotalRowBufferHitsPerBank
    r) (prevEpochTotalAccessesPerBank r) (cq_currentClockCycle r).

#[export] Instance set_queues : Setter queues := ltac:(mk_setter).
#[export] Instance set_nextBank : Setter nextBank := ltac:(mk_setter).
#[export] Instance set_nextRank : Setter nextRank := ltac:(mk_setter).
#[export] Instance set_nextBankPRE : Setter nextBankPRE := ltac:(mk_setter).
#[export] Instance set_nextRankPRE : Setter nextRankPRE := ltac:(mk_setter).
#[export] Instance set_cq_refreshRank : Setter cq_refreshRank := ltac:(mk_setter).
#[export] Instance set_cq_refreshWaiting : Setter cq_refreshWaiting := ltac:(mk_setter).
#[export] Instance set_tFAWCountdown : Setter tFAWCountdown := ltac:(mk_setter).
#[export] Instance set_rowAccessCounters : Setter rowAccessCounters := ltac:(mk_setter).
#[export] Instance set_sendAct : Setter sendAct := ltac:(mk_setter).
#[export] Instance set_totalRowBufferHitsPerBank : Setter totalRowBufferHitsPerBank := ltac:(mk_setter).
#[export] Instance set_totalAccessesPerBank : Setter totalAccessesPerBank := ltac:(mk_setter).
#[export] Instance set_prevEpochTotalRowBufferHitsPerBank :
  Setter prevEpochTotalRowBufferHitsPerBank := ltac:(mk_setter).
#[export] Instance set_prevEpochTotalAccessesPerBank :
  Setter prevEpochTotalAccessesPerBank := ltac:(mk_setter).
#[export] Instance set_cq_currentClockCycle : Setter cq_currentClockCycle := ltac:(mk_setter).

(** READ, READ_P, WRITE and WRITE_P: the disjunction the scheduler repeats. *)
Definition is_column (t : BusPacketType) : bool :=
  bool_decide (t = READ) || bool_decide (t = READ_P)
  || bool_decide (t = WRITE) || bool_decide (t = WRITE_P).

(** [checkDependency(packet, queue, pos)], also written out in the FCFS loop:
    an earlier non-activate command to the same bank and row. *)
Definition checkDependency (packet : BusPacket) (queue : list BusPacket) (pos : nat) : bool :=
  existsb (fun prevPacket =>
    bool_decide (busPacketType prevPacket <> ACTIVATE) &&
    bool_decide (bp_bank prevPacket = bp_bank packet) &&
    bool_decide (bp_row prevPacket = bp_row packet)) (take pos queue).

(** [queue.erase(queue.begin()+i)]. *)
Definition erase_at {A} (i : nat) (l : list A) : Res (list A) :=
  if bool_decide (i < length l)%nat then Ok (take i l ++ drop (S i) l) else Err OutOfRange.

(** [queue.erase(queue.begin()+i-1, queue.begin()+i+1)]. *)
Definition erase_pair {A} (i : nat) (l : list A) : Res (list A) :=
  if bool_decide (i < length l)%nat then Ok (take (i - 1) l ++ drop (S i) l) else Err OutOfRange.

(** A search loop with [break]: the index and value of the first element that
    satisfies a test; the test sees the index. *)
Fixpoint find_first {A} (test : A -> nat -> Res bool) (l : list A) (i : nat) : Res (option (nat * A)) :=
  match l with
  | [] => Ok None
  | a :: l' =>
      hit ← test a i;
      if (hit : bool) then Ok (Some (i, a)) else find_first test l' (S i)
  end.

Section CommandQueue.
Context {cfg : Cfg}.

(** ** Construction *)

Definition numBankQueues : Z :=
  match queuingStructure with PerRank => 1 | PerRankPerBank => NUM_BANKS end.

(** [perBankQueue] is not cleared between ranks: rank [r] gets [(r+1)] times
    as many queues as it needs. *)
Definition initial_queues : list (list (list BusPacket)) :=
  (fun rank => replicate (Z.to_nat ((rank + 1) * numBankQueues)) []) <$> zrange NUM_RANKS.

Definition per_bank {A} (a : A) : list (list A) :=
  replicate (Z.to_nat NUM_RANKS) (replicate (Z.to_nat NUM_BANKS) a).

Definition CommandQueue_new : Res CommandQueue :=
  let cq := mkCommandQueue initial_queues 0 0 0 0 0 false
    (replicate (Z.to_nat NUM_RANKS) []) (per_bank 0) true
    (per_bank 0) (per_bank 0) (per_bank 0) (per_bank 0) 0 in
  if FRFCFS && negb (bool_decide (rowBufferPolicy = OpenPage))
  then Err (AssertFail "rowBufferPolicy==OpenPage")
  else Ok cq.

(** ** Queue access *)

(** The index of the queue of a bank: the bank is ignored per rank. *)
Definition queue_index (bank : Z) : Z :=
  match queuingStructure with PerRankPerBank => bank | PerRank => 0 end.

Definition getCommandQueue (cq : CommandQueue) (rank bank : Z) : Res (list BusPacket) :=
  of_option (zget2 (queues cq) rank (queue_index bank)).

(** Assignment through the reference [getCommandQueue] returns. *)
Definition setCommandQueue (cq : CommandQueue) (rank bank : Z) (q : list BusPacket) : CommandQueue :=
  cq <| queues ::= fun qs => zalter2 (fun _ => q) qs rank (queue_index bank) |>.

Definition enqueue (cq : CommandQueue) (newBusPacket : BusPacket) : Res CommandQueue :=
  let rank := bp_rank newBusPacket in
  let bank := bp_bank newBusPacket in
  queue ← getCommandQueue cq rank bank;
  let queue := queue ++ [newBusPacket] in
  let cq := setCommandQueue cq rank bank queue in
  if bool_decide (zlen queue > CMD_QUEUE_DEPTH)
  then Err (Exit "Enqueued more than allowed in command queue")
  else Ok cq.

(** [CMD_QUEUE_DEPTH - queue.size()] is a 64-bit difference. *)
Definition hasRoomFor (cq : CommandQueue) (numberToEnqueue rank bank : Z) : Res bool :=
  queue ← getCommandQueue cq rank bank;
  Ok (bool_decide (u64 (CMD_QUEUE_DEPTH - zlen queue) >= numberToEnqueue)).

(** The per-bank loop stops at the first nonempty queue. *)
Fixpoint all_empty (cq : CommandQueue) (rank : Z) (banks : list Z) : Res bool :=
  match banks with
  | [] => Ok true
  | i :: banks' =>
      q ← of_option (zget2 (queues cq) rank i);
      match q with
      | [] => all_empty cq rank banks'
      | _ :: _ => Ok false
      end
  end.

Definition isEmpty (cq : CommandQueue) (rank : Z) : Res bool :=
  match queuingStructure with
  | PerRank =>
      q ← of_option (zget2 (queues cq) rank 0);
      Ok (match q with [] => true | _ :: _ => false end)
  | PerRankPerBank => all_empty cq rank (zrange NUM_BANKS)
  end.

Definition needRefresh (cq : CommandQueue) (rank : Z) : CommandQueue :=
  cq <| cq_refreshWaiting := true |> <| cq_refreshRank := rank |>.

(** ** Round robin *)

Definition nextRankAndBank (rank bank : Z) : Z * Z :=
  match schedulingPolicy with
  | RankThenBankRoundRobin =>
      let rank := u32 (rank + 1) in
      if bool_decide (rank = NUM_RANKS)
      then
        let bank := u32 (bank + 1) in
        (0, if bool_decide (bank = NUM_BANKS) then 0 else bank)
      else (rank, bank)
  | BankThenRankRoundRobin =>
      let bank := u32 (bank + 1) in
      if bool_decide (bank = NUM_BANKS)
      then
        let rank := u32 (rank + 1) in
        (if bool_decide (rank = NUM_RANKS) then 0 else rank, 0)
      else (rank, bank)
  end.

(** The step of the round robin over queues: ranks only when the queues are
    per rank. Returns the new [(nextRank, nextBank)] and whether the scan is
    back at its start. *)
Definition scan_next (startingRank startingBank rank bank : Z) : (Z * Z) * bool :=
  match queuingStructure with
  | PerRank =>
      let rank := u32 (rank + 1) mod NUM_RANKS in
      ((rank, bank), bool_decide (startingRank = rank))
  | PerRankPerBank =>
      let '(rank, bank) := nextRankAndBank rank bank in
      ((rank, bank), bool_decide (startingRank = rank) && bool_decide (startingBank = bank))
  end.

Section WithBanks.
(** The controller's bank states. *)
Context (bankStates : list (list BankState)).

Definition getBank (rank bank : Z) : Res BankState := of_option (zget2 bankStates rank bank).

(** ** [CommandQueue::isIssuable] *)

Definition isIssuable (cq : CommandQueue) (busPacket : BusPacket) : Res bool :=
  let now := cq_currentClockCycle cq in
  let rank := bp_rank busPacket in
  let bank := bp_bank busPacket in
  match busPacketType busPacket with
  | REFRESH => Ok false
  | ACTIVATE =>
      b ← getBank rank bank;
      window ← of_option (zget (tFAWCountdown cq) rank);
      Ok ((bool_decide (currentBankState b = Idle) || bool_decide (currentBankState b = Refreshing))
          && bool_decide (now >= nextActivate b) && bool_decide (zlen window < 4))
  | WRITE | WRITE_P =>
      b ← getBank rank bank;
      accesses ← of_option (zget2 (rowAccessCounters cq) rank bank);
      Ok (bool_decide (currentBankState b = RowActive) && bool_decide (now >= nextWrite b)
          && bool_decide (bp_row busPacket = openRowAddress b)
          && bool_decide (accesses < TOTAL_ROW_ACCESSES))
  | READ_P | READ =>
      b ← getBank rank bank;
      accesses ← of_option (zget2 (rowAccessCounters cq) rank bank);
      Ok (bool_decide (currentBankState b = RowActive) && bool_decide (now >= nextRead b)
          && bool_decide (bp_row busPacket = openRowAddress b)
          && bool_decide (accesses < TOTAL_ROW_ACCESSES))
  | PRECHARGE =>
      b ← getBank rank bank;
      Ok (bool_decide (currentBankState b = RowActive) && bool_decide (now >= nextPrecharge b))
  | DATA => Err (Exit "Trying to issue a crazy bus packet type")
  end.

(** ** [CommandQueue::pop], stage by stage

    A stage returns the packet it put in [*busPacket], if any. *)

(** *** The four-activate window *)

Definition tFAW_tick (w : list Z) : list Z :=
  let w := (fun c => u32 (c - 1)) <$> w in
  match w with
  | c :: w' => if bool_decide (c = 0) then w' else w
  | [] => w
  end.

(** *** Refresh, closed page *)

(** The first command of the queue to the open row of bank [b], popped if it
    may go. *)
Fixpoint refresh_find_closed (cq : CommandQueue) (openRow b : Z) (queue : list BusPacket) (j : nat)
  : Res (option (nat * BusPacket)) :=
  match queue with
  | [] => Ok None
  | packet :: queue' =>
      if bool_decide (bp_row packet = openRow) && bool_decide (bp_bank packet = b)
      then
        if bool_decide (busPacketType packet <> ACTIVATE)
        then
          iss ← isIssuable cq packet;
          Ok (if (iss : bool) then Some (j, packet) else None)
        else Ok None
      else refresh_find_closed cq openRow b queue' (S j)
  end.

(** The loop over the banks; the boolean is [foundActiveOrTooEarly]. *)
Fixpoint refresh_banks_closed (cq : CommandQueue) (banks : list Z)
  : Res (bool * option BusPacket * CommandQueue) :=
  match banks with
  | [] => Ok (false, None, cq)
  | b :: banks' =>
      let refreshRank := cq_refreshRank cq in
      queue ← getCommandQueue cq refreshRank b;
      bs ← getBank refreshRank b;
      if bool_decide (currentBankState bs = RowActive)
      then
        found ← refresh_find_closed cq (openRowAddress bs) b queue 0;
        match found with
        | Some (j, packet) =>
            queue ← erase_at j queue;
            Ok (true, Some packet, setCommandQueue cq refreshRank b queue)
        | None => Ok (true, None, cq)
        end
      else if bool_decide (nextActivate bs > cq_currentClockCycle cq)
      then Ok (true, None, cq)
      else refresh_banks_closed cq banks'
  end.

(** [refreshRank = -1]. *)
Definition no_rank : Z := 4294967295.

Definition issue_refresh (cq : CommandQueue) : Res (option BusPacket * CommandQueue) :=
  Ok (Some (BusPacket_new REFRESH 0 0 0 (cq_refreshRank cq) 0 0),
      cq <| cq_refreshRank := no_rank |> <| cq_refreshWaiting := false |>).

Definition refresh_stage_closed (cq : CommandQueue) : Res (option BusPacket * CommandQueue) :=
  if cq_refreshWaiting cq
  then
    '(foundActiveOrTooEarly, packet, cq) ← refresh_banks_closed cq (zrange NUM_BANKS);
    if (foundActiveOrTooEarly : bool) then Ok (packet, cq)
    else
      b0 ← getBank (cq_refreshRank cq) 0;
      if bool_decide (currentBankState b0 <> PowerDown) then issue_refresh cq else Ok (packet, cq)
  else Ok (None, cq).

(** *** Refresh, open page *)

(** The scan of the queue: [(closeRow, command to send out)]. *)
Fixpoint refresh_find_open (cq : CommandQueue) (openRow b : Z) (queue : list BusPacket) (j : nat)
  : Res (bool * option (nat * BusPacket)) :=
  match queue with
  | [] => Ok (true, None)
  | packet :: queue' =>
      if bool_decide (openRow = bp_row packet) && bool_decide (b = bp_bank packet)
      then
        if bool_decide (busPacketType packet <> ACTIVATE)
        then
          iss ← isIssuable cq packet;
          Ok (false, if (iss : bool) then Some (j, packet) else None)
        else Ok (true, None)
      else refresh_find_open cq openRow b queue' (S j)
  end.

(** An active bank: send out a command to its row, or close it. *)
Definition refresh_active_open (cq : CommandQueue) (b : Z) (bs : BankState)
  : Res (option BusPacket * CommandQueue) :=
  let refreshRank := cq_refreshRank cq in
  refreshQueue ← getCommandQueue cq refreshRank b;
  '(closeRow, found) ← refresh_find_open cq (openRowAddress bs) b refreshQueue 0;
  '(packet, cq) ←
    match found with
    | Some (j, packet) =>
        queue ← erase_at j refreshQueue;
        Ok (Some packet, setCommandQueue cq refreshRank b queue)
    | None => Ok (None, cq)
    end;
  if (closeRow : bool) && bool_decide (cq_currentClockCycle cq >= nextPrecharge bs)
  then
    _ ← of_option (zget2 (rowAccessCounters cq) refreshRank b);
    Ok (Some (BusPacket_new PRECHARGE 0 0 0 refreshRank b 0),
        cq <| rowAccessCounters ::= fun c => zalter2 (fun _ => 0) c refreshRank b |>)
  else Ok (packet, cq).

(** The loop over the banks; the boolean is [sendREF]. *)
Fixpoint refresh_banks_open (cq : CommandQueue) (banks : list Z)
  : Res (bool * option BusPacket * CommandQueue) :=
  match banks with
  | [] => Ok (true, None, cq)
  | b :: banks' =>
      bs ← getBank (cq_refreshRank cq) b;
      if bool_decide (currentBankState bs = RowActive)
      then
        '(packet, cq) ← refresh_active_open cq b bs;
        Ok (false, packet, cq)
      else if bool_decide (nextActivate bs > cq_currentClockCycle cq)
      then Ok (false, None, cq)
      else refresh_banks_open cq banks'
  end.

Definition refresh_stage_open (cq : CommandQueue) : Res (option BusPacket * CommandQueue) :=
  if cq_refreshWaiting cq
  then
    '(sendREF, packet, cq) ← refresh_banks_open cq (zrange NUM_BANKS);
    if (sendREF : bool)
    then
      b0 ← getBank (cq_refreshRank cq) 0;
      if bool_decide (currentBankState b0 <> PowerDown) then issue_refresh cq else Ok (packet, cq)
    else Ok (packet, cq)
  else Ok (None, cq).

(** *** One queue, closed page *)

(** Per rank: the first issuable command that is not a column access paired
    with an activate right before it. *)
Definition select_closed (cq : CommandQueue) (queue : list BusPacket) : Res (option (nat * BusPacket)) :=
  match queuingStructure with
  | PerRank =>
      find_first (fun packet i =>
        iss ← isIssuable cq packet;
        Ok ((iss : bool) &&
            negb (bool_decide (0 < i)%nat &&
                  match queue !! (i - 1)%nat with
                  | Some prev => bool_decide (busPacketType prev = ACTIVATE) &&
                                 bool_decide (bp_physicalAddress prev = bp_physicalAddress packet)
                  | None => false
                  end))) queue 0
  | PerRankPerBank =>
      match queue with
      | packet :: _ =>
          iss ← isIssuable cq packet;
          Ok (if (iss : bool) then Some (0%nat, packet) else None)
      | [] => Ok None
      end
  end.

Definition try_queue_closed (cq : CommandQueue) (rank bank : Z) (queue : list BusPacket)
  : Res (option BusPacket * CommandQueue) :=
  found ← select_closed cq queue;
  match found with
  | Some (i, packet) =>
      queue ← erase_at i queue;
      Ok (Some packet, setCommandQueue cq rank bank queue)
  | None => Ok (None, cq)
  end.

(** *** One queue, open page *)

(** Removal of the packet at [i]; the activate before it, if any, is the one
    it was paired with and goes too, counting a row access. *)
Definition remove_selected (cq : CommandQueue) (rank bank : Z) (queue : list BusPacket)
    (i : nat) (packet : BusPacket) : Res CommandQueue :=
  let paired :=
    bool_decide (0 < i)%nat &&
    match queue !! (i - 1)%nat with
    | Some prev => bool_decide (busPacketType prev = ACTIVATE)
    | None => false
    end in
  if paired
  then
    _ ← of_option (zget2 (rowAccessCounters cq) (bp_rank packet) (bp_bank packet));
    queue ← erase_pair i queue;
    Ok (setCommandQueue
          (cq <| rowAccessCounters ::= fun c =>
             zalter2 (fun n => u32 (n + 1)) c (bp_rank packet) (bp_bank packet) |>)
          rank bank queue)
  else
    queue ← erase_at i queue;
    Ok (setCommandQueue cq rank bank queue).

(** First come first served: the first issuable command without an earlier
    column access to the same bank and row. *)
Definition select_fcfs (cq : CommandQueue) (queue : list BusPacket) : Res (option (nat * BusPacket)) :=
  find_first (fun packet i =>
    iss ← isIssuable cq packet;
    Ok ((iss : bool) && negb (checkDependency packet queue i))) queue 0.

Definition try_queue_fcfs (cq : CommandQueue) (rank bank : Z) (queue : list BusPacket)
  : Res (option BusPacket * CommandQueue) :=
  found ← select_fcfs cq queue;
  match found with
  | Some (i, packet) =>
      cq ← remove_selected cq rank bank queue i packet;
      Ok (Some packet, cq)
  | None => Ok (None, cq)
  end.

(** The row-hit test of the FR-FCFS searches. *)
Definition row_hit (packet : BusPacket) : Res bool :=
  if is_column (busPacketType packet)
  then b ← getBank (bp_rank packet) (bp_bank packet); Ok (bool_decide (bp_row packet = openRowAddress b))
  else Ok false.

(** The state the four FR-FCFS searches share: [*busPacket] and the loop
    variable [i], which keeps the index of a [break] or the queue's size. *)
Definition search_result (queue : list BusPacket) (prev : option BusPacket * nat)
    (found : option (nat * BusPacket)) : option BusPacket * nat :=
  match found with
  | Some (i, packet) => (Some packet, i)
  | None => (prev.1, length queue)
  end.

(** Search 1: row hits of the CPU. *)
Definition frfcfs_cpu_row_hit (cq : CommandQueue) (queue : list BusPacket) : Res (option (nat * BusPacket)) :=
  find_first (fun packet i =>
    iss ← isIssuable cq packet;
    if (iss : bool) && bool_decide (bp_sender_type packet = 0)
    then hit ← row_hit packet; Ok ((hit : bool) && negb (checkDependency packet queue i))
    else Ok false) queue 0.

(** Search 2: any request of the CPU. *)
Definition frfcfs_cpu (cq : CommandQueue) (queue : list BusPacket) : Res (option (nat * BusPacket)) :=
  find_first (fun packet i =>
    iss ← isIssuable cq packet;
    Ok ((iss : bool) && bool_decide (bp_sender_type packet = 0)
        && negb (checkDependency packet queue i))) queue 0.

(** Search 3: any row hit. *)
Definition frfcfs_row_hit (cq : CommandQueue) (queue : list BusPacket) : Res (option (nat * BusPacket)) :=
  find_first (fun packet i =>
    iss ← isIssuable cq packet;
    if (iss : bool)
    then hit ← row_hit packet; Ok ((hit : bool) && negb (checkDependency packet queue i))
    else Ok false) queue 0.

(** Search 4: anything issuable. *)
Definition frfcfs_any (cq : CommandQueue) (queue : list BusPacket) : Res (option (nat * BusPacket)) :=
  find_first (fun packet i =>
    iss ← isIssuable cq packet;
    Ok ((iss : bool) && negb (checkDependency packet queue i))) queue 0.

(** The four searches in sequence, with the guards of the source. The flags
    start false for every queue: a search that sets one also sets
    [foundIssuable], which ends the scan. *)
Definition select_frfcfs (cq : CommandQueue) (queue : list BusPacket) : Res (option BusPacket * nat) :=
  f1 ← frfcfs_cpu_row_hit cq queue;
  let st := search_result queue (None, 0%nat) f1 in
  let foundCPURBHit := bool_decide (is_Some f1) in
  '(f2, st) ←
    (if negb foundCPURBHit
     then f2 ← frfcfs_cpu cq queue; Ok (f2, search_result queue st f2)
     else Ok (None, st));
  let foundCPUReq := bool_decide (is_Some f2) in
  '(f3, st) ←
    (if negb foundCPURBHit || negb foundCPUReq
     then f3 ← frfcfs_row_hit cq queue; Ok (f3, search_result queue st f3)
     else Ok (None, st));
  let foundRBHit := bool_decide (is_Some f3) in
  if negb foundCPURBHit || negb foundCPUReq || negb foundRBHit
  then f4 ← frfcfs_any cq queue; Ok (search_result queue st f4)
  else Ok st.

(** The row-buffer statistics of the selected packet. *)
Definition frfcfs_stats (cq : CommandQueue) (packet : BusPacket) : Res CommandQueue :=
  let rank := bp_rank packet in
  let bank := bp_bank packet in
  b ← getBank rank bank;
  hits ← of_option (zget2 (totalRowBufferHitsPerBank cq) rank bank);
  if bool_decide (busPacketType packet = ACTIVATE) && (bool_decide (bp_row packet <> openRowAddress b)
     && bool_decide (hits > 0))
  then Ok (cq <| totalRowBufferHitsPerBank ::= fun t => zalter2 (fun n => n - 1) t rank bank |>)
  else if is_column (busPacketType packet)
  then Ok (cq <| totalRowBufferHitsPerBank ::= fun t => zalter2 (fun n => n + 1) t rank bank |>
              <| totalAccessesPerBank ::= fun t => zalter2 (fun n => n + 1) t rank bank |>)
  else Ok cq.

Definition try_queue_frfcfs (cq : CommandQueue) (rank bank : Z) (queue : list BusPacket)
  : Res (option BusPacket * CommandQueue) :=
  '(found, i) ← select_frfcfs cq queue;
  match found with
  | Some packet =>
      cq ← frfcfs_stats cq packet;
      cq ← remove_selected cq rank bank queue i packet;
      Ok (Some packet, cq)
  | None => Ok (None, cq)
  end.

Definition try_queue_open (cq : CommandQueue) (rank bank : Z) (queue : list BusPacket)
  : Res (option BusPacket * CommandQueue) :=
  if FRFCFS then try_queue_frfcfs cq rank bank queue else try_queue_fcfs cq rank bank queue.

(** *** The round robin over queues

    A queue is skipped when empty or when its rank waits for a refresh. One
    turn per queue is enough, so [scan_fuel] turns are. *)

Definition scan_fuel : nat := Z.to_nat (NUM_RANKS * NUM_BANKS).

Fixpoint scan_queues
    (try : CommandQueue -> Z -> Z -> list BusPacket -> Res (option BusPacket * CommandQueue))
    (fuel : nat) (startingRank startingBank : Z) (cq : CommandQueue)
  : Res (option BusPacket * CommandQueue) :=
  match fuel with
  | O => Err OutOfFuel
  | S fuel' =>
      queue ← getCommandQueue cq (nextRank cq) (nextBank cq);
      '(found, cq) ←
        (if negb (bool_decide (queue = []))
            && negb (bool_decide (nextRank cq = cq_refreshRank cq) && cq_refreshWaiting cq)
         then try cq (nextRank cq) (nextBank cq) queue
         else Ok (None, cq));
      match found with
      | Some packet => Ok (Some packet, cq)
      | None =>
          let '((rank, bank), back) := scan_next startingRank startingBank (nextRank cq) (nextBank cq) in
          let cq := cq <| nextRank := rank |> <| nextBank := bank |> in
          if back then Ok (None, cq) else scan_queues try fuel' startingRank startingBank cq
      end
  end.

(** *** Precharging rows nobody waits for (open page) *)

Definition try_precharge (cq : CommandQueue) : Res (option BusPacket * CommandQueue) :=
  let rank := nextRankPRE cq in
  let bank := nextBankPRE cq in
  queue ← getCommandQueue cq rank bank;
  bs ← getBank rank bank;
  if bool_decide (currentBankState bs = RowActive)
  then
    let found := existsb (fun p =>
      bool_decide (bp_bank p = bank) && bool_decide (bp_row p = openRowAddress bs)) queue in
    accesses ← of_option (zget2 (rowAccessCounters cq) rank bank);
    if (negb found || bool_decide (accesses = TOTAL_ROW_ACCESSES))
       && bool_decide (cq_currentClockCycle cq >= nextPrecharge bs)
    then Ok (Some (BusPacket_new PRECHARGE 0 0 0 rank bank 0),
             cq <| rowAccessCounters ::= fun c => zalter2 (fun _ => 0) c rank bank |>)
    else Ok (None, cq)
  else Ok (None, cq).

Fixpoint scan_precharge (fuel : nat) (startingRank startingBank : Z) (cq : CommandQueue)
  : Res (option BusPacket * CommandQueue) :=
  match fuel with
  | O => Err OutOfFuel
  | S fuel' =>
      '(found, cq) ← try_precharge cq;
      match found with
      | Some packet => Ok (Some packet, cq)
      | None =>
          let '(rank, bank) := nextRankAndBank (nextRankPRE cq) (nextBankPRE cq) in
          let cq := cq <| nextRankPRE := rank |> <| nextBankPRE := bank |> in
          if bool_decide (startingRank = rank) && bool_decide (startingBank = bank)
          then Ok (None, cq)
          else scan_precharge fuel' startingRank startingBank cq
      end
  end.

(** *** The whole of [pop] *)

Definition pop_closed (cq : CommandQueue) : Res (option BusPacket * CommandQueue) :=
  '(refresh, cq) ← refresh_stage_closed cq;
  match refresh with
  | Some packet => Ok (Some packet, cq)
  | None => scan_queues try_queue_closed scan_fuel (nextRank cq) (nextBank cq) cq
  end.

Definition pop_open (cq : CommandQueue) : Res (option BusPacket * CommandQueue) :=
  '(refresh, cq) ← refresh_stage_open cq;
  match refresh with
  | Some packet => Ok (Some packet, cq)
  | None =>
      '(found, cq) ← scan_queues try_queue_open scan_fuel (nextRank cq) (nextBank cq) cq;
      match found with
      | Some packet => Ok (Some packet, cq)
      | None => scan_precharge scan_fuel (nextRankPRE cq) (nextBankPRE cq) cq
      end
  end.

(** Posted CAS holds the indices still after an activate; an activate starts
    a counter of the four-activate window. *)
Definition pop_finish (cq : CommandQueue) (packet : BusPacket) : Res CommandQueue :=
  let cq :=
    if bool_decide (AL > 0) && sendAct cq
    then cq <| sendAct := false |>
    else
      let '(rank, bank) := nextRankAndBank (nextRank cq) (nextBank cq) in
      cq <| sendAct := true |> <| nextRank := rank |> <| nextBank := bank |> in
  if bool_decide (busPacketType packet = ACTIVATE)
  then
    _ ← of_option (zget (tFAWCountdown cq) (bp_rank packet));
    Ok (cq <| tFAWCountdown ::= fun t => zalter (fun w => w ++ [tFAW]) t (bp_rank packet) |>)
  else Ok cq.

Definition pop (cq : CommandQueue) : Res (option BusPacket * CommandQueue) :=
  let cq := cq <| tFAWCountdown ::= fmap tFAW_tick |> in
  '(found, cq) ← match rowBufferPolicy with ClosePage => pop_closed cq | OpenPage => pop_open cq end;
  match found with
  | Some packet => cq ← pop_finish cq packet; Ok (Some packet, cq)
  | None => Ok (None, cq)
  end.

End WithBanks.

Definition CommandQueue_step (cq : CommandQueue) : CommandQueue :=
  cq <| cq_currentClockCycle ::= fun c => u64 (c + 1) |>.

(** ** Statistics

    The counters [printStats] moves to the previous epoch, with its two
    assertions; the output itself is not modelled. *)

Definition printStats_assert (cq : CommandQueue) (i j : Z) : Res () :=
  hits ← of_option (zget2 (totalRowBufferHitsPerBank cq) i j);
  if bool_decide (hits >= -1) then Ok tt else Err (AssertFail "totalRowBufferHitsPerBank[i][j]>=-1").

Definition printStats_epoch (cq : CommandQueue) (i j : Z) : Res CommandQueue :=
  total ← of_option (zget2 (totalAccessesPerBank cq) i j);
  prev ← of_option (zget2 (prevEpochTotalAccessesPerBank cq) i j);
  hits ← of_option (zget2 (totalRowBufferHitsPerBank cq) i j);
  if bool_decide (total >= prev)
  then Ok (cq <| prevEpochTotalRowBufferHitsPerBank ::= fun t => zalter2 (fun _ => hits) t i j |>
              <| prevEpochTotalAccessesPerBank ::= fun t => zalter2 (fun _ => total) t i j |>)
  else Err (AssertFail "totalAccessesPerBank[i][j] >= prevEpochTotalAccessesPerBank[i][j]").

Definition rank_bank_pairs : list (Z * Z) :=
  i ← zrange NUM_RANKS; (fun j => (i, j)) <$> zrange NUM_BANKS.

Definition CommandQueue_printStats (cq : CommandQueue) : Res CommandQueue :=
  _ ← foldM (fun _ ij => printStats_assert cq ij.1 ij.2) tt rank_bank_pairs;
  foldM (fun cq ij => printStats_epoch cq ij.1 ij.2) cq rank_bank_pairs.

End CommandQueue.
