(* ===== verification/MemoryController.v ===== *)
(** * The memory controller ([MemoryController.cpp])

    One call of [update] is one memory cycle: count bank-state transitions
    down, deliver the command and the write data that crossed the buses, start
    a refresh when one is due, pop one command and account for it in the bank
    states, move one transaction into the command queue, switch ranks in and
    out of power-down, and return one read. *)

From stdpp Require Import gmap.
From S2P Require Import Prelude.
From S2P Require Import DramConfig.
From S2P Require Import AddressMapping.
From S2P Require Import BusTypes.
From S2P Require Import DramRank.
From S2P Require Import CommandQueue.

(** ** Calls to the outside

    The calls made to the callbacks the owner registered. *)
Inductive Callback :=
| ReadDone (systemID address cycle sender_type sender_id : Z)
| WriteDone (systemID address cycle sender_type sender_id : Z).

#[export] Instance Callback_eq : EqDecision Callback.
Proof. solve_decision. Defined.

(** What the controller reads of its [parentMemorySystem]: its identity and
    whether the callbacks are registered. *)
Record Parent := mkParent {
  systemID : Z;
  ReturnReadData : bool;
  WriteDataDone : bool
}.

(** ** State *)

Record MemoryController := mkMC {
  transactionQueue : list Transaction;
  bankStates : list (list BankState);
  commandQueue : CommandQueue;
  poppedBusPacket : option BusPacket;
  refreshCountdown : list Z;
  writeDataToSend : list BusPacket;
  writeDataCountdown : list Z;
  returnTransaction : list Transaction;
  pendingReadTransactions : list Transaction;
  latencies : gmap Z Z;
  powerDown : list bool;
  mc_outgoingCmdPacket : option BusPacket;
  cmdCyclesLeft : Z;
  mc_outgoingDataPacket : option BusPacket;
  mc_dataCyclesLeft : Z;
  totalTransactions : Z;
  grandTotalBankAccesses : list Z;
  totalReadsPerBank : list Z;
  totalWritesPerBank : list Z;
  totalReadsPerRank : list Z;
  totalWritesPerRank : list Z;
  totalEpochLatency : list Z;
  mc_refreshRank : Z;
  totalBlpPerRank : list Z;
  totalActiveCyclesPerRank : list Z;
  prevPhaseBlpPerRank : list Z;
  prevPhaseActiveCyclesPerRank : list Z;
  totalQueueSize : Z;
  backgroundEnergy : list Z;
  burstEnergy : list Z;
  actpreEnergy : list Z;
  refreshEnergy : list Z;
  mc_currentClockCycle : Z;
  callbacks : list Callback  (** the callback calls so far, oldest first *)
}.

#[export] Instance eta_MemoryController : Settable MemoryController := fun r =>
  mkMC (transactionQueue r) (bankStates r) (commandQueue r) (poppedBusPacket r)
    (refreshCountdown r) (writeDataToSend r) (writeDataCountdown r) (returnTransaction r)
    (pendingReadTransactions r) (latencies r) (powerDown r) (mc_outgoingCmdPacket r)
    (cmdCyclesLeft r) (mc_outgoingDataPacket r) (mc_dataCyclesLeft r) (totalTransactions r)
    (grandTotalBankAccesses r) (totalReadsPerBank r) (totalWritesPerBank r) (totalReadsPerRank
    r) (totalWritesPerRank r) (totalEpochLatency r) (mc_refreshRank r) (totalBlpPerRank r)
    (totalActiveCyclesPerRank r) (prevPhaseBlpPerRank r) (prevPhaseActiveCyclesPerRank r)
    (totalQueueSize r) (backgroundEnergy r) (burstEnergy r) (actpreEnergy r) (refreshEnergy r)
    (mc_currentClockCycle r) (callbacks r).

#[export] Instance set_transactionQueue : Setter transactionQueue := ltac:(mk_setter).
#[export] Instance set_bankStates : Setter bankStates := ltac:(mk_setter).
#[export] Instance set_commandQueue : Setter commandQueue := ltac:(mk_setter).
#[export] Instance set_poppedBusPacket : Setter poppedBusPacket := ltac:(mk_setter).
#[export] Instance set_refreshCountdown : Setter refreshCountdown := ltac:(mk_setter).
#[export] Instance set_writeDataToSend : Setter writeDataToSend := ltac:(mk_setter).
#[export] Instance set_writeDataCountdown : Setter writeDataCountdown := ltac:(mk_setter).
#[export] Instance set_returnTransaction : Setter returnTransaction := ltac:(mk_setter).
#[export] Instance set_pendingReadTransactions : Setter pendingReadTransactions := ltac:(mk_setter).
#[export] Instance set_latencies : Setter latencies := ltac:(mk_setter).
#[export] Instance set_powerDown : Setter powerDown := ltac:(mk_setter).
#[export] Instance set_mc_outgoingCmdPacket : Setter mc_outgoingCmdPacket := ltac:(mk_setter).
#[export] Instance set_cmdCyclesLeft : Setter cmdCyclesLeft := ltac:(mk_setter).
#[export] Instance set_mc_outgoingDataPacket : Setter mc_outgoingDataPacket := ltac:(mk_setter).
#[export] Instance set_mc_dataCyclesLeft : Setter mc_dataCyclesLeft := ltac:(mk_setter).
#[export] Instance set_totalTransactions : Setter totalTransactions := ltac:(mk_setter).
#[export] Instance set_grandTotalBankAccesses : Setter grandTotalBankAccesses := ltac:(mk_setter).
#[export] Instance set_totalReadsPerBank : Setter totalReadsPerBank := ltac:(mk_setter).
#[export] Instance set_totalWritesPerBank : Setter totalWritesPerBank := ltac:(mk_setter).
#[export] Instance set_totalReadsPerRank : Setter totalReadsPerRank := ltac:(mk_setter).
#[export] Instance set_totalWritesPerRank : Setter totalWritesPerRank := ltac:(mk_setter).
#[export] Instance set_totalEpochLatency : Setter totalEpochLatency := ltac:(mk_setter).
#[export] Instance set_mc_refreshRank : Setter mc_refreshRank := ltac:(mk_setter).
#[export] Instance set_totalBlpPerRank : Setter totalBlpPerRank := ltac:(mk_setter).
#[export] Instance set_totalActiveCyclesPerRank : Setter totalActiveCyclesPerRank := ltac:(mk_setter).
#[export] Instance set_prevPhaseBlpPerRank : Setter prevPhaseBlpPerRank := ltac:(mk_setter).
#[export] Instance set_prevPhaseActiveCyclesPerRank :
  Setter prevPhaseActiveCyclesPerRank := ltac:(mk_setter).
#[export] Instance set_totalQueueSize : Setter totalQueueSize := ltac:(mk_setter).
#[export] Instance set_backgroundEnergy : Setter backgroundEnergy := ltac:(mk_setter).
#[export] Instance set_burstEnergy : Setter burstEnergy := ltac:(mk_setter).
#[export] Instance set_actpreEnergy : Setter actpreEnergy := ltac:(mk_setter).
#[export] Instance set_refreshEnergy : Setter refreshEnergy := ltac:(mk_setter).
#[export] Instance set_mc_currentClockCycle : Setter mc_currentClockCycle := ltac:(mk_setter).
#[export] Instance set_callbacks : Setter callbacks := ltac:(mk_setter).

(** Normalise updates of a controller given by its constructor. *)
Ltac mc_compute :=
  cbv beta iota zeta delta
    [
      upd_field set_transactionQueue set_bankStates set_commandQueue set_poppedBusPacket
      set_refreshCountdown set_writeDataToSend set_writeDataCountdown set_returnTransaction
      set_pendingReadTransactions set_latencies set_powerDown set_mc_outgoingCmdPacket
      set_cmdCyclesLeft set_mc_outgoingDataPacket set_mc_dataCyclesLeft
      set_totalTransactions set_grandTotalBankAccesses set_totalReadsPerBank
      set_totalWritesPerBank set_totalReadsPerRank set_totalWritesPerRank
      set_totalEpochLatency set_mc_refreshRank set_totalBlpPerRank
      set_totalActiveCyclesPerRank set_prevPhaseBlpPerRank set_prevPhaseActiveCyclesPerRank
      set_totalQueueSize set_backgroundEnergy set_burstEnergy set_actpreEnergy
      set_refreshEnergy set_mc_currentClockCycle set_callbacks transactionQueue bankStates
      commandQueue poppedBusPacket refreshCountdown writeDataToSend writeDataCountdown
      returnTransaction pendingReadTransactions latencies powerDown mc_outgoingCmdPacket
      cmdCyclesLeft mc_outgoingDataPacket mc_dataCyclesLeft totalTransactions
      grandTotalBankAccesses totalReadsPerBank totalWritesPerBank totalReadsPerRank
      totalWritesPerRank totalEpochLatency mc_refreshRank totalBlpPerRank
      totalActiveCyclesPerRank prevPhaseBlpPerRank prevPhaseActiveCyclesPerRank
      totalQueueSize backgroundEnergy burstEnergy actpreEnergy refreshEnergy
      mc_currentClockCycle callbacks
    ].

(** [v[i] += d] on a vector of [uint64_t], faulting out of range. *)
Definition add_at (d : Z) (v : list Z) (i : Z) : Res (list Z) :=
  _ ← of_option (zget v i); Ok (zalter (fun x => u64 (x + d)) v i).

Section MemoryController.
Context {cfg : Cfg}.

Definition SEQUENTIAL (rank bank : Z) : Z := u32 (rank * NUM_BANKS + bank).

(** ** Construction *)

Definition MemoryController_new : Res MemoryController :=
  cq ← CommandQueue_new;
  let per_rank {A} (a : A) := replicate (Z.to_nat NUM_RANKS) a in
  let per_rank_bank := replicate (Z.to_nat (u32 (NUM_RANKS * NUM_BANKS))) 0 in
  Ok (mkMC [] (per_bank BankState_new) cq None (refreshStagger <$> zrange NUM_RANKS)
    [] [] [] [] ∅ (per_rank false) None 0 None 0 0
    per_rank_bank per_rank_bank per_rank_bank (per_rank 0) (per_rank 0) per_rank_bank 0
    (per_rank 0) (per_rank 0) (per_rank 0) (per_rank 0) 0
    (per_rank 0) (per_rank 0) (per_rank 0) (per_rank 0) 0 []).

(** ** Calls from the ranks and to the owner *)

Definition MemoryController_receiveFromBus (mc : MemoryController) (bpacket : BusPacket)
  : Res MemoryController :=
  if bool_decide (busPacketType bpacket <> DATA)
  then Err (Exit "Memory Controller received a non-DATA bus packet from rank")
  else
    let mc := mc <| returnTransaction ::= fun l =>
      l ++ [Transaction_new RETURN_DATA (bp_physicalAddress bpacket) (bp_data bpacket)] |> in
    reads ← add_at 1 (totalReadsPerBank mc) (SEQUENTIAL (bp_rank bpacket) (bp_bank bpacket));
    Ok (mc <| totalReadsPerBank := reads |>).

#[export] Instance MemoryController_BusReceiver : BusReceiver MemoryController :=
  MemoryController_receiveFromBus.

Definition returnReadData (par : Parent) (mc : MemoryController) (trans : Transaction) : MemoryController :=
  if ReturnReadData par
  then mc <| callbacks ::= fun l => l ++ [ReadDone (systemID par) (tr_address trans)
               (mc_currentClockCycle mc) (tr_sender_type trans) (tr_sender_id trans)] |>
  else mc.

(** [unsigned latencyValue]; the latency histogram is binned by 10. *)
Definition insertHistogram (mc : MemoryController) (latencyValue rank bank : Z) : Res MemoryController :=
  epoch ← add_at (u32 latencyValue) (totalEpochLatency mc) (SEQUENTIAL rank bank);
  let bin := u32 latencyValue / 10 * 10 in
  Ok (mc <| totalEpochLatency := epoch |>
         <| latencies ::= fun m => <[bin := u32 (default 0 (m !! bin) + 1)]> m |>).

(** ** Stage 1: implicit bank-state transitions *)

Definition is_busy (b : BankState) : bool :=
  bool_decide (currentBankState b = RowActive) || bool_decide (currentBankState b = Precharging).

Definition bank_tick (b : BankState) : BankState :=
  if bool_decide (stateChangeCountdown b > 0)
  then
    let b := b <| stateChangeCountdown ::= fun n => n - 1 |> in
    if bool_decide (stateChangeCountdown b = 0)
    then
      match lastCommand b with
      | WRITE_P | READ_P =>
          b <| currentBankState := Precharging |> <| lastCommand := PRECHARGE |>
            <| stateChangeCountdown := tRP |>
      | REFRESH | PRECHARGE => b <| currentBankState := Idle |>
      | _ => b
      end
    else b
  else b.

(** The statistics of one rank: bank-level parallelism before the tick. *)
Definition rank_blp (mc : MemoryController) (i : Z) : Res MemoryController :=
  banks ← of_option (zget (bankStates mc) i);
  let blp := zlen (filter (fun b => is_busy b = true) banks) in
  active ← (if bool_decide (blp <> 0) then add_at 1 (totalActiveCyclesPerRank mc) i
            else Ok (totalActiveCyclesPerRank mc));
  total ← add_at blp (totalBlpPerRank mc) i;
  Ok (mc <| totalActiveCyclesPerRank := active |> <| totalBlpPerRank := total |>
         <| bankStates ::= fun bs => zalter (fmap bank_tick) bs i |>).

Definition update_bank_states (mc : MemoryController) : Res MemoryController :=
  foldM rank_blp mc (zrange NUM_RANKS).

(** ** Stage 2: packets that crossed a bus *)

(** A call of a method of the [i]-th rank. *)
Definition call_rank (ranks : list Rank) (i : Z) (op : Rank -> Res Rank) : Res (list Rank) :=
  r ← of_option (zget ranks i);
  r ← op r;
  Ok (zalter (fun _ => r) ranks i).

Definition deliver_command (mc : MemoryController) (ranks : list Rank)
  : Res (MemoryController * list Rank) :=
  match mc_outgoingCmdPacket mc with
  | None => Ok (mc, ranks)
  | Some packet =>
      let mc := mc <| cmdCyclesLeft ::= fun n => u32 (n - 1) |> in
      if bool_decide (cmdCyclesLeft mc = 0)
      then
        ranks ← call_rank ranks (bp_rank packet) (fun r => Rank_receiveFromBus r packet);
        Ok (mc <| mc_outgoingCmdPacket := None |>, ranks)
      else Ok (mc, ranks)
  end.

Definition writeDone (par : Parent) (mc : MemoryController) (packet : BusPacket) : MemoryController :=
  if WriteDataDone par
  then mc <| callbacks ::= fun l => l ++ [WriteDone (systemID par) (bp_physicalAddress packet)
               (mc_currentClockCycle mc) (bp_sender_type packet) (bp_sender_id packet)] |>
  else mc.

Definition deliver_write_data (par : Parent) (mc : MemoryController) (ranks : list Rank)
  : Res (MemoryController * list Rank) :=
  match mc_outgoingDataPacket mc with
  | None => Ok (mc, ranks)
  | Some packet =>
      let mc := mc <| mc_dataCyclesLeft ::= fun n => u32 (n - 1) |> in
      if bool_decide (mc_dataCyclesLeft mc = 0)
      then
        let mc := writeDone par mc packet in
        ranks ← call_rank ranks (bp_rank packet) (fun r => Rank_receiveFromBus r packet);
        Ok (mc <| mc_outgoingDataPacket := None |>, ranks)
      else Ok (mc, ranks)
  end.

(** Write data waits WL cycles, then takes the data bus for BL/2 cycles. *)
Definition send_write_data (mc : MemoryController) : Res MemoryController :=
  let mc := mc <| writeDataCountdown ::= fmap (fun c => u32 (c - 1)) |> in
  match writeDataCountdown mc with
  | [] => Ok mc
  | c :: cs =>
      if bool_decide (c = 0)
      then
        match mc_outgoingDataPacket mc with
        | Some _ => Err (Exit "Data Bus Collision")
        | None =>
            match writeDataToSend mc with
            | [] => Err OutOfRange
            | packet :: packets =>
                writes ← add_at 1 (totalWritesPerBank mc) (SEQUENTIAL (bp_rank packet) (bp_bank packet));
                Ok (mc <| mc_outgoingDataPacket := Some packet |>
                       <| mc_dataCyclesLeft := BL / 2 |>
                       <| totalTransactions ::= fun n => u64 (n + 1) |>
                       <| totalWritesPerBank := writes |>
                       <| writeDataCountdown := cs |>
                       <| writeDataToSend := packets |>)
            end
        end
      else Ok mc
  end.

(** ** Stage 3: refresh *)

Definition refresh_check (mc : MemoryController) (ranks : list Rank)
  : Res (MemoryController * list Rank) :=
  let rr := mc_refreshRank mc in
  countdown ← of_option (zget (refreshCountdown mc) rr);
  if bool_decide (countdown = 0)
  then
    let mc := mc <| commandQueue ::= fun cq => needRefresh cq rr |> in
    ranks ← call_rank ranks rr (fun r => Ok (r <| rk_refreshWaiting := true |>));
    let mc := mc <| refreshCountdown ::= fun l => zalter (fun _ => refreshInterval) l rr |> in
    let next := u32 (rr + 1) in
    Ok (mc <| mc_refreshRank := if bool_decide (next = NUM_RANKS) then 0 else next |>, ranks)
  else
    down ← of_option (zget (powerDown mc) rr);
    if (down : bool) && bool_decide (countdown <= tXP)
    then
      ranks ← call_rank ranks rr (fun r => Ok (r <| rk_refreshWaiting := true |>));
      Ok (mc, ranks)
    else Ok (mc, ranks).

(** ** Stage 4: the popped command *)

(** Energy is accumulated in [uint64_t] from 32-bit products. *)
Definition BURST_READ_ENERGY : Z := u32 (u32 ((IDD4R - IDD3N) * BL) / 2 * NUM_DEVICES).
Definition BURST_WRITE_ENERGY : Z := u32 (u32 ((IDD4W - IDD3N) * BL) / 2 * NUM_DEVICES).
Definition ACTPRE_ENERGY : Z :=
  u32 ((IDD0 * tRC - (IDD3N * tRAS + IDD2N * (tRC - tRAS))) * NUM_DEVICES).
Definition REFRESH_ENERGY : Z := u32 ((IDD5 - IDD3N) * tRFC * NUM_DEVICES).

(** A write sends its data too. *)
Definition push_write_data (packet : BusPacket) (mc : MemoryController) : MemoryController :=
  if bool_decide (busPacketType packet = WRITE) || bool_decide (busPacketType packet = WRITE_P)
  then
    let data := BusPacket_setSender (bp_sender_type packet) (bp_sender_id packet)
      (BusPacket_new DATA (bp_physicalAddress packet) (bp_column packet) (bp_row packet)
         (bp_rank packet) (bp_bank packet) (bp_data packet)) in
    mc <| writeDataToSend ::= fun l => l ++ [data] |>
       <| writeDataCountdown ::= fun l => l ++ [WL] |>
  else mc.

Definition MC_READ_bank (now : Z) (t : BusPacketType) (b : BankState) : BankState :=
  if bool_decide (t = READ_P)
  then b <| nextActivate ::= fun v => Z.max (u64 (now + READ_AUTOPRE_DELAY)) v |>
         <| lastCommand := READ_P |>
         <| stateChangeCountdown := READ_TO_PRE_DELAY |>
  else b <| nextPrecharge ::= fun v => Z.max (u64 (now + READ_TO_PRE_DELAY)) v |>
         <| lastCommand := READ |>.

(** Banks of other ranks, if open; banks of the same rank, always. *)
Definition MC_read_all (now rank i : Z) (b : BankState) : BankState :=
  if bool_decide (i <> rank)
  then
    if bool_decide (currentBankState b = RowActive)
    then b <| nextRead ::= fun v => Z.max (u64 (now + BL / 2 + tRTRS)) v |>
           <| nextWrite ::= fun v => Z.max (u64 (now + READ_TO_WRITE_DELAY)) v |>
    else b
  else b <| nextRead ::= fun v => Z.max (u64 (now + Z.max tCCD (BL / 2))) v |>
         <| nextWrite ::= fun v => Z.max (u64 (now + READ_TO_WRITE_DELAY)) v |>.

(** After an auto-precharging access: no column access before the next
    activate. *)
Definition MC_close_bank (b : BankState) : BankState :=
  b <| nextRead := nextActivate b |> <| nextWrite := nextActivate b |>.

Definition update_all_banks (g : Z -> BankState -> BankState) (mc : MemoryController) : MemoryController :=
  mc <| bankStates ::= imap (fun i banks => g (Z.of_nat i) <$> banks) |>.

Definition update_bank (rank bank : Z) (g : BankState -> BankState) (mc : MemoryController)
  : MemoryController :=
  mc <| bankStates ::= fun bs => zalter2 g bs rank bank |>.

Definition MC_issue_read (mc : MemoryController) (packet : BusPacket) : Res MemoryController :=
  let now := mc_currentClockCycle mc in
  let rank := bp_rank packet in
  let bank := bp_bank packet in
  let t := busPacketType packet in
  energy ← add_at BURST_READ_ENERGY (burstEnergy mc) rank;
  let mc := mc <| burstEnergy := energy |> in
  let mc := update_bank rank bank (MC_READ_bank now t) mc in
  let mc := update_all_banks (MC_read_all now rank) mc in
  Ok (if bool_decide (t = READ_P) then update_bank rank bank MC_close_bank mc else mc).

Definition MC_WRITE_bank (now : Z) (t : BusPacketType) (b : BankState) : BankState :=
  if bool_decide (t = WRITE_P)
  then b <| nextActivate ::= fun v => Z.max (u64 (now + WRITE_AUTOPRE_DELAY)) v |>
         <| lastCommand := WRITE_P |>
         <| stateChangeCountdown := WRITE_TO_PRE_DELAY |>
  else b <| nextPrecharge ::= fun v => Z.max (u64 (now + WRITE_TO_PRE_DELAY)) v |>
         <| lastCommand := WRITE |>.

Definition MC_write_all (now rank i : Z) (b : BankState) : BankState :=
  if bool_decide (i <> rank)
  then
    if bool_decide (currentBankState b = RowActive)
    then b <| nextWrite ::= fun v => Z.max (u64 (now + BL / 2 + tRTRS)) v |>
           <| nextRead ::= fun v => Z.max (u64 (now + WRITE_TO_READ_DELAY_R)) v |>
    else b
  else b <| nextWrite ::= fun v => Z.max (u64 (now + Z.max (BL / 2) tCCD)) v |>
         <| nextRead ::= fun v => Z.max (u64 (now + WRITE_TO_READ_DELAY_B)) v |>.

Definition MC_issue_write (mc : MemoryController) (packet : BusPacket) : Res MemoryController :=
  let now := mc_currentClockCycle mc in
  let rank := bp_rank packet in
  let bank := bp_bank packet in
  let t := busPacketType packet in
  let mc := update_bank rank bank (MC_WRITE_bank now t) mc in
  energy ← add_at BURST_WRITE_ENERGY (burstEnergy mc) rank;
  let mc := mc <| burstEnergy := energy |> in
  let mc := update_all_banks (MC_write_all now rank) mc in
  Ok (if bool_decide (t = WRITE_P) then update_bank rank bank MC_close_bank mc else mc).

Definition MC_ACTIVATE_bank (now row : Z) (b : BankState) : BankState :=
  b <| currentBankState := RowActive |>
    <| lastCommand := ACTIVATE |>
    <| openRowAddress := row |>
    <| nextActivate ::= fun v => Z.max (u64 (now + tRC)) v |>
    <| nextPrecharge ::= fun v => Z.max (u64 (now + tRAS)) v |>
    <| nextRead ::= fun v => Z.max (u64 (now + u32 (tRCD - AL))) v |>
    <| nextWrite ::= fun v => Z.max (u64 (now + u32 (tRCD - AL))) v |>.

Definition MC_ACTIVATE_other (now : Z) (b : BankState) : BankState :=
  b <| nextActivate ::= fun v => Z.max (u64 (now + tRRD)) v |>.

(** [for i<NUM_BANKS] over the banks of one rank. *)
Definition update_rank_banks (rank : Z) (g : Z -> BankState -> BankState) (mc : MemoryController)
  : MemoryController :=
  mc <| bankStates ::= fun bs => zalter (imap (fun j b => g (Z.of_nat j) b)) bs rank |>.

Definition MC_issue_activate (mc : MemoryController) (packet : BusPacket) : Res MemoryController :=
  let now := mc_currentClockCycle mc in
  let rank := bp_rank packet in
  let bank := bp_bank packet in
  energy ← add_at ACTPRE_ENERGY (actpreEnergy mc) rank;
  let mc := mc <| actpreEnergy := energy |> in
  let mc := update_bank rank bank (MC_ACTIVATE_bank now (bp_row packet)) mc in
  Ok (update_rank_banks rank (fun i b =>
    if bool_decide (i <> bank) then MC_ACTIVATE_other now b else b) mc).

Definition MC_PRECHARGE_bank (now : Z) (b : BankState) : BankState :=
  b <| currentBankState := Precharging |>
    <| lastCommand := PRECHARGE |>
    <| stateChangeCountdown := tRP |>
    <| nextActivate ::= fun v => Z.max (u64 (now + tRP)) v |>.

Definition MC_issue_precharge (mc : MemoryController) (packet : BusPacket) : Res MemoryController :=
  Ok (update_bank (bp_rank packet) (bp_bank packet) (MC_PRECHARGE_bank (mc_currentClockCycle mc)) mc).

Definition MC_REFRESH_bank (now : Z) (b : BankState) : BankState :=
  b <| nextActivate := u64 (now + tRFC) |>
    <| currentBankState := Refreshing |>
    <| lastCommand := REFRESH |>
    <| stateChangeCountdown := tRFC |>.

Definition MC_issue_refresh (mc : MemoryController) (packet : BusPacket) : Res MemoryController :=
  let now := mc_currentClockCycle mc in
  let rank := bp_rank packet in
  energy ← add_at REFRESH_ENERGY (refreshEnergy mc) rank;
  let mc := mc <| refreshEnergy := energy |> in
  Ok (update_rank_banks rank (fun _ b => MC_REFRESH_bank now b) mc).

(** The switch over the popped command's type. Every access to
    [bankStates[rank][bank]] is in range or the program faults. *)
Definition issue (mc : MemoryController) (packet : BusPacket) : Res MemoryController :=
  _ ← of_option (zget2 (bankStates mc) (bp_rank packet) (bp_bank packet));
  match busPacketType packet with
  | READ_P | READ => MC_issue_read mc packet
  | WRITE_P | WRITE => MC_issue_write mc packet
  | ACTIVATE => MC_issue_activate mc packet
  | PRECHARGE => MC_issue_precharge mc packet
  | REFRESH => MC_issue_refresh mc packet
  | DATA => Err (Exit "Popped a command we shouldn't have")
  end.

(** Put the command on the bus. *)
Definition put_on_command_bus (mc : MemoryController) (packet : BusPacket) : Res MemoryController :=
  match mc_outgoingCmdPacket mc with
  | Some _ => Err (Exit "Command Bus Collision")
  | None => Ok (mc <| mc_outgoingCmdPacket := Some packet |> <| cmdCyclesLeft := tCMD |>)
  end.

Definition pop_and_issue (mc : MemoryController) : Res MemoryController :=
  '(popped, cq) ← pop (bankStates mc) (commandQueue mc);
  let mc := mc <| commandQueue := cq |> in
  match popped with
  | None => Ok mc
  | Some packet =>
      let mc := mc <| poppedBusPacket := Some packet |> in
      let mc := push_write_data packet mc in
      mc ← issue mc packet;
      put_on_command_bus mc packet
  end.

(** ** Stage 5: one transaction into the command queue *)

(** The activate and the column command of a transaction. *)
Definition transaction_commands (transaction : Transaction) (m : Mapped) : Res (BusPacket * BusPacket) :=
  let mk t dat := BusPacket_setSender (tr_sender_type transaction) (tr_sender_id transaction)
    (BusPacket_new t (tr_address transaction) (newTransactionColumn m) (newTransactionRow m)
       (newTransactionRank m) (newTransactionBank m) dat) in
  bpType ← getBusPacketType transaction;
  Ok (mk ACTIVATE 0, mk bpType (tr_data transaction)).

Definition schedule (mc : MemoryController) (i : nat) (transaction : Transaction) (m : Mapped)
  : Res MemoryController :=
  let mc := mc <| transactionQueue ::= fun q => take i q ++ drop (S i) q |> in
  '(ACTcommand, command) ← transaction_commands transaction m;
  cq ← enqueue (commandQueue mc) ACTcommand;
  cq ← enqueue cq command;
  let mc := mc <| commandQueue := cq |> in
  Ok (if bool_decide (transactionType transaction = DATA_READ)
      then mc <| pendingReadTransactions ::= fun l => l ++ [transaction] |>
      else mc).

(** The loop over the transaction queue: the first transaction with room for
    two commands in its queue is scheduled, and ends the loop. *)
Fixpoint schedule_loop (mc : MemoryController) (i : nat) (rest : list Transaction) : Res MemoryController :=
  match rest with
  | [] => Ok mc
  | transaction :: rest' =>
      let m := addressMapping (tr_address transaction) in
      room ← hasRoomFor (commandQueue mc) 2 (newTransactionRank m) (newTransactionBank m);
      if (room : bool) then schedule mc i transaction m else schedule_loop mc (S i) rest'
  end.

Definition schedule_transaction (mc : MemoryController) : Res MemoryController :=
  schedule_loop mc 0 (transactionQueue mc).

(** ** Stage 6: power modes and background power *)

Definition enter_power_down (mc : MemoryController) (ranks : list Rank) (i : Z)
  : Res (MemoryController * list Rank) :=
  ranks ← call_rank ranks i Rank_powerDown;
  let now := mc_currentClockCycle mc in
  Ok (mc <| powerDown ::= fun l => zalter (fun _ => true) l i |>
         <| bankStates ::= fun bs => zalter (fmap (fun b =>
              b <| currentBankState := PowerDown |> <| nextPowerUp := u64 (now + tCKE) |>)) bs i |>,
      ranks).

Definition leave_power_down (mc : MemoryController) (ranks : list Rank) (i : Z)
  : Res (MemoryController * list Rank) :=
  ranks ← call_rank ranks i Rank_powerUp;
  let now := mc_currentClockCycle mc in
  Ok (mc <| powerDown ::= fun l => zalter (fun _ => false) l i |>
         <| bankStates ::= fun bs => zalter (fmap (fun b =>
              b <| currentBankState := Idle |> <| nextActivate := u64 (now + tXP) |>)) bs i |>,
      ranks).

Definition switch_power (mc : MemoryController) (ranks : list Rank) (i : Z)
  : Res (MemoryController * list Rank) :=
  if USE_LOW_POWER
  then
    empty ← isEmpty (commandQueue mc) i;
    rank ← of_option (zget ranks i);
    banks ← of_option (zget (bankStates mc) i);
    down ← of_option (zget (powerDown mc) i);
    if (empty : bool) && negb (rk_refreshWaiting rank)
    then
      if forallb (fun b => bool_decide (currentBankState b = Idle)) banks
      then enter_power_down mc ranks i
      else Ok (mc, ranks)
    else
      b0 ← of_option (zget banks 0);
      if bool_decide (mc_currentClockCycle mc >= nextPowerUp b0) && (down : bool)
      then leave_power_down mc ranks i
      else Ok (mc, ranks)
  else Ok (mc, ranks).

Definition background_power (mc : MemoryController) (i : Z) : Res MemoryController :=
  banks ← of_option (zget (bankStates mc) i);
  down ← of_option (zget (powerDown mc) i);
  let bankOpen := existsb (fun b => bool_decide (currentBankState b = Refreshing)
                                    || bool_decide (currentBankState b = RowActive)) banks in
  let current := if bankOpen then IDD3N else if (down : bool) then IDD2P else IDD2N in
  energy ← add_at (u32 (current * NUM_DEVICES)) (backgroundEnergy mc) i;
  Ok (mc <| backgroundEnergy := energy |>).

Definition update_power (mc : MemoryController) (ranks : list Rank)
  : Res (MemoryController * list Rank) :=
  foldM (fun s i =>
    '(mc, ranks) ← switch_power s.1 s.2 i;
    mc ← background_power mc i;
    Ok (mc, ranks)) (mc, ranks) (zrange NUM_RANKS).

(** ** Stage 7: one read back to the CPU *)

(** The first pending read with the address of the returned data. *)
Fixpoint find_pending (address : Z) (l : list Transaction) (i : nat) : option (nat * Transaction) :=
  match l with
  | [] => None
  | t :: l' => if bool_decide (tr_address t = address) then Some (i, t) else find_pending address l' (S i)
  end.

Definition return_data (par : Parent) (mc : MemoryController) : Res MemoryController :=
  match returnTransaction mc with
  | [] => Ok mc
  | ret :: rets =>
      let mc := mc <| totalTransactions ::= fun n => u64 (n + 1) |> in
      match find_pending (tr_address ret) (pendingReadTransactions mc) 0 with
      | None => Err (Abort "Can't find a matching transaction")
      | Some (i, pending) =>
          let m := addressMapping (tr_address ret) in
          mc ← insertHistogram mc (u64 (mc_currentClockCycle mc - timeAdded pending))
                 (newTransactionRank m) (newTransactionBank m);
          let mc := returnReadData par mc pending in
          Ok (mc <| pendingReadTransactions ::= fun l => take i l ++ drop (S i) l |>
                 <| returnTransaction := rets |>)
      end
  end.

(** ** [MemoryController::update] *)

Definition MemoryController_update (par : Parent) (mc : MemoryController) (ranks : list Rank)
  : Res (MemoryController * list Rank) :=
  let mc := mc <| totalQueueSize ::= fun n => u64 (n + zlen (transactionQueue mc)) |> in
  mc ← update_bank_states mc;
  '(mc, ranks) ← deliver_command mc ranks;
  '(mc, ranks) ← deliver_write_data par mc ranks;
  mc ← send_write_data mc;
  '(mc, ranks) ← refresh_check mc ranks;
  mc ← pop_and_issue mc;
  mc ← schedule_transaction mc;
  '(mc, ranks) ← update_power mc ranks;
  mc ← return_data par mc;
  let mc := mc <| refreshCountdown ::= fmap (fun c => u32 (c - 1)) |> in
  let mc := mc <| commandQueue ::= CommandQueue_step |> in
  Ok (mc, ranks).

Definition MemoryController_step (mc : MemoryController) : MemoryController :=
  mc <| mc_currentClockCycle ::= fun c => u64 (c + 1) |>.

(** ** The transaction queue *)

Definition MemoryController_WillAcceptTransaction (mc : MemoryController) : bool :=
  bool_decide (zlen (transactionQueue mc) < TRANS_QUEUE_DEPTH).

Definition MemoryController_addTransaction (mc : MemoryController) (trans : Transaction)
  : bool * MemoryController :=
  if MemoryController_WillAcceptTransaction mc
  then (true, mc <| transactionQueue ::= fun q => q ++ [trans <| timeAdded := mc_currentClockCycle mc |>] |>)
  else (false, mc).

(** ** Statistics *)

Definition resetStats_bank (mc : MemoryController) (ij : Z * Z) : Res MemoryController :=
  let k := SEQUENTIAL ij.1 ij.2 in
  reads ← of_option (zget (totalReadsPerBank mc) k);
  writes ← of_option (zget (totalWritesPerBank mc) k);
  grand ← add_at (reads + writes) (grandTotalBankAccesses mc) k;
  _ ← of_option (zget (totalEpochLatency mc) k);
  let zero := zalter (fun _ => 0) in
  Ok (mc <| grandTotalBankAccesses := grand |>
         <| totalReadsPerBank ::= fun l => zero l k |>
         <| totalWritesPerBank ::= fun l => zero l k |>
         <| totalEpochLatency ::= fun l => zero l k |>).

Definition resetStats_rank (mc : MemoryController) (i : Z) : MemoryController :=
  let zero l := zalter (fun _ => 0) l i in
  mc <| burstEnergy ::= zero |> <| actpreEnergy ::= zero |> <| refreshEnergy ::= zero |>
     <| backgroundEnergy ::= zero |> <| totalReadsPerRank ::= zero |> <| totalWritesPerRank ::= zero |>
     <| totalBlpPerRank ::= zero |> <| totalActiveCyclesPerRank ::= zero |>
     <| prevPhaseActiveCyclesPerRank ::= zero |> <| prevPhaseBlpPerRank ::= zero |>
     <| totalQueueSize := 0 |>.

Definition resetStats (mc : MemoryController) : Res MemoryController :=
  foldM (fun mc i =>
    mc ← foldM resetStats_bank mc ((fun j => (i, j)) <$> zrange NUM_BANKS);
    Ok (resetStats_rank mc i)) mc (zrange NUM_RANKS).

(** The bank-level-parallelism report: its assertion and the phase counters. *)
Definition blpPrintStats_rank (mc : MemoryController) (i : Z) : Res MemoryController :=
  total ← of_option (zget (totalBlpPerRank mc) i);
  prev ← of_option (zget (prevPhaseBlpPerRank mc) i);
  active ← of_option (zget (totalActiveCyclesPerRank mc) i);
  if bool_decide (total >= prev)
  then Ok (mc <| prevPhaseBlpPerRank ::= fun l => zalter (fun _ => total) l i |>
              <| prevPhaseActiveCyclesPerRank ::= fun l => zalter (fun _ => active) l i |>)
  else Err (AssertFail "totalBlpPerRank[i] >= prevPhaseBlpPerRank[i]").

Definition blpPrintStats (mc : MemoryController) (finalStats : bool) : Res MemoryController :=
  if finalStats then Ok mc else foldM blpPrintStats_rank mc (zrange NUM_RANKS).

End MemoryController.
