(* ===== verification/MemorySystem.v ===== *)
(** * One memory channel ([MemorySystem.cpp])

    A memory system owns a controller and its ranks, and wires them together:
    the ranks hand read data to the controller ([BusReceiver]), the controller
    sends commands to the ranks, and both advance one clock per [update]. *)

From stdpp Require Import gmap.
From S2P Require Import Prelude.
From S2P Require Import DramConfig.
From S2P Require Import AddressMapping.
From S2P Require Import BusTypes.
From S2P Require Import DramRank.
From S2P Require Import CommandQueue.
From S2P Require Import MemoryController.

Record MemorySystem := mkMemorySystem {
  ms_parent : Parent;
  memoryController : MemoryController;
  ranks : list Rank;
  pendingTransactions : list Transaction;
  ms_currentClockCycle : Z
}.

#[export] Instance eta_MemorySystem : Settable MemorySystem := fun r =>
  mkMemorySystem (ms_parent r) (memoryController r) (ranks r) (pendingTransactions r)
    (ms_currentClockCycle r).

#[export] Instance set_ms_parent : Setter ms_parent := ltac:(mk_setter).
#[export] Instance set_memoryController : Setter memoryController := ltac:(mk_setter).
#[export] Instance set_ranks : Setter ranks := ltac:(mk_setter).
#[export] Instance set_pendingTransactions : Setter pendingTransactions := ltac:(mk_setter).
#[export] Instance set_ms_currentClockCycle : Setter ms_currentClockCycle := ltac:(mk_setter).

Section Geometry.
Context {cfg : Cfg}.

(** ** Number of ranks and devices, from the storage asked for

    The constructor overwrites the globals [NUM_RANKS] and [NUM_DEVICES]; the
    configuration the rest of the model runs under is the result. *)

Definition megsOfStoragePerRank : Z :=
  Z.shiftr ((NUM_ROWS * u32 (NUM_COLS * DEVICE_WIDTH) * NUM_BANKS
             * (JEDEC_DATA_BUS_BITS / DEVICE_WIDTH)) / 8) 20.

(** [megsOfMemory / megsOfStoragePerRank] traps when the divisor is 0. *)
Definition ranks_for (megsOfMemory : Z) : Res Z :=
  if bool_decide (megsOfMemory <> 0)
  then
    if bool_decide (megsOfStoragePerRank = 0) then Err (Abort "division by zero")
    else
      let n := u32 (megsOfMemory / megsOfStoragePerRank) in
      Ok (if bool_decide (n = 0) then 1 else n)
  else Ok NUM_RANKS.

Definition devices_per_rank : Z := JEDEC_DATA_BUS_BITS / DEVICE_WIDTH.

End Geometry.

Section MemorySystem.
Context {cfg : Cfg}.

(** The objects the constructor creates, under the final [NUM_RANKS]. *)
Definition MemorySystem_new (id : Z) : Res MemorySystem :=
  mc ← MemoryController_new;
  Ok (mkMemorySystem (mkParent id false false) mc
        ((fun i => Rank_setId i Rank_new) <$> zrange NUM_RANKS) [] 0).

Definition RegisterCallbacks (readCB writeCB : bool) (ms : MemorySystem) : MemorySystem :=
  ms <| ms_parent := mkParent (systemID (ms_parent ms)) readCB writeCB |>.

Definition MemorySystem_WillAcceptTransaction (ms : MemorySystem) : bool :=
  MemoryController_WillAcceptTransaction (memoryController ms).

(** [addTransaction(bool isWrite, ...)]: a full controller makes the
    transaction wait in [pendingTransactions]; it is never refused. *)
Definition MemorySystem_addTransaction (ms : MemorySystem) (isWrite : bool)
    (addr sender_type sender_id : Z) : bool * MemorySystem :=
  let type := if isWrite then DATA_WRITE else DATA_READ in
  let trans := Transaction_setSender sender_type sender_id (Transaction_new type addr 0) in
  if MemoryController_WillAcceptTransaction (memoryController ms)
  then
    let '(ok, mc) := MemoryController_addTransaction (memoryController ms) trans in
    (ok, ms <| memoryController := mc |>)
  else (true, ms <| pendingTransactions ::= fun l => l ++ [trans] |>).

(** The overload that takes a transaction: refused when the controller is full. *)
Definition MemorySystem_addTransaction_ptr (ms : MemorySystem) (trans : Transaction)
  : bool * MemorySystem :=
  let '(ok, mc) := MemoryController_addTransaction (memoryController ms) trans in
  (ok, ms <| memoryController := mc |>).

(** ** [MemorySystem::update] *)

(** Every rank's update, in order, each calling the attached controller. *)
Fixpoint update_ranks (rs : list Rank) (mc : MemoryController) : Res (list Rank * MemoryController) :=
  match rs with
  | [] => Ok ([], mc)
  | r :: rs' =>
      '(r, mc) ← Rank_update r mc;
      '(rs', mc) ← update_ranks rs' mc;
      Ok (r :: rs', mc)
  end.

(** One waiting transaction enters the controller when it has room. *)
Definition admit_pending (ms : MemorySystem) : MemorySystem :=
  match pendingTransactions ms with
  | trans :: rest =>
      if MemoryController_WillAcceptTransaction (memoryController ms)
      then
        ms <| memoryController ::= fun mc => (MemoryController_addTransaction mc trans).2 |>
           <| pendingTransactions := rest |>
      else ms
  | [] => ms
  end.

Definition MemorySystem_update (ms : MemorySystem) : Res MemorySystem :=
  '(rs, mc) ← update_ranks (ranks ms) (memoryController ms);
  let ms := ms <| ranks := rs |> <| memoryController := mc |> in
  let ms := admit_pending ms in
  '(mc, rs) ← MemoryController_update (ms_parent ms) (memoryController ms) (ranks ms);
  let rs := Rank_step <$> rs in
  let mc := MemoryController_step mc in
  Ok (ms <| memoryController := mc |> <| ranks := rs |>
         <| ms_currentClockCycle ::= fun c => u64 (c + 1) |>).

(** ** Runs

    What the owner of a channel does: add transactions and call [update]. *)

Inductive MemOp :=
| OpAdd (isWrite : bool) (addr sender_type sender_id : Z)
| OpUpdate.

Definition MemorySystem_op (ms : MemorySystem) (op : MemOp) : Res MemorySystem :=
  match op with
  | OpAdd isWrite addr sender_type sender_id =>
      Ok (MemorySystem_addTransaction ms isWrite addr sender_type sender_id).2
  | OpUpdate => MemorySystem_update ms
  end.

Definition MemorySystem_run (ms : MemorySystem) (ops : list MemOp) : Res MemorySystem :=
  foldM MemorySystem_op ms ops.

End MemorySystem.
