(* ===== verification/RankSafety.v ===== *)
(** * Ranks: which commands are legal, and the read-data pipeline

    A rank accepts a command exactly when [cmd_legal] holds; a legal command
    changes the banks pointwise ([rank_bank_after]). The reads a rank has
    accepted leave in order, never overlapping on the data bus
    ([rank_data_ok]). *)

From S2P Require Import Prelude.
From S2P Require Import DramConfig.
From S2P Require Import Pipe.
From S2P Require Import BusTypes.
From S2P Require Import DramRank.

Section Legal.
Context {cfg : Cfg}.

(** ** Legality and effect on one bank *)

Definition is_read (t : BusPacketType) : bool :=
  match t with READ | READ_P => true | _ => false end.

Definition bank_legal (now : Z) (p : BusPacket) (b : BankState) : Prop :=
  match busPacketType p with
  | READ | READ_P =>
      currentBankState b = RowActive /\ nextRead b <= now /\ openRowAddress b = bp_row p
  | WRITE | WRITE_P =>
      currentBankState b = RowActive /\ nextWrite b <= now /\ openRowAddress b = bp_row p
  | ACTIVATE => currentBankState b = Idle /\ nextActivate b <= now
  | PRECHARGE => currentBankState b = RowActive /\ nextPrecharge b <= now
  | REFRESH | DATA => True
  end.

(** A refresh needs every bank idle, the others only look at their bank. *)
Definition cmd_legal (now : Z) (p : BusPacket) (bs : list BankState) : Prop :=
  match busPacketType p with
  | REFRESH => Forall (fun b => currentBankState b = Idle) bs
  | DATA => True
  | _ => exists b, zget bs (bp_bank p) = Some b /\ bank_legal now p b
  end.

Definition rank_bank_after (now : Z) (p : BusPacket) (j : Z) (b : BankState) : BankState :=
  let here := bool_decide (j = bp_bank p) in
  match busPacketType p with
  | READ => Rank_read_all now (if here then Rank_READ_bank now b else b)
  | READ_P => Rank_read_all now (if here then Rank_READ_P_bank now b else b)
  | WRITE => Rank_write_all now (if here then Rank_WRITE_bank now b else b)
  | WRITE_P => Rank_write_all now (if here then Rank_WRITE_P_bank now b else b)
  | ACTIVATE => if here then Rank_ACTIVATE_bank now (bp_row p) b else Rank_ACTIVATE_other now b
  | PRECHARGE => if here then Rank_PRECHARGE_bank now b else b
  | REFRESH => b <| nextActivate := u64 (now + tRFC) |>
  | DATA => b
  end.

Definition rank_banks_after (now : Z) (p : BusPacket) (bs : list BankState) : list BankState :=
  imap (fun j b => rank_bank_after now p (Z.of_nat j) b) bs.

(** What a legal command does to the rest of the rank. *)
Record received (r : Rank) (p : BusPacket) (r' : Rank) : Prop := {
  rcv_banks : rk_bankStates r' = rank_banks_after (rk_currentClockCycle r) p (rk_bankStates r);
  rcv_clock : rk_currentClockCycle r' = rk_currentClockCycle r;
  rcv_power : isPowerDown r' = isPowerDown r;
  rcv_out : rk_outgoingDataPacket r' = rk_outgoingDataPacket r;
  rcv_left : rk_dataCyclesLeft r' = rk_dataCyclesLeft r;
  rcv_packets : readReturnPacket r' = readReturnPacket r ++
    (if is_read (busPacketType p) then [p <| busPacketType := DATA |>] else []);
  rcv_countdown : readReturnCountdown r' = readReturnCountdown r ++
    (if is_read (busPacketType p) then [RL] else []);
  rcv_refresh : rk_refreshWaiting r' =
    (if bool_decide (busPacketType p = REFRESH) then false else rk_refreshWaiting r)
}.

Lemma column_allowed_true now next row b :
  column_allowed now next row b = true <->
  currentBankState b = RowActive /\ next b <= now /\ openRowAddress b = row.
Proof.
  unfold column_allowed.
  rewrite negb_true_iff, !orb_false_iff, !bool_decide_eq_false.
  split.
  - intros [[Hs Hn] Hr]. split; [by apply dec_stable | split; [lia|]].
    symmetry; by apply dec_stable.
  - intros (Hs & Hn & Hr). repeat split; [by intros N | lia | by intros N].
Qed.

Lemma refresh_banks_ok now bs :
  Forall (fun b => currentBankState b = Idle) bs ->
  refresh_banks now bs = Ok ((fun b => b <| nextActivate := u64 (now + tRFC) |>) <$> bs).
Proof.
  induction 1 as [|b bs Hb _ IH]; cbn; [done|].
  rewrite bool_decide_false by (intros N; by apply N). by rewrite IH.
Qed.

Lemma powerDown_banks_ok now bs :
  Forall (fun b => currentBankState b = Idle) bs ->
  powerDown_banks now bs =
  Ok ((fun b => b <| nextPowerUp := u64 (now + tCKE) |> <| currentBankState := PowerDown |>) <$> bs).
Proof.
  induction 1 as [|b bs Hb _ IH]; cbn; [done|].
  rewrite bool_decide_false by (intros N; by apply N). by rewrite IH.
Qed.

Lemma powerUp_banks_ok now bs :
  Forall (fun b => nextPowerUp b <= now) bs ->
  powerUp_banks now bs =
  Ok ((fun b => b <| nextActivate := u64 (now + tXP) |> <| currentBankState := Idle |>) <$> bs).
Proof.
  induction 1 as [|b bs Hb _ IH]; cbn; [done|].
  rewrite bool_decide_false by lia. by rewrite IH.
Qed.

(** The banks of the six single-bank commands, in pointwise form. *)
Lemma alter_then_all (g h : BankState -> BankState) bs i :
  h <$> zalter g bs i = imap (fun j b => h (if bool_decide (Z.of_nat j = i) then g b else b)) bs.
Proof. by rewrite zalter_imap, fmap_imap. Qed.

Lemma alter_then_imap (g : BankState -> BankState) (h : Z -> BankState -> BankState) bs i :
  imap (fun j => h (Z.of_nat j)) (zalter g bs i) =
  imap (fun j b => h (Z.of_nat j) (if bool_decide (Z.of_nat j = i) then g b else b)) bs.
Proof. by rewrite zalter_imap, imap_imap. Qed.

Ltac received_tac :=
  constructor; cbn; rewrite ?app_nil_r; try reflexivity;
  unfold rank_banks_after, rank_bank_after.

(** A legal command is accepted. *)
Lemma receive_legal r p :
  cmd_legal (rk_currentClockCycle r) p (rk_bankStates r) ->
  exists r', Rank_receiveFromBus r p = Ok r' /\ received r p r'.
Proof.
  unfold cmd_legal, bank_legal, Rank_receiveFromBus. destruct (busPacketType p) eqn:Et.
  1-4: intros (b & Hb & Hl%column_allowed_true);
    unfold Rank_receive_READ, Rank_receive_READ_P, Rank_receive_WRITE, Rank_receive_WRITE_P, Rank_bank;
    rewrite Hb; cbn; rewrite Hl; cbn; eexists; split; [reflexivity|];
    received_tac; rewrite Et; cbn; rewrite ?app_nil_r; try reflexivity; apply alter_then_all.
  - intros (b & Hb & Hst & Hn). unfold Rank_receive_ACTIVATE, Rank_bank. rewrite Hb. cbn.
    rewrite !bool_decide_false by (lia || (intros N; by apply N)). cbn.
    eexists; split; [reflexivity|]. received_tac; rewrite Et; cbn; rewrite ?app_nil_r; try reflexivity.
    rewrite zalter_imap, imap_imap. apply imap_ext; intros j b' _. cbn.
    repeat case_bool_decide; naive_solver.
  - intros (b & Hb & Hst & Hn). unfold Rank_receive_PRECHARGE, Rank_bank. rewrite Hb. cbn.
    rewrite !bool_decide_false by (lia || (intros N; by apply N)). cbn.
    eexists; split; [reflexivity|]. received_tac; rewrite Et; cbn; rewrite ?app_nil_r; try reflexivity.
    apply zalter_imap.
  - intros Hidle. unfold Rank_receive_REFRESH. cbn. rewrite refresh_banks_ok by done. cbn.
    eexists; split; [reflexivity|]. received_tac; rewrite Et; cbn; rewrite ?app_nil_r; try reflexivity.
    apply imap_as_fmap.
  - intros _. exists r. split; [done|]. received_tac; rewrite Et; cbn; rewrite ?app_nil_r; try reflexivity.
    rewrite <- (list_fmap_id (rk_bankStates r)) at 1. apply imap_as_fmap.
Qed.

(** Conversely, an illegal command stops the program. *)
Lemma receive_illegal r p :
  (0 <= bp_bank p < zlen (rk_bankStates r)) ->
  ~ cmd_legal (rk_currentClockCycle r) p (rk_bankStates r) ->
  exists msg, Rank_receiveFromBus r p = Err (Exit msg).
Proof.
  intros Hr Hl. destruct (zget_lt _ _ Hr) as [b Hb].
  unfold cmd_legal, bank_legal, Rank_receiveFromBus in *. destruct (busPacketType p) eqn:Et.
  1-4: unfold Rank_receive_READ, Rank_receive_READ_P, Rank_receive_WRITE, Rank_receive_WRITE_P, Rank_bank;
    rewrite Hb; cbn;
    match goal with |- context [column_allowed ?n ?x ?y ?z] => destruct (column_allowed n x y z) eqn:E end;
    cbn; [|by eexists]; apply column_allowed_true in E; exfalso; eauto.
  - unfold Rank_receive_ACTIVATE, Rank_bank; rewrite Hb; cbn.
    repeat case_bool_decide; cbn; try by eexists. exfalso; apply Hl. exists b.
    split; [done|]. split; [done | lia].
  - unfold Rank_receive_PRECHARGE, Rank_bank; rewrite Hb; cbn.
    repeat case_bool_decide; cbn; try by eexists. exfalso; apply Hl. exists b.
    split; [done|]. split; [done | lia].
  - unfold Rank_receive_REFRESH; cbn. generalize (rk_currentClockCycle r); intros now.
    assert (exists msg, refresh_banks now (rk_bankStates r) = Err (Exit msg)) as [msg ->]; [|by eexists].
    clear Hb Hr. induction (rk_bankStates r) as [|b' bs IH]; [by destruct Hl|]. cbn.
    case_bool_decide as Hd; [by eexists|].
    destruct IH as [msg ->]; [|by eexists].
    intros Hall. apply Hl. constructor; done.
  - done.
Qed.
End Legal.

(** ** The read-data pipeline *)

Definition opt_list {A} (o : option A) : list A := match o with Some a => [a] | None => [] end.

Section ReadData.
Context {cfg : Cfg}.

Definition rank_busy (r : Rank) : Z :=
  match rk_outgoingDataPacket r with Some _ => rk_dataCyclesLeft r | None => 0 end.

Definition rank_end (r : Rank) : Z := pipe_end (BL / 2) (readReturnCountdown r) (rank_busy r).

(** All reads inside a rank, the one on the bus first. *)
Definition rank_reads (r : Rank) : list BusPacket :=
  opt_list (rk_outgoingDataPacket r) ++ readReturnPacket r.

(** A data packet of an existing bank. *)
Definition data_packet (p : BusPacket) : Prop :=
  busPacketType p = DATA /\ 0 <= bp_rank p < NUM_RANKS /\ 0 <= bp_bank p < NUM_BANKS.

(** The pipeline is well formed, holds data packets, and has room for the
    next read by the time any open bank allows one. [e] cycles have passed
    since the last read may have been accepted, and the pipeline is [k] ticks
    behind the rank's clock. *)
Record rank_data_ok (e k : Z) (r : Rank) : Prop := {
  rd_len : length (readReturnPacket r) = length (readReturnCountdown r);
  rd_pipe : pipe_ok (BL / 2) (readReturnCountdown r) (rank_busy r);
  rd_out : is_Some (rk_outgoingDataPacket r) -> 1 <= rk_dataCyclesLeft r;
  rd_packets : Forall data_packet (rank_reads r);
  rd_end : rank_end r <= RL + BL / 2 - e;
  rd_room : Forall (fun b => currentBankState b = RowActive ->
    rank_end r - k - RL <= Z.max 0 (nextRead b - rk_currentClockCycle r)) (rk_bankStates r)
}.

Lemma rank_data_ok_weaken e e' k r : e' <= e -> rank_data_ok e k r -> rank_data_ok e' k r.
Proof. intros He [? ? ? ? ? ?]. split; try done. lia. Qed.

(** The invariant only reads the pipeline, the banks and the clock. *)
Lemma rank_data_ok_frame e k r r' :
  readReturnPacket r' = readReturnPacket r -> readReturnCountdown r' = readReturnCountdown r ->
  rk_outgoingDataPacket r' = rk_outgoingDataPacket r -> rk_dataCyclesLeft r' = rk_dataCyclesLeft r ->
  rk_currentClockCycle r' = rk_currentClockCycle r ->
  (forall b', b' ∈ rk_bankStates r' -> currentBankState b' = RowActive ->
     exists b, b ∈ rk_bankStates r /\ currentBankState b = RowActive /\ nextRead b <= nextRead b') ->
  rank_data_ok e k r -> rank_data_ok e k r'.
Proof.
  intros E1 E2 E3 E4 E5 Hb [H1 H2 H3 H4 H5 H6].
  assert (rank_busy r' = rank_busy r) as Eb by (unfold rank_busy; by rewrite E3, E4).
  assert (rank_end r' = rank_end r) as Ee by (unfold rank_end; by rewrite E2, Eb).
  split; rewrite ?E1, ?E2, ?E3, ?E4, ?E5, ?Eb, ?Ee; try done.
  - unfold rank_reads. by rewrite E1, E3.
  - apply Forall_forall. intros b' Hb' Ha. destruct (Hb _ Hb' Ha) as (b & Hin & Hact & Hle).
    rewrite Forall_forall in H6. specialize (H6 _ Hin Hact). lia.
Qed.

Hypothesis Hok : cfg_ok cfg.

Lemma fmap_pred_u32 cds :
  Forall (Z.le 1) cds -> Forall (fun c => c < 4294967296) cds ->
  (fun c => u32 (c - 1)) <$> cds = Z.pred <$> cds.
Proof.
  intros H1 H2. apply list_fmap_ext. intros i c Hc.
  rewrite Forall_lookup in H1, H2. specialize (H1 _ _ Hc). specialize (H2 _ _ Hc).
  apply u32_small. unfold in_u32. lia.
Qed.

(** What one [update] does: maybe one read is handed over, and the pipeline
    advances by a tick. *)
Record rank_updated (r : Rank) (dlv : option BusPacket) (r' : Rank) : Prop := {
  upd_banks : rk_bankStates r' = rk_bankStates r;
  upd_clock : rk_currentClockCycle r' = rk_currentClockCycle r;
  upd_power : isPowerDown r' = isPowerDown r;
  upd_refresh : rk_refreshWaiting r' = rk_refreshWaiting r;
  upd_reads : rank_reads r = opt_list dlv ++ rank_reads r';
  upd_dlv : Forall data_packet (opt_list dlv)
}.

Lemma rank_countdowns_small e k r :
  0 <= e -> rank_data_ok e k r -> Forall (fun c => c < 4294967296) (readReturnCountdown r).
Proof.
  intros He [_ Hp _ _ Hend _]. apply Forall_forall. intros c Hc.
  pose proof (latency_bounds Hok). unfold rank_end in Hend.
  pose proof (pipe_bound (BL / 2) (burst_pos Hok) _ _ c Hp Hc). lia.
Qed.

(** The outgoing half of [update] as a pure step. *)
Definition outgoing_step (r : Rank) : option BusPacket * Rank :=
  match rk_outgoingDataPacket r with
  | None => (None, r)
  | Some packet =>
      let r := r <| rk_dataCyclesLeft ::= fun n => u32 (n - 1) |> in
      if bool_decide (rk_dataCyclesLeft r = 0)
      then (Some packet, r <| rk_outgoingDataPacket := None |>)
      else (None, r)
  end.

Lemma Rank_update_outgoing_spec {M} `{!BusReceiver M} r (mc : M) :
  Rank_update_outgoing r mc =
  (mc' ← match (outgoing_step r).1 with Some p => bus_receiveFromBus mc p | None => Ok mc end;
   Ok ((outgoing_step r).2, mc')).
Proof.
  unfold Rank_update_outgoing, outgoing_step. destruct (rk_outgoingDataPacket r); [|done].
  cbv zeta. case_bool_decide; done.
Qed.

(** The countdown of the packet on the bus does not wrap. *)
Lemma dataCyclesLeft_pred e k r :
  rank_data_ok e k r -> is_Some (rk_outgoingDataPacket r) ->
  u32 (rk_dataCyclesLeft r - 1) = rk_dataCyclesLeft r - 1.
Proof.
  intros [_ Hp Ho _ _ _] [p Eo]. specialize (Ho ltac:(rewrite Eo; by eexists)).
  pose proof (pipe_busy _ _ _ Hp) as Hb. unfold rank_busy in Hb. rewrite Eo in Hb.
  pose proof (latency_bounds Hok). apply u32_small. unfold in_u32; lia.
Qed.

(** The pure update of a rank. *)
Definition update_step (r : Rank) : option BusPacket * Rank :=
  let '(dlv, r) := outgoing_step r in
  let r := r <| readReturnCountdown ::= fmap (fun c => u32 (c - 1)) |> in
  (dlv,
   match readReturnCountdown r, readReturnPacket r with
   | c :: cs, p :: ps =>
       if bool_decide (c = 0)
       then r <| rk_outgoingDataPacket := Some p |> <| rk_dataCyclesLeft := BL / 2 |>
              <| readReturnPacket := ps |> <| readReturnCountdown := cs |>
       else r
   | _, _ => r
   end).

Lemma outgoing_step_frame r :
  let r1 := (outgoing_step r).2 in
  readReturnCountdown r1 = readReturnCountdown r /\ readReturnPacket r1 = readReturnPacket r /\
  rk_bankStates r1 = rk_bankStates r /\ rk_currentClockCycle r1 = rk_currentClockCycle r /\
  isPowerDown r1 = isPowerDown r /\ rk_refreshWaiting r1 = rk_refreshWaiting r.
Proof.
  unfold outgoing_step. destruct (rk_outgoingDataPacket r); cbn; [|done].
  case_bool_decide; cbn; done.
Qed.

Lemma Rank_update_spec {M} `{!BusReceiver M} r (mc : M) :
  length (readReturnPacket r) = length (readReturnCountdown r) ->
  Rank_update r mc =
  (mc' ← match (update_step r).1 with Some p => bus_receiveFromBus mc p | None => Ok mc end;
   Ok ((update_step r).2, mc')).
Proof.
  intros Hlen. unfold Rank_update. rewrite Rank_update_outgoing_spec.
  pose proof (outgoing_step_frame r) as (E1 & E2 & _).
  unfold update_step. destruct (outgoing_step r) as [dlv r1]. cbn [fst snd] in *.
  destruct (match dlv with Some p => _ | None => _ end) as [mc'|]; cbn; [|done].
  unfold Rank_update_returns. cbn. rewrite E1, E2.
  destruct (readReturnCountdown r) as [|c cds], (readReturnPacket r) as [|p ps]; try done; cbn.
  case_bool_decide; done.
Qed.

(** One [update] keeps the pipeline invariant: it is a [pipe_tick]. *)
Lemma update_step_pipe e k r :
  0 <= e -> rank_data_ok e k r ->
  let r' := (update_step r).2 in
  (readReturnCountdown r', rank_busy r') = pipe_tick (BL / 2) (readReturnCountdown r) (rank_busy r) /\
  length (readReturnPacket r') = length (readReturnCountdown r') /\
  (is_Some (rk_outgoingDataPacket r') -> 1 <= rk_dataCyclesLeft r').
Proof.
  intros He Hr. pose proof (dataCyclesLeft_pred e k r Hr) as Hpred.
  pose proof (rank_countdowns_small e k r He Hr) as Hsm.
  destruct Hr as [Hlen Hp Ho Hpk _ _].
  pose proof (outgoing_step_frame r) as (E1 & E2 & _). pose proof (burst_pos Hok).
  assert (rank_busy (outgoing_step r).2 = Z.max 0 (rank_busy r - 1) /\
    (is_Some (rk_outgoingDataPacket (outgoing_step r).2) -> 1 <= rk_dataCyclesLeft (outgoing_step r).2))
    as [Hb Ho'].
  { unfold outgoing_step, rank_busy. destruct (rk_outgoingDataPacket r) as [p|] eqn:Eo; cbn;
      [|by rewrite Eo; split; [lia | intros []]].
    specialize (Ho ltac:(by eexists)). specialize (Hpred ltac:(by eexists)).
    case_bool_decide as Hz; cbn; rewrite Hpred in *; [split; [lia | by intros []]|].
    rewrite Eo. split; intros; lia. }
  unfold update_step. destruct (outgoing_step r) as [dlv r1]; cbn in *.
  unfold pipe_tick. rewrite E1, E2, fmap_pred_u32 by (apply Hp || done). rewrite <- Hb.
  destruct (readReturnCountdown r) as [|c cds] eqn:Ec, (readReturnPacket r) as [|p ps] eqn:Ep;
    try done; cbn in *.
  - unfold rank_busy; cbn. by rewrite E1, E2.
  - case_bool_decide; unfold rank_busy; cbn; rewrite ?length_fmap.
    + split; [|split; [lia | intros; lia]]. by do 2 f_equal.
    + rewrite E1, E2, fmap_pred_u32 by (apply Hp || done).
      split; [done | split; [cbn; rewrite ?length_fmap; lia | done]].
Qed.

Lemma update_step_updated e k r :
  0 <= e -> rank_data_ok e k r -> rank_updated r (update_step r).1 (update_step r).2.
Proof.
  intros He Hr. pose proof (dataCyclesLeft_pred e k r Hr) as Hpred.
  pose proof (rank_countdowns_small e k r He Hr) as Hsm.
  destruct Hr as [Hlen Hp Ho Hpk _ _].
  pose proof (outgoing_step_frame r) as (E1 & E2 & E3 & E4 & E5 & E6).
  unfold update_step.
  assert (rank_reads r = opt_list (outgoing_step r).1 ++ opt_list (rk_outgoingDataPacket (outgoing_step r).2)
          ++ readReturnPacket r) as Hrd.
  { unfold outgoing_step, rank_reads. destruct (rk_outgoingDataPacket r) eqn:Eo; cbn; [|by rewrite Eo].
    case_bool_decide; cbn; [done|]. by rewrite Eo. }
  assert (head (Z.pred <$> readReturnCountdown r) = Some 0 ->
          rk_outgoingDataPacket (outgoing_step r).2 = None) as Hfree.
  { intros Hh. pose proof (pipe_tick_free _ _ _ Hp Hh) as Hb. unfold outgoing_step, rank_busy in *.
    destruct (rk_outgoingDataPacket r) eqn:Eo; cbn; [|done].
    specialize (Ho ltac:(by eexists)). rewrite Hpred by (by eexists).
    rewrite bool_decide_true by lia. done. }
  assert (Forall data_packet (opt_list (outgoing_step r).1)) as Hd.
  { rewrite Hrd in Hpk. apply Forall_app in Hpk. apply Hpk. }
  destruct (outgoing_step r) as [dlv r1]; cbn in *.
  rewrite E1, E2. rewrite fmap_pred_u32 by (apply Hp || done).
  destruct (readReturnCountdown r) as [|c cds] eqn:Ec, (readReturnPacket r) as [|p ps] eqn:Ep;
    try done; cbn in *.
  - constructor; cbn; try assumption. unfold rank_reads. cbn. by rewrite E2.
  - case_bool_decide as Hz; cbn.
    + rewrite Hz in Hfree. rewrite (Hfree eq_refl) in Hrd. constructor; cbn; assumption.
    + constructor; cbn; try assumption. unfold rank_reads; cbn. by rewrite E2.
Qed.

(** A tick catches the pipeline up with the clock. *)
Lemma update_step_ok r :
  rank_data_ok 0 1 r -> rank_data_ok 1 0 (update_step r).2.
Proof.
  intros Hr. pose proof (update_step_pipe 0 1 r ltac:(lia) Hr) as (Hpt & Hlen & Ho).
  destruct (update_step_updated 0 1 r ltac:(lia) Hr) as [Eb Ec _ _ Erd _].
  pose proof (pipe_tick_ok _ (burst_pos Hok) _ _ (rd_pipe _ _ _ Hr)) as Ht.
  rewrite <- Hpt in Ht. destruct Ht as [Hp He].
  pose proof (latency_bounds Hok). pose proof (rd_end _ _ _ Hr) as Hend.
  unfold rank_end in *. split; try assumption.
  - pose proof (rd_packets _ _ _ Hr) as Hpk. rewrite Erd in Hpk. apply Forall_app in Hpk. apply Hpk.
  - unfold rank_end. lia.
  - rewrite Eb, Ec. eapply Forall_impl; [exact (rd_room _ _ _ Hr)|].
    cbn. intros b Hb Hact. specialize (Hb Hact). unfold rank_end in *. lia.
Qed.

(** The clock moves on; the pipeline is a tick behind again. *)
Lemma Rank_step_data_ok r :
  0 <= rk_currentClockCycle r < 2 ^ 63 -> rank_data_ok 0 0 r -> rank_data_ok 0 1 (Rank_step r).
Proof.
  intros Hc [H1 H2 H3 H4 H5 H6]. split; cbn; try assumption.
  rewrite (clock_add _ 1) by (done || lia).
  eapply Forall_impl; [exact H6|]. cbn. intros b Hb Hact. specialize (Hb Hact).
  change (rank_end (Rank_step r)) with (rank_end r). lia.
Qed.

(** A legal command keeps the invariant: a read fits in the pipeline. *)
Lemma received_data_ok r p r' :
  0 <= rk_currentClockCycle r < 2 ^ 63 ->
  0 <= bp_rank p < NUM_RANKS -> 0 <= bp_bank p < NUM_BANKS ->
  cmd_legal (rk_currentClockCycle r) p (rk_bankStates r) ->
  received r p r' -> rank_data_ok 1 0 r -> rank_data_ok 0 0 r'.
Proof.
  intros Hc Hpr Hpb Hleg [Eb Ec Epw Eo El Ep Ecd _] [Hlen Hp Ho Hpk Hend Hroom].
  pose proof (latency_bounds Hok) as Hlat. pose proof (ok_tCCD _ Hok).
  assert (rank_busy r' = rank_busy r) as Ebz by (unfold rank_busy; by rewrite Eo, El).
  unfold rank_end in *.
  destruct (is_read (busPacketType p)) eqn:Hread.
  - (* a read: the bank allows it, so the pipeline ends in time *)
    assert (exists b, zget (rk_bankStates r) (bp_bank p) = Some b /\ currentBankState b = RowActive
            /\ nextRead b <= rk_currentClockCycle r) as (b & Hb & Hact & Hnr).
    { unfold cmd_legal, bank_legal in Hleg. destruct (busPacketType p); try discriminate; naive_solver. }
    apply zget_lookup in Hb as [_ Hb].
    pose proof (proj1 (Forall_lookup _ _) Hroom _ _ Hb Hact) as Hr.
    assert (pipe_end (BL / 2) (readReturnCountdown r) (rank_busy r) <= RL) as Hfit by lia.
    destruct (pipe_push_ok _ _ _ RL (RL_pos Hok) Hp Hfit) as [Hp' He'].
    split; rewrite ?Ep, ?Ecd, ?Ebz, ?Eo, ?El; unfold rank_end, rank_reads;
      rewrite ?Ep, ?Ecd, ?Ebz, ?Eo, ?El, ?Eb, ?Ec; try assumption.
    + rewrite !length_app. cbn. lia.
    + rewrite app_assoc. apply Forall_app. split; [done|]. repeat constructor; cbn; lia.
    + lia.
    + rewrite He'. apply Forall_forall. intros b' (j & b0 & -> & Hb0)%elem_of_lookup_imap Hact'.
      unfold rank_bank_after.
      assert (rk_currentClockCycle r + BL / 2 <= nextRead (rank_bank_after (rk_currentClockCycle r) p (Z.of_nat j) b0)).
      { unfold rank_bank_after, Rank_read_all. destruct (busPacketType p); try discriminate; cbn;
          rewrite (clock_add _ (Z.max _ _)) by lia; lia. }
      unfold rank_bank_after in *. lia.
  - rewrite app_nil_r in *.
    split; rewrite ?Ep, ?Ecd, ?Ebz, ?Eo, ?El; unfold rank_end, rank_reads;
      rewrite ?Ep, ?Ecd, ?Ebz, ?Eo, ?El, ?Eb, ?Ec; try assumption; try lia.
    apply Forall_forall. intros b' (j & b0 & -> & Hb0)%elem_of_lookup_imap Hact'.
    pose proof (proj1 (Forall_lookup _ _) Hroom _ _ Hb0) as Hr.
    unfold rank_bank_after in *. destruct (busPacketType p); try discriminate; cbn in *;
      repeat case_bool_decide; cbn in *; try discriminate; try (specialize (Hr Hact')); try lia.
    rewrite (clock_add _ (u32 _)) by lia. lia.
Qed.
End ReadData.
