(* ===== verification/BankSim.v ===== *)
(** * The controller's bank states simulate the ranks'

    The controller predicts the state of every bank from the commands it has
    popped; a rank only learns of a command a cycle later, when it leaves the
    command bus. [bank_rel] relates the two views at a common cycle; it
    survives the controller's implicit transitions and every command the
    controller may pop, and it makes each popped command legal for the rank
    that receives it one cycle later. *)

From S2P Require Import Prelude.
From S2P Require Import DramConfig.
From S2P Require Import Pipe.
From S2P Require Import BusTypes.
From S2P Require Import DramRank.
From S2P Require Import RankSafety.
From S2P Require Import CommandQueue.
From S2P Require Import MemoryController.

Section BankSim.
Context {cfg : Cfg}.

(** A bank whose row is about to be closed by an auto-precharge. *)
Definition closing (m : BankState) : bool :=
  bool_decide (lastCommand m = READ_P) || bool_decide (lastCommand m = WRITE_P).

(** An open bank as both sides see it; the rank runs one cycle late. *)
Record open_rel (m r : BankState) : Prop := {
  or_state : currentBankState r = RowActive;
  or_row : openRowAddress r = openRowAddress m;
  or_read : nextRead r <= nextRead m + 1;
  or_write : nextWrite r <= nextWrite m + 1;
  or_precharge : nextPrecharge r <= nextPrecharge m + 1;
  or_last : lastCommand m = ACTIVATE \/ lastCommand m = READ \/ lastCommand m = WRITE
}.

(** A bank the rank has already closed, and no access before the controller
    has noticed. *)
Record closing_rel (t : Z) (m r : BankState) : Prop := {
  cl_policy : rowBufferPolicy = ClosePage;
  cl_state : currentBankState r = Idle;
  cl_countdown : 1 <= stateChangeCountdown m;
  cl_read : t + stateChangeCountdown m <= nextRead m;
  cl_write : t + stateChangeCountdown m <= nextWrite m
}.

Definition state_rel (t : Z) (m r : BankState) : Prop :=
  match currentBankState m with
  | Idle => currentBankState r = Idle /\ stateChangeCountdown m = 0
  | Precharging => currentBankState r = Idle /\ 1 <= stateChangeCountdown m /\ lastCommand m = PRECHARGE
  | Refreshing => currentBankState r = Idle /\ 1 <= stateChangeCountdown m /\ lastCommand m = REFRESH
  | RowActive => if closing m then closing_rel t m r else open_rel m r
  | PowerDown =>
      currentBankState r = PowerDown /\ stateChangeCountdown m = 0 /\ nextPowerUp r <= nextPowerUp m
  end.

Definition bank_rel (t : Z) (m r : BankState) : Prop :=
  nextActivate r <= nextActivate m + 1 /\ state_rel t m r.

Lemma bank_rel_initial t : bank_rel t BankState_new BankState_new.
Proof. unfold bank_rel, state_rel; cbn. split; [lia | done]. Qed.

Hypothesis Hok : cfg_ok cfg.

(** ** Implicit transitions *)

Lemma bank_tick_rel t m r : bank_rel t m r -> bank_rel (t + 1) (bank_tick m) r.
Proof.
  intros [Ha Hs]. pose proof (ok_tRP _ Hok).
  unfold bank_rel, state_rel, bank_tick in *.
  destruct (bool_decide_reflect (stateChangeCountdown m > 0)) as [Hcd|Hcd].
  2:{ destruct (currentBankState m) eqn:Em; rewrite ?Em; split; try done; try lia.
      destruct (closing m); [destruct Hs; lia | done]. }
  cbn. destruct (bool_decide_reflect (stateChangeCountdown m - 1 = 0)).
  - destruct (currentBankState m) eqn:Em; try lia.
    + unfold closing in *. destruct (lastCommand m) eqn:El; cbn in *; rewrite ?Em, ?El; cbn;
        (split; [done|]); destruct Hs;
        try (destruct or_last0 as [|[|]]; congruence);
        first [constructor; done | split; [done | split; [lia | done]]].
    + destruct Hs as (Hr & _ & ->). cbn. split; [done | split; [done | lia]].
    + destruct Hs as (Hr & _ & ->). cbn. split; [done | split; [done | lia]].
  - cbn. destruct (currentBankState m) eqn:Em; split; try done; try lia.
    + unfold closing in *. cbn. destruct (_ || _); [|by destruct Hs; constructor].
      destruct Hs; constructor; cbn; try done; lia.
    + destruct Hs as (? & ? & ?). split; [done | split; [lia | done]].
    + destruct Hs as (? & ? & ?). split; [done | split; [lia | done]].
Qed.

(** ** Commands *)

(** What the scheduler guarantees of a popped command, at its own bank. *)
Definition mc_bank_legal (t : Z) (p : BusPacket) (m : BankState) : Prop :=
  match busPacketType p with
  | READ | READ_P => currentBankState m = RowActive /\ nextRead m <= t /\ openRowAddress m = bp_row p
  | WRITE | WRITE_P => currentBankState m = RowActive /\ nextWrite m <= t /\ openRowAddress m = bp_row p
  | ACTIVATE =>
      (currentBankState m = Idle \/ currentBankState m = Refreshing) /\ nextActivate m <= t
  | PRECHARGE => rowBufferPolicy = OpenPage /\ currentBankState m = RowActive /\ nextPrecharge m <= t
  | REFRESH | DATA => True
  end.

(** Auto-precharging commands are only used under the closed-page policy. *)
Definition policy_type (t : BusPacketType) : Prop :=
  match t with READ_P | WRITE_P => rowBufferPolicy = ClosePage | _ => True end.

(** The controller's update of bank [(i, j)]. *)
Definition mc_bank_after (now : Z) (p : BusPacket) (i j : Z) (m : BankState) : BankState :=
  let here := bool_decide (i = bp_rank p /\ j = bp_bank p) in
  let t := busPacketType p in
  match t with
  | READ | READ_P =>
      let m := MC_read_all now (bp_rank p) i (if here then MC_READ_bank now t m else m) in
      if bool_decide (t = READ_P) && here then MC_close_bank m else m
  | WRITE | WRITE_P =>
      let m := MC_write_all now (bp_rank p) i (if here then MC_WRITE_bank now t m else m) in
      if bool_decide (t = WRITE_P) && here then MC_close_bank m else m
  | ACTIVATE =>
      if here then MC_ACTIVATE_bank now (bp_row p) m
      else if bool_decide (i = bp_rank p) then MC_ACTIVATE_other now m else m
  | PRECHARGE => if here then MC_PRECHARGE_bank now m else m
  | REFRESH => if bool_decide (i = bp_rank p) then MC_REFRESH_bank now m else m
  | DATA => m
  end.

Section AtTime.
Context (t : Z).
Hypothesis Ht : 0 <= t < 2 ^ 62.

Lemma now_add d : 0 <= d <= 524288 -> u64 (t + d) = t + d.
Proof. intros. apply (clock_add t d); [change (2 ^ 63) with (2 * 2 ^ 62); lia | done]. Qed.

Lemma next_add d : 0 <= d <= 524288 -> u64 (t + 1 + d) = t + 1 + d.
Proof.
  intros. apply (clock_add (t + 1) d); [|done].
  change (2 ^ 63) with 9223372036854775808. change (2 ^ 62) with 4611686018427387904 in Ht. lia.
Qed.

Lemma now_add3 a b : 0 <= a <= 32768 -> 0 <= b <= 65536 -> u64 (t + a + b) = t + a + b.
Proof.
  intros. rewrite <- Z.add_assoc. apply now_add. lia.
Qed.

(** Each popped command is legal for the rank one cycle later. *)
Lemma here_legal p m r :
  mc_bank_legal t p m -> bank_rel t m r -> bank_legal (t + 1) p r.
Proof.
  intros Hl [Ha Hs]. unfold mc_bank_legal, bank_legal, state_rel in *.
  destruct (busPacketType p); try done.
  1-4: destruct Hl as (Hst & Hn & Hrow); rewrite Hst in Hs; destruct (closing m);
    destruct Hs; [lia | split; [done | split; [lia | congruence]]].
  - destruct Hl as [[Hst|Hst] Hn]; rewrite Hst in Hs; destruct Hs; split; first [done | lia].
  - destruct Hl as (Hp & Hst & Hn). rewrite Hst in Hs. destruct (closing m); destruct Hs.
    + congruence.
    + split; [done | lia].
Qed.

Ltac latency_rw :=
  repeat first [ rewrite now_add by lia | rewrite next_add by lia ].

(** The relation at the command's own bank. *)
Lemma here_rel p m r i :
  busPacketType p <> DATA -> busPacketType p <> REFRESH -> policy_type (busPacketType p) ->
  i = bp_rank p ->
  mc_bank_legal t p m -> bank_rel t m r ->
  bank_rel t (mc_bank_after t p i (bp_bank p) m) (rank_bank_after (t + 1) p (bp_bank p) r).
Proof.
  intros Hd Hre Hpol -> Hl [Ha Hs]. pose proof (latency_bounds Hok) as Hlat.
  destruct Hok. unfold mc_bank_legal, mc_bank_after, rank_bank_after, policy_type in *.
  rewrite (bool_decide_true (_ /\ _)) by done.
  rewrite (bool_decide_true (bp_bank p = _)) by done.
  destruct (busPacketType p); try done; cbn;
    unfold MC_read_all, MC_write_all, MC_close_bank, Rank_read_all, Rank_write_all,
      MC_READ_bank, MC_WRITE_bank, Rank_READ_bank, Rank_READ_P_bank, Rank_WRITE_bank,
      Rank_WRITE_P_bank; enum_dec; unfold bank_rel, state_rel in *; cbn.
  1-4: destruct Hl as (Hst & Hn & Hrow); rewrite Hst in *; unfold closing in *; cbn in *; enum_dec;
    destruct (bool_decide (lastCommand m = READ_P) || bool_decide (lastCommand m = WRITE_P));
    [destruct Hs; lia|]; destruct Hs; (split; [latency_rw; lia|]); constructor; cbn; auto;
    latency_rw; lia.
  - split; [latency_rw; lia|]. unfold closing; cbn; enum_dec. constructor; cbn; auto; latency_rw; lia.
  - split; [latency_rw; lia|]. split; [done | split; [lia | done]].
Qed.

(** The relation at the other banks of the same rank. *)
Lemma same_rank_rel p m r i j :
  busPacketType p <> REFRESH -> i = bp_rank p -> j <> bp_bank p ->
  bank_rel t m r -> bank_rel t (mc_bank_after t p i j m) (rank_bank_after (t + 1) p j r).
Proof.
  intros Hre -> Hj [Ha Hs]. pose proof (latency_bounds Hok) as Hlat.
  destruct Hok. unfold mc_bank_after, rank_bank_after.
  rewrite !(bool_decide_false (_ /\ _)) by naive_solver. rewrite (bool_decide_false (j = _)) by done.
  rewrite ?andb_false_r.
  destruct (busPacketType p); try done; cbn;
    unfold MC_read_all, MC_write_all, Rank_read_all, Rank_write_all, MC_ACTIVATE_other, Rank_ACTIVATE_other;
    rewrite ?bool_decide_true by done; rewrite ?bool_decide_false by (intros N; by apply N);
    unfold bank_rel, state_rel in *; cbn; unfold closing in *; cbn;
    (split; [latency_rw; lia|]); destruct (currentBankState m); try done;
    destruct (bool_decide (lastCommand m = READ_P) || bool_decide (lastCommand m = WRITE_P));
    destruct Hs; constructor; cbn; auto; latency_rw; lia.
Qed.

(** The relation at the banks of the other ranks, which see nothing. *)
Lemma other_rank_rel p m r i j :
  i <> bp_rank p -> bank_rel t m r -> bank_rel t (mc_bank_after t p i j m) r.
Proof.
  intros Hi [Ha Hs]. pose proof (latency_bounds Hok) as Hlat. pose proof (BL_half Hok).
  destruct Hok. unfold mc_bank_after.
  rewrite !(bool_decide_false (_ /\ _)) by naive_solver. rewrite ?andb_false_r.
  rewrite ?(bool_decide_false (i = _)) by done.
  unfold MC_read_all, MC_write_all. rewrite ?(bool_decide_true (i <> _)) by done.
  destruct (busPacketType p); try done;
    (destruct (bool_decide_reflect (currentBankState m = RowActive)) as [Hact|Hact]; [|done]);
    unfold bank_rel, state_rel in *; cbn; rewrite Hact in *; unfold closing in *; cbn;
    (split; [lia|]);
    destruct (bool_decide (lastCommand m = READ_P) || bool_decide (lastCommand m = WRITE_P));
    destruct Hs; constructor; cbn; auto; rewrite ?now_add3 by lia; latency_rw; lia.
Qed.

(** A refresh: no bank of the rank open, and none in power-down. *)
Lemma refresh_rel p m r i j :
  busPacketType p = REFRESH -> i = bp_rank p ->
  currentBankState m <> RowActive -> currentBankState m <> PowerDown ->
  bank_rel t m r ->
  currentBankState r = Idle /\
  bank_rel t (mc_bank_after t p i j m) (rank_bank_after (t + 1) p j r).
Proof.
  intros Et -> Hna Hnp [Ha Hs]. pose proof (ok_tRFC _ Hok).
  unfold mc_bank_after, rank_bank_after. rewrite Et. rewrite bool_decide_true by done.
  unfold bank_rel, state_rel in *; cbn.
  assert (currentBankState r = Idle) by (destruct (currentBankState m); naive_solver).
  split; [done|]. split; [latency_rw; lia | split; [done | split; [lia | done]]].
Qed.
End AtTime.
End BankSim.

(** ** Room on the write-data bus

    After a command, a bank that accepts writes either already accepted them
    no later, or was just opened; and no bank accepts a write within a burst
    of a write. *)

Section WriteRoom.
Context {cfg : Cfg}.
Hypothesis Hok : cfg_ok cfg.

(** A bank the controller may still access. *)
Definition accessible (m : BankState) : Prop :=
  currentBankState m = RowActive /\ closing m = false.

Definition is_write (t : BusPacketType) : bool :=
  match t with WRITE | WRITE_P => true | _ => false end.

Lemma bank_tick_accessible m :
  accessible (bank_tick m) -> accessible m /\ nextWrite (bank_tick m) = nextWrite m.
Proof.
  unfold accessible, bank_tick, closing.
  destruct (bool_decide (stateChangeCountdown m > 0)); [|done]. cbn.
  destruct (bool_decide (stateChangeCountdown m - 1 = 0)); cbn; [|done].
  destruct (lastCommand m); cbn; intros [? ?]; try done; enum_dec; done.
Qed.

Lemma legal_accessible t p m r :
  is_column (busPacketType p) = true -> mc_bank_legal t p m -> bank_rel t m r -> accessible m.
Proof.
  unfold mc_bank_legal, accessible, bank_rel, state_rel, is_column.
  destruct (busPacketType p); enum_dec; try done; intros _ (Hs & Hn & _) [_ Hr]; rewrite Hs in *;
    (split; [done|]); destruct (closing m); destruct Hr; first [done | lia].
Qed.

Lemma write_room t p i j m :
  0 <= t < 2 ^ 62 -> busPacketType p <> REFRESH ->
  (is_column (busPacketType p) = true -> i = bp_rank p /\ j = bp_bank p -> accessible m) ->
  accessible (mc_bank_after t p i j m) ->
  (is_write (busPacketType p) = true -> t + BL / 2 <= nextWrite (mc_bank_after t p i j m)) /\
  (accessible m /\ nextWrite m <= nextWrite (mc_bank_after t p i j m) \/
   t + u32 (tRCD - AL) <= nextWrite (mc_bank_after t p i j m)).
Proof.
  intros Ht Hre Hcol. pose proof (latency_bounds Hok) as Hlat. pose proof (BL_half Hok) as Hbl.
  destruct Hok. unfold mc_bank_after, accessible, closing in *.
  unfold MC_read_all, MC_write_all, MC_READ_bank, MC_WRITE_bank, MC_close_bank, MC_ACTIVATE_bank,
    MC_ACTIVATE_other, MC_PRECHARGE_bank.
  destruct (busPacketType p); try done; cbn [is_write]; enum_dec;
    destruct (bool_decide_reflect (i = bp_rank p /\ j = bp_bank p)) as [[-> ->]|Hh]; enum_dec; cbn;
    try (intros [? ?]; done); enum_dec; try (intros [? ?]; done);
    repeat match goal with |- context [if bool_decide ?P then _ else _] => destruct (bool_decide_reflect P) end;
    cbn; intros [Hs Hc]; try done; rewrite ?(now_add3 t Ht) by lia; rewrite ?(now_add t Ht) by lia;
    try (specialize (Hcol eq_refl (conj eq_refl eq_refl)));
    (split; [intros; try discriminate; try lia | first [left; split; [done | lia] | right; lia]]).
Qed.
End WriteRoom.

(** ** What commands do to the controller's state field *)

Section States.
Context {cfg : Cfg}.

Lemma other_rank_state now p i j m :
  i <> bp_rank p ->
  currentBankState (mc_bank_after now p i j m) = currentBankState m /\
  nextPowerUp (mc_bank_after now p i j m) = nextPowerUp m.
Proof.
  intros Hi. unfold mc_bank_after, MC_read_all, MC_write_all.
  rewrite !(bool_decide_false (_ /\ _)) by naive_solver. rewrite ?andb_false_r.
  rewrite ?(bool_decide_false (i = _)) by done. rewrite ?(bool_decide_true (i <> _)) by done.
  destruct (busPacketType p); try done; by case_bool_decide.
Qed.

(** No command puts a bank in power-down. *)
Lemma after_not_down now p i j m :
  currentBankState m <> PowerDown -> currentBankState (mc_bank_after now p i j m) <> PowerDown.
Proof.
  intros Hm. unfold mc_bank_after, MC_read_all, MC_write_all, MC_close_bank, MC_READ_bank, MC_WRITE_bank,
    MC_ACTIVATE_other, MC_REFRESH_bank, MC_PRECHARGE_bank, MC_ACTIVATE_bank.
  destruct (busPacketType p); enum_dec;
    repeat match goal with |- context [if bool_decide ?P then _ else _] => destruct (bool_decide_reflect P) end;
    cbn; done.
Qed.

(** The bank of a legal command is not idle afterwards, and was not down. *)
Lemma here_busy now p m :
  busPacketType p <> DATA -> busPacketType p <> REFRESH -> mc_bank_legal now p m ->
  currentBankState (mc_bank_after now p (bp_rank p) (bp_bank p) m) <> Idle /\
  currentBankState m <> PowerDown.
Proof.
  intros Hd Hr. unfold mc_bank_legal, mc_bank_after, MC_read_all, MC_write_all, MC_close_bank,
    MC_READ_bank, MC_WRITE_bank.
  rewrite !(bool_decide_true (_ /\ _)) by done.
  destruct (busPacketType p); try done; enum_dec; cbn.
  1-4: intros (Hs & _ & _); rewrite Hs; done.
  - intros [[Hs|Hs] _]; rewrite Hs; done.
  - intros (_ & Hs & _); rewrite Hs; done.
Qed.
End States.
