(* ===== verification/QueueInv.v ===== *)
(** * The command queue's invariant

    Sizes, ranges and contents of the queues ([cq_inv]), what taking packets
    out of one queue does to all of them ([queue_minus]), and the basic
    operations: lookup, enqueue, room, emptiness, and the round robin. *)

From S2P Require Import Prelude.
From S2P Require Import DramConfig.
From S2P Require Import BusTypes.
From S2P Require Import CommandQueue.

(** ** Two-dimensional tables *)

Section Tables.
Context {cfg : Cfg}.

Definition table {A} (l : list (list A)) : Prop :=
  zlen l = NUM_RANKS /\ Forall (fun r => zlen r = NUM_BANKS) l.

Lemma table_lookup {A} (l : list (list A)) i j :
  table l -> 0 <= i < NUM_RANKS -> 0 <= j < NUM_BANKS -> exists x, zget2 l i j = Some x.
Proof.
  intros [Hl Hr] Hi Hj. destruct (zget_lt l i) as [r E]; [lia|].
  unfold zget2. rewrite E. cbn. apply zget_lt.
  apply zget_lookup in E as [_ E]. rewrite Forall_lookup in Hr. rewrite (Hr _ _ E). lia.
Qed.

Lemma table_zalter2 {A} (g : A -> A) l i j : table l -> table (zalter2 g l i j).
Proof.
  intros [Hl Hr]. split; [unfold zalter2; by rewrite zlen_zalter|].
  apply Forall_lookup. intros k r. unfold zalter2. rewrite zalter_imap, list_lookup_imap.
  intros (r0 & E & ->)%fmap_Some. rewrite Forall_lookup in Hr.
  case_bool_decide; rewrite ?zlen_zalter; eauto.
Qed.

Lemma table_row {A} (l : list (list A)) i :
  table l -> 0 <= i < NUM_RANKS -> exists r, zget l i = Some r /\ zlen r = NUM_BANKS.
Proof.
  intros [Hl Hr] Hi. destruct (zget_lt l i) as [r E]; [lia|]. exists r. split; [done|].
  apply zget_lookup in E as [_ E]. rewrite Forall_lookup in Hr. eauto.
Qed.

Lemma table_per_bank {A} (a : A) : 0 <= NUM_RANKS -> 0 <= NUM_BANKS -> table (per_bank a).
Proof.
  intros. split; [by apply zlen_replicate|].
  apply Forall_replicate. by apply zlen_replicate.
Qed.
End Tables.

Lemma zget2_zalter2_ne {A} (g : A -> A) l i j i' j' :
  ~ (i = i' /\ j = j') -> zget2 (zalter2 g l i j) i' j' = zget2 l i' j'.
Proof. intros. rewrite zget2_zalter2. by rewrite bool_decide_false. Qed.

(** ** Taking packets out of a queue *)

(** [p] left the queue, alone or with the activate it was paired with. *)
Definition queue_minus (q : list BusPacket) (p : BusPacket) (q' : list BusPacket) : Prop :=
  q ≡ₚ p :: q' \/ exists a, busPacketType a = ACTIVATE /\ q ≡ₚ p :: a :: q'.

Lemma queue_minus_app l q p q' k :
  queue_minus q p q' -> queue_minus (l ++ q ++ k) p (l ++ q' ++ k).
Proof.
  intros [H|(a & Ha & H)]; [left | right; exists a; split; [done|]]; rewrite H; solve_Permutation.
Qed.

Lemma queue_minus_Forall P q p q' : queue_minus q p q' -> Forall P q -> Forall P q' /\ P p.
Proof.
  intros [H|(a & Ha & H)] HP; rewrite H in HP; rewrite !Forall_cons in HP; naive_solver.
Qed.

Lemma queue_minus_length q p q' : queue_minus q p q' -> zlen q' < zlen q.
Proof.
  unfold zlen. intros [H|(a & Ha & H)]; apply Permutation_length in H; cbn in H; lia.
Qed.

Lemma queue_minus_filter (P : BusPacket -> bool) q p q' :
  (forall a, busPacketType a = ACTIVATE -> P a = false) -> queue_minus q p q' ->
  filter (fun a => P a = true) q ≡ₚ filter (fun a => P a = true) (p :: q').
Proof.
  intros HP [H|(a & Ha & H)]; rewrite H; [done|].
  rewrite !filter_cons, (HP a Ha). by destruct (decide (P p = true)).
Qed.

Lemma erase_at_spec (q : list BusPacket) i p :
  q !! i = Some p -> exists q', erase_at i q = Ok q' /\ queue_minus q p q'.
Proof.
  intros Hi. unfold erase_at. pose proof (lookup_lt_Some _ _ _ Hi).
  rewrite bool_decide_true by done. eexists; split; [done|]. left.
  rewrite <- (take_drop_middle q i p) at 1 by done. solve_Permutation.
Qed.

Lemma erase_pair_spec (q : list BusPacket) i p a :
  (0 < i)%nat -> q !! i = Some p -> q !! (i - 1)%nat = Some a -> busPacketType a = ACTIVATE ->
  exists q', erase_pair i q = Ok q' /\ queue_minus q p q'.
Proof.
  intros Hpos Hi Ha Hact. unfold erase_pair. pose proof (lookup_lt_Some _ _ _ Hi).
  rewrite bool_decide_true by done. eexists; split; [done|]. right. exists a. split; [done|].
  rewrite <- (take_drop_middle q (i - 1) a) at 1 by done.
  replace (S (i - 1)) with i by lia.
  rewrite (drop_S q p i) by done. solve_Permutation.
Qed.

(** ** [find_first] *)

Lemma find_first_spec {A} (test : A -> nat -> Res bool) l i0 :
  (forall k a, l !! k = Some a -> exists b, test a (i0 + k)%nat = Ok b) ->
  exists o, find_first test l i0 = Ok o /\
    match o with
    | Some (i, a) => exists k, i = (i0 + k)%nat /\ l !! k = Some a /\ test a i = Ok true /\
        forall k' a', (k' < k)%nat -> l !! k' = Some a' -> test a' (i0 + k')%nat = Ok false
    | None => forall k a, l !! k = Some a -> test a (i0 + k)%nat = Ok false
    end.
Proof.
  revert i0; induction l as [|a l IH]; intros i0 Ht; cbn; [by exists None|].
  destruct (Ht 0%nat a eq_refl) as [b Hb]. rewrite Nat.add_0_r in Hb. rewrite Hb. cbn.
  destruct b.
  - exists (Some (i0, a)). split; [done|]. exists 0%nat. split; [lia|]. repeat split; [done..|].
    intros; lia.
  - destruct (IH (S i0)) as (o & -> & Ho).
    { intros k a' Hk. destruct (Ht (S k) a' Hk) as [b Hb']. exists b. by rewrite Nat.add_succ_l, <- Nat.add_succ_r. }
    exists o. split; [done|]. destruct o as [[i a']|].
    + destruct Ho as (k & -> & Hk & Hta & Hbefore). exists (S k).
      split; [lia|]. split; [done|]. split; [done|].
      intros [|k'] a'' Hlt Hk'; cbn in Hk'.
      * injection Hk' as <-. by rewrite Nat.add_0_r.
      * rewrite Nat.add_succ_r, <- Nat.add_succ_l. apply Hbefore; [lia | done].
    + intros [|k] a' Hk; cbn in Hk.
      * injection Hk as <-. by rewrite Nat.add_0_r.
      * rewrite Nat.add_succ_r, <- Nat.add_succ_l. by apply Ho.
Qed.

Section QueueInv.
Context {cfg : Cfg}.

(** ** Contents *)

(** What the controller puts in the queues: activates, and the column
    commands of the row-buffer policy. *)
Definition allowed_type (t : BusPacketType) : Prop :=
  match t with
  | ACTIVATE => True
  | READ | WRITE => rowBufferPolicy = OpenPage
  | READ_P | WRITE_P => rowBufferPolicy = ClosePage
  | _ => False
  end.

Definition packet_ok (p : BusPacket) : Prop :=
  0 <= bp_rank p < NUM_RANKS /\ 0 <= bp_bank p < NUM_BANKS /\ allowed_type (busPacketType p).

Definition queue_ok (q : list BusPacket) : Prop :=
  zlen q <= CMD_QUEUE_DEPTH /\ Forall packet_ok q.

(** All packets of all queues. *)
Definition cq_packets (cq : CommandQueue) : list BusPacket := mjoin (mjoin (queues cq)).

(** The queues are there and hold no more than allowed. *)
Record queues_ok (qs : list (list (list BusPacket))) : Prop := {
  qs_ranks : zlen qs = NUM_RANKS;
  qs_banks : Forall (fun r => numBankQueues <= zlen r) qs;
  qs_content : Forall (Forall queue_ok) qs
}.

Record cq_inv (cq : CommandQueue) : Prop := {
  ci_queues : queues_ok (queues cq);
  ci_rank : 0 <= nextRank cq < NUM_RANKS;
  ci_bank : 0 <= nextBank cq < NUM_BANKS;
  ci_rankPRE : 0 <= nextRankPRE cq < NUM_RANKS;
  ci_bankPRE : 0 <= nextBankPRE cq < NUM_BANKS;
  ci_refresh : cq_refreshWaiting cq = true -> 0 <= cq_refreshRank cq < NUM_RANKS;
  ci_faw : zlen (tFAWCountdown cq) = NUM_RANKS;
  ci_counters : table (rowAccessCounters cq);
  ci_hits : table (totalRowBufferHitsPerBank cq);
  ci_accesses : table (totalAccessesPerBank cq)
}.

(** [p] left the queues between [cq] and [cq']. *)
Definition taken (cq : CommandQueue) (p : BusPacket) (cq' : CommandQueue) : Prop :=
  queue_minus (cq_packets cq) p (cq_packets cq').

(** ** Lookup and update of a queue *)

Lemma queue_index_range bank : 0 <= bank < NUM_BANKS -> 0 <= queue_index bank < numBankQueues.
Proof. unfold queue_index, numBankQueues. destruct queuingStructure; lia. Qed.

Lemma queues_lookup qs rank i :
  queues_ok qs -> 0 <= rank < NUM_RANKS -> 0 <= i < numBankQueues ->
  exists q, zget2 qs rank i = Some q /\ queue_ok q.
Proof.
  intros [Hl Hb Hc] Hr Hi. destruct (zget_lt qs rank) as [row E]; [lia|].
  unfold zget2. rewrite E. cbn. apply zget_lookup in E as [_ E].
  rewrite Forall_lookup in Hb, Hc. specialize (Hb _ _ E). specialize (Hc _ _ E).
  destruct (zget_lt row i) as [q Eq]; [lia|]. exists q. split; [done|].
  apply zget_lookup in Eq as [_ Eq]. rewrite Forall_lookup in Hc. eauto.
Qed.

Lemma getCommandQueue_ok cq rank bank :
  queues_ok (queues cq) -> 0 <= rank < NUM_RANKS -> 0 <= bank < NUM_BANKS ->
  exists q, getCommandQueue cq rank bank = Ok q /\
    zget2 (queues cq) rank (queue_index bank) = Some q /\ queue_ok q.
Proof.
  intros Hq Hr Hb. destruct (queues_lookup _ rank (queue_index bank) Hq Hr) as (q & E & Hok);
    [by apply queue_index_range|].
  exists q. unfold getCommandQueue. by rewrite E.
Qed.

Lemma queues_ok_alter qs rank i q' :
  queues_ok qs -> queue_ok q' -> queues_ok (zalter2 (fun _ => q') qs rank i).
Proof.
  intros [Hl Hb Hc] Hq'. unfold zalter2. rewrite zalter_imap. split.
  - by rewrite zlen_imap.
  - apply Forall_lookup. intros k row. rewrite list_lookup_imap. intros (r0 & E & ->)%fmap_Some.
    rewrite Forall_lookup in Hb. case_bool_decide; rewrite ?zlen_zalter; eauto.
  - apply Forall_lookup. intros k row. rewrite list_lookup_imap. intros (r0 & E & ->)%fmap_Some.
    rewrite Forall_lookup in Hc. specialize (Hc _ _ E).
    case_bool_decide; [|done]. rewrite zalter_imap. apply Forall_lookup.
    intros k' q. rewrite list_lookup_imap. intros (q0 & E' & ->)%fmap_Some.
    case_bool_decide; [done|]. rewrite Forall_lookup in Hc. eauto.
Qed.

Lemma zalter_middle {A} (g : A -> A) l i x :
  zget l i = Some x ->
  zalter g l i = take (Z.to_nat i) l ++ g x :: drop (S (Z.to_nat i)) l.
Proof.
  intros [H0 H]%zget_lookup. unfold zalter. rewrite bool_decide_true by done.
  rewrite <- (take_drop_middle l (Z.to_nat i) x) at 1 by done.
  rewrite alter_app_r_alt.
  2:{ rewrite length_take. lia. }
  rewrite length_take_le by (apply lookup_lt_Some in H; lia).
  by rewrite Nat.sub_diag.
Qed.

Lemma join_cons {A} (x : list A) (ls : list (list A)) : mjoin (x :: ls) = x ++ mjoin ls.
Proof. done. Qed.

(** Replacing one queue replaces its packets among all packets. *)
Lemma packets_split (qs : list (list (list BusPacket))) rank i (q : list BusPacket) :
  zget2 qs rank i = Some q ->
  exists l k, mjoin (mjoin qs) ≡ₚ l ++ q ++ k /\
    forall q', mjoin (mjoin (zalter2 (fun _ => q') qs rank i)) ≡ₚ l ++ q' ++ k.
Proof.
  unfold zget2, zalter2. destruct (zget qs rank) as [row|] eqn:Er; cbn; [|done]. intros Eq.
  pose proof Er as [_ Er']%zget_lookup. pose proof Eq as [_ Eq']%zget_lookup.
  exists (mjoin (mjoin (take (Z.to_nat rank) qs)) ++ mjoin (take (Z.to_nat i) row) : list BusPacket),
    (mjoin (drop (S (Z.to_nat i)) row) ++ mjoin (mjoin (drop (S (Z.to_nat rank)) qs)) : list BusPacket).
  split.
  - rewrite <- (take_drop_middle qs (Z.to_nat rank) row) at 1 by done.
    rewrite <- (take_drop_middle row (Z.to_nat i) q) at 1 by done.
    rewrite !join_app, !join_cons, !join_app, !join_cons. by rewrite <- !app_assoc.
  - intros q'. rewrite (zalter_middle _ _ _ _ Er), (zalter_middle _ _ _ _ Eq).
    rewrite !join_app, !join_cons, !join_app, !join_cons. by rewrite <- !app_assoc.
Qed.

Lemma taken_set cq rank bank q p q' :
  zget2 (queues cq) rank (queue_index bank) = Some q -> queue_minus q p q' ->
  taken cq p (setCommandQueue cq rank bank q').
Proof.
  intros Hq Hm. destruct (packets_split _ _ _ _ Hq) as (l & k & H1 & H2).
  unfold taken, cq_packets, setCommandQueue. cbn.
  apply (queue_minus_app l _ _ _ k) in Hm.
  destruct Hm as [Hm|(a & Ha & Hm)]; [left | right; exists a; split; [done|]];
    by rewrite H1, H2, Hm.
Qed.

Lemma queue_minus_ok q p q' : queue_minus q p q' -> queue_ok q -> queue_ok q' /\ packet_ok p.
Proof.
  intros Hm [Hl HF]. pose proof (queue_minus_length _ _ _ Hm).
  destruct (queue_minus_Forall _ _ _ _ Hm HF). split; [split; [lia | done] | done].
Qed.

Lemma cq_inv_set cq rank bank q' :
  cq_inv cq -> queue_ok q' -> cq_inv (setCommandQueue cq rank bank q').
Proof. intros [? ? ? ? ? ? ? ? ? ?] ?. split; cbn; try done. by apply queues_ok_alter. Qed.

(** ** Enqueueing *)

Lemma hasRoomFor_spec cq n rank bank :
  CMD_QUEUE_DEPTH < 4294967296 -> 0 <= n ->
  cq_inv cq -> 0 <= rank < NUM_RANKS -> 0 <= bank < NUM_BANKS ->
  exists q, zget2 (queues cq) rank (queue_index bank) = Some q /\
    hasRoomFor cq n rank bank = Ok (bool_decide (zlen q + n <= CMD_QUEUE_DEPTH)).
Proof.
  intros Hd Hn Hcq Hr Hb.
  destruct (getCommandQueue_ok cq rank bank (ci_queues _ Hcq) Hr Hb) as (q & E & Eq & [Hl _]).
  exists q. split; [done|]. unfold hasRoomFor. rewrite E. cbn.
  pose proof (zlen_nonneg q). rewrite u64_small by (unfold in_u64; lia).
  f_equal. apply bool_decide_ext. lia.
Qed.

Lemma enqueue_spec cq p q :
  cq_inv cq -> packet_ok p ->
  zget2 (queues cq) (bp_rank p) (queue_index (bp_bank p)) = Some q -> zlen q + 1 <= CMD_QUEUE_DEPTH ->
  let cq' := setCommandQueue cq (bp_rank p) (bp_bank p) (q ++ [p]) in
  enqueue cq p = Ok cq' /\ cq_inv cq' /\ cq_packets cq' ≡ₚ p :: cq_packets cq /\
  zget2 (queues cq') (bp_rank p) (queue_index (bp_bank p)) = Some (q ++ [p]).
Proof.
  intros Hcq Hp Hq Hroom cq'. pose proof Hp as (Hr & Hb & _).
  destruct (getCommandQueue_ok cq _ _ (ci_queues _ Hcq) Hr Hb) as (q0 & E & Eq & [Hl HF]).
  rewrite Hq in Eq. injection Eq as <-.
  split; [|split; [|split]].
  - unfold enqueue. rewrite E. cbn. rewrite bool_decide_false; [done|].
    rewrite zlen_app. change (zlen [p]) with 1. lia.
  - apply cq_inv_set; [done|]. split; [rewrite zlen_app; change (zlen [p]) with 1; lia|].
    apply Forall_app. split; [done | by apply Forall_singleton].
  - destruct (packets_split _ _ _ _ Hq) as (l & k & H1 & H2).
    unfold cq_packets, cq', setCommandQueue. cbn. rewrite H1, H2. solve_Permutation.
  - unfold cq', setCommandQueue. cbn. rewrite zget2_zalter2, bool_decide_true by done.
    by rewrite Hq.
Qed.

(** ** Emptiness *)

Lemma all_empty_ok cq rank banks :
  queues_ok (queues cq) -> 0 <= rank < NUM_RANKS ->
  Forall (fun i => 0 <= i < numBankQueues) banks -> exists b, all_empty cq rank banks = Ok b.
Proof.
  intros Hq Hr HF. induction HF as [|i banks Hi _ IH]; cbn; [eauto|].
  destruct (queues_lookup _ rank i Hq Hr Hi) as (q & -> & _). cbn.
  destruct q; eauto.
Qed.

Lemma isEmpty_ok cq rank :
  1 <= NUM_BANKS -> queues_ok (queues cq) -> 0 <= rank < NUM_RANKS -> exists b, isEmpty cq rank = Ok b.
Proof.
  intros Hnb Hq Hr. unfold isEmpty. destruct queuingStructure eqn:Es.
  - destruct (queues_lookup _ rank 0 Hq Hr) as (q & -> & _); [unfold numBankQueues; rewrite Es; lia|].
    cbn; eauto.
  - apply all_empty_ok; [done..|]. apply Forall_forall. intros i Hi%elem_of_zrange.
    unfold numBankQueues. by rewrite Es.
Qed.
End QueueInv.
