(* ===== verification/PopSpec.v ===== *)
(** * What [CommandQueue::pop] promises the controller

    [pop] never faults, keeps the queue invariant, terminates its round-robin
    scans, and the command it returns is legal for the bank states it was
    shown ([legal_popped]) and either left a queue or is a precharge or
    refresh the scheduler made up ([moved]). *)

From S2P Require Import Prelude.
From S2P Require Import DramConfig.
From S2P Require Import Pipe.
From S2P Require Import BusTypes.
From S2P Require Import DramRank.
From S2P Require Import RankSafety.
From S2P Require Import CommandQueue.
From S2P Require Import MemoryController.
From S2P Require Import BankSim.
From S2P Require Import QueueInv.

(** ** Round robin *)

Section RoundRobin.
Context {cfg : Cfg}.
Hypothesis Hranks : 1 <= NUM_RANKS <= 256.
Hypothesis Hbanks : 1 <= NUM_BANKS <= 256.

(** The position of a bank in the order of the round robin. *)
Definition rr_pos (rank bank : Z) : Z :=
  match schedulingPolicy with
  | RankThenBankRoundRobin => bank * NUM_RANKS + rank
  | BankThenRankRoundRobin => rank * NUM_BANKS + bank
  end.

Definition rr_size : Z := NUM_RANKS * NUM_BANKS.

Lemma rr_pos_range rank bank :
  0 <= rank < NUM_RANKS -> 0 <= bank < NUM_BANKS -> 0 <= rr_pos rank bank < rr_size.
Proof. unfold rr_pos, rr_size. destruct schedulingPolicy; nia. Qed.

Lemma rr_pos_inj r b r' b' :
  0 <= r < NUM_RANKS -> 0 <= b < NUM_BANKS -> 0 <= r' < NUM_RANKS -> 0 <= b' < NUM_BANKS ->
  rr_pos r b = rr_pos r' b' -> r = r' /\ b = b'.
Proof.
  unfold rr_pos. intros Hr Hb Hr' Hb'. destruct schedulingPolicy; intros H.
  - assert (b = b') by nia. nia.
  - assert (r = r') by nia. nia.
Qed.

Lemma nextRankAndBank_spec rank bank :
  0 <= rank < NUM_RANKS -> 0 <= bank < NUM_BANKS ->
  let '(rank', bank') := nextRankAndBank rank bank in
  0 <= rank' < NUM_RANKS /\ 0 <= bank' < NUM_BANKS /\
  rr_pos rank' bank' = (rr_pos rank bank + 1) mod rr_size.
Proof.
  intros Hr Hb. pose proof (rr_pos_range rank bank Hr Hb).
  assert (rr_size = NUM_RANKS * NUM_BANKS) as Hsz by done.
  unfold nextRankAndBank, rr_pos in *.
  destruct schedulingPolicy; rewrite !u32_small by (unfold in_u32; lia);
    repeat case_bool_decide; (split; [lia | split; [lia|]]).
  1,4: rewrite (Z.mod_eq _ rr_size) by nia; replace (_ / rr_size) with 1; [nia|];
    apply Z.div_unique with 0; nia.
  all: rewrite Z.mod_small; nia.
Qed.

(** The round robin over queues: the ranks only, when queues are per rank. *)
Definition scan_pos (rank bank : Z) : Z :=
  match queuingStructure with PerRank => rank | PerRankPerBank => rr_pos rank bank end.
Definition scan_size : Z :=
  match queuingStructure with PerRank => NUM_RANKS | PerRankPerBank => rr_size end.

Lemma scan_pos_range rank bank :
  0 <= rank < NUM_RANKS -> 0 <= bank < NUM_BANKS -> 0 <= scan_pos rank bank < scan_size.
Proof. unfold scan_pos, scan_size. destruct queuingStructure; [done | apply rr_pos_range]. Qed.

Lemma scan_next_spec sr sb rank bank :
  0 <= sr < NUM_RANKS -> 0 <= sb < NUM_BANKS -> 0 <= rank < NUM_RANKS -> 0 <= bank < NUM_BANKS ->
  let '((rank', bank'), back) := scan_next sr sb rank bank in
  0 <= rank' < NUM_RANKS /\ 0 <= bank' < NUM_BANKS /\
  scan_pos rank' bank' = (scan_pos rank bank + 1) mod scan_size /\
  (back = false -> scan_pos rank' bank' <> scan_pos sr sb).
Proof.
  intros Hsr Hsb Hr Hb. unfold scan_next, scan_pos, scan_size. destruct queuingStructure.
  - rewrite u32_small by (unfold in_u32; lia).
    assert (0 <= (rank + 1) mod NUM_RANKS < NUM_RANKS) by (apply Z.mod_pos_bound; lia).
    split; [done | split; [done | split; [done|]]]. rewrite bool_decide_eq_false. congruence.
  - pose proof (nextRankAndBank_spec rank bank Hr Hb) as H.
    destruct (nextRankAndBank rank bank) as [r b]. destruct H as (Hr' & Hb' & Hp).
    split; [done | split; [done | split; [done|]]].
    intros Hback Heq. destruct (rr_pos_inj _ _ _ _ Hr' Hb' Hsr Hsb Heq) as [-> ->].
    rewrite !bool_decide_true in Hback by done. done.
Qed.

(** Distance travelled: a scan that has not come back can still advance. *)
Lemma scan_progress size start pos d :
  0 <= start < size -> 0 <= d < size -> pos = (start + d) mod size ->
  (pos + 1) mod size <> start -> 0 <= d + 1 < size /\ (pos + 1) mod size = (start + (d + 1)) mod size.
Proof.
  intros Hs Hd -> Hne. rewrite Z.add_mod_idemp_l in * by lia.
  replace (start + d + 1) with (start + (d + 1)) in * by lia. split; [|done].
  split; [lia|]. destruct (decide (d + 1 = size)) as [E|]; [|lia].
  exfalso. apply Hne. rewrite E. rewrite <- Z.add_mod_idemp_r, Z.mod_same, Z.add_0_r by lia.
  by apply Z.mod_small.
Qed.
End RoundRobin.

(** ** Legality of what is popped *)

Section Legal.
Context {cfg : Cfg}.
Context (bankStates : list (list BankState)).

Definition legal_popped (now : Z) (p : BusPacket) : Prop :=
  0 <= bp_rank p < NUM_RANKS /\ 0 <= bp_bank p < NUM_BANKS /\
  busPacketType p <> DATA /\ policy_type (busPacketType p) /\
  match busPacketType p with
  | REFRESH =>
      (forall b m, 0 <= b < NUM_BANKS -> zget2 bankStates (bp_rank p) b = Some m ->
         currentBankState m <> RowActive /\ nextActivate m <= now) /\
      exists m, zget2 bankStates (bp_rank p) 0 = Some m /\ currentBankState m <> PowerDown
  | _ => exists m, zget2 bankStates (bp_rank p) (bp_bank p) = Some m /\ mc_bank_legal now p m
  end.

(** Where the command comes from. *)
Definition moved (cq : CommandQueue) (p : BusPacket) (cq' : CommandQueue) : Prop :=
  (allowed_type (busPacketType p) /\ taken cq p cq') \/
  ((busPacketType p = PRECHARGE \/ busPacketType p = REFRESH) /\ queues cq' = queues cq).

(** The outcome of a stage of [pop]. *)
Record stage_ok (cq : CommandQueue) (o : option BusPacket) (cq' : CommandQueue) : Prop := {
  st_inv : cq_inv cq';
  st_clock : cq_currentClockCycle cq' = cq_currentClockCycle cq;
  st_faw : tFAWCountdown cq' = tFAWCountdown cq;
  st_packet : match o with
    | None => queues cq' = queues cq
    | Some p => legal_popped (cq_currentClockCycle cq) p /\ moved cq p cq' /\
        (busPacketType p = ACTIVATE ->
         exists w, zget (tFAWCountdown cq) (bp_rank p) = Some w /\ zlen w < 4)
    end
}.

Lemma stage_none cq : cq_inv cq -> stage_ok cq None cq.
Proof. intros; by constructor. Qed.

(** Changing only the round-robin indices or the refresh request. *)
Lemma stage_trans cq cq1 o cq2 :
  stage_ok cq None cq1 -> stage_ok cq1 o cq2 -> stage_ok cq o cq2.
Proof.
  intros [_ Hc1 Hf1 Hq1] [Hi2 Hc2 Hf2 Hp2]. constructor; [done | congruence | congruence |].
  destruct o as [p|]; [|congruence]. rewrite Hc1, Hf1 in Hp2.
  destruct Hp2 as (Hl & Hm & Hw). split; [done|]. split; [|done].
  unfold moved, taken, cq_packets in *. by rewrite Hq1 in Hm.
Qed.

Hypothesis Hbs : table bankStates.

Lemma getBank_ok rank bank :
  0 <= rank < NUM_RANKS -> 0 <= bank < NUM_BANKS ->
  exists m, getBank bankStates rank bank = Ok m /\ zget2 bankStates rank bank = Some m.
Proof.
  intros Hr Hb. destruct (table_lookup _ _ _ Hbs Hr Hb) as [m E]. exists m.
  unfold getBank. by rewrite E.
Qed.

(** ** [isIssuable] *)

Lemma isIssuable_spec cq p :
  cq_inv cq -> packet_ok p ->
  exists b, isIssuable bankStates cq p = Ok b /\
    (b = true -> legal_popped (cq_currentClockCycle cq) p /\
       (busPacketType p = ACTIVATE ->
        exists w, zget (tFAWCountdown cq) (bp_rank p) = Some w /\ zlen w < 4)).
Proof.
  intros Hcq (Hr & Hb & Ht). destruct (getBank_ok _ _ Hr Hb) as (m & Em & Em').
  destruct (table_lookup _ _ _ (ci_counters _ Hcq) Hr Hb) as [n En].
  unfold isIssuable, legal_popped, mc_bank_legal, policy_type, allowed_type in *.
  destruct (busPacketType p) eqn:Et; try done; rewrite Em, ?En; cbn.
  1-4: eexists; split; [reflexivity|]; rewrite !andb_true_iff, !bool_decide_eq_true;
    intros [[[Hs Hn] Hrow] _]; (split; [|done]); repeat (split; [done|]); exists m;
    (split; [done|]); split; [done | split; [lia | done]].
  destruct (zget_lt (tFAWCountdown cq) (bp_rank p)) as [w Ew]; [rewrite (ci_faw _ Hcq); lia|].
  rewrite Ew. cbn. eexists; split; [reflexivity|].
  rewrite !andb_true_iff, orb_true_iff, !bool_decide_eq_true. intros [[Hs Hn] Hw].
  split; [|eauto]. repeat (split; [done|]). exists m. split; [done|]. split; [done | lia].
Qed.

(** A test that looks for an issuable command, and more. *)
Definition issuable_test (cq : CommandQueue) (test : BusPacket -> nat -> Res bool) : Prop :=
  forall p i, packet_ok p -> exists b, test p i = Ok b /\
    (b = true -> isIssuable bankStates cq p = Ok true).

Lemma find_issuable cq test q :
  cq_inv cq -> issuable_test cq test -> queue_ok q ->
  exists o, find_first test q 0 = Ok o /\
    match o with
    | Some (i, p) => q !! i = Some p /\ packet_ok p /\ isIssuable bankStates cq p = Ok true
    | None => True
    end.
Proof.
  intros Hcq Ht [_ HF]. rewrite Forall_lookup in HF.
  destruct (find_first_spec test q 0) as (o & -> & Ho).
  { intros k a Hk. destruct (Ht a k (HF _ _ Hk)) as (b & Hb & _). eauto. }
  exists o. split; [done|]. destruct o as [[i p]|]; [|done].
  destruct Ho as (k & -> & Hk & Htest & _). cbn in Htest.
  split; [done|]. split; [eauto|].
  destruct (Ht p k (HF _ _ Hk)) as (b & Hb & Hiss). apply Hiss. congruence.
Qed.

Lemma issuable_packet_ok cq p :
  cq_inv cq -> packet_ok p -> isIssuable bankStates cq p = Ok true ->
  legal_popped (cq_currentClockCycle cq) p /\
  (busPacketType p = ACTIVATE -> exists w, zget (tFAWCountdown cq) (bp_rank p) = Some w /\ zlen w < 4).
Proof.
  intros Hcq Hp Hi. destruct (isIssuable_spec cq p Hcq Hp) as (b & Hb & H). apply H. congruence.
Qed.

(** Taking an issuable packet out of its queue. *)
Lemma stage_taken cq rank bank q p q' :
  cq_inv cq -> zget2 (queues cq) rank (queue_index bank) = Some q -> queue_ok q ->
  isIssuable bankStates cq p = Ok true -> queue_minus q p q' ->
  stage_ok cq (Some p) (setCommandQueue cq rank bank q').
Proof.
  intros Hcq Hq Hqok Hiss Hm. destruct (queue_minus_ok _ _ _ Hm Hqok) as [Hq' Hp].
  constructor; [by apply cq_inv_set | done | done |].
  destruct (issuable_packet_ok cq p Hcq Hp Hiss). split; [done|]. split; [|done].
  left. split; [apply Hp | by eapply taken_set].
Qed.
End Legal.

(** ** The stages of [pop] *)

Section Stages.
Context {cfg : Cfg}.
Context (bankStates : list (list BankState)).
Hypothesis Hbs : table bankStates.
Hypothesis Hranks : 1 <= NUM_RANKS <= 256.
Hypothesis Hbanks : 1 <= NUM_BANKS <= 256.

Notation stage_ok := (stage_ok bankStates).
Notation getBank := (getBank bankStates).

(** *** Refresh *)

(** A made-up refresh is legal once every bank was found quiet. *)
Lemma issue_refresh_ok cq m0 :
  cq_inv cq -> cq_refreshWaiting cq = true ->
  (forall b, 0 <= b < NUM_BANKS -> exists m, zget2 bankStates (cq_refreshRank cq) b = Some m /\
     currentBankState m <> RowActive /\ nextActivate m <= cq_currentClockCycle cq) ->
  zget2 bankStates (cq_refreshRank cq) 0 = Some m0 -> currentBankState m0 <> PowerDown ->
  exists p cq', issue_refresh cq = Ok (Some p, cq') /\ stage_ok cq (Some p) cq'.
Proof.
  intros Hcq Hw Hall Hm0 Hpd. do 2 eexists. split; [reflexivity|].
  destruct Hcq as [? ? ? ? ? Hr ? ? ? ?]. specialize (Hr Hw).
  constructor; cbn; [by constructor | done | done |].
  split; [|split; [|done]].
  - repeat (split; [cbn; first [done | lia]|]). split; [|by exists m0].
    intros b m Hb Hm. destruct (Hall b Hb) as (m' & Hm' & H). cbn in Hm. rewrite Hm in Hm'.
    by injection Hm' as <-.
  - right. cbn. auto.
Qed.

(** The banks the refresh loop has passed. *)
Definition quiet (cq : CommandQueue) (b : Z) : Prop :=
  exists m, zget2 bankStates (cq_refreshRank cq) b = Some m /\
    currentBankState m <> RowActive /\ nextActivate m <= cq_currentClockCycle cq.

Lemma refresh_find_closed_ok cq openRow b q0 q j :
  cq_inv cq -> queue_ok q0 -> (forall k, q !! k = q0 !! (j + k)%nat) ->
  exists o, refresh_find_closed bankStates cq openRow b q j = Ok o /\
    match o with
    | Some (i, p) => q0 !! i = Some p /\ isIssuable bankStates cq p = Ok true
    | None => True
    end.
Proof.
  intros Hcq Hq0. revert j; induction q as [|p q IH]; intros j Hk; cbn; [by exists None|].
  assert (q0 !! j = Some p) as Hp by (specialize (Hk 0%nat); rewrite Nat.add_0_r in Hk; by rewrite <- Hk).
  destruct (bool_decide _ && bool_decide _).
  - case_bool_decide; [|by exists None].
    destruct (isIssuable_spec bankStates Hbs cq p Hcq) as (i & Ei & _).
    { destruct Hq0 as [_ HF]. rewrite Forall_lookup in HF. eauto. }
    rewrite Ei. cbn. destruct i; eexists; (split; [reflexivity|]); done.
  - apply IH. intros k. specialize (Hk (S k)). cbn in Hk. etransitivity; [exact Hk|]. f_equal. lia.
Qed.

Lemma refresh_banks_closed_ok cq banks :
  cq_inv cq -> cq_refreshWaiting cq = true -> Forall (fun b => 0 <= b < NUM_BANKS) banks ->
  exists found o cq', refresh_banks_closed bankStates cq banks = Ok (found, o, cq') /\
    stage_ok cq o cq' /\
    (found = false -> o = None /\ cq' = cq /\ Forall (quiet cq) banks).
Proof.
  intros Hcq Hw HF. pose proof (ci_refresh _ Hcq Hw) as Hr.
  induction HF as [|b banks Hb _ IH]; cbn.
  { exists false, None, cq. split; [done|]. split; [by apply stage_none | done]. }
  destruct (getCommandQueue_ok cq _ b (ci_queues _ Hcq) Hr Hb) as (q & -> & Eq & Hq). cbn.
  destruct (getBank_ok _ Hbs _ b Hr Hb) as (m & -> & Em). cbn.
  case_bool_decide as Hact.
  - destruct (refresh_find_closed_ok cq (openRowAddress m) b q q 0 Hcq Hq) as (o & -> & Ho); [done|].
    cbn. destruct o as [[i p]|]; cbn.
    + destruct Ho as [Hi Hiss]. destruct (erase_at_spec _ _ _ Hi) as (q' & -> & Hm). cbn.
      do 3 eexists. split; [reflexivity|]. split; [by eapply stage_taken | done].
    + do 3 eexists. split; [reflexivity|]. split; [by apply stage_none | done].
  - case_bool_decide as Hna.
    + do 3 eexists. split; [reflexivity|]. split; [by apply stage_none | done].
    + destruct IH as (found & o & cq' & -> & Hs & Hf). do 3 eexists. split; [reflexivity|].
      split; [done|]. intros E. destruct (Hf E) as (-> & -> & HF'). repeat (split; [done|]).
      constructor; [|done]. exists m. split; [done | split; [done | lia]].
Qed.

(** The last step of both refresh stages. *)
Lemma refresh_now_ok cq o :
  cq_inv cq -> cq_refreshWaiting cq = true -> Forall (quiet cq) (zrange NUM_BANKS) -> o = None ->
  exists o' cq', (b0 ← getBank (cq_refreshRank cq) 0;
    if bool_decide (currentBankState b0 <> PowerDown) then issue_refresh cq else Ok (o, cq)) = Ok (o', cq') /\
    stage_ok cq o' cq'.
Proof.
  intros Hcq Hw HF ->. pose proof (ci_refresh _ Hcq Hw) as Hr.
  destruct (getBank_ok _ Hbs (cq_refreshRank cq) 0 Hr ltac:(lia)) as (m0 & -> & Em0). cbn.
  case_bool_decide as Hpd.
  - destruct (issue_refresh_ok cq m0 Hcq Hw) as (p & cq' & -> & Hs); [|done..|eauto].
    intros b Hb. rewrite Forall_forall in HF. by apply HF, elem_of_zrange.
  - do 2 eexists; split; [reflexivity | by apply stage_none].
Qed.

Lemma zrange_Forall n : Forall (fun b => 0 <= b < n) (zrange n).
Proof. apply Forall_forall. intros b. apply elem_of_zrange. Qed.

Lemma refresh_stage_closed_ok cq :
  cq_inv cq -> exists o cq', refresh_stage_closed bankStates cq = Ok (o, cq') /\ stage_ok cq o cq'.
Proof.
  intros Hcq. unfold refresh_stage_closed. destruct (cq_refreshWaiting cq) eqn:Hw.
  2:{ do 2 eexists; split; [reflexivity | by apply stage_none]. }
  destruct (refresh_banks_closed_ok cq _ Hcq Hw (zrange_Forall _)) as (found & o & cq' & -> & Hs & Hf).
  cbn. destruct found; [by eauto|]. destruct Hf as (-> & -> & HF); [done|].
  by apply refresh_now_ok.
Qed.

Lemma refresh_find_open_ok cq openRow b q0 q j :
  cq_inv cq -> queue_ok q0 -> (forall k, q !! k = q0 !! (j + k)%nat) ->
  exists close o, refresh_find_open bankStates cq openRow b q j = Ok (close, o) /\
    match o with
    | Some (i, p) => close = false /\ q0 !! i = Some p /\ isIssuable bankStates cq p = Ok true
    | None => True
    end.
Proof.
  intros Hcq Hq0. revert j; induction q as [|p q IH]; intros j Hk; cbn; [by exists true, None|].
  assert (q0 !! j = Some p) as Hp by (specialize (Hk 0%nat); rewrite Nat.add_0_r in Hk; by rewrite <- Hk).
  destruct (bool_decide _ && bool_decide _).
  - case_bool_decide; [|by exists true, None].
    destruct (isIssuable_spec bankStates Hbs cq p Hcq) as (i & Ei & _).
    { destruct Hq0 as [_ HF]. rewrite Forall_lookup in HF. eauto. }
    rewrite Ei. cbn. destruct i; do 2 eexists; (split; [reflexivity|]); done.
  - apply IH. intros k. specialize (Hk (S k)). cbn in Hk. etransitivity; [exact Hk|]. f_equal. lia.
Qed.

(** A made-up precharge of an open bank. *)
Lemma stage_precharge cq rank b m :
  cq_inv cq -> rowBufferPolicy = OpenPage ->
  0 <= rank < NUM_RANKS -> 0 <= b < NUM_BANKS -> zget2 bankStates rank b = Some m ->
  currentBankState m = RowActive -> nextPrecharge m <= cq_currentClockCycle cq ->
  stage_ok cq (Some (BusPacket_new PRECHARGE 0 0 0 rank b 0))
    (cq <| rowAccessCounters ::= fun c => zalter2 (fun _ => 0) c rank b |>).
Proof.
  intros [? ? ? ? ? ? ? ? ? ?] Hpol Hr Hb Hm Hact Hpre.
  constructor; cbn; [|done|done|].
  - constructor; cbn; try done. by apply table_zalter2.
  - split; [|split; [|done]].
    + repeat (split; [cbn; first [done | lia]|]). exists m. done.
    + right. auto.
Qed.

Lemma refresh_active_open_ok cq b m :
  cq_inv cq -> rowBufferPolicy = OpenPage -> cq_refreshWaiting cq = true -> 0 <= b < NUM_BANKS ->
  zget2 bankStates (cq_refreshRank cq) b = Some m -> currentBankState m = RowActive ->
  exists o cq', refresh_active_open bankStates cq b m = Ok (o, cq') /\ stage_ok cq o cq'.
Proof.
  intros Hcq Hpol Hw Hb Hm Hact. pose proof (ci_refresh _ Hcq Hw) as Hr.
  unfold refresh_active_open.
  destruct (getCommandQueue_ok cq _ b (ci_queues _ Hcq) Hr Hb) as (q & -> & Eq & Hq). cbn.
  destruct (refresh_find_open_ok cq (openRowAddress m) b q q 0 Hcq Hq) as (close & o & -> & Ho); [done|].
  cbn. destruct o as [[i p]|]; cbn.
  - destruct Ho as (-> & Hi & Hiss). destruct (erase_at_spec _ _ _ Hi) as (q' & -> & Hmin). cbn.
    do 2 eexists. split; [reflexivity|]. by eapply stage_taken.
  - destruct close; cbn; [|do 2 eexists; split; [reflexivity | by apply stage_none]].
    case_bool_decide; cbn; [|do 2 eexists; split; [reflexivity | by apply stage_none]].
    destruct (table_lookup _ _ b (ci_counters _ Hcq) Hr Hb) as [n ->]. cbn.
    do 2 eexists. split; [reflexivity|]. eapply stage_precharge; eauto. lia.
Qed.

Lemma refresh_banks_open_ok cq banks :
  cq_inv cq -> rowBufferPolicy = OpenPage -> cq_refreshWaiting cq = true ->
  Forall (fun b => 0 <= b < NUM_BANKS) banks ->
  exists send o cq', refresh_banks_open bankStates cq banks = Ok (send, o, cq') /\
    stage_ok cq o cq' /\
    (send = true -> o = None /\ cq' = cq /\ Forall (quiet cq) banks).
Proof.
  intros Hcq Hpol Hw HF. pose proof (ci_refresh _ Hcq Hw) as Hr.
  induction HF as [|b banks Hb _ IH]; cbn.
  { exists true, None, cq. split; [done|]. split; [by apply stage_none | done]. }
  destruct (getBank_ok _ Hbs _ b Hr Hb) as (m & -> & Em). cbn.
  case_bool_decide as Hact.
  - destruct (refresh_active_open_ok cq b m) as (o & cq' & -> & Hs); try done. cbn.
    do 3 eexists. split; [reflexivity | by split].
  - case_bool_decide as Hna.
    + do 3 eexists. split; [reflexivity|]. split; [by apply stage_none | done].
    + destruct IH as (send & o & cq' & -> & Hs & Hf). do 3 eexists. split; [reflexivity|].
      split; [done|]. intros E. destruct (Hf E) as (-> & -> & HF'). repeat (split; [done|]).
      constructor; [|done]. exists m. split; [done | split; [done | lia]].
Qed.

Lemma refresh_stage_open_ok cq :
  cq_inv cq -> rowBufferPolicy = OpenPage ->
  exists o cq', refresh_stage_open bankStates cq = Ok (o, cq') /\ stage_ok cq o cq'.
Proof.
  intros Hcq Hpol. unfold refresh_stage_open. destruct (cq_refreshWaiting cq) eqn:Hw.
  2:{ do 2 eexists; split; [reflexivity | by apply stage_none]. }
  destruct (refresh_banks_open_ok cq _ Hcq Hpol Hw (zrange_Forall _)) as (send & o & cq' & -> & Hs & Hf).
  cbn. destruct send; [|by eauto]. destruct Hf as (-> & -> & HF); [done|].
  by apply refresh_now_ok.
Qed.
End Stages.

(** ** Choosing from one queue *)

Section TryQueue.
Context {cfg : Cfg}.
Context (bankStates : list (list BankState)).
Hypothesis Hbs : table bankStates.

Notation stage_ok := (stage_ok bankStates).

(** What the scan needs of the choice from one queue. *)
Definition try_ok (try : CommandQueue -> Z -> Z -> list BusPacket -> Res (option BusPacket * CommandQueue))
  : Prop :=
  forall cq rank bank q,
    cq_inv cq -> 0 <= rank < NUM_RANKS -> 0 <= bank < NUM_BANKS ->
    zget2 (queues cq) rank (queue_index bank) = Some q -> queue_ok q ->
    exists o cq', try cq rank bank q = Ok (o, cq') /\ stage_ok cq o cq' /\
      match o with
      | None => cq' = cq
      | Some _ => nextRank cq' = nextRank cq /\ nextBank cq' = nextBank cq
      end.

Lemma issuable_test_and cq (test : BusPacket -> nat -> bool) :
  cq_inv cq ->
  issuable_test bankStates cq (fun p i => iss ← isIssuable bankStates cq p; Ok ((iss : bool) && test p i)).
Proof.
  intros Hcq p i Hp. destruct (isIssuable_spec bankStates Hbs cq p Hcq Hp) as (b & Hb & _).
  rewrite Hb. cbn. eexists; split; [reflexivity|]. destruct b; [done | discriminate].
Qed.

Lemma try_queue_closed_ok : try_ok (try_queue_closed bankStates).
Proof.
  intros cq rank bank q Hcq Hr Hb Eq Hq. unfold try_queue_closed.
  assert (exists o, select_closed bankStates cq q = Ok o /\
    match o with
    | Some (i, p) => q !! i = Some p /\ isIssuable bankStates cq p = Ok true
    | None => True
    end) as (o & -> & Ho).
  { unfold select_closed. destruct queuingStructure.
    - match goal with |- context [find_first ?t q 0] =>
        destruct (find_issuable bankStates cq t q Hcq) as (o & -> & Ho); [|done|] end.
      { apply (issuable_test_and cq (fun p i => negb _) Hcq). }
      exists o. split; [done|]. destruct o as [[i p]|]; naive_solver.
    - destruct q as [|p q]; [by exists None|].
      destruct (isIssuable_spec bankStates Hbs cq p Hcq) as (b & Hiss & _).
      { destruct Hq as [_ HF]. by inversion HF. }
      rewrite Hiss. cbn. destruct b; eexists; (split; [reflexivity|]); done. }
  cbn. destruct o as [[i p]|].
  - destruct Ho as [Hi Hiss]. destruct (erase_at_spec _ _ _ Hi) as (q' & -> & Hm). cbn.
    do 2 eexists. split; [reflexivity|]. split; [by eapply stage_taken | done].
  - do 2 eexists. split; [reflexivity|]. split; [by apply stage_none | done].
Qed.

(** Removal of an issuable packet, counting the row access if paired. *)
Lemma remove_selected_ok cq rank bank q i p :
  cq_inv cq -> zget2 (queues cq) rank (queue_index bank) = Some q -> queue_ok q ->
  q !! i = Some p -> packet_ok p -> isIssuable bankStates cq p = Ok true ->
  exists cq', remove_selected cq rank bank q i p = Ok cq' /\ stage_ok cq (Some p) cq' /\
    nextRank cq' = nextRank cq /\ nextBank cq' = nextBank cq.
Proof.
  intros Hcq Eq Hq Hi Hp Hiss. unfold remove_selected.
  destruct (bool_decide_reflect (0 < i)%nat) as [Hpos|Hpos].
  - destruct (q !! (i - 1)%nat) as [a|] eqn:Ea; cbn.
    + case_bool_decide as Hact; cbn.
      * destruct Hp as (Hr & Hb & _).
        destruct (table_lookup _ _ _ (ci_counters _ Hcq) Hr Hb) as [n ->]. cbn.
        destruct (erase_pair_spec q i p a Hpos Hi Ea Hact) as (q' & -> & Hm). cbn.
        eexists. split; [reflexivity|]. split; [|done].
        destruct (stage_taken bankStates Hbs cq rank bank q p q' Hcq Eq Hq Hiss Hm) as [[] ? ? ?].
        constructor; cbn; try done. constructor; cbn; try done. by apply table_zalter2.
      * destruct (erase_at_spec _ _ _ Hi) as (q' & -> & Hm). cbn.
        eexists. split; [reflexivity|]. split; [by eapply stage_taken | done].
    + destruct (erase_at_spec _ _ _ Hi) as (q' & -> & Hm). cbn.
      eexists. split; [reflexivity|]. split; [by eapply stage_taken | done].
  - destruct (erase_at_spec _ _ _ Hi) as (q' & -> & Hm). cbn.
    eexists. split; [reflexivity|]. split; [by eapply stage_taken | done].
Qed.

Lemma try_queue_fcfs_ok : try_ok (try_queue_fcfs bankStates).
Proof.
  intros cq rank bank q Hcq Hr Hb Eq Hq. unfold try_queue_fcfs, select_fcfs.
  destruct (find_issuable bankStates cq _ q Hcq
    (issuable_test_and cq (fun p i => negb (checkDependency p q i)) Hcq) Hq) as (o & -> & Ho).
  cbn. destruct o as [[i p]|].
  - destruct Ho as (Hi & Hp & Hiss).
    destruct (remove_selected_ok cq rank bank q i p Hcq Eq Hq Hi Hp Hiss) as (cq' & -> & Hs & Hn).
    cbn. do 2 eexists. split; [reflexivity | by split].
  - do 2 eexists. split; [reflexivity|]. split; [by apply stage_none | done].
Qed.

(** *** FR-FCFS *)

Lemma row_hit_ok p : packet_ok p -> exists b, row_hit bankStates p = Ok b.
Proof.
  intros (Hr & Hb & _). unfold row_hit. destruct (is_column _); [|eauto].
  destruct (getBank_ok bankStates Hbs _ _ Hr Hb) as (m & -> & _). cbn. eauto.
Qed.

(** A search whose hits are all hits of the final search. *)
Definition refines_any cq q (test : BusPacket -> nat -> Res bool) : Prop :=
  forall p i, packet_ok p -> exists b, test p i = Ok b /\
    (b = true -> isIssuable bankStates cq p = Ok true /\ checkDependency p q i = false).

Lemma refines_found cq q test :
  queue_ok q -> refines_any cq q test ->
  exists o, find_first test q 0 = Ok o /\
    (is_Some o -> exists i p, q !! i = Some p /\ isIssuable bankStates cq p = Ok true /\
       checkDependency p q i = false).
Proof.
  intros [_ HF] Ht. rewrite Forall_lookup in HF.
  destruct (find_first_spec test q 0) as (o & -> & Ho).
  { intros k a Hk. destruct (Ht a k (HF _ _ Hk)) as (b & Hb & _). eauto. }
  exists o. split; [done|]. intros [[i p] ->]. destruct Ho as (k & -> & Hk & Htest & _).
  destruct (Ht p k (HF _ _ Hk)) as (b & Hb & H). cbn in Htest. rewrite Htest in Hb.
  injection Hb as <-. destruct (H eq_refl). eauto.
Qed.

Lemma refines_cpu_row_hit cq q : cq_inv cq ->
  refines_any cq q (fun packet i =>
    iss ← isIssuable bankStates cq packet;
    if (iss : bool) && bool_decide (bp_sender_type packet = 0)
    then hit ← row_hit bankStates packet; Ok ((hit : bool) && negb (checkDependency packet q i))
    else Ok false).
Proof.
  intros Hcq p i Hp. destruct (isIssuable_spec bankStates Hbs cq p Hcq Hp) as (b & Hb & _).
  rewrite Hb. cbn. destruct (row_hit_ok p Hp) as [h Hh]. rewrite Hh. cbn.
  destruct (b && _) eqn:E; eexists; (split; [reflexivity|]); [|done].
  apply andb_true_iff in E as [-> _]. intros [_ Hd%negb_true_iff]%andb_true_iff. done.
Qed.

Lemma refines_cpu cq q : cq_inv cq ->
  refines_any cq q (fun packet i =>
    iss ← isIssuable bankStates cq packet;
    Ok ((iss : bool) && bool_decide (bp_sender_type packet = 0)
        && negb (checkDependency packet q i))).
Proof.
  intros Hcq p i Hp. destruct (isIssuable_spec bankStates Hbs cq p Hcq Hp) as (b & Hb & _).
  rewrite Hb. cbn. eexists; split; [reflexivity|].
  intros [[-> _]%andb_true_iff Hd%negb_true_iff]%andb_true_iff. done.
Qed.

Lemma refines_row_hit cq q : cq_inv cq ->
  refines_any cq q (fun packet i =>
    iss ← isIssuable bankStates cq packet;
    if (iss : bool)
    then hit ← row_hit bankStates packet; Ok ((hit : bool) && negb (checkDependency packet q i))
    else Ok false).
Proof.
  intros Hcq p i Hp. destruct (isIssuable_spec bankStates Hbs cq p Hcq Hp) as (b & Hb & _).
  rewrite Hb. cbn. destruct (row_hit_ok p Hp) as [h Hh]. rewrite Hh. cbn.
  destruct b; eexists; (split; [reflexivity|]); [|done].
  intros [_ Hd%negb_true_iff]%andb_true_iff. done.
Qed.

(** The final search finds something whenever an earlier one did, so it
    always decides: FR-FCFS selects exactly what FCFS selects. *)
Lemma select_frfcfs_fcfs cq q :
  cq_inv cq -> queue_ok q ->
  exists o, select_fcfs bankStates cq q = Ok o /\
    select_frfcfs bankStates cq q = Ok (search_result q (None, 0%nat) o).
Proof.
  intros Hcq Hq.
  destruct (refines_found cq q _ Hq (refines_cpu_row_hit cq q Hcq)) as (o1 & E1 & H1).
  destruct (refines_found cq q _ Hq (refines_cpu cq q Hcq)) as (o2 & E2 & H2).
  destruct (refines_found cq q _ Hq (refines_row_hit cq q Hcq)) as (o3 & E3 & H3).
  destruct (find_first_spec (fun packet i =>
    iss ← isIssuable bankStates cq packet;
    Ok ((iss : bool) && negb (checkDependency packet q i))) q 0) as (o & E & Ho).
  { destruct Hq as [_ HF]. rewrite Forall_lookup in HF. intros k a Hk.
    destruct (isIssuable_spec bankStates Hbs cq a Hcq (HF _ _ Hk)) as (b & -> & _). cbn. eauto. }
  exists o. split; [exact E|].
  assert (o = None -> o1 = None /\ o2 = None /\ o3 = None) as Hnone.
  { intros ->. assert (forall o' : option (nat * BusPacket), (is_Some o' -> exists i p, q !! i = Some p /\
      isIssuable bankStates cq p = Ok true /\ checkDependency p q i = false) -> o' = None) as Hno.
    { intros [[i p]|] H'; [|done]. destruct H' as (k & a & Hk & Hi & Hd); [by eexists|].
      specialize (Ho k a Hk). rewrite Hi in Ho.
      change (0 + k)%nat with k in Ho. injection Ho as Ho. rewrite Hd in Ho. discriminate. }
    auto. }
  unfold select_frfcfs, frfcfs_cpu_row_hit, frfcfs_cpu, frfcfs_row_hit, frfcfs_any.
  rewrite E1. cbn.
  destruct o as [[i p]|].
  - destruct o1 as [[i1 p1]|]; cbn; [|rewrite E2; destruct o2 as [[i2 p2]|]; cbn];
      rewrite E3; destruct o3 as [[i3 p3]|]; cbn; by rewrite E.
  - destruct (Hnone eq_refl) as (-> & -> & ->). cbn. rewrite E2. cbn. rewrite E3. cbn. by rewrite E.
Qed.

Lemma frfcfs_stats_ok cq p :
  cq_inv cq -> packet_ok p ->
  exists cq', frfcfs_stats bankStates cq p = Ok cq' /\ cq_inv cq' /\ queues cq' = queues cq /\
    cq_currentClockCycle cq' = cq_currentClockCycle cq /\ tFAWCountdown cq' = tFAWCountdown cq /\
    rowAccessCounters cq' = rowAccessCounters cq /\
    nextRank cq' = nextRank cq /\ nextBank cq' = nextBank cq.
Proof.
  intros Hcq (Hr & Hb & _). unfold frfcfs_stats.
  destruct (getBank_ok bankStates Hbs _ _ Hr Hb) as (m & -> & _). cbn.
  destruct (table_lookup _ _ _ (ci_hits _ Hcq) Hr Hb) as [h ->]. cbn.
  destruct Hcq as [? ? ? ? ? ? ? ? ? ?].
  destruct (_ && _); [|destruct (is_column _)]; eexists; (split; [reflexivity|]); cbn;
    (split; [|done]); constructor; cbn; try done; by apply table_zalter2.
Qed.

Lemma isIssuable_frame cq cq' p :
  cq_currentClockCycle cq' = cq_currentClockCycle cq -> tFAWCountdown cq' = tFAWCountdown cq ->
  rowAccessCounters cq' = rowAccessCounters cq ->
  isIssuable bankStates cq' p = isIssuable bankStates cq p.
Proof. intros E1 E2 E3. unfold isIssuable. by rewrite E1, E2, E3. Qed.

Lemma try_queue_frfcfs_ok : try_ok (try_queue_frfcfs bankStates).
Proof.
  intros cq rank bank q Hcq Hr Hb Eq Hq. unfold try_queue_frfcfs.
  destruct (select_frfcfs_fcfs cq q Hcq Hq) as (o & Efc & ->). unfold select_fcfs in Efc.
  destruct (find_issuable bankStates cq _ q Hcq
    (issuable_test_and cq (fun p i => negb (checkDependency p q i)) Hcq) Hq) as (o' & Eo & Ho).
  rewrite Eo in Efc. injection Efc as <-. cbn.
  destruct o' as [[i p]|]; cbn.
  - destruct Ho as (Hi & Hp & Hiss).
    destruct (frfcfs_stats_ok cq p Hcq Hp) as (cq1 & -> & Hcq1 & Eq1 & Ec1 & Ef1 & Er1 & En1 & En2).
    cbn. rewrite <- Eq1 in Eq.
    destruct (remove_selected_ok cq1 rank bank q i p Hcq1 Eq Hq Hi Hp) as (cq' & -> & Hs & Hn1 & Hn2).
    { by rewrite (isIssuable_frame cq). }
    cbn. do 2 eexists. split; [reflexivity|]. split; [|by rewrite Hn1, Hn2].
    eapply stage_trans; [|exact Hs]. by constructor.
  - do 2 eexists. split; [reflexivity|]. split; [by apply stage_none | done].
Qed.

Lemma try_queue_open_ok : try_ok (try_queue_open bankStates).
Proof.
  intros cq rank bank q. unfold try_queue_open.
  destruct FRFCFS; [apply try_queue_frfcfs_ok | apply try_queue_fcfs_ok].
Qed.
End TryQueue.

(** ** The scans and [pop] *)

Section Pop.
Context {cfg : Cfg}.
Context (bankStates : list (list BankState)).
Hypothesis Hbs : table bankStates.
Hypothesis Hranks : 1 <= NUM_RANKS <= 256.
Hypothesis Hbanks : 1 <= NUM_BANKS <= 256.

Notation stage_ok := (stage_ok bankStates).

Lemma scan_size_pos : 1 <= scan_size <= Z.of_nat scan_fuel.
Proof. unfold scan_size, scan_fuel, rr_size. destruct queuingStructure; nia. Qed.

(** Moving the round-robin indices is no visible step. *)
Lemma stage_move cq r b :
  cq_inv cq -> 0 <= r < NUM_RANKS -> 0 <= b < NUM_BANKS ->
  stage_ok cq None (cq <| nextRank := r |> <| nextBank := b |>).
Proof. intros [? ? ? ? ? ? ? ? ? ?] Hr Hb. by constructor. Qed.

Lemma stage_move_pre cq r b :
  cq_inv cq -> 0 <= r < NUM_RANKS -> 0 <= b < NUM_BANKS ->
  stage_ok cq None (cq <| nextRankPRE := r |> <| nextBankPRE := b |>).
Proof. intros [? ? ? ? ? ? ? ? ? ?] Hr Hb. by constructor. Qed.

(** The scan ends within the fuel: it is [d] positions past its start. *)
Lemma scan_queues_ok try sr sb :
  try_ok bankStates try -> 0 <= sr < NUM_RANKS -> 0 <= sb < NUM_BANKS ->
  forall fuel cq d, cq_inv cq ->
    0 <= d < scan_size -> scan_size - d <= Z.of_nat fuel ->
    scan_pos (nextRank cq) (nextBank cq) = (scan_pos sr sb + d) mod scan_size ->
    exists o cq', scan_queues try fuel sr sb cq = Ok (o, cq') /\ stage_ok cq o cq'.
Proof.
  intros Htry Hsr Hsb. induction fuel as [|fuel IH]; intros cq d Hcq Hd Hfuel Hpos; [lia|].
  pose proof (ci_rank _ Hcq) as Hr. pose proof (ci_bank _ Hcq) as Hb. cbn.
  destruct (getCommandQueue_ok cq _ _ (ci_queues _ Hcq) Hr Hb) as (q & -> & Eq & Hq). cbn.
  assert (exists o cq1, (if negb (bool_decide (q = []))
      && negb (bool_decide (nextRank cq = cq_refreshRank cq) && cq_refreshWaiting cq)
      then try cq (nextRank cq) (nextBank cq) q else Ok (None, cq)) = Ok (o, cq1) /\ stage_ok cq o cq1 /\
      match o with None => cq1 = cq | Some _ => True end) as (o & cq1 & -> & Hs & Ho).
  { destruct (_ && _).
    - destruct (Htry cq _ _ q Hcq Hr Hb Eq Hq) as (o & cq1 & E & Hs & Ho).
      exists o, cq1. split; [done|]. split; [done|]. by destruct o.
    - do 2 eexists. split; [reflexivity|]. split; [by apply stage_none | done]. }
  cbn. destruct o as [p|]; [by eauto|]. subst cq1.
  pose proof (scan_next_spec Hranks Hbanks sr sb _ _ Hsr Hsb Hr Hb) as Hnext.
  destruct (scan_next sr sb (nextRank cq) (nextBank cq)) as [[r b] back].
  destruct Hnext as (Hr' & Hb' & Hp' & Hback).
  pose proof (stage_move cq r b Hcq Hr' Hb') as Hmove.
  destruct back; [by eauto|].
  pose proof (scan_pos_range Hranks Hbanks sr sb Hsr Hsb) as Hs0.
  rewrite Hp' in Hback. destruct (scan_progress _ _ _ _ Hs0 Hd Hpos (Hback eq_refl)) as [Hd' Hpos'].
  destruct (IH (cq <| nextRank := r |> <| nextBank := b |>) (d + 1)) as (o & cq' & E & Hs').
  - apply Hmove.
  - done.
  - lia.
  - cbn. by rewrite Hp'.
  - exists o, cq'. split; [exact E|]. by eapply stage_trans.
Qed.

Lemma scan_queues_total try cq :
  try_ok bankStates try -> cq_inv cq ->
  exists o cq', scan_queues try scan_fuel (nextRank cq) (nextBank cq) cq = Ok (o, cq') /\
    stage_ok cq o cq'.
Proof.
  intros Htry Hcq. pose proof scan_size_pos.
  pose proof (scan_pos_range Hranks Hbanks _ _ (ci_rank _ Hcq) (ci_bank _ Hcq)).
  apply (scan_queues_ok try (nextRank cq) (nextBank cq) Htry (ci_rank _ Hcq) (ci_bank _ Hcq) _ cq 0);
    try done; try lia.
  rewrite Z.add_0_r. symmetry. by apply Z.mod_small.
Qed.

Lemma try_precharge_ok cq :
  cq_inv cq -> rowBufferPolicy = OpenPage ->
  exists o cq', try_precharge bankStates cq = Ok (o, cq') /\ stage_ok cq o cq' /\
    match o with None => cq' = cq | Some _ => True end.
Proof.
  intros Hcq Hpol. unfold try_precharge.
  pose proof (ci_rankPRE _ Hcq) as Hr. pose proof (ci_bankPRE _ Hcq) as Hb.
  destruct (getCommandQueue_ok cq _ _ (ci_queues _ Hcq) Hr Hb) as (q & -> & Eq & Hq). cbn.
  destruct (getBank_ok bankStates Hbs _ _ Hr Hb) as (m & -> & Em). cbn.
  case_bool_decide as Hact.
  2:{ do 2 eexists. split; [reflexivity|]. split; [by apply stage_none | done]. }
  destruct (table_lookup _ _ _ (ci_counters _ Hcq) Hr Hb) as [n ->]. cbn.
  destruct (_ || _); cbn; [case_bool_decide|];
    do 2 eexists; (split; [reflexivity|]); (split; [|done]); try by apply stage_none.
  eapply stage_precharge; eauto. lia.
Qed.

Lemma scan_precharge_ok sr sb :
  rowBufferPolicy = OpenPage -> 0 <= sr < NUM_RANKS -> 0 <= sb < NUM_BANKS ->
  forall fuel cq d, cq_inv cq ->
    0 <= d < rr_size -> rr_size - d <= Z.of_nat fuel ->
    rr_pos (nextRankPRE cq) (nextBankPRE cq) = (rr_pos sr sb + d) mod rr_size ->
    exists o cq', scan_precharge bankStates fuel sr sb cq = Ok (o, cq') /\ stage_ok cq o cq'.
Proof.
  intros Hpol Hsr Hsb. induction fuel as [|fuel IH]; intros cq d Hcq Hd Hfuel Hpos; [lia|].
  pose proof (ci_rankPRE _ Hcq) as Hr. pose proof (ci_bankPRE _ Hcq) as Hb. cbn.
  destruct (try_precharge_ok cq Hcq Hpol) as (o & cq1 & -> & Hs & Ho). cbn.
  destruct o as [p|]; [by eauto|]. subst cq1.
  pose proof (nextRankAndBank_spec Hranks Hbanks _ _ Hr Hb) as Hnext.
  destruct (nextRankAndBank (nextRankPRE cq) (nextBankPRE cq)) as [r b].
  destruct Hnext as (Hr' & Hb' & Hp').
  pose proof (stage_move_pre cq r b Hcq Hr' Hb') as Hmove.
  destruct (bool_decide_reflect (sr = r)) as [Er|Er], (bool_decide_reflect (sb = b)) as [Eb|Eb];
    cbn; try by eauto.
  all: pose proof (rr_pos_range Hranks Hbanks sr sb Hsr Hsb) as Hs0;
    assert ((rr_pos (nextRankPRE cq) (nextBankPRE cq) + 1) mod rr_size <> rr_pos sr sb) as Hne
      by (rewrite <- Hp'; intros E; destruct (rr_pos_inj Hranks Hbanks _ _ _ _ Hr' Hb' Hsr Hsb E); congruence);
    destruct (scan_progress _ _ _ _ Hs0 Hd Hpos Hne) as [Hd' Hpos'];
    destruct (IH (cq <| nextRankPRE := r |> <| nextBankPRE := b |>) (d + 1)) as (o & cq' & E & Hs');
    [apply Hmove | done | lia | cbn; by rewrite Hp' |
     exists o, cq'; split; [exact E | by eapply stage_trans]].
Qed.

Lemma scan_precharge_total cq :
  cq_inv cq -> rowBufferPolicy = OpenPage ->
  exists o cq', scan_precharge bankStates scan_fuel (nextRankPRE cq) (nextBankPRE cq) cq = Ok (o, cq') /\
    stage_ok cq o cq'.
Proof.
  intros Hcq Hpol. pose proof (rr_pos_range Hranks Hbanks _ _ (ci_rankPRE _ Hcq) (ci_bankPRE _ Hcq)).
  apply (scan_precharge_ok (nextRankPRE cq) (nextBankPRE cq) Hpol (ci_rankPRE _ Hcq) (ci_bankPRE _ Hcq)
    _ cq 0); try done; unfold scan_fuel, rr_size in *; try lia.
  rewrite Z.add_0_r. symmetry. by apply Z.mod_small.
Qed.

Lemma pop_closed_ok cq :
  cq_inv cq -> exists o cq', pop_closed bankStates cq = Ok (o, cq') /\ stage_ok cq o cq'.
Proof.
  intros Hcq. unfold pop_closed.
  destruct (refresh_stage_closed_ok bankStates Hbs Hbanks cq Hcq) as (o & cq1 & -> & Hs). cbn.
  destruct o as [p|]; [by eauto|].
  destruct (scan_queues_total _ cq1 (try_queue_closed_ok bankStates Hbs) (st_inv _ _ _ _ Hs))
    as (o & cq' & -> & Hs').
  do 2 eexists. split; [reflexivity|]. by eapply stage_trans.
Qed.

Lemma pop_open_ok cq :
  cq_inv cq -> rowBufferPolicy = OpenPage ->
  exists o cq', pop_open bankStates cq = Ok (o, cq') /\ stage_ok cq o cq'.
Proof.
  intros Hcq Hpol. unfold pop_open.
  destruct (refresh_stage_open_ok bankStates Hbs Hbanks cq Hcq Hpol) as (o & cq1 & -> & Hs). cbn.
  destruct o as [p|]; [by eauto|].
  destruct (scan_queues_total _ cq1 (try_queue_open_ok bankStates Hbs) (st_inv _ _ _ _ Hs))
    as (o & cq2 & -> & Hs2). cbn.
  pose proof (stage_trans _ _ _ _ _ Hs Hs2) as Hs02.
  destruct o as [p|]; [by eauto|].
  destruct (scan_precharge_total cq2 (st_inv _ _ _ _ Hs2) Hpol) as (o & cq' & -> & Hs').
  do 2 eexists. split; [reflexivity|]. by eapply stage_trans.
Qed.

(** The outcome of [pop]: like a stage, but the activate window advances. *)
Record pop_ok (cq : CommandQueue) (o : option BusPacket) (cq' : CommandQueue) : Prop := {
  po_inv : cq_inv cq';
  po_clock : cq_currentClockCycle cq' = cq_currentClockCycle cq;
  po_packet : match o with
    | None => queues cq' = queues cq
    | Some p => legal_popped bankStates (cq_currentClockCycle cq) p /\ moved cq p cq'
    end;
  po_faw : tFAWCountdown cq' =
    imap (fun i w => let w := tFAW_tick w in
      match o with
      | Some p => if bool_decide (busPacketType p = ACTIVATE) && bool_decide (Z.of_nat i = bp_rank p)
                  then w ++ [tFAW] else w
      | None => w
      end) (tFAWCountdown cq);
  po_window : match o with
    | Some p => busPacketType p = ACTIVATE ->
        exists w, zget (tFAWCountdown cq) (bp_rank p) = Some w /\ zlen (tFAW_tick w) < 4
    | None => True
    end
}.

Lemma pop_finish_ok cq p :
  cq_inv cq -> 0 <= bp_rank p < NUM_RANKS ->
  exists cq', pop_finish cq p = Ok cq' /\ cq_inv cq' /\ queues cq' = queues cq /\
    cq_currentClockCycle cq' = cq_currentClockCycle cq /\
    tFAWCountdown cq' = imap (fun i w =>
      if bool_decide (busPacketType p = ACTIVATE) && bool_decide (Z.of_nat i = bp_rank p)
      then w ++ [tFAW] else w) (tFAWCountdown cq).
Proof.
  intros Hcq Hr. unfold pop_finish.
  set (cq1 := if bool_decide (AL > 0) && sendAct cq then _ else _).
  assert (cq_inv cq1 /\ queues cq1 = queues cq /\ tFAWCountdown cq1 = tFAWCountdown cq /\
    cq_currentClockCycle cq1 = cq_currentClockCycle cq) as (Hcq1 & Eq & Ef & Ec).
  { subst cq1. pose proof (nextRankAndBank_spec Hranks Hbanks _ _ (ci_rank _ Hcq) (ci_bank _ Hcq)) as Hn.
    destruct (nextRankAndBank (nextRank cq) (nextBank cq)) as [r b]. destruct Hn as (Hr' & Hb' & _).
    destruct Hcq as [? ? ? ? ? ? ? ? ? ?].
    destruct (_ && _); cbn; (split; [|done]); constructor; cbn; done. }
  clearbody cq1. destruct (bool_decide_reflect (busPacketType p = ACTIVATE)) as [Hact|Hact]; cbn.
  - destruct (zget_lt (tFAWCountdown cq1) (bp_rank p)) as [w ->]; [rewrite (ci_faw _ Hcq1); lia|]. cbn.
    eexists. split; [reflexivity|]. cbn. destruct Hcq1 as [? ? ? ? ? ? ? ? ? ?].
    split; [constructor; cbn; rewrite ?zlen_zalter; done|].
    split; [done | split; [done|]]. by rewrite zalter_imap, Ef.
  - eexists. split; [reflexivity|]. repeat (split; [done|]). rewrite Ef.
    rewrite <- (list_fmap_id (tFAWCountdown cq)) at 1. apply imap_as_fmap.
Qed.

Theorem pop_total cq :
  cq_inv cq -> exists o cq', pop bankStates cq = Ok (o, cq') /\ pop_ok cq o cq'.
Proof.
  intros Hcq. unfold pop. set (cq0 := cq <| tFAWCountdown ::= fmap tFAW_tick |>).
  assert (cq_inv cq0) as Hcq0.
  { destruct Hcq as [? ? ? ? ? ? ? ? ? ?]. constructor; cbn; try done. by rewrite zlen_fmap. }
  assert (exists o cq1, match rowBufferPolicy with
      | ClosePage => pop_closed bankStates cq0 | OpenPage => pop_open bankStates cq0 end = Ok (o, cq1) /\
      stage_ok cq0 o cq1) as (o & cq1 & -> & Hs).
  { destruct rowBufferPolicy eqn:Hpol; [by apply pop_open_ok | by apply pop_closed_ok]. }
  cbn. destruct Hs as [Hi Hc Hf Hp]. destruct o as [p|].
  - destruct Hp as (Hl & Hm & Hw).
    destruct (pop_finish_ok cq1 p Hi ltac:(apply Hl)) as (cq' & -> & Hi' & Eq & Ec & Ef). cbn.
    do 2 eexists. split; [reflexivity|]. constructor; try done.
    + by rewrite Ec, Hc.
    + split; [exact Hl|]. unfold moved, taken, cq_packets in *. by rewrite Eq.
    + rewrite Ef, Hf. cbn. by rewrite imap_fmap.
    + intros Hact. destruct (Hw Hact) as (w & Ew & Hlen). cbn in Ew. rewrite zget_fmap in Ew.
      destruct (zget (tFAWCountdown cq) (bp_rank p)) as [w0|]; [|done]. injection Ew as <-. eauto.
  - do 2 eexists. split; [reflexivity|]. constructor; try done.
    rewrite Hf. cbn. apply imap_as_fmap.
Qed.
End Pop.
