(* ===== verification/ControllerInv.v ===== *)
(** * The controller invariant

    What holds of a controller and its ranks at every point of a cycle
    ([ctrl_inv]): sizes, the queue invariant, the simulation between the two
    views of every bank, room on both data pipelines, and the correspondence
    between pending reads and reads under way. *)

From stdpp Require Import gmap.
From S2P Require Import Prelude.
From S2P Require Import DramConfig.
From S2P Require Import Pipe.
From S2P Require Import AddressMapping.
From S2P Require Import BusTypes.
From S2P Require Import DramRank.
From S2P Require Import RankSafety.
From S2P Require Import CommandQueue.
From S2P Require Import MemoryController.
From S2P Require Import BankSim.
From S2P Require Import QueueInv.
From S2P Require Import PopSpec.

Section ControllerInv.
Context {cfg : Cfg}.

(** ** Sizes *)

Record mc_shape (mc : MemoryController) : Prop := {
  sh_banks : table (bankStates mc);
  sh_refresh : zlen (refreshCountdown mc) = NUM_RANKS;
  sh_power : zlen (powerDown mc) = NUM_RANKS;
  sh_reads : zlen (totalReadsPerBank mc) = NUM_RANKS * NUM_BANKS;
  sh_writes : zlen (totalWritesPerBank mc) = NUM_RANKS * NUM_BANKS;
  sh_epoch : zlen (totalEpochLatency mc) = NUM_RANKS * NUM_BANKS;
  sh_blp : zlen (totalBlpPerRank mc) = NUM_RANKS;
  sh_active : zlen (totalActiveCyclesPerRank mc) = NUM_RANKS;
  sh_background : zlen (backgroundEnergy mc) = NUM_RANKS;
  sh_burst : zlen (burstEnergy mc) = NUM_RANKS;
  sh_actpre : zlen (actpreEnergy mc) = NUM_RANKS;
  sh_refreshE : zlen (refreshEnergy mc) = NUM_RANKS
}.

Lemma add_at_ok d v i : 0 <= i < zlen v -> exists v', add_at d v i = Ok v' /\ zlen v' = zlen v.
Proof.
  intros Hi. destruct (zget_lt v i Hi) as [x E]. unfold add_at. rewrite E. cbn.
  eexists. split; [reflexivity | apply zlen_zalter].
Qed.

Lemma SEQUENTIAL_range rank bank :
  NUM_RANKS <= 256 -> NUM_BANKS <= 256 -> 0 <= rank < NUM_RANKS -> 0 <= bank < NUM_BANKS ->
  0 <= SEQUENTIAL rank bank < NUM_RANKS * NUM_BANKS.
Proof.
  intros. unfold SEQUENTIAL. rewrite u32_small; [nia|]. unfold in_u32. nia.
Qed.

(** ** One rank *)

(** Power-down concerns all banks of a rank at once. *)
Definition power_rel (pd : bool) (mb : list BankState) : Prop :=
  if pd
  then exists n, Forall (fun m => currentBankState m = PowerDown /\ nextPowerUp m = n) mb
  else Forall (fun m => currentBankState m <> PowerDown) mb.

(** The command on the bus for rank [i], if any. *)
Definition cmd_for (po : option BusPacket) (i : Z) : option BusPacket :=
  match po with
  | Some p => if bool_decide (bp_rank p = i) then Some p else None
  | None => None
  end.

(** The rank's banks as they will be when the command on the bus arrives. *)
Definition banks_rel (t : Z) (po : option BusPacket) (mb rb : list BankState) : Prop :=
  match po with
  | Some p =>
      cmd_legal (t + 1) p rb /\ Forall2 (bank_rel t) mb (rank_banks_after (t + 1) p rb) /\
      Exists (fun m => currentBankState m <> Idle) mb
  | None => Forall2 (bank_rel t) mb rb
  end.

Record rank_sim (t : Z) (po : option BusPacket) (pd : bool) (mb : list BankState) (r : Rank) : Prop := {
  rs_power : isPowerDown r = pd;
  rs_down : power_rel pd mb;
  rs_pending : is_Some po -> pd = false;
  rs_banks : banks_rel t po mb (rk_bankStates r)
}.

(** ** The write-data pipeline *)

Definition write_busy (mc : MemoryController) : Z :=
  match mc_outgoingDataPacket mc with Some _ => mc_dataCyclesLeft mc | None => 0 end.

Definition write_end (mc : MemoryController) : Z :=
  pipe_end (BL / 2) (writeDataCountdown mc) (write_busy mc).

Record write_ok (e k : Z) (mc : MemoryController) : Prop := {
  wr_len : length (writeDataToSend mc) = length (writeDataCountdown mc);
  wr_pipe : pipe_ok (BL / 2) (writeDataCountdown mc) (write_busy mc);
  wr_out : is_Some (mc_outgoingDataPacket mc) -> 1 <= mc_dataCyclesLeft mc;
  wr_packets : Forall data_packet (opt_list (mc_outgoingDataPacket mc) ++ writeDataToSend mc);
  wr_end : write_end mc <= WL + BL / 2 - e;
  wr_room : forall i j m, zget2 (bankStates mc) i j = Some m -> accessible m ->
    write_end mc - k - WL <= Z.max 0 (nextWrite m - mc_currentClockCycle mc)
}.

(** ** Reads under way *)

Definition queued_reads (cq : CommandQueue) : list Z :=
  bp_physicalAddress <$> filter (fun p => is_read (busPacketType p) = true) (cq_packets cq).

Definition command_reads (po : option BusPacket) : list Z :=
  match po with
  | Some p => if is_read (busPacketType p) then [bp_physicalAddress p] else []
  | None => []
  end.

Definition reads_of_ranks (ranks : list Rank) : list Z :=
  mjoin ((fun r => bp_physicalAddress <$> rank_reads r) <$> ranks).

(** Addresses of reads that left the transaction queue and have not been
    returned: queued, on the command bus, inside a rank, or come back. *)
Definition reads_under_way (mc : MemoryController) (ranks : list Rank) : list Z :=
  queued_reads (commandQueue mc) ++ command_reads (mc_outgoingCmdPacket mc)
  ++ reads_of_ranks ranks ++ (tr_address <$> returnTransaction mc).

(** ** Everything *)

Definition transaction_ok (tr : Transaction) : Prop :=
  (transactionType tr = DATA_READ \/ transactionType tr = DATA_WRITE) /\ in_u64 (tr_address tr).

Definition pending_ok (mc : MemoryController) : Prop :=
  match mc_outgoingCmdPacket mc with
  | None => True
  | Some p => cmdCyclesLeft mc = 1 /\ 0 <= bp_rank p < NUM_RANKS /\ 0 <= bp_bank p < NUM_BANKS
  end.

(** [t] is the last cycle the bank states account for and [clk] the clock;
    the read pipelines are in phase [(er, kr)], the write pipeline in phase
    [(ew, kw)] ([rank_data_ok], [write_ok]). *)
Record ctrl_inv (t clk er kr ew kw : Z) (mc : MemoryController) (ranks : list Rank) : Prop := {
  cv_shape : mc_shape mc;
  cv_queue : cq_inv (commandQueue mc);
  cv_clock : mc_currentClockCycle mc = clk /\ cq_currentClockCycle (commandQueue mc) = clk;
  cv_ranks : zlen ranks = NUM_RANKS;
  cv_refresh : 0 <= mc_refreshRank mc < NUM_RANKS;
  cv_pending : pending_ok mc;
  cv_sim : forall i, 0 <= i < NUM_RANKS -> exists pd mb r,
    zget (powerDown mc) i = Some pd /\ zget (bankStates mc) i = Some mb /\ zget ranks i = Some r /\
    rank_sim t (cmd_for (mc_outgoingCmdPacket mc) i) pd mb r /\
    rk_currentClockCycle r = clk /\ rank_data_ok er kr r;
  cv_write : write_ok ew kw mc;
  cv_transactions : Forall transaction_ok (transactionQueue mc);
  cv_reads : reads_under_way mc ranks ≡ₚ tr_address <$> pendingReadTransactions mc;
  cv_pendingreads : Forall (fun tr => in_u64 (tr_address tr)) (pendingReadTransactions mc)
}.

(** ** Accounts

    Where each accepted transaction is, by its address and sender: still
    queued as a transaction, on its way, or reported by a callback. *)

Definition Key : Type := Z * Z * Z.
Definition tr_key (tr : Transaction) : Key := (tr_address tr, tr_sender_type tr, tr_sender_id tr).
Definition packet_key (p : BusPacket) : Key := (bp_physicalAddress p, bp_sender_type p, bp_sender_id p).

Definition transactions_of (ty : TransactionType) (l : list Transaction) : list Key :=
  tr_key <$> filter (fun tr => transactionType tr = ty) l.

Definition read_done_key (c : Callback) : option Key :=
  match c with ReadDone _ a _ st si => Some (a, st, si) | WriteDone _ _ _ _ _ => None end.
Definition write_done_key (c : Callback) : option Key :=
  match c with WriteDone _ a _ st si => Some (a, st, si) | ReadDone _ _ _ _ _ => None end.

Definition reads_done (mc : MemoryController) : list Key := omap read_done_key (callbacks mc).
Definition writes_done (mc : MemoryController) : list Key := omap write_done_key (callbacks mc).

Definition queued_writes (cq : CommandQueue) : list Key :=
  packet_key <$> filter (fun p => is_write (busPacketType p) = true) (cq_packets cq).

Definition reads_account (mc : MemoryController) : list Key :=
  transactions_of DATA_READ (transactionQueue mc) ++ (tr_key <$> pendingReadTransactions mc)
  ++ reads_done mc.

Definition writes_account (mc : MemoryController) : list Key :=
  transactions_of DATA_WRITE (transactionQueue mc) ++ queued_writes (commandQueue mc)
  ++ (packet_key <$> opt_list (mc_outgoingDataPacket mc) ++ writeDataToSend mc) ++ writes_done mc.

(** Nothing is lost or made up between [mc] and [mc']. *)
Definition accounted (mc mc' : MemoryController) : Prop :=
  reads_account mc' ≡ₚ reads_account mc /\ writes_account mc' ≡ₚ writes_account mc.

#[export] Instance accounted_preorder : PreOrder accounted.
Proof.
  split; [done|]. intros a b c [H1 H2] [H3 H4]. split; [by rewrite H3 | by rewrite H4].
Qed.

Lemma accounted_frame mc mc' :
  transactionQueue mc' = transactionQueue mc ->
  pendingReadTransactions mc' = pendingReadTransactions mc -> callbacks mc' = callbacks mc ->
  cq_packets (commandQueue mc') = cq_packets (commandQueue mc) ->
  writeDataToSend mc' = writeDataToSend mc -> mc_outgoingDataPacket mc' = mc_outgoingDataPacket mc ->
  accounted mc mc'.
Proof.
  intros E1 E2 E3 E4 E5 E6.
  unfold accounted, reads_account, writes_account, reads_done, writes_done, queued_writes.
  by rewrite E1, E2, E3, E4, E5, E6.
Qed.

(** Parameters of the stage lemmas. *)
Record env_ok : Prop := {
  ev_cfg : cfg_ok cfg;
  ev_geo : geometry_ok cfg
}.

Hypothesis Henv : env_ok.

Lemma ranks_bound : 1 <= NUM_RANKS <= 256.
Proof.
  destruct (ok_ranks _ (ev_cfg Henv)) as (k & Hk & ->).
  split; [pose proof (Z.pow_pos_nonneg 2 k); lia|].
  change 256 with (2 ^ 8). apply Z.pow_le_mono_r; lia.
Qed.

Lemma banks_bound : 1 <= NUM_BANKS <= 256.
Proof.
  destruct (ok_banks _ (ev_cfg Henv)) as (k & Hk & ->).
  split; [pose proof (Z.pow_pos_nonneg 2 k); lia|].
  change 256 with (2 ^ 8). apply Z.pow_le_mono_r; lia.
Qed.

(** The mapped rank and bank of any address exist. *)
Lemma mapped_range addr :
  in_u64 addr ->
  0 <= newTransactionRank (addressMapping addr) < NUM_RANKS /\
  0 <= newTransactionBank (addressMapping addr) < NUM_BANKS.
Proof.
  intros Ha. split_and!; apply (fields_in_range addr (ev_geo Henv) Ha).
Qed.

(** ** Auxiliary facts about [Forall2] and indices *)

Lemma Forall2_zget {A B} (P : A -> B -> Prop) l k i x :
  Forall2 P l k -> zget l i = Some x -> exists y, zget k i = Some y /\ P x y.
Proof.
  intros H [H0 Hx]%zget_lookup. destruct (Forall2_lookup_l _ _ _ _ _ H Hx) as (y & Hy & HP).
  exists y. split; [by apply zget_lookup | done].
Qed.

Lemma Forall2_imap_l {A A' B} (P : A' -> B -> Prop) (g : nat -> A -> A') l k :
  length l = length k ->
  (forall i x y, l !! i = Some x -> k !! i = Some y -> P (g i x) y) -> Forall2 P (imap g l) k.
Proof.
  intros Hlen H. apply Forall2_same_length_lookup. split; [by rewrite length_imap|].
  intros i x' y. rewrite list_lookup_imap. intros (x & Hx & ->)%fmap_Some Hy. eauto.
Qed.

Lemma Forall2_imap_both {A B A' B'} (P : A -> B -> Prop) (Q : A' -> B' -> Prop) g h l k :
  Forall2 P l k ->
  (forall i x y, l !! i = Some x -> k !! i = Some y -> P x y -> Q (g i x) (h i y)) ->
  Forall2 Q (imap g l) (imap h k).
Proof.
  intros HF H. apply Forall2_same_length_lookup. rewrite !length_imap.
  split; [by eapply Forall2_length|].
  intros i x' y'. rewrite !list_lookup_imap. intros (x & Hx & ->)%fmap_Some (y & Hy & ->)%fmap_Some.
  apply H; try done. by eapply Forall2_lookup_lr.
Qed.
End ControllerInv.
