(* ===== verification/ControllerStages.v ===== *)
(** * Every stage of a cycle keeps the controller invariant

    One lemma per stage of [MemorySystem::update] and
    [MemoryController::update], in the order they run: the stage returns
    normally and moves [ctrl_inv] to its next phase. *)

From stdpp Require Import gmap.
From S2P Require Import Prelude.
From S2P Require Import DramConfig.
From S2P Require Import Pipe.
From S2P Require Import AddressMapping.
From S2P Require Import BusTypes.
From S2P Require Import DramRank.
From S2P Require Import RankSafety.
From S2P Require Import CommandQueue.
From S2P Require Import MemoryController.
From S2P Require Import BankSim.
From S2P Require Import QueueInv.
From S2P Require Import PopSpec.
From S2P Require Import ControllerInv.
From S2P Require Import MemorySystem.

#[local] Arguments call_rank : simpl never.
#[local] Arguments add_at : simpl never.
#[local] Arguments zalter : simpl never.
#[local] Arguments zget : simpl never.

Section Stages.
Context {cfg : Cfg}.
Hypothesis Henv : env_ok.

Let Hok : cfg_ok cfg := ev_cfg Henv.

(** ** The ranks' updates *)

Definition returned (p : BusPacket) : Transaction :=
  Transaction_new RETURN_DATA (bp_physicalAddress p) (bp_data p).

Definition deliveries (rs : list Rank) : list BusPacket :=
  mjoin ((fun r => opt_list (update_step r).1) <$> rs).

Lemma receive_data mc p :
  zlen (totalReadsPerBank mc) = NUM_RANKS * NUM_BANKS -> data_packet p ->
  exists reads, zlen reads = NUM_RANKS * NUM_BANKS /\
    bus_receiveFromBus mc p =
      Ok (mc <| totalReadsPerBank := reads |> <| returnTransaction := returnTransaction mc ++ [returned p] |>).
Proof.
  intros Hlen (Ht & Hr & Hb). pose proof (ranks_bound Henv). pose proof (banks_bound Henv).
  unfold bus_receiveFromBus, MemoryController_BusReceiver, MemoryController_receiveFromBus.
  rewrite bool_decide_false by (intros N; by apply N). cbn.
  destruct (add_at_ok 1 (totalReadsPerBank mc) (SEQUENTIAL (bp_rank p) (bp_bank p))) as (v & -> & Hv).
  { rewrite Hlen. apply SEQUENTIAL_range; lia. }
  exists v. split; [congruence|]. reflexivity.
Qed.

Lemma update_ranks_spec rs mc :
  Forall (rank_data_ok 0 1) rs -> zlen (totalReadsPerBank mc) = NUM_RANKS * NUM_BANKS ->
  exists reads, zlen reads = NUM_RANKS * NUM_BANKS /\
    update_ranks rs mc =
      Ok ((fun r => (update_step r).2) <$> rs,
          mc <| totalReadsPerBank := reads |>
             <| returnTransaction := returnTransaction mc ++ (returned <$> deliveries rs) |>).
Proof.
  intros HF; revert mc; induction HF as [|r rs Hr _ IH]; intros mc Hlen; cbn.
  { exists (totalReadsPerBank mc). split; [done|]. destruct mc; cbn. by rewrite app_nil_r. }
  rewrite Rank_update_spec by apply Hr.
  pose proof (upd_dlv _ _ _ (update_step_updated Hok 0 1 r ltac:(lia) Hr)) as Hd.
  unfold deliveries. cbn. destruct (update_step r) as [[p|] r'] eqn:E; cbn in *.
  - apply (proj1 (Forall_singleton _ _)) in Hd. destruct (receive_data mc p Hlen Hd) as (v & Hv & ->). cbn.
    match goal with |- context [update_ranks rs ?mc1] =>
      destruct (IH mc1 Hv) as (v' & Hv' & ->) end. cbn. exists v'. split; [done|]. rewrite <- app_assoc. reflexivity.
  - destruct (IH mc Hlen) as (v' & Hv' & ->). cbn. exists v'. done.
Qed.

Lemma reads_of_ranks_update rs :
  Forall (rank_data_ok 0 1) rs ->
  reads_of_ranks rs ≡ₚ (bp_physicalAddress <$> deliveries rs)
    ++ reads_of_ranks ((fun r => (update_step r).2) <$> rs).
Proof.
  unfold reads_of_ranks, deliveries. induction 1 as [|r rs Hr _ IH]; cbn; [done|].
  rewrite IH. rewrite (upd_reads _ _ _ (update_step_updated Hok 0 1 r ltac:(lia) Hr)).
  rewrite !fmap_app. solve_Permutation.
Qed.

Lemma sim_ranks_Forall t clk er kr ew kw mc ranks :
  ctrl_inv t clk er kr ew kw mc ranks -> Forall (rank_data_ok er kr) ranks.
Proof.
  intros Hi. apply Forall_lookup. intros i r Hr.
  pose proof (lookup_lt_Some _ _ _ Hr) as Hlt. pose proof (cv_ranks _ _ _ _ _ _ _ _ Hi) as Hlen.
  unfold zlen in Hlen.
  destruct (cv_sim _ _ _ _ _ _ _ _ Hi (Z.of_nat i)) as (pd & mb & r' & _ & _ & Hr' & _ & _ & Hd); [lia|].
  apply zget_lookup in Hr' as [_ Hr']. rewrite Nat2Z.id in Hr'. congruence.
Qed.

Lemma stage_update_ranks t mc ranks :
  ctrl_inv t (t + 1) 0 1 0 1 mc ranks ->
  exists mc' ranks', update_ranks ranks mc = Ok (ranks', mc') /\
    ctrl_inv t (t + 1) 1 0 0 1 mc' ranks' /\ accounted mc mc'.
Proof.
  intros Hi. pose proof (sim_ranks_Forall _ _ _ _ _ _ _ _ Hi) as HF.
  destruct Hi as [Hsh Hq Hc Hr Hrr Hp Hs Hw Ht Hrd Hpr].
  destruct (update_ranks_spec ranks mc HF (sh_reads _ Hsh)) as (v & Hv & ->).
  do 2 eexists. split; [reflexivity|]. split; [|by apply accounted_frame].
  constructor; cbn; try done.
  - destruct Hsh; by constructor.
  - by rewrite zlen_fmap.
  - intros i Hi. destruct (Hs i Hi) as (pd & mb & r & H1 & H2 & H3 & H4 & H5 & H6).
    exists pd, mb, (update_step r).2. rewrite zget_fmap, H3.
    destruct (update_step_updated Hok 0 1 r ltac:(lia) H6) as [E1 E2 E3 E4 _ _].
    repeat (split; [done|]). split; [|split; [congruence | by apply update_step_ok]].
    destruct H4. constructor; rewrite ?E1, ?E3; done.
  - destruct Hw. by constructor.
  - rewrite <- Hrd. unfold reads_under_way. cbn. rewrite fmap_app, <- list_fmap_compose.
    rewrite (reads_of_ranks_update ranks HF). cbn.
    change (tr_address ∘ returned) with bp_physicalAddress. solve_Permutation.
Qed.

(** ** Implicit transitions and the command on the bus *)

Definition tick_row (row : list BankState) : list BankState := bank_tick <$> row.
Definition tick_banks (bs : list (list BankState)) : list (list BankState) := tick_row <$> bs.

Lemma update_bank_states_spec mc :
  mc_shape mc ->
  exists a b, zlen a = NUM_RANKS /\ zlen b = NUM_RANKS /\
    update_bank_states mc = Ok (mc <| totalActiveCyclesPerRank := a |> <| totalBlpPerRank := b |>
                                   <| bankStates := tick_banks (bankStates mc) |>).
Proof.
  intros Hsh. pose proof (ranks_bound Henv).
  set (flat := fun a b bs => mc <| totalActiveCyclesPerRank := a |> <| totalBlpPerRank := b |>
                                <| bankStates := bs |>).
  set (upto := fun i => imap (fun k row => if bool_decide (Z.of_nat k < i) then tick_row row else row)
                          (bankStates mc)).
  set (P := fun (i : Z) (mc' : MemoryController) =>
    exists a b, zlen a = NUM_RANKS /\ zlen b = NUM_RANKS /\ mc' = flat a b (upto i)).
  destruct (foldM_zrange_inv P rank_blp NUM_RANKS mc) as (mc' & Hf & a & b & Ha & Hb & ->).
  - lia.
  - intros i mc' Hi (a & b & Ha & Hb & ->). unfold rank_blp.
    destruct (table_row _ i (sh_banks _ Hsh) Hi) as (row & Erow & _).
    change (bankStates (flat a b (upto i))) with (upto i).
    change (totalActiveCyclesPerRank (flat a b (upto i))) with a.
    change (totalBlpPerRank (flat a b (upto i))) with b.
    assert (zget (upto i) i = Some row) as ->.
    { unfold upto. rewrite zget_imap, Erow. cbn. by rewrite bool_decide_false by lia. }
    cbn [of_option mbind Res_bind]. generalize (zlen (filter (fun b => is_busy b = true) row)); intros blp.
    assert (exists a', (if bool_decide (blp <> 0) then add_at 1 a i else Ok a) = Ok a' /\ zlen a' = NUM_RANKS)
      as (a' & -> & Ha').
    { case_bool_decide; [|by eexists]. destruct (add_at_ok 1 a i) as (v & -> & ?); [lia|].
      exists v. split; [done | congruence]. }
    cbn. destruct (add_at_ok blp b i) as (b' & -> & Hb'); [lia|]. cbn.
    eexists. split; [reflexivity|]. exists a', b'. split; [done|]. split; [congruence|].
    transitivity (flat a' b' (zalter tick_row (upto i) i)); [reflexivity|]. f_equal.
    unfold upto. rewrite zalter_imap, imap_imap. apply imap_ext. intros k x _. cbn.
    destruct (decide (Z.of_nat k = i)) as [->|].
    + by rewrite (bool_decide_true (i = i)), bool_decide_false, bool_decide_true by lia.
    + rewrite (bool_decide_false (_ = i)) by done.
      by rewrite (bool_decide_ext (Z.of_nat k < i) (Z.of_nat k < i + 1)) by lia.
  - exists (totalActiveCyclesPerRank mc), (totalBlpPerRank mc).
    split; [apply Hsh | split; [apply Hsh|]].
    transitivity (flat (totalActiveCyclesPerRank mc) (totalBlpPerRank mc) (bankStates mc)).
    { unfold flat. by destruct mc. }
    f_equal. unfold upto. rewrite <- (list_fmap_id (bankStates mc)) at 1.
    rewrite imap_as_fmap. apply imap_ext. intros k x _. by rewrite bool_decide_false by lia.
  - exists a, b. repeat (split; [done|]). unfold update_bank_states. rewrite Hf. f_equal.
    transitivity (flat a b (tick_banks (bankStates mc))); [|reflexivity]. f_equal.
    unfold tick_banks, upto. rewrite imap_as_fmap. apply imap_ext. intros k x Hk.
    apply lookup_lt_Some in Hk. pose proof (proj1 (sh_banks _ Hsh)) as Hl. unfold zlen in Hl.
    by rewrite bool_decide_true by lia.
Qed.

(** A tick keeps the power relation: nothing counts down in power-down. *)
Lemma power_rel_tick t pd mb rb :
  power_rel pd mb -> Forall2 (bank_rel t) mb rb -> power_rel pd (tick_row mb).
Proof.
  intros Hp HF. destruct pd; cbn in *.
  - destruct Hp as [n Hn]. exists n. apply Forall_fmap. apply Forall_lookup. intros i m Hm.
    rewrite Forall_lookup in Hn. destruct (Hn _ _ Hm) as [Hs Hu].
    destruct (Forall2_lookup_l _ _ _ _ _ HF Hm) as (r & _ & _ & Hr). unfold state_rel in Hr.
    rewrite Hs in Hr. cbn. unfold bank_tick. rewrite bool_decide_false by lia. done.
  - apply Forall_fmap. eapply Forall_impl; [exact Hp|]. cbn. intros m Hm. unfold bank_tick.
    case_bool_decide; cbn; [|done]. case_bool_decide; cbn; [|done].
    destruct (lastCommand m); cbn; done.
Qed.

Lemma tick_row_rel t mb rb :
  Forall2 (bank_rel t) mb rb -> Forall2 (bank_rel (t + 1)) (tick_row mb) rb.
Proof.
  intros H. unfold tick_row. apply Forall2_fmap_l. eapply Forall2_impl; [exact H|].
  intros m r Hr. by apply bank_tick_rel.
Qed.

(** One rank without a command on the bus. *)
Lemma tick_rank t pd mb r :
  rank_sim t None pd mb r -> rank_sim (t + 1) None pd (tick_row mb) r.
Proof.
  intros [H1 H2 H3 H4]. constructor; [done | by eapply power_rel_tick | done | by apply tick_row_rel].
Qed.

(** One rank with its command arriving. *)
Lemma tick_deliver_rank t p pd mb r :
  0 <= t + 1 < 2 ^ 63 -> 0 <= bp_rank p < NUM_RANKS -> 0 <= bp_bank p < NUM_BANKS ->
  rank_sim t (Some p) pd mb r -> rk_currentClockCycle r = t + 1 -> rank_data_ok 1 0 r ->
  exists r', Rank_receiveFromBus r p = Ok r' /\ received r p r' /\
    rank_sim (t + 1) None pd (tick_row mb) r' /\
    rk_currentClockCycle r' = t + 1 /\ rank_data_ok 0 0 r'.
Proof.
  intros Ht Hr Hb [H1 H2 H3 (Hleg & HF & Hex)] Hc Hd.
  rewrite <- Hc in Hleg. destruct (receive_legal r p Hleg) as (r' & -> & Hrc).
  exists r'. split; [done|]. split; [done|]. split; [|split].
  - constructor.
    + by rewrite (rcv_power _ _ _ Hrc).
    + by eapply power_rel_tick.
    + done.
    + cbn. rewrite (rcv_banks _ _ _ Hrc), Hc. by apply tick_row_rel.
  - by rewrite (rcv_clock _ _ _ Hrc).
  - eapply received_data_ok; eauto. by rewrite Hc.
Qed.

Lemma rank_reads_received r p r' :
  received r p r' ->
  bp_physicalAddress <$> rank_reads r' =
  (bp_physicalAddress <$> rank_reads r) ++ command_reads (Some p).
Proof.
  intros Hrc. unfold rank_reads. rewrite (rcv_out _ _ _ Hrc), (rcv_packets _ _ _ Hrc).
  rewrite !fmap_app, <- app_assoc. do 2 f_equal. cbn. by destruct (is_read _).
Qed.

Lemma call_rank_ok ranks i op r r' :
  zget ranks i = Some r -> op r = Ok r' -> call_rank ranks i op = Ok (zalter (fun _ => r') ranks i).
Proof. intros Hr Hop. unfold call_rank. rewrite Hr. cbn. by rewrite Hop. Qed.

(** Replacing one rank changes only its reads. *)
Lemma reads_of_ranks_alter ranks i r r' extra :
  zget ranks i = Some r ->
  bp_physicalAddress <$> rank_reads r' ≡ₚ (bp_physicalAddress <$> rank_reads r) ++ extra ->
  reads_of_ranks (zalter (fun _ => r') ranks i) ≡ₚ extra ++ reads_of_ranks ranks.
Proof.
  intros Hr He. rewrite (zalter_middle _ _ _ _ Hr). apply zget_lookup in Hr as [_ Hr].
  rewrite <- (take_drop_middle ranks (Z.to_nat i) r) at 3 by done.
  unfold reads_of_ranks. rewrite !fmap_app, !join_app, !fmap_cons, !join_cons, He. solve_Permutation.
Qed.

Lemma cmd_for_hit p : cmd_for (Some p) (bp_rank p) = Some p.
Proof. unfold cmd_for. by rewrite bool_decide_true. Qed.
Lemma cmd_for_miss p i : bp_rank p <> i -> cmd_for (Some p) i = None.
Proof. intros. unfold cmd_for. by rewrite bool_decide_false. Qed.

(** The write pipeline only sees accessible banks, which a tick keeps. *)
Lemma write_ok_tick e k mc mc' :
  writeDataToSend mc' = writeDataToSend mc -> writeDataCountdown mc' = writeDataCountdown mc ->
  mc_outgoingDataPacket mc' = mc_outgoingDataPacket mc -> mc_dataCyclesLeft mc' = mc_dataCyclesLeft mc ->
  mc_currentClockCycle mc' = mc_currentClockCycle mc -> bankStates mc' = tick_banks (bankStates mc) ->
  write_ok e k mc -> write_ok e k mc'.
Proof.
  intros E1 E2 E3 E4 E5 E6 [H1 H2 H3 H4 H5 H6].
  assert (write_busy mc' = write_busy mc) as Eb by (unfold write_busy; by rewrite E3, E4).
  assert (write_end mc' = write_end mc) as Ee by (unfold write_end; by rewrite E2, Eb).
  constructor; rewrite ?E1, ?E2, ?E3, ?E4, ?E5, ?E6, ?Eb, ?Ee; try done.
  intros i j m. unfold zget2, tick_banks. rewrite zget_fmap.
  destruct (zget (bankStates mc) i) as [row|] eqn:Er; cbn; [|done].
  unfold tick_row. rewrite zget_fmap. destruct (zget row j) as [m0|] eqn:Em; cbn; [|done].
  intros [= <-] Hacc. destruct (bank_tick_accessible m0 Hacc) as [Hacc0 ->].
  apply (H6 i j); [|done]. unfold zget2. by rewrite Er.
Qed.

Lemma table_tick bs : table bs -> table (tick_banks bs).
Proof.
  intros [Hl HF]. split; [by unfold tick_banks; rewrite zlen_fmap|].
  apply Forall_fmap. eapply Forall_impl; [exact HF|]. intros row Hrow. cbn. unfold tick_row.
  by rewrite zlen_fmap.
Qed.

Lemma stage_tick_deliver t mc ranks :
  0 <= t + 1 < 2 ^ 63 -> ctrl_inv t (t + 1) 1 0 0 1 mc ranks ->
  exists mc1 mc' ranks', update_bank_states mc = Ok mc1 /\ deliver_command mc1 ranks = Ok (mc', ranks') /\
    ctrl_inv (t + 1) (t + 1) 0 0 0 1 mc' ranks' /\ mc_outgoingCmdPacket mc' = None /\ accounted mc mc'.
Proof.
  intros Ht [Hsh Hq Hc Hr Hrr Hp Hs Hw Htr Hrd Hpr].
  destruct (update_bank_states_spec mc Hsh) as (a & b & Ha & Hb & ->).
  match goal with |- exists mc1 _ _, Ok ?m = Ok mc1 /\ _ => exists m end.
  unfold deliver_command. cbn.
  assert (Hsh' : forall mc', bankStates mc' = tick_banks (bankStates mc) -> 
     totalActiveCyclesPerRank mc' = a -> totalBlpPerRank mc' = b -> 
     refreshCountdown mc' = refreshCountdown mc -> powerDown mc' = powerDown mc -> 
     totalReadsPerBank mc' = totalReadsPerBank mc -> totalWritesPerBank mc' = totalWritesPerBank mc ->
     totalEpochLatency mc' = totalEpochLatency mc -> backgroundEnergy mc' = backgroundEnergy mc ->
     burstEnergy mc' = burstEnergy mc -> actpreEnergy mc' = actpreEnergy mc ->
     refreshEnergy mc' = refreshEnergy mc -> mc_shape mc').
  { intros mc' E1 E2 E3 E4 E5 E6 E7 E8 E9 E10 E11 E12. destruct Hsh.
    constructor; rewrite ?E1, ?E2, ?E3, ?E4, ?E5, ?E6, ?E7, ?E8, ?E9, ?E10, ?E11, ?E12; try done.
    by apply table_tick. }
  unfold pending_ok in Hp. destruct (mc_outgoingCmdPacket mc) as [p|] eqn:Ecmd; cbn.
  - destruct Hp as (Hcyc & Hpr' & Hpb). rewrite Hcyc. cbn.
    rewrite bool_decide_true by done.
    destruct (Hs _ Hpr') as (pd & mb & r & G1 & G2 & G3 & G4 & G5 & G6). rewrite cmd_for_hit in G4.
    destruct (tick_deliver_rank t p pd mb r Ht Hpr' Hpb G4 G5 G6) as (r' & Erc & Hrc & Hsim & Hclk & Hd).
    rewrite (call_rank_ok _ _ _ _ _ G3 Erc). cbn.
    do 2 eexists. split; [reflexivity|]. split; [reflexivity|]. split; [|split; [done | by apply accounted_frame]].
    constructor; cbn; try done.
    + by apply Hsh'.
    + by rewrite zlen_zalter.
    + intros i Hi. rewrite zget_zalter. unfold tick_banks. rewrite zget_fmap.
      destruct (decide (bp_rank p = i)) as [<-|Hne].
      * rewrite bool_decide_true by done. exists pd, (tick_row mb), r'. rewrite G2, G3. done.
      * rewrite bool_decide_false by done.
        destruct (Hs i Hi) as (pd2 & mb2 & r2 & F1 & F2 & F3 & F4 & F5 & F6).
        rewrite (cmd_for_miss _ _ Hne) in F4. exists pd2, (tick_row mb2), r2. rewrite F2.
        repeat (split; [done|]). split; [by apply tick_rank|]. split; [done|].
        by eapply rank_data_ok_weaken; [|exact F6].
    + by eapply write_ok_tick; [..|exact Hw].
    + rewrite <- Hrd. unfold reads_under_way. cbn [mc_outgoingCmdPacket commandQueue returnTransaction].
      rewrite (reads_of_ranks_alter _ _ _ _ (command_reads (Some p)) G3)
        by by rewrite (rank_reads_received _ _ _ Hrc).
      rewrite Ecmd. cbn. solve_Permutation.
  - do 2 eexists. split; [reflexivity|]. split; [reflexivity|]. split; [|split; [done | by apply accounted_frame]].
    constructor; cbn; try done.
    + by apply Hsh'.
    + unfold pending_ok. cbn. by rewrite Ecmd.
    + intros i Hi. unfold tick_banks. rewrite zget_fmap.
      destruct (Hs i Hi) as (pd2 & mb2 & r2 & F1 & F2 & F3 & F4 & F5 & F6).
      exists pd2, (tick_row mb2), r2. rewrite F2. rewrite Ecmd.
      repeat (split; [done|]). split; [by apply tick_rank|]. split; [done|].
      by eapply rank_data_ok_weaken; [|exact F6].
    + by eapply write_ok_tick; [..|exact Hw].
Qed.

(** ** The write-data bus *)

Lemma zalter_same {A} (l : list A) i x : zget l i = Some x -> zalter (fun _ => x) l i = l.
Proof.
  intros Hx. rewrite (zalter_middle _ _ _ _ Hx). apply zget_lookup in Hx as [_ Hx].
  by apply take_drop_middle.
Qed.

(** The fields of the write pipeline and what they leave alone. *)
Definition with_write (mc : MemoryController) (out : option BusPacket) (left : Z) (cds : list Z)
    (packets : list BusPacket) (cbs : list Callback) (tt : Z) (writes : list Z) : MemoryController :=
  mc <| mc_outgoingDataPacket := out |> <| mc_dataCyclesLeft := left |> <| writeDataCountdown := cds |>
     <| writeDataToSend := packets |> <| callbacks := cbs |> <| totalTransactions := tt |>
     <| totalWritesPerBank := writes |>.

Lemma with_write_frame mc out left cds ps cbs tt wr :
  let mc' := with_write mc out left cds ps cbs tt wr in
  transactionQueue mc' = transactionQueue mc /\
  pendingReadTransactions mc' = pendingReadTransactions mc /\ commandQueue mc' = commandQueue mc /\
  mc_outgoingDataPacket mc' = out /\ writeDataToSend mc' = ps /\ callbacks mc' = cbs.
Proof. destruct mc. unfold with_write. mc_compute. done. Qed.

(** The assignments of [send_write_data], on top of those of the delivery. *)
Lemma with_write_count mc out left cds ps cbs tt wr g :
  (with_write mc out left cds ps cbs tt wr) <| writeDataCountdown ::= g |> =
  with_write mc out left (g cds) ps cbs tt wr.
Proof. destruct mc. unfold with_write. mc_compute. reflexivity. Qed.

Lemma with_write_send mc out left cds ps cbs tt wr out' left' cds' ps' g wr' :
  (with_write mc out left cds ps cbs tt wr) <| mc_outgoingDataPacket := out' |>
    <| mc_dataCyclesLeft := left' |> <| totalTransactions ::= g |> <| totalWritesPerBank := wr' |>
    <| writeDataCountdown := cds' |> <| writeDataToSend := ps' |> =
  with_write mc out' left' cds' ps' cbs (g tt) wr'.
Proof. destruct mc. unfold with_write. mc_compute. reflexivity. Qed.

Lemma ctrl_inv_with_write t clk er kr ew kw ew' kw' mc ranks out left cds packets cbs tt writes :
  zlen writes = NUM_RANKS * NUM_BANKS ->
  let mc' := with_write mc out left cds packets cbs tt writes in
  write_ok ew' kw' mc' ->
  ctrl_inv t clk er kr ew kw mc ranks -> ctrl_inv t clk er kr ew' kw' mc' ranks.
Proof.
  intros Hl mc' Hw [Hsh Hq Hc Hr Hrr Hp Hs _ Htr Hrd Hpr].
  constructor; try done. destruct Hsh; constructor; done.
Qed.

Lemma deliver_write_spec par mc ranks :
  WriteDataDone par = true -> zlen ranks = NUM_RANKS -> write_ok 0 1 mc ->
  exists out left cbs,
    deliver_write_data par mc ranks =
      Ok (with_write mc out left (writeDataCountdown mc) (writeDataToSend mc) cbs
            (totalTransactions mc) (totalWritesPerBank mc), ranks) /\
    (match out with Some _ => left | None => 0 end) = Z.max 0 (write_busy mc - 1) /\
    (is_Some out -> 1 <= left) /\ (out = None \/ out = mc_outgoingDataPacket mc) /\
    omap read_done_key cbs = reads_done mc /\
    (packet_key <$> opt_list out) ++ omap write_done_key cbs ≡ₚ
      (packet_key <$> opt_list (mc_outgoingDataPacket mc)) ++ writes_done mc.
Proof.
  intros Hpar Hlen [_ Hp Ho Hpk _ _]. unfold deliver_write_data, write_busy in *.
  destruct (mc_outgoingDataPacket mc) as [p|] eqn:Eo.
  2:{ exists None, (mc_dataCyclesLeft mc), (callbacks mc).
      split; [do 2 f_equal; rewrite <- Eo; by destruct mc|].
      split; [lia|]. split; [intros [? [=]] | split; [by left | done]]. }
  specialize (Ho ltac:(by eexists)). pose proof (pipe_busy _ _ _ Hp) as Hb.
  pose proof (latency_bounds Hok).
  assert (u32 (mc_dataCyclesLeft mc - 1) = mc_dataCyclesLeft mc - 1) as Eu
    by (apply u32_small; unfold in_u32; lia).
  cbn. rewrite Eu. case_bool_decide as Hz.
  - assert (exists r, zget ranks (bp_rank p) = Some r) as [r Hr].
    { apply zget_lt. rewrite Hlen. apply Forall_app in Hpk as [Hpk _]. apply (proj1 (Forall_singleton _ _)) in Hpk.
      apply Hpk. }
    rewrite (call_rank_ok _ _ _ _ r Hr).
    2:{ apply Forall_app in Hpk as [Hpk _]. apply (proj1 (Forall_singleton _ _)) in Hpk. destruct Hpk as [Ht _].
        unfold Rank_receiveFromBus. by rewrite Ht. }
    rewrite (zalter_same _ _ _ Hr). cbn.
    exists None, (u32 (mc_dataCyclesLeft mc - 1)),
      (callbacks (writeDone par (mc <| mc_dataCyclesLeft ::= fun n => u32 (n - 1) |>) p)).
    unfold writeDone. rewrite Hpar.
    split; [|split; [lia|]; split; [intros [? [=]] | split; [by left|]]].
    { by destruct mc. }
    unfold reads_done, writes_done. destruct mc. mc_compute. rewrite !omap_app. cbn.
    rewrite app_nil_r. split; [done|]. by rewrite Permutation_app_comm.
  - exists (Some p), (u32 (mc_dataCyclesLeft mc - 1)), (callbacks mc).
    split; [do 2 f_equal; rewrite <- Eo; by destruct mc|]. rewrite Eu.
    split; [lia|]. split; [intros; lia | split; [by right | done]].
Qed.

Lemma send_write_spec mc0 out left cbs :
  zlen (totalWritesPerBank mc0) = NUM_RANKS * NUM_BANKS -> write_ok 0 1 mc0 ->
  (match out with Some _ => left | None => 0 end) = Z.max 0 (write_busy mc0 - 1) ->
  (is_Some out -> 1 <= left) -> (out = None \/ out = mc_outgoingDataPacket mc0) ->
  exists out' left' cds' packets' tt' writes',
    send_write_data (with_write mc0 out left (writeDataCountdown mc0) (writeDataToSend mc0) cbs
      (totalTransactions mc0) (totalWritesPerBank mc0)) =
      Ok (with_write mc0 out' left' cds' packets' cbs tt' writes') /\
    zlen writes' = NUM_RANKS * NUM_BANKS /\
    (cds', match out' with Some _ => left' | None => 0 end) =
      pipe_tick (BL / 2) (writeDataCountdown mc0) (write_busy mc0) /\
    (is_Some out' -> 1 <= left') /\ length packets' = length cds' /\
    Forall data_packet (opt_list out' ++ packets') /\
    opt_list out' ++ packets' = opt_list out ++ writeDataToSend mc0.
Proof.
  intros Hlw [Hlen Hp Ho Hpk Hend _] Hbusy Hleft Hout.
  pose proof (latency_bounds Hok) as Hlat. pose proof (ranks_bound Henv). pose proof (banks_bound Henv).
  assert ((fun c => u32 (c - 1)) <$> writeDataCountdown mc0 = Z.pred <$> writeDataCountdown mc0) as Ecd.
  { apply fmap_pred_u32; [apply Hp|]. apply Forall_forall. intros c Hc. unfold write_end in Hend.
    pose proof (pipe_bound _ (burst_pos Hok) _ _ c Hp Hc). lia. }
  apply Forall_app in Hpk as [Hpk1 Hpk2].
  assert (Forall data_packet (opt_list out)) as Hpo by (destruct Hout as [->| ->]; [constructor | done]).
  unfold send_write_data, pipe_tick. rewrite with_write_count, Ecd, <- Hbusy.
  set (w := with_write mc0 out left (Z.pred <$> writeDataCountdown mc0) (writeDataToSend mc0) cbs
    (totalTransactions mc0) (totalWritesPerBank mc0)).
  change (writeDataCountdown w) with (Z.pred <$> writeDataCountdown mc0).
  change (mc_outgoingDataPacket w) with out. change (writeDataToSend w) with (writeDataToSend mc0).
  change (totalWritesPerBank w) with (totalWritesPerBank mc0). subst w.
  destruct (writeDataCountdown mc0) as [|c cds] eqn:Ec, (writeDataToSend mc0) as [|p ps] eqn:Eps;
    try discriminate; cbn [fmap list_fmap].
  - exists out, left, [], [], (totalTransactions mc0), (totalWritesPerBank mc0).
    split; [reflexivity|]. repeat (split; [done|]). split; [by rewrite app_nil_r | done].
  - apply Forall_cons in Hpk2 as [Hp0 Hps]. case_bool_decide as Hz.
    + assert (out = None) as ->.
      { pose proof (pipe_tick_free _ _ _ Hp ltac:(cbn; by rewrite Hz)) as Hfree.
        destruct out; [|done]. specialize (Hleft ltac:(by eexists)). lia. }
      destruct Hp0 as (Ht & Hr & Hb).
      destruct (add_at_ok 1 (totalWritesPerBank mc0) (SEQUENTIAL (bp_rank p) (bp_bank p))) as (v & -> & Hv).
      { rewrite Hlw. apply SEQUENTIAL_range; lia. }
      cbn [mbind Res_bind]. rewrite with_write_send.
      exists (Some p), (BL / 2), (Z.pred <$> cds), ps, (u64 (totalTransactions mc0 + 1)), v.
      split; [reflexivity|]. split; [congruence|]. split; [done|]. split; [lia|].
      split; [rewrite length_fmap; cbn in Hlen; lia|]. split; [constructor; [done | by cbn] | done].
    + exists out, left, (Z.pred <$> c :: cds), (p :: ps), (totalTransactions mc0), (totalWritesPerBank mc0).
      split; [reflexivity|]. repeat (split; [done|]). split; [cbn; rewrite length_fmap; cbn in Hlen; lia|].
      split; [|done]. apply Forall_app. split; [done | by constructor].
Qed.

Lemma stage_write par t mc ranks :
  WriteDataDone par = true -> ctrl_inv t t 0 0 0 1 mc ranks ->
  exists mc1 mc', deliver_write_data par mc ranks = Ok (mc1, ranks) /\ send_write_data mc1 = Ok mc' /\
    ctrl_inv t t 0 0 1 0 mc' ranks /\ mc_outgoingCmdPacket mc' = mc_outgoingCmdPacket mc /\
    accounted mc mc'.
Proof.
  intros Hpar Hi. pose proof (cv_write _ _ _ _ _ _ _ _ Hi) as Hw.
  destruct (deliver_write_spec par mc ranks Hpar (cv_ranks _ _ _ _ _ _ _ _ Hi) Hw)
    as (out & left & cbs & -> & Hbusy & Hleft & Hout & Hrdone & Hwdone).
  destruct (send_write_spec mc out left cbs (sh_writes _ (cv_shape _ _ _ _ _ _ _ _ Hi)) Hw Hbusy Hleft Hout)
    as (out' & left' & cds' & ps' & tt' & wr' & Hsend & Hlw & Htick & Hleft' & Hlen & Hpk & Hps).
  do 2 eexists. split; [reflexivity|]. split; [exact Hsend|]. split; [|split; [done|]].
  2:{ unfold accounted, reads_account, writes_account. unfold reads_done at 1, writes_done at 1.
      cbn [with_write]. destruct (with_write_frame mc out' left' cds' ps' cbs tt' wr')
        as (-> & -> & -> & -> & -> & ->).
      rewrite Hrdone. split; [done|]. rewrite Hps, !fmap_app, <- !app_assoc.
      do 2 apply Permutation_app_head. rewrite (Permutation_app_swap_app (packet_key <$> opt_list out)), Hwdone.
      solve_Permutation. }
  eapply ctrl_inv_with_write; [exact Hlw | | exact Hi].
  pose proof (pipe_tick_ok _ (burst_pos Hok) _ _ (wr_pipe _ _ _ Hw)) as Ht.
  rewrite <- Htick in Ht. destruct Ht as [Hp He].
  pose proof (latency_bounds Hok). pose proof (wr_end _ _ _ Hw) as Hend.
  constructor; cbn; try done.
  - unfold write_end, write_busy in *. cbn. lia.
  - intros i j m Hm Hacc. pose proof (wr_room _ _ _ Hw i j m Hm Hacc) as Hroom.
    unfold write_end, write_busy in *. cbn in *. lia.
Qed.

(** ** The refresh request *)

(** Asking a rank to refresh touches nothing the invariant reads. *)
Lemma ctrl_inv_refreshWaiting t clk er kr ew kw mc ranks i r :
  zget ranks i = Some r ->
  ctrl_inv t clk er kr ew kw mc ranks ->
  ctrl_inv t clk er kr ew kw mc (zalter (fun _ => r <| rk_refreshWaiting := true |>) ranks i).
Proof.
  intros Hr [Hsh Hq Hc Hlr Hrr Hp Hs Hw Htr Hrd Hpr].
  constructor; try done.
  - by rewrite zlen_zalter.
  - intros j Hj. destruct (Hs j Hj) as (pd & mb & r' & F1 & F2 & F3 & F4 & F5 & F6).
    rewrite zget_zalter. case_bool_decide as Hij.
    + subst j. rewrite Hr in F3. injection F3 as <-.
      exists pd, mb, (r <| rk_refreshWaiting := true |>). rewrite Hr.
      repeat (split; [done|]). split; [|split; [done|]].
      * destruct F4. by constructor.
      * destruct F6. by constructor.
    + exists pd, mb, r'. done.
  - rewrite <- Hrd. unfold reads_under_way.
    rewrite (reads_of_ranks_alter ranks i r _ []); [done | done |]. by rewrite app_nil_r.
Qed.

Lemma refresh_interval_range n : 0 <= n < NUM_RANKS ->
  0 <= (if bool_decide (u32 (n + 1) = NUM_RANKS) then 0 else u32 (n + 1)) < NUM_RANKS.
Proof.
  intros Hn. pose proof (ranks_bound Henv). rewrite u32_small by (unfold in_u32; lia).
  case_bool_decide; lia.
Qed.

Lemma cq_inv_needRefresh cq i : cq_inv cq -> 0 <= i < NUM_RANKS -> cq_inv (needRefresh cq i).
Proof. intros [? ? ? ? ? ? ? ? ? ?] Hi. by constructor. Qed.

Lemma stage_refresh t mc ranks :
  ctrl_inv t t 0 0 1 0 mc ranks ->
  exists mc' ranks', refresh_check mc ranks = Ok (mc', ranks') /\ ctrl_inv t t 0 0 1 0 mc' ranks' /\
    mc_outgoingCmdPacket mc' = mc_outgoingCmdPacket mc /\ accounted mc mc'.
Proof.
  intros Hi. pose proof (cv_refresh _ _ _ _ _ _ _ _ Hi) as Hrr.
  pose proof (cv_shape _ _ _ _ _ _ _ _ Hi) as Hsh. unfold refresh_check.
  destruct (zget_lt (refreshCountdown mc) (mc_refreshRank mc)) as [c ->]; [rewrite (sh_refresh _ Hsh); lia|].
  destruct (zget_lt (powerDown mc) (mc_refreshRank mc)) as [pd ->]; [rewrite (sh_power _ Hsh); lia|].
  destruct (zget_lt ranks (mc_refreshRank mc)) as [r Hr]; [rewrite (cv_ranks _ _ _ _ _ _ _ _ Hi); lia|].
  cbn. pose proof (ctrl_inv_refreshWaiting _ _ _ _ _ _ _ _ _ r Hr Hi) as Hi2.
  case_bool_decide.
  - erewrite call_rank_ok; [|exact Hr|reflexivity]. cbn.
    do 2 eexists. split; [reflexivity|]. split; [|split; [done | by apply accounted_frame]].
    destruct Hi2 as [Hsh2 Hq Hc Hlr _ Hp Hs Hw Htr Hrd Hpr].
    constructor; cbn; try done.
    + destruct Hsh2. constructor; cbn; try done. by rewrite zlen_zalter.
    + by apply cq_inv_needRefresh.
    + by apply refresh_interval_range.
    + destruct Hw. by constructor.
  - destruct (_ && _).
    + erewrite call_rank_ok; [|exact Hr|reflexivity]. cbn. do 2 eexists; repeat (split; [done|]); done.
    + do 2 eexists; repeat (split; [done|]); done.
Qed.

(** ** The popped command *)

Definition with_issue (mc : MemoryController) (bs : list (list BankState)) (e1 e2 e3 : list Z)
  : MemoryController :=
  mc <| bankStates := bs |> <| burstEnergy := e1 |> <| actpreEnergy := e2 |> <| refreshEnergy := e3 |>.

Lemma issue_burst mc e :
  mc <| burstEnergy := e |> = with_issue mc (bankStates mc) e (actpreEnergy mc) (refreshEnergy mc).
Proof. destruct mc. unfold with_issue. mc_compute. reflexivity. Qed.
Lemma issue_actpre mc e :
  mc <| actpreEnergy := e |> = with_issue mc (bankStates mc) (burstEnergy mc) e (refreshEnergy mc).
Proof. destruct mc. unfold with_issue. mc_compute. reflexivity. Qed.
Lemma issue_refreshE mc e :
  mc <| refreshEnergy := e |> = with_issue mc (bankStates mc) (burstEnergy mc) (actpreEnergy mc) e.
Proof. destruct mc. unfold with_issue. mc_compute. reflexivity. Qed.
Lemma issue_banks mc g :
  mc <| bankStates ::= g |> =
  with_issue mc (g (bankStates mc)) (burstEnergy mc) (actpreEnergy mc) (refreshEnergy mc).
Proof. destruct mc. unfold with_issue. mc_compute. reflexivity. Qed.
Lemma with_issue_banks mc bs e1 e2 e3 g :
  (with_issue mc bs e1 e2 e3) <| bankStates ::= g |> = with_issue mc (g bs) e1 e2 e3.
Proof. destruct mc. unfold with_issue. mc_compute. reflexivity. Qed.
Lemma with_issue_burst mc bs e1 e2 e3 e :
  (with_issue mc bs e1 e2 e3) <| burstEnergy := e |> = with_issue mc bs e e2 e3.
Proof. destruct mc. unfold with_issue. mc_compute. reflexivity. Qed.

(** The controller's banks after a command, pointwise. *)
Definition mc_banks_after (now : Z) (p : BusPacket) (bs : list (list BankState)) : list (list BankState) :=
  imap (fun i row => imap (fun j m => mc_bank_after now p (Z.of_nat i) (Z.of_nat j) m) row) bs.

Lemma imap2_ext (g h : nat -> nat -> BankState -> BankState) bs :
  (forall i j m, g i j m = h i j m) ->
  imap (fun i row => imap (fun j m => g i j m) row) bs = imap (fun i row => imap (fun j m => h i j m) row) bs.
Proof.
  intros H. apply imap_ext. intros i row _. apply imap_ext. intros j m _. apply H.
Qed.

(** Altering one bank, then all, then maybe that one again. *)
Lemma alter_all_alter (f g : BankState -> BankState) (h : Z -> BankState -> BankState) rank bank bs :
  zalter2 g (imap (fun i row => h (Z.of_nat i) <$> row) (zalter2 f bs rank bank)) rank bank =
  imap (fun i row => imap (fun j m =>
    let here := bool_decide (Z.of_nat i = rank /\ Z.of_nat j = bank) in
    let m' := h (Z.of_nat i) (if here then f m else m) in if here then g m' else m') row) bs.
Proof.
  rewrite !zalter2_imap, !imap_imap. apply imap_ext. intros i row _.
  rewrite imap_as_fmap, !imap_imap. done.
Qed.

Lemma alter_all (f : BankState -> BankState) (h : Z -> BankState -> BankState) rank bank bs :
  imap (fun i row => h (Z.of_nat i) <$> row) (zalter2 f bs rank bank) =
  imap (fun i row => imap (fun j m =>
    h (Z.of_nat i) (if bool_decide (Z.of_nat i = rank /\ Z.of_nat j = bank) then f m else m)) row) bs.
Proof.
  rewrite zalter2_imap, imap_imap. apply imap_ext. intros i row _.
  by rewrite imap_as_fmap, imap_imap.
Qed.

(** Altering the banks of one rank. *)
Lemma alter_row (h : Z -> BankState -> BankState) rank bs :
  zalter (imap (fun j b => h (Z.of_nat j) b)) bs rank =
  imap (fun i row => imap (fun j m => if bool_decide (Z.of_nat i = rank) then h (Z.of_nat j) m else m) row) bs.
Proof.
  rewrite zalter_imap. apply imap_ext. intros i row _. case_bool_decide; [done|].
  rewrite <- (list_fmap_id row) at 1. apply imap_as_fmap.
Qed.

Lemma issue_spec mc p :
  mc_shape mc -> 0 <= bp_rank p < NUM_RANKS -> 0 <= bp_bank p < NUM_BANKS -> busPacketType p <> DATA ->
  exists e1 e2 e3, zlen e1 = NUM_RANKS /\ zlen e2 = NUM_RANKS /\ zlen e3 = NUM_RANKS /\
    issue mc p = Ok (with_issue mc (mc_banks_after (mc_currentClockCycle mc) p (bankStates mc)) e1 e2 e3).
Proof.
  intros Hsh Hr Hb Hd.
  destruct (table_lookup _ _ _ (sh_banks _ Hsh) Hr Hb) as [m Em].
  pose proof (sh_burst _ Hsh) as L1. pose proof (sh_actpre _ Hsh) as L2. pose proof (sh_refreshE _ Hsh) as L3.
  destruct (add_at_ok BURST_READ_ENERGY (burstEnergy mc) (bp_rank p)) as (v1 & E1 & V1); [lia|].
  destruct (add_at_ok BURST_WRITE_ENERGY (burstEnergy mc) (bp_rank p)) as (v2 & E2 & V2); [lia|].
  destruct (add_at_ok ACTPRE_ENERGY (actpreEnergy mc) (bp_rank p)) as (v3 & E3 & V3); [lia|].
  destruct (add_at_ok REFRESH_ENERGY (refreshEnergy mc) (bp_rank p)) as (v4 & E4 & V4); [lia|].
  unfold issue. rewrite Em. cbn [of_option mbind Res_bind].
  unfold MC_issue_read, MC_issue_write, MC_issue_activate, MC_issue_precharge, MC_issue_refresh.
  cbv zeta. rewrite E1, E3, E4. unfold update_bank, update_all_banks, update_rank_banks.
  change (burstEnergy (mc <| bankStates ::= fun bs =>
    zalter2 (MC_WRITE_bank (mc_currentClockCycle mc) (busPacketType p)) bs (bp_rank p) (bp_bank p) |>))
    with (burstEnergy mc). rewrite E2. cbn [mbind Res_bind].
  rewrite ?(issue_burst mc), ?(issue_actpre mc), ?(issue_refreshE mc), ?(issue_banks mc).
  generalize (mc_currentClockCycle mc); intros now.
  unfold mc_banks_after, mc_bank_after.
  destruct (busPacketType p) eqn:Et; try done; enum_dec;
    rewrite ?with_issue_burst, ?with_issue_banks;
    rewrite ?alter_all_alter, ?alter_all, ?zalter2_imap.
  - exists v1, (actpreEnergy mc), (refreshEnergy mc). repeat (split; [congruence|]). done.
  - exists v1, (actpreEnergy mc), (refreshEnergy mc). repeat (split; [congruence|]). done.
  - exists v2, (actpreEnergy mc), (refreshEnergy mc). repeat (split; [congruence|]). done.
  - exists v2, (actpreEnergy mc), (refreshEnergy mc). repeat (split; [congruence|]). done.
  - exists (burstEnergy mc), v3, (refreshEnergy mc). repeat (split; [congruence|]).
    do 2 f_equal.
    rewrite zalter_imap, imap_imap. apply imap_ext. intros i row _. cbv beta.
    destruct (decide (Z.of_nat i = bp_rank p)) as [Hi|Hi].
    + rewrite (bool_decide_true (Z.of_nat i = _)), imap_imap by done.
      apply imap_ext. intros j b _. repeat case_bool_decide; naive_solver.
    + rewrite (bool_decide_false (Z.of_nat i = _)) by done.
      apply imap_ext. intros j b _. repeat case_bool_decide; naive_solver.
  - exists (burstEnergy mc), (actpreEnergy mc), (refreshEnergy mc). repeat (split; [congruence|]). done.
  - exists (burstEnergy mc), (actpreEnergy mc), v4. repeat (split; [congruence|]).
    do 2 f_equal. apply (alter_row (fun _ b => MC_REFRESH_bank now b)).
Qed.

(** ** The simulation across a popped command *)

Lemma mc_row_after now p bs i row :
  zget bs i = Some row ->
  zget (mc_banks_after now p bs) i = Some (imap (fun j m => mc_bank_after now p i (Z.of_nat j) m) row).
Proof.
  intros Hr. unfold mc_banks_after. rewrite zget_imap, Hr. cbn.
  apply zget_lookup in Hr as [H0 _]. by rewrite Z2Nat.id by lia.
Qed.

Lemma table_after now p bs : table bs -> table (mc_banks_after now p bs).
Proof.
  intros [Hl HF]. split; [unfold mc_banks_after; by rewrite zlen_imap|].
  apply Forall_lookup. intros k row. unfold mc_banks_after. rewrite list_lookup_imap.
  intros (r0 & E & ->)%fmap_Some. rewrite zlen_imap. rewrite Forall_lookup in HF. eauto.
Qed.

(** A rank the command is not for. *)
Lemma issue_rank_miss t p pd mb r i :
  0 <= t < 2 ^ 62 -> bp_rank p <> i -> rank_sim t None pd mb r ->
  rank_sim t None pd (imap (fun j m => mc_bank_after t p i (Z.of_nat j) m) mb) r.
Proof.
  intros Ht Hne [H1 H2 H3 H4]. constructor; [done | | done |].
  - destruct pd; cbn in *.
    + destruct H2 as [n Hn]. exists n. apply Forall_lookup. intros j m'. rewrite list_lookup_imap.
      intros (m & Hm & ->)%fmap_Some. rewrite Forall_lookup in Hn. destruct (Hn _ _ Hm) as [Hs Hu].
      destruct (other_rank_state t p i (Z.of_nat j) m) as [E1 E2]; [congruence|]. cbn. rewrite E1, E2. done.
    + apply Forall_lookup. intros j m'. rewrite list_lookup_imap. intros (m & Hm & ->)%fmap_Some.
      rewrite Forall_lookup in H2. apply after_not_down. eauto.
  - cbn in *. apply Forall2_imap_l; [by eapply Forall2_length|].
    intros j m b Hm Hb. apply other_rank_rel; [done | lia | congruence |].
    by eapply Forall2_lookup_lr.
Qed.

Lemma legal_not_down bs t p pd mb :
  zget bs (bp_rank p) = Some mb -> legal_popped bs t p -> power_rel pd mb -> pd = false.
Proof.
  intros Hmb (_ & _ & Hd & _ & Hl) Hp. destruct pd; [|done]. destruct Hp as [n Hn].
  rewrite Forall_lookup in Hn.
  assert (exists b m, zget2 bs (bp_rank p) b = Some m /\ currentBankState m <> PowerDown) as (b & m & Hm & Hs).
  { destruct (busPacketType p) eqn:Et; try done;
      try (destruct Hl as (m & Hm & Hm'); exists (bp_bank p), m; split; [done|];
           apply (here_busy t p m); rewrite ?Et; done).
    destruct Hl as (_ & m & Hm & Hs). eauto. }
  unfold zget2 in Hm. rewrite Hmb in Hm. cbn in Hm. apply zget_lookup in Hm as [_ Hm].
  destruct (Hn _ _ Hm). done.
Qed.

(** The rank the command is for. *)
Lemma issue_rank_hit bs t p pd mb r :
  0 <= t < 2 ^ 62 -> zget bs (bp_rank p) = Some mb -> zlen mb = NUM_BANKS ->
  legal_popped bs t p -> rank_sim t None pd mb r ->
  rank_sim t (Some p) pd (imap (fun j m => mc_bank_after t p (bp_rank p) (Z.of_nat j) m) mb) r.
Proof.
  intros Ht Hmb Hlen Hl [H1 H2 H3 H4]. pose proof (banks_bound Henv) as Hnb.
  pose proof (legal_not_down _ _ _ _ _ Hmb Hl H2) as ->. cbn in H2, H4.
  destruct Hl as (Hr & Hb & Hd & Hpol & Hl).
  assert (forall b m, zget2 bs (bp_rank p) b = Some m <-> zget mb b = Some m) as Hz
    by (intros; unfold zget2; by rewrite Hmb).
  constructor; [done | | done |].
  - cbn. apply Forall_lookup. intros j m'. rewrite list_lookup_imap. intros (m & Hm & ->)%fmap_Some.
    rewrite Forall_lookup in H2. apply after_not_down. eauto.
  - cbn. rewrite Forall_lookup in H2.
    destruct (decide (busPacketType p = REFRESH)) as [Eref|Eref].
    + rewrite Eref in Hl. destruct Hl as (Hall & m0 & Hm0 & Hs0). rewrite Hz in Hm0.
      assert (forall j m b, mb !! j = Some m -> rk_bankStates r !! j = Some b ->
        currentBankState b = Idle /\
        bank_rel t (mc_bank_after t p (bp_rank p) (Z.of_nat j) m)
          (rank_bank_after (t + 1) p (Z.of_nat j) b)) as Hrel.
      { intros j m b Hm Hb'. apply (refresh_rel Hok t Ht p m b); try done.
        - pose proof (lookup_lt_Some _ _ _ Hm). unfold zlen in Hlen.
          apply (Hall (Z.of_nat j)); [lia|]. rewrite Hz. apply zget_lookup. split; [lia | by rewrite Nat2Z.id].
        - eauto.
        - by eapply Forall2_lookup_lr. }
      split; [|split].
      * unfold cmd_legal. rewrite Eref. apply Forall_lookup. intros j b Hb'.
        destruct (Forall2_lookup_r _ _ _ _ _ H4 Hb') as (m & Hm & _). by eapply Hrel.
      * unfold rank_banks_after. eapply Forall2_imap_both; [exact H4|].
        intros j m b Hm Hb' _. by apply Hrel.
      * apply zget_lookup in Hm0 as [_ Hm0]. apply Exists_exists.
        exists (mc_bank_after t p (bp_rank p) (Z.of_nat 0) m0). split.
        -- apply list_elem_of_lookup. exists 0%nat. rewrite list_lookup_imap. change (mb !! 0%nat = Some m0) in Hm0. by rewrite Hm0.
        -- unfold mc_bank_after. rewrite Eref, bool_decide_true by done. done.
    + assert (exists m, zget mb (bp_bank p) = Some m /\ mc_bank_legal t p m) as (m & Hm & Hlm).
      { destruct (busPacketType p); try done; destruct Hl as (m & Hm & Hlm); rewrite Hz in Hm; eauto. }
      destruct (Forall2_zget _ _ _ _ _ H4 Hm) as (b & Hb' & Hmb').
      pose proof (here_legal t p m b Hlm Hmb') as Hleg.
      split; [|split].
      * unfold cmd_legal. destruct (busPacketType p); try done; eauto.
      * unfold rank_banks_after. eapply Forall2_imap_both; [exact H4|].
        intros j m2 b2 Hm2 Hb2 Hrel. destruct (decide (Z.of_nat j = bp_bank p)) as [Ej|Ej].
        -- apply zget_lookup in Hm as [_ Hm]. rewrite <- Ej, Nat2Z.id in Hm.
           rewrite Hm in Hm2. injection Hm2 as <-. rewrite Ej. apply here_rel; done.
        -- apply same_rank_rel; done.
      * apply zget_lookup in Hm as [H0 Hm]. apply Exists_exists.
        exists (mc_bank_after t p (bp_rank p) (bp_bank p) m). split.
        -- apply list_elem_of_lookup. exists (Z.to_nat (bp_bank p)). rewrite list_lookup_imap, Hm. cbn.
           by rewrite Z2Nat.id.
        -- apply here_busy; done.
Qed.
End Stages.
