(* ===== verification/IssueStages.v ===== *)
(** * Popping, scheduling, power modes and returns keep the invariant

    The second half of a controller cycle: the popped command enters the bank
    states and the command bus, a transaction moves into the command queue,
    ranks enter and leave power-down, and one read is returned. *)

From stdpp Require Import gmap.
From S2P Require Import Prelude.
From S2P Require Import DramConfig.
From S2P Require Import Pipe.
From S2P Require Import AddressMapping.
From S2P Require Import BusTypes.
From S2P Require Import DramRank.
From S2P Require Import RankSafety.
From S2P Require Import CommandQueue.
From S2P Require Import MemoryController.
From S2P Require Import BankSim.
From S2P Require Import QueueInv.
From S2P Require Import PopSpec.
From S2P Require Import ControllerInv.
From S2P Require Import MemorySystem.
From S2P Require Import ControllerStages.

#[local] Arguments call_rank : simpl never.
#[local] Arguments add_at : simpl never.
#[local] Arguments zalter : simpl never.
#[local] Arguments zget : simpl never.
#[local] Arguments transactions_of : simpl never.

Section IssueStages.
Context {cfg : Cfg}.
Hypothesis Henv : env_ok.

Let Hok : cfg_ok cfg := ev_cfg Henv.

(** ** The popped command *)

Definition write_data (p : BusPacket) : BusPacket :=
  BusPacket_setSender (bp_sender_type p) (bp_sender_id p)
    (BusPacket_new DATA (bp_physicalAddress p) (bp_column p) (bp_row p) (bp_rank p) (bp_bank p) (bp_data p)).

(** The state after [pop_and_issue], in flat form. *)
Definition issued (mc : MemoryController) (cq : CommandQueue) (p : BusPacket)
    (bs : list (list BankState)) (e1 e2 e3 : list Z) : MemoryController :=
  with_issue
    (mc <| commandQueue := cq |> <| poppedBusPacket := Some p |>
        <| writeDataToSend ::= fun l => if is_write (busPacketType p) then l ++ [write_data p] else l |>
        <| writeDataCountdown ::= fun l => if is_write (busPacketType p) then l ++ [WL] else l |>
        <| mc_outgoingCmdPacket := Some p |> <| cmdCyclesLeft := tCMD |>)
    bs e1 e2 e3.

Lemma push_write_data_spec p mc :
  push_write_data p mc =
  mc <| writeDataToSend ::= fun l => if is_write (busPacketType p) then l ++ [write_data p] else l |>
     <| writeDataCountdown ::= fun l => if is_write (busPacketType p) then l ++ [WL] else l |>.
Proof.
  unfold push_write_data, write_data. destruct mc. destruct (busPacketType p); enum_dec; mc_compute; reflexivity.
Qed.

Lemma mc_shape_frame mc mc' :
  bankStates mc' = bankStates mc -> refreshCountdown mc' = refreshCountdown mc ->
  powerDown mc' = powerDown mc -> totalReadsPerBank mc' = totalReadsPerBank mc ->
  totalWritesPerBank mc' = totalWritesPerBank mc -> totalEpochLatency mc' = totalEpochLatency mc ->
  totalBlpPerRank mc' = totalBlpPerRank mc ->
  totalActiveCyclesPerRank mc' = totalActiveCyclesPerRank mc ->
  backgroundEnergy mc' = backgroundEnergy mc -> burstEnergy mc' = burstEnergy mc ->
  actpreEnergy mc' = actpreEnergy mc -> refreshEnergy mc' = refreshEnergy mc ->
  mc_shape mc -> mc_shape mc'.
Proof.
  intros E1 E2 E3 E4 E5 E6 E7 E8 E9 E10 E11 E12 [].
  constructor; rewrite ?E1, ?E2, ?E3, ?E4, ?E5, ?E6, ?E7, ?E8, ?E9, ?E10, ?E11, ?E12; done.
Qed.

(** The state between the pop and the [switch]. *)
Definition pushed (mc : MemoryController) (cq : CommandQueue) (p : BusPacket) : MemoryController :=
  mc <| commandQueue := cq |> <| poppedBusPacket := Some p |>
     <| writeDataToSend ::= fun l => if is_write (busPacketType p) then l ++ [write_data p] else l |>
     <| writeDataCountdown ::= fun l => if is_write (busPacketType p) then l ++ [WL] else l |>.

Lemma pushed_frame mc cq p :
  (mc_shape mc -> mc_shape (pushed mc cq p)) /\
  mc_currentClockCycle (pushed mc cq p) = mc_currentClockCycle mc /\
  bankStates (pushed mc cq p) = bankStates mc /\
  forall bs e1 e2 e3,
    mc_outgoingCmdPacket (with_issue (pushed mc cq p) bs e1 e2 e3) = mc_outgoingCmdPacket mc /\
    (with_issue (pushed mc cq p) bs e1 e2 e3) <| mc_outgoingCmdPacket := Some p |> <| cmdCyclesLeft := tCMD |> =
    issued mc cq p bs e1 e2 e3.
Proof.
  split; [by apply mc_shape_frame|]. destruct mc. unfold pushed, issued, with_issue. mc_compute. done.
Qed.

Lemma put_on_command_bus_free mc p :
  mc_outgoingCmdPacket mc = None ->
  put_on_command_bus mc p = Ok (mc <| mc_outgoingCmdPacket := Some p |> <| cmdCyclesLeft := tCMD |>).
Proof. unfold put_on_command_bus. by intros ->. Qed.

(** The pop phase as one equation. *)
Lemma pop_and_issue_spec mc cq p :
  mc_shape mc -> 0 <= bp_rank p < NUM_RANKS -> 0 <= bp_bank p < NUM_BANKS -> busPacketType p <> DATA ->
  pop (bankStates mc) (commandQueue mc) = Ok (Some p, cq) -> mc_outgoingCmdPacket mc = None ->
  exists e1 e2 e3, zlen e1 = NUM_RANKS /\ zlen e2 = NUM_RANKS /\ zlen e3 = NUM_RANKS /\
    pop_and_issue mc =
      Ok (issued mc cq p (mc_banks_after (mc_currentClockCycle mc) p (bankStates mc)) e1 e2 e3).
Proof.
  intros Hsh Hr Hb Hd Hpop Hcmd. unfold pop_and_issue. rewrite Hpop. cbn [mbind Res_bind].
  rewrite push_write_data_spec. change (issue _ p) with (issue (pushed mc cq p) p).
  destruct (pushed_frame mc cq p) as (Hsh1 & Eclk & Ebs & Hflat).
  revert Hsh1 Eclk Ebs Hflat. generalize (pushed mc cq p). intros mc1 Hsh1 Eclk Ebs Hflat.
  destruct (issue_spec mc1 p (Hsh1 Hsh) Hr Hb Hd) as (e1 & e2 & e3 & L1 & L2 & L3 & ->).
  exists e1, e2, e3. repeat (split; [done|]). cbn [mbind Res_bind]. rewrite Eclk, Ebs.
  destruct (Hflat (mc_banks_after (mc_currentClockCycle mc) p (bankStates mc)) e1 e2 e3) as [Eout Eiss].
  rewrite put_on_command_bus_free by congruence. by rewrite Eiss.
Qed.

(** What an issued command leaves alone. *)
Record issued_frame (mc : MemoryController) (cq : CommandQueue) (p : BusPacket)
    (bs : list (list BankState)) (e1 e2 e3 : list Z) (mc' : MemoryController) : Prop := {
  if_shape : zlen e1 = NUM_RANKS -> zlen e2 = NUM_RANKS -> zlen e3 = NUM_RANKS -> table bs ->
    mc_shape mc -> mc_shape mc';
  if_queue : commandQueue mc' = cq;
  if_banks : bankStates mc' = bs;
  if_clock : mc_currentClockCycle mc' = mc_currentClockCycle mc;
  if_refresh : mc_refreshRank mc' = mc_refreshRank mc;
  if_cmd : mc_outgoingCmdPacket mc' = Some p /\ cmdCyclesLeft mc' = tCMD;
  if_power : powerDown mc' = powerDown mc;
  if_callbacks : callbacks mc' = callbacks mc;
  if_transactions : transactionQueue mc' = transactionQueue mc;
  if_returns : returnTransaction mc' = returnTransaction mc;
  if_pending : pendingReadTransactions mc' = pendingReadTransactions mc;
  if_data : mc_outgoingDataPacket mc' = mc_outgoingDataPacket mc /\ mc_dataCyclesLeft mc' = mc_dataCyclesLeft mc;
  if_countdown : writeDataCountdown mc' =
    if is_write (busPacketType p) then writeDataCountdown mc ++ [WL] else writeDataCountdown mc;
  if_send : writeDataToSend mc' =
    if is_write (busPacketType p) then writeDataToSend mc ++ [write_data p] else writeDataToSend mc
}.

Lemma issued_framed mc cq p bs e1 e2 e3 : issued_frame mc cq p bs e1 e2 e3 (issued mc cq p bs e1 e2 e3).
Proof.
  destruct mc. unfold issued, with_issue. mc_compute.
  constructor; try (split; reflexivity); try reflexivity.
  intros ? ? ? ? []. by constructor.
Qed.

(** *** Write data *)

Lemma write_ok_issued t mc cq p bs' e1 e2 e3 mc' :
  issued_frame mc cq p bs' e1 e2 e3 mc' ->
  0 <= t < 2 ^ 62 -> mc_currentClockCycle mc = t ->
  0 <= bp_rank p < NUM_RANKS -> 0 <= bp_bank p < NUM_BANKS ->
  bs' = mc_banks_after t p (bankStates mc) ->
  (is_column (busPacketType p) = true ->
    exists m, zget2 (bankStates mc) (bp_rank p) (bp_bank p) = Some m /\ accessible m /\
      (is_write (busPacketType p) = true -> nextWrite m <= t)) ->
  write_ok 1 0 mc -> write_ok 0 0 mc'.
Proof.
  intros Hfr Ht Hclk Hr Hb -> Hcol [H1 H2 H3 H4 H5 H6].
  pose proof (latency_bounds Hok) as Hlat.
  destruct Hfr as [_ _ Ebanks Eclk _ _ _ _ _ _ _ [Eout Eleft] Ecd Esend].
  assert (write_busy mc' = write_busy mc) as Eb by (unfold write_busy; by rewrite Eout, Eleft).
  assert (is_write (busPacketType p) = true -> write_end mc <= WL) as Hfit.
  { intros Hw. destruct Hcol as (m & Hm & Hacc & Hn); [by destruct (busPacketType p)|].
    specialize (H6 _ _ _ Hm Hacc). specialize (Hn Hw). lia. }
  assert (length (writeDataToSend mc') = length (writeDataCountdown mc') /\
    pipe_ok (BL / 2) (writeDataCountdown mc') (write_busy mc') /\
    Forall data_packet (opt_list (mc_outgoingDataPacket mc') ++ writeDataToSend mc') /\
    write_end mc' = if is_write (busPacketType p) then WL + BL / 2 else write_end mc) as (G1 & G2 & G3 & G4).
  { unfold write_end. rewrite Eb, Ecd, Esend, Eout.
    destruct (is_write _); [|done]. specialize (Hfit eq_refl).
    destruct (pipe_push_ok _ _ _ WL (WL_pos Hok) H2 Hfit) as [Hp He].
    split; [rewrite !length_app; cbn; lia|]. split; [exact Hp|]. split; [|exact He].
    rewrite app_assoc. apply Forall_app. split; [done|]. apply Forall_singleton. by split. }
  constructor; try done.
  - by rewrite Eout, Eleft.
  - rewrite G4. destruct (is_write _); lia.
  - rewrite G4. intros i j m' Hm' Hacc'.
    rewrite Eclk, Hclk in *. rewrite Ebanks in Hm'.
    unfold zget2, mc_banks_after in Hm'. rewrite zget_imap in Hm'.
    destruct (zget (bankStates mc) i) as [row|] eqn:Erow; [|done]. cbn in Hm'.
    rewrite zget_imap in Hm'. destruct (zget row j) as [m|] eqn:Em; [|done]. cbn in Hm'.
    injection Hm' as <-.
    pose proof (zget_Some_range _ _ _ Erow). pose proof (zget_Some_range _ _ _ Em).
    rewrite !Z2Nat.id in * by lia.
    assert (zget2 (bankStates mc) i j = Some m) as Em2 by (unfold zget2; by rewrite Erow).
    destruct (decide (busPacketType p = REFRESH)) as [Eref|Eref].
    { revert Hacc'. unfold mc_bank_after. rewrite Eref. cbn [is_write].
      case_bool_decide; [by intros [? _]|]. intros Hacc. by apply (H6 i j). }
    destruct (write_room Hok t p i j m Ht Eref) as [Hw Hroom]; [|exact Hacc'|].
    { intros Hc [-> ->]. destruct (Hcol Hc) as (m0 & Hm0 & Hacc0 & _). congruence. }
    destruct (is_write (busPacketType p)); [specialize (Hw eq_refl); lia|].
    destruct Hroom as [[Hacc Hle]|Hact]; [|lia]. specialize (H6 _ _ _ Em2 Hacc). lia.
Qed.

(** *** Reads under way *)

Lemma activate_not_read a : busPacketType a = ACTIVATE -> is_read (busPacketType a) = false.
Proof. by intros ->. Qed.

Lemma queued_reads_moved cq p cq' :
  moved cq p cq' -> queued_reads cq ≡ₚ command_reads (Some p) ++ queued_reads cq'.
Proof.
  intros [[Hty Ht]|[Hty Hq]]; unfold queued_reads.
  - rewrite (queue_minus_filter (fun a => is_read (busPacketType a)) _ _ _ activate_not_read Ht).
    rewrite filter_cons. cbn. destruct (is_read (busPacketType p)); [by rewrite decide_True by done|].
    by rewrite decide_False by done.
  - unfold cq_packets. rewrite Hq. cbn. by destruct Hty as [-> | ->].
Qed.

Lemma activate_not_write a : busPacketType a = ACTIVATE -> is_write (busPacketType a) = false.
Proof. by intros ->. Qed.

Lemma queued_writes_moved cq p cq' :
  moved cq p cq' ->
  queued_writes cq ≡ₚ (if is_write (busPacketType p) then [packet_key p] else []) ++ queued_writes cq'.
Proof.
  intros [[Hty Ht]|[Hty Hq]]; unfold queued_writes.
  - rewrite (queue_minus_filter (fun a => is_write (busPacketType a)) _ _ _ activate_not_write Ht).
    rewrite filter_cons. destruct (is_write (busPacketType p)); [by rewrite decide_True by done|].
    by rewrite decide_False by done.
  - unfold cq_packets. rewrite Hq. by destruct Hty as [-> | ->].
Qed.

(** A popped write leaves its queue for the write-data pipeline. *)
Lemma accounted_issued mc cq p bs e1 e2 e3 mc' :
  issued_frame mc cq p bs e1 e2 e3 mc' -> moved (commandQueue mc) p cq -> accounted mc mc'.
Proof.
  intros [_ Eq _ _ _ _ _ Ecb Etr _ Epend [Eout _] _ Esend] Hmv.
  unfold accounted, reads_account, writes_account, reads_done, writes_done.
  rewrite Eq, Ecb, Etr, Epend, Eout, Esend. split; [done|]. rewrite (queued_writes_moved _ _ _ Hmv).
  destruct (is_write (busPacketType p)); [|done]. rewrite !fmap_app.
  change (packet_key <$> [write_data p]) with [packet_key p]. solve_Permutation.
Qed.

Lemma stage_pop t mc ranks :
  0 <= t < 2 ^ 62 -> mc_outgoingCmdPacket mc = None ->
  ctrl_inv t t 0 0 1 0 mc ranks ->
  exists mc', pop_and_issue mc = Ok mc' /\ ctrl_inv t t 0 0 0 0 mc' ranks /\ accounted mc mc'.
Proof.
  intros Ht Hcmd [Hsh Hq [Hc1 Hc2] Hlr Hrr Hp Hs Hw Htr Hrd Hpr].
  pose proof (ranks_bound Henv) as Hnr. pose proof (banks_bound Henv) as Hnb.
  destruct (pop_total (bankStates mc) (sh_banks _ Hsh) Hnr Hnb (commandQueue mc) Hq) as (o & cq & Hpop & Hpo).
  destruct Hpo as [Hcq' Hclk' Hpk _ _]. destruct o as [p|].
  - destruct Hpk as [Hleg Hmv]. rewrite Hc2 in Hleg. pose proof Hleg as (Hr & Hb & Hd & _ & Hl).
    destruct (pop_and_issue_spec mc cq p Hsh Hr Hb Hd Hpop Hcmd) as (e1 & e2 & e3 & L1 & L2 & L3 & ->).
    rewrite Hc1. eexists. split; [reflexivity|].
    pose proof (issued_framed mc cq p (mc_banks_after t p (bankStates mc)) e1 e2 e3) as Hfr.
    revert Hfr. generalize (issued mc cq p (mc_banks_after t p (bankStates mc)) e1 e2 e3). intros mc' Hfr.
    split; [|by eapply accounted_issued].
    pose proof Hfr as [Eshape Eq Ebanks Eclk Err [Ecmd Eleft] Epow _ Etr Eret Epend _ _ _].
    constructor.
    + apply Eshape; try done. by apply table_after, sh_banks.
    + by rewrite Eq.
    + rewrite Eclk, Eq. split; [done | congruence].
    + done.
    + by rewrite Err.
    + unfold pending_ok. rewrite Ecmd. split; [|done]. rewrite Eleft. exact (ok_tCMD _ Hok).
    + intros i Hi. destruct (Hs i Hi) as (pd & mb & r & F1 & F2 & F3 & F4 & F5 & F6).
      rewrite Hcmd in F4. exists pd, (imap (fun j m => mc_bank_after t p i (Z.of_nat j) m) mb), r.
      rewrite Epow, Ebanks, Ecmd.
      split; [done|]. split; [by apply mc_row_after|]. split; [done|]. split; [|done].
      destruct (decide (bp_rank p = i)) as [<-|Hne].
      * rewrite cmd_for_hit. eapply (issue_rank_hit Henv); try done.
        destruct (table_row _ _ (sh_banks _ Hsh) Hr) as (row & Erow & Hrow). congruence.
      * rewrite cmd_for_miss by done. by apply (issue_rank_miss Henv).
    + eapply write_ok_issued with (t := t); try done. intros Hcol.
      assert (exists m, zget2 (bankStates mc) (bp_rank p) (bp_bank p) = Some m /\ mc_bank_legal t p m)
        as (m & Hm & Hlm) by (destruct (busPacketType p); try done; naive_solver).
      exists m. split; [done|].
      destruct (Hs _ Hr) as (pd & mb & r & F1 & F2 & F3 & F4 & F5 & F6). rewrite Hcmd in F4.
      pose proof (rs_banks _ _ _ _ _ F4) as HF. cbn in HF.
      unfold zget2 in Hm. rewrite F2 in Hm. cbn in Hm.
      destruct (Forall2_zget _ _ _ _ _ HF Hm) as (b & _ & Hrel). split.
      * by eapply legal_accessible.
      * revert Hlm. unfold mc_bank_legal. destruct (busPacketType p); try done; naive_solver.
    + by rewrite Etr.
    + rewrite Epend, <- Hrd. unfold reads_under_way. rewrite Hcmd, Ecmd, Eq, Eret.
      rewrite (queued_reads_moved _ _ _ Hmv). cbn [command_reads]. solve_Permutation.
    + by rewrite Epend.
  - unfold pop_and_issue. rewrite Hpop. cbn [mbind Res_bind]. eexists. split; [reflexivity|].
    split; [|apply accounted_frame; try done; unfold cq_packets; cbn; by rewrite Hpk].
    constructor; try done.
    + by apply (mc_shape_frame mc).
    + split; [exact Hc1|]. change (cq_currentClockCycle cq = t). congruence.
    + destruct Hw as [H1 H2 H3 H4 H5 H6]. constructor; try done. 
      change (write_end mc <= WL + BL / 2 - 0). lia.
    + rewrite <- Hrd. unfold reads_under_way, queued_reads, cq_packets.
      change (commandQueue (mc <| commandQueue := cq |>)) with cq. by rewrite Hpk.
Qed.

(** ** Scheduling a transaction *)

(** The two commands of a transaction. *)
Lemma transaction_commands_spec tr m :
  transaction_ok tr ->
  0 <= newTransactionRank m < NUM_RANKS -> 0 <= newTransactionBank m < NUM_BANKS ->
  exists act col, transaction_commands tr m = Ok (act, col) /\ packet_ok act /\ packet_ok col /\
    busPacketType act = ACTIVATE /\ bp_physicalAddress col = tr_address tr /\
    is_read (busPacketType col) = bool_decide (transactionType tr = DATA_READ) /\
    is_write (busPacketType col) = bool_decide (transactionType tr = DATA_WRITE) /\
    packet_key col = tr_key tr /\
    (bp_rank act = newTransactionRank m /\ bp_bank act = newTransactionBank m) /\
    (bp_rank col = newTransactionRank m /\ bp_bank col = newTransactionBank m).
Proof.
  intros [Hty _] Hr Hb. unfold transaction_commands, getBusPacketType, packet_ok, allowed_type.
  destruct Hty as [-> | ->]; enum_dec; destruct (decide (rowBufferPolicy = ClosePage)) as [Ep|Ep];
    cbn; do 2 eexists; (split; [reflexivity|]); cbn; repeat (split; try done);
    by destruct rowBufferPolicy.
Qed.

Definition scheduled (mc : MemoryController) (tq : list Transaction) (cq : CommandQueue)
    (pend : list Transaction) : MemoryController :=
  mc <| transactionQueue := tq |> <| commandQueue := cq |> <| pendingReadTransactions := pend |>.

Lemma scheduled_frame mc tq cq pend :
  let mc' := scheduled mc tq cq pend in
  transactionQueue mc' = tq /\ pendingReadTransactions mc' = pend /\ commandQueue mc' = cq /\
  mc_outgoingDataPacket mc' = mc_outgoingDataPacket mc /\ writeDataToSend mc' = writeDataToSend mc /\
  callbacks mc' = callbacks mc.
Proof. destruct mc. unfold scheduled. mc_compute. done. Qed.

Lemma schedule_flat mc tq cq (b : bool) tr :
  (if b then (mc <| transactionQueue := tq |> <| commandQueue := cq |>)
               <| pendingReadTransactions ::= fun l => l ++ [tr] |>
   else mc <| transactionQueue := tq |> <| commandQueue := cq |>) =
  scheduled mc tq cq (pendingReadTransactions mc ++ if b then [tr] else []).
Proof. destruct mc, b; unfold scheduled; mc_compute; [|rewrite app_nil_r]; reflexivity. Qed.

Lemma schedule_tq mc g :
  commandQueue (mc <| transactionQueue ::= g |>) = commandQueue mc /\
  mc <| transactionQueue ::= g |> = mc <| transactionQueue := g (transactionQueue mc) |>.
Proof. destruct mc. mc_compute. done. Qed.

Lemma queued_reads_perm cq cq' l :
  cq_packets cq' ≡ₚ l ++ cq_packets cq ->
  queued_reads cq' ≡ₚ
    (bp_physicalAddress <$> filter (fun p => is_read (busPacketType p) = true) l) ++ queued_reads cq.
Proof. intros H. unfold queued_reads. by rewrite H, filter_app, fmap_app. Qed.

Lemma setCommandQueue_clock cq rank bank q :
  cq_currentClockCycle (setCommandQueue cq rank bank q) = cq_currentClockCycle cq.
Proof. done. Qed.

Lemma ctrl_inv_scheduled t clk er kr ew kw mc ranks tq cq pend :
  ctrl_inv t clk er kr ew kw mc ranks ->
  cq_inv cq -> cq_currentClockCycle cq = clk -> Forall transaction_ok tq ->
  queued_reads cq ++ (tr_address <$> pendingReadTransactions mc) ≡ₚ
    queued_reads (commandQueue mc) ++ (tr_address <$> pend) ->
  Forall (fun tr => in_u64 (tr_address tr)) pend ->
  ctrl_inv t clk er kr ew kw (scheduled mc tq cq pend) ranks.
Proof.
  intros [Hsh Hq [Hc1 Hc2] Hlr Hrr Hp Hs Hw Htr Hrd Hpr] Hcq Hclk Htq Hreads Hpend.
  constructor; try done.
  - by apply (mc_shape_frame mc).
  - destruct Hw. by constructor.
  - apply (Permutation_app_inv_l (queued_reads (commandQueue mc))).
    change (pendingReadTransactions (scheduled mc tq cq pend)) with pend. rewrite <- Hreads, <- Hrd.
    unfold reads_under_way.
    change (commandQueue (scheduled mc tq cq pend)) with cq.
    change (mc_outgoingCmdPacket (scheduled mc tq cq pend)) with (mc_outgoingCmdPacket mc).
    change (returnTransaction (scheduled mc tq cq pend)) with (returnTransaction mc).
    solve_Permutation.
Qed.

Lemma transactions_of_remove ty l i tr :
  l !! i = Some tr ->
  transactions_of ty l ≡ₚ
    (if bool_decide (transactionType tr = ty) then [tr_key tr] else [])
    ++ transactions_of ty (take i l ++ drop (S i) l).
Proof.
  intros Hi. unfold transactions_of. rewrite <- (take_drop_middle l i tr) at 1 by done.
  rewrite !filter_app, filter_cons, !fmap_app.
  destruct (decide (transactionType tr = ty)); [rewrite bool_decide_true by done | rewrite bool_decide_false by done];
    cbn; solve_Permutation.
Qed.

(** A scheduled read becomes a pending read, a scheduled write a command. *)
Lemma accounted_scheduled mc i tr act col cq :
  transactionQueue mc !! i = Some tr ->
  cq_packets cq ≡ₚ col :: act :: cq_packets (commandQueue mc) ->
  busPacketType act = ACTIVATE ->
  is_write (busPacketType col) = bool_decide (transactionType tr = DATA_WRITE) ->
  packet_key col = tr_key tr ->
  accounted mc (scheduled mc (take i (transactionQueue mc) ++ drop (S i) (transactionQueue mc)) cq
    (pendingReadTransactions mc ++ if bool_decide (transactionType tr = DATA_READ) then [tr] else [])).
Proof.
  intros Htr Hcq Hact Hcol Hkey.
  unfold accounted, reads_account, writes_account, reads_done, writes_done.
  match goal with |- context [scheduled mc ?tq cq ?pend] =>
    destruct (scheduled_frame mc tq cq pend) as (-> & -> & -> & -> & -> & ->) end.
  assert (queued_writes cq ≡ₚ (if bool_decide (transactionType tr = DATA_WRITE) then [tr_key tr] else [])
    ++ queued_writes (commandQueue mc)) as Eq.
  { unfold queued_writes. rewrite Hcq, !filter_cons, Hact, Hcol.
    rewrite (decide_False (P := is_write ACTIVATE = true)) by done.
    destruct (bool_decide _); [rewrite decide_True by done | by rewrite decide_False by done].
    by rewrite fmap_cons, Hkey. }
  split.
  - rewrite (transactions_of_remove DATA_READ _ _ _ Htr), fmap_app.
    destruct (bool_decide (transactionType tr = DATA_READ)); cbn; solve_Permutation.
  - rewrite (transactions_of_remove DATA_WRITE _ _ _ Htr), Eq.
    destruct (bool_decide (transactionType tr = DATA_WRITE)); cbn; solve_Permutation.
Qed.

Lemma schedule_ok t clk er kr ew kw mc ranks i tr :
  ctrl_inv t clk er kr ew kw mc ranks -> transactionQueue mc !! i = Some tr ->
  let m := addressMapping (tr_address tr) in
  hasRoomFor (commandQueue mc) 2 (newTransactionRank m) (newTransactionBank m) = Ok true ->
  exists mc', schedule mc i tr m = Ok mc' /\ ctrl_inv t clk er kr ew kw mc' ranks /\ accounted mc mc'.
Proof.
  intros Hi Htr m Hroom. pose proof (cv_queue _ _ _ _ _ _ _ _ Hi) as Hcq.
  pose proof (cv_transactions _ _ _ _ _ _ _ _ Hi) as Htqs. pose proof Htqs as Hok1.
  rewrite Forall_lookup in Hok1. specialize (Hok1 _ _ Htr).
  destruct (mapped_range Henv (tr_address tr) (proj2 Hok1)) as [Hr Hb]. fold m in Hr, Hb.
  pose proof (ok_cmd_queue _ Hok) as Hdepth.
  destruct (hasRoomFor_spec (commandQueue mc) 2 _ _ (proj2 Hdepth) ltac:(lia) Hcq Hr Hb)
    as (q & Eq & Ehas).
  rewrite Hroom in Ehas. injection Ehas as Ehas. symmetry in Ehas. apply bool_decide_eq_true in Ehas.
  destruct (transaction_commands_spec tr m Hok1 Hr Hb)
    as (act & col & Ecmd & Hact & Hcol & Ety & Eaddr & Eread & Ewrite & Ekey & [Ear Eab] & [Ecr Ecb]).
  assert (zget2 (queues (commandQueue mc)) (bp_rank act) (queue_index (bp_bank act)) = Some q) as Eq1
    by congruence.
  destruct (enqueue_spec (commandQueue mc) act q Hcq Hact Eq1 ltac:(lia)) as (En1 & Hcq1 & Hp1 & Hq1).
  assert (zget2 (queues (setCommandQueue (commandQueue mc) (bp_rank act) (bp_bank act) (q ++ [act])))
    (bp_rank col) (queue_index (bp_bank col)) = Some (q ++ [act])) as Eq2 by (rewrite <- Hq1; congruence).
  assert (zlen (q ++ [act]) + 1 <= CMD_QUEUE_DEPTH) as Hl2
    by (rewrite zlen_app; change (zlen [act]) with 1; lia).
  destruct (enqueue_spec _ col _ Hcq1 Hcol Eq2 Hl2) as (En2 & Hcq2 & Hp2 & _).
  unfold schedule. rewrite Ecmd. cbn [mbind Res_bind].
  destruct (schedule_tq mc (fun q => take i q ++ drop (S i) q)) as [-> ->].
  rewrite En1. cbn [mbind Res_bind]. rewrite En2. cbn [mbind Res_bind].
  eexists. split; [apply f_equal; apply schedule_flat|].
  split; [|by eapply accounted_scheduled; [exact Htr | etransitivity; [exact Hp2 | by rewrite Hp1] | ..]].
  apply ctrl_inv_scheduled; try done.
  - rewrite !setCommandQueue_clock. apply (cv_clock _ _ _ _ _ _ _ _ Hi).
  - rewrite <- (take_drop_middle _ _ _ Htr) in Htqs. apply Forall_app in Htqs as [? Htqs].
    apply Forall_cons in Htqs as [_ ?]. apply Forall_app. done.
  - rewrite (queued_reads_perm (commandQueue mc) _ [col; act]) by by rewrite Hp2, Hp1.
    rewrite fmap_app, !filter_cons, filter_nil, Ety, Eread.
    rewrite (decide_False (P := is_read ACTIVATE = true)) by done.
    destruct (bool_decide (transactionType tr = DATA_READ));
      [rewrite decide_True by done | rewrite decide_False by done]; cbn; rewrite ?Eaddr; solve_Permutation.
  - apply Forall_app. split; [apply (cv_pendingreads _ _ _ _ _ _ _ _ Hi)|].
    destruct (bool_decide (transactionType tr = DATA_READ)); [apply Forall_singleton; apply Hok1 | constructor].
Qed.

Lemma schedule_loop_ok t clk er kr ew kw mc ranks rest i :
  ctrl_inv t clk er kr ew kw mc ranks -> rest = drop i (transactionQueue mc) ->
  exists mc', schedule_loop mc i rest = Ok mc' /\ ctrl_inv t clk er kr ew kw mc' ranks /\ accounted mc mc'.
Proof.
  intros Hi. revert i. induction rest as [|tr rest IH]; intros i Hrest; cbn [schedule_loop];
    [eexists; split; [reflexivity|]; by split|].
  assert (transactionQueue mc !! i = Some tr) as Htr
    by (rewrite <- (Nat.add_0_r i), <- lookup_drop, <- Hrest; done).
  assert (rest = drop (S i) (transactionQueue mc)) as Hrest'.
  { rewrite (drop_S _ _ _ Htr) in Hrest. congruence. }
  pose proof (cv_transactions _ _ _ _ _ _ _ _ Hi) as Htqs. rewrite Forall_lookup in Htqs.
  destruct (mapped_range Henv (tr_address tr) (proj2 (Htqs _ _ Htr))) as [Hr Hb].
  destruct (hasRoomFor_spec (commandQueue mc) 2 _ _ (proj2 (ok_cmd_queue _ Hok)) ltac:(lia)
    (cv_queue _ _ _ _ _ _ _ _ Hi) Hr Hb) as (q & Eq & Ehas).
  rewrite Ehas. cbn [mbind Res_bind]. case_bool_decide as Hroom.
  - apply (schedule_ok _ _ _ _ _ _ _ _ _ _ Hi Htr). by rewrite Ehas.
  - by apply IH.
Qed.

Lemma stage_schedule t clk er kr ew kw mc ranks :
  ctrl_inv t clk er kr ew kw mc ranks ->
  exists mc', schedule_transaction mc = Ok mc' /\ ctrl_inv t clk er kr ew kw mc' ranks /\ accounted mc mc'.
Proof. intros Hi. by apply schedule_loop_ok. Qed.
End IssueStages.
