(* ===== verification/PowerStages.v ===== *)
(** * Power modes, returned reads and whole cycles

    The last stages of a controller cycle, and their composition with the
    stages before: a whole [MemorySystem::update] returns normally and keeps
    the channel's invariant ([channel_inv]). *)

From stdpp Require Import gmap.
From S2P Require Import Prelude.
From S2P Require Import DramConfig.
From S2P Require Import Pipe.
From S2P Require Import AddressMapping.
From S2P Require Import BusTypes.
From S2P Require Import DramRank.
From S2P Require Import RankSafety.
From S2P Require Import CommandQueue.
From S2P Require Import MemoryController.
From S2P Require Import BankSim.
From S2P Require Import QueueInv.
From S2P Require Import PopSpec.
From S2P Require Import ControllerInv.
From S2P Require Import MemorySystem.
From S2P Require Import ControllerStages.
From S2P Require Import IssueStages.

#[local] Arguments call_rank : simpl never.
#[local] Arguments add_at : simpl never.
#[local] Arguments zalter : simpl never.
#[local] Arguments zget : simpl never.
#[local] Arguments transactions_of : simpl never.

Section PowerStages.
Context {cfg : Cfg}.
Hypothesis Henv : env_ok.

Let Hok : cfg_ok cfg := ev_cfg Henv.

(** ** Replacing the state of one rank *)

Definition set_power (mc : MemoryController) (i : Z) (pd : bool) (g : BankState -> BankState)
  : MemoryController :=
  mc <| powerDown ::= fun l => zalter (fun _ => pd) l i |>
     <| bankStates ::= fun bs => zalter (fmap g) bs i |>.

Lemma set_power_frame mc i pd g :
  (mc_shape mc -> mc_shape (set_power mc i pd g)) /\
  (forall e k, (forall m, ~ accessible (g m)) -> write_ok e k mc -> write_ok e k (set_power mc i pd g)).
Proof.
  split.
  - intros []. constructor; cbn; rewrite ?zlen_zalter; try done.
    destruct sh_banks as [Hl HF]. split; [by rewrite zlen_zalter|].
    rewrite zalter_imap. apply Forall_lookup. intros k row. rewrite list_lookup_imap.
    intros (r0 & E & ->)%fmap_Some. rewrite Forall_lookup in HF.
    case_bool_decide; rewrite ?zlen_fmap; eauto.
  - intros e k Hg [H1 H2 H3 H4 H5 H6]. constructor; try done. cbn. intros i' j m. unfold zget2.
    rewrite zget_zalter. case_bool_decide; [|by apply H6].
    destruct (zget (bankStates mc) i'); cbn; [|done]. rewrite zget_fmap.
    destruct (zget l j); cbn; [|done]. intros [= <-] Hacc. by apply Hg in Hacc.
Qed.

Lemma ctrl_inv_set_power t mc ranks i pd0 mb r pd g r' :
  ctrl_inv t t 0 0 0 0 mc ranks -> 0 <= i < NUM_RANKS ->
  zget (powerDown mc) i = Some pd0 -> zget (bankStates mc) i = Some mb -> zget ranks i = Some r ->
  cmd_for (mc_outgoingCmdPacket mc) i = None ->
  (forall m, ~ accessible (g m)) ->
  rank_sim t None pd (g <$> mb) r' -> rk_currentClockCycle r' = t -> rank_data_ok 0 0 r' ->
  rank_reads r' = rank_reads r ->
  ctrl_inv t t 0 0 0 0 (set_power mc i pd g) (zalter (fun _ => r') ranks i).
Proof.
  intros [Hsh Hq [Hc1 Hc2] Hlr Hrr Hp Hs Hw Htr Hrd Hpr] Hi Hpd Hmb Hr Hcmd Hg Hsim Hclk Hdata Hreads.
  destruct (set_power_frame mc i pd g) as [Hfs Hfw].
  constructor; try done.
  - by apply Hfs.
  - by rewrite zlen_zalter.
  - intros j Hj. cbn. rewrite !zget_zalter. destruct (decide (i = j)) as [<-|Hne].
    + rewrite bool_decide_true by done. rewrite Hpd, Hmb, Hr, Hcmd. cbn. eauto 10.
    + rewrite bool_decide_false by done. by apply Hs.
  - by apply Hfw.
  - rewrite <- Hrd. unfold reads_under_way. cbn.
    rewrite (reads_of_ranks_alter ranks i r r' []); [done | done |]. by rewrite Hreads, app_nil_r.
Qed.

(** ** Entering power-down *)

Lemma enter_rank t pd mb r now :
  0 <= t < 2 ^ 62 -> now = t -> rk_currentClockCycle r = t -> zlen mb = NUM_BANKS ->
  Forall (fun m => currentBankState m = Idle) mb ->
  rank_sim t None pd mb r -> rank_data_ok 0 0 r ->
  exists r', Rank_powerDown r = Ok r' /\
    rank_sim t None true ((fun b => b <| currentBankState := PowerDown |>
                                      <| nextPowerUp := u64 (now + tCKE) |>) <$> mb) r' /\
    rk_currentClockCycle r' = t /\ rank_data_ok 0 0 r' /\ rank_reads r' = rank_reads r.
Proof.
  intros Ht -> Hclk Hlen Hidle [H1 H2 _ H4] Hd. cbn in H4.
  assert (Forall (fun b => currentBankState b = Idle) (rk_bankStates r)) as Hidle'.
  { apply Forall_lookup. intros j b Hb. destruct (Forall2_lookup_r _ _ _ _ _ H4 Hb) as (m & Hm & Ha & Hst).
    rewrite Forall_lookup in Hidle. unfold state_rel in Hst. rewrite (Hidle _ _ Hm) in Hst. apply Hst. }
  unfold Rank_powerDown. rewrite (powerDown_banks_ok _ _ Hidle'). cbn.
  eexists. split; [reflexivity|]. split; [|split; [done | split; [|done]]].
  - constructor; cbn; try done.
    + exists (u64 (t + tCKE)). apply Forall_fmap. by apply Forall_true.
    + apply Forall2_fmap. eapply Forall2_impl; [|intros ? ? P; exact P].
      apply Forall2_same_length_lookup. split; [by eapply Forall2_length|].
      intros j m b Hm Hb. pose proof (Forall2_lookup_lr _ _ _ _ _ _ H4 Hm Hb) as [Ha Hst].
      rewrite Forall_lookup in Hidle. unfold state_rel in Hst. rewrite (Hidle _ _ Hm) in Hst.
      split; [done|]. cbn. rewrite Hclk. destruct Hst. split; [done | split; [done | lia]].
  - eapply rank_data_ok_frame; [.. | exact Hd]; try done. cbn.
    intros b (b0 & -> & _)%list_elem_of_fmap. done.
Qed.

Lemma leave_rank t mb r now n :
  0 <= t < 2 ^ 62 -> now = t -> rk_currentClockCycle r = t -> zlen mb = NUM_BANKS ->
  Forall (fun m => currentBankState m = PowerDown /\ nextPowerUp m <= n) mb -> n <= t ->
  rank_sim t None true mb r -> rank_data_ok 0 0 r ->
  exists r', Rank_powerUp r = Ok r' /\
    rank_sim t None false ((fun b => b <| currentBankState := Idle |>
                                      <| nextActivate := u64 (now + tXP) |>) <$> mb) r' /\
    rk_currentClockCycle r' = t /\ rank_data_ok 0 0 r' /\ rank_reads r' = rank_reads r.
Proof.
  intros Ht -> Hclk Hlen Hdown Hn [H1 H2 _ H4] Hd. cbn in H4.
  assert (forall j m b, mb !! j = Some m -> rk_bankStates r !! j = Some b ->
    stateChangeCountdown m = 0 /\ nextPowerUp b <= t) as Hb.
  { intros j m b Hm Hb. pose proof (Forall2_lookup_lr _ _ _ _ _ _ H4 Hm Hb) as [Ha Hst].
    rewrite Forall_lookup in Hdown. destruct (Hdown _ _ Hm) as [Hs Hle]. unfold state_rel in Hst.
    rewrite Hs in Hst. split; [apply Hst | lia]. }
  unfold Rank_powerUp. rewrite H1. cbn. rewrite powerUp_banks_ok.
  2:{ cbn. apply Forall_lookup. intros j b Hbj. rewrite Hclk.
      destruct (Forall2_lookup_r _ _ _ _ _ H4 Hbj) as (m & Hm & _). by eapply Hb. }
  cbn. eexists. split; [reflexivity|]. split; [|split; [done | split; [|done]]].
  - constructor; cbn; try done.
    + apply Forall_fmap. by apply Forall_true.
    + apply Forall2_fmap. apply Forall2_same_length_lookup. split; [by eapply Forall2_length|].
      intros j m b Hm Hbj. destruct (Hb _ _ _ Hm Hbj) as [Hz _].
      split; [cbn; rewrite Hclk; lia|]. cbn. done.
  - eapply rank_data_ok_frame; [.. | exact Hd]; try done. cbn.
    intros b (b0 & -> & _)%list_elem_of_fmap. done.
Qed.

Lemma enter_ok t mc ranks i :
  0 <= t < 2 ^ 62 -> ctrl_inv t t 0 0 0 0 mc ranks -> 0 <= i < NUM_RANKS ->
  (exists mb, zget (bankStates mc) i = Some mb /\ Forall (fun m => currentBankState m = Idle) mb) ->
  exists mc' ranks', enter_power_down mc ranks i = Ok (mc', ranks') /\ ctrl_inv t t 0 0 0 0 mc' ranks' /\
    accounted mc mc'.
Proof.
  intros Ht Hi Hr (mb & Emb & Hidle).
  destruct (cv_sim _ _ _ _ _ _ _ _ Hi i Hr) as (pd & mb' & r & F1 & F2 & F3 & F4 & F5 & F6).
  rewrite Emb in F2. injection F2 as <-.
  assert (cmd_for (mc_outgoingCmdPacket mc) i = None) as Hcmd.
  { destruct (cmd_for _ i) as [p|] eqn:E; [|done]. destruct F4 as [_ _ _ (_ & _ & Hex)].
    apply Exists_exists in Hex as (m & Hin & Hm). rewrite Forall_forall in Hidle. by specialize (Hidle _ Hin). }
  rewrite Hcmd in F4.
  destruct (table_row _ _ (sh_banks _ (cv_shape _ _ _ _ _ _ _ _ Hi)) Hr) as (row & Erow & Hrow).
  rewrite Emb in Erow. injection Erow as <-.
  destruct (cv_clock _ _ _ _ _ _ _ _ Hi) as [Hclk _].
  destruct (enter_rank _ _ _ _ _ Ht Hclk F5 Hrow Hidle F4 F6) as (r' & Eop & Hsim & Hc & Hd & Hrds).
  unfold enter_power_down. rewrite (call_rank_ok _ _ _ _ _ F3 Eop). cbn [mbind Res_bind].
  do 2 eexists. split; [reflexivity|]. split; [|by apply accounted_frame].
  eapply (ctrl_inv_set_power _ _ _ _ _ _ _ true); try done. by intros m [? _].
Qed.

Lemma leave_ok t mc ranks i mb b0 :
  0 <= t < 2 ^ 62 -> ctrl_inv t t 0 0 0 0 mc ranks -> 0 <= i < NUM_RANKS ->
  zget (powerDown mc) i = Some true -> zget (bankStates mc) i = Some mb -> zget mb 0 = Some b0 ->
  nextPowerUp b0 <= t ->
  exists mc' ranks', leave_power_down mc ranks i = Ok (mc', ranks') /\ ctrl_inv t t 0 0 0 0 mc' ranks' /\
    accounted mc mc'.
Proof.
  intros Ht Hi Hr Hdown Emb Eb0 Hn.
  destruct (cv_sim _ _ _ _ _ _ _ _ Hi i Hr) as (pd & mb' & r & F1 & F2 & F3 & F4 & F5 & F6).
  rewrite Emb in F2. injection F2 as <-. rewrite Hdown in F1. injection F1 as <-.
  assert (cmd_for (mc_outgoingCmdPacket mc) i = None) as Hcmd.
  { destruct (cmd_for _ i) as [p|] eqn:E; [|done].
    pose proof (rs_pending _ _ _ _ _ F4 ltac:(by eexists)). done. }
  rewrite Hcmd in F4.
  destruct (table_row _ _ (sh_banks _ (cv_shape _ _ _ _ _ _ _ _ Hi)) Hr) as (row & Erow & Hrow).
  rewrite Emb in Erow. injection Erow as <-.
  destruct (cv_clock _ _ _ _ _ _ _ _ Hi) as [Hclk _].
  pose proof (rs_down _ _ _ _ _ F4) as [n Hall].
  assert (nextPowerUp b0 = n) as En.
  { apply zget_lookup in Eb0 as [_ Eb0]. rewrite Forall_lookup in Hall. by destruct (Hall _ _ Eb0). }
  assert (Forall (fun m => currentBankState m = PowerDown /\ nextPowerUp m <= n) mb) as Hall'.
  { eapply Forall_impl; [exact Hall|]. cbn. intros m [? ?]. split; [done | lia]. }
  destruct (leave_rank t mb r (mc_currentClockCycle mc) n Ht Hclk F5 Hrow Hall' ltac:(lia) F4 F6)
    as (r' & Eop & Hsim & Hc & Hd & Hrds).
  unfold leave_power_down. rewrite (call_rank_ok _ _ _ _ _ F3 Eop). cbn [mbind Res_bind].
  do 2 eexists. split; [reflexivity|]. split; [|by apply accounted_frame].
  eapply (ctrl_inv_set_power _ _ _ _ _ _ _ false); try done. by intros m [? _].
Qed.

Lemma unchanged_ok t (mc : MemoryController) (ranks : list Rank) :
  ctrl_inv t t 0 0 0 0 mc ranks ->
  exists mc' ranks', @Ok (MemoryController * list Rank) (mc, ranks) = Ok (mc', ranks') /\
    ctrl_inv t t 0 0 0 0 mc' ranks' /\ accounted mc mc'.
Proof. intros Hi. do 2 eexists. split; [reflexivity|]. by split. Qed.

Lemma switch_power_ok t mc ranks i :
  0 <= t < 2 ^ 62 -> ctrl_inv t t 0 0 0 0 mc ranks -> 0 <= i < NUM_RANKS ->
  exists mc' ranks', switch_power mc ranks i = Ok (mc', ranks') /\ ctrl_inv t t 0 0 0 0 mc' ranks' /\
    accounted mc mc'.
Proof.
  intros Ht Hi Hr. unfold switch_power. destruct USE_LOW_POWER; [|by eauto using unchanged_ok].
  pose proof (banks_bound Henv) as Hnb.
  destruct (isEmpty_ok (commandQueue mc) i (proj1 Hnb) (ci_queues _ (cv_queue _ _ _ _ _ _ _ _ Hi)) Hr) as [b ->].
  destruct (cv_sim _ _ _ _ _ _ _ _ Hi i Hr) as (pd & mb & r & F1 & F2 & F3 & F4 & F5 & F6).
  rewrite F3, F2, F1. cbn. destruct (b && negb (rk_refreshWaiting r)).
  - destruct (forallb _ mb) eqn:Hall; [|by eauto using unchanged_ok].
    apply enter_ok; try done. exists mb. split; [done|]. apply Forall_forall. intros m Hm.
    apply forallb_forall with (x := m) in Hall; [by apply bool_decide_eq_true in Hall | by apply list_elem_of_In].
  - destruct (table_row _ _ (sh_banks _ (cv_shape _ _ _ _ _ _ _ _ Hi)) Hr) as (row & Erow & Hrow).
    rewrite F2 in Erow. injection Erow as <-.
    destruct (zget_lt mb 0) as [b0 Eb0]; [lia|]. rewrite Eb0. cbn.
    destruct (cv_clock _ _ _ _ _ _ _ _ Hi) as [Hclk _]. rewrite Hclk.
    case_bool_decide as Hn; cbn; [|by eauto using unchanged_ok]. destruct pd; [|by eauto using unchanged_ok].
    eapply leave_ok; eauto. lia.
Qed.

(** Statistics are outside the invariant. *)
Lemma ctrl_inv_background t clk er kr ew kw mc ranks v :
  zlen v = NUM_RANKS -> ctrl_inv t clk er kr ew kw mc ranks ->
  ctrl_inv t clk er kr ew kw (mc <| backgroundEnergy := v |>) ranks.
Proof.
  intros Hv [Hsh Hq Hc Hlr Hrr Hp Hs Hw Htr Hrd Hpr]. constructor; try done.
  - destruct Hsh. by constructor.
  - destruct Hw. by constructor.
Qed.

Lemma stage_power t mc ranks :
  0 <= t < 2 ^ 62 -> ctrl_inv t t 0 0 0 0 mc ranks ->
  exists mc' ranks', update_power mc ranks = Ok (mc', ranks') /\ ctrl_inv t t 0 0 0 0 mc' ranks' /\
    accounted mc mc'.
Proof.
  intros Ht Hi. unfold update_power. pose proof (ranks_bound Henv).
  edestruct (foldM_zrange_inv (fun _ (s : MemoryController * list Rank) =>
      ctrl_inv t t 0 0 0 0 s.1 s.2 /\ accounted mc s.1))
    as ([mc' rs'] & Ef & Hf); [| | | rewrite Ef; eauto]; [lia | | done].
  clear ranks Hi. intros i [mc0 ranks] Hr [Hi Hacc0]. cbn [fst snd] in *.
  destruct (switch_power_ok t mc0 ranks i Ht Hi Hr) as (mc1 & rs1 & -> & Hi1 & Hacc1). cbn [mbind Res_bind].
  unfold background_power.
  destruct (cv_sim _ _ _ _ _ _ _ _ Hi1 i Hr) as (pd & mb & r & F1 & F2 & _). rewrite F2, F1. cbn.
  match goal with |- context [add_at ?d ?v i] => destruct (add_at_ok d v i) as (v' & -> & Hv') end.
  { rewrite (sh_background _ (cv_shape _ _ _ _ _ _ _ _ Hi1)). lia. }
  cbn. eexists. split; [reflexivity|]. cbn [fst snd].
  split; [|do 2 (etransitivity; [eassumption|]); by apply accounted_frame].
  apply ctrl_inv_background; [|done].
  rewrite Hv'. apply (sh_background _ (cv_shape _ _ _ _ _ _ _ _ Hi1)).
Qed.

(** ** Returning a read *)

Lemma find_pending_spec a l i :
  a ∈ (tr_address <$> l) ->
  exists k tr, find_pending a l i = Some ((i + k)%nat, tr) /\ l !! k = Some tr /\ tr_address tr = a.
Proof.
  revert i; induction l as [|tr l IH]; intros i Hin; cbn; [by apply not_elem_of_nil in Hin|].
  case_bool_decide as Ht; [exists 0%nat, tr; by rewrite Nat.add_0_r|].
  cbn in Hin. apply elem_of_cons in Hin as [Heq|Hin]; [by rewrite Heq in Ht|].
  destruct (IH (S i) Hin) as (k & tr' & -> & Hk & Ha).
  exists (S k), tr'. by rewrite Nat.add_succ_r, <- Nat.add_succ_l.
Qed.

(** The fields a returned read changes. *)
Definition with_return (mc : MemoryController) (tt : Z) (epoch : list Z) (lat : gmap Z Z)
    (cbs : list Callback) (pend ret : list Transaction) : MemoryController :=
  mc <| totalTransactions := tt |> <| totalEpochLatency := epoch |> <| latencies := lat |>
     <| callbacks := cbs |> <| pendingReadTransactions := pend |> <| returnTransaction := ret |>.

Lemma returned_flat par mc tt epoch lat tr g ret :
  ReturnReadData par = true ->
  exists cbs,
  omap read_done_key cbs = reads_done mc ++ [tr_key tr] /\ omap write_done_key cbs = writes_done mc /\
  (returnReadData par ((mc <| totalTransactions ::= tt |>) <| totalEpochLatency := epoch |> <| latencies ::= lat |>) tr)
     <| pendingReadTransactions ::= g |> <| returnTransaction := ret |> =
  with_return mc (tt (totalTransactions mc)) epoch (lat (latencies mc)) cbs (g (pendingReadTransactions mc)) ret.
Proof.
  intros Hpar. unfold returnReadData, with_return, reads_done, writes_done. rewrite Hpar.
  destruct mc; mc_compute; eexists. split; [|split; [|reflexivity]]; by rewrite omap_app, ?app_nil_r.
Qed.

Lemma with_return_frame mc tt epoch lat cbs pend ret :
  let mc' := with_return mc tt epoch lat cbs pend ret in
  transactionQueue mc' = transactionQueue mc /\ pendingReadTransactions mc' = pend /\
  commandQueue mc' = commandQueue mc /\ mc_outgoingDataPacket mc' = mc_outgoingDataPacket mc /\
  writeDataToSend mc' = writeDataToSend mc /\ callbacks mc' = cbs.
Proof. destruct mc. unfold with_return. mc_compute. done. Qed.

Lemma ctrl_inv_with_return t clk er kr ew kw mc ranks tt epoch lat cbs pend ret x rets :
  zlen epoch = NUM_RANKS * NUM_BANKS -> returnTransaction mc = x :: rets -> ret = rets ->
  (tr_address <$> pendingReadTransactions mc) ≡ₚ tr_address x :: (tr_address <$> pend) ->
  Forall (fun tr => in_u64 (tr_address tr)) pend ->
  ctrl_inv t clk er kr ew kw mc ranks ->
  ctrl_inv t clk er kr ew kw (with_return mc tt epoch lat cbs pend ret) ranks.
Proof.
  intros Hl Hret -> Hpend Hin [Hsh Hq Hc Hlr Hrr Hp Hs Hw Htr Hrd Hpr]. constructor; try done.
  - destruct Hsh. by constructor.
  - destruct Hw. by constructor.
  - apply (Permutation_cons_inv (a := tr_address x)).
    change (pendingReadTransactions (with_return mc tt epoch lat cbs pend rets)) with pend.
    rewrite <- Hpend, <- Hrd. unfold reads_under_way. rewrite Hret, fmap_cons.
    change (commandQueue (with_return mc tt epoch lat cbs pend rets)) with (commandQueue mc).
    change (mc_outgoingCmdPacket (with_return mc tt epoch lat cbs pend rets)) with (mc_outgoingCmdPacket mc).
    change (returnTransaction (with_return mc tt epoch lat cbs pend rets)) with rets.
    solve_Permutation.
Qed.

Lemma stage_return par t clk er kr ew kw mc ranks :
  ReturnReadData par = true -> ctrl_inv t clk er kr ew kw mc ranks ->
  exists mc', return_data par mc = Ok mc' /\ ctrl_inv t clk er kr ew kw mc' ranks /\ accounted mc mc'.
Proof.
  intros Hpar Hi. unfold return_data. destruct (returnTransaction mc) as [|x rets] eqn:Eret;
    [eexists; split; [reflexivity|]; by split|].
  pose proof (ranks_bound Henv). pose proof (banks_bound Henv).
  set (mc0 := mc <| totalTransactions ::= fun n => u64 (n + 1) |>).
  change (pendingReadTransactions mc0) with (pendingReadTransactions mc).
  assert (tr_address x ∈ (tr_address <$> pendingReadTransactions mc)) as Hin.
  { rewrite <- (cv_reads _ _ _ _ _ _ _ _ Hi). unfold reads_under_way. rewrite Eret, fmap_cons.
    rewrite !elem_of_app. right; right; right. left. }
  destruct (find_pending_spec _ _ 0 Hin) as (k & tr & -> & Hk & Ha). rewrite Nat.add_0_l.
  pose proof (cv_pendingreads _ _ _ _ _ _ _ _ Hi) as Hp. pose proof Hp as Htr.
  rewrite Forall_lookup in Htr. specialize (Htr _ _ Hk). cbv beta in Htr. rewrite Ha in Htr.
  destruct (mapped_range Henv (tr_address x) Htr) as [Hr Hb].
  unfold insertHistogram. change (totalEpochLatency mc0) with (totalEpochLatency mc).
  match goal with |- context [add_at ?d ?v ?j] => destruct (add_at_ok d v j) as (v' & -> & Hv') end.
  { rewrite (sh_epoch _ (cv_shape _ _ _ _ _ _ _ _ Hi)). apply SEQUENTIAL_range; lia. }
  cbn [mbind Res_bind]. subst mc0.
  match goal with |- context [returnReadData par (_ <| latencies ::= ?lat |>) tr] =>
    destruct (returned_flat par mc (fun n => u64 (n + 1)) v' lat tr
      (fun l => take k l ++ drop (S k) l) rets Hpar) as (cbs & Erd & Ewd & E); rewrite E end.
  eexists. split; [reflexivity|].
  pose proof (take_drop_middle _ _ _ Hk) as Hmid. split.
  2:{ unfold accounted, reads_account, writes_account. unfold reads_done at 1, writes_done at 1.
      match goal with |- context [with_return mc ?a ?b ?c ?d ?e ?f] =>
        destruct (with_return_frame mc a b c d e f) as (-> & -> & -> & -> & -> & ->) end.
      rewrite Erd, Ewd. split; [|done]. rewrite <- Hmid at 3. rewrite !fmap_app, fmap_cons. solve_Permutation. }
  eapply ctrl_inv_with_return; [ | exact Eret | reflexivity | | | exact Hi].
  - rewrite Hv'. apply (sh_epoch _ (cv_shape _ _ _ _ _ _ _ _ Hi)).
  - rewrite <- Hmid at 1. rewrite !fmap_app, fmap_cons, Ha. solve_Permutation.
  - rewrite <- Hmid in Hp. apply Forall_app in Hp as [? Hp]. apply Forall_cons in Hp as [_ ?].
    by apply Forall_app.
Qed.

(** ** One call of [MemoryController::update] *)

Lemma ctrl_inv_queue_size t clk er kr ew kw mc ranks g :
  ctrl_inv t clk er kr ew kw mc ranks -> ctrl_inv t clk er kr ew kw (mc <| totalQueueSize ::= g |>) ranks.
Proof.
  intros [Hsh Hq Hc Hlr Hrr Hp Hs Hw Htr Hrd Hpr]. constructor; try done.
  - by apply (mc_shape_frame mc).
  - destruct Hw. by constructor.
Qed.

(** The end of [update], past the last stage that looks at the ranks. *)
Definition finish_update (mc : MemoryController) : MemoryController :=
  mc <| refreshCountdown ::= fmap (fun c => u32 (c - 1)) |> <| commandQueue ::= CommandQueue_step |>.

Lemma MemoryController_update_ok par t mc ranks :
  ReturnReadData par = true -> WriteDataDone par = true ->
  0 <= t < 2 ^ 62 -> ctrl_inv (t - 1) t 1 0 0 1 mc ranks ->
  exists mc' ranks', MemoryController_update par mc ranks = Ok (finish_update mc', ranks') /\
    ctrl_inv t t 0 0 0 0 mc' ranks' /\ accounted mc mc'.
Proof.
  intros Hrd Hwd Ht Hi. unfold MemoryController_update.
  apply (ctrl_inv_queue_size _ _ _ _ _ _ _ _ (fun n => u64 (n + zlen (transactionQueue mc)))) in Hi.
  assert (accounted mc (mc <| totalQueueSize ::= fun n => u64 (n + zlen (transactionQueue mc)) |>)) as A0
    by by apply accounted_frame.
  revert Hi A0. generalize (mc <| totalQueueSize ::= fun n => u64 (n + zlen (transactionQueue mc)) |>).
  intros mc0 Hi A0.
  replace t with (t - 1 + 1) in Hi at 2 by lia.
  destruct (stage_tick_deliver Henv (t - 1) mc0 ranks) as (mc1 & mc2 & rs2 & -> & E & Hi2 & Hcmd2 & A2); [|done|].
  { change (2 ^ 63) with (2 * 2 ^ 62). lia. }
  cbn [mbind Res_bind]. rewrite E. cbn [mbind Res_bind]. replace (t - 1 + 1) with t in Hi2 by lia.
  destruct (stage_write Henv par t mc2 rs2 Hwd Hi2) as (mc3 & mc4 & -> & E4 & Hi4 & Hcmd4 & A4).
  cbn [mbind Res_bind]. rewrite E4. cbn [mbind Res_bind].
  destruct (stage_refresh Henv t mc4 rs2 Hi4) as (mc5 & rs5 & -> & Hi5 & Hcmd5 & A5). cbn [mbind Res_bind].
  destruct (stage_pop Henv t mc5 rs5 Ht ltac:(congruence) Hi5) as (mc6 & -> & Hi6 & A6). cbn [mbind Res_bind].
  destruct (stage_schedule Henv _ _ _ _ _ _ mc6 rs5 Hi6) as (mc7 & -> & Hi7 & A7). cbn [mbind Res_bind].
  destruct (stage_power t mc7 rs5 Ht Hi7) as (mc8 & rs8 & -> & Hi8 & A8). cbn [mbind Res_bind].
  destruct (stage_return par _ _ _ _ _ _ mc8 rs8 Hrd Hi8) as (mc9 & -> & Hi9 & A9). cbn [mbind Res_bind].
  exists mc9, rs8. split; [done|]. split; [done|].
  do 7 (etransitivity; [eassumption|]). done.
Qed.

(** ** The clocks advance *)

Lemma cq_inv_step cq : cq_inv cq -> cq_inv (CommandQueue_step cq).
Proof. intros [? ? ? ? ? ? ? ? ? ?]. by constructor. Qed.

Lemma write_ok_step t mc mc' :
  0 <= t < 2 ^ 62 -> mc_currentClockCycle mc = t -> mc_currentClockCycle mc' = t + 1 ->
  bankStates mc' = bankStates mc ->
  writeDataToSend mc' = writeDataToSend mc -> writeDataCountdown mc' = writeDataCountdown mc ->
  mc_outgoingDataPacket mc' = mc_outgoingDataPacket mc -> mc_dataCyclesLeft mc' = mc_dataCyclesLeft mc ->
  write_ok 0 0 mc -> write_ok 0 1 mc'.
Proof.
  intros Ht Hc Hc' E1 E2 E3 E4 E5 [H1 H2 H3 H4 H5 H6].
  assert (write_busy mc' = write_busy mc) as Eb by (unfold write_busy; by rewrite E4, E5).
  assert (write_end mc' = write_end mc) as Ee by (unfold write_end; by rewrite E3, Eb).
  constructor; rewrite ?E1, ?E2, ?E3, ?E4, ?E5, ?Eb, ?Ee; try done.
  intros i j m Hm Hacc. specialize (H6 _ _ _ Hm Hacc). lia.
Qed.

Lemma stage_step t mc ranks :
  0 <= t < 2 ^ 62 -> ctrl_inv t t 0 0 0 0 mc ranks ->
  ctrl_inv t (t + 1) 0 1 0 1 (MemoryController_step (finish_update mc)) (Rank_step <$> ranks).
Proof.
  intros Ht [Hsh Hq [Hc1 Hc2] Hlr Hrr Hp Hs Hw Htr Hrd Hpr].
  assert (u64 (t + 1) = t + 1) as Ec by (apply (now_add t Ht); lia).
  set (mc' := MemoryController_step (finish_update mc)).
  assert (mc_currentClockCycle mc' = t + 1 /\ cq_currentClockCycle (commandQueue mc') = t + 1) as [Ec1 Ec2].
  { split; [change (u64 (mc_currentClockCycle mc + 1) = t + 1) |
            change (u64 (cq_currentClockCycle (commandQueue mc) + 1) = t + 1)]; congruence. }
  constructor; try done.
  - destruct Hsh. constructor; try done. cbn. by rewrite zlen_fmap.
  - by apply cq_inv_step.
  - by rewrite zlen_fmap.
  - intros i Hi. destruct (Hs i Hi) as (pd & mb & r & F1 & F2 & F3 & F4 & F5 & F6).
    exists pd, mb, (Rank_step r). rewrite zget_fmap, F3.
    split; [exact F1 | split; [exact F2 | split; [done|]]].
    split; [destruct F4; by constructor|].
    split; [change (u64 (rk_currentClockCycle r + 1) = t + 1); congruence|].
    apply Rank_step_data_ok; [|done]. rewrite F5. change (2 ^ 63) with (2 * 2 ^ 62). lia.
  - by eapply (write_ok_step t mc).
  - assert (reads_of_ranks (Rank_step <$> ranks) = reads_of_ranks ranks) as Er
      by (unfold reads_of_ranks; by rewrite <- list_fmap_compose).
    etransitivity; [|exact Hrd]. unfold reads_under_way. by rewrite Er.
Qed.

(** ** The channel *)

Definition channel_reads (ms : MemorySystem) : list Key :=
  transactions_of DATA_READ (pendingTransactions ms) ++ reads_account (memoryController ms).
Definition channel_writes (ms : MemorySystem) : list Key :=
  transactions_of DATA_WRITE (pendingTransactions ms) ++ writes_account (memoryController ms).

(** What holds of a channel between two calls: [t] cycles have passed, and
    the reads [rds] and writes [wrs] were added. *)
Record channel_inv (t : Z) (rds wrs : list Key) (ms : MemorySystem) : Prop := {
  ch_ctrl : ctrl_inv (t - 1) t 0 1 0 1 (memoryController ms) (ranks ms);
  ch_pending : Forall transaction_ok (pendingTransactions ms);
  ch_callbacks : ReturnReadData (ms_parent ms) = true /\ WriteDataDone (ms_parent ms) = true;
  ch_reads : channel_reads ms ≡ₚ rds;
  ch_writes : channel_writes ms ≡ₚ wrs
}.

Lemma transactions_of_app ty l k : transactions_of ty (l ++ k) = transactions_of ty l ++ transactions_of ty k.
Proof. unfold transactions_of. by rewrite filter_app, fmap_app. Qed.

Lemma transactions_of_singleton ty tr :
  transactions_of ty [tr] = if bool_decide (transactionType tr = ty) then [tr_key tr] else [].
Proof.
  unfold transactions_of. rewrite filter_cons, filter_nil.
  destruct (decide (transactionType tr = ty)); [by rewrite bool_decide_true | by rewrite bool_decide_false].
Qed.

(** A controller with room takes a transaction. *)
Lemma ctrl_inv_add t clk er kr ew kw mc ranks tr :
  transaction_ok tr -> MemoryController_WillAcceptTransaction mc = true ->
  ctrl_inv t clk er kr ew kw mc ranks ->
  exists mc', MemoryController_addTransaction mc tr = (true, mc') /\
    ctrl_inv t clk er kr ew kw mc' ranks /\
    reads_account mc' ≡ₚ transactions_of DATA_READ [tr] ++ reads_account mc /\
    writes_account mc' ≡ₚ transactions_of DATA_WRITE [tr] ++ writes_account mc.
Proof.
  intros Htr0 Hroom [Hsh Hq Hc Hlr Hrr Hp Hs Hw Htr Hrd Hpr].
  unfold MemoryController_addTransaction. rewrite Hroom. eexists. split; [reflexivity|]. split; [|split].
  - constructor; try done.
    + by apply (mc_shape_frame mc).
    + destruct Hw. by constructor.
    + apply Forall_app. split; [done|]. by apply Forall_singleton.
  - unfold reads_account, reads_done. cbn. rewrite transactions_of_app, !transactions_of_singleton.
    change (tr_key (tr <| timeAdded := mc_currentClockCycle mc |>)) with (tr_key tr). cbn. solve_Permutation.
  - unfold writes_account, writes_done. cbn. rewrite transactions_of_app, !transactions_of_singleton.
    change (tr_key (tr <| timeAdded := mc_currentClockCycle mc |>)) with (tr_key tr). cbn. solve_Permutation.
Qed.

Definition add_key (w w' : bool) (addr st si : Z) : list Key := if eqb w w' then [(addr, st, si)] else [].

Lemma MemorySystem_addTransaction_ok t rds wrs ms isWrite addr st si :
  in_u64 addr -> channel_inv t rds wrs ms ->
  channel_inv t (add_key isWrite false addr st si ++ rds) (add_key isWrite true addr st si ++ wrs)
    (MemorySystem_addTransaction ms isWrite addr st si).2.
Proof.
  intros Ha [Hc Hp Hcb Hr Hw]. unfold MemorySystem_addTransaction.
  set (tr := Transaction_setSender st si (Transaction_new (if isWrite then DATA_WRITE else DATA_READ) addr 0)).
  assert (transaction_ok tr) as Htr by (split; [destruct isWrite; auto | done]).
  assert (transactions_of DATA_READ [tr] = add_key isWrite false addr st si /\
    transactions_of DATA_WRITE [tr] = add_key isWrite true addr st si) as [<- <-]
    by (by destruct isWrite).
  unfold channel_reads, channel_writes in *.
  destruct (MemoryController_WillAcceptTransaction (memoryController ms)) eqn:Hroom.
  - destruct (ctrl_inv_add _ _ _ _ _ _ _ _ tr Htr Hroom Hc) as (mc & -> & Hi & Hr2 & Hw2).
    constructor; try done; unfold channel_reads, channel_writes; cbn [snd].
    + change (memoryController (ms <| memoryController := mc |>)) with mc.
      rewrite <- Hr, Hr2. solve_Permutation.
    + change (memoryController (ms <| memoryController := mc |>)) with mc.
      rewrite <- Hw, Hw2. solve_Permutation.
  - constructor; try done; unfold channel_reads, channel_writes; cbn [snd].
    + apply Forall_app. split; [done|]. by apply Forall_singleton.
    + rewrite <- Hr. cbn. rewrite transactions_of_app. solve_Permutation.
    + rewrite <- Hw. cbn. rewrite transactions_of_app. solve_Permutation.
Qed.

(** A request is never refused. *)
Lemma MemorySystem_addTransaction_true ms isWrite addr st si :
  (MemorySystem_addTransaction ms isWrite addr st si).1 = true.
Proof.
  unfold MemorySystem_addTransaction. destruct (MemoryController_WillAcceptTransaction _) eqn:Hroom; [|done].
  unfold MemoryController_addTransaction. by rewrite Hroom.
Qed.

Lemma admit_pending_ok ms t clk er kr ew kw :
  ctrl_inv t clk er kr ew kw (memoryController ms) (ranks ms) -> Forall transaction_ok (pendingTransactions ms) ->
  let ms' := admit_pending ms in
  ctrl_inv t clk er kr ew kw (memoryController ms') (ranks ms') /\
  Forall transaction_ok (pendingTransactions ms') /\
  channel_reads ms' ≡ₚ channel_reads ms /\ channel_writes ms' ≡ₚ channel_writes ms /\
  ms_parent ms' = ms_parent ms.
Proof.
  intros Hc Hp. unfold admit_pending. destruct (pendingTransactions ms) as [|tr rest] eqn:E.
  { cbn. by rewrite E. }
  apply Forall_cons in Hp as [Htr Hrest].
  destruct (MemoryController_WillAcceptTransaction _) eqn:Hroom; [|cbn; rewrite E; split; [done | by split; [constructor|]]].
  destruct (ctrl_inv_add _ _ _ _ _ _ _ _ tr Htr Hroom Hc) as (mc & Eadd & Hi & Hr2 & Hw2).
  unfold channel_reads, channel_writes. cbn. rewrite Eadd. cbn. rewrite E, Hr2, Hw2.
  split; [done|]. split; [done|].
  change (tr :: rest) with ([tr] ++ rest). rewrite !transactions_of_app.
  split; [solve_Permutation | split; [solve_Permutation | done]].
Qed.

Lemma MemorySystem_update_ok t rds wrs ms :
  0 <= t < 2 ^ 62 -> channel_inv t rds wrs ms ->
  exists ms', MemorySystem_update ms = Ok ms' /\ channel_inv (t + 1) rds wrs ms'.
Proof.
  intros Ht [Hc Hp [Hrd Hwd] Hr Hw]. unfold MemorySystem_update.
  replace t with (t - 1 + 1) in Hc at 2 by lia.
  destruct (stage_update_ranks Henv (t - 1) _ _ Hc) as (mc1 & rs1 & -> & Hi1 & [A1 A1']).
  replace (t - 1 + 1) with t in Hi1 by lia. cbn [mbind Res_bind].
  set (ms1 := ms <| ranks := rs1 |> <| memoryController := mc1 |>).
  destruct (admit_pending_ok ms1 _ _ _ _ _ _ Hi1 Hp) as (Hi2 & Hp2 & Hr2 & Hw2 & Hpar2).
  assert (ms_parent (admit_pending ms1) = ms_parent ms) as Hpar by (by rewrite Hpar2).
  destruct (MemoryController_update_ok (ms_parent (admit_pending ms1)) t _ _
    ltac:(by rewrite Hpar) ltac:(by rewrite Hpar) Ht Hi2) as (mc3 & rs3 & -> & Hi3 & [A3 A3']).
  cbn [mbind Res_bind]. eexists. split; [reflexivity|].
  constructor; [| done | by rewrite <- Hpar in Hrd, Hwd | | ].
  - replace (t + 1 - 1) with t by lia. by apply stage_step.
  - rewrite <- Hr. change (channel_reads ms) with
      (transactions_of DATA_READ (pendingTransactions ms1) ++ reads_account (memoryController ms)).
    rewrite <- A1. change (transactions_of DATA_READ (pendingTransactions ms1) ++ reads_account mc1)
      with (channel_reads ms1). rewrite <- Hr2. unfold channel_reads at 2. rewrite <- A3. done.
  - rewrite <- Hw. change (channel_writes ms) with
      (transactions_of DATA_WRITE (pendingTransactions ms1) ++ writes_account (memoryController ms)).
    rewrite <- A1'. change (transactions_of DATA_WRITE (pendingTransactions ms1) ++ writes_account mc1)
      with (channel_writes ms1). rewrite <- Hw2. unfold channel_writes at 2. rewrite <- A3'. done.
Qed.
End PowerStages.
