(* ===== verification/ChannelSafety.v ===== *)
(** * A memory channel is safe and loses nothing

    From its construction on, a channel of a well-formed configuration accepts
    any sequence of requests and cycles without faulting: no bus collision, no
    command a rank refuses, no access out of range, no read without a pending
    transaction. Every accepted request is, at any time, either reported by
    exactly one callback or still inside. *)

From stdpp Require Import gmap.
From S2P Require Import Prelude.
From S2P Require Import DramConfig.
From S2P Require Import Pipe.
From S2P Require Import AddressMapping.
From S2P Require Import BusTypes.
From S2P Require Import DramRank.
From S2P Require Import RankSafety.
From S2P Require Import CommandQueue.
From S2P Require Import MemoryController.
From S2P Require Import BankSim.
From S2P Require Import QueueInv.
From S2P Require Import PopSpec.
From S2P Require Import ControllerInv.
From S2P Require Import MemorySystem.
From S2P Require Import ControllerStages.
From S2P Require Import IssueStages.
From S2P Require Import PowerStages.

Section Channel.
Context {cfg : Cfg}.
Hypothesis Henv : env_ok.

Let Hok : cfg_ok cfg := ev_cfg Henv.

(** ** The initial state *)

Lemma zget_replicate {A} n (x : A) i : 0 <= i < n -> zget (replicate (Z.to_nat n) x) i = Some x.
Proof. intros Hi. apply zget_lookup. split; [lia|]. apply lookup_replicate. split; [done | lia]. Qed.

Lemma zget_zrange n i : 0 <= i < n -> zget (zrange n) i = Some i.
Proof.
  intros Hi. apply zget_lookup. split; [lia|]. unfold zrange. rewrite list_lookup_fmap, lookup_seq_lt by lia.
  cbn. f_equal. lia.
Qed.

Lemma initial_queues_ok : queues_ok initial_queues /\ mjoin (mjoin initial_queues) = [].
Proof.
  pose proof (ranks_bound Henv). pose proof (banks_bound Henv).
  assert (1 <= numBankQueues) as Hn by (unfold numBankQueues; destruct queuingStructure; lia).
  split; [split|].
  - unfold initial_queues. by rewrite zlen_fmap, zlen_zrange by lia.
  - apply Forall_fmap, Forall_forall. intros r Hr%elem_of_zrange. cbn. rewrite zlen_replicate; nia.
  - apply Forall_fmap, Forall_forall. intros r Hr. cbn. apply Forall_replicate.
    split; [|constructor]. pose proof (ok_cmd_queue _ Hok). unfold zlen. cbn. lia.
  - unfold initial_queues. induction (zrange NUM_RANKS) as [|r rs IH]; [done|]. cbn [fmap list_fmap].
    rewrite join_cons, join_app, IH, app_nil_r. by induction (Z.to_nat _).
Qed.

Lemma CommandQueue_new_ok : exists cq, CommandQueue_new = Ok cq /\ cq_inv cq /\
  cq_packets cq = [] /\ cq_currentClockCycle cq = 0.
Proof.
  pose proof (ranks_bound Henv). pose proof (banks_bound Henv).
  destruct initial_queues_ok as [Hq He].
  unfold CommandQueue_new. replace (FRFCFS && _) with false.
  2:{ destruct FRFCFS eqn:E; [|done]. rewrite bool_decide_true; [done|]. by apply (ok_frfcfs _ Hok). }
  eexists. split; [reflexivity|]. split; [|by split].
  constructor; cbn; try lia; try done; try (apply table_per_bank; lia).
  by rewrite zlen_replicate by lia.
Qed.

Lemma MemorySystem_new_ok id :
  exists ms, MemorySystem_new id = Ok ms /\ channel_inv 0 [] [] (RegisterCallbacks true true ms).
Proof.
  pose proof (ranks_bound Henv) as Hnr. pose proof (banks_bound Henv) as Hnb.
  destruct CommandQueue_new_ok as (cq & Ecq & Hcq & Hpk & Hclk).
  unfold MemorySystem_new, MemoryController_new. rewrite Ecq. cbn [mbind Res_bind].
  eexists. split; [reflexivity|].
  assert (NUM_RANKS * NUM_BANKS = u32 (NUM_RANKS * NUM_BANKS)) as Hrb
    by (symmetry; apply u32_small; unfold in_u32; nia).
  assert (reads_of_ranks ((fun i => Rank_setId i Rank_new) <$> zrange NUM_RANKS) = []) as Hnone
    by (unfold reads_of_ranks; by induction (zrange NUM_RANKS)).
  constructor; try done; [| unfold channel_writes, writes_account, queued_writes; cbn; by rewrite Hpk].
  constructor; cbn [memoryController ranks RegisterCallbacks]; try done.
  - constructor; cbn; rewrite ?zlen_fmap, ?zlen_zrange, ?zlen_replicate by nia; try done;
      apply table_per_bank; lia.
  - cbn. by rewrite zlen_fmap, zlen_zrange by lia.
  - cbn. lia.
  - intros i Hi. exists false, (replicate (Z.to_nat NUM_BANKS) BankState_new), (Rank_setId i Rank_new).
    cbn. unfold per_bank. rewrite zget_fmap, zget_zrange, !zget_replicate by done.
    repeat (split; [done|]). split; [|split; [done|]].
    + constructor; cbn; try done; [by apply Forall_replicate|].
      apply Forall2_replicate. apply bank_rel_initial.
    + pose proof (latency_bounds Hok). constructor; cbn; try done.
      * apply pipe_empty. apply (burst_pos Hok).
      * lia.
      * by apply Forall_replicate.
  - pose proof (latency_bounds Hok). constructor; cbn; try done.
    + apply pipe_empty. apply (burst_pos Hok).
    + lia.
    + intros i j m Hm [Hs _]. exfalso. unfold zget2 in Hm.
      destruct (zget (per_bank BankState_new) i) as [row|] eqn:Er; [|done]. cbn in Hm.
      apply zget_lookup in Er as [_ Er%list_elem_of_lookup_2], Hm as [_ Hm%list_elem_of_lookup_2].
      apply elem_of_replicate in Er as [-> _]. by apply elem_of_replicate in Hm as [-> _].
  - unfold reads_under_way. match goal with |- context [reads_of_ranks ?r] =>
      change (reads_of_ranks r) with (reads_of_ranks ((fun i => Rank_setId i Rank_new) <$> zrange NUM_RANKS)) end.
    rewrite Hnone. unfold queued_reads. cbn. by rewrite Hpk.
Qed.

(** ** Runs *)

Definition op_ok (op : MemOp) : Prop :=
  match op with OpAdd _ addr _ _ => in_u64 addr | OpUpdate => True end.

Definition op_key (w : bool) (op : MemOp) : option Key :=
  match op with
  | OpAdd w' addr st si => if eqb w' w then Some (addr, st, si) else None
  | OpUpdate => None
  end.

(** The reads and the writes a run asks for. *)
Definition reads_asked (ops : list MemOp) : list Key := omap (op_key false) ops.
Definition writes_asked (ops : list MemOp) : list Key := omap (op_key true) ops.

Definition is_update (op : MemOp) : bool := match op with OpUpdate => true | _ => false end.

Fixpoint cycles (ops : list MemOp) : Z :=
  match ops with [] => 0 | op :: ops' => (if is_update op then 1 else 0) + cycles ops' end.

Lemma cycles_nonneg ops : 0 <= cycles ops.
Proof. induction ops as [|[] ops IH]; cbn; lia. Qed.

Lemma MemorySystem_run_ok ops : forall t rds wrs ms,
  Forall op_ok ops -> 0 <= t -> t + cycles ops <= 2 ^ 62 -> channel_inv t rds wrs ms ->
  exists ms', MemorySystem_run ms ops = Ok ms' /\
    channel_inv (t + cycles ops) (reads_asked ops ++ rds) (writes_asked ops ++ wrs) ms'.
Proof.
  unfold reads_asked, writes_asked, MemorySystem_run.
  induction ops as [|op ops IH]; intros t rds wrs ms Hops Ht Hb Hi; cbn.
  { exists ms. split; [done|]. by rewrite Z.add_0_r. }
  apply Forall_cons in Hops as [Hop Hops]. pose proof (cycles_nonneg ops).
  destruct op as [w addr st si|]; cbn [is_update cycles MemorySystem_op mbind Res_bind] in *.
  - destruct (IH t (add_key w false addr st si ++ rds) (add_key w true addr st si ++ wrs)
      (MemorySystem_addTransaction ms w addr st si).2) as (ms' & -> & [G1 G2 G3 G4 G5]);
      [done | done | lia | by apply MemorySystem_addTransaction_ok |].
    exists ms'. split; [done|]. rewrite Z.add_0_l. constructor; try done.
    + rewrite G4. unfold add_key. destruct w; cbn; solve_Permutation.
    + rewrite G5. unfold add_key. destruct w; cbn; solve_Permutation.
  - destruct (MemorySystem_update_ok Henv t rds wrs ms) as (ms1 & -> & Hi1); [lia | done |]. cbn.
    destruct (IH (t + 1) rds wrs ms1) as (ms' & -> & Hi'); [done | lia | lia | done |].
    exists ms'. split; [done|]. by rewrite Z.add_assoc.
Qed.

(** A fresh channel with its callbacks registered. *)
Definition channel (id : Z) : Res MemorySystem :=
  ms ← MemorySystem_new id; Ok (RegisterCallbacks true true ms).

Lemma channel_run id ops :
  Forall op_ok ops -> cycles ops <= 2 ^ 62 ->
  exists ms, channel id ≫= (fun ms => MemorySystem_run ms ops) = Ok ms /\
    channel_inv (cycles ops) (reads_asked ops) (writes_asked ops) ms.
Proof.
  intros Hops Hb. unfold channel. destruct (MemorySystem_new_ok id) as (ms0 & -> & Hi0). cbn.
  destruct (MemorySystem_run_ok ops 0 [] [] _ Hops ltac:(lia) ltac:(lia) Hi0) as (ms & -> & Hi).
  exists ms. split; [done|]. by rewrite !app_nil_r in Hi.
Qed.
End Channel.

(** ** Properties *)

(** C6: a channel never faults. Built for a well-formed configuration, it
    answers every sequence of requests (64-bit addresses) and [update] calls,
    in any order and for up to 2^62 cycles: no bus collision, no command that a
    rank rejects, no index out of range, no failed assertion, no returned read
    without a pending transaction. Its clock has advanced once per update. *)
Theorem channel_never_faults (cfg : Cfg) id ops :
  env_ok -> Forall op_ok ops -> cycles ops <= 2 ^ 62 ->
  exists ms, channel id ≫= (fun ms => MemorySystem_run ms ops) = Ok ms /\
    mc_currentClockCycle (memoryController ms) = cycles ops.
Proof.
  intros Henv Hops Hb. destruct (channel_run Henv id ops Hops Hb) as (ms & -> & Hi).
  exists ms. split; [done|]. apply (cv_clock _ _ _ _ _ _ _ _ (ch_ctrl _ _ _ _ Hi)).
Qed.

(** C7: no read is lost, duplicated or made up. After any run, the reads asked
    for are exactly those the read callback has reported plus those waiting in
    the two transaction queues or pending in the controller, each with the
    address and the sender it came with. *)
Theorem channel_conserves_reads (cfg : Cfg) id ops :
  env_ok -> Forall op_ok ops -> cycles ops <= 2 ^ 62 ->
  exists ms, channel id ≫= (fun ms => MemorySystem_run ms ops) = Ok ms /\
    reads_asked ops ≡ₚ
      reads_done (memoryController ms)
      ++ (tr_key <$> pendingReadTransactions (memoryController ms))
      ++ transactions_of DATA_READ (transactionQueue (memoryController ms))
      ++ transactions_of DATA_READ (pendingTransactions ms).
Proof.
  intros Henv Hops Hb. destruct (channel_run Henv id ops Hops Hb) as (ms & -> & Hi).
  exists ms. split; [done|]. etransitivity; [symmetry; apply (ch_reads _ _ _ _ Hi)|].
  unfold channel_reads, reads_account. solve_Permutation.
Qed.

(** C8: no write is lost, duplicated or made up: the writes asked for are those
    the write callback has reported plus those still queued as transactions, as
    commands, or as data waiting for or crossing the data bus. *)
Theorem channel_conserves_writes (cfg : Cfg) id ops :
  env_ok -> Forall op_ok ops -> cycles ops <= 2 ^ 62 ->
  exists ms, channel id ≫= (fun ms => MemorySystem_run ms ops) = Ok ms /\
    let mc := memoryController ms in
    writes_asked ops ≡ₚ
      writes_done mc
      ++ (packet_key <$> opt_list (mc_outgoingDataPacket mc)) ++ (packet_key <$> writeDataToSend mc)
      ++ queued_writes (commandQueue mc)
      ++ transactions_of DATA_WRITE (transactionQueue mc)
      ++ transactions_of DATA_WRITE (pendingTransactions ms).
Proof.
  intros Henv Hops Hb. destruct (channel_run Henv id ops Hops Hb) as (ms & -> & Hi).
  exists ms. split; [done|]. etransitivity; [symmetry; apply (ch_writes _ _ _ _ Hi)|].
  unfold channel_writes, writes_account. rewrite fmap_app. solve_Permutation.
Qed.

(** C9: the controller's bank states predict the ranks'. In every state a run
    reaches, each rank agrees with the controller on being powered down, its
    banks are in the states the controller believes (one cycle late, and not
    counting the command still on the bus, which the rank will accept), and
    none of its timing constraints is later than the controller's. *)
Theorem controller_refines_ranks (cfg : Cfg) id ops :
  env_ok -> Forall op_ok ops -> cycles ops <= 2 ^ 62 ->
  exists ms, channel id ≫= (fun ms => MemorySystem_run ms ops) = Ok ms /\
    forall i, 0 <= i < NUM_RANKS -> exists pd mb r,
      zget (powerDown (memoryController ms)) i = Some pd /\
      zget (bankStates (memoryController ms)) i = Some mb /\
      zget (ranks ms) i = Some r /\
      isPowerDown r = pd /\
      match cmd_for (mc_outgoingCmdPacket (memoryController ms)) i with
      | None => Forall2 (bank_rel (cycles ops - 1)) mb (rk_bankStates r)
      | Some p =>
          cmd_legal (cycles ops) p (rk_bankStates r) /\
          Forall2 (bank_rel (cycles ops - 1)) mb (rank_banks_after (cycles ops) p (rk_bankStates r))
      end.
Proof.
  intros Henv Hops Hb. destruct (channel_run Henv id ops Hops Hb) as (ms & -> & Hi).
  exists ms. split; [done|]. intros i Hr.
  destruct (cv_sim _ _ _ _ _ _ _ _ (ch_ctrl _ _ _ _ Hi) i Hr) as (pd & mb & r & F1 & F2 & F3 & [F4 _ _ F5] & _).
  exists pd, mb, r. repeat (split; [done|]). unfold banks_rel in F5.
  replace (cycles ops - 1 + 1) with (cycles ops) in F5 by lia.
  destruct (cmd_for _ i); [|done]. split; apply F5.
Qed.

(** The pending-read list is exactly the reads under way. In every state a
    run reaches, the addresses of the controller's pending reads are those
    found in the command queues, on the command bus, in the ranks, and among
    the returned data, with multiplicity; so returned data always matches. *)
Theorem pending_reads_are_under_way (cfg : Cfg) id ops :
  env_ok -> Forall op_ok ops -> cycles ops <= 2 ^ 62 ->
  exists ms, channel id ≫= (fun ms => MemorySystem_run ms ops) = Ok ms /\
    tr_address <$> pendingReadTransactions (memoryController ms) ≡ₚ
      queued_reads (commandQueue (memoryController ms))
      ++ command_reads (mc_outgoingCmdPacket (memoryController ms))
      ++ reads_of_ranks (ranks ms) ++ (tr_address <$> returnTransaction (memoryController ms)).
Proof.
  intros Henv Hops Hb. destruct (channel_run Henv id ops Hops Hb) as (ms & -> & Hi).
  exists ms. split; [done|]. symmetry. apply (cv_reads _ _ _ _ _ _ _ _ (ch_ctrl _ _ _ _ Hi)).
Qed.

(** C10: data-bus occupancy. In every state a run reaches, the write data
    waiting for the bus is spaced by at least a burst and the bus is free when
    its turn comes, and the same holds of the read data of every rank. *)
Theorem data_buses_never_collide (cfg : Cfg) id ops :
  env_ok -> Forall op_ok ops -> cycles ops <= 2 ^ 62 ->
  exists ms, channel id ≫= (fun ms => MemorySystem_run ms ops) = Ok ms /\
    pipe_ok (BL / 2) (writeDataCountdown (memoryController ms)) (write_busy (memoryController ms)) /\
    forall r, r ∈ ranks ms -> pipe_ok (BL / 2) (readReturnCountdown r) (rank_busy r).
Proof.
  intros Henv Hops Hb. destruct (channel_run Henv id ops Hops Hb) as (ms & -> & Hi).
  exists ms. split; [done|]. pose proof (ch_ctrl _ _ _ _ Hi) as Hc.
  split; [apply (wr_pipe _ _ _ (cv_write _ _ _ _ _ _ _ _ Hc))|].
  intros r Hr. pose proof (sim_ranks_Forall _ _ _ _ _ _ _ _ Hc) as HF. rewrite Forall_forall in HF.
  apply (rd_pipe _ _ _ (HF r Hr)).
Qed.

(** ** Witnesses *)

Definition sample_ops : list MemOp :=
  [OpAdd false 4096 0 1; OpAdd true 8192 1 2; OpUpdate; OpAdd false 64 0 3] ++ replicate 60 OpUpdate.

Lemma DDR3_env_ok : @env_ok DDR3_micron_32M_8B_x8_sg15.
Proof. constructor; [apply DDR3_micron_32M_8B_x8_sg15_ok | apply DDR3_geometry_ok]. Qed.

Lemma sample_ops_ok : Forall op_ok sample_ops.
Proof.
  unfold sample_ops. apply Forall_app. split; [|by apply Forall_replicate].
  repeat constructor; cbn; lia.
Qed.

Lemma sample_cycles : cycles sample_ops <= 2 ^ 62.
Proof. by vm_compute. Qed.

Lemma channel_never_faults_witness : exists ms,
  @channel DDR3_micron_32M_8B_x8_sg15 0 ≫= (fun ms => @MemorySystem_run DDR3_micron_32M_8B_x8_sg15 ms sample_ops)
    = Ok ms /\ mc_currentClockCycle (memoryController ms) = 61.
Proof.
  exact (channel_never_faults DDR3_micron_32M_8B_x8_sg15 0 sample_ops DDR3_env_ok sample_ops_ok sample_cycles).
Defined.

Lemma channel_conserves_reads_witness : exists ms,
  @channel DDR3_micron_32M_8B_x8_sg15 0 ≫= (fun ms => @MemorySystem_run DDR3_micron_32M_8B_x8_sg15 ms sample_ops)
    = Ok ms /\
  [(4096, 0, 1); (64, 0, 3)] ≡ₚ
      reads_done (memoryController ms)
      ++ (tr_key <$> pendingReadTransactions (memoryController ms))
      ++ transactions_of DATA_READ (transactionQueue (memoryController ms))
      ++ transactions_of DATA_READ (pendingTransactions ms).
Proof.
  exact (channel_conserves_reads DDR3_micron_32M_8B_x8_sg15 0 sample_ops DDR3_env_ok sample_ops_ok sample_cycles).
Defined.

Lemma channel_conserves_writes_witness : exists ms,
  @channel DDR3_micron_32M_8B_x8_sg15 0 ≫= (fun ms => @MemorySystem_run DDR3_micron_32M_8B_x8_sg15 ms sample_ops)
    = Ok ms.
Proof.
  destruct (channel_conserves_writes DDR3_micron_32M_8B_x8_sg15 0 sample_ops DDR3_env_ok sample_ops_ok sample_cycles)
    as (ms & H & _). exists ms. exact H.
Defined.

Lemma controller_refines_ranks_witness : exists ms,
  @channel DDR3_micron_32M_8B_x8_sg15 0 ≫= (fun ms => @MemorySystem_run DDR3_micron_32M_8B_x8_sg15 ms sample_ops)
    = Ok ms /\ exists pd r, zget (powerDown (memoryController ms)) 0 = Some pd /\
      zget (ranks ms) 0 = Some r /\ isPowerDown r = pd.
Proof.
  destruct (controller_refines_ranks DDR3_micron_32M_8B_x8_sg15 0 sample_ops DDR3_env_ok sample_ops_ok sample_cycles)
    as (ms & H & Hr).
  destruct (Hr 0 ltac:(cbn; lia)) as (pd & mb & r & F1 & _ & F3 & F4 & _).
  exists ms. split; [exact H|]. exists pd, r. repeat split; assumption.
Defined.

Lemma pending_reads_are_under_way_witness : exists ms,
  @channel DDR3_micron_32M_8B_x8_sg15 0 ≫= (fun ms => @MemorySystem_run DDR3_micron_32M_8B_x8_sg15 ms sample_ops)
    = Ok ms /\
    tr_address <$> pendingReadTransactions (memoryController ms) ≡ₚ
      queued_reads (commandQueue (memoryController ms))
      ++ command_reads (mc_outgoingCmdPacket (memoryController ms))
      ++ reads_of_ranks (ranks ms) ++ (tr_address <$> returnTransaction (memoryController ms)).
Proof.
  exact (pending_reads_are_under_way DDR3_micron_32M_8B_x8_sg15 0 sample_ops DDR3_env_ok sample_ops_ok sample_cycles).
Defined.

Lemma data_buses_never_collide_witness : exists ms,
  @channel DDR3_micron_32M_8B_x8_sg15 0 ≫= (fun ms => @MemorySystem_run DDR3_micron_32M_8B_x8_sg15 ms sample_ops)
    = Ok ms.
Proof.
  destruct (data_buses_never_collide DDR3_micron_32M_8B_x8_sg15 0 sample_ops DDR3_env_ok sample_ops_ok sample_cycles)
    as (ms & H & _). exists ms. exact H.
Defined.
