(* ===== verification/QueueTheorems.v ===== *)
(** * What the command queue guarantees

    Properties of the scheduler seen from outside: what [pop] may hand out,
    the four-activate window, fairness of the round robin, room in the queues,
    and the equivalence of the two open-page selection policies. *)

From S2P Require Import Prelude.
From S2P Require Import DramConfig.
From S2P Require Import Pipe.
From S2P Require Import AddressMapping.
From S2P Require Import BusTypes.
From S2P Require Import DramRank.
From S2P Require Import RankSafety.
From S2P Require Import CommandQueue.
From S2P Require Import MemoryController.
From S2P Require Import BankSim.
From S2P Require Import QueueInv.
From S2P Require Import PopSpec.
From S2P Require Import ControllerInv.
From S2P Require Import MemorySystem.
From S2P Require Import ChannelSafety.

(** ** The four-activate window *)

Section Window.
Context {cfg : Cfg}.

(** The counters of one rank after the outcomes [h], newest first. *)
Definition is_activate_of (i : Z) (o : option BusPacket) : bool :=
  match o with
  | Some p => bool_decide (busPacketType p = ACTIVATE) && bool_decide (i = bp_rank p)
  | None => false
  end.

Fixpoint window (i : Z) (h : list (option BusPacket)) : list Z :=
  match h with
  | [] => []
  | o :: h' => tFAW_tick (window i h') ++ (if is_activate_of i o then [tFAW] else [])
  end.

Definition activates (i : Z) (h : list (option BusPacket)) : nat :=
  length (filter (fun o => is_activate_of i o = true) h).

(** Counters above a threshold. *)
Definition above (x : Z) (w : list Z) : nat := length (filter (fun c => x < c) w).

Lemma above_app x w v : above x (w ++ v) = (above x w + above x v)%nat.
Proof. unfold above. by rewrite filter_app, length_app. Qed.

Lemma above_cons x c w : above x (c :: w) = ((if bool_decide (x < c)%Z then 1 else 0) + above x w)%nat.
Proof.
  unfold above. rewrite filter_cons. destruct (decide (x < c)) as [H|H].
  - by rewrite bool_decide_true.
  - by rewrite bool_decide_false.
Qed.

Lemma above_all x w : Forall (fun c => x < c) w -> above x w = length w.
Proof. induction 1 as [|c w Hc _ IH]; [done|]. rewrite above_cons, IH, bool_decide_true by done. done. Qed.

(** Well-formed counters: positive, at most [tFAW], increasing. *)
Definition window_ok (w : list Z) : Prop := spaced 1 w /\ Forall (fun c => 1 <= c <= tFAW) w.

Lemma fmap_pred_small w : Forall (fun c => 1 <= c <= tFAW) w -> tFAW < 65536 ->
  (fun c => u32 (c - 1)) <$> w = (fun c => c - 1) <$> w.
Proof.
  intros HF Ht. apply list_fmap_ext. intros i c Hc. rewrite Forall_lookup in HF. specialize (HF _ _ Hc).
  apply u32_small. unfold in_u32. cbv beta in *. lia.
Qed.

Lemma above_tick x w : window_ok w -> tFAW < 65536 -> 0 <= x -> above x (tFAW_tick w) = above (x + 1) w.
Proof.
  intros [Hs HF] Ht Hx. unfold tFAW_tick. rewrite fmap_pred_small by done.
  assert (forall v, above x ((fun c => c - 1) <$> v) = above (x + 1) v) as Hmap.
  { induction v as [|c v IH]; [done|]. rewrite fmap_cons, !above_cons, IH.
    by rewrite (bool_decide_ext (x < c - 1) (x + 1 < c)) by lia. }
  destruct w as [|c w]; [done|]. rewrite fmap_cons. case_bool_decide as Hc; [|exact (Hmap (c :: w))].
  rewrite Hmap, above_cons, bool_decide_false by lia. done.
Qed.

Lemma window_tick_ok w : window_ok w -> 1 <= tFAW < 65536 ->
  window_ok (tFAW_tick w) /\ Forall (fun c => c < tFAW) (tFAW_tick w).
Proof.
  intros [Hs HF] Ht. unfold tFAW_tick. rewrite fmap_pred_small by (done || lia).
  destruct w as [|c w]; [split; [split|]; constructor|]. cbn.
  pose proof (spaced_above 1 ltac:(lia) c w Hs) as Ha. apply Forall_cons in HF as [Hc HF].
  assert (spaced 1 ((fun c => c - 1) <$> c :: w)) as Hs' by exact (spaced_pred 1 (c :: w) Hs).
  assert (Forall (fun c => c < tFAW) ((fun c => c - 1) <$> w)) as Hlt.
  { apply Forall_fmap. eapply Forall_impl; [exact HF|]. cbn. lia. }
  assert (Forall (fun c => 1 <= c <= tFAW) ((fun c => c - 1) <$> w)) as Hr.
  { apply Forall_fmap. apply Forall_forall. intros d Hd. rewrite Forall_forall in HF, Ha.
    specialize (HF _ Hd). specialize (Ha _ Hd). cbn in *. lia. }
  case_bool_decide.
  - split; [split; [by eapply spaced_tail | done] | done].
  - split; [split; [done|] |]; constructor; done || lia.
Qed.

Lemma window_push_ok w : window_ok w -> Forall (fun c => c < tFAW) w -> 1 <= tFAW -> window_ok (w ++ [tFAW]).
Proof.
  intros [Hs HF] Hlt Ht. split.
  - clear HF. induction w as [|c [|c' w] IH]; cbn in *; [done| |].
    + apply (proj1 (Forall_singleton _ _)) in Hlt. cbv beta in Hlt. split; [lia | done].
    + apply Forall_cons in Hlt as [? Hlt]. destruct Hs. split; [done | by apply IH].
  - apply Forall_app. split; [done|]. apply Forall_singleton. lia.
Qed.

Lemma window_wf i h : 1 <= tFAW < 65536 -> window_ok (window i h).
Proof.
  intros Ht. induction h as [|o h IH]; cbn; [split; constructor|].
  destruct (window_tick_ok _ IH Ht) as [H1 H2].
  destruct (is_activate_of i o); [apply window_push_ok; [done | done | lia] | by rewrite app_nil_r].
Qed.

(** The counters above [tFAW - j] are the activates of the last [j] pops. *)
Lemma window_counts i h j :
  1 <= tFAW < 65536 -> Z.of_nat j <= tFAW -> above (tFAW - Z.of_nat j) (window i h) = activates i (take j h).
Proof.
  intros Ht. revert j. induction h as [|o h IH]; intros j Hj; [by destruct j|].
  destruct j as [|j].
  { replace (tFAW - Z.of_nat 0) with tFAW by lia. pose proof (window_wf i (o :: h) Ht) as [_ HF].
    transitivity 0%nat; [|done].
    induction HF as [|c w Hc _ IHw]; [done|]. rewrite above_cons, IHw, bool_decide_false by lia. done. }
  cbn [take window]. rewrite above_app, above_tick by (apply window_wf || lia; done).
  replace (tFAW - Z.of_nat (S j) + 1) with (tFAW - Z.of_nat j) by lia. rewrite IH by lia.
  unfold activates. rewrite filter_cons. destruct (is_activate_of i o) eqn:E.
  - rewrite decide_True by done. unfold above. rewrite filter_cons, decide_True by lia. cbn. lia.
  - rewrite decide_False by done. cbn. lia.
Qed.
End Window.

Section Traces.
Context {cfg : Cfg}.

(** The queue over time: between two calls of [pop], which see any bank
    states, the controller may enqueue, request refreshes and advance the
    clock, but never touches the window. The outcomes are newest first. *)
Inductive pop_trace (cq0 : CommandQueue) : list (option BusPacket) -> CommandQueue -> Prop :=
| trace_start : pop_trace cq0 [] cq0
| trace_pop h cq cq1 banks o cq2 :
    pop_trace cq0 h cq -> cq_inv cq1 -> tFAWCountdown cq1 = tFAWCountdown cq -> table banks ->
    pop banks cq1 = Ok (o, cq2) -> pop_trace cq0 (o :: h) cq2.

Hypothesis Henv : env_ok.

Lemma pop_inv banks cq o cq' :
  table banks -> cq_inv cq -> pop banks cq = Ok (o, cq') -> pop_ok banks cq o cq'.
Proof.
  intros Hb Hcq Hp.
  destruct (pop_total banks Hb (ranks_bound Henv) (banks_bound Henv) cq Hcq) as (o' & cq1 & E & H).
  rewrite Hp in E. by injection E as <- <-.
Qed.

Lemma trace_window cq0 h cq i :
  pop_trace cq0 h cq -> zget (tFAWCountdown cq0) i = Some [] -> 0 <= i ->
  zget (tFAWCountdown cq) i = Some (window i h) /\ (length (window i h) <= 4)%nat.
Proof.
  intros Htr H0 Hi. induction Htr as [|h cq cq1 banks o cq2 Htr IH Hcq Ef Hb Hp]; [split; [done | cbn; lia]|].
  destruct IH as [E Hl]. pose proof (pop_inv _ _ _ _ Hb Hcq Hp) as [_ _ _ Hfaw Hw].
  assert (length (tFAW_tick (window i h)) <= 4)%nat as Hl'.
  { unfold tFAW_tick. destruct (window i h) as [|c w]; [cbn; lia|]. cbn in *.
    case_bool_decide; cbn; rewrite ?length_fmap; lia. }
  split.
  - rewrite Hfaw, zget_imap, Ef, E. cbn. rewrite Z2Nat.id by done.
    destruct o as [p|]; cbn; [|by rewrite app_nil_r].
    destruct (_ && _); [done | by rewrite app_nil_r].
  - cbn [window]. rewrite length_app. destruct (is_activate_of i o) eqn:Ea; [|cbn; lia].
    destruct o as [p|]; [|done]. cbn in Ea. apply andb_true_iff in Ea as [Ea1 Ea2].
    apply bool_decide_eq_true in Ea1, Ea2. destruct (Hw Ea1) as (w & Ew & Hlt).
    rewrite Ef, <- Ea2, E in Ew. injection Ew as <-. unfold zlen in Hlt. cbn. lia.
Qed.
End Traces.

(** C14: the four-activate window. From empty windows, whatever bank states the
    scheduler sees and whatever is enqueued between its calls, among any [tFAW]
    consecutive calls of [pop] at most four activate a row of the same rank. *)
Theorem four_activate_window (cfg : Cfg) cq0 h cq i :
  env_ok -> pop_trace cq0 h cq -> zget (tFAWCountdown cq0) i = Some [] -> 0 <= i ->
  (activates i (take (Z.to_nat tFAW) h) <= 4)%nat.
Proof.
  intros Henv Htr H0 Hi. destruct (trace_window Henv _ _ _ _ Htr H0 Hi) as [_ Hl].
  pose proof (ok_tFAW _ (ev_cfg Henv)) as Ht.
  rewrite <- (window_counts i h (Z.to_nat tFAW) Ht ltac:(lia)).
  unfold above. etransitivity; [apply length_filter | exact Hl].
Qed.

(** C11: the contract of [pop]. On a well-formed queue and any bank states, it
    returns (its round-robin scans terminate) and keeps the queue well formed;
    a returned command is legal for the bank states shown to it (right state,
    timing constraint passed, row open), and it left its queue, alone or with
    the activate paired with it, or is a precharge or a refresh made up by the
    scheduler with all queues unchanged; without a command the queues are
    unchanged. *)
Theorem pop_contract (cfg : Cfg) banks cq :
  env_ok -> table banks -> cq_inv cq ->
  exists o cq', pop banks cq = Ok (o, cq') /\ cq_inv cq' /\
    match o with
    | Some p => legal_popped banks (cq_currentClockCycle cq) p /\ moved cq p cq'
    | None => queues cq' = queues cq
    end.
Proof.
  intros Henv Hb Hcq.
  destruct (pop_total banks Hb (ranks_bound Henv) (banks_bound Henv) cq Hcq) as (o & cq' & E & [H1 _ H2 _ _]).
  exists o, cq'. done.
Qed.

(** C30: FR-FCFS is FCFS. The priority searches of the FR-FCFS branch (CPU row
    hits, CPU requests, row hits) never decide: the last search runs whenever
    one of the three flags is unset, which is always, and overrides them, so
    the branch selects the packet FCFS selects. *)
Theorem frfcfs_selects_like_fcfs (cfg : Cfg) banks cq q :
  env_ok -> table banks -> cq_inv cq -> queue_ok q ->
  exists o, select_fcfs banks cq q = Ok o /\
    select_frfcfs banks cq q = Ok (search_result q (None, 0%nat) o).
Proof. intros Henv Hb Hcq Hq. by apply select_frfcfs_fcfs. Qed.

(** C29: the round robin is fair: from any bank of any rank it reaches every
    bank of every rank within one turn of [NUM_RANKS * NUM_BANKS] steps, and a
    full turn comes back to the start. *)
Theorem round_robin_visits_all (cfg : Cfg) r b r' b' :
  env_ok -> 0 <= r < NUM_RANKS -> 0 <= b < NUM_BANKS -> 0 <= r' < NUM_RANKS -> 0 <= b' < NUM_BANKS ->
  let next x := nextRankAndBank x.1 x.2 in
  (exists n, (n < Z.to_nat (NUM_RANKS * NUM_BANKS))%nat /\ Nat.iter n next (r, b) = (r', b')) /\
  Nat.iter (Z.to_nat (NUM_RANKS * NUM_BANKS)) next (r, b) = (r, b).
Proof.
  intros Henv Hr Hb Hr' Hb' next. pose proof (ranks_bound Henv) as Hnr. pose proof (banks_bound Henv) as Hnb.
  assert (forall n, let x := Nat.iter n next (r, b) in
    0 <= x.1 < NUM_RANKS /\ 0 <= x.2 < NUM_BANKS /\
    rr_pos x.1 x.2 = (rr_pos r b + Z.of_nat n) mod rr_size) as Hit.
  { induction n as [|n IH]; cbv zeta in *; [|change (Nat.iter (S n) next (r, b)) with (next (Nat.iter n next (r, b)))].
    - cbn. split; [done | split; [done|]]. rewrite Z.add_0_r, Z.mod_small; [done|]. by apply rr_pos_range.
    - destruct IH as (I1 & I2 & I3). revert I1 I2 I3. generalize (Nat.iter n next (r, b)).
      intros x I1 I2 I3. unfold next.
      pose proof (nextRankAndBank_spec Hnr Hnb _ _ I1 I2) as Hs.
      destruct (nextRankAndBank x.1 x.2) as [r1 b1]. destruct Hs as (S1 & S2 & S3). cbn.
      split; [done | split; [done|]]. rewrite S3, I3, Z.add_mod_idemp_l by (unfold rr_size; nia).
      f_equal. lia. }
  pose proof (rr_pos_range Hnr Hnb r b Hr Hb) as P. pose proof (rr_pos_range Hnr Hnb r' b' Hr' Hb') as P'.
  assert (forall n r2 b2, 0 <= r2 < NUM_RANKS -> 0 <= b2 < NUM_BANKS ->
    (rr_pos r b + Z.of_nat n) mod rr_size = rr_pos r2 b2 -> Nat.iter n next (r, b) = (r2, b2)) as Hinj.
  { intros n r2 b2 G1 G2 G3. destruct (Hit n) as (I1 & I2 & I3). cbv zeta in *.
    destruct (Nat.iter n next (r, b)) as [r1 b1]. cbn in *.
    destruct (rr_pos_inj Hnr Hnb r1 b1 r2 b2) as [-> ->]; congruence || done. }
  assert (rr_size = NUM_RANKS * NUM_BANKS /\ 0 < rr_size) as [Hsz Hpos] by (unfold rr_size; split; [done | nia]).
  split.
  - pose proof (Z.mod_pos_bound (rr_pos r' b' - rr_pos r b) rr_size Hpos) as Hm.
    exists (Z.to_nat ((rr_pos r' b' - rr_pos r b) mod rr_size)).
    split; [rewrite <- Hsz; apply Z2Nat.inj_lt; apply Hm || lia|].
    apply Hinj; [done..|]. rewrite Z2Nat.id by apply Hm. rewrite Z.add_mod_idemp_r by lia.
    replace (rr_pos r b + (rr_pos r' b' - rr_pos r b)) with (rr_pos r' b') by lia. by apply Z.mod_small.
  - apply Hinj; [done..|]. rewrite <- Hsz, Z2Nat.id by lia.
    rewrite <- Z.add_mod_idemp_r, Z.mod_same, Z.add_0_r by lia. by apply Z.mod_small.
Qed.

(** Room and enqueueing agree. On a well-formed queue [hasRoomFor] does not
    wrap around: it says yes exactly when [n] more commands fit; and after it
    said yes to one, [enqueue] appends the command to the queue of its bank
    without exiting, keeps the queue well formed, and touches no other queue. *)
Theorem enqueue_after_hasRoomFor (cfg : Cfg) cq p :
  env_ok -> cq_inv cq -> packet_ok p ->
  exists q, getCommandQueue cq (bp_rank p) (bp_bank p) = Ok q /\
    (forall n, 0 <= n -> hasRoomFor cq n (bp_rank p) (bp_bank p) = Ok (bool_decide (zlen q + n <= CMD_QUEUE_DEPTH))) /\
    (hasRoomFor cq 1 (bp_rank p) (bp_bank p) = Ok true ->
     exists cq', enqueue cq p = Ok cq' /\ cq_inv cq' /\
       getCommandQueue cq' (bp_rank p) (bp_bank p) = Ok (q ++ [p]) /\
       forall r i, ~ (bp_rank p = r /\ queue_index (bp_bank p) = i) ->
         zget2 (queues cq') r i = zget2 (queues cq) r i).
Proof.
  intros Henv Hcq Hp. pose proof Hp as (Hr & Hb & _). pose proof (ok_cmd_queue _ (ev_cfg Henv)) as Hd.
  destruct (getCommandQueue_ok cq _ _ (ci_queues _ Hcq) Hr Hb) as (q & E & Eq & Hok).
  exists q. split; [done|].
  assert (forall n, 0 <= n ->
    hasRoomFor cq n (bp_rank p) (bp_bank p) = Ok (bool_decide (zlen q + n <= CMD_QUEUE_DEPTH))) as Hroom.
  { intros n Hn. destruct (hasRoomFor_spec cq n _ _ (proj2 Hd) Hn Hcq Hr Hb) as (q' & Eq' & ->). rewrite Eq in Eq'. by injection Eq' as <-. }
  split; [exact Hroom|]. rewrite Hroom by lia. intros H. injection H as H. apply bool_decide_eq_true in H.
  destruct (enqueue_spec cq p q Hcq Hp Eq H) as (En & Hi & _ & Hg).
  eexists. split; [exact En|]. split; [done|]. split.
  - unfold getCommandQueue. by rewrite Hg.
  - intros r i Hne. unfold setCommandQueue. cbn. by apply zget2_zalter2_ne.
Qed.

(** ** Witnesses *)

Lemma sample_queue :
  exists cq, @CommandQueue_new DDR3_micron_32M_8B_x8_sg15 = Ok cq /\
    @cq_inv DDR3_micron_32M_8B_x8_sg15 cq /\ zget (tFAWCountdown cq) 0 = Some [].
Proof.
  destruct (CommandQueue_new_ok DDR3_env_ok) as (cq & E & H & _). exists cq. split; [exact E|]. split; [exact H|].
  cbn in E. injection E as <-. reflexivity.
Qed.

Lemma sample_banks : @table DDR3_micron_32M_8B_x8_sg15 _ (@per_bank DDR3_micron_32M_8B_x8_sg15 _ BankState_new).
Proof. apply table_per_bank; cbn; lia. Qed.

(** Five reads, each behind the ACTIVATE of its bank, all in one rank. *)
Definition sample_pair (bank : Z) : list BusPacket :=
  [BusPacket_new ACTIVATE (64 * bank) 0 7 0 bank 0; BusPacket_new READ (64 * bank) 0 7 0 bank 0].
Definition sample_packets : list BusPacket := sample_pair 0 ++ sample_pair 1 ++ sample_pair 2 ++ sample_pair 3 ++ sample_pair 4.

(** What [n] calls of [pop] give, newest first. *)
Fixpoint pops {cfg : Cfg} (banks : list (list BankState)) (n : nat) (cq : CommandQueue)
  : Res (list (option BusPacket) * CommandQueue) :=
  match n with
  | O => Ok ([], cq)
  | S n' => '(h, cq) ← pops banks n' cq; '(o, cq) ← pop banks cq; Ok (o :: h, cq)
  end.

Lemma pops_trace {cfg : Cfg} banks cq0 n : env_ok -> table banks -> cq_inv cq0 ->
  exists h cq, pops banks n cq0 = Ok (h, cq) /\ cq_inv cq /\ pop_trace cq0 h cq.
Proof.
  intros Henv Hb Hcq. induction n as [|n (h & cq & E & Hi & Htr)]; [exists [], cq0; split; [done | split; [done | apply trace_start]]|].
  destruct (pop_total banks Hb (ranks_bound Henv) (banks_bound Henv) cq Hi) as (o & cq' & E' & [H1 _ _ _ _]).
  exists (o :: h), cq'. split; [cbn [pops]; rewrite E; cbn; by rewrite E'|]. split; [done|].
  by apply (trace_pop cq0 h cq cq banks).
Qed.

(** Enqueueing what there is room for. *)
Lemma enqueue_all {cfg : Cfg} ps : forall cq cq',
  cq_inv cq -> Forall packet_ok ps -> foldM enqueue cq ps = Ok cq' -> cq_inv cq'.
Proof.
  induction ps as [|p ps IH]; intros cq cq' Hcq Hps; cbn [foldM]; [by intros [= <-]|].
  apply Forall_cons in Hps as [Hp Hps]. pose proof Hp as (Hr & Hb & _).
  destruct (getCommandQueue_ok cq _ _ (ci_queues _ Hcq) Hr Hb) as (q & E & Eq & _).
  destruct (decide (zlen q + 1 <= CMD_QUEUE_DEPTH)) as [Hroom|Hfull].
  - destruct (enqueue_spec cq p q Hcq Hp Eq Hroom) as (-> & Hi & _). by apply IH.
  - unfold enqueue. rewrite E. cbn. rewrite bool_decide_true; [discriminate|].
    rewrite zlen_app. change (zlen [p]) with 1. lia.
Qed.

#[local] Existing Instance DDR3_micron_32M_8B_x8_sg15.

Definition idle_banks : list (list BankState) := per_bank BankState_new.

Ltac packets_ok := repeat (apply Forall_cons_2; [split; [cbn; lia | split; [cbn; lia | done]]|]); apply Forall_nil_2.

Lemma loaded_queue :
  exists cq, (cq0 ← CommandQueue_new; foldM enqueue cq0 sample_packets) = Ok cq /\ cq_inv cq
             /\ zget (tFAWCountdown cq) 0 = Some [].
Proof.
  destruct sample_queue as (cq0 & E & Hcq0 & _).
  assert (match (cq0 ← CommandQueue_new; foldM enqueue cq0 sample_packets) with
          | Ok cq => bool_decide (zget (tFAWCountdown cq) 0 = Some []) | Err _ => false end = true) as H by by vm_compute.
  rewrite E in H |- *. change (Ok cq0 ≫= ?k) with (k cq0) in *; cbv beta in *.
  destruct (foldM enqueue cq0 sample_packets) as [cq|] eqn:Ef; [|discriminate]. exists cq.
  split; [done|]. split; [|exact (bool_decide_eq_true_1 _ H)].
  apply (enqueue_all sample_packets cq0); [done | | exact Ef]. packets_ok.
Qed.

(** Twenty calls on that queue: four ACTIVATEs, and the fifth waits. *)
Lemma four_activate_window_witness :
  exists cq0 h cq, pop_trace cq0 h cq /\ length h = 20%nat /\ (activates 0 (take (Z.to_nat tFAW) h) <= 4)%nat
                   /\ activates 0 h = 4%nat.
Proof.
  destruct loaded_queue as (cq0 & E & Hcq & Hw).
  destruct (pops_trace idle_banks cq0 20 DDR3_env_ok sample_banks Hcq) as (h & cq & Eh & _ & Htr).
  assert (match cq0 ← (cq0 ← CommandQueue_new; foldM enqueue cq0 sample_packets); pops idle_banks 20 cq0 with
          | Ok (h, _) => bool_decide (length h = 20%nat) && bool_decide (activates 0 h = 4%nat)
          | Err _ => false end = true) as H by by vm_compute.
  rewrite E in H. change (Ok cq0 ≫= ?k) with (k cq0) in H; cbv beta in H. rewrite Eh in H. apply andb_true_iff in H as [H1 H2].
  exists cq0, h, cq. split; [exact Htr|]. split; [exact (bool_decide_eq_true_1 _ H1)|].
  split; [|exact (bool_decide_eq_true_1 _ H2)].
  apply (four_activate_window DDR3_micron_32M_8B_x8_sg15 cq0 h cq 0 DDR3_env_ok Htr Hw). lia.
Defined.

(** The first ACTIVATE leaves the queue. *)
Lemma pop_contract_witness :
  exists cq p cq', pop idle_banks cq = Ok (Some p, cq') /\ cq_inv cq'
    /\ legal_popped idle_banks (cq_currentClockCycle cq) p /\ moved cq p cq' /\ busPacketType p = ACTIVATE.
Proof.
  destruct loaded_queue as (cq & E & Hcq & _).
  destruct (pop_contract DDR3_micron_32M_8B_x8_sg15 idle_banks cq DDR3_env_ok sample_banks Hcq) as (o & cq' & Ep & H1 & H2).
  assert (match cq0 ← (cq0 ← CommandQueue_new; foldM enqueue cq0 sample_packets); pop idle_banks cq0 with
          | Ok (Some p, _) => bool_decide (busPacketType p = ACTIVATE)
          | _ => false end = true) as H by by vm_compute.
  rewrite E in H. change (Ok cq ≫= ?k) with (k cq) in H; cbv beta in H. rewrite Ep in H. destruct o as [p|]; [|discriminate].
  exists cq, p, cq'. split; [exact Ep|]. split; [exact H1|]. split; [apply H2|]. split; [apply H2|].
  exact (bool_decide_eq_true_1 _ H).
Defined.

(** A queue where the order matters: a read of a closed row, one of an IP that
    hits the open row, and one of the CPU that hits it in another bank. The
    first search finds the CPU's, the packet that is selected is the IP's. *)
Definition open_banks : list (list BankState) :=
  per_bank (BankState_new <| currentBankState := RowActive |> <| openRowAddress := 7 |>).
Definition ip_hit : BusPacket := BusPacket_setSender 1 2 (BusPacket_new READ 128 1 7 0 0 0).
Definition cpu_hit : BusPacket := BusPacket_setSender 0 0 (BusPacket_new READ 192 2 7 0 1 0).
Definition mixed_queue : list BusPacket := [BusPacket_new READ 64 0 9 0 0 0; ip_hit; cpu_hit].

Lemma open_banks_table : table open_banks.
Proof. apply table_per_bank; cbn; lia. Qed.

Lemma frfcfs_selects_like_fcfs_witness :
  exists cq, CommandQueue_new = Ok cq
    /\ select_fcfs open_banks cq mixed_queue = Ok (Some (1%nat, ip_hit))
    /\ select_frfcfs open_banks cq mixed_queue = Ok (Some ip_hit, 1%nat)
    /\ frfcfs_cpu_row_hit open_banks cq mixed_queue = Ok (Some (2%nat, cpu_hit)).
Proof.
  destruct sample_queue as (cq & Ec & Hcq & _).
  destruct (frfcfs_selects_like_fcfs DDR3_micron_32M_8B_x8_sg15 open_banks cq mixed_queue DDR3_env_ok open_banks_table Hcq)
    as (o & Ef & E).
  { split; [vm_compute; discriminate | packets_ok]. }
  exists cq. split; [exact Ec|].
  assert (match cq ← CommandQueue_new; o ← select_fcfs open_banks cq mixed_queue;
                h ← frfcfs_cpu_row_hit open_banks cq mixed_queue; Ok (o, h) with
          | Ok (o, h) => bool_decide (o = Some (1%nat, ip_hit)) && bool_decide (h = Some (2%nat, cpu_hit))
          | Err _ => false end = true) as H by by vm_compute.
  rewrite Ec in H. change (Ok cq ≫= ?k) with (k cq) in H; cbv beta in H. rewrite Ef in H. change (Ok o ≫= ?k) with (k o) in H.
  destruct (frfcfs_cpu_row_hit open_banks cq mixed_queue) as [h|]; [|discriminate].
  apply andb_true_iff in H as [H1 H2]. apply bool_decide_eq_true_1 in H1, H2. subst o h.
  split; [exact Ef|]. split; [exact E | reflexivity].
Defined.

Lemma round_robin_visits_all_witness :
  exists n, Nat.iter n (fun x => @nextRankAndBank DDR3_micron_32M_8B_x8_sg15 x.1 x.2) (0, 3) = (0, 1).
Proof.
  destruct (round_robin_visits_all DDR3_micron_32M_8B_x8_sg15 0 3 0 1 DDR3_env_ok) as ((n & _ & E) & _);
    [cbn; lia..|]. exists n. exact E.
Defined.

Lemma enqueue_after_hasRoomFor_witness :
  exists cq, @hasRoomFor DDR3_micron_32M_8B_x8_sg15 cq 24 0 5 = Ok true.
Proof.
  destruct sample_queue as (cq & E & Hcq & _).
  destruct (enqueue_after_hasRoomFor DDR3_micron_32M_8B_x8_sg15 cq (BusPacket_new ACTIVATE 64 0 0 0 5 0) DDR3_env_ok Hcq)
    as (q & Eq & H & _).
  { repeat split; cbn; lia. }
  exists cq. pose proof (H 24 ltac:(lia)) as H24. cbn in H24. rewrite H24. cbn in E. injection E as <-.
  cbn in Eq. injection Eq as <-. reflexivity.
Defined.
