(* ===== verification/ClockDomain.v ===== *)
(** * Clock-domain crossing ([ClockDomain.cpp])

    Every cycle of the caller's clock [update] calls the other side zero or
    more times, so that the calls happen at the ratio [clock1 / clock2]. *)

From S2P Require Import Prelude.

Record ClockDomainCrosser := mkCrosser {
  clock1 : Z;
  clock2 : Z;
  counter1 : Z;
  counter2 : Z
}.

#[export] Instance eta_ClockDomainCrosser : Settable ClockDomainCrosser := fun r =>
  mkCrosser (clock1 r) (clock2 r) (counter1 r) (counter2 r).

#[export] Instance set_clock1 : Setter clock1 := ltac:(mk_setter).
#[export] Instance set_clock2 : Setter clock2 := ltac:(mk_setter).
#[export] Instance set_counter1 : Setter counter1 := ltac:(mk_setter).
#[export] Instance set_counter2 : Setter counter2 := ltac:(mk_setter).

(** The constructor without a ratio, and the one with two clocks. *)
Definition ClockDomainCrosser_default : ClockDomainCrosser := mkCrosser 1 1 0 0.
Definition ClockDomainCrosser_new (c1 c2 : Z) : ClockDomainCrosser := mkCrosser c1 c2 0 0.

Section Update.
Context {S : Type}.
(** The registered callback; it may fault. *)
Context (callback : S -> Res S).

(** [while (counter2 < counter1)]: [clock2 = 0] would never end. *)
Fixpoint cross_loop (fuel : nat) (x : ClockDomainCrosser) (s : S) : Res (ClockDomainCrosser * S) :=
  if bool_decide (counter2 x < counter1 x)
  then
    match fuel with
    | O => Err OutOfFuel
    | Datatypes.S fuel' =>
        let x := x <| counter2 ::= fun c => u64 (c + clock2 x) |> in
        s ← callback s;
        cross_loop fuel' x s
    end
  else Ok (x, s).

(** The rounds that close the gap between the counters; 1 if [clock2 = 0]. *)
Definition cross_fuel (x : ClockDomainCrosser) : nat :=
  Z.to_nat ((counter1 x - counter2 x) / clock2 x + 1).

Definition ClockDomainCrosser_update (x : ClockDomainCrosser) (s : S) : Res (ClockDomainCrosser * S) :=
  if bool_decide (clock1 x = clock2 x)
  then s ← callback s; Ok (x, s)
  else
    let x := x <| counter1 ::= fun c => u64 (c + clock1 x) |> in
    '(x, s) ← cross_loop (cross_fuel x) x s;
    Ok (if bool_decide (counter1 x = counter2 x)
        then x <| counter1 := 0 |> <| counter2 := 0 |>
        else x, s).

(** [n] cycles of the caller. *)
Fixpoint crosser_run (n : nat) (x : ClockDomainCrosser) (s : S) : Res (ClockDomainCrosser * S) :=
  match n with
  | O => Ok (x, s)
  | Datatypes.S n' => '(x, s) ← ClockDomainCrosser_update x s; crosser_run n' x s
  end.
End Update.

(** ** The calls of one cycle *)

(** [k] successful calls of the callback. *)
Inductive calls {S} (callback : S -> Res S) : nat -> S -> S -> Prop :=
| calls_0 s : calls callback 0 s s
| calls_S k s s1 s2 : callback s = Ok s1 -> calls callback k s1 s2 -> calls callback (Datatypes.S k) s s2.

Lemma calls_app {S} (cb : S -> Res S) k1 k2 s1 s2 s3 :
  calls cb k1 s1 s2 -> calls cb k2 s2 s3 -> calls cb (k1 + k2) s1 s3.
Proof. induction 1; cbn; eauto using calls_S. Qed.

(** A property the callback keeps without faulting. *)
Section Rate.
Context {S : Type} (callback : S -> Res S) (Inv : S -> Prop).
Hypothesis callback_ok : forall s, Inv s -> exists s', callback s = Ok s' /\ Inv s'.

Lemma cross_loop_spec fuel : forall x s,
  1 <= clock2 x -> 0 <= counter1 x -> 0 <= counter2 x -> counter1 x + clock2 x < 18446744073709551616 ->
  (counter1 x - counter2 x) / clock2 x + 1 <= Z.of_nat fuel -> Inv s ->
  exists k s', cross_loop callback fuel x s = Ok (x <| counter2 := counter2 x + Z.of_nat k * clock2 x |>, s') /\
    calls callback k s s' /\ Inv s' /\
    counter1 x <= counter2 x + Z.of_nat k * clock2 x /\
    (counter2 x < counter1 x + clock2 x -> counter2 x + Z.of_nat k * clock2 x < counter1 x + clock2 x).
Proof.
  induction fuel as [|fuel IH]; intros x s Hc2 H1 H2 Hb Hf Hi; cbn [cross_loop];
    (case_bool_decide as Hlt;
     [|exists 0%nat, s; split; [rewrite Z.add_0_r; by destruct x|];
       split; [constructor | split; [done | lia]]]).
  - exfalso. pose proof (Z.div_pos (counter1 x - counter2 x) (clock2 x)). lia.
  - destruct (callback_ok s Hi) as (s1 & Ecb & Hi1). cbn [mbind Res_bind]. rewrite Ecb. cbn [mbind Res_bind].
    assert (u64 (counter2 x + clock2 x) = counter2 x + clock2 x) as Eu by (apply u64_small; unfold in_u64; lia).
    set (x1 := x <| counter2 ::= fun c => u64 (c + clock2 x) |>).
    assert (counter2 x1 = counter2 x + clock2 x) as E2 by exact Eu.
    destruct (IH x1 s1) as (k & s' & E & Hcalls & Hi' & Hge & Hlt').
    + done.
    + done.
    + lia.
    + done.
    + rewrite E2. change (counter1 x1) with (counter1 x). change (clock2 x1) with (clock2 x).
      replace (counter1 x - (counter2 x + clock2 x)) with (counter1 x - counter2 x + (-1) * clock2 x) by lia.
      rewrite Z.div_add by lia. lia.
    + done.
    + exists (Datatypes.S k), s'. change (counter1 x1) with (counter1 x) in *. change (clock2 x1) with (clock2 x) in *.
      rewrite E2 in *. replace (counter2 x + Z.of_nat (Datatypes.S k) * clock2 x)
        with (counter2 x + clock2 x + Z.of_nat k * clock2 x) by lia.
      rewrite E. split; [by destruct x|]. split; [by eapply calls_S|]. split; [done|]. split; [done|].
      intros _. apply Hlt'. lia.
Qed.

(** The counters lag behind the totals [n * clock1] and [k * clock2] by the
    same amount, dropped when they meet. *)
Definition crosser_inv (c1 c2 n k : Z) (x : ClockDomainCrosser) : Prop :=
  clock1 x = c1 /\ clock2 x = c2 /\
  exists d, 0 <= d /\ counter1 x = n * c1 - d /\ counter2 x = k * c2 - d /\ 0 <= counter1 x /\ 0 <= counter2 x /\
    counter1 x <= counter2 x < counter1 x + c2.

Lemma crosser_step c1 c2 n k x s :
  1 <= c1 -> 1 <= c2 -> c1 <> c2 -> 0 <= n -> (n + 1) * c1 + c2 < 18446744073709551616 ->
  crosser_inv c1 c2 n k x -> Inv s ->
  exists j x' s', ClockDomainCrosser_update callback x s = Ok (x', s') /\ calls callback j s s' /\ Inv s' /\
    crosser_inv c1 c2 (n + 1) (k + Z.of_nat j) x'.
Proof.
  intros Hc1 Hc2 Hne Hn Hb (<- & <- & d & Hd & E1 & E2 & P1 & P2 & P3) Hi.
  unfold ClockDomainCrosser_update. rewrite bool_decide_false by done.
  assert (u64 (counter1 x + clock1 x) = counter1 x + clock1 x) as Eu by (apply u64_small; unfold in_u64; nia).
  set (x1 := x <| counter1 ::= fun c => u64 (c + clock1 x) |>).
  assert (counter1 x1 = counter1 x + clock1 x) as F1 by exact Eu.
  pose proof (eq_refl : counter2 x1 = counter2 x) as F2. pose proof (eq_refl : clock2 x1 = clock2 x) as F3.
  pose proof (eq_refl : clock1 x1 = clock1 x) as F4. clearbody x1.
  destruct (cross_loop_spec (cross_fuel x1) x1 s) as (j & s' & E & Hcalls & Hi' & Hge & Hlt);
    rewrite ?F1, ?F2, ?F3; try lia; try done.
  { unfold cross_fuel. rewrite F1, F2, F3. generalize ((counter1 x + clock1 x - counter2 x) / clock2 x). lia. }
  rewrite E. cbn [mbind Res_bind]. rewrite F1, F2, F3 in *.
  exists j. eexists. exists s'. split; [reflexivity|]. split; [done|]. split; [done|].
  destruct x1 as [a b c e]. cbn in F1, F2, F3, F4. subst a b c e. cbn.
  case_bool_decide as Heq; cbn.
  - split; [done|]. split; [done|]. exists (counter1 x + clock1 x + d). cbn. nia.
  - split; [done|]. split; [done|]. exists d. cbn. nia.
Qed.

Lemma crosser_run_spec c1 c2 n k x s m :
  1 <= c1 -> 1 <= c2 -> c1 <> c2 -> 0 <= n -> (n + Z.of_nat m) * c1 + c2 < 18446744073709551616 ->
  crosser_inv c1 c2 n k x -> Inv s ->
  exists j x' s', crosser_run callback m x s = Ok (x', s') /\ calls callback j s s' /\ Inv s' /\
    crosser_inv c1 c2 (n + Z.of_nat m) (k + Z.of_nat j) x'.
Proof.
  intros Hc1 Hc2 Hne. revert n k x s. induction m as [|m IH]; intros n k x s Hn Hb Hx Hi; cbn [crosser_run].
  { exists 0%nat, x, s. rewrite !Z.add_0_r. split; [done|]. by split; [constructor|]. }
  destruct (crosser_step c1 c2 n k x s) as (j1 & x1 & s1 & -> & Hcalls1 & Hi1 & Hx1); try done; [nia|].
  cbn [mbind Res_bind].
  destruct (IH (n + 1) (k + Z.of_nat j1) x1 s1) as (j2 & x2 & s2 & -> & Hcalls2 & Hi2 & Hx2);
    [lia | nia | done | done |].
  exists (j1 + j2)%nat, x2, s2. split; [done|]. split; [by eapply calls_app|]. split; [done|].
  replace (n + Z.of_nat (Datatypes.S m)) with (n + 1 + Z.of_nat m) by lia.
  by replace (k + Z.of_nat (j1 + j2)) with (k + Z.of_nat j1 + Z.of_nat j2) by lia.
Qed.
End Rate.

(** C31: the crossing has the exact rate. From fresh counters, [n] cycles of the
    caller make exactly ceil(n * clock1 / clock2) calls of the other side: the
    loop ends, no call is lost or repeated, and the resets of the counters lose
    no fraction; provided the totals fit in 64 bits and the calls succeed. *)
Theorem crosser_rate {S} (callback : S -> Res S) (Inv : S -> Prop) c1 c2 n s :
  (forall s, Inv s -> exists s', callback s = Ok s' /\ Inv s') -> Inv s ->
  1 <= c1 -> 1 <= c2 -> Z.of_nat n * c1 + c2 < 18446744073709551616 ->
  exists x' s', crosser_run callback n (ClockDomainCrosser_new c1 c2) s = Ok (x', s') /\ Inv s' /\
    calls callback (Z.to_nat (- (- (Z.of_nat n * c1) / c2))) s s'.
Proof.
  intros Hcb Hi Hc1 Hc2 Hb. destruct (decide (c1 = c2)) as [->|Hne].
  - assert (- (- (Z.of_nat n * c2) / c2) = Z.of_nat n) as ->
      by (rewrite <- Z.mul_opp_l, Z.div_mul by lia; lia).
    rewrite Nat2Z.id. clear Hb. revert s Hi. induction n as [|n IH]; intros s Hi; cbn [crosser_run].
    { do 2 eexists. split; [done|]. split; [done | constructor]. }
    destruct (Hcb s Hi) as (s1 & E & Hi1).
    unfold ClockDomainCrosser_update. cbn. rewrite bool_decide_true by done. rewrite E. cbn.
    destruct (IH s1 Hi1) as (x' & s' & -> & Hi' & Hcalls). exists x', s'. split; [done|].
    split; [done | by eapply calls_S].
  - destruct (crosser_run_spec callback Inv Hcb c1 c2 0 0 (ClockDomainCrosser_new c1 c2) s n)
      as (j & x' & s' & E & Hcalls & Hi' & _ & _ & d & Hd & E1 & E2 & P1 & P2 & P3); try done; try lia.
    { split; [done|]. split; [done|]. exists 0. cbn. lia. }
    exists x', s'. split; [done|]. split; [done|].
    enough (- (- (Z.of_nat n * c1) / c2) = Z.of_nat j) as -> by by rewrite Nat2Z.id.
    assert (- (Z.of_nat n * c1) / c2 = - Z.of_nat j); [|lia].
    symmetry. apply Z.div_unique with (r := Z.of_nat j * c2 - Z.of_nat n * c1); lia.
Qed.

Lemma crosser_rate_witness :
  exists x' s', crosser_run (fun n : Z => Ok (n + 1)) 9 (ClockDomainCrosser_new 2 3) 0 = Ok (x', s') /\
    calls (fun n : Z => Ok (n + 1)) 6 0 s'.
Proof.
  destruct (crosser_rate (fun n : Z => Ok (n + 1)) (fun _ => True) 2 3 9 0) as (x' & s' & E & _ & H);
    [intros s _; by eexists | done | lia | lia | lia |].
  exists x', s'. split; [exact E | exact H].
Defined.
