(* ===== verification/MultiChannel.v ===== *)
(** * The multi-channel memory and its wrapper
    ([MultiChannelMemorySystem.cpp], [dramsim2_wrapper.cc])

    One memory system per channel, behind the address mapping and the
    clock-domain crosser. The configuration globals belong to the state here:
    the constructor overwrites the number of ranks, and [updateFreq] the clock
    period and the supply voltage while the memory runs. *)

From S2P Require Import Prelude.
From S2P Require Import DramConfig.
From S2P Require Import AddressMapping.
From S2P Require Import BusTypes.
From S2P Require Import DramRank.
From S2P Require Import CommandQueue.
From S2P Require Import MemoryController.
From S2P Require Import MemorySystem.
From S2P Require Import ClockDomain.

Record MultiChannelMemorySystem := mkMultiChannel {
  config : Cfg;
  Vdd : spec_float;
  channels : list MemorySystem;
  clockDomainCrosser : ClockDomainCrosser;
  mcs_currentClockCycle : Z
}.

#[export] Instance eta_MultiChannel : Settable MultiChannelMemorySystem := fun r =>
  mkMultiChannel (config r) (Vdd r) (channels r) (clockDomainCrosser r) (mcs_currentClockCycle r).

#[export] Instance set_config : Setter config := ltac:(mk_setter).
#[export] Instance set_Vdd : Setter Vdd := ltac:(mk_setter).
#[export] Instance set_channels : Setter channels := ltac:(mk_setter).
#[export] Instance set_clockDomainCrosser : Setter clockDomainCrosser := ltac:(mk_setter).
#[export] Instance set_mcs_currentClockCycle : Setter mcs_currentClockCycle := ltac:(mk_setter).

(** ** Construction

    [ini] and [vdd] are the globals the ini files left. *)

(** The constructor of one channel, which first recomputes the geometry. *)
Definition MemorySystem_create (cfg : Cfg) (id megsOfMemory : Z) : Res (Cfg * MemorySystem) :=
  n ← ranks_for megsOfMemory;
  let cfg := with_ranks n devices_per_rank cfg in
  ms ← MemorySystem_new id;
  Ok (cfg, ms).

Definition create_channel (megs : Z) (st : Cfg * list MemorySystem) (i : Z)
  : Res (Cfg * list MemorySystem) :=
  '(cfg, ms) ← MemorySystem_create st.1 i megs;
  Ok (cfg, st.2 ++ [ms]).

Definition MultiChannel_new (ini : Cfg) (vdd : spec_float) (megsOfMemory : Z)
  : Res MultiChannelMemorySystem :=
  if negb (isPowerOfTwo megsOfMemory) then Err (Abort "Please specify a power of 2 memory size")
  else
    let nchans := @NUM_CHANS ini in
    if bool_decide (nchans = 0) then Err (Abort "Zero channels")
    else
      '(cfg, chs) ← foldM (create_channel (megsOfMemory / nchans)) (ini, []) (zrange nchans);
      Ok (mkMultiChannel cfg vdd chs ClockDomainCrosser_default 0).

Definition MultiChannel_RegisterCallbacks (readCB writeCB : bool) (m : MultiChannelMemorySystem)
  : MultiChannelMemorySystem :=
  m <| channels ::= fmap (RegisterCallbacks readCB writeCB) |>.

(** ** Clocks *)

(** [(uint64_t)(1.0/(tCK*1e-9))] *)
Definition dramsimClkFreqHz (cfg : Cfg) : Z :=
  u64 (F32.trunc (F64.div (F64.of_Z 1) (F64.mul (F64.of_F32 tCK) (F64.lit 1 1000000000)))).

(** A CPU frequency of 0 asks for the ratio 1:1. *)
Definition setCPUClockSpeed (cpuClkFreqHz : Z) (m : MultiChannelMemorySystem)
  : MultiChannelMemorySystem :=
  let f := dramsimClkFreqHz (config m) in
  m <| clockDomainCrosser ::= fun x =>
         x <| clock1 := f |>
           <| clock2 := (if bool_decide (cpuClkFreqHz = 0) then f else cpuClkFreqHz) |> |>.

(** The supply voltage of each frequency, in MHz; the others only print. *)
Definition voltage_of (freqM : Z) : option spec_float :=
  match freqM with
  | 300 => Some (F64.lit 95 100)
  | 400 => Some (F64.lit 1 1)
  | 500 => Some (F64.lit 105 100)
  | 600 => Some (F64.lit 110 100)
  | 700 => Some (F64.lit 115 100)
  | 800 => Some (F64.lit 12 10)
  | 900 => Some (F64.lit 125 100)
  | 1000 => Some (F64.lit 13 10)
  | _ => None
  end.

(** [int freqM = freq * 1000] *)
Definition freq_in_MHz (freq : spec_float) : Z := F32.trunc (F64.mul freq (F64.of_Z 1000)).

(** [freq] in GHz; both globals are single precision. *)
Definition MultiChannel_updateFreq (freq : spec_float) (m : MultiChannelMemorySystem)
  : MultiChannelMemorySystem :=
  let m := m <| config ::= with_tCK (F64.to_F32 (F64.div (F64.of_Z 1) freq)) |> in
  match voltage_of (freq_in_MHz freq) with
  | Some v => m <| Vdd := F64.to_F32 v |>
  | None => m
  end.

(** ** Cycles *)

(** [channels[i]->update()] *)
Definition update_channel (cfg : Cfg) (chs : list MemorySystem) (i : Z) : Res (list MemorySystem) :=
  ms ← of_option (zget chs i);
  ms ← MemorySystem_update ms;
  Ok (zalter (fun _ => ms) chs i).

Definition actual_update (m : MultiChannelMemorySystem) : Res MultiChannelMemorySystem :=
  let cfg := config m in
  chs ← foldM (update_channel cfg) (channels m) (zrange NUM_CHANS);
  Ok (m <| channels := chs |> <| mcs_currentClockCycle ::= fun c => u64 (c + 1) |>).

(** The crosser calls [actual_update] through its callback. *)
Definition MultiChannel_update (m : MultiChannelMemorySystem) : Res MultiChannelMemorySystem :=
  '(x, m) ← ClockDomainCrosser_update actual_update (clockDomainCrosser m) m;
  Ok (m <| clockDomainCrosser := x |>).

(** ** Requests *)

Definition findChannelNumber (cfg : Cfg) (addr : Z) : Res Z :=
  if bool_decide (NUM_CHANS = 1) then Ok 0
  else if negb (isPowerOfTwo NUM_CHANS) then Err (Abort "We can only support power of two # of channels")
  else
    let channelNumber := newTransactionChan (addressMapping addr) in
    if bool_decide (channelNumber >= NUM_CHANS) then Err (Abort "Got channel index out of range")
    else Ok channelNumber.

(** A call of a method of one channel that returns a flag. *)
Definition call_channel (m : MultiChannelMemorySystem) (i : Z)
    (op : MemorySystem -> bool * MemorySystem) : Res (bool * MultiChannelMemorySystem) :=
  ms ← of_option (zget (channels m) i);
  let '(ok, ms) := op ms in
  Ok (ok, m <| channels ::= fun chs => zalter (fun _ => ms) chs i |>).

Definition MultiChannel_addTransaction (m : MultiChannelMemorySystem) (isWrite : bool)
    (addr type id : Z) : Res (bool * MultiChannelMemorySystem) :=
  let cfg := config m in
  channelNumber ← findChannelNumber cfg addr;
  call_channel m channelNumber (fun ms => MemorySystem_addTransaction ms isWrite addr type id).

Definition MultiChannel_addTransaction_ptr (m : MultiChannelMemorySystem) (trans : Transaction)
  : Res (bool * MultiChannelMemorySystem) :=
  let cfg := config m in
  channelNumber ← findChannelNumber cfg (tr_address trans);
  call_channel m channelNumber (fun ms => MemorySystem_addTransaction_ptr ms trans).

(** With an address, only the mapped channel is asked. *)
Definition willAcceptTransaction_addr (m : MultiChannelMemorySystem) (addr : Z) : Res bool :=
  let cfg := config m in
  ms ← of_option (zget (channels m) (newTransactionChan (addressMapping addr)));
  Ok (MemorySystem_WillAcceptTransaction ms).

Fixpoint all_accept (cfg : Cfg) (chs : list MemorySystem) (idx : list Z) : Res bool :=
  match idx with
  | [] => Ok true
  | c :: idx' =>
      ms ← of_option (zget chs c);
      if negb (MemorySystem_WillAcceptTransaction ms) then Ok false else all_accept cfg chs idx'
  end.

Definition willAcceptTransaction (m : MultiChannelMemorySystem) : Res bool :=
  let cfg := config m in all_accept cfg (channels m) (zrange NUM_CHANS).

Definition getNumChannels (m : MultiChannelMemorySystem) : Z := @NUM_CHANS (config m).

(** ** The wrapper of the simulator

    It asks for the ratio 1:1 and turns a refused transaction into a failed
    assertion. The text it reads again from the ini files gives the clock
    period, the queue depth, the bus width and the burst length. *)

Record DRAMSim2Wrapper := mkWrapper {
  dramsim : MultiChannelMemorySystem;
  clockPeriod : spec_float;
  queueSize : Z;
  burstSize : Z
}.

#[export] Instance eta_DRAMSim2Wrapper : Settable DRAMSim2Wrapper := fun r =>
  mkWrapper (dramsim r) (clockPeriod r) (queueSize r) (burstSize r).

#[export] Instance set_dramsim : Setter dramsim := ltac:(mk_setter).

Definition is_zero (x : spec_float) : bool := match x with S754_zero _ => true | _ => false end.

(** [period] is the clock period read as a double. *)
Definition Wrapper_new (ini : Cfg) (vdd period : spec_float) (memory_size_mb : Z) : Res DRAMSim2Wrapper :=
  m ← MultiChannel_new ini vdd memory_size_mb;
  let m := setCPUClockSpeed 0 m in
  if is_zero period then Err (Exit "DRAMSim2 wrapper failed to get clock")
  else if bool_decide (@TRANS_QUEUE_DEPTH ini = 0) then Err (Exit "DRAMSim2 wrapper failed to get queue size")
  else if bool_decide (@JEDEC_DATA_BUS_BITS ini = 0) || bool_decide (@BL ini = 0)
  then Err (Exit "DRAMSim22 wrapper failed to get burst size")
  else Ok (mkWrapper m period (@TRANS_QUEUE_DEPTH ini) (u32 (@JEDEC_DATA_BUS_BITS ini * @BL ini) / 8)).

Definition setCallbacks (w : DRAMSim2Wrapper) : DRAMSim2Wrapper :=
  w <| dramsim ::= MultiChannel_RegisterCallbacks true true |>.

Definition Wrapper_updateFreq (freq : spec_float) (w : DRAMSim2Wrapper) : DRAMSim2Wrapper :=
  w <| dramsim ::= MultiChannel_updateFreq freq |>.

Definition canAccept (w : DRAMSim2Wrapper) : Res bool := willAcceptTransaction (dramsim w).

Definition Wrapper_enqueue (w : DRAMSim2Wrapper) (is_write : bool) (addr type id : Z) : Res DRAMSim2Wrapper :=
  '(success, m) ← MultiChannel_addTransaction (dramsim w) is_write addr type id;
  if negb success then Err (AssertFail "success") else Ok (w <| dramsim := m |>).

Definition Wrapper_tick (w : DRAMSim2Wrapper) : Res DRAMSim2Wrapper :=
  m ← MultiChannel_update (dramsim w);
  Ok (w <| dramsim := m |>).

(** What the owner of a wrapper does, between the cycles of its clock. *)
Inductive WrapOp :=
| WEnqueue (is_write : bool) (addr type id : Z)
| WUpdateFreq (freq : spec_float)
| WTick.

Definition Wrapper_op (w : DRAMSim2Wrapper) (op : WrapOp) : Res DRAMSim2Wrapper :=
  match op with
  | WEnqueue is_write addr type id => Wrapper_enqueue w is_write addr type id
  | WUpdateFreq freq => Ok (Wrapper_updateFreq freq w)
  | WTick => Wrapper_tick w
  end.

Definition Wrapper_run (w : DRAMSim2Wrapper) (ops : list WrapOp) : Res DRAMSim2Wrapper :=
  foldM Wrapper_op w ops.

(** A new memory with its callbacks, as its owner sets it up. *)
Definition memory_start (ini : Cfg) (vdd period : spec_float) (megs : Z) : Res DRAMSim2Wrapper :=
  w ← Wrapper_new ini vdd period megs; Ok (setCallbacks w).
