(* ===== verification/MultiChannelSafety.v ===== *)
(** * The memory behind the wrapper is safe and loses nothing

    A channel's invariant does not depend on the clock period, so it survives
    every frequency change; requests go to the channel the mapping gives and
    stay there. Together: the wrapper answers every sequence of requests,
    ticks and frequency changes, and accounts for every request by channel. *)

From stdpp Require Import gmap.
From S2P Require Import Prelude.
From S2P Require Import DramConfig.
From S2P Require Import Pipe.
From S2P Require Import AddressMapping.
From S2P Require Import BusTypes.
From S2P Require Import DramRank.
From S2P Require Import RankSafety.
From S2P Require Import CommandQueue.
From S2P Require Import MemoryController.
From S2P Require Import BankSim.
From S2P Require Import QueueInv.
From S2P Require Import ControllerInv.
From S2P Require Import MemorySystem.
From S2P Require Import PowerStages.
From S2P Require Import ChannelSafety.
From S2P Require Import ClockDomain.
From S2P Require Import MultiChannel.

(** ** A change of the clock period keeps every invariant *)

Section Transport.
Context (x : spec_float) (cfg : Cfg).
Let cfg' : Cfg := with_tCK x cfg.

Lemma cfg_ok_tCK : cfg_ok cfg -> cfg_ok cfg'.
Proof. intros []; constructor; done. Qed.

Lemma geometry_ok_tCK : geometry_ok cfg -> geometry_ok cfg'.
Proof. intros []; constructor; done. Qed.

Lemma env_ok_tCK : @env_ok cfg -> @env_ok cfg'.
Proof. intros []; constructor; [by apply cfg_ok_tCK | by apply geometry_ok_tCK]. Qed.

Lemma addressMapping_tCK pa : @addressMapping cfg' pa = @addressMapping cfg pa.
Proof.
  assert (@channelBitWidth cfg' = @channelBitWidth cfg) as E1 by reflexivity.
  assert (@rankBitWidth cfg' = @rankBitWidth cfg) as E2 by reflexivity.
  assert (@bankBitWidth cfg' = @bankBitWidth cfg) as E3 by reflexivity.
  assert (@rowBitWidth cfg' = @rowBitWidth cfg) as E4 by reflexivity.
  assert (@colHighBitWidth cfg' = @colHighBitWidth cfg) as E5 by reflexivity.
  assert (@colLowBitWidth cfg' = @colLowBitWidth cfg) as E6 by reflexivity.
  assert (@byteOffsetWidth cfg' = @byteOffsetWidth cfg) as E7 by reflexivity.
  unfold addressMapping, scheme1, scheme2, scheme3, scheme4, scheme5, scheme6, scheme7.
  by rewrite E1, E2, E3, E4, E5, E6, E7.
Qed.

Lemma mc_shape_tCK mc : @mc_shape cfg mc -> @mc_shape cfg' mc.
Proof. intros []; constructor; assumption. Qed.

Lemma queues_ok_tCK qs : @queues_ok cfg qs -> @queues_ok cfg' qs.
Proof. intros []; constructor; assumption. Qed.

Lemma cq_inv_tCK cq : @cq_inv cfg cq -> @cq_inv cfg' cq.
Proof. intros []; constructor; try assumption; by apply queues_ok_tCK. Qed.

Lemma bank_rel_tCK t m r : @bank_rel cfg t m r -> @bank_rel cfg' t m r.
Proof.
  unfold bank_rel, state_rel. intros [Ha Hs]. split; [done|].
  destruct (currentBankState m); try done. destruct (closing m); [|done].
  destruct Hs. by constructor.
Qed.

Lemma banks_rel_tCK t po mb rb : @banks_rel cfg t po mb rb -> @banks_rel cfg' t po mb rb.
Proof.
  unfold banks_rel. destruct po as [p|].
  - intros (? & H & ?). split; [done | split; [|done]].
    change (@rank_banks_after cfg') with (@rank_banks_after cfg).
    eapply Forall2_impl; [exact H|]. apply bank_rel_tCK.
  - intros H. eapply Forall2_impl; [exact H|]. apply bank_rel_tCK.
Qed.

Lemma rank_sim_tCK t po pd mb r : @rank_sim cfg t po pd mb r -> @rank_sim cfg' t po pd mb r.
Proof. intros []; constructor; try assumption. by apply banks_rel_tCK. Qed.

Lemma rank_data_ok_tCK e k r : @rank_data_ok cfg e k r -> @rank_data_ok cfg' e k r.
Proof. intros []; constructor; assumption. Qed.

Lemma write_ok_tCK e k mc : @write_ok cfg e k mc -> @write_ok cfg' e k mc.
Proof. intros []; constructor; assumption. Qed.

Lemma ctrl_inv_tCK t clk er kr ew kw mc ranks :
  @ctrl_inv cfg t clk er kr ew kw mc ranks -> @ctrl_inv cfg' t clk er kr ew kw mc ranks.
Proof.
  intros [Hsh Hq Hc Hl Hrr Hp Hs Hw Htr Hrd Hpr]. constructor; try assumption.
  - by apply mc_shape_tCK.
  - by apply cq_inv_tCK.
  - intros i Hi. destruct (Hs i Hi) as (pd & mb & r & H1 & H2 & H3 & H4 & H5 & H6).
    exists pd, mb, r. split_and!; try assumption; [by apply rank_sim_tCK | by apply rank_data_ok_tCK].
  - by apply write_ok_tCK.
Qed.

Lemma channel_inv_tCK t rds wrs ms :
  @channel_inv cfg t rds wrs ms -> @channel_inv cfg' t rds wrs ms.
Proof. intros []; constructor; try assumption. by apply ctrl_inv_tCK. Qed.
End Transport.

(** ** The invariant of the memory *)

(** After [t] cycles, with the reads [rds i] and the writes [wrs i] sent to
    channel [i]; [cfg0] is the configuration at the start, of which only [tCK]
    has changed. *)
Record memory_inv (cfg0 : Cfg) (t : Z) (rds wrs : Z -> list Key) (m : MultiChannelMemorySystem) : Prop := {
  mi_config : exists x, config m = with_tCK x cfg0;
  mi_env : @env_ok (config m);
  mi_len : zlen (channels m) = @NUM_CHANS (config m);
  mi_ratio : clock1 (clockDomainCrosser m) = clock2 (clockDomainCrosser m);
  mi_cycle : mcs_currentClockCycle m = t;
  mi_channels : forall i, 0 <= i < @NUM_CHANS (config m) -> exists ms,
    zget (channels m) i = Some ms /\ @channel_inv (config m) t (rds i) (wrs i) ms
}.

Lemma memory_inv_perm cfg0 t rds wrs rds' wrs' m :
  (forall i, rds i ≡ₚ rds' i) -> (forall i, wrs i ≡ₚ wrs' i) ->
  memory_inv cfg0 t rds wrs m -> memory_inv cfg0 t rds' wrs' m.
Proof.
  intros Hr Hw [Hcf He Hl Hx Hc Hs]. constructor; try done. intros i Hi.
  destruct (Hs i Hi) as (ms & E & [H1 H2 H3 H4 H5]). exists ms. split; [done|].
  constructor; try done; [by rewrite H4, Hr | by rewrite H5, Hw].
Qed.

Lemma chans_bound cfg : geometry_ok cfg -> 1 <= NUM_CHANS < 4294967296.
Proof.
  intros [(k & Hk & ->) _ _ _ _ _ _]. split; [pose proof (Z.pow_pos_nonneg 2 k); lia|].
  change 4294967296 with (2 ^ 32). apply Z.pow_lt_mono_r; lia.
Qed.

Lemma findChannelNumber_ok cfg addr :
  geometry_ok cfg -> in_u64 addr ->
  findChannelNumber cfg addr = Ok (newTransactionChan (addressMapping addr)).
Proof.
  intros Hgeo Ha. destruct (fields_in_range addr Hgeo Ha) as (_ & Hc & _).
  unfold findChannelNumber. case_bool_decide as H1.
  - f_equal. lia.
  - destruct (geo_chans _ Hgeo) as (k & Hk & Ek).
    rewrite Ek at 1. rewrite isPowerOfTwo_pow2 by done. cbn [negb].
    by rewrite bool_decide_false by lia.
Qed.

Lemma with_tCK_inv cfg0 x t rds wrs m :
  memory_inv cfg0 t rds wrs m -> memory_inv cfg0 t rds wrs (m <| config ::= with_tCK x |>).
Proof.
  intros [[y Hy] He Hl Hr Hc Hs]. destruct m as [cfg v chs cr cy]. cbn [upd_field set_config] in *.
  constructor; cbn [config channels clockDomainCrosser mcs_currentClockCycle] in *; [|by apply env_ok_tCK|done..|].
  - exists x. by rewrite Hy.
  - intros i Hi. destruct (Hs i Hi) as (ms & E & H). exists ms. split; [done|].
    by apply channel_inv_tCK.
Qed.

Lemma updateFreq_inv cfg0 t rds wrs freq m :
  memory_inv cfg0 t rds wrs m -> memory_inv cfg0 t rds wrs (MultiChannel_updateFreq freq m).
Proof.
  intros Hm. unfold MultiChannel_updateFreq.
  apply (with_tCK_inv _ (F64.to_F32 (F64.div (F64.of_Z 1) freq))) in Hm.
  revert Hm. generalize (m <| config ::= with_tCK (F64.to_F32 (F64.div (F64.of_Z 1) freq)) |>).
  intros m' Hm. destruct (voltage_of _); [|done]. destruct Hm as [? ? ? ? ? ?], m'. by constructor.
Qed.

(** A request added to channel [c]. *)
Definition add_to (c : Z) (l : list Key) (f : Z -> list Key) : Z -> list Key :=
  fun i => if bool_decide (c = i) then l ++ f i else f i.

Lemma addTransaction_inv cfg0 t rds wrs w addr st si m :
  in_u64 addr -> memory_inv cfg0 t rds wrs m ->
  let c := newTransactionChan (@addressMapping cfg0 addr) in
  0 <= c < @NUM_CHANS (config m) /\
  exists m', MultiChannel_addTransaction m w addr st si = Ok (true, m') /\
    memory_inv cfg0 t (add_to c (add_key w false addr st si) rds) (add_to c (add_key w true addr st si) wrs) m'.
Proof.
  intros Ha [Hcf He Hl Hr Hc Hs] c. pose proof (ev_geo He) as Hgeo.
  assert (newTransactionChan (@addressMapping (config m) addr) = c) as Ec.
  { destruct Hcf as [x ->]. by rewrite addressMapping_tCK. }
  destruct (fields_in_range addr Hgeo Ha) as (_ & Hch & _). rewrite Ec in Hch. split; [exact Hch|].
  unfold MultiChannel_addTransaction. rewrite findChannelNumber_ok, Ec by done. cbn [mbind Res_bind].
  destruct (Hs c Hch) as (ms & Ems & Hms).
  unfold call_channel. rewrite Ems. cbn [of_option mbind Res_bind].
  pose proof (@MemorySystem_addTransaction_true (config m) ms w addr st si) as Ht.
  pose proof (@MemorySystem_addTransaction_ok (config m) t _ _ ms w addr st si Ha Hms) as Hadd.
  destruct (@MemorySystem_addTransaction (config m) ms w addr st si) as [ok ms']. cbn in Ht, Hadd. subst ok.
  eexists. split; [reflexivity|]. constructor; try assumption.
  - cbn. by rewrite zlen_zalter.
  - intros i Hi. cbn [channels upd_field set_channels]. rewrite zget_zalter. unfold add_to.
    destruct (decide (c = i)) as [<-|Hne].
    + rewrite !bool_decide_true by done. rewrite Ems. by exists ms'.
    + rewrite !bool_decide_false by done. by apply Hs.
Qed.

Lemma actual_update_inv cfg0 t rds wrs m :
  0 <= t < 2 ^ 62 -> memory_inv cfg0 t rds wrs m ->
  exists m', actual_update m = Ok m' /\ clockDomainCrosser m' = clockDomainCrosser m /\
    memory_inv cfg0 (t + 1) rds wrs m'.
Proof.
  intros Ht [Hcf He Hl Hr Hc Hs]. pose proof (chans_bound _ (ev_geo He)) as Hn. unfold actual_update.
  destruct (foldM_zrange_inv (fun j chs => zlen chs = @NUM_CHANS (config m) /\
      forall i, 0 <= i < @NUM_CHANS (config m) -> exists ms, zget chs i = Some ms /\
        @channel_inv (config m) (if bool_decide (i < j) then t + 1 else t)
          (rds i) (wrs i) ms)
      (update_channel (config m)) (@NUM_CHANS (config m)) (channels m))
    as (chs & -> & Hlen & Hchs).
  - lia.
  - intros j chs Hj [Hlen Hchs]. destruct (Hchs j Hj) as (ms & Ems & Hms).
    rewrite bool_decide_false in Hms by lia. unfold update_channel. rewrite Ems. cbn [of_option mbind Res_bind].
    destruct (MemorySystem_update_ok He t _ _ ms Ht Hms) as (ms' & -> & Hms'). cbn.
    eexists. split; [reflexivity|]. split; [by rewrite zlen_zalter|].
    intros i Hi. rewrite zget_zalter. destruct (decide (j = i)) as [<-|Hne].
    + rewrite bool_decide_true by done. rewrite Ems. cbn. exists ms'. split; [done|].
      by rewrite bool_decide_true by lia.
    + rewrite (bool_decide_false (j = i)) by done. destruct (Hchs i Hi) as (ms1 & E1 & H1). exists ms1.
      split; [done|]. by rewrite (bool_decide_ext _ (i < j)) by lia.
  - split; [done|]. intros i Hi. destruct (Hs i Hi) as (ms & E & H). exists ms.
    split; [done|]. by rewrite bool_decide_false by lia.
  - cbn [mbind Res_bind]. eexists. split; [reflexivity|]. split; [done|]. constructor; try assumption.
    + cbn. rewrite Hc. apply u64_small. unfold in_u64. change (2 ^ 62) with 4611686018427387904 in Ht. lia.
    + intros i Hi. destruct (Hchs i Hi) as (ms & E & H). exists ms. split; [done|].
      by rewrite bool_decide_true in H by apply Hi.
Qed.

(** With equal clocks every update of the memory is one update of its channels. *)
Lemma MultiChannel_update_inv cfg0 t rds wrs m :
  0 <= t < 2 ^ 62 -> memory_inv cfg0 t rds wrs m ->
  exists m', MultiChannel_update m = Ok m' /\ memory_inv cfg0 (t + 1) rds wrs m'.
Proof.
  intros Ht Hm. unfold MultiChannel_update, ClockDomainCrosser_update.
  rewrite bool_decide_true by apply (mi_ratio _ _ _ _ _ Hm).
  destruct (actual_update_inv cfg0 t rds wrs m Ht Hm) as (m' & -> & Hx & Hm'). cbn [mbind Res_bind].
  eexists. split; [reflexivity|]. destruct Hm' as [Hcf He Hl Hr Hc Hs].
  constructor; try assumption. cbn. apply (mi_ratio _ _ _ _ _ Hm).
Qed.

(** ** Construction *)

(** A configuration the memory can be built for: a memory size that is a power
    of two, and a geometry that is well formed with the [n] ranks it asks for. *)
Definition memory_config (ini : Cfg) (megs n : Z) : Prop :=
  isPowerOfTwo megs = true /\ @ranks_for ini (megs / @NUM_CHANS ini) = Ok n /\
  @env_ok (with_ranks n (@devices_per_rank ini) ini).

(** The configuration the memory runs under, up to its clock period. *)
Definition memory_cfg (ini : Cfg) (n : Z) : Cfg := with_ranks n (@devices_per_rank ini) ini.

(** Computing the ranks again gives the same number. *)
Lemma ranks_for_again ini k n d :
  @ranks_for ini k = Ok n -> @ranks_for (with_ranks n d ini) k = Ok n.
Proof. unfold ranks_for. by case_bool_decide. Qed.

Lemma create_channels_ok ini megs n :
  @ranks_for ini megs = Ok n -> @env_ok (with_ranks n (@devices_per_rank ini) ini) ->
  let cfg := with_ranks n (@devices_per_rank ini) ini in
  exists chs, foldM (create_channel megs) (ini, []) (zrange (@NUM_CHANS ini)) = Ok (cfg, chs) /\
    zlen chs = @NUM_CHANS ini /\
    forall i, 0 <= i < @NUM_CHANS ini -> exists ms, zget chs i = Some ms /\
      @channel_inv cfg 0 [] [] (RegisterCallbacks true true ms).
Proof.
  intros Hn He cfg. pose proof (chans_bound _ (ev_geo He)) as Hc. cbn in Hc.
  destruct (foldM_zrange_inv (fun j st => (st.1 = cfg \/ j = 0 /\ st.1 = ini) /\ zlen st.2 = j /\
      forall i, 0 <= i < j -> exists ms, zget st.2 i = Some ms /\
        @channel_inv cfg 0 [] [] (RegisterCallbacks true true ms))
    (create_channel megs) (@NUM_CHANS ini) (ini, [])) as ([c chs] & -> & Hcfg & Hl & Hs).
  - lia.
  - intros j [c chs] Hj (Hcfg & Hl & Hs). cbn [fst snd] in *. unfold create_channel, MemorySystem_create. cbn [fst snd].
    assert (@ranks_for c megs = Ok n /\ with_ranks n (@devices_per_rank c) c = cfg) as [-> Ecfg].
    { destruct Hcfg as [-> | [_ ->]]; [|done]. split; [by apply ranks_for_again | reflexivity]. }
    cbn [mbind Res_bind]. cbv zeta. rewrite Ecfg. destruct (@MemorySystem_new_ok cfg He j) as (ms & -> & Hms). cbn.
    eexists. split; [reflexivity|]. cbn. split; [by left|].
    split; [unfold zlen in *; rewrite length_app; cbn; lia|]. intros i Hi. destruct (decide (i = j)) as [->|Hne].
    + exists ms. split; [|done]. apply zget_lookup. split; [lia|]. unfold zlen in Hl.
      rewrite lookup_app_r by lia. by replace (Z.to_nat j - length chs)%nat with 0%nat by lia.
    + destruct (Hs i ltac:(lia)) as (ms1 & E1 & H1). exists ms1. split; [|done].
      apply zget_lookup in E1 as [? E1]. apply zget_lookup. split; [done|]. by apply lookup_app_l_Some.
  - split; [by right|]. split; [done|]. intros i Hi. lia.
  - cbn in *. exists chs. destruct Hcfg as [-> | [? _]]; [done | lia].
Qed.

Lemma memory_start_ok ini vdd period megs n :
  memory_config ini megs n -> is_zero period = false ->
  exists w, memory_start ini vdd period megs = Ok w /\ memory_inv (memory_cfg ini n) 0 (fun _ => []) (fun _ => []) (dramsim w).
Proof.
  intros (Hp & Hn & He) Hper. pose proof (chans_bound _ (ev_geo He)) as Hc.
  pose proof (ok_trans_queue _ (ev_cfg He)) as Htq. pose proof (ok_BL _ (ev_cfg He)) as Hbl.
  pose proof (geo_bus _ (ev_geo He)) as Hbus. cbn in Hc, Htq, Hbl, Hbus.
  destruct (create_channels_ok ini _ n Hn He) as (chs & E & Hl & Hs).
  unfold memory_start, Wrapper_new, MultiChannel_new. rewrite Hp, E. cbn [negb].
  rewrite bool_decide_false by lia. cbn [mbind Res_bind]. rewrite Hper.
  rewrite !bool_decide_false by lia. cbn [orb].
  eexists. split; [reflexivity|]. constructor.
  - by exists (@tCK ini).
  - exact He.
  - cbn. by rewrite zlen_fmap.
  - done.
  - done.
  - intros i Hi. destruct (Hs i Hi) as (ms & E1 & H1). cbn. rewrite zget_fmap, E1. cbn.
    eexists. split; [reflexivity|]. exact H1.
Qed.

(** ** Runs *)

Definition wrap_ok (op : WrapOp) : Prop :=
  match op with WEnqueue _ addr _ _ => in_u64 addr | _ => True end.

Definition wrap_key (w : bool) (op : WrapOp) : option Key :=
  match op with
  | WEnqueue w' addr type id => if eqb w' w then Some (addr, type, id) else None
  | _ => None
  end.

(** The reads and the writes a run sends. *)
Definition reads_sent (ops : list WrapOp) : list Key := omap (wrap_key false) ops.
Definition writes_sent (ops : list WrapOp) : list Key := omap (wrap_key true) ops.

Fixpoint wrap_ticks (ops : list WrapOp) : Z :=
  match ops with
  | [] => 0
  | WTick :: ops' => 1 + wrap_ticks ops'
  | _ :: ops' => wrap_ticks ops'
  end.

Lemma wrap_ticks_nonneg ops : 0 <= wrap_ticks ops.
Proof. induction ops as [|[] ops IH]; cbn; lia. Qed.

(** The part of a list of requests that the mapping sends to channel [i]. *)
Definition on_channel (cfg : Cfg) (i : Z) (l : list Key) : list Key :=
  filter (fun k => newTransactionChan (addressMapping k.1.1) = i) l.

Lemma add_key_on cfg i w w' addr st si l :
  on_channel cfg i (add_key w w' addr st si ++ l) =
    add_to (newTransactionChan (addressMapping addr)) (add_key w w' addr st si) (fun i => on_channel cfg i l) i.
Proof.
  unfold on_channel, add_to. rewrite filter_app. unfold add_key.
  destruct (eqb w w'); [|by case_bool_decide]. rewrite filter_cons, filter_nil. cbn.
  by repeat case_decide; case_bool_decide.
Qed.

(** The invariant of a run that sent [rds] and [wrs]. *)
Definition run_inv (cfg0 : Cfg) (t : Z) (rds wrs : list Key) (w : DRAMSim2Wrapper) : Prop :=
  memory_inv cfg0 t (fun i => on_channel cfg0 i rds) (fun i => on_channel cfg0 i wrs) (dramsim w).

(** One operation keeps the invariant and cannot fault. *)
Lemma Wrapper_op_ok cfg0 t rds wrs w op :
  wrap_ok op -> 0 <= t -> t + wrap_ticks [op] <= 2 ^ 62 -> run_inv cfg0 t rds wrs w ->
  exists w', Wrapper_op w op = Ok w' /\
    run_inv cfg0 (t + wrap_ticks [op]) (reads_sent [op] ++ rds) (writes_sent [op] ++ wrs) w'.
Proof.
  intros Hop Ht Hb Hm. destruct op as [is_write addr type id | freq |]; cbn [Wrapper_op wrap_ticks] in *.
  - destruct (addTransaction_inv cfg0 t _ _ is_write addr type id _ Hop Hm) as (_ & m & E & Hm').
    unfold Wrapper_enqueue. rewrite E. cbn. eexists. split; [reflexivity|]. rewrite Z.add_0_r.
    unfold run_inv. revert Hm'. apply memory_inv_perm; intros i; rewrite <- add_key_on; by destruct is_write.
  - eexists. split; [reflexivity|]. rewrite Z.add_0_r. by apply updateFreq_inv.
  - destruct (MultiChannel_update_inv cfg0 t _ _ _ ltac:(lia) Hm) as (m & E & Hm'). unfold Wrapper_tick. rewrite E.
    eexists. split; [reflexivity|]. exact Hm'.
Qed.

Lemma Wrapper_run_ok cfg0 ops : forall t rds wrs w,
  Forall wrap_ok ops -> 0 <= t -> t + wrap_ticks ops <= 2 ^ 62 -> run_inv cfg0 t rds wrs w ->
  exists w', Wrapper_run w ops = Ok w' /\
    run_inv cfg0 (t + wrap_ticks ops) (reads_sent ops ++ rds) (writes_sent ops ++ wrs) w'.
Proof.
  induction ops as [|op ops IH]; intros t rds wrs w Hops Ht Hb Hm.
  { exists w. by rewrite Z.add_0_r. }
  apply Forall_cons in Hops as [Hop Hops]. pose proof (wrap_ticks_nonneg ops).
  assert (wrap_ticks (op :: ops) = wrap_ticks [op] + wrap_ticks ops) as Et by (destruct op; cbn [wrap_ticks]; lia).
  assert (0 <= wrap_ticks [op]) by (destruct op; cbn; lia).
  destruct (Wrapper_op_ok cfg0 t rds wrs w op Hop ltac:(lia) ltac:(lia) Hm) as (w1 & E & Hm1).
  destruct (IH (t + wrap_ticks [op]) _ _ w1 Hops ltac:(lia) ltac:(lia) Hm1) as (w' & E' & Hm').
  exists w'. split; [unfold Wrapper_run; cbn; by rewrite E|].
  replace (t + wrap_ticks (op :: ops)) with (t + wrap_ticks [op] + wrap_ticks ops) by lia.
  revert Hm'. unfold run_inv, reads_sent, writes_sent. change (op :: ops) with ([op] ++ ops). rewrite !omap_app.
  apply memory_inv_perm; intros i; unfold on_channel; rewrite !filter_app; solve_Permutation.
Qed.

Lemma memory_run ini vdd period megs n ops :
  memory_config ini megs n -> is_zero period = false -> Forall wrap_ok ops -> wrap_ticks ops <= 2 ^ 62 ->
  exists w, memory_start ini vdd period megs ≫= (fun w => Wrapper_run w ops) = Ok w /\
    run_inv (memory_cfg ini n) (wrap_ticks ops) (reads_sent ops) (writes_sent ops) w.
Proof.
  intros Hc Hp Hops Hb. destruct (memory_start_ok ini vdd period megs n Hc Hp) as (w0 & -> & H0). cbn.
  destruct (Wrapper_run_ok _ ops 0 [] [] w0 Hops ltac:(lia) ltac:(lia) H0) as (w & -> & Hm).
  exists w. split; [done|]. by rewrite !app_nil_r in Hm.
Qed.

(** ** Properties *)

(** C3: the memory never faults. Built for a well-formed configuration, the
    wrapper answers every sequence of requests (64-bit addresses), frequency
    changes (to any double) and ticks, for up to 2^62 ticks: no channel index
    out of range, no refused transaction, no fault in any channel. Its cycle
    count has advanced once per tick. *)
Theorem memory_never_faults ini vdd period megs n ops :
  memory_config ini megs n -> is_zero period = false -> Forall wrap_ok ops -> wrap_ticks ops <= 2 ^ 62 ->
  exists w, memory_start ini vdd period megs ≫= (fun w => Wrapper_run w ops) = Ok w /\
    mcs_currentClockCycle (dramsim w) = wrap_ticks ops.
Proof.
  intros Hc Hp Hops Hb. destruct (memory_run ini vdd period megs n ops Hc Hp Hops Hb) as (w & -> & Hm).
  exists w. split; [done|]. apply (mi_cycle _ _ _ _ _ Hm).
Qed.

(** C4: every request goes through the channel its address maps to, exactly
    once. After any run with any frequency changes, the reads sent to the
    addresses of a channel are those its read callback has reported plus those
    waiting or pending in that channel, and the writes likewise. *)
Theorem memory_conserves_requests ini vdd period megs n ops :
  memory_config ini megs n -> is_zero period = false -> Forall wrap_ok ops -> wrap_ticks ops <= 2 ^ 62 ->
  exists w, memory_start ini vdd period megs ≫= (fun w => Wrapper_run w ops) = Ok w /\
    forall i, 0 <= i < @NUM_CHANS ini -> exists ms, zget (channels (dramsim w)) i = Some ms /\
    let mc := memoryController ms in
    on_channel (memory_cfg ini n) i (reads_sent ops) ≡ₚ
      reads_done mc ++ (tr_key <$> pendingReadTransactions mc)
      ++ transactions_of DATA_READ (transactionQueue mc)
      ++ transactions_of DATA_READ (pendingTransactions ms) /\
    on_channel (memory_cfg ini n) i (writes_sent ops) ≡ₚ
      writes_done mc
      ++ (packet_key <$> opt_list (mc_outgoingDataPacket mc)) ++ (packet_key <$> writeDataToSend mc)
      ++ queued_writes (commandQueue mc)
      ++ transactions_of DATA_WRITE (transactionQueue mc)
      ++ transactions_of DATA_WRITE (pendingTransactions ms).
Proof.
  intros Hc Hp Hops Hb. destruct (memory_run ini vdd period megs n ops Hc Hp Hops Hb) as (w & -> & Hm).
  exists w. split; [done|]. destruct Hm as [[x Hx] _ _ _ _ Hs]. rewrite Hx in Hs. intros i Hi.
  destruct (Hs i Hi) as (ms & E & [_ _ _ Hr Hw]). exists ms. split; [done|]. cbv zeta.
  split; [rewrite <- Hr | rewrite <- Hw].
  - unfold channel_reads, reads_account. solve_Permutation.
  - unfold channel_writes, writes_account. rewrite fmap_app. solve_Permutation.
Qed.

(** ** Witnesses *)

Definition sample_wrap_ops : list WrapOp :=
  [WEnqueue false 4096 0 1; WEnqueue true 8192 8 2; WTick; WUpdateFreq (F64.lit 4 10); WEnqueue false 64 0 3]
  ++ replicate 60 WTick.

Lemma sample_wrap_ok : Forall wrap_ok sample_wrap_ops.
Proof.
  unfold sample_wrap_ops. apply Forall_app. split; [|by apply Forall_replicate].
  repeat constructor; cbn; lia.
Qed.

(** The shipped device, four channels and 8 GB. *)
Lemma DDR3_memory_config : memory_config DDR3_micron_32M_8B_x8_sg15 8192 1.
Proof. split; [by vm_compute | split; [by vm_compute|]]. exact DDR3_env_ok. Qed.

Lemma memory_never_faults_witness : exists w,
  memory_start DDR3_micron_32M_8B_x8_sg15 (F64.lit 15 10) (F64.lit 15 10) 8192
    ≫= (fun w => Wrapper_run w sample_wrap_ops) = Ok w /\
  mcs_currentClockCycle (dramsim w) = wrap_ticks sample_wrap_ops.
Proof.
  apply (memory_never_faults _ _ _ _ 1 sample_wrap_ops DDR3_memory_config); [by vm_compute | exact sample_wrap_ok | by vm_compute].
Defined.

Lemma memory_conserves_requests_witness : exists w ms,
  memory_start DDR3_micron_32M_8B_x8_sg15 (F64.lit 15 10) (F64.lit 15 10) 8192
    ≫= (fun w => Wrapper_run w sample_wrap_ops) = Ok w /\
  zget (channels (dramsim w)) 1 = Some ms.
Proof.
  destruct (memory_conserves_requests _ (F64.lit 15 10) (F64.lit 15 10) _ 1 sample_wrap_ops DDR3_memory_config)
    as (w & E & H); [by vm_compute | exact sample_wrap_ok | by vm_compute |].
  destruct (H 1) as (ms & E1 & _); [cbn; lia|]. exists w, ms. split; [exact E | exact E1].
Defined.
