(* ===== verification/GemDefines.v ===== *)
(** * Constants and messages of the platform
    ([gemdroid_defines.hh], [gemdroid_request.hh], [gemdroid_ip.hh])

    The enumerations are plain [int]s in the code, which computes with them
    and indexes arrays by them; they are [Z] here. *)

From S2P Require Import Prelude.
From S2P Require Import DramConfig.

(** ** [enum IP_TYPE] *)

Definition IP_TYPE_CPU : Z := 0.
Definition IP_TYPE_DC : Z := 1.
Definition IP_TYPE_NW : Z := 2.
Definition IP_TYPE_SND : Z := 3.
Definition IP_TYPE_MIC : Z := 4.
Definition IP_TYPE_CAM : Z := 5.
Definition IP_TYPE_MMC_IN : Z := 6.
Definition IP_TYPE_MMC_OUT : Z := 7.
Definition IP_TYPE_VD : Z := 8.
Definition IP_TYPE_VE : Z := 9.
Definition IP_TYPE_AD : Z := 10.
Definition IP_TYPE_AE : Z := 11.
Definition IP_TYPE_IMG : Z := 12.
Definition IP_TYPE_GPU : Z := 13.
Definition IP_TYPE_DMA : Z := 14.
Definition IP_TYPE_CACHE : Z := 15.
Definition IP_TYPE_END : Z := 16.

(** ** Sizes and limits *)

Definition CACHE_LINE_SIZE : Z := 64.
Definition MAX_IPS : Z := 4.
Definition MAX_CPUS : Z := 4.
Definition MAX_MEM_REQS : Z := 256.
Definition MAX_MEM_RESPS : Z := 256.
Definition MAX_IP_OUTSTANDING_REQS : Z := 10.
Definition MEM_RESP_TRANSMIT_CYCLES : Z := 2.
Definition FRAME_SIZE : Z := 4096 * 2160 * 24 / 8.
Definition AUD_FRAME_SIZE : Z := 16 * 1024.
Definition VID_CODING_RATIO : Z := 16.
Definition AUD_CODING_RATIO : Z := 8.
Definition IP_DVFS_STATES : Z := 7.
Definition FRACTION_OF_IFRAMES : Z := 10.
Definition PROCESSING_CHUNK : Z := 16.
Definition APP_ID_END : Z := 13.
Definition MAX_FLOWS_IN_APP : Z := 5.
Definition MAX_IPS_IN_FLOW : Z := 5.

Definition CORE_DVFS_STATES : Z := 13.
Definition INTERACTIVE_GOVERNOR_LAT : Z := 5.
Definition TARGET_FPS : Z := 60.

(** [GEMDROID_FREQ] is the double 10.0, in GHz. *)
Definition GEMDROID_FREQ : spec_float := F64.of_Z 10.
Definition MILLISEC : Z := 1000000 * 10.
Definition MICROSEC : Z := 1000 * 10.

(** ** [enum GOVERNOR_TYPE] *)

Definition GOVERNOR_TYPE_DISABLED : Z := 0.
Definition GOVERNOR_TYPE_ONDEMAND : Z := 1.
Definition GOVERNOR_TYPE_PERFORMANCE : Z := 2.
Definition GOVERNOR_TYPE_POWERSAVE : Z := 3.
Definition GOVERNOR_TYPE_BUILDING : Z := 4.
Definition GOVERNOR_TYPE_INTERACTIVE : Z := 5.
Definition GOVERNOR_TYPE_POWERCAP : Z := 6.
Definition GOVERNOR_TYPE_SLACK : Z := 7.
Definition GOVERNOR_TYPE_SLACK_FAR_ENERGY : Z := 8.
Definition GOVERNOR_TYPE_SLACK_KNAPSACK : Z := 9.
Definition GOVERNOR_TYPE_SLACK_MAXENERGY_CONSUMER : Z := 10.
Definition GOVERNOR_TYPE_SLACK_MAXPOWER_CONSUMER : Z := 11.
Definition GOVERNOR_TYPE_SLACK_MAXENERGYPERTIME_CONSUMER : Z := 12.
Definition GOVERNOR_TYPE_COSCALE : Z := 13.
Definition GOVERNOR_TYPE_MEMSCALE : Z := 14.
Definition GOVERNOR_TYPE_OPTIMAL : Z := 15.
Definition GOVERNOR_TYPE_DYNAMICPROG : Z := 16.
Definition GOVERNOR_TYPE_CORE_ORACLE : Z := 17.
Definition END_OF_GOVERNOR : Z := 18.

(** [size > MAX_MEM_REQS*0.9] compares a size with the double 230.4. *)
Definition exceeds_MAX_IP_MEM_REQS (n : Z) : bool :=
  SFltb (F64.mul (F64.of_Z MAX_MEM_REQS) (F64.lit 9 10)) (F64.of_Z n).

(** ** Address regions of the devices *)

Definition DC0_ADDR_START : Z := 2160000000.
Definition CAM_ADDR_START : Z := 2180000000.
Definition VD_ADDR_START : Z := 2200000000.
Definition VE_ADDR_START : Z := 2220000000.
Definition IMG_ADDR_START : Z := 2240000000.
Definition AE_ADDR_START : Z := 2260000000.
Definition NW_ADDR_START : Z := 2280000000.
Definition AD_ADDR_START : Z := 2320000000.
Definition MMC_IN_ADDR_START : Z := 2340000000.
Definition MIC_ADDR_START : Z := 2360000000.
Definition DC1_ADDR_START : Z := 2400000000.
Definition GPU_ADDR_START : Z := 2420000000.

(** ** Messages *)

Record GemDroidMemMsg := mkMemMsg {
  msg_ip_type : Z;
  msg_id : Z;
  msg_core_id : Z;
  msg_addr : Z;
  msg_isRead : bool;
  isResponse : bool
}.

Record GemDroidIPRequest := mkIPRequest {
  req_sendertype : Z;
  req_sender_id : Z;
  req_core_id : Z;
  req_iptype : Z;
  req_addr : Z;
  req_size : Z;
  req_isRead : bool;
  req_frameNum : Z;
  req_flowType : Z;
  req_flowId : Z
}.

Record GemDroidIPResponse := mkIPResponse {
  resp_sender_type : Z;
  resp_sender_id : Z;
  resp_core_id : Z;
  resp_frame_num : Z
}.

(** The limit on queued IP requests is 230. *)
Lemma exceeds_MAX_IP_MEM_REQS_231 :
  exceeds_MAX_IP_MEM_REQS 230 = false /\ exceeds_MAX_IP_MEM_REQS 231 = true.
Proof. by vm_compute. Qed.
