(* ===== verification/Flows.v ===== *)
(** * The flow table ([gemdroid.cc])

    For each application, the chains of IPs its frames go through. The file
    [flows.txt] gives one chain per line: an application and the IPs, closed
    by -1. *)

From S2P Require Import Prelude.
From S2P Require Import GemDefines.

(** [int flowTable[APP_ID_END][MAX_FLOWS_IN_APP][MAX_IPS_IN_FLOW]] *)
Definition FlowTable : Type := list (list (list Z)).

Definition flow_get (t : FlowTable) (app flow pos : Z) : Res Z :=
  flows ← of_option (zget t app);
  ips ← of_option (zget flows flow);
  of_option (zget ips pos).

Definition flow_set (t : FlowTable) (app flow pos v : Z) : Res FlowTable :=
  _ ← flow_get t app flow pos;
  Ok (zalter (fun flows => zalter (fun ips => zalter (fun _ => v) ips pos) flows flow) t app).

(** ** [loadFlows] *)

Definition empty_flows : FlowTable :=
  replicate (Z.to_nat APP_ID_END)
    (replicate (Z.to_nat MAX_FLOWS_IN_APP) (replicate (Z.to_nat MAX_IPS_IN_FLOW) (-1))).

(** [do { iss >> ip_id; ...[pos++] = ip_id; } while (ip_id != -1)]: once the
    line is exhausted [ip_id] keeps its value, so the loop only ends by -1 or
    by leaving the table. *)
Fixpoint load_ips (fuel : nat) (t : FlowTable) (app flow pos ip_id : Z) (tokens : list Z) : Res FlowTable :=
  match fuel with
  | O => Err OutOfFuel
  | S fuel' =>
      let ip_id := default ip_id (head tokens) in
      t ← flow_set t app flow pos ip_id;
      if bool_decide (ip_id <> -1) then load_ips fuel' t app flow (pos + 1) ip_id (tail tokens)
      else Ok t
  end.

(** A position past the row faults, so the row's length bounds the loop. *)
Definition load_fuel : nat := S (Z.to_nat MAX_IPS_IN_FLOW).

(** The state of the loop: the table, [flowId], [last_app_id] and [ip_id],
    which is -1 after a row; an empty line ends it. *)
Fixpoint load_lines (t : FlowTable) (flowId last_app_id ip_id : Z) (lines : list (list Z))
  : Res FlowTable :=
  match lines with
  | [] | [] :: _ => Ok t
  | (app :: tokens) :: lines' =>
      let flowId := if bool_decide (app <> last_app_id) then 0 else flowId in
      t ← load_ips load_fuel t app flowId 0 ip_id tokens;
      load_lines t (flowId + 1) app (-1) lines'
  end.

(** The lines as the integers on them; [ip_id] starts uninitialised. *)
Definition loadFlows (ip_id : Z) (lines : list (list Z)) : Res FlowTable :=
  load_lines empty_flows 0 (-1) ip_id lines.

(** ** Queries *)

Definition isDevice (ip_type : Z) : bool :=
  if bool_decide (ip_type = IP_TYPE_CPU) then false else bool_decide (ip_type < IP_TYPE_VD).

(** The last IP of a chain: [array[j-1]] where [array[j]] is the first -1. *)
Fixpoint flow_end (row : list Z) (j : Z) : Z :=
  match row with
  | [] => j
  | ip :: row' => if bool_decide (ip = -1) then j else flow_end row' (j + 1)
  end.
Definition flowType (row : list Z) : Res Z := of_option (zget row (flow_end row 0 - 1)).

(** [ips[count++] = v] on the array the caller passes. *)
Definition push_at (st : list Z * Z) (v : Z) : Res (list Z * Z) :=
  _ ← of_option (zget st.1 st.2);
  Ok (zalter (fun _ => v) st.1 st.2, st.2 + 1).

Definition no_ips : list Z := replicate (Z.to_nat MAX_IPS_IN_FLOW) (-1).
Definition no_flows : list Z := replicate (Z.to_nat MAX_FLOWS_IN_APP) (-1).

Section Queries.
Context (flowTable : FlowTable) (app_id : list Z).

(** The row of a flow of the application that runs on a core. *)
Definition flow_row (appid flow : Z) : Res (list Z) :=
  flows ← of_option (zget flowTable appid); of_option (zget flows flow).

(** The IPs that follow [curr_ip_active] in the chains that end at [flow_type]. *)
Definition next_in_row (curr_ip_active flow_type : Z) (row : list Z) (st : list Z * Z) (j : Z)
  : Res (list Z * Z) :=
  ip ← of_option (zget row j);
  if bool_decide (ip = curr_ip_active)
  then
    last ← flowType row;
    if bool_decide (flow_type = last)
    then next ← of_option (zget row (j + 1)); push_at st next
    else Ok st
  else Ok st.

Fixpoint next_in_flows (curr_ip_active appid flow_type : Z) (st : list Z * Z) (flows : list Z)
  : Res (list Z * Z) :=
  match flows with
  | [] => Ok st
  | i :: flows' =>
      row ← flow_row appid i;
      first ← of_option (zget row 0);
      if bool_decide (first = -1) then Ok st
      else
        st ← foldM (next_in_row curr_ip_active flow_type row) st (zrange (MAX_IPS_IN_FLOW - 1));
        next_in_flows curr_ip_active appid flow_type st flows'
  end.

Definition nextIPtoCall (curr_ip_active core_id flow_type : Z) : Res (list Z) :=
  appid ← of_option (zget app_id core_id);
  st ← next_in_flows curr_ip_active appid flow_type (no_ips, 0) (zrange MAX_FLOWS_IN_APP);
  Ok st.1.

(** The chains an IP takes part in, in the table's order. *)
Definition flow_uses (ip_type i : Z) (row : list Z) (st : list Z * Z) (j : Z) : Res (list Z * Z) :=
  ip ← of_option (zget row j);
  if bool_decide (ip = ip_type) then push_at st i else Ok st.

Fixpoint identify_flows (ip_type appid : Z) (st : list Z * Z) (flows : list Z) : Res (list Z * Z) :=
  match flows with
  | [] => Ok st
  | i :: flows' =>
      row ← flow_row appid i;
      first ← of_option (zget row 0);
      if bool_decide (first = -1) then Ok st
      else
        st ← foldM (flow_uses ip_type i row) st (zrange MAX_IPS_IN_FLOW);
        identify_flows ip_type appid st flows'
  end.

Definition flow_identification (core_id ip_type : Z) : Res (list Z) :=
  appid ← of_option (zget app_id core_id);
  st ← identify_flows ip_type appid (no_flows, 0) (zrange MAX_FLOWS_IN_APP);
  Ok st.1.

(** The accelerators, and the devices, of a chain, and their number. *)
Definition pick_ip (keep : Z -> bool) (row : list Z) (st : list Z * Z) (i : Z) : Res (list Z * Z) :=
  ip ← of_option (zget row i);
  if bool_decide (ip <> -1) && keep ip then push_at st ip else Ok st.

Definition getIPAccsInFlow (core_id flow_id : Z) : Res (list Z * Z) :=
  appid ← of_option (zget app_id core_id);
  row ← flow_row appid flow_id;
  foldM (pick_ip (fun ip => negb (isDevice ip)) row) (no_ips, 0) (zrange MAX_IPS_IN_FLOW).

Definition getIPDevsInFlow (core_id flow_id : Z) : Res (list Z * Z) :=
  appid ← of_option (zget app_id core_id);
  row ← flow_row appid flow_id;
  foldM (pick_ip isDevice row) (no_ips, 0) (zrange MAX_IPS_IN_FLOW).

(** The IPs of a chain up to its first -1, and their number. *)
Fixpoint copy_ips (row : list Z) (ips : list Z) (i : Z) (idx : list Z) : Res (list Z * Z) :=
  match idx with
  | [] => Ok (ips, i)
  | _ :: idx' =>
      ip ← of_option (zget row i);
      if bool_decide (ip = -1) then Ok (ips, i)
      else copy_ips row (zalter (fun _ => ip) ips i) (i + 1) idx'
  end.

Definition getIPsInFlow (core_id flow_id : Z) : Res (list Z * Z) :=
  appid ← of_option (zget app_id core_id);
  row ← flow_row appid flow_id;
  copy_ips row no_ips 0 (zrange MAX_IPS_IN_FLOW).

(** The test reads [flowTable[appid][i][i]]: the inner index is not used. *)
Fixpoint find_flow (appid ip_id : Z) (flows : list Z) : Res Z :=
  match flows with
  | [] => Ok (-1)
  | i :: flows' =>
      row ← flow_row appid i;
      ip ← of_option (zget row i);
      if bool_decide (ip = ip_id) then Ok i else find_flow appid ip_id flows'
  end.

Definition getFlowId (core_id ip_id : Z) : Res Z :=
  appid ← of_option (zget app_id core_id);
  find_flow appid ip_id (zrange MAX_FLOWS_IN_APP).
End Queries.

Definition has2ndFlow (appID : Z) : bool :=
  negb (bool_decide (appID = 0) || bool_decide (appID = 2) || bool_decide (appID = 3)
        || bool_decide (appID = 5) || bool_decide (appID = 6) || bool_decide (appID = 7)
        || bool_decide (appID = 12)).
