(* ===== verification/SystemAgent.v ===== *)
(** * The system agent ([gemdroid_sa.cc])

    The hub between the cores, the IPs and the memory: it queues memory
    requests and responses, and the calls from one IP to the next. This file
    has its state and the operations the cores and the IPs call; its tick,
    which talks to the memory, is in [Uncore]. *)

From S2P Require Import Prelude.
From S2P Require Import GemDefines.
From S2P Require Import Flows.

Record GemDroidSA := mkSA {
  totalQueueSize : Z;
  m_cyclesToSkip : Z;
  dynamicActivity : Z;
  coreMemReq : list GemDroidMemMsg;
  ipMemReq : list GemDroidMemMsg;
  memCoreResp : list GemDroidMemMsg;
  memIpResp : list GemDroidMemMsg;
  ipCoreResp : list GemDroidIPResponse;
  ipReq : list (list GemDroidIPRequest);
  sa_ticks : Z;
  numCoreMemReqs : Z;
  numIPReqs : Z;
  numIPMemReqs : Z;
  numMemCoreResponse : Z;
  numIPCoreResponse : Z;
  numMemIPResponse : Z;
  numRejected : Z
}.

#[export] Instance eta_GemDroidSA : Settable GemDroidSA := fun r =>
  mkSA (totalQueueSize r) (m_cyclesToSkip r) (dynamicActivity r) (coreMemReq r) (ipMemReq r)
    (memCoreResp r) (memIpResp r) (ipCoreResp r) (ipReq r) (sa_ticks r) (numCoreMemReqs r)
    (numIPReqs r) (numIPMemReqs r) (numMemCoreResponse r) (numIPCoreResponse r)
    (numMemIPResponse r) (numRejected r).

#[export] Instance set_totalQueueSize : Setter totalQueueSize := ltac:(mk_setter).
#[export] Instance set_m_cyclesToSkip : Setter m_cyclesToSkip := ltac:(mk_setter).
#[export] Instance set_dynamicActivity : Setter dynamicActivity := ltac:(mk_setter).
#[export] Instance set_coreMemReq : Setter coreMemReq := ltac:(mk_setter).
#[export] Instance set_ipMemReq : Setter ipMemReq := ltac:(mk_setter).
#[export] Instance set_memCoreResp : Setter memCoreResp := ltac:(mk_setter).
#[export] Instance set_memIpResp : Setter memIpResp := ltac:(mk_setter).
#[export] Instance set_ipCoreResp : Setter ipCoreResp := ltac:(mk_setter).
#[export] Instance set_ipReq : Setter ipReq := ltac:(mk_setter).
#[export] Instance set_sa_ticks : Setter sa_ticks := ltac:(mk_setter).
#[export] Instance set_numCoreMemReqs : Setter numCoreMemReqs := ltac:(mk_setter).
#[export] Instance set_numIPReqs : Setter numIPReqs := ltac:(mk_setter).
#[export] Instance set_numIPMemReqs : Setter numIPMemReqs := ltac:(mk_setter).
#[export] Instance set_numMemCoreResponse : Setter numMemCoreResponse := ltac:(mk_setter).
#[export] Instance set_numIPCoreResponse : Setter numIPCoreResponse := ltac:(mk_setter).
#[export] Instance set_numMemIPResponse : Setter numMemIPResponse := ltac:(mk_setter).
#[export] Instance set_numRejected : Setter numRejected := ltac:(mk_setter).

(** The constructor leaves [totalQueueSize] and [m_cyclesToSkip] unset. *)
Definition GemDroidSA_new (queueSize0 cyclesToSkip0 : Z) : GemDroidSA :=
  mkSA queueSize0 cyclesToSkip0 0 [] [] [] [] [] (replicate (Z.to_nat IP_TYPE_END) [])
    0 0 0 0 0 0 0 0.

Definition GemDroidSA_resetStats (sa : GemDroidSA) : GemDroidSA :=
  sa <| sa_ticks := 0 |> <| numRejected := 0 |> <| numIPReqs := 0 |> <| numIPMemReqs := 0 |>
     <| numMemCoreResponse := 0 |> <| numIPCoreResponse := 0 |> <| numMemIPResponse := 0 |>
     <| numCoreMemReqs := 0 |>.

Definition updateActivityCountIn1Ms (activity_count : Z) (sa : GemDroidSA) : GemDroidSA :=
  sa <| dynamicActivity ::= Z.add activity_count |>.

Definition reject (sa : GemDroidSA) : GemDroidSA := sa <| numRejected ::= Z.succ |>.

(** ** Requests *)

Definition enqueueCoreMemRequest (sa : GemDroidSA) (id addr : Z) (isRead : bool) : bool * GemDroidSA :=
  if bool_decide (zlen (coreMemReq sa) + zlen (ipMemReq sa) > MAX_MEM_REQS) then (false, reject sa)
  else if bool_decide (zlen (memCoreResp sa) + zlen (memIpResp sa) > MAX_MEM_RESPS) then (false, reject sa)
  else
    let request := mkMemMsg IP_TYPE_CPU id id addr isRead false in
    (true, sa <| numCoreMemReqs ::= Z.succ |> <| coreMemReq ::= fun l => l ++ [request] |>).

Definition enqueueIPMemRequest (sa : GemDroidSA) (ip_type ip_id core_id addr : Z) (isRead : bool)
  : bool * GemDroidSA :=
  if exceeds_MAX_IP_MEM_REQS (zlen (ipMemReq sa)) then (false, reject sa)
  else if bool_decide (zlen (memCoreResp sa) + zlen (memIpResp sa) > MAX_MEM_RESPS) then (false, reject sa)
  else
    let request := mkMemMsg ip_type ip_id core_id addr isRead false in
    (true, sa <| numIPMemReqs ::= Z.succ |> <| ipMemReq ::= fun l => l ++ [request] |>).

Definition isIPReqLimitReached (sa : GemDroidSA) (ip_type : Z) : Res bool :=
  q ← of_option (zget (ipReq sa) ip_type);
  Ok (bool_decide (zlen q >= MAX_IP_OUTSTANDING_REQS)).

Definition push_ip_request (sa : GemDroidSA) (iptype : Z) (request : GemDroidIPRequest) : GemDroidSA :=
  sa <| ipReq ::= fun qs => zalter (fun q => q ++ [request]) qs iptype |>.

(** The tests [assert(1)] never fail and are left out. *)
Definition check_iptype (iptype : Z) : Res unit :=
  if bool_decide (iptype = 0) then Err (AssertFail "iptype != 0")
  else if bool_decide (iptype = IP_TYPE_END) then Err (AssertFail "iptype != IP_TYPE_END")
  else Ok tt.

Definition enqueueCoreIPRequest (sa : GemDroidSA) (receiverCoreId iptype addr size : Z) (isRead : bool)
    (frameNum flowType flowId : Z) : Res (bool * GemDroidSA) :=
  _ ← check_iptype iptype;
  let sa := sa <| numIPReqs ::= Z.succ |> in
  let request := mkIPRequest IP_TYPE_CPU receiverCoreId receiverCoreId iptype addr size isRead
                   frameNum flowType flowId in
  q ← of_option (zget (ipReq sa) iptype);
  if bool_decide (zlen q < MAX_IP_OUTSTANDING_REQS) then Ok (true, push_ip_request sa iptype request)
  else Err (AssertFail "ipReq[iptype].size() < MAX_IP_OUTSTANDING_REQS").

Definition enqueueIPIPRequest (sa : GemDroidSA) (sendertype senderid receiverCoreId iptype addr size : Z)
    (isRead : bool) (frameNum flowType flowId : Z) : Res (bool * GemDroidSA) :=
  _ ← check_iptype iptype;
  full ← isIPReqLimitReached sa iptype;
  if (full : bool) then Ok (false, sa)
  else
    let sa := sa <| numIPReqs ::= Z.succ |> in
    let request := mkIPRequest sendertype senderid receiverCoreId iptype addr size isRead
                     frameNum flowType flowId in
    Ok (true, push_ip_request sa iptype request).

(** ** Responses of the memory *)

Definition memResponse (sa : GemDroidSA) (addr : Z) (isRead : bool) (sender_type sender_id : Z)
  : Res GemDroidSA :=
  let response := mkMemMsg sender_type sender_id 0 addr isRead true in
  if bool_decide (sender_type = IP_TYPE_CPU)
  then
    if bool_decide (addr < 2147483648)
    then Ok (sa <| memCoreResp ::= fun l => l ++ [response] |> <| numMemCoreResponse ::= Z.succ |>)
    else Err (AssertFail "addr < 2 * 1024 * 1024 * 1024L")
  else if bool_decide (sender_type = -1) then Ok sa
  else
    if bool_decide (addr > 2147483648)
    then Ok (sa <| memIpResp ::= fun l => l ++ [response] |> <| numMemIPResponse ::= Z.succ |>)
    else Err (AssertFail "addr > 2 * 1024 * 1024 * 1024L").

(** ** Completion of an IP's work

    The next IP of the chain is called; a full queue drops the call (and
    prints). *)

Section Response.
Context (flowTable : FlowTable) (app_id : list Z).

(** A call whose refusal is only printed. *)
Definition call_ip (sa : GemDroidSA) (sendertype senderid receiverCoreId iptype addr size : Z)
    (isRead : bool) (frameNum flowType flowId : Z) : Res GemDroidSA :=
  '(_, sa) ← enqueueIPIPRequest sa sendertype senderid receiverCoreId iptype addr size isRead
               frameNum flowType flowId;
  Ok sa.

Definition first_next (sendertype core flow : Z) : Res Z :=
  ips ← nextIPtoCall flowTable app_id sendertype core flow; of_option (zget ips 0).

(** The dispatch on the type of the IP that completed. *)
Definition call_next (sa : GemDroidSA) (ty id core frameNum flowType flowid1 flowid2 : Z)
  : Res GemDroidSA :=
  if bool_decide (ty = IP_TYPE_CAM) then
    n ← first_next ty core IP_TYPE_DC;
    sa ← (if bool_decide (n = IP_TYPE_IMG)
          then call_ip sa ty id core IP_TYPE_IMG CAM_ADDR_START (4 * FRAME_SIZE / 2) true frameNum flowType flowid1
          else Ok sa);
    n ← first_next ty core IP_TYPE_MMC_OUT;
    sa ← (if bool_decide (n = IP_TYPE_VE)
          then call_ip sa ty id core IP_TYPE_VE CAM_ADDR_START (4 * FRAME_SIZE / 1) true frameNum flowType flowid2
          else Ok sa);
    n ← first_next ty core IP_TYPE_NW;
    (if bool_decide (n = IP_TYPE_VE)
     then call_ip sa ty id core IP_TYPE_VE CAM_ADDR_START (4 * FRAME_SIZE / 1) true frameNum flowType flowid2
     else Ok sa)
  else if bool_decide (ty = IP_TYPE_MIC) then
    call_ip sa ty id core IP_TYPE_AE MIC_ADDR_START (4 * AUD_FRAME_SIZE) true frameNum flowType flowid1
  else if bool_decide (ty = IP_TYPE_VD) then
    call_ip sa ty id core IP_TYPE_DC (VD_ADDR_START + FRAME_SIZE) (4 * FRAME_SIZE) true frameNum flowType flowid1
  else if bool_decide (ty = IP_TYPE_AD) then
    call_ip sa ty id core IP_TYPE_SND (AD_ADDR_START + AUD_FRAME_SIZE) (4 * AUD_FRAME_SIZE) true frameNum flowType flowid1
  else if bool_decide (ty = IP_TYPE_IMG) then
    sa ← call_ip sa ty id core IP_TYPE_DC (IMG_ADDR_START + FRAME_SIZE) (4 * FRAME_SIZE) true frameNum flowType flowid1;
    n ← first_next ty core IP_TYPE_MMC_OUT;
    (if bool_decide (n <> -1)
     then call_ip sa ty id core IP_TYPE_MMC_OUT (IMG_ADDR_START + FRAME_SIZE) FRAME_SIZE false frameNum flowType flowid2
     else Ok sa)
  else if bool_decide (ty = IP_TYPE_VE) then
    n ← first_next ty core IP_TYPE_VE;
    (if bool_decide (n = IP_TYPE_NW) then Ok sa
     else call_ip sa ty id core IP_TYPE_MMC_OUT (VE_ADDR_START + FRAME_SIZE) (FRAME_SIZE / VID_CODING_RATIO)
            false frameNum flowType flowid1)
  else if bool_decide (ty = IP_TYPE_AE) then
    n ← first_next ty core IP_TYPE_AE;
    (if bool_decide (n = IP_TYPE_NW) then Ok sa
     else call_ip sa ty id core IP_TYPE_MMC_OUT (AE_ADDR_START + AUD_FRAME_SIZE) (AUD_FRAME_SIZE / AUD_CODING_RATIO)
            false frameNum flowType flowid1)
  else if bool_decide (ty = IP_TYPE_MMC_IN) then
    next_ip ← first_next ty core flowType;
    (if bool_decide (next_ip = IP_TYPE_AD)
     then call_ip sa ty id core IP_TYPE_AD MMC_IN_ADDR_START (4 * AUD_FRAME_SIZE / AUD_CODING_RATIO) true
            frameNum flowType flowid1
     else if bool_decide (next_ip = IP_TYPE_IMG)
     then call_ip sa ty id core IP_TYPE_IMG MMC_IN_ADDR_START (4 * FRAME_SIZE / 2) true frameNum flowType flowid1
     else if bool_decide (next_ip = IP_TYPE_VD)
     then call_ip sa ty id core IP_TYPE_VD MMC_IN_ADDR_START (4 * FRAME_SIZE / VID_CODING_RATIO) true
            frameNum flowType flowid1
     else Ok sa)
  else if bool_decide (ty = IP_TYPE_GPU) then
    call_ip sa ty id core IP_TYPE_DC (DC1_ADDR_START + FRAME_SIZE) (4 * FRAME_SIZE) true frameNum flowType flowid1
  else Ok sa.

(** The completion time that [markIPRequestCompleted] returns is not used;
    what it records is the platform's. *)
Definition enqueueIPResponse (sa : GemDroidSA) (senderIPType senderIPId receiverCoreId frameNum flowType : Z)
  : Res (bool * GemDroidSA) :=
  let sa := sa <| numIPCoreResponse ::= Z.succ |> in
  flows ← flow_identification flowTable app_id receiverCoreId senderIPType;
  flowid1 ← of_option (zget flows 0);
  flowid2 ← of_option (zget flows 1);
  sa ← call_next sa senderIPType senderIPId receiverCoreId frameNum flowType flowid1 flowid2;
  Ok (true, sa).
End Response.
