(* ===== verification/GemMemory.v ===== *)
(** * The platform's memory ([gemdroid_mem.cc])

    The memory object of the platform wraps the DRAM simulator, counts the
    requests and holds the memory frequency, which the governors move in steps
    of 100 MHz between [MIN_MEM_FREQ] and [MAX_MEM_FREQ]. *)

From S2P Require Import Prelude.
From S2P Require Import DramConfig.
From S2P Require Import BusTypes.
From S2P Require Import MemoryController.
From S2P Require Import MemorySystem.
From S2P Require Import MultiChannel.
From S2P Require Import GemDefines.

Definition MAX_MEM_FREQ : spec_float := F64.lit 1 1.
Definition MIN_MEM_FREQ : spec_float := F64.lit 3 10.
Definition EPSILON : spec_float := F64.lit 5 1000000.

Record GemDroidMemory := mkGemMemory {
  dramWrapper : DRAMSim2Wrapper;
  mem_ticks : Z;
  perfectMemory : bool;
  m_freq : spec_float;
  m_optMemFreq : spec_float;
  m_memCPUReqs : Z;
  m_memIPReqs : Z;
  m_memRejected : Z
}.

#[export] Instance eta_GemDroidMemory : Settable GemDroidMemory := fun r =>
  mkGemMemory (dramWrapper r) (mem_ticks r) (perfectMemory r) (m_freq r) (m_optMemFreq r)
    (m_memCPUReqs r) (m_memIPReqs r) (m_memRejected r).

#[export] Instance set_dramWrapper : Setter dramWrapper := ltac:(mk_setter).
#[export] Instance set_mem_ticks : Setter mem_ticks := ltac:(mk_setter).
#[export] Instance set_perfectMemory : Setter perfectMemory := ltac:(mk_setter).
#[export] Instance set_m_freq : Setter m_freq := ltac:(mk_setter).
#[export] Instance set_m_optMemFreq : Setter m_optMemFreq := ltac:(mk_setter).
#[export] Instance set_m_memCPUReqs : Setter m_memCPUReqs := ltac:(mk_setter).
#[export] Instance set_m_memIPReqs : Setter m_memIPReqs := ltac:(mk_setter).
#[export] Instance set_m_memRejected : Setter m_memRejected := ltac:(mk_setter).

(** The constructor leaves [m_freq] unset until the platform sets it. *)
Definition GemDroidMemory_new (ini : Cfg) (vdd period : spec_float) (sizeMB : Z) (perfect : bool)
    (freq0 : spec_float) : Res GemDroidMemory :=
  w ← Wrapper_new ini vdd period sizeMB;
  Ok (mkGemMemory (setCallbacks w) 0 perfect freq0 (F64.lit 8 10) 0 0 0).

Definition GemDroidMemory_resetStats (m : GemDroidMemory) : GemDroidMemory :=
  m <| m_memCPUReqs := 0 |> <| m_memIPReqs := 0 |> <| m_memRejected := 0 |>.

(** ** Frequency *)

(** Record the frequency and hand it to the simulator. *)
Definition set_freq (freq : spec_float) (m : GemDroidMemory) : GemDroidMemory :=
  m <| m_freq := freq |> <| dramWrapper ::= Wrapper_updateFreq freq |>.

Definition setMemFreq (freq : spec_float) (m : GemDroidMemory) : Res GemDroidMemory :=
  if F64.leb (F64.sub MIN_MEM_FREQ EPSILON) freq && F64.leb freq (F64.add MAX_MEM_FREQ EPSILON)
  then Ok (set_freq freq m)
  else Err (AssertFail "freq >= (MIN_MEM_FREQ-EPSILON) && freq <= (MAX_MEM_FREQ+EPSILON)").

Definition setMinMemFreq (m : GemDroidMemory) : GemDroidMemory := set_freq MIN_MEM_FREQ m.
Definition setMaxMemFreq (m : GemDroidMemory) : GemDroidMemory := set_freq MAX_MEM_FREQ m.
Definition setOptMemFreq (m : GemDroidMemory) : GemDroidMemory := set_freq (m_optMemFreq m) m.

(** [0.1*steps] *)
Definition freq_step (steps : Z) : spec_float := F64.mul (F64.lit 1 10) (F64.of_Z steps).

Definition incMemFreq (steps : Z) (m : GemDroidMemory) : GemDroidMemory :=
  let f := F64.add (m_freq m) (freq_step steps) in
  set_freq (if F64.leb f MAX_MEM_FREQ then f else MAX_MEM_FREQ) m.

Definition decMemFreq (steps : Z) (m : GemDroidMemory) : GemDroidMemory :=
  let f := F64.sub (m_freq m) (freq_step steps) in
  set_freq (if F64.leb MIN_MEM_FREQ f then f else MIN_MEM_FREQ) m.

(** [64*2*freq/8] *)
Definition getMaxBandwidth (freq : spec_float) : spec_float :=
  F64.div (F64.mul (F64.of_Z (64 * 2)) freq) (F64.of_Z 8).
Definition getFreqForBandwidth (bw : spec_float) : spec_float := F64.div bw (F64.of_Z 16).

(** ** Cycles

    The calls of the completion callbacks of one tick, in order: the record of
    the calls is emptied first, and the channels are updated in turn. *)

Definition forget_calls (ms : MemorySystem) : MemorySystem :=
  ms <| memoryController ::= fun mc => mc <| callbacks := [] |> |>.

Definition channel_calls (ms : MemorySystem) : list Callback := callbacks (memoryController ms).

Definition wrapper_calls (w : DRAMSim2Wrapper) : list Callback :=
  mjoin (channel_calls <$> channels (dramsim w)).

Definition GemDroidMemory_tick (m : GemDroidMemory) : Res (GemDroidMemory * list Callback) :=
  let m := m <| mem_ticks ::= Z.succ |> in
  let w := (dramWrapper m) <| dramsim ::= fun d => d <| channels ::= fmap forget_calls |> |> in
  w ← Wrapper_tick w;
  Ok (m <| dramWrapper := w |>, wrapper_calls w).
