(* ===== verification/MemStats.v ===== *)
(** * What the memory measures ([MemoryController.cpp:printStats] and the
    readings of its figures, up to [gemdroid_mem.cc])

    Each millisecond every channel turns its counters into figures, and starts
    them again. The members that only these figures use are kept beside the
    controllers, one record per channel in the order of the channels. What is
    printed, or written to the csv file, is left out. *)

From S2P Require Import Prelude.
From S2P Require Import DramConfig.
From S2P Require Import BusTypes.
From S2P Require Import CommandQueue.
From S2P Require Import MemoryController.
From S2P Require Import MemorySystem.
From S2P Require Import MultiChannel.
From S2P Require Import GemMemory.

Module MemStats.

Record Figures := mkFigures {
  prevClockCycle : Z;
  m_totalBandwidth : spec_float;
  m_latency : spec_float;
  m_sumEnergy : spec_float;
  m_countPower : Z
}.

#[export] Instance eta_Figures : Settable Figures := fun r =>
  mkFigures (prevClockCycle r) (m_totalBandwidth r) (m_latency r) (m_sumEnergy r) (m_countPower r).

#[export] Instance set_prevClockCycle : Setter prevClockCycle := ltac:(mk_setter).
#[export] Instance set_m_totalBandwidth : Setter m_totalBandwidth := ltac:(mk_setter).
#[export] Instance set_m_latency : Setter m_latency := ltac:(mk_setter).
#[export] Instance set_m_sumEnergy : Setter m_sumEnergy := ltac:(mk_setter).
#[export] Instance set_m_countPower : Setter m_countPower := ltac:(mk_setter).

Definition zero : spec_float := F64.of_Z 0.

(** The constructor leaves [m_latency] unset. *)
Definition Figures_new (latency : spec_float) : Figures := mkFigures 0 zero latency zero 0.

Definition is_nan (x : spec_float) : bool := match x with S754_nan => true | _ => false end.

Section Channel.
Context {cfg : Cfg}.

(** The sums over the banks: bandwidth, latency, and the banks that were read. *)
Record Sums := mkSums { su_bandwidth : spec_float; su_latency : spec_float; su_valid : Z }.

Definition bytesPerTransaction : Z := u32 (JEDEC_DATA_BUS_BITS * BL) / 8.
Definition GB : spec_float := F64.of_Z (1024 * 1024 * 1024).

(** [reads], [writes] and [latency] are the counters of a bank. *)
Definition bank_bandwidth (seconds : spec_float) (reads writes : Z) : spec_float :=
  F64.div (F64.div (F64.mul (F64.of_Z (u64 (reads + writes))) (F64.of_Z bytesPerTransaction)) GB) seconds.

(** In single precision, as [tCK] is. *)
Definition bank_latency (latency reads : Z) : spec_float :=
  F64.of_F32 (SFmul 24 128 (F32.div (F32.of_Z latency) (F32.of_Z reads)) tCK).

Definition bank_figures (seconds : spec_float) (st : Sums * MemoryController) (ij : Z * Z)
  : Res (Sums * MemoryController) :=
  let '(s, mc) := st in
  let k := SEQUENTIAL ij.1 ij.2 in
  reads ← of_option (zget (totalReadsPerBank mc) k);
  writes ← of_option (zget (totalWritesPerBank mc) k);
  latency ← of_option (zget (totalEpochLatency mc) k);
  per_rank_reads ← add_at reads (totalReadsPerRank mc) ij.1;
  per_rank_writes ← add_at writes (totalWritesPerRank mc) ij.1;
  let bw := F64.add (su_bandwidth s) (bank_bandwidth seconds reads writes) in
  let s := if bool_decide (reads <> 0)
           then mkSums bw (F64.add (su_latency s) (bank_latency latency reads)) (su_valid s + 1)
           else mkSums bw (su_latency s) (su_valid s) in
  Ok (s, mc <| totalReadsPerRank := per_rank_reads |> <| totalWritesPerRank := per_rank_writes |>).

(** The energy of a rank: the counters are integers, multiplied by [Vdd] in
    single precision. *)
Definition rank_energy (vdd : spec_float) (mc : MemoryController) (sum : spec_float) (r : Z) : Res spec_float :=
  background ← of_option (zget (backgroundEnergy mc) r);
  burst ← of_option (zget (burstEnergy mc) r);
  refresh ← of_option (zget (refreshEnergy mc) r);
  actpre ← of_option (zget (actpreEnergy mc) r);
  let energy := SFmul 24 128 (F32.of_Z (u64 (background + burst + refresh + actpre))) vdd in
  Ok (F64.add sum (F64.mul (F64.of_F32 energy) (F64.lit 1 1000000000))).

Definition printStats (vdd : spec_float) (finalStats : bool) (fg : Figures) (mc : MemoryController)
  : Res (Figures * MemoryController) :=
  let cyclesElapsed := u64 (mc_currentClockCycle mc - prevClockCycle fg) in
  let seconds := F64.mul (F64.mul (F64.of_Z cyclesElapsed) (F64.of_F32 tCK)) (F64.lit 1 1000000000) in
  '(s, mc) ← foldM (bank_figures seconds) (mkSums zero zero 0, mc) rank_bank_pairs;
  sum ← foldM (rank_energy vdd mc) (m_sumEnergy fg) (zrange NUM_RANKS);
  cq ← CommandQueue_printStats (commandQueue mc);
  mc ← blpPrintStats (mc <| commandQueue := cq |>) finalStats;
  mc ← resetStats (mc <| totalQueueSize := 0 |>);
  Ok (fg <| prevClockCycle := mc_currentClockCycle mc |>
         <| m_totalBandwidth := su_bandwidth s |>
         <| m_latency := F64.div (su_latency s) (F64.of_Z (su_valid s)) |>
         <| m_sumEnergy := sum |> <| m_countPower ::= Z.succ |>, mc).

End Channel.

(** ** Readings

    Reading the power starts its average again. *)

Definition channel_power (fg : Figures) : spec_float := F64.div (m_sumEnergy fg) (F64.of_Z (m_countPower fg)).
Definition power_read (fg : Figures) : Figures := fg <| m_sumEnergy := zero |> <| m_countPower := 0 |>.

(** The figures of all channels, and the last power that was a number. *)
Record MemStats := mkMemStats { figures : list Figures; m_power : spec_float }.

Definition sum_of (f : Figures -> spec_float) (l : list Figures) : spec_float :=
  foldl (fun s fg => F64.add s (f fg)) zero l.

Definition getBandwidth (ms : MemStats) : spec_float := sum_of m_totalBandwidth (figures ms).
Definition getLatency (ms : MemStats) : spec_float :=
  F64.div (sum_of m_latency (figures ms)) (F64.of_Z (zlen (figures ms))).

Definition powerIn1ms (ms : MemStats) : spec_float * MemStats :=
  let power := sum_of channel_power (figures ms) in
  let figures := power_read <$> figures ms in
  if is_nan power then (m_power ms, mkMemStats figures (m_power ms)) else (power, mkMemStats figures power).

(** [MultiChannelMemorySystem::printStats], called for the memory's own
    statistics. *)
Definition print_channel (cfg : Cfg) (vdd : spec_float) (finalStats : bool) (st : list Figures * list MemorySystem)
    (i : Z) : Res (list Figures * list MemorySystem) :=
  let '(fgs, chs) := st in
  fg ← of_option (zget fgs i);
  ms ← of_option (zget chs i);
  '(fg, mc) ← printStats vdd finalStats fg (memoryController ms);
  Ok (zalter (fun _ => fg) fgs i, zalter (fun _ => ms <| memoryController := mc |>) chs i).

Definition MultiChannel_printStats (finalStats : bool) (fgs : list Figures) (m : MultiChannelMemorySystem)
  : Res (list Figures * MultiChannelMemorySystem) :=
  '(fgs, chs) ← foldM (print_channel (config m) (Vdd m) finalStats) (fgs, channels m) (zrange (getNumChannels m));
  Ok (fgs, m <| channels := chs |>).

Definition printPeriodicStats (ms : MemStats) (m : GemDroidMemory) : Res (MemStats * GemDroidMemory) :=
  '(fgs, d) ← MultiChannel_printStats false (figures ms) (dramsim (dramWrapper m));
  Ok (mkMemStats fgs (m_power ms), m <| dramWrapper ::= fun w => w <| dramsim := d |> |>).

(** ** The readings of a governor

    After the first reading there is nothing to read: the power stays what it
    was, until the next millisecond. *)

Lemma powerIn1ms_is_m_power ms : fst (powerIn1ms ms) = m_power (snd (powerIn1ms ms)).
Proof. unfold powerIn1ms. by destruct (is_nan _). Qed.

(** A sum of quotients that are no numbers is none. *)
Lemma sum_of_nan f l : Forall (fun fg => f fg = S754_nan) l -> l <> [] -> sum_of f l = S754_nan.
Proof.
  intros H Hl. unfold sum_of.
  assert (forall l x, Forall (fun fg => f fg = S754_nan) l ->
            (l <> [] \/ x = S754_nan) -> foldl (fun s fg => F64.add s (f fg)) x l = S754_nan) as Hf.
  { clear. induction l as [|fg l IH]; intros x Hall [Hne | ->]; try done.
    - inversion Hall as [|? ? Hfg Hl']; subst. simpl. rewrite Hfg. apply IH; [done|]. right. by destruct x.
    - inversion Hall; subst. simpl. apply IH; [done|]. by right. }
  apply Hf; auto.
Qed.

Lemma powerIn1ms_again ms :
  figures ms <> [] -> powerIn1ms (snd (powerIn1ms ms)) = (m_power (snd (powerIn1ms ms)), snd (powerIn1ms ms)).
Proof.
  intros Hne.
  assert (figures (snd (powerIn1ms ms)) = power_read <$> figures ms) as Hfg.
  { unfold powerIn1ms. by destruct (is_nan _). }
  assert (sum_of channel_power (figures (snd (powerIn1ms ms))) = S754_nan) as Hsum.
  { rewrite Hfg. apply sum_of_nan; [|by destruct (figures ms)].
    apply Forall_fmap, Forall_true. by intros fg. }
  generalize dependent (snd (powerIn1ms ms)). intros ms' Hfg Hsum.
  unfold powerIn1ms. rewrite Hsum. simpl.
  destruct ms' as [l x]. simpl in *. subst l.
  do 2 f_equal. rewrite <- list_fmap_compose. apply list_fmap_ext. by intros ? fg _.
Qed.

End MemStats.
