(* ===== verification/MemoryFlow.v ===== *)
(** * What goes into the memory and what comes out

    The contract of the platform's memory towards the agent: a request it
    takes joins the requests it holds, a tick hands back some of those it
    holds through the callbacks, and nothing else changes them. *)

From stdpp Require Import gmap.
From S2P Require Import Prelude.
From S2P Require Import DramConfig.
From S2P Require Import AddressMapping.
From S2P Require Import BusTypes.
From S2P Require Import DramRank.
From S2P Require Import RankSafety.
From S2P Require Import CommandQueue.
From S2P Require Import MemoryController.
From S2P Require Import ControllerInv.
From S2P Require Import MemorySystem.
From S2P Require Import IssueStages.
From S2P Require Import PowerStages.
From S2P Require Import ClockDomain.
From S2P Require Import MultiChannel.
From S2P Require Import MultiChannelSafety.
From S2P Require Import GemDefines.
From S2P Require Import GemMemory.

(** A request or a response: address, sender type, sender id, is a read. *)
Definition Msg : Type := Key * bool.

(** ** One channel *)

(** The requests a channel holds, not yet reported by a callback. *)
Definition reads_waiting (ms : MemorySystem) : list Key :=
  transactions_of DATA_READ (pendingTransactions ms)
  ++ transactions_of DATA_READ (transactionQueue (memoryController ms))
  ++ (tr_key <$> pendingReadTransactions (memoryController ms)).

Definition writes_waiting (ms : MemorySystem) : list Key :=
  let mc := memoryController ms in
  transactions_of DATA_WRITE (pendingTransactions ms)
  ++ transactions_of DATA_WRITE (transactionQueue mc) ++ queued_writes (commandQueue mc)
  ++ (packet_key <$> opt_list (mc_outgoingDataPacket mc) ++ writeDataToSend mc).

Definition waiting (ms : MemorySystem) : list Msg :=
  ((., true) <$> reads_waiting ms) ++ ((., false) <$> writes_waiting ms).

(** The request a callback reports. *)
Definition call_msg (c : Callback) : Msg :=
  match c with
  | ReadDone _ addr _ st si => (addr, st, si, true)
  | WriteDone _ addr _ st si => (addr, st, si, false)
  end.

Lemma channel_reads_split ms : channel_reads ms ≡ₚ reads_waiting ms ++ reads_done (memoryController ms).
Proof. unfold channel_reads, reads_account, reads_waiting. solve_Permutation. Qed.

Lemma channel_writes_split ms : channel_writes ms ≡ₚ writes_waiting ms ++ writes_done (memoryController ms).
Proof. unfold channel_writes, writes_account, writes_waiting. solve_Permutation. Qed.

Lemma calls_split mc :
  call_msg <$> callbacks mc ≡ₚ ((., true) <$> reads_done mc) ++ ((., false) <$> writes_done mc).
Proof.
  unfold reads_done, writes_done. induction (callbacks mc) as [|c l IH]; [done|]. cbn.
  destruct c; cbn; rewrite IH; solve_Permutation.
Qed.

Section Channel.
Context {cfg : Cfg}.

Lemma forget_calls_ok t rds wrs ms :
  channel_inv t rds wrs ms -> channel_inv t (reads_waiting ms) (writes_waiting ms) (forget_calls ms).
Proof.
  intros [[Hsh Hq Hc Hlr Hrr Hp Hs Hw Htr Hrd Hpr] Hpend Hcb _ _]. constructor; try done.
  - constructor; try done; [by apply (mc_shape_frame (memoryController ms))|]. destruct Hw. by constructor.
  - rewrite channel_reads_split. unfold reads_done. cbn. by rewrite app_nil_r.
  - rewrite channel_writes_split. unfold writes_done. cbn. by rewrite app_nil_r.
Qed.

(** The account of a channel, when the calls were forgotten at its start. *)
Lemma channel_account t ms ms' :
  channel_inv t (reads_waiting ms) (writes_waiting ms) ms' ->
  waiting ms ≡ₚ waiting ms' ++ (call_msg <$> callbacks (memoryController ms')).
Proof.
  intros [_ _ _ Hr Hw]. unfold waiting. rewrite calls_split.
  rewrite <- Hr, <- Hw, channel_reads_split, channel_writes_split, !fmap_app. solve_Permutation.
Qed.
End Channel.

(** ** All channels *)

Definition in_memory (m : GemDroidMemory) : list Msg :=
  mjoin (waiting <$> channels (dramsim (dramWrapper m))).

(** The channels in a state a run reaches, after [t] ticks. *)
Definition memory_ok (cfg0 : Cfg) (t : Z) (m : GemDroidMemory) : Prop :=
  exists rds wrs, memory_inv cfg0 t rds wrs (dramsim (dramWrapper m)).

Lemma mjoin_perm {A B} (f g : A -> list B) (l : list A) (l' : list A) :
  length l = length l' ->
  (forall i x y, l !! i = Some x -> l' !! i = Some y -> f x ≡ₚ g y) ->
  mjoin (f <$> l) ≡ₚ mjoin (g <$> l').
Proof.
  revert l'. induction l as [|x l IH]; intros [|y l'] Hlen H; try done. cbn.
  rewrite (H 0%nat x y) by done. rewrite (IH l'); [done | by injection Hlen |].
  intros i. apply (H (S i)).
Qed.

Lemma mjoin_app_perm {A B} (f g : A -> list B) (l : list A) :
  mjoin ((fun x => f x ++ g x) <$> l) ≡ₚ mjoin (f <$> l) ++ mjoin (g <$> l).
Proof. induction l as [|x l IH]; [done|]. cbn. rewrite IH. solve_Permutation. Qed.

Lemma mjoin_fmap {A B C} (h : B -> C) (f : A -> list B) (l : list A) :
  h <$> mjoin (f <$> l) = mjoin ((fun x => h <$> f x) <$> l).
Proof. induction l as [|x l IH]; [done|]. cbn. rewrite fmap_app. by f_equal. Qed.

(** The requests held by channel [i]. *)
Definition held (f : MemorySystem -> list Key) (m : MultiChannelMemorySystem) (i : Z) : list Key :=
  match zget (channels m) i with Some ms => f ms | None => [] end.

Lemma forget_all_inv cfg0 t rds wrs m :
  memory_inv cfg0 t rds wrs m ->
  memory_inv cfg0 t (held reads_waiting m) (held writes_waiting m) (m <| channels ::= fmap forget_calls |>).
Proof.
  intros [Hcf He Hl Hr Hc Hs]. constructor; try assumption.
  - cbn. by rewrite zlen_fmap.
  - intros i Hi. destruct (Hs i Hi) as (ms & E & H). unfold held. rewrite E. exists (forget_calls ms).
    split; [cbn; by rewrite zget_fmap, E | by apply forget_calls_ok in H].
Qed.

Lemma NUM_CHANS_inv cfg0 t rds wrs m :
  memory_inv cfg0 t rds wrs m -> getNumChannels m = @NUM_CHANS cfg0.
Proof. intros [[x E] _ _ _ _ _]. unfold getNumChannels. by rewrite E. Qed.

(** One tick: the calls are requests the memory held, each once. *)
Lemma GemDroidMemory_tick_ok cfg0 t m :
  0 <= t < 2 ^ 62 -> memory_ok cfg0 t m ->
  exists m' calls, GemDroidMemory_tick m = Ok (m', calls) /\ memory_ok cfg0 (t + 1) m' /\
    in_memory m ≡ₚ in_memory m' ++ (call_msg <$> calls) /\ perfectMemory m' = perfectMemory m.
Proof.
  intros Ht (rds & wrs & Hm). pose proof (forget_all_inv _ _ _ _ _ Hm) as Hf.
  destruct (MultiChannel_update_inv cfg0 t _ _ _ Ht Hf) as (d & E & Hd).
  unfold GemDroidMemory_tick, Wrapper_tick.
  change (dramsim ((dramWrapper (m <| mem_ticks ::= Z.succ |>)) <| dramsim ::= fun d => d <| channels ::= fmap forget_calls |> |>))
    with ((dramsim (dramWrapper m)) <| channels ::= fmap forget_calls |>).
  rewrite E. cbn [mbind Res_bind]. do 2 eexists. split; [reflexivity|].
  split; [by do 2 eexists | split; [|done]].
  unfold in_memory, wrapper_calls.
  change (dramsim (dramWrapper (_ <| dramWrapper := _ |>))) with d. change (dramsim (_ <| dramsim := d |>)) with d.
  rewrite mjoin_fmap. rewrite <- (mjoin_app_perm waiting (fun ms => call_msg <$> channel_calls ms)).
  pose proof (NUM_CHANS_inv _ _ _ _ _ Hm) as N1. pose proof (NUM_CHANS_inv _ _ _ _ _ Hd) as N2.
  pose proof (mi_len _ _ _ _ _ Hm) as L1. pose proof (mi_len _ _ _ _ _ Hd) as L2.
  apply mjoin_perm.
  - unfold getNumChannels, zlen in *. lia.
  - intros i ms ms' E1 E2. assert (0 <= Z.of_nat i < @NUM_CHANS (config d)) as Hi.
    { apply lookup_lt_Some in E2. unfold zlen in L2. lia. }
    destruct (mi_channels _ _ _ _ _ Hd (Z.of_nat i) Hi) as (ms2 & E3 & H).
    apply zget_lookup in E3 as [_ E3]. rewrite Nat2Z.id in E3. rewrite E2 in E3. injection E3 as <-.
    assert (zget (channels (dramsim (dramWrapper m))) (Z.of_nat i) = Some ms) as E4.
    { apply zget_lookup. split; [lia | by rewrite Nat2Z.id]. }
    unfold held in H. rewrite E4 in H. by apply channel_account in H.
Qed.

(** ** Requests *)

Lemma addTransaction_calls {cfg : Cfg} ms w addr st si :
  callbacks (memoryController (MemorySystem_addTransaction ms w addr st si).2) = callbacks (memoryController ms).
Proof.
  unfold MemorySystem_addTransaction, MemoryController_addTransaction.
  by destruct (MemoryController_WillAcceptTransaction (memoryController ms)).
Qed.

Lemma addTransaction_waiting {cfg : Cfg} t rds wrs ms w addr st si :
  in_u64 addr -> channel_inv t rds wrs ms ->
  waiting (MemorySystem_addTransaction ms w addr st si).2 ≡ₚ (addr, st, si, negb w) :: waiting ms.
Proof.
  intros Ha Hi. pose proof (MemorySystem_addTransaction_ok _ _ _ _ w addr st si Ha Hi) as [_ _ _ Hr Hw].
  destruct Hi as [_ _ _ Hr0 Hw0]. rewrite <- Hr0 in Hr. rewrite <- Hw0 in Hw.
  rewrite !channel_reads_split in Hr. rewrite !channel_writes_split in Hw.
  unfold reads_done, writes_done in *. rewrite !addTransaction_calls in Hr, Hw.
  rewrite app_assoc in Hr, Hw. apply Permutation_app_inv_r in Hr, Hw.
  unfold waiting. rewrite Hr, Hw. unfold add_key. destruct w; cbn; solve_Permutation.
Qed.

Lemma mjoin_zalter {A B} (f : A -> list B) (l : list A) i x y k :
  zget l i = Some x -> f y ≡ₚ k :: f x ->
  mjoin (f <$> zalter (fun _ => y) l i) ≡ₚ k :: mjoin (f <$> l).
Proof.
  intros [Hi E]%zget_lookup Hy. unfold zalter. rewrite bool_decide_true by done.
  revert E. generalize (Z.to_nat i). clear i Hi. induction l as [|z l IH]; intros [|n] E; try done.
  - injection E as ->. cbn. by rewrite Hy.
  - cbn. rewrite (IH n E). solve_Permutation.
Qed.

Lemma call_channel_add cfg0 t m w addr st si :
  in_u64 addr -> memory_ok cfg0 t m ->
  exists wr, Wrapper_enqueue (dramWrapper m) w addr st si = Ok wr /\
    memory_ok cfg0 t (m <| dramWrapper := wr |>) /\
    in_memory (m <| dramWrapper := wr |>) ≡ₚ (addr, st, si, negb w) :: in_memory m.
Proof.
  intros Ha (rds & wrs & Hm).
  destruct (addTransaction_inv cfg0 t rds wrs w addr st si _ Ha Hm) as (Hc & d & E & Hd).
  unfold Wrapper_enqueue. rewrite E. cbn [mbind Res_bind negb]. eexists. split; [reflexivity|].
  split; [by do 2 eexists|].
  destruct (mi_channels _ _ _ _ _ Hm _ Hc) as (ms & Ems & Hms).
  assert (newTransactionChan (@addressMapping (config (dramsim (dramWrapper m))) addr)
    = newTransactionChan (@addressMapping cfg0 addr)) as Ec.
  { destruct (mi_config _ _ _ _ _ Hm) as [x ->]. by rewrite addressMapping_tCK. }
  unfold MultiChannel_addTransaction in E.
  rewrite findChannelNumber_ok, Ec in E by (done || apply (ev_geo (mi_env _ _ _ _ _ Hm))).
  cbn [mbind Res_bind] in E. unfold call_channel in E. rewrite Ems in E. cbn [of_option mbind Res_bind] in E.
  pose proof (@addTransaction_waiting (config (dramsim (dramWrapper m))) t _ _ ms w addr st si Ha Hms) as Hw.
  destruct (@MemorySystem_addTransaction (config (dramsim (dramWrapper m))) ms w addr st si) as [ok ms'].
  injection E as -> <-. unfold in_memory. cbn. by apply (mjoin_zalter waiting _ _ ms).
Qed.

Lemma all_accept_ok cfg chs idx :
  (forall i, i ∈ idx -> 0 <= i < zlen chs) -> exists b, all_accept cfg chs idx = Ok b.
Proof.
  induction idx as [|i idx IH]; intros H; cbn; [eauto|].
  destruct (of_option_zget chs i) as (ms & _ & ->); [apply H; left|]. cbn.
  destruct (MemorySystem_WillAcceptTransaction ms); cbn; [|eauto]. apply IH. intros j Hj. apply H. by right.
Qed.

Lemma canAccept_ok cfg0 t m : memory_ok cfg0 t m -> exists b, canAccept (dramWrapper m) = Ok b.
Proof.
  intros (rds & wrs & Hm). unfold canAccept, willAcceptTransaction. apply all_accept_ok.
  intros i Hi%elem_of_zrange. by rewrite (mi_len _ _ _ _ _ Hm).
Qed.

(** ** Frequency changes *)

Lemma set_freq_ok cfg0 t m freq :
  memory_ok cfg0 t m -> memory_ok cfg0 t (set_freq freq m) /\ in_memory (set_freq freq m) = in_memory m.
Proof.
  intros (rds & wrs & Hm). split.
  - exists rds, wrs. by apply (updateFreq_inv _ _ _ _ freq) in Hm.
  - unfold in_memory, set_freq. cbn. unfold MultiChannel_updateFreq. by destruct (voltage_of _).
Qed.
