(* ===== verification/Uncore.v ===== *)
(** * The agent and the memory together
    ([gemdroid_sa.cc], [gemdroid_mem.cc])

    They call each other: the agent injects requests, the memory's completion
    callbacks hand responses back, at once when the memory is perfect. The
    cores and the IPs that receive responses and calls are behind an
    interface. *)

From S2P Require Import Prelude.
From S2P Require Import DramConfig.
From S2P Require Import BusTypes.
From S2P Require Import MemoryController.
From S2P Require Import MemorySystem.
From S2P Require Import MultiChannel.
From S2P Require Import GemDefines.
From S2P Require Import Flows.
From S2P Require Import SystemAgent.
From S2P Require Import GemMemory.

Record Uncore := mkUncore {
  gemdroid_sa : GemDroidSA;
  gemdroid_memory : GemDroidMemory;
  appMemReqs : list Z;
  ipMemReqs : list Z
}.

#[export] Instance eta_Uncore : Settable Uncore := fun r =>
  mkUncore (gemdroid_sa r) (gemdroid_memory r) (appMemReqs r) (ipMemReqs r).

#[export] Instance set_gemdroid_sa : Setter gemdroid_sa := ltac:(mk_setter).
#[export] Instance set_gemdroid_memory : Setter gemdroid_memory := ltac:(mk_setter).
#[export] Instance set_appMemReqs : Setter appMemReqs := ltac:(mk_setter).
#[export] Instance set_ipMemReqs : Setter ipMemReqs := ltac:(mk_setter).

(** ** [GemDroidMemory::enqueueMemReq] *)

Definition count_at (v : list Z) (i : Z) : Res (list Z) :=
  _ ← of_option (zget v i); Ok (zalter Z.succ v i).

Definition count_request (type : Z) (m : GemDroidMemory) : GemDroidMemory :=
  if bool_decide (type = IP_TYPE_CPU) then m <| m_memCPUReqs ::= Z.succ |>
  else m <| m_memIPReqs ::= Z.succ |>.

Definition enqueueMemReq (u : Uncore) (type id core_id addr : Z) (isRead : bool) : Res (bool * Uncore) :=
  if bool_decide (addr = 0) then Err (AssertFail "trying to inject address 0 into DRAM")
  else if negb (perfectMemory (gemdroid_memory u))
  then
    accept ← canAccept (dramWrapper (gemdroid_memory u));
    if (accept : bool)
    then
      let u := u <| gemdroid_memory ::= count_request type |> in
      app ← count_at (appMemReqs u) core_id;
      ips ← count_at (ipMemReqs u) type;
      w ← Wrapper_enqueue (dramWrapper (gemdroid_memory u)) (negb isRead) addr type id;
      Ok (true, u <| appMemReqs := app |> <| ipMemReqs := ips |>
                  <| gemdroid_memory ::= fun m => m <| dramWrapper := w |> |>)
    else Ok (false, u <| gemdroid_memory ::= fun m => m <| m_memRejected ::= Z.succ |> |>)
  else
    sa ← memResponse (gemdroid_sa u) addr isRead type id;
    Ok (true, u <| gemdroid_sa := sa |> <| gemdroid_memory ::= count_request type |>).

(** ** [GemDroidMemory::tick] with its callbacks *)

Definition complete (sa : GemDroidSA) (c : Callback) : Res GemDroidSA :=
  match c with
  | ReadDone _ addr _ sender_type sender_id => memResponse sa addr true sender_type sender_id
  | WriteDone _ addr _ sender_type sender_id => memResponse sa addr false sender_type sender_id
  end.

Definition memory_tick (u : Uncore) : Res Uncore :=
  '(m, calls) ← GemDroidMemory_tick (gemdroid_memory u);
  sa ← foldM complete (gemdroid_sa u) calls;
  Ok (u <| gemdroid_memory := m |> <| gemdroid_sa := sa |>).

(** ** The receivers

    The methods of the platform that the agent calls to deliver. *)

Class Receivers (E : Type) := {
  memCoreResponse : E -> Z -> Z -> Z -> bool -> Res E;
  memIPResponse : E -> Z -> Z -> Z -> bool -> Res E;
  enqueueIPReq : E -> GemDroidIPRequest -> Res (bool * E)
}.

(** What a tick of the agent counts. *)
Definition count_tick (sa : GemDroidSA) : GemDroidSA :=
  sa <| sa_ticks ::= Z.succ |>
     <| totalQueueSize ::= fun n => n + zlen (coreMemReq sa) + zlen (ipMemReq sa) |>.

Section Agent.
Context {E : Type} {rcv : Receivers E}.

(** ** Memory requests *)

(** [request.getIpType()] is not read for the cores. *)
Definition inject (u : Uncore) (type : Z) (request : GemDroidMemMsg) : Res (bool * Uncore) :=
  enqueueMemReq u type (msg_id request) (msg_core_id request) (msg_addr request) (msg_isRead request).

(** A core's request goes first; while one waits no IP's request is tried. *)
Definition sendMemoryRequests (u : Uncore) : Res Uncore :=
  match coreMemReq (gemdroid_sa u) with
  | request :: _ =>
      '(ok, u) ← inject u IP_TYPE_CPU request;
      Ok (if (ok : bool)
          then u <| gemdroid_sa ::= fun sa => updateActivityCountIn1Ms 1 (sa <| coreMemReq ::= tail |>) |>
          else u)
  | [] =>
      match ipMemReq (gemdroid_sa u) with
      | request :: _ =>
          '(ok, u) ← inject u (msg_ip_type request) request;
          Ok (if (ok : bool)
              then u <| gemdroid_sa ::= fun sa => updateActivityCountIn1Ms 1 (sa <| ipMemReq ::= tail |>) |>
              else u)
      | [] => Ok u
      end
  end.

(** ** Memory responses *)

Definition deliver (to_core : bool) (e : E) (response : GemDroidMemMsg) : Res E :=
  if to_core
  then memCoreResponse e (msg_ip_type response) (msg_id response) (msg_addr response) (msg_isRead response)
  else memIPResponse e (msg_ip_type response) (msg_id response) (msg_addr response) (msg_isRead response).

(** The cycles the response's data takes. *)
Definition transmit_cycles (perfect : bool) (response : GemDroidMemMsg) : Z :=
  if perfect then 0 else if msg_isRead response then MEM_RESP_TRANSMIT_CYCLES else 1.

Definition response_activity (perfect : bool) : Z := if perfect then 1 else MEM_RESP_TRANSMIT_CYCLES.

(** One response, a core's first; the two memories differ in the times only. *)
Definition sendMemoryResponses (perfect : bool) (sa : GemDroidSA) (e : E) : Res (GemDroidSA * E) :=
  match memCoreResp sa with
  | response :: rest =>
      e ← deliver true e response;
      Ok (updateActivityCountIn1Ms (response_activity perfect)
            (sa <| memCoreResp := rest |> <| m_cyclesToSkip := transmit_cycles perfect response |>), e)
  | [] =>
      match memIpResp sa with
      | response :: rest =>
          e ← deliver false e response;
          Ok (updateActivityCountIn1Ms (response_activity perfect)
                (sa <| memIpResp := rest |> <| m_cyclesToSkip := transmit_cycles perfect response |>), e)
      | [] => Ok (sa, e)
      end
  end.

(** ** Calls of IPs *)

(** One call is handed over per cycle, to the first type that takes it. *)
Fixpoint sendIPRequests_from (types : list Z) (sa : GemDroidSA) (e : E) : Res (GemDroidSA * E) :=
  match types with
  | [] => Ok (sa, e)
  | i :: types' =>
      q ← of_option (zget (ipReq sa) i);
      match q with
      | request :: rest =>
          '(ok, e) ← enqueueIPReq e request;
          if (ok : bool)
          then Ok (updateActivityCountIn1Ms 1 (sa <| ipReq ::= fun qs => zalter (fun _ => rest) qs i |>), e)
          else sendIPRequests_from types' sa e
      | [] => sendIPRequests_from types' sa e
      end
  end.

Definition sendIPRequests (sa : GemDroidSA) (e : E) : Res (GemDroidSA * E) :=
  sendIPRequests_from (tail (zrange IP_TYPE_END)) sa e.

Definition sendIPResponses (sa : GemDroidSA) : GemDroidSA :=
  match ipCoreResp sa with
  | _ :: rest => updateActivityCountIn1Ms 1 (sa <| ipCoreResp := rest |>)
  | [] => sa
  end.

(** ** [process] and [tick] *)

Definition num_channels (u : Uncore) : Z := getNumChannels (dramsim (dramWrapper (gemdroid_memory u))).

(** The loop bound is read again at each round; injecting does not change it. *)
Definition inject_rounds (u : Uncore) : Res Uncore :=
  foldM (fun u _ => sendMemoryRequests u) u (zrange (num_channels u)).

Definition respond_rounds (perfect : bool) (n : Z) (sa : GemDroidSA) (e : E) : Res (GemDroidSA * E) :=
  foldM (fun st _ => sendMemoryResponses perfect st.1 st.2) (sa, e) (zrange n).

Definition process (u : Uncore) (e : E) : Res (Uncore * E) :=
  let u := u <| gemdroid_sa ::= sendIPResponses |> in
  u ← inject_rounds u;
  '(sa, e) ← sendIPRequests (gemdroid_sa u) e;
  let u := u <| gemdroid_sa := sa |> in
  if bool_decide (m_cyclesToSkip sa > 0)
  then Ok (u <| gemdroid_sa ::= fun sa => sa <| m_cyclesToSkip ::= Z.pred |> |>, e)
  else
    '(sa, e) ← respond_rounds (perfectMemory (gemdroid_memory u)) (num_channels u) sa e;
    Ok (u <| gemdroid_sa := sa |>, e).

Definition sa_tick (u : Uncore) (e : E) : Res (Uncore * E) :=
  process (u <| gemdroid_sa ::= count_tick |>) e.
End Agent.

(** ** Runs

    What the rest of the platform does to the agent and the memory. The
    requests that were accepted are collected along the run. *)

Inductive UncoreOp :=
| UCoreMem (id addr : Z) (isRead : bool)
| UIPMem (ip_type ip_id core_id addr : Z) (isRead : bool)
| UCall (request : GemDroidIPRequest)
| UIncFreq (steps : Z)
| UDecFreq (steps : Z)
| USetFreq (freq : spec_float)
| UAgentTick
| UMemoryTick.

(** A request as it is answered: address, sender type, sender id, is a read. *)
Definition Accepted : Type := list (Z * Z * Z * bool).

Section Run.
Context {E : Type} {rcv : Receivers E}.

Definition uncore_op (st : Uncore * E * Accepted) (op : UncoreOp) : Res (Uncore * E * Accepted) :=
  let '(u, e, acc) := st in
  match op with
  | UCoreMem id addr isRead =>
      let '(ok, sa) := enqueueCoreMemRequest (gemdroid_sa u) id addr isRead in
      Ok (u <| gemdroid_sa := sa |>, e, if ok then (addr, IP_TYPE_CPU, id, isRead) :: acc else acc)
  | UIPMem ip_type ip_id core_id addr isRead =>
      let '(ok, sa) := enqueueIPMemRequest (gemdroid_sa u) ip_type ip_id core_id addr isRead in
      Ok (u <| gemdroid_sa := sa |>, e, if ok then (addr, ip_type, ip_id, isRead) :: acc else acc)
  | UCall r =>
      '(_, sa) ← enqueueIPIPRequest (gemdroid_sa u) (req_sendertype r) (req_sender_id r) (req_core_id r)
                   (req_iptype r) (req_addr r) (req_size r) (req_isRead r) (req_frameNum r)
                   (req_flowType r) (req_flowId r);
      Ok (u <| gemdroid_sa := sa |>, e, acc)
  | UIncFreq steps => Ok (u <| gemdroid_memory ::= incMemFreq steps |>, e, acc)
  | UDecFreq steps => Ok (u <| gemdroid_memory ::= decMemFreq steps |>, e, acc)
  | USetFreq freq =>
      m ← setMemFreq freq (gemdroid_memory u);
      Ok (u <| gemdroid_memory := m |>, e, acc)
  | UAgentTick => '(u, e) ← sa_tick u e; Ok (u, e, acc)
  | UMemoryTick => u ← memory_tick u; Ok (u, e, acc)
  end.

Definition uncore_run (st : Uncore * E * Accepted) (ops : list UncoreOp) : Res (Uncore * E * Accepted) :=
  foldM uncore_op st ops.
End Run.

(** The agent and the memory as the platform's constructor builds them. *)
Definition uncore_start (ini : Cfg) (vdd period : spec_float) (sizeMB : Z) (perfect : bool)
    (freq0 mem_freq : spec_float) (queueSize0 cyclesToSkip0 : Z) : Res Uncore :=
  m ← GemDroidMemory_new ini vdd period sizeMB perfect freq0;
  m ← setMemFreq mem_freq m;
  Ok (mkUncore (GemDroidSA_new queueSize0 cyclesToSkip0) m
        (replicate (Z.to_nat MAX_CPUS) 0) (replicate (Z.to_nat IP_TYPE_END) 0)).
