(* ===== verification/UncoreSafety.v ===== *)
(** * Every memory request of the platform is answered once

    The agent and the memory together, against the interface of the
    receivers: no run of them faults, and every accepted request is waiting in
    the agent, held by the memory, waiting as a response, or delivered. *)

From stdpp Require Import gmap.
From S2P Require Import Prelude.
From S2P Require Import DramConfig.
From S2P Require Import BusTypes.
From S2P Require Import MemoryController.
From S2P Require Import ControllerInv.
From S2P Require Import MemorySystem.
From S2P Require Import ClockDomain.
From S2P Require Import MultiChannel.
From S2P Require Import MultiChannelSafety.
From S2P Require Import GemDefines.
From S2P Require Import SystemAgent.
From S2P Require Import GemMemory.
From S2P Require Import MemoryFlow.
From S2P Require Import Uncore.

(** ** What the receivers promise *)

Class ReceiverLaws (E : Type) {rcv : Receivers E} := {
  delivered : E -> list Msg;
  memCoreResponse_law e id addr isRead :
    0 <= id < MAX_CPUS ->
    exists e', memCoreResponse e IP_TYPE_CPU id addr isRead = Ok e' /\
      delivered e' ≡ₚ (addr, IP_TYPE_CPU, id, isRead) :: delivered e;
  memIPResponse_law e ty id addr isRead :
    1 <= ty < IP_TYPE_END -> 0 <= id < MAX_IPS ->
    exists e', memIPResponse e ty id addr isRead = Ok e' /\
      delivered e' ≡ₚ (addr, ty, id, isRead) :: delivered e;
  enqueueIPReq_law e r :
    1 <= req_iptype r <= IP_TYPE_GPU ->
    exists ok e', enqueueIPReq e r = Ok (ok, e') /\ delivered e' = delivered e
}.

(** ** Requests and responses of the agent *)

Definition msg_of (m : GemDroidMemMsg) : Msg := (msg_addr m, msg_ip_type m, msg_id m, msg_isRead m).

Definition requests (sa : GemDroidSA) : list Msg := msg_of <$> coreMemReq sa ++ ipMemReq sa.
Definition responses (sa : GemDroidSA) : list Msg := msg_of <$> memCoreResp sa ++ memIpResp sa.

(** The addresses of the cores are below 2 GB, those of the IPs above. *)
Definition msg_good (m : Msg) : Prop :=
  let '(addr, ty, id, _) := m in
  in_u64 addr /\ addr <> 0 /\
  if bool_decide (ty = IP_TYPE_CPU) then 0 <= id < MAX_CPUS /\ addr < 2147483648
  else 1 <= ty < IP_TYPE_END /\ 0 <= id < MAX_IPS /\ 2147483648 < addr.

Definition core_ok (m : GemDroidMemMsg) : Prop := 0 <= msg_core_id m < MAX_CPUS.
Definition from_core (m : GemDroidMemMsg) : Prop := msg_ip_type m = IP_TYPE_CPU.
Definition call_ok (r : GemDroidIPRequest) : Prop := 1 <= req_iptype r <= IP_TYPE_GPU.

(** What holds of the agent's queues; the sizes are the limits of the code,
    which admits one request more than [MAX_MEM_REQS]. *)
Record sa_ok (sa : GemDroidSA) : Prop := {
  sa_core : Forall (fun m => from_core m /\ core_ok m) (coreMemReq sa);
  sa_ip : Forall core_ok (ipMemReq sa);
  sa_coreresp : Forall from_core (memCoreResp sa);
  sa_ipresp : Forall (fun m => ~ from_core m) (memIpResp sa);
  sa_types : zlen (ipReq sa) = IP_TYPE_END;
  sa_calls : Forall (fun q => Forall call_ok q /\ zlen q <= MAX_IP_OUTSTANDING_REQS) (ipReq sa);
  sa_core_bound : zlen (coreMemReq sa) <= MAX_MEM_REQS + 1;
  sa_ip_bound : zlen (ipMemReq sa) <= 231
}.

(** [sa'] differs from [sa] in its responses and counters only. *)
Record same_requests (sa sa' : GemDroidSA) : Prop := {
  sr_core : coreMemReq sa' = coreMemReq sa;
  sr_ip : ipMemReq sa' = ipMemReq sa;
  sr_calls : ipReq sa' = ipReq sa
}.

Lemma same_requests_ok sa sa' :
  same_requests sa sa' -> Forall from_core (memCoreResp sa') -> Forall (fun m => ~ from_core m) (memIpResp sa') ->
  sa_ok sa -> sa_ok sa'.
Proof. intros [E1 E2 E3] H1 H2 []. constructor; rewrite ?E1, ?E2, ?E3; done. Qed.

Lemma memResponse_ok sa addr isRead ty id :
  msg_good (addr, ty, id, isRead) -> sa_ok sa ->
  exists sa', memResponse sa addr isRead ty id = Ok sa' /\ sa_ok sa' /\ same_requests sa sa' /\
    responses sa' ≡ₚ (addr, ty, id, isRead) :: responses sa.
Proof.
  intros (Ha & Hz & Hg) Hsa. pose proof Hsa as [_ _ Hc Hi _ _ _ _]. unfold memResponse.
  case_bool_decide as Hty.
  - destruct Hg as [_ Hlt]. rewrite bool_decide_true by done. eexists. split; [reflexivity|].
    split; [|split; [done|]].
    + apply (same_requests_ok sa); [done| |done|done]. cbn. apply Forall_app. split; [done|]. by constructor.
    + unfold responses. cbn. rewrite !fmap_app. cbn. solve_Permutation.
  - destruct Hg as (Hr & _ & Hgt). rewrite bool_decide_false by lia. rewrite bool_decide_true by lia.
    eexists. split; [reflexivity|]. split; [|split; [done|]].
    + apply (same_requests_ok sa); [done|done| |done]. cbn. apply Forall_app. split; [done|]. by constructor.
    + unfold responses. cbn. rewrite !fmap_app. cbn. solve_Permutation.
Qed.

(** ** Injection into the memory *)

(** What holds of the agent and the memory, apart from the accounts. *)
Record uncore_ok (cfg0 : Cfg) (t : Z) (u : Uncore) : Prop := {
  un_mem : memory_ok cfg0 t (gemdroid_memory u);
  un_sa : sa_ok (gemdroid_sa u);
  un_app : zlen (appMemReqs u) = MAX_CPUS;
  un_ips : zlen (ipMemReqs u) = IP_TYPE_END
}.

(** The requests not yet delivered. *)
Definition outstanding (u : Uncore) : list Msg :=
  requests (gemdroid_sa u) ++ in_memory (gemdroid_memory u) ++ responses (gemdroid_sa u).

(** Those past the agent's request queues. *)
Definition injected (u : Uncore) : list Msg :=
  in_memory (gemdroid_memory u) ++ responses (gemdroid_sa u).

Lemma count_at_ok v i : 0 <= i < zlen v -> exists v', count_at v i = Ok v' /\ zlen v' = zlen v.
Proof.
  intros Hi. destruct (zget_lt v i Hi) as [x E]. unfold count_at. rewrite E. cbn.
  eexists. split; [reflexivity | apply zlen_zalter].
Qed.

Lemma count_request_ok cfg0 t ty m :
  memory_ok cfg0 t m -> memory_ok cfg0 t (count_request ty m) /\
  in_memory (count_request ty m) = in_memory m /\ dramWrapper (count_request ty m) = dramWrapper m /\
  perfectMemory (count_request ty m) = perfectMemory m.
Proof. intros Hm. unfold count_request. by case_bool_decide. Qed.

Lemma enqueueMemReq_ok cfg0 t u ty id core addr isRead :
  msg_good (addr, ty, id, isRead) -> 0 <= core < MAX_CPUS -> uncore_ok cfg0 t u ->
  exists ok u', enqueueMemReq u ty id core addr isRead = Ok (ok, u') /\ uncore_ok cfg0 t u' /\
    same_requests (gemdroid_sa u) (gemdroid_sa u') /\
    injected u' ≡ₚ (if ok then [(addr, ty, id, isRead)] else []) ++ injected u.
Proof.
  intros Hg Hcore [Hm Hsa Happ Hips]. pose proof Hg as (Ha & Hz & Hrange).
  assert (0 <= ty < IP_TYPE_END) as Hty.
  { unfold IP_TYPE_END, IP_TYPE_CPU in *. case_bool_decide; lia. }
  unfold enqueueMemReq. rewrite bool_decide_false by done.
  destruct (perfectMemory (gemdroid_memory u)) eqn:Hperf; cbn [negb].
  - destruct (memResponse_ok _ addr isRead ty id Hg Hsa) as (sa & -> & Hsa' & Hsr & Hresp). cbn [mbind Res_bind].
    destruct (count_request_ok cfg0 t ty _ Hm) as (Hm' & Ein & _).
    do 2 eexists. split; [reflexivity|]. split; [by constructor|]. split; [done|].
    unfold injected. cbn. rewrite Ein, Hresp. solve_Permutation.
  - destruct (canAccept_ok _ _ _ Hm) as ([] & ->); cbn [mbind Res_bind].
    2:{ do 2 eexists. split; [reflexivity|]. split; [by constructor|]. done. }
    destruct (count_request_ok cfg0 t ty _ Hm) as (Hm' & Ein & Ew & _).
    change (gemdroid_memory (u <| gemdroid_memory ::= count_request ty |>)) with (count_request ty (gemdroid_memory u)).
    change (appMemReqs (u <| gemdroid_memory ::= count_request ty |>)) with (appMemReqs u).
    change (ipMemReqs (u <| gemdroid_memory ::= count_request ty |>)) with (ipMemReqs u).
    destruct (count_at_ok (appMemReqs u) core) as (app & -> & Eapp); [lia|].
    destruct (count_at_ok (ipMemReqs u) ty) as (ips & -> & Eips); [lia|]. cbn [mbind Res_bind].
    destruct (call_channel_add cfg0 t _ (negb isRead) addr ty id Ha Hm') as (w & -> & Hw & Hin).
    cbn [mbind Res_bind]. do 2 eexists. split; [reflexivity|].
    split; [constructor; [exact Hw | exact Hsa | cbn; lia | cbn; lia]|]. split; [done|].
    unfold injected. cbn [gemdroid_memory gemdroid_sa upd_field set_gemdroid_memory set_appMemReqs set_ipMemReqs].
    rewrite Hin, Ein, negb_involutive. done.
Qed.

(** Dropping the head of a queue and counting activity keep the queues good. *)
Lemma pop_core_ok sa : sa_ok sa -> sa_ok (updateActivityCountIn1Ms 1 (sa <| coreMemReq ::= tail |>)).
Proof.
  intros []. constructor; cbn; try done; destruct (coreMemReq sa); cbn in *; try done.
  - by apply Forall_cons in sa_core0 as [].
  - unfold zlen in *. cbn in *. lia.
Qed.

Lemma pop_ip_ok sa : sa_ok sa -> sa_ok (updateActivityCountIn1Ms 1 (sa <| ipMemReq ::= tail |>)).
Proof.
  intros []. constructor; cbn; try done; destruct (ipMemReq sa); cbn in *; try done.
  - by apply Forall_cons in sa_ip0 as [].
  - unfold zlen in *. cbn in *. lia.
Qed.

Definition with_sa (g : GemDroidSA -> GemDroidSA) (u : Uncore) : Uncore := u <| gemdroid_sa ::= g |>.

Lemma with_sa_ok cfg0 t u g :
  (sa_ok (gemdroid_sa u) -> sa_ok (g (gemdroid_sa u))) -> uncore_ok cfg0 t u -> uncore_ok cfg0 t (with_sa g u).
Proof. intros H []. constructor; cbn; auto. Qed.

(** Injecting the head of a queue moves it past the queue, or leaves it. *)
Lemma sendMemoryRequests_ok cfg0 t u :
  Forall msg_good (requests (gemdroid_sa u)) -> uncore_ok cfg0 t u ->
  exists u', sendMemoryRequests u = Ok u' /\ uncore_ok cfg0 t u' /\ outstanding u' ≡ₚ outstanding u.
Proof.
  intros Hg Hu. pose proof (un_sa _ _ _ Hu) as [Hcore Hip _ _ _ _ _ _]. unfold sendMemoryRequests, inject.
  unfold requests in Hg. rewrite fmap_app in Hg. apply Forall_app in Hg as [Hg1 Hg2].
  destruct (coreMemReq (gemdroid_sa u)) as [|r l] eqn:Ec.
  - destruct (ipMemReq (gemdroid_sa u)) as [|r l] eqn:Ei; [by exists u|].
    cbn in Hg2. apply Forall_cons in Hg2 as [Hr _]. apply Forall_cons in Hip as [Hc _].
    destruct (enqueueMemReq_ok cfg0 t u _ _ _ _ _ Hr Hc Hu) as (ok & u' & -> & Hu' & [Sc Si Sq] & Hin).
    cbn [mbind Res_bind]. eexists. split; [reflexivity|]. destruct ok.
    + split; [apply (with_sa_ok _ _ _ (fun sa => updateActivityCountIn1Ms 1 (sa <| ipMemReq ::= tail |>))); [apply pop_ip_ok | done]|].
      transitivity ((msg_of <$> coreMemReq (gemdroid_sa u') ++ tail (ipMemReq (gemdroid_sa u'))) ++ injected u').
      { done. }
      rewrite Sc, Si, Hin, Ec, Ei. unfold outstanding, requests, injected. rewrite Ec, Ei. cbn. solve_Permutation.
    + split; [done|]. transitivity (requests (gemdroid_sa u') ++ injected u'); [done|].
      unfold requests. rewrite Sc, Si, Hin. done.
  - cbn in Hg1. apply Forall_cons in Hg1 as [Hr _]. apply Forall_cons in Hcore as [[Hf Hc] _].
    unfold msg_of in Hr. rewrite Hf in Hr.
    destruct (enqueueMemReq_ok cfg0 t u _ _ _ _ _ Hr Hc Hu) as (ok & u' & -> & Hu' & [Sc Si Sq] & Hin).
    cbn [mbind Res_bind]. eexists. split; [reflexivity|]. destruct ok.
    + split; [apply (with_sa_ok _ _ _ (fun sa => updateActivityCountIn1Ms 1 (sa <| coreMemReq ::= tail |>))); [apply pop_core_ok | done]|].
      transitivity ((msg_of <$> tail (coreMemReq (gemdroid_sa u')) ++ ipMemReq (gemdroid_sa u')) ++ injected u').
      { done. }
      rewrite Sc, Si, Hin, Ec. unfold outstanding, requests, injected. rewrite Ec. cbn.
      replace (msg_of r) with (msg_addr r, IP_TYPE_CPU, msg_id r, msg_isRead r) by (unfold msg_of; by rewrite Hf).
      solve_Permutation.
    + split; [done|]. transitivity (requests (gemdroid_sa u') ++ injected u'); [done|].
      unfold requests. rewrite Sc, Si, Hin. done.
Qed.

Lemma inject_rounds_ok cfg0 t u :
  Forall msg_good (outstanding u) -> uncore_ok cfg0 t u ->
  exists u', inject_rounds u = Ok u' /\ uncore_ok cfg0 t u' /\ outstanding u' ≡ₚ outstanding u.
Proof.
  intros Hg Hu. unfold inject_rounds.
  apply (foldM_inv (fun u' => uncore_ok cfg0 t u' /\ outstanding u' ≡ₚ outstanding u)); [|done].
  intros u' _ _ [Hu' Ho]. destruct (sendMemoryRequests_ok cfg0 t u') as (u2 & -> & H2 & Ho2); [|done|].
  - rewrite <- Ho in Hg. by apply Forall_app in Hg as [? _].
  - exists u2. split; [done|]. split; [done|]. by rewrite Ho2.
Qed.

(** ** Delivery *)

Section Delivery.
Context {E : Type} {rcv : Receivers E} {laws : ReceiverLaws E}.

Lemma deliver_core e m :
  from_core m -> msg_good (msg_of m) -> exists e', deliver true e m = Ok e' /\ delivered e' ≡ₚ msg_of m :: delivered e.
Proof.
  unfold from_core, deliver. intros Hf (_ & _ & Hg). rewrite Hf, bool_decide_true in Hg by done.
  rewrite Hf. destruct (memCoreResponse_law e (msg_id m) (msg_addr m) (msg_isRead m)) as (e' & -> & H); [apply Hg|].
  exists e'. split; [done|]. unfold msg_of. by rewrite Hf.
Qed.

Lemma deliver_ip e m :
  ~ from_core m -> msg_good (msg_of m) -> exists e', deliver false e m = Ok e' /\ delivered e' ≡ₚ msg_of m :: delivered e.
Proof.
  unfold from_core, deliver. intros Hf (_ & _ & Hg). rewrite bool_decide_false in Hg by done.
  destruct Hg as (? & ? & _). by apply memIPResponse_law.
Qed.

Lemma sendMemoryResponses_ok perfect sa e :
  Forall msg_good (responses sa) -> sa_ok sa ->
  exists sa' e', sendMemoryResponses perfect sa e = Ok (sa', e') /\ sa_ok sa' /\ same_requests sa sa' /\
    responses sa' ++ delivered e' ≡ₚ responses sa ++ delivered e.
Proof.
  intros Hg Hsa. pose proof Hsa as [_ _ Hc Hi _ _ _ _]. unfold sendMemoryResponses.
  unfold responses in Hg. rewrite fmap_app in Hg. apply Forall_app in Hg as [Hg1 Hg2].
  destruct (memCoreResp sa) as [|m l] eqn:Ec.
  - destruct (memIpResp sa) as [|m l] eqn:Ei; [by exists sa, e|].
    apply Forall_cons in Hg2 as [Hm _]. apply Forall_cons in Hi as [Hf Hi].
    destruct (deliver_ip e m Hf Hm) as (e' & -> & Hd). cbn [mbind Res_bind]. do 2 eexists. split; [reflexivity|].
    split; [|split; [done|]].
    + apply (same_requests_ok sa); [done| |done|done]. cbn. by rewrite Ec.
    + unfold responses. rewrite Hd. cbn. rewrite Ec, Ei. cbn. solve_Permutation.
  - apply Forall_cons in Hg1 as [Hm _]. apply Forall_cons in Hc as [Hf Hc].
    destruct (deliver_core e m Hf Hm) as (e' & -> & Hd). cbn [mbind Res_bind]. do 2 eexists. split; [reflexivity|].
    split; [|split; [done|]].
    + by apply (same_requests_ok sa).
    + unfold responses. rewrite Hd. cbn. rewrite Ec. cbn. solve_Permutation.
Qed.

(** The requests that are waiting as responses or delivered. *)
Definition answered (sa : GemDroidSA) (e : E) : list Msg := responses sa ++ delivered e.

Lemma respond_rounds_ok perfect n sa e :
  Forall msg_good (answered sa e) -> sa_ok sa ->
  exists sa' e', respond_rounds perfect n sa e = Ok (sa', e') /\ sa_ok sa' /\ same_requests sa sa' /\
    answered sa' e' ≡ₚ answered sa e.
Proof.
  intros Hg Hsa. unfold respond_rounds.
  destruct (foldM_inv (fun st => sa_ok st.1 /\ same_requests sa st.1 /\ answered st.1 st.2 ≡ₚ answered sa e)
    (fun st (_ : Z) => sendMemoryResponses perfect st.1 st.2) (zrange n)) with (s := (sa, e))
    as ([sa' e'] & E1 & H); [|done|by exists sa', e'].
  intros [sa1 e1] _ _ (Hsa1 & [S1 S2 S3] & Hp). cbn [fst snd] in *.
  destruct (sendMemoryResponses_ok perfect sa1 e1) as (sa2 & e2 & -> & Hsa2 & [T1 T2 T3] & Hp2); [|done|].
  - rewrite <- Hp in Hg. by apply Forall_app in Hg as [? _].
  - exists (sa2, e2). split; [done|]. cbn [fst snd]. split; [done|]. split; [|by rewrite <- Hp].
    constructor; congruence.
Qed.

(** [sa'] differs from [sa] in the calls that wait and in its counters. *)
Record same_memory (sa sa' : GemDroidSA) : Prop := {
  sm_core : coreMemReq sa' = coreMemReq sa;
  sm_ip : ipMemReq sa' = ipMemReq sa;
  sm_coreresp : memCoreResp sa' = memCoreResp sa;
  sm_ipresp : memIpResp sa' = memIpResp sa
}.

Definition calls_ok (q : list GemDroidIPRequest) : Prop := Forall call_ok q /\ zlen q <= MAX_IP_OUTSTANDING_REQS.

Lemma alter_calls_ok g qs i q :
  Forall calls_ok qs -> zget qs i = Some q -> calls_ok (g q) -> Forall calls_ok (zalter g qs i).
Proof.
  intros Hqs [Hi El]%zget_lookup Hg. unfold zalter. rewrite bool_decide_true by done.
  apply Forall_alter; [done|]. intros x Ex _. rewrite El in Ex. by injection Ex as <-.
Qed.

Lemma same_memory_ok sa sa' :
  same_memory sa sa' -> zlen (ipReq sa') = IP_TYPE_END -> Forall calls_ok (ipReq sa') -> sa_ok sa -> sa_ok sa'.
Proof. intros [E1 E2 E3 E4] H1 H2 []. constructor; rewrite ?E1, ?E2, ?E3, ?E4; done. Qed.

Lemma sendIPRequests_from_ok types sa e :
  (forall i, i ∈ types -> 0 <= i < IP_TYPE_END) -> sa_ok sa ->
  exists sa' e', sendIPRequests_from types sa e = Ok (sa', e') /\ sa_ok sa' /\ same_memory sa sa' /\
    delivered e' = delivered e.
Proof.
  intros Ht Hsa. revert e. induction types as [|i types IH]; intros e; [by exists sa, e|].
  cbn. assert (0 <= i < IP_TYPE_END) as Hi by (apply Ht; left).
  assert (forall j, j ∈ types -> 0 <= j < IP_TYPE_END) as Ht' by (intros j Hj; apply Ht; by right).
  destruct (of_option_zget (ipReq sa) i) as (q & Eq & ->); [by rewrite (sa_types _ Hsa)|]. cbn [mbind Res_bind].
  destruct q as [|r q]; [by apply IH|].
  pose proof (sa_calls _ Hsa) as Hc. pose proof Eq as [_ El]%zget_lookup.
  pose proof (proj1 (Forall_lookup _ _) Hc _ _ El) as [Hr Hlen]. apply Forall_cons in Hr as [Hr Hq].
  destruct (enqueueIPReq_law e r Hr) as (ok & e1 & -> & Hd). cbn [mbind Res_bind]. destruct ok.
  - do 2 eexists. split; [reflexivity|]. split; [|done].
    apply (same_memory_ok sa); [done | cbn; by rewrite zlen_zalter, (sa_types _ Hsa) | cbn | done].
    eapply alter_calls_ok; [exact Hc | exact Eq |]. split; [done|]. unfold zlen in *. cbn in Hlen. lia.
  - destruct (IH Ht' e1) as (sa' & e' & -> & H1 & H2 & H3). exists sa', e'. by rewrite H3.
Qed.

Lemma sendIPRequests_ok sa e :
  sa_ok sa -> exists sa' e', sendIPRequests sa e = Ok (sa', e') /\ sa_ok sa' /\ same_memory sa sa' /\
    delivered e' = delivered e.
Proof.
  intros Hsa. apply sendIPRequests_from_ok; [|done]. intros i Hi. apply elem_of_zrange.
  destruct (zrange IP_TYPE_END) eqn:Ez; [done|]. by right.
Qed.

(** ** One tick of the agent, one tick of the memory *)

(** Every request of the platform: outstanding or delivered. *)
Definition account (u : Uncore) (e : E) : list Msg := outstanding u ++ delivered e.

Lemma account_split u e :
  account u e ≡ₚ (requests (gemdroid_sa u) ++ in_memory (gemdroid_memory u)) ++ answered (gemdroid_sa u) e.
Proof. unfold account, outstanding, answered. solve_Permutation. Qed.

Lemma account_good u e :
  Forall msg_good (account u e) ->
  Forall msg_good (outstanding u) /\ Forall msg_good (answered (gemdroid_sa u) e).
Proof.
  intros H. split; [by apply Forall_app in H as [? _]|]. rewrite account_split in H. by apply Forall_app in H as [_ ?].
Qed.

Lemma same_memory_account u sa e e' :
  same_memory (gemdroid_sa u) sa -> delivered e' = delivered e ->
  account (u <| gemdroid_sa := sa |>) e' = account u e.
Proof.
  intros [E1 E2 E3 E4] Ed. unfold account, outstanding, requests, responses. cbn.
  by rewrite E1, E2, E3, E4, Ed.
Qed.

Lemma process_ok cfg0 t u e :
  Forall msg_good (account u e) -> uncore_ok cfg0 t u ->
  exists u' e', process u e = Ok (u', e') /\ uncore_ok cfg0 t u' /\ account u' e' ≡ₚ account u e.
Proof.
  intros Hg Hu. unfold process.
  assert (uncore_ok cfg0 t (with_sa sendIPResponses u) /\ account (with_sa sendIPResponses u) e = account u e) as [H0 A0].
  { split; [apply with_sa_ok; [|done] | apply same_memory_account; [|done]].
    - unfold sendIPResponses. destruct (ipCoreResp (gemdroid_sa u)); [done|]. intros []. by constructor.
    - unfold sendIPResponses. by destruct (ipCoreResp (gemdroid_sa u)). }
  destruct (inject_rounds_ok cfg0 t (with_sa sendIPResponses u)) as (u1 & E1 & H1 & A1).
  { rewrite <- A0 in Hg. by apply account_good in Hg as [? _]. }
  { done. }
  change (u <| gemdroid_sa ::= sendIPResponses |>) with (with_sa sendIPResponses u). rewrite E1. cbn [mbind Res_bind].
  assert (account u1 e ≡ₚ account u e) as Hp1 by (rewrite <- A0; unfold account; by rewrite A1).
  destruct (sendIPRequests_ok (gemdroid_sa u1) e (un_sa _ _ _ H1)) as (sa2 & e2 & -> & H2 & M2 & D2). cbn [mbind Res_bind].
  assert (uncore_ok cfg0 t (u1 <| gemdroid_sa := sa2 |>)) as Hu2 by (destruct H1; by constructor).
  pose proof (same_memory_account u1 sa2 e e2 M2 D2) as A2. case_bool_decide.
  - do 2 eexists. split; [reflexivity|]. split; [|by rewrite <- Hp1, <- A2].
    apply (with_sa_ok _ _ _ (fun sa => sa <| m_cyclesToSkip ::= Z.pred |>)); [|done]. intros []. by constructor.
  - destruct (respond_rounds_ok (perfectMemory (gemdroid_memory (u1 <| gemdroid_sa := sa2 |>)))
      (num_channels (u1 <| gemdroid_sa := sa2 |>)) sa2 e2) as (sa3 & e3 & -> & H3 & [R1 R2 R3] & A3); [|done|].
    + rewrite <- Hp1, <- A2 in Hg. by apply account_good in Hg as [_ ?].
    + cbn [mbind Res_bind]. do 2 eexists. split; [reflexivity|]. split.
      * destruct Hu2. by constructor.
      * rewrite <- Hp1, <- A2, !account_split. unfold requests. cbn. rewrite R1, R2, A3. done.
Qed.

Lemma sa_tick_ok cfg0 t u e :
  Forall msg_good (account u e) -> uncore_ok cfg0 t u ->
  exists u' e', sa_tick u e = Ok (u', e') /\ uncore_ok cfg0 t u' /\ account u' e' ≡ₚ account u e.
Proof.
  intros Hg Hu. unfold sa_tick. change (u <| gemdroid_sa ::= count_tick |>) with (with_sa count_tick u).
  assert (account (with_sa count_tick u) e = account u e) as Ea by done.
  destruct (process_ok cfg0 t (with_sa count_tick u) e) as (u' & e' & -> & H1 & H2); [by rewrite Ea | |].
  - apply with_sa_ok; [|done]. intros []. by constructor.
  - exists u', e'. by rewrite H2, Ea.
Qed.

(** The completion callbacks of one tick. *)
Lemma complete_ok sa calls :
  Forall msg_good (call_msg <$> calls) -> sa_ok sa ->
  exists sa', foldM complete sa calls = Ok sa' /\ sa_ok sa' /\ same_requests sa sa' /\
    responses sa' ≡ₚ (call_msg <$> calls) ++ responses sa.
Proof.
  revert sa. induction calls as [|c calls IH]; intros sa Hg Hsa; [by exists sa|].
  cbn in Hg. apply Forall_cons in Hg as [Hc Hg]. cbn.
  assert (exists sa1, complete sa c = Ok sa1 /\ sa_ok sa1 /\ same_requests sa sa1 /\
    responses sa1 ≡ₚ call_msg c :: responses sa) as (sa1 & -> & H1 & [S1 S2 S3] & R1).
  { destruct c; by apply memResponse_ok. }
  cbn [mbind Res_bind].
  destruct (IH sa1 Hg H1) as (sa' & -> & H2 & [T1 T2 T3] & R2). exists sa'. split; [done|]. split; [done|].
  split; [constructor; congruence|]. rewrite R2, R1. solve_Permutation.
Qed.

Lemma memory_tick_ok cfg0 t u :
  0 <= t < 2 ^ 62 -> Forall msg_good (outstanding u) -> uncore_ok cfg0 t u ->
  exists u', memory_tick u = Ok u' /\ uncore_ok cfg0 (t + 1) u' /\ outstanding u' ≡ₚ outstanding u.
Proof.
  intros Ht Hg [Hm Hsa Ha Hi]. unfold memory_tick.
  destruct (GemDroidMemory_tick_ok cfg0 t _ Ht Hm) as (m & calls & -> & Hm' & Hp & _). cbn [mbind Res_bind].
  destruct (complete_ok (gemdroid_sa u) calls) as (sa & -> & Hsa' & [S1 S2 S3] & Hr); [|done|].
  - unfold outstanding in Hg. rewrite Hp in Hg. rewrite !Forall_app in Hg. tauto.
  - cbn [mbind Res_bind]. eexists. split; [reflexivity|]. split; [by constructor|].
    unfold outstanding, requests. cbn. rewrite S1, S2, Hr, Hp. solve_Permutation.
Qed.

(** ** Operations *)

(** What the platform promises of the arguments it passes. *)
Definition uop_ok (op : UncoreOp) : Prop :=
  match op with
  | UCoreMem id addr isRead => msg_good (addr, IP_TYPE_CPU, id, isRead)
  | UIPMem ip_type ip_id core_id addr isRead =>
      msg_good (addr, ip_type, ip_id, isRead) /\ ip_type <> IP_TYPE_CPU /\ 0 <= core_id < MAX_CPUS
  | UCall r => call_ok r
  | USetFreq freq =>
      F64.leb (F64.sub MIN_MEM_FREQ EPSILON) freq && F64.leb freq (F64.add MAX_MEM_FREQ EPSILON) = true
  | _ => True
  end.

Definition uop_ticks (op : UncoreOp) : Z := match op with UMemoryTick => 1 | _ => 0 end.

Definition uncore_inv (cfg0 : Cfg) (t : Z) (st : Uncore * E * Accepted) : Prop :=
  let '(u, e, acc) := st in
  uncore_ok cfg0 t u /\ Forall msg_good acc /\ acc ≡ₚ account u e.

Lemma same_memory_inv cfg0 t u sa e acc :
  same_memory (gemdroid_sa u) sa -> sa_ok sa ->
  uncore_inv cfg0 t (u, e, acc) -> uncore_inv cfg0 t (u <| gemdroid_sa := sa |>, e, acc).
Proof.
  intros Hs Hok (Hu & Hg & Hp). split; [destruct Hu; by constructor | split; [done|]].
  by rewrite (same_memory_account u sa e e Hs).
Qed.

Lemma reject_inv cfg0 t u e acc :
  uncore_inv cfg0 t (u, e, acc) -> uncore_inv cfg0 t (u <| gemdroid_sa := reject (gemdroid_sa u) |>, e, acc).
Proof. intros Hi. apply same_memory_inv; [done| |done]. destruct Hi as ([_ [] _ _] & _). constructor; done. Qed.

Lemma enqueueCoreMemRequest_inv cfg0 t u e acc id addr isRead :
  msg_good (addr, IP_TYPE_CPU, id, isRead) -> uncore_inv cfg0 t (u, e, acc) ->
  exists st', uncore_op (u, e, acc) (UCoreMem id addr isRead) = Ok st' /\ uncore_inv cfg0 t st'.
Proof.
  intros Hm Hi. pose proof Hi as ([Hmem Hsa Ha Hips] & Hg & Hp). pose proof Hsa as [Hcore Hip Hcr Hir Hty Hca Hcb Hib].
  unfold uncore_op, enqueueCoreMemRequest. case_bool_decide as Hq; [|case_bool_decide].
  1, 2: by eexists; split; [|apply reject_inv].
  eexists. split; [reflexivity|]. split; [|split; [by constructor|]].
  - constructor; [done| |done|done]. constructor; cbn; try done.
    + apply Forall_app. split; [done|]. constructor; [|done]. split; [done|].
      destruct Hm as (_ & _ & Hr). by destruct Hr.
    + rewrite zlen_snoc. pose proof (zlen_nonneg (ipMemReq (gemdroid_sa u))). lia.
  - rewrite Hp. unfold account, outstanding, requests, responses. cbn. rewrite !fmap_app. cbn. solve_Permutation.
Qed.

Lemma enqueueIPMemRequest_inv cfg0 t u e acc ty id core addr isRead :
  msg_good (addr, ty, id, isRead) -> ty <> IP_TYPE_CPU -> 0 <= core < MAX_CPUS -> uncore_inv cfg0 t (u, e, acc) ->
  exists st', uncore_op (u, e, acc) (UIPMem ty id core addr isRead) = Ok st' /\ uncore_inv cfg0 t st'.
Proof.
  intros Hm Hne Hc Hi. pose proof Hi as ([Hmem Hsa Ha Hips] & Hg & Hp). pose proof Hsa as [Hcore Hip Hcr Hir Hty Hca Hcb Hib].
  unfold uncore_op, enqueueIPMemRequest. destruct (exceeds_MAX_IP_MEM_REQS _) eqn:Hx; [|case_bool_decide].
  1, 2: by eexists; split; [|apply reject_inv].
  eexists. split; [reflexivity|]. split; [|split; [by constructor|]].
  - constructor; [done| |done|done]. constructor; cbn; try done.
    + apply Forall_app. split; [done|]. by constructor.
    + rewrite zlen_snoc. destruct (decide (zlen (ipMemReq (gemdroid_sa u)) = 231)) as [E1|]; [|lia].
      rewrite E1 in Hx. by rewrite (proj2 exceeds_MAX_IP_MEM_REQS_231) in Hx.
  - rewrite Hp. unfold account, outstanding, requests, responses. cbn. rewrite !fmap_app. cbn. solve_Permutation.
Qed.

Lemma enqueueIPIPRequest_ok sa ty id core iptype addr size isRead frameNum flowType flowId :
  1 <= iptype <= IP_TYPE_GPU -> sa_ok sa ->
  exists ok sa', enqueueIPIPRequest sa ty id core iptype addr size isRead frameNum flowType flowId = Ok (ok, sa') /\
    same_memory sa sa' /\ sa_ok sa'.
Proof.
  intros Hty Hsa. unfold enqueueIPIPRequest, check_iptype, isIPReqLimitReached.
  unfold IP_TYPE_GPU, IP_TYPE_END in *. rewrite !bool_decide_false by lia. cbn [mbind Res_bind].
  pose proof (sa_types _ Hsa) as Ht. unfold IP_TYPE_END in Ht.
  destruct (of_option_zget (ipReq sa) iptype) as (q & Eq & ->); [lia|]. cbn [mbind Res_bind]. case_bool_decide; [by exists false, sa|].
  do 2 eexists. split; [reflexivity|]. split; [done|].
  pose proof (sa_calls _ Hsa) as Hc. pose proof Eq as [_ El]%zget_lookup.
  pose proof (proj1 (Forall_lookup _ _) Hc _ _ El) as [Hq Hlen].
  apply (same_memory_ok sa); [done | cbn; by rewrite zlen_zalter | cbn | done].
  eapply alter_calls_ok; [exact Hc | exact Eq |]. split.
  - apply Forall_app. split; [done|]. constructor; [|done]. exact Hty.
  - rewrite zlen_snoc. lia.
Qed.

Lemma memory_only_inv cfg0 t u e acc m :
  memory_ok cfg0 t m -> in_memory m = in_memory (gemdroid_memory u) ->
  uncore_inv cfg0 t (u, e, acc) -> uncore_inv cfg0 t (u <| gemdroid_memory := m |>, e, acc).
Proof.
  intros Hm Em (Hu & Hg & Hp). split; [destruct Hu; by constructor | split; [done|]].
  rewrite Hp. unfold account, outstanding. cbn. by rewrite Em.
Qed.

Lemma set_freq_inv cfg0 t u e acc freq :
  uncore_inv cfg0 t (u, e, acc) -> uncore_inv cfg0 t (u <| gemdroid_memory ::= set_freq freq |>, e, acc).
Proof.
  intros Hi. destruct (set_freq_ok cfg0 t (gemdroid_memory u) freq) as [H1 H2]; [apply Hi|].
  by apply (memory_only_inv cfg0 t u e acc (set_freq freq (gemdroid_memory u))).
Qed.

Lemma uncore_op_ok cfg0 t st op :
  uop_ok op -> 0 <= t -> t + uop_ticks op <= 2 ^ 62 -> uncore_inv cfg0 t st ->
  exists st', uncore_op st op = Ok st' /\ uncore_inv cfg0 (t + uop_ticks op) st'.
Proof.
  destruct st as [[u e] acc]. intros Hop Ht Hb Hi. pose proof Hi as (Hu & Hg & Hp).
  destruct op as [id addr isRead|ty id core addr isRead|r|k|k|freq| |]; cbn [uop_ticks] in *; rewrite ?Z.add_0_r.
  - by apply enqueueCoreMemRequest_inv.
  - destruct Hop as (? & ? & ?). by apply enqueueIPMemRequest_inv.
  - unfold uncore_op.
    destruct (enqueueIPIPRequest_ok (gemdroid_sa u) (req_sendertype r) (req_sender_id r) (req_core_id r)
      (req_iptype r) (req_addr r) (req_size r) (req_isRead r) (req_frameNum r) (req_flowType r) (req_flowId r)
      Hop (un_sa _ _ _ Hu)) as (ok & sa & -> & Hs & Hok). cbn [mbind Res_bind].
    eexists. split; [reflexivity|]. by apply same_memory_inv.
  - eexists. split; [reflexivity|]. by apply set_freq_inv.
  - eexists. split; [reflexivity|]. by apply set_freq_inv.
  - unfold uncore_op, setMemFreq. cbn in Hop. rewrite Hop. eexists. split; [reflexivity|]. by apply set_freq_inv.
  - destruct (sa_tick_ok cfg0 t u e) as (u' & e' & H1 & H2 & H3); [by rewrite <- Hp | done |].
    unfold uncore_op. rewrite H1. eexists. split; [reflexivity|]. split; [done|]. split; [done|]. by rewrite H3.
  - destruct (memory_tick_ok cfg0 t u ltac:(lia)) as (u' & H1 & H2 & H3); [|done|].
    { rewrite Hp in Hg. by apply account_good in Hg as [? _]. }
    unfold uncore_op. rewrite H1. eexists. split; [reflexivity|]. split; [done|]. split; [done|].
    unfold account. by rewrite H3.
Qed.

Fixpoint uop_all_ticks (ops : list UncoreOp) : Z :=
  match ops with [] => 0 | op :: ops' => uop_ticks op + uop_all_ticks ops' end.

Lemma uop_all_ticks_nonneg ops : 0 <= uop_all_ticks ops.
Proof. induction ops as [|op ops IH]; [done|]. cbn. destruct op; cbn; lia. Qed.

Lemma uncore_run_ok cfg0 ops : forall t st,
  Forall uop_ok ops -> 0 <= t -> t + uop_all_ticks ops <= 2 ^ 62 -> uncore_inv cfg0 t st ->
  exists st', uncore_run st ops = Ok st' /\ uncore_inv cfg0 (t + uop_all_ticks ops) st'.
Proof.
  induction ops as [|op ops IH]; intros t st Hops Ht Hb Hi; [exists st; by rewrite Z.add_0_r|].
  apply Forall_cons in Hops as [Hop Hops]. pose proof (uop_all_ticks_nonneg ops).
  assert (uop_all_ticks (op :: ops) = uop_ticks op + uop_all_ticks ops) as Es by done. rewrite Es in *.
  assert (0 <= uop_ticks op) by (destruct op; cbn; lia).
  destruct (uncore_op_ok cfg0 t st op Hop Ht ltac:(lia) Hi) as (st1 & E1 & H1).
  destruct (IH (t + uop_ticks op) st1 Hops ltac:(lia) ltac:(lia) H1) as (st' & E2 & H2).
  exists st'. split; [unfold uncore_run; cbn; by rewrite E1|]. by rewrite Z.add_assoc.
Qed.

(** ** The start *)

Definition uncore_config (ini : Cfg) (sizeMB n : Z) (period mem_freq : spec_float) : Prop :=
  memory_config ini sizeMB n /\ is_zero period = false /\
  F64.leb (F64.sub MIN_MEM_FREQ EPSILON) mem_freq && F64.leb mem_freq (F64.add MAX_MEM_FREQ EPSILON) = true.

(** A memory to which nothing was sent holds nothing. *)
Lemma in_memory_nil cfg0 t m :
  memory_inv cfg0 t (fun _ => []) (fun _ => []) (dramsim (dramWrapper m)) -> in_memory m = [].
Proof.
  intros [_ _ Hl _ _ Hs]. unfold in_memory. apply elem_of_nil_inv. intros x Hx.
  apply list_elem_of_join in Hx as (l & Hx & Hin). apply list_elem_of_fmap in Hin as (ms & -> & Hin).
  apply list_elem_of_lookup in Hin as (i & Hi). pose proof (lookup_lt_Some _ _ _ Hi) as Hlt. unfold zlen in Hl.
  destruct (Hs (Z.of_nat i)) as (ms' & E' & [_ _ _ Hr Hw]); [lia|].
  apply zget_lookup in E' as [_ E']. rewrite Nat2Z.id, Hi in E'. injection E' as <-.
  rewrite channel_reads_split in Hr. rewrite channel_writes_split in Hw.
  apply Permutation_nil_r in Hr, Hw. apply app_eq_nil in Hr as [Hr _]. apply app_eq_nil in Hw as [Hw _].
  unfold waiting in Hx. rewrite Hr, Hw in Hx. by apply elem_of_nil in Hx.
Qed.

Lemma GemDroidSA_new_ok q c : sa_ok (GemDroidSA_new q c).
Proof. constructor; cbn; try done. repeat constructor; done. Qed.

Lemma uncore_start_ok ini vdd period sizeMB n perfect f0 mem_freq q c e :
  uncore_config ini sizeMB n period mem_freq -> delivered e = [] ->
  exists u, uncore_start ini vdd period sizeMB perfect f0 mem_freq q c = Ok u /\
    uncore_inv (memory_cfg ini n) 0 (u, e, []).
Proof.
  intros (Hc & Hz & Hf) He. destruct (memory_start_ok ini vdd period sizeMB n Hc Hz) as (w & Ew & Hw).
  unfold memory_start in Ew. apply bind_Ok in Ew as (w0 & Ew & Es). injection Es as <-.
  unfold uncore_start, GemDroidMemory_new. rewrite Ew. cbn [mbind Res_bind]. unfold setMemFreq. rewrite Hf. cbn [mbind Res_bind].
  eexists. split; [reflexivity|].
  set (m0 := mkGemMemory (setCallbacks w0) 0 perfect f0 (F64.lit 8 10) 0 0 0).
  assert (memory_ok (memory_cfg ini n) 0 m0) as H0 by (do 2 eexists; exact Hw).
  destruct (set_freq_ok _ _ _ mem_freq H0) as [H1 E1].
  split; [|split; [done|]].
  - constructor; [done | apply GemDroidSA_new_ok | done | done].
  - unfold account, outstanding. rewrite He. cbn [gemdroid_memory gemdroid_sa]. rewrite E1.
    by rewrite (in_memory_nil (memory_cfg ini n) 0 m0 Hw).
Qed.
End Delivery.

Section Properties.
Context {E : Type} {rcv : Receivers E} {laws : ReceiverLaws E}.

Lemma uncore_runs ini vdd period sizeMB n perfect f0 mem_freq q c e ops :
  uncore_config ini sizeMB n period mem_freq -> delivered e = [] ->
  Forall uop_ok ops -> uop_all_ticks ops <= 2 ^ 62 ->
  exists st, (uncore_start ini vdd period sizeMB perfect f0 mem_freq q c
      ≫= fun u => uncore_run (u, e, []) ops) = Ok st /\
    uncore_inv (memory_cfg ini n) (uop_all_ticks ops) st.
Proof.
  intros Hc He Hops Hb. destruct (uncore_start_ok ini vdd period sizeMB n perfect f0 mem_freq q c e Hc He) as (u & -> & Hi).
  cbn [mbind Res_bind]. by apply (uncore_run_ok _ ops 0 (u, e, [])).
Qed.

(** C1: every memory request of the platform is answered exactly once. The
    agent and the memory, started together, take any sequence of requests of
    the cores and the IPs, calls, frequency changes within the memory's range
    and ticks without a fault, the completion callbacks and the deliveries
    included; and the accepted requests are, one for one, those that wait in
    the agent's queues, those in the memory, those that wait as responses and
    those delivered to the core or IP that sent them. *)
Theorem requests_answered_once ini vdd period sizeMB n perfect f0 mem_freq q c e ops :
  uncore_config ini sizeMB n period mem_freq -> delivered e = [] ->
  Forall uop_ok ops -> uop_all_ticks ops <= 2 ^ 62 ->
  exists u e' acc, (uncore_start ini vdd period sizeMB perfect f0 mem_freq q c
      ≫= fun u => uncore_run (u, e, []) ops) = Ok (u, e', acc) /\
    acc ≡ₚ delivered e' ++ requests (gemdroid_sa u) ++ in_memory (gemdroid_memory u) ++ responses (gemdroid_sa u).
Proof.
  intros Hc He Hops Hb.
  destruct (uncore_runs ini vdd period sizeMB n perfect f0 mem_freq q c e ops Hc He Hops Hb)
    as ([[u e'] acc] & Hr & _ & _ & Hp).
  exists u, e', acc. split; [exact Hr|]. rewrite Hp. unfold account, outstanding. solve_Permutation.
Qed.

(** C26: the agent's queues are bounded: along every run the cores have at most
    257 requests queued, the IPs at most 231, and each type of IP at most 10
    calls. *)
Theorem agent_queues_bounded ini vdd period sizeMB n perfect f0 mem_freq q c e ops :
  uncore_config ini sizeMB n period mem_freq -> delivered e = [] ->
  Forall uop_ok ops -> uop_all_ticks ops <= 2 ^ 62 ->
  exists u e' acc, (uncore_start ini vdd period sizeMB perfect f0 mem_freq q c
      ≫= fun u => uncore_run (u, e, []) ops) = Ok (u, e', acc) /\
    zlen (coreMemReq (gemdroid_sa u)) <= 257 /\ zlen (ipMemReq (gemdroid_sa u)) <= 231 /\
    Forall (fun calls => zlen calls <= 10) (ipReq (gemdroid_sa u)).
Proof.
  intros Hc He Hops Hb.
  destruct (uncore_runs ini vdd period sizeMB n perfect f0 mem_freq q c e ops Hc He Hops Hb)
    as ([[u e'] acc] & Hr & [_ [_ _ _ _ _ Hca Hcb Hib] _ _] & _).
  exists u, e', acc. split; [exact Hr|]. split; [exact Hcb | split; [exact Hib|]].
  eapply Forall_impl; [exact Hca|]. by intros x [_ ?].
Qed.
End Properties.

(** The cores go first. While a request of a core waits, a round of
    injection sends that request or nothing: the IPs' queue is left as it is. *)
Theorem cores_inject_first u u' r rest :
  coreMemReq (gemdroid_sa u) = r :: rest -> sendMemoryRequests u = Ok u' ->
  ipMemReq (gemdroid_sa u') = ipMemReq (gemdroid_sa u) /\
  (coreMemReq (gemdroid_sa u') = rest \/ coreMemReq (gemdroid_sa u') = r :: rest).
Proof.
  unfold sendMemoryRequests, inject. intros Ec H. rewrite Ec in H. res_inv. destruct a as [ok u1].
  assert (same_requests (gemdroid_sa u) (gemdroid_sa u1)) as [S1 S2 _].
  { unfold enqueueMemReq in Ha. case_bool_decide; [discriminate Ha|].
    destruct (perfectMemory (gemdroid_memory u)); cbn [negb] in Ha; res_inv; [|destruct a; res_inv; done].
    unfold memResponse in Ha0. repeat case_bool_decide; res_inv; done. }
  injection H as <-. destruct ok; [|by rewrite S1, S2, Ec; auto]. cbn. rewrite S1, S2, Ec. auto.
Qed.

(** ** Witnesses

    Receivers that only record what they are given. *)

#[export] Instance recorder : Receivers (list Msg) := {
  memCoreResponse e ty id addr isRead := Ok ((addr, ty, id, isRead) :: e);
  memIPResponse e ty id addr isRead := Ok ((addr, ty, id, isRead) :: e);
  enqueueIPReq e r := Ok (true, e)
}.

#[export] Instance recorder_laws : ReceiverLaws (list Msg).
Proof.
  apply (Build_ReceiverLaws _ _ (fun e => e)).
  - intros e id addr isRead _. by eexists.
  - intros e ty id addr isRead _ _. by eexists.
  - intros e r _. by exists true, e.
Defined.

Definition sample_uncore_ops : list UncoreOp :=
  [UCoreMem 0 4096 true; UIPMem IP_TYPE_VD 0 0 2200000000 false; UCoreMem 3 64 false;
   UCall (mkIPRequest IP_TYPE_CPU 0 0 IP_TYPE_VD VD_ADDR_START 1024 true 0 IP_TYPE_DC 0)]
  ++ mjoin (replicate 40 [UAgentTick; UMemoryTick]) ++ [UDecFreq 1; UIncFreq 2; USetFreq (F64.lit 5 10)].

Lemma sample_uncore_ok : Forall uop_ok sample_uncore_ops.
Proof.
  unfold sample_uncore_ops. apply Forall_app. split; [|apply Forall_app; split].
  - rewrite !Forall_cons, Forall_nil. cbn. by repeat split; (done || lia).
  - apply Forall_join, Forall_replicate. by repeat constructor.
  - by repeat constructor.
Qed.

Lemma sample_uncore_config : uncore_config DDR3_micron_32M_8B_x8_sg15 8192 1 (F64.lit 15 10) (F64.lit 8 10).
Proof. split; [exact DDR3_memory_config | split; by vm_compute]. Qed.

Lemma requests_answered_once_witness : exists u e' acc,
  (uncore_start DDR3_micron_32M_8B_x8_sg15 (F64.lit 15 10) (F64.lit 15 10) 8192 false (F64.lit 8 10) (F64.lit 8 10) 0 0
    ≫= fun u => uncore_run (u, [], []) sample_uncore_ops) = Ok (u, e', acc) /\
  acc ≡ₚ delivered e' ++ requests (gemdroid_sa u) ++ in_memory (gemdroid_memory u) ++ responses (gemdroid_sa u).
Proof.
  apply (requests_answered_once _ _ _ _ 1 _ _ _ _ _ _ _ sample_uncore_config); [done | exact sample_uncore_ok | by vm_compute].
Defined.

Lemma agent_queues_bounded_witness : exists u e' acc,
  (uncore_start DDR3_micron_32M_8B_x8_sg15 (F64.lit 15 10) (F64.lit 15 10) 8192 false (F64.lit 8 10) (F64.lit 8 10) 0 0
    ≫= fun u => uncore_run (u, [], []) sample_uncore_ops) = Ok (u, e', acc) /\
  zlen (coreMemReq (gemdroid_sa u)) <= 257 /\ zlen (ipMemReq (gemdroid_sa u)) <= 231 /\
  Forall (fun calls => zlen calls <= 10) (ipReq (gemdroid_sa u)).
Proof.
  apply (agent_queues_bounded _ _ _ _ 1 _ _ _ _ _ _ _ sample_uncore_config); [done | exact sample_uncore_ok | by vm_compute].
Defined.

(** One request of each kind, in front of a memory that answers at once. *)
Definition sample_uncore : Uncore :=
  mkUncore
    ((GemDroidSA_new 0 0) <| coreMemReq := [mkMemMsg IP_TYPE_CPU 1 1 4096 true false] |>
                          <| ipMemReq := [mkMemMsg IP_TYPE_VD 0 0 2200000000 true false] |>)
    (mkGemMemory
      (mkWrapper (mkMultiChannel DDR3_micron_32M_8B_x8_sg15 (F64.lit 15 10) [] (ClockDomainCrosser_new 1 1) 0)
         (F64.lit 15 10) 0 0)
      0 true (F64.lit 8 10) (F64.lit 8 10) 0 0 0)
    [0; 0; 0; 0] (replicate 16 0).

Lemma cores_inject_first_witness : exists u',
  sendMemoryRequests sample_uncore = Ok u' /\ ipMemReq (gemdroid_sa u') = ipMemReq (gemdroid_sa sample_uncore).
Proof.
  eexists. split; [reflexivity|]. eapply cores_inject_first; reflexivity.
Defined.
