(* ===== verification/MemoryFreq.v ===== *)
(** * The frequency of the memory under its governor

    Frequencies are doubles moved in steps of 0.1 GHz, the clock period and the
    supply voltage of the simulator singles derived from them. The frequencies
    that such steps reach from the multiples of 0.1 GHz are finitely many, and
    evaluation checks them all. *)

From S2P Require Import Prelude.
From S2P Require Import DramConfig.
From S2P Require Import ClockDomain.
From S2P Require Import MultiChannel.
From S2P Require Import GemDefines.
From S2P Require Import GemMemory.

(** What the governors do; the frequencies they set are multiples of 0.1 GHz. *)
Inductive FreqOp :=
| FSet (tenths : Z)
| FMin
| FMax
| FOpt
| FInc
| FDec.

Definition freq_op (m : GemDroidMemory) (op : FreqOp) : Res GemDroidMemory :=
  match op with
  | FSet k => setMemFreq (F64.lit k 10) m
  | FMin => Ok (setMinMemFreq m)
  | FMax => Ok (setMaxMemFreq m)
  | FOpt => Ok (setOptMemFreq m)
  | FInc => Ok (incMemFreq 1 m)
  | FDec => Ok (decMemFreq 1 m)
  end.

Definition freq_run (m : GemDroidMemory) (ops : list FreqOp) : Res GemDroidMemory := foldM freq_op m ops.

Definition freq_op_ok (op : FreqOp) : Prop :=
  match op with FSet k => 3 <= k <= 10 | _ => True end.

#[export] Instance spec_float_eq_dec : EqDecision spec_float.
Proof. solve_decision. Defined.

(** ** The reachable frequencies *)

Definition tenths : list spec_float := (fun k => F64.lit k 10) <$> [3; 4; 5; 6; 7; 8; 9; 10].

Definition step_up (f : spec_float) : spec_float :=
  let g := F64.add f (freq_step 1) in if F64.leb g MAX_MEM_FREQ then g else MAX_MEM_FREQ.
Definition step_down (f : spec_float) : spec_float :=
  let g := F64.sub f (freq_step 1) in if F64.leb MIN_MEM_FREQ g then g else MIN_MEM_FREQ.

Fixpoint iterates (g : spec_float -> spec_float) (n : nat) (f : spec_float) : list spec_float :=
  match n with O => [] | S n' => f :: iterates g n' (g f) end.

(** Up from the lowest frequency, down from the highest; the others coincide. *)
Definition reachable_freqs : list spec_float :=
  Eval vm_compute in
    remove_dups (tenths ++ iterates step_up 8 MIN_MEM_FREQ
      ++ mjoin (iterates step_down 8 <$> iterates step_up 8 MIN_MEM_FREQ) ++ iterates step_down 8 MAX_MEM_FREQ).

Definition in_range (f : spec_float) : bool := F64.leb MIN_MEM_FREQ f && F64.leb f MAX_MEM_FREQ.

Lemma reachable_freqs_closed :
  forallb (fun f => in_range f && bool_decide (step_up f ∈ reachable_freqs)
                      && bool_decide (step_down f ∈ reachable_freqs)) reachable_freqs = true.
Proof. by vm_compute. Qed.

Lemma tenths_reachable :
  forallb (fun f => bool_decide (f ∈ reachable_freqs)) (MIN_MEM_FREQ :: MAX_MEM_FREQ :: tenths) = true.
Proof. by vm_compute. Qed.

Lemma forallb_In {A} (p : A -> bool) l x : forallb p l = true -> x ∈ l -> p x = true.
Proof. rewrite forallb_forall. intros H Hx. apply H. by apply list_elem_of_In. Qed.

Lemma reachable_step f :
  f ∈ reachable_freqs -> in_range f = true /\ step_up f ∈ reachable_freqs /\ step_down f ∈ reachable_freqs.
Proof.
  intros H. pose proof (forallb_In _ _ f reachable_freqs_closed H) as E.
  rewrite !andb_true_iff, !bool_decide_eq_true in E. tauto.
Qed.

Lemma tenths_mem k : 3 <= k <= 10 -> F64.lit k 10 ∈ tenths.
Proof.
  intros Hk. unfold tenths. apply (list_elem_of_fmap_2 (fun k => F64.lit k 10)).
  rewrite !elem_of_cons. lia.
Qed.

Lemma tenth_reachable f : f ∈ MIN_MEM_FREQ :: MAX_MEM_FREQ :: tenths -> f ∈ reachable_freqs.
Proof. intros H. by apply (forallb_In _ _ f tenths_reachable), bool_decide_eq_true in H. Qed.

(** ** The invariant *)

(** The memory runs at a reachable frequency and the simulator's period is one
    over it. *)
Record freq_inv (m : GemDroidMemory) : Prop := {
  fi_reach : m_freq m ∈ reachable_freqs;
  fi_opt : m_optMemFreq m = F64.lit 8 10;
  fi_period : @tCK (config (dramsim (dramWrapper m))) = F64.to_F32 (F64.div (F64.of_Z 1) (m_freq m))
}.

Lemma set_freq_freq_inv f m : f ∈ reachable_freqs -> m_optMemFreq m = F64.lit 8 10 -> freq_inv (set_freq f m).
Proof.
  intros Hf Ho. constructor; [done | done |]. cbn. unfold MultiChannel_updateFreq. by destruct (voltage_of _).
Qed.

Lemma set_tenth_accepted k :
  3 <= k <= 10 ->
  F64.leb (F64.sub MIN_MEM_FREQ EPSILON) (F64.lit k 10) && F64.leb (F64.lit k 10) (F64.add MAX_MEM_FREQ EPSILON) = true.
Proof.
  intros Hk. apply tenths_mem in Hk. revert Hk. generalize (F64.lit k 10). intros f Hf.
  revert Hf. apply (forallb_In (fun f => F64.leb (F64.sub MIN_MEM_FREQ EPSILON) f && F64.leb f (F64.add MAX_MEM_FREQ EPSILON))).
  by vm_compute.
Qed.

Lemma freq_op_inv m op :
  freq_op_ok op -> freq_inv m -> exists m', freq_op m op = Ok m' /\ freq_inv m'.
Proof.
  intros Hop [Hr Ho _]. destruct (reachable_step _ Hr) as (_ & Hu & Hd).
  destruct op as [k| | | | |]; cbn [freq_op].
  - unfold setMemFreq. rewrite set_tenth_accepted by done. eexists. split; [done|].
    apply set_freq_freq_inv; [|done]. apply tenth_reachable. do 2 right. by apply tenths_mem.
  - eexists. split; [done|]. apply set_freq_freq_inv; [|done]. apply tenth_reachable. left.
  - eexists. split; [done|]. apply set_freq_freq_inv; [|done]. apply tenth_reachable. right. left.
  - eexists. split; [done|]. apply set_freq_freq_inv; [|done]. rewrite Ho. apply tenth_reachable.
    do 2 right. by apply tenths_mem.
  - eexists. split; [done|]. by apply (set_freq_freq_inv (step_up (m_freq m))).
  - eexists. split; [done|]. by apply (set_freq_freq_inv (step_down (m_freq m))).
Qed.

Lemma freq_run_inv ops m :
  Forall freq_op_ok ops -> freq_inv m -> exists m', freq_run m ops = Ok m' /\ freq_inv m'.
Proof.
  intros Hops. apply foldM_inv. intros s op Hop Hs. apply freq_op_inv; [|done].
  by apply (proj1 (Forall_forall _ _) Hops).
Qed.

(** ** Properties *)

(** The memory frequency stays between 300 MHz and 1 GHz. From a memory
    at a multiple of 100 MHz, any sequence of steps up and down, of jumps to
    the minimum, the maximum and the optimum, and of settings to multiples of
    100 MHz is accepted, keeps the frequency in the range although the steps
    round, and leaves the simulator with the period of that frequency. *)
Theorem mem_freq_in_range m k ops :
  3 <= k <= 10 -> m_optMemFreq m = F64.lit 8 10 -> Forall freq_op_ok ops ->
  exists m', freq_run m (FSet k :: ops) = Ok m' /\ in_range (m_freq m') = true /\
    @tCK (config (dramsim (dramWrapper m'))) = F64.to_F32 (F64.div (F64.of_Z 1) (m_freq m')).
Proof.
  intros Hk Ho Hops. unfold freq_run. cbn [foldM freq_op]. unfold setMemFreq.
  rewrite set_tenth_accepted by done. cbn [mbind Res_bind].
  destruct (freq_run_inv ops (set_freq (F64.lit k 10) m) Hops) as (m' & E & [Hr _ Hp]).
  { apply set_freq_freq_inv; [|done]. apply tenth_reachable. do 2 right. by apply tenths_mem. }
  exists m'. split; [exact E|]. split; [by apply reachable_step | done].
Qed.

(** The voltage that the table of [updateFreq] gives a multiple of 100 MHz,
    in hundredths of a volt. *)
Definition table_voltage (k : Z) : Z :=
  match k with
  | 3 => 95 | 4 => 100 | 5 => 105 | 6 => 110 | 7 => 115 | 8 => 120 | 9 => 125 | 10 => 130
  | _ => 0
  end.

Lemma voltage_of_tenth k :
  3 <= k <= 10 -> exists v, voltage_of (freq_in_MHz (F64.lit k 10)) = Some v /\
    F64.to_F32 v = F64.to_F32 (F64.lit (table_voltage k) 100).
Proof.
  intros Hk. assert (k ∈ [3; 4; 5; 6; 7; 8; 9; 10]) as Hin by (rewrite !elem_of_cons; lia). revert Hin.
  rewrite !elem_of_cons, elem_of_nil. intros Hin.
  repeat (destruct Hin as [->|Hin]; [eexists; split; by vm_compute|]). done.
Qed.

(** Setting a multiple of 100 MHz sets its voltage: whatever the state
    before, the supply voltage afterwards is that of the table, from 0.95 V at
    300 MHz to 1.30 V at 1 GHz. *)
Theorem set_freq_voltage m k :
  3 <= k <= 10 -> exists m', setMemFreq (F64.lit k 10) m = Ok m' /\ m_freq m' = F64.lit k 10 /\
    Vdd (dramsim (dramWrapper m')) = F64.to_F32 (F64.lit (table_voltage k) 100).
Proof.
  intros Hk. unfold setMemFreq. rewrite set_tenth_accepted by done. eexists. split; [done|]. split; [done|].
  destruct (voltage_of_tenth k Hk) as (v & Ev & <-). cbn. unfold MultiChannel_updateFreq. by rewrite Ev.
Qed.

(** The k-th step up from the lowest frequency. *)
Fixpoint inc_times (n : nat) (m : GemDroidMemory) : GemDroidMemory :=
  match n with O => m | S n' => inc_times n' (incMemFreq 1 m) end.

(** The frequency and the voltage after that many steps, on their own. *)
Fixpoint inc_values (n : nat) (fv : spec_float * spec_float) : spec_float * spec_float :=
  match n with
  | O => fv
  | S n' =>
      let f := step_up fv.1 in
      inc_values n' (f, match voltage_of (freq_in_MHz f) with Some v => F64.to_F32 v | None => fv.2 end)
  end.

Definition values (m : GemDroidMemory) : spec_float * spec_float := (m_freq m, Vdd (dramsim (dramWrapper m))).

Lemma set_freq_values f m :
  values (set_freq f m) =
    (f, match voltage_of (freq_in_MHz f) with Some v => F64.to_F32 v | None => (values m).2 end).
Proof. unfold values. cbn. unfold MultiChannel_updateFreq. by destruct (voltage_of _). Qed.

Lemma inc_times_values n m : values (inc_times n m) = inc_values n (values m).
Proof.
  revert m. induction n as [|n IH]; intros m; [done|]. cbn [inc_times inc_values]. rewrite IH.
  unfold incMemFreq. cbv zeta. by rewrite set_freq_values.
Qed.

(** Stepping up loses the voltage. Five steps up from 300 MHz reach a
    frequency that rounds down to 799 MHz, which the table does not list: the
    supply voltage stays at the 1.15 V of 700 MHz, while setting 800 MHz
    directly gives 1.20 V. The steps after it, to 899 and 999 MHz, keep it. *)
Theorem stepping_up_keeps_stale_voltage m :
  let at_step n := inc_times n (setMinMemFreq m) in
  freq_in_MHz (m_freq (at_step 4%nat)) = 700 /\ freq_in_MHz (m_freq (at_step 5%nat)) = 799 /\
  freq_in_MHz (m_freq (at_step 7%nat)) = 999 /\
  Vdd (dramsim (dramWrapper (at_step 5%nat))) = F64.to_F32 (F64.lit (table_voltage 7) 100) /\
  Vdd (dramsim (dramWrapper (at_step 7%nat))) = F64.to_F32 (F64.lit (table_voltage 7) 100) /\
  Vdd (dramsim (dramWrapper (at_step 5%nat))) <> F64.to_F32 (F64.lit (table_voltage 8) 100).
Proof.
  intros at_step.
  assert (forall n, values (at_step n) = inc_values n (MIN_MEM_FREQ, F64.to_F32 (F64.lit 95 100))) as H.
  { intros n. unfold at_step. rewrite inc_times_values. unfold setMinMemFreq. rewrite set_freq_values. by f_equal; vm_compute. }
  pose proof (H 4%nat) as H4. pose proof (H 5%nat) as H5. pose proof (H 7%nat) as H7. clear H.
  unfold values in H4, H5, H7. revert H4 H5 H7. generalize (at_step 4%nat) (at_step 5%nat) (at_step 7%nat).
  intros m4 m5 m7 H4 H5 H7. apply (f_equal fst) in H4 as F4. apply (f_equal fst) in H5 as F5.
  apply (f_equal fst) in H7 as F7. apply (f_equal snd) in H5 as V5. apply (f_equal snd) in H7 as V7. clear H4 H5 H7.
  cbn [fst snd] in *. rewrite F4, F5, F7, V5, V7. split_and!; by vm_compute.
Qed.

(** ** Witnesses *)

Definition sample_memory : GemDroidMemory :=
  mkGemMemory
    (mkWrapper (mkMultiChannel DDR3_micron_32M_8B_x8_sg15 (F64.lit 15 10) [] ClockDomainCrosser_default 0)
       (F64.lit 15 10) 0 0)
    0 false (F64.lit 8 10) (F64.lit 8 10) 0 0 0.

Lemma mem_freq_in_range_witness : exists m',
  freq_run sample_memory (FSet 5 :: [FInc; FInc; FInc; FInc; FDec; FOpt; FDec; FMin]) = Ok m' /\
  in_range (m_freq m') = true /\
  @tCK (config (dramsim (dramWrapper m'))) = F64.to_F32 (F64.div (F64.of_Z 1) (m_freq m')).
Proof. apply mem_freq_in_range; [lia | reflexivity | by repeat constructor]. Defined.

Lemma set_freq_voltage_witness : exists m',
  setMemFreq (F64.lit 6 10) sample_memory = Ok m' /\ m_freq m' = F64.lit 6 10 /\
  Vdd (dramsim (dramWrapper m')) = F64.to_F32 (F64.lit (table_voltage 6) 100).
Proof. apply set_freq_voltage. lia. Defined.
