(* ===== verification/FlowTheorems.v ===== *)
(** * The flow table: loading it and asking it

    What [loadFlows] builds from well-formed lines, what the queries answer
    about the chains that were loaded, and what the shipped file does. *)

From S2P Require Import Prelude.
From S2P Require Import GemDefines.
From S2P Require Import Flows.

(** ** Rows

    A chain of at most four IPs, padded by -1 to the row's length. *)

Definition pad (ips : list Z) : list Z := ips ++ replicate (Z.to_nat MAX_IPS_IN_FLOW - length ips) (-1).

Definition chain_ok (ips : list Z) : Prop :=
  (length ips < Z.to_nat MAX_IPS_IN_FLOW)%nat /\ Forall (fun ip => 0 <= ip < IP_TYPE_END) ips.

(** The chains of an application, padded by empty rows. *)
Definition app_rows (flows : list (list Z)) : list (list Z) :=
  (pad <$> flows) ++ replicate (Z.to_nat MAX_FLOWS_IN_APP - length flows) (pad []).

Definition app_ok (flows : list (list Z)) : Prop :=
  (length flows <= Z.to_nat MAX_FLOWS_IN_APP)%nat /\ Forall chain_ok flows.

(** The table of the chains of every application, and its lines in the file. *)
Definition Chains : Type := list (list (list Z)).
Definition chains_ok (ts : Chains) : Prop := length ts = Z.to_nat APP_ID_END /\ Forall app_ok ts.
Definition table_of (ts : Chains) : list (list (list Z)) := app_rows <$> ts.

Definition flow_line (app : Z) (ips : list Z) : list Z := app :: ips ++ [-1].
Definition flow_lines_from (app : nat) (ts : Chains) : list (list Z) :=
  mjoin (imap (fun k flows => flow_line (Z.of_nat (app + k)) <$> flows) ts).
Definition flow_lines (ts : Chains) : list (list Z) := flow_lines_from 0 ts.

Lemma flow_lines_cons n flows ts :
  flow_lines_from n (flows :: ts) = (flow_line (Z.of_nat n) <$> flows) ++ flow_lines_from (S n) ts.
Proof.
  unfold flow_lines_from. cbn. rewrite Nat.add_0_r. f_equal. f_equal. apply imap_ext. intros i x _. cbn.
  by rewrite Nat.add_succ_r.
Qed.

Lemma length_pad ips : (length ips <= Z.to_nat MAX_IPS_IN_FLOW)%nat -> length (pad ips) = Z.to_nat MAX_IPS_IN_FLOW.
Proof. intros H. unfold pad. rewrite length_app, length_replicate. lia. Qed.

(** Writing the next cell of a padded row. *)
Lemma insert_pad ips v :
  (length ips < Z.to_nat MAX_IPS_IN_FLOW)%nat -> <[length ips := v]> (pad ips) = pad (ips ++ [v]).
Proof.
  intros H. unfold pad. rewrite insert_app_r_alt, Nat.sub_diag by lia. rewrite <- app_assoc. f_equal.
  rewrite length_app. cbn [length].
  replace (Z.to_nat MAX_IPS_IN_FLOW - length ips)%nat with (S (Z.to_nat MAX_IPS_IN_FLOW - (length ips + 1))) by lia.
  done.
Qed.

Lemma insert_pad_end ips :
  (length ips < Z.to_nat MAX_IPS_IN_FLOW)%nat -> <[length ips := -1]> (pad ips) = pad ips.
Proof.
  intros H. apply list_insert_id. unfold pad. rewrite lookup_app_r, Nat.sub_diag by lia.
  rewrite lookup_replicate. split; [done | lia].
Qed.

(** ** Writing one row *)

Definition set_row (t : list (list (list Z))) (a f : nat) (row : list Z) : list (list (list Z)) := alter (fun flows => <[f := row]> flows) a t.

Definition row_at (t : list (list (list Z))) (a f : nat) (row : list Z) : Prop :=
  exists flows, t !! a = Some flows /\ flows !! f = Some row.

Lemma flow_set_row t a f row pos v :
  row_at t a f row -> (pos < length row)%nat ->
  flow_set t (Z.of_nat a) (Z.of_nat f) (Z.of_nat pos) v = Ok (set_row t a f (<[pos := v]> row)).
Proof.
  intros (flows & Ea & Ef) Hp. unfold flow_set, flow_get.
  destruct (lookup_lt_is_Some_2 row pos Hp) as [x Ex].
  rewrite zget_of_nat, Ea. cbn [of_option mbind Res_bind]. rewrite zget_of_nat, Ef. cbn [of_option mbind Res_bind].
  rewrite zget_of_nat, Ex. cbn [of_option mbind Res_bind]. rewrite zalter_of_nat.
  f_equal. unfold set_row. apply list_alter_ext; [|done]. intros flows' E'. rewrite Ea in E'. injection E' as <-.
  rewrite zalter_of_nat. apply list_eq. intros j. destruct (decide (f = j)) as [<-|].
  - rewrite list_lookup_alter_eq, Ef, list_lookup_insert_eq by (eauto using lookup_lt_Some). cbn. f_equal.
    rewrite zalter_of_nat. apply list_eq. intros k. destruct (decide (pos = k)) as [<-|].
    + by rewrite list_lookup_alter_eq, Ex, list_lookup_insert_eq.
    + by rewrite list_lookup_alter_ne, list_lookup_insert_ne.
  - by rewrite list_lookup_alter_ne, list_lookup_insert_ne.
Qed.

Lemma set_row_at t a f row row' : row_at t a f row -> row_at (set_row t a f row') a f row'.
Proof.
  intros (flows & Ea & Ef). exists (<[f := row']> flows). unfold set_row.
  rewrite list_lookup_alter_eq, Ea. cbn. split; [done|]. apply list_lookup_insert_eq. by eapply lookup_lt_Some.
Qed.

Lemma set_row_twice t a f row row' : set_row (set_row t a f row) a f row' = set_row t a f row'.
Proof.
  unfold set_row. rewrite list_alter_alter_eq. apply list_alter_ext; [|done]. intros flows _. cbn.
  by rewrite list_insert_insert_eq.
Qed.

Lemma set_row_same t a f row : row_at t a f row -> set_row t a f row = t.
Proof.
  intros (flows & Ea & Ef). unfold set_row. apply list_eq. intros i. destruct (decide (a = i)) as [<-|].
  - rewrite list_lookup_alter_eq, Ea. cbn. by rewrite list_insert_id.
  - by rewrite list_lookup_alter_ne.
Qed.

(** The loop over one line writes the chain into its row. *)
Lemma load_ips_row ips : forall fuel t a f pre ip0,
  row_at t a f (pad pre) -> (length pre + length ips < Z.to_nat MAX_IPS_IN_FLOW)%nat ->
  Forall (fun ip => 0 <= ip < IP_TYPE_END) ips -> (length ips < fuel)%nat ->
  load_ips fuel t (Z.of_nat a) (Z.of_nat f) (Z.of_nat (length pre)) ip0 (ips ++ [-1])
    = Ok (set_row t a f (pad (pre ++ ips))).
Proof.
  induction ips as [|ip ips IH]; intros [|fuel] t a f pre ip0 Hr Hl Hips Hf; cbn in Hl, Hf; try lia; cbn.
  - rewrite (flow_set_row t a f (pad pre)); [|done | rewrite length_pad; lia]. cbn [mbind Res_bind].
    rewrite insert_pad_end, app_nil_r, set_row_same by (done || lia). done.
  - apply Forall_cons in Hips as [Hip Hips].
    rewrite (flow_set_row t a f (pad pre)); [|done | rewrite length_pad; lia]. cbn [mbind Res_bind].
    rewrite insert_pad by lia. rewrite bool_decide_true by lia.
    replace (Z.of_nat (length pre) + 1) with (Z.of_nat (length (pre ++ [ip]))) by (rewrite length_app; cbn; lia).
    rewrite IH.
    + by rewrite set_row_twice, <- app_assoc.
    + by eapply set_row_at.
    + rewrite length_app. cbn. lia.
    + done.
    + lia.
Qed.

(** ** Loading the lines of one application *)

Lemma length_app_rows flows :
  (length flows <= Z.to_nat MAX_FLOWS_IN_APP)%nat -> length (app_rows flows) = Z.to_nat MAX_FLOWS_IN_APP.
Proof. intros H. unfold app_rows. rewrite length_app, length_fmap, length_replicate. lia. Qed.

Lemma app_rows_next flows :
  (length flows < Z.to_nat MAX_FLOWS_IN_APP)%nat -> app_rows flows !! length flows = Some (pad []).
Proof.
  intros H. unfold app_rows. rewrite lookup_app_r; rewrite length_fmap; [|lia].
  rewrite Nat.sub_diag. apply lookup_replicate. split; [done | lia].
Qed.

Lemma app_rows_snoc flows ips :
  (length flows < Z.to_nat MAX_FLOWS_IN_APP)%nat ->
  <[length flows := pad ips]> (app_rows flows) = app_rows (flows ++ [ips]).
Proof.
  intros H. unfold app_rows. rewrite insert_app_r_alt; rewrite length_fmap; [|lia].
  rewrite Nat.sub_diag, fmap_app, <- app_assoc, length_app. f_equal. cbn [length].
  replace (Z.to_nat MAX_FLOWS_IN_APP - length flows)%nat
    with (S (Z.to_nat MAX_FLOWS_IN_APP - (length flows + 1))) by lia. done.
Qed.

(** One line adds one chain to its application. *)
Lemma load_line (t : list (list (list Z))) a flows ips last fid lines :
  t !! a = Some (app_rows flows) -> (length flows < Z.to_nat MAX_FLOWS_IN_APP)%nat -> chain_ok ips ->
  (if bool_decide (Z.of_nat a <> last) then 0 else fid) = Z.of_nat (length flows) ->
  forall ip0, load_lines t fid last ip0 (flow_line (Z.of_nat a) ips :: lines) =
    load_lines (<[a := app_rows (flows ++ [ips])]> t) (Z.of_nat (length (flows ++ [ips]))) (Z.of_nat a) (-1) lines.
Proof.
  intros Ha Hf [Hlen Hips] Hfid ip0. unfold flow_line. cbn [load_lines]. cbv zeta. rewrite Hfid.
  rewrite (load_ips_row ips load_fuel t a (length flows) []); [|by exists (app_rows flows); eauto using app_rows_next|done..|].
  - cbn [mbind Res_bind app]. f_equal; [|rewrite length_app; cbn; lia].
    unfold set_row. apply list_eq. intros i. destruct (decide (a = i)) as [<-|].
    + rewrite list_lookup_alter_eq, Ha, list_lookup_insert_eq by (by eapply lookup_lt_Some).
      cbn. by rewrite app_rows_snoc.
    + by rewrite list_lookup_alter_ne, list_lookup_insert_ne.
  - unfold load_fuel. lia.
Qed.

(** The rest of an application's lines, after its first. *)
Lemma load_app_rest (t : list (list (list Z))) a flows more lines :
  t !! a = Some (app_rows flows) -> (length flows + length more <= Z.to_nat MAX_FLOWS_IN_APP)%nat ->
  Forall chain_ok more ->
  load_lines t (Z.of_nat (length flows)) (Z.of_nat a) (-1) ((flow_line (Z.of_nat a) <$> more) ++ lines) =
  load_lines (<[a := app_rows (flows ++ more)]> t) (Z.of_nat (length (flows ++ more))) (Z.of_nat a) (-1) lines.
Proof.
  revert t flows. induction more as [|ips more IH]; intros t flows Ha Hl Hm; cbn [length] in Hl.
  - by rewrite app_nil_r, list_insert_id.
  - apply Forall_cons in Hm as [Hips Hm]. cbn [fmap list_fmap app].
    rewrite (load_line t a flows ips) by (done || lia || by rewrite bool_decide_false by naive_solver).
    rewrite (IH _ (flows ++ [ips])); [|by rewrite list_lookup_insert_eq by (by eapply lookup_lt_Some)
      |rewrite length_app; cbn; lia | done].
    by rewrite list_insert_insert_eq, <- app_assoc.
Qed.

(** All the lines of an application that has none yet. *)
Lemma load_app (t : list (list (list Z))) a flows last fid ip0 lines :
  t !! a = Some (app_rows []) -> app_ok flows -> Z.of_nat a <> last ->
  exists fid' last' ip', (last' = last \/ last' = Z.of_nat a) /\
    load_lines t fid last ip0 ((flow_line (Z.of_nat a) <$> flows) ++ lines) =
    load_lines (<[a := app_rows flows]> t) fid' last' ip' lines.
Proof.
  intros Ha [Hl Hc] Hne. destruct flows as [|ips flows].
  - exists fid, last, ip0. cbn. rewrite list_insert_id by done. auto.
  - apply Forall_cons in Hc as [Hips Hc]. cbn in Hl. exists (Z.of_nat (length (ips :: flows))), (Z.of_nat a), (-1).
    split; [by right|]. cbn [fmap list_fmap app].
    rewrite (load_line t a [] ips) by (done || (cbn; lia) || by rewrite bool_decide_true).
    rewrite (load_app_rest _ a [ips]); [|by rewrite list_lookup_insert_eq by (by eapply lookup_lt_Some) | cbn; lia | done].
    by rewrite list_insert_insert_eq.
Qed.

Lemma load_apps ts : forall (done_ : list (list (list Z))) fid last ip0,
  Forall app_ok ts -> last < Z.of_nat (length done_) ->
  load_lines (done_ ++ replicate (length ts) (app_rows [])) fid last ip0 (flow_lines_from (length done_) ts)
    = Ok (done_ ++ table_of ts).
Proof.
  induction ts as [|flows ts IH]; intros done_ fid last ip0 Hts Hlast; [done|].
  apply Forall_cons in Hts as [Hfl Hts]. rewrite flow_lines_cons. cbn [length replicate].
  destruct (load_app (done_ ++ app_rows [] :: replicate (length ts) (app_rows [])) (length done_) flows last fid ip0
    (flow_lines_from (S (length done_)) ts)) as (fid' & last' & ip' & Hl & ->); [by apply list_lookup_middle | done | lia |].
  rewrite insert_app_r_alt, Nat.sub_diag by lia. cbn [insert list_insert].
  rewrite (cons_middle (app_rows flows)), app_assoc.
  replace (S (length done_)) with (length (done_ ++ [app_rows flows])) by (rewrite length_app; cbn; lia).
  rewrite IH; [by rewrite <- app_assoc | done | rewrite length_app; cbn; lia].
Qed.

(** ** Filling the caller's array *)

Lemma zlen_pad ips : (length ips <= Z.to_nat MAX_IPS_IN_FLOW)%nat -> zlen (pad ips) = MAX_IPS_IN_FLOW.
Proof. intros H. unfold zlen. by rewrite length_pad. Qed.

(** The array after [vs] were stored, and their number. *)
Definition filled (vs : list Z) : list Z * Z := (pad vs, zlen vs).

Lemma zalter_pad vs v :
  (length vs < Z.to_nat MAX_IPS_IN_FLOW)%nat -> zalter (fun _ => v) (pad vs) (zlen vs) = pad (vs ++ [v]).
Proof.
  intros H. unfold zlen. rewrite zalter_of_nat, <- insert_pad by done. apply list_eq. intros j.
  destruct (decide (length vs = j)) as [<-|].
  - rewrite list_lookup_alter_eq, list_lookup_insert_eq; [|rewrite length_pad; lia].
    destruct (lookup_lt_is_Some_2 (pad vs) (length vs)) as [y ->]; [rewrite length_pad; lia | done].
  - by rewrite list_lookup_alter_ne, list_lookup_insert_ne.
Qed.

Lemma push_filled vs v :
  (length vs < Z.to_nat MAX_IPS_IN_FLOW)%nat -> push_at (filled vs) v = Ok (filled (vs ++ [v])).
Proof.
  intros H. unfold push_at, filled. cbn [fst snd].
  destruct (of_option_zget (pad vs) (zlen vs)) as (x & _ & ->); [rewrite zlen_pad; unfold zlen in *; lia|].
  cbn [mbind Res_bind]. by rewrite zlen_snoc, zalter_pad.
Qed.

Lemma foldM_push vs ws :
  (length vs + length ws <= Z.to_nat MAX_IPS_IN_FLOW)%nat -> foldM push_at (filled vs) ws = Ok (filled (vs ++ ws)).
Proof.
  revert vs. induction ws as [|w ws IH]; intros vs H; [by rewrite app_nil_r|]. cbn in H. cbn [foldM].
  rewrite push_filled by lia. cbn [mbind Res_bind]. rewrite IH; [by rewrite <- app_assoc | rewrite length_app; cbn; lia].
Qed.

(** A loop whose every round stores some values stores them all. *)
Lemma foldM_select (body : list Z * Z -> Z -> Res (list Z * Z)) (sel : Z -> list Z) idx st :
  (forall st j, j ∈ idx -> body st j = foldM push_at st (sel j)) ->
  foldM body st idx = foldM push_at st (mjoin (sel <$> idx)).
Proof.
  revert st. induction idx as [|j idx IH]; intros st H; [done|]. cbn. rewrite foldM_app, H by left.
  destruct (foldM push_at st (sel j)); cbn; [|done]. apply IH. intros st' j' Hj. apply H. by right.
Qed.

(** ** The queries *)

Section Queries.
Context (ts : Chains) (app_id : list Z).
Hypothesis Hts : chains_ok ts.

(** The chains of the application that runs on a core. *)
Definition runs (core a : Z) (flows : list (list Z)) : Prop := zget app_id core = Some a /\ zget ts a = Some flows.

Lemma runs_ok core a flows : runs core a flows -> app_ok flows.
Proof.
  intros (_ & Ea). apply zget_lookup in Ea as [_ Ea].
  destruct Hts as [_ H]. exact (proj1 (Forall_lookup _ _) H _ _ Ea).
Qed.

Lemma flow_row_of core a flows f :
  runs core a flows -> (f < Z.to_nat MAX_FLOWS_IN_APP)%nat ->
  flow_row (table_of ts) a (Z.of_nat f) = Ok (pad (default [] (flows !! f))).
Proof.
  intros (_ & Ea) Hf. unfold flow_row, table_of. rewrite zget_fmap, Ea.
  cbn [fmap option_fmap option_map of_option mbind Res_bind].
  rewrite zget_of_nat. unfold app_rows. destruct (flows !! f) as [ips|] eqn:Ef.
  - rewrite lookup_app_l by (rewrite length_fmap; by eapply lookup_lt_Some). by rewrite list_lookup_fmap, Ef.
  - apply lookup_ge_None_1 in Ef. rewrite lookup_app_r; rewrite length_fmap; [|done].
    assert (replicate (Z.to_nat MAX_FLOWS_IN_APP - length flows) (pad []) !! (f - length flows)%nat = Some (pad [])) as -> by
      (apply lookup_replicate; split; [done | lia]). done.
Qed.

(** A loop over the chains up to the first empty one. *)
Fixpoint scan (body : Z -> list Z -> list Z * Z -> Res (list Z * Z)) (a : Z) (st : list Z * Z) (idx : list Z)
  : Res (list Z * Z) :=
  match idx with
  | [] => Ok st
  | i :: idx' =>
      row ← flow_row (table_of ts) a i;
      first ← of_option (zget row 0);
      if bool_decide (first = -1) then Ok st else st ← body i row st; scan body a st idx'
  end.

Lemma next_in_flows_scan curr a ft st idx :
  next_in_flows (table_of ts) curr a ft st idx =
  scan (fun _ row st => foldM (next_in_row curr ft row) st (zrange (MAX_IPS_IN_FLOW - 1))) a st idx.
Proof.
  revert st. induction idx as [|i idx IH]; intros st; [done|]. cbn.
  destruct (flow_row _ a i) as [row|]; cbn; [|done]. destruct (of_option (zget row 0)) as [x|]; cbn; [|done].
  case_bool_decide; [done|]. destruct (foldM _ _ _); cbn; [apply IH | done].
Qed.

Lemma identify_flows_scan ty a st idx :
  identify_flows (table_of ts) ty a st idx =
  scan (fun i row st => foldM (flow_uses ty i row) st (zrange MAX_IPS_IN_FLOW)) a st idx.
Proof.
  revert st. induction idx as [|i idx IH]; intros st; [done|]. cbn.
  destruct (flow_row _ a i) as [row|]; cbn; [|done]. destruct (of_option (zget row 0)) as [x|]; cbn; [|done].
  case_bool_decide; [done|]. destruct (foldM _ _ _); cbn; [apply IH | done].
Qed.

(** What the loop stores: [g] of every chain before the first empty one. *)
Fixpoint stored (g : Z -> list Z -> list Z) (i : nat) (flows : list (list Z)) : list Z :=
  match flows with
  | [] | [] :: _ => []
  | ips :: flows' => g (Z.of_nat i) ips ++ stored g (S i) flows'
  end.

Lemma first_of_pad ips : chain_ok ips -> zget (pad ips) 0 = Some (default (-1) (head ips)).
Proof. intros [_ H]. destruct ips as [|ip ips]; done. Qed.

Lemma scan_stored body g core a flows :
  runs core a flows ->
  (forall i ips st, chain_ok ips -> ips <> [] -> body i (pad ips) st = foldM push_at st (g i ips)) ->
  forall k i vs, (i + k = Z.to_nat MAX_FLOWS_IN_APP)%nat ->
  (length vs + length (stored g i (drop i flows)) <= Z.to_nat MAX_IPS_IN_FLOW)%nat ->
  scan body a (filled vs) (Z.of_nat <$> seq i k) = Ok (filled (vs ++ stored g i (drop i flows))).
Proof.
  intros Hr Hb. pose proof (runs_ok _ _ _ Hr) as [Hl Hc].
  induction k as [|k IH]; intros i vs Hk Hn; cbn [seq fmap list_fmap scan].
  - rewrite drop_ge by lia. by rewrite app_nil_r.
  - rewrite (flow_row_of core a flows i Hr) by lia. cbn [mbind Res_bind].
    destruct (flows !! i) as [ips|] eqn:Ei; cbn [default].
    2:{ apply lookup_ge_None_1 in Ei. rewrite drop_ge by done. cbn. by rewrite app_nil_r. }
    pose proof (proj1 (Forall_lookup _ _) Hc _ _ Ei) as Hips.
    rewrite (drop_S _ _ _ Ei) in Hn |- *. rewrite first_of_pad by done. cbn [of_option mbind Res_bind].
    destruct ips as [|ip ips]; [by rewrite app_nil_r|]. cbn [head default stored] in *.
    destruct Hips as [Hlen Hips]. pose proof Hips as [Hip _]%Forall_cons. cbn in Hip.
    rewrite bool_decide_false by (cbn; lia).
    change (id (ip :: ips)) with (ip :: ips). rewrite length_app in Hn. rewrite Hb by done. rewrite foldM_push by lia. cbn [mbind Res_bind].
    rewrite IH; [by rewrite <- app_assoc | lia | rewrite length_app; lia].
Qed.

(** ** The IPs that follow an IP *)

(** The IPs after the occurrences of [curr] in a chain; -1 after its last. *)
Fixpoint after (curr : Z) (ips : list Z) : list Z :=
  match ips with
  | [] => []
  | ip :: ips' =>
      (if bool_decide (ip = curr) then [default (-1) (head ips')] else []) ++ after curr ips'
  end.

(** The same for a chain that ends at [flow_type]. *)
Definition next_of (curr flow_type : Z) (ips : list Z) : list Z :=
  if bool_decide (last ips = Some flow_type) then after curr ips else [].

Lemma flow_end_pad ips j k :
  Forall (fun ip => 0 <= ip < IP_TYPE_END) ips -> flow_end (ips ++ replicate (S k) (-1)) j = j + zlen ips.
Proof.
  revert j. induction ips as [|ip ips IH]; intros j H.
  { cbn. rewrite bool_decide_true by done. unfold zlen. cbn. lia. }
  apply Forall_cons in H as [Hip H]. cbn [app flow_end]. rewrite bool_decide_false by lia.
  rewrite IH by done. unfold zlen. cbn [length]. lia.
Qed.

Lemma flowType_pad ips : chain_ok ips -> ips <> [] -> exists l, last ips = Some l /\ flowType (pad ips) = Ok l.
Proof.
  intros [Hl Hips] Hne. destruct (last ips) as [l|] eqn:El; [|by apply last_None in El].
  exists l. split; [done|]. unfold flowType, pad.
  destruct (Z.to_nat MAX_IPS_IN_FLOW - length ips)%nat as [|k] eqn:Ek; [lia|].
  rewrite flow_end_pad by done. apply last_Some in El as (ips0 & ->).
  replace (0 + zlen (ips0 ++ [l]) - 1) with (Z.of_nat (length ips0)) by (rewrite zlen_snoc; unfold zlen; lia).
  rewrite zget_of_nat, <- app_assoc. cbn [app]. by rewrite list_lookup_middle by done.
Qed.

(** Reading the padded row cell by cell finds the IPs after [curr]. *)
Lemma after_cells curr ips :
  chain_ok ips -> curr <> -1 ->
  mjoin ((fun j => if bool_decide (default (-1) (zget ips j) = curr) then [default (-1) (zget ips (j + 1))] else [])
    <$> zrange (MAX_IPS_IN_FLOW - 1)) = after curr ips.
Proof.
  intros [Hl _] Hc. change (Z.to_nat MAX_IPS_IN_FLOW) with 5%nat in Hl.
  change (zrange (MAX_IPS_IN_FLOW - 1)) with [0; 1; 2; 3].
  destruct ips as [|a [|b [|c [|d [|]]]]]; cbn in Hl; try lia; cbn;
    rewrite ?(bool_decide_false (-1 = curr)) by lia; by rewrite ?app_nil_r.
Qed.

Lemma pad_cell ips j :
  (length ips <= Z.to_nat MAX_IPS_IN_FLOW)%nat -> 0 <= j < MAX_IPS_IN_FLOW ->
  zget (pad ips) j = Some (default (-1) (zget ips j)).
Proof.
  intros Hl Hj. unfold zget. rewrite !bool_decide_true by lia. unfold pad.
  destruct (ips !! Z.to_nat j) as [x|] eqn:E; cbn.
  - by rewrite lookup_app_l by (by eapply lookup_lt_Some).
  - apply lookup_ge_None_1 in E. rewrite lookup_app_r by done. apply lookup_replicate. split; [done | lia].
Qed.

Lemma next_in_row_stores curr ft ips st :
  chain_ok ips -> ips <> [] -> curr <> -1 ->
  foldM (next_in_row curr ft (pad ips)) st (zrange (MAX_IPS_IN_FLOW - 1)) = foldM push_at st (next_of curr ft ips).
Proof.
  intros Hc Hne Hcurr. destruct (flowType_pad ips Hc Hne) as (l & El & Ef). pose proof Hc as [Hlen _].
  rewrite (foldM_select _ (fun j => if bool_decide (last ips = Some ft) then
    (if bool_decide (default (-1) (zget ips j) = curr) then [default (-1) (zget ips (j + 1))] else []) else [])).
  - f_equal. unfold next_of. case_bool_decide; [by apply after_cells|]. by vm_compute.
  - intros st' j Hj%elem_of_zrange. unfold next_in_row.
    rewrite !pad_cell by (lia || (unfold MAX_IPS_IN_FLOW in *; lia)). cbn [of_option mbind Res_bind]. rewrite Ef, El.
    cbn [mbind Res_bind]. rewrite (bool_decide_ext (Some l = Some ft) (ft = l)) by naive_solver.
    case_bool_decide as E1; case_bool_decide as E2; try done. cbn. by destruct (push_at _ _).
Qed.

(** ** The chains an IP is in *)

Definition uses (ip_type i : Z) (ips : list Z) : list Z := (fun _ => i) <$> filter (fun ip => ip = ip_type) ips.

Lemma uses_cells ty i ips :
  chain_ok ips -> ty <> -1 ->
  mjoin ((fun j => if bool_decide (default (-1) (zget ips j) = ty) then [i] else []) <$> zrange MAX_IPS_IN_FLOW)
    = uses ty i ips.
Proof.
  intros [Hl _] Hc. change (Z.to_nat MAX_IPS_IN_FLOW) with 5%nat in Hl.
  change (zrange MAX_IPS_IN_FLOW) with [0; 1; 2; 3; 4]. unfold uses.
  destruct ips as [|a [|b [|c [|d [|]]]]]; cbn in Hl; try lia; cbn;
    rewrite ?(bool_decide_false (-1 = ty)) by lia; rewrite ?app_nil_r; try done;
    rewrite ?filter_cons, ?filter_nil; repeat (case_bool_decide; case_decide); done.
Qed.

Lemma flow_uses_stores ty i ips st :
  chain_ok ips -> ty <> -1 ->
  foldM (flow_uses ty i (pad ips)) st (zrange MAX_IPS_IN_FLOW) = foldM push_at st (uses ty i ips).
Proof.
  intros Hc Hty. pose proof Hc as [Hlen _].
  rewrite (foldM_select _ (fun j => if bool_decide (default (-1) (zget ips j) = ty) then [i] else [])).
  - by rewrite uses_cells.
  - intros st' j Hj%elem_of_zrange. unfold flow_uses. rewrite pad_cell by (lia || done). cbn [of_option mbind Res_bind].
    case_bool_decide; [cbn; by destruct (push_at _ _) | done].
Qed.

(** ** Distinct IPs store at most one value for a chain *)

Lemma after_le curr ips : NoDup ips -> (length (after curr ips) <= 1)%nat.
Proof.
  assert (forall l, curr ∉ l -> after curr l = []) as Hnone.
  { induction l as [|x l IH]; intros H; [done|]. apply not_elem_of_cons in H as [? H]. cbn.
    rewrite bool_decide_false by done. by apply IH. }
  induction ips as [|ip ips IH]; intros H; [cbn; lia|]. apply NoDup_cons in H as [Hn H]. cbn.
  case_bool_decide as E; [|by apply IH]. subst. by rewrite Hnone.
Qed.

Lemma next_of_le curr ft ips : NoDup ips -> (length (next_of curr ft ips) <= 1)%nat.
Proof. intros H. unfold next_of. case_bool_decide; [by apply after_le | cbn; lia]. Qed.

Lemma uses_le ty i ips : NoDup ips -> (length (uses ty i ips) <= 1)%nat.
Proof.
  intros H. unfold uses. rewrite length_fmap. induction ips as [|ip ips IH]; [cbn; lia|].
  apply NoDup_cons in H as [Hn H]. rewrite filter_cons. case_decide as E; [|by apply IH]. subst.
  assert (filter (fun ip => ip = ty) ips = []) as ->; [|done].
  apply elem_of_nil_inv. intros x [-> ?]%list_elem_of_filter. done.
Qed.

Lemma stored_le g i flows :
  Forall NoDup flows -> (forall i ips, NoDup ips -> (length (g i ips) <= 1)%nat) ->
  (length (stored g i flows) <= length flows)%nat.
Proof.
  intros Hn Hg. revert i. induction Hn as [|ips flows Hips Hn IH]; intros i; [cbn; lia|].
  cbn. destruct ips as [|ip ips]; [cbn; lia|]. rewrite length_app.
  pose proof (Hg (Z.of_nat i) _ Hips). specialize (IH (S i)). lia.
Qed.

Lemma scan_distinct body g core a flows :
  runs core a flows -> Forall NoDup flows ->
  (forall i ips st, chain_ok ips -> ips <> [] -> body i (pad ips) st = foldM push_at st (g i ips)) ->
  (forall i ips, NoDup ips -> (length (g i ips) <= 1)%nat) ->
  scan body a (pad [], 0) (zrange MAX_FLOWS_IN_APP) = Ok (filled (stored g 0 flows)).
Proof.
  intros Hr Hn Hb Hg. pose proof (runs_ok _ _ _ Hr) as [Hl _].
  pose proof (stored_le g 0 flows Hn Hg) as Hle.
  change (Z.to_nat MAX_FLOWS_IN_APP) with 5%nat in Hl.
  apply (scan_stored body g core a flows Hr Hb 5 0 []); [done|].
  rewrite drop_0. change (Z.to_nat MAX_IPS_IN_FLOW) with 5%nat. cbn [length]. lia.
Qed.

(** ** The IPs of one chain *)

Lemma pick_stores keep ips st :
  chain_ok ips ->
  foldM (pick_ip keep (pad ips)) st (zrange MAX_IPS_IN_FLOW) = foldM push_at st (filter (fun ip => keep ip = true) ips).
Proof.
  intros Hc. pose proof Hc as [Hlen Hips].
  rewrite (foldM_select _ (fun j => match zget ips j with
    Some ip => if keep ip then [ip] else [] | None => [] end)).
  - f_equal. change (Z.to_nat MAX_IPS_IN_FLOW) with 5%nat in Hlen.
    change (zrange MAX_IPS_IN_FLOW) with [0; 1; 2; 3; 4].
    destruct ips as [|a [|b [|c [|d [|]]]]]; cbn in Hlen; try lia;
      vm_compute; repeat match goal with |- context [keep ?x] => destruct (keep x) end; reflexivity.
  - intros st' j Hj%elem_of_zrange. unfold pick_ip. rewrite pad_cell by (lia || done). cbn [of_option mbind Res_bind].
    destruct (zget ips j) as [ip|] eqn:E; cbn [default]; [|by cbn].
    apply zget_lookup in E as [_ E]. pose proof (proj1 (Forall_lookup _ _) Hips _ _ E) as Hip. cbn in Hip.
    rewrite bool_decide_true by (cbn; lia). cbn. destruct (keep ip); [cbn; by destruct (push_at _ _) | done].
Qed.

Lemma copy_ips_from idx : forall pre rest,
  (length pre + length idx = Z.to_nat MAX_IPS_IN_FLOW)%nat -> (length (pre ++ rest) < Z.to_nat MAX_IPS_IN_FLOW)%nat ->
  Forall (fun ip => 0 <= ip < IP_TYPE_END) rest ->
  copy_ips (pad (pre ++ rest)) (pad pre) (zlen pre) idx = Ok (filled (pre ++ rest)).
Proof.
  induction idx as [|j idx IH]; intros pre rest Hi Hl Hr; cbn [length] in Hi; rewrite length_app in Hl; [lia|].
  cbn [copy_ips]. rewrite pad_cell by (rewrite ?length_app; unfold zlen; lia). cbn [of_option mbind Res_bind].
  assert (zget (pre ++ rest) (zlen pre) = head rest) as -> by
    (unfold zlen; rewrite zget_of_nat, lookup_app_r, Nat.sub_diag by done; by destruct rest).
  destruct rest as [|r rest]; cbn [head default].
  - rewrite bool_decide_true by done. by rewrite app_nil_r.
  - apply Forall_cons in Hr as [Hr1 Hr]. rewrite bool_decide_false by (cbn; lia). cbn [length] in Hl.
    change (id r) with r. rewrite zalter_pad by lia. rewrite <- (zlen_snoc pre r), cons_middle, app_assoc.
    apply IH; rewrite ?length_app; cbn; (lia || done).
Qed.

Lemma copy_ips_pad ips : chain_ok ips -> copy_ips (pad ips) no_ips 0 (zrange MAX_IPS_IN_FLOW) = Ok (filled ips).
Proof. intros [Hlen Hips]. by apply (copy_ips_from (zrange MAX_IPS_IN_FLOW) [] ips). Qed.

(** ** Properties *)

(** The IPs to call next. For a table of chains of distinct IPs,
    [nextIPtoCall] returns, over the application's chains that end at the
    given flow type and up to the first empty chain, the IP after the given
    one (-1 after a chain's last), in the table's order, padded by -1. *)
Theorem nextIPtoCall_spec core a flows curr flow_type :
  runs core a flows -> Forall NoDup flows -> curr <> -1 ->
  nextIPtoCall (table_of ts) app_id curr core flow_type
    = Ok (pad (stored (fun _ => next_of curr flow_type) 0 flows)).
Proof.
  intros Hr Hn Hcurr. unfold nextIPtoCall. rewrite (proj1 Hr). cbn [of_option mbind Res_bind].
  rewrite next_in_flows_scan.
  rewrite (scan_distinct _ (fun _ => next_of curr flow_type) core a flows Hr Hn); [done | |].
  - intros i ips st Hc Hne. by apply next_in_row_stores.
  - intros i ips Hd. by apply next_of_le.
Qed.

(** The chains an IP is in. [flow_identification] returns the indices of
    the application's chains that contain the IP, in increasing order and
    padded by -1, up to the first empty chain. *)
Theorem flow_identification_spec core a flows ip_type :
  runs core a flows -> Forall NoDup flows -> ip_type <> -1 ->
  flow_identification (table_of ts) app_id core ip_type = Ok (pad (stored (uses ip_type) 0 flows)).
Proof.
  intros Hr Hn Hty. unfold flow_identification. rewrite (proj1 Hr). cbn [of_option mbind Res_bind].
  rewrite identify_flows_scan.
  rewrite (scan_distinct _ (uses ip_type) core a flows Hr Hn); [done | |].
  - intros i ips st Hc Hne. by apply flow_uses_stores.
  - intros i ips Hd. by apply uses_le.
Qed.

(** The IPs of a chain and their split. [getIPsInFlow] returns the
    chain, [getIPAccsInFlow] its accelerators and [getIPDevsInFlow] its
    devices, each padded by -1 and with its number, and every IP of the chain
    is one or the other. *)
Theorem ips_of_chain core a flows f ips :
  runs core a flows -> flows !! f = Some ips ->
  let accs := filter (fun ip => negb (isDevice ip) = true) ips in
  let devs := filter (fun ip => isDevice ip = true) ips in
  getIPsInFlow (table_of ts) app_id core (Z.of_nat f) = Ok (pad ips, zlen ips) /\
  getIPAccsInFlow (table_of ts) app_id core (Z.of_nat f) = Ok (pad accs, zlen accs) /\
  getIPDevsInFlow (table_of ts) app_id core (Z.of_nat f) = Ok (pad devs, zlen devs) /\
  accs ++ devs ≡ₚ ips.
Proof.
  intros Hr Hf accs devs. pose proof (runs_ok _ _ _ Hr) as [Hl Hc].
  assert (f < Z.to_nat MAX_FLOWS_IN_APP)%nat as Hlt by (apply lookup_lt_Some in Hf; lia).
  pose proof (proj1 (Forall_lookup _ _) Hc _ _ Hf) as Hips. pose proof Hips as [Hlen _].
  pose proof (flow_row_of core a flows f Hr Hlt) as Er. rewrite Hf in Er. cbn [default] in Er. pose proof (proj1 Hr) as Ea.
  assert (forall keep, foldM (pick_ip keep (pad ips)) (no_ips, 0) (zrange MAX_IPS_IN_FLOW)
    = Ok (filled (filter (fun ip => keep ip = true) ips))) as Hpick.
  { intros keep. rewrite pick_stores by done. apply (foldM_push []).
    pose proof (length_filter (fun ip => keep ip = true) ips). cbn [length]. lia. }
  unfold getIPsInFlow, getIPAccsInFlow, getIPDevsInFlow. rewrite Ea. cbn [of_option mbind Res_bind].
  rewrite Er. cbn [mbind Res_bind]. change (id ips) with ips. rewrite copy_ips_pad, !Hpick by done.
  split; [done|]. split; [done|]. split; [done|]. subst accs devs. clear.
  induction ips as [|ip ips IH]; [done|]. rewrite !filter_cons.
  destruct (isDevice ip); cbn [negb]; repeat case_decide; try done; [rewrite <- Permutation_middle|cbn [app]]; by rewrite IH.
Qed.
End Queries.

(** C32: loading a written table gives the table back. For any chains, at most
    five for an application, of at most four IPs each, the lines
    [<app> <ip1> ... -1] of the chains, application by application, load into
    the table that holds them, padded by -1, whatever [ip_id] is at the
    start; applications without a chain have no line. *)
Theorem loadFlows_roundtrip ts ip0 : chains_ok ts -> loadFlows ip0 (flow_lines ts) = Ok (table_of ts).
Proof.
  intros [Hl Hts]. unfold loadFlows, flow_lines.
  replace empty_flows with (replicate (length ts) (app_rows [])) by (rewrite Hl; by vm_compute).
  apply (load_apps ts [] 0 (-1) ip0 Hts). cbn. lia.
Qed.

(** ** The shipped file *)

(** The lines of [flows.txt] up to the empty one. *)
Definition shipped_lines : list (list Z) :=
  [[0; 0; 8; 1; -1]; [0; 10; 3; -1]; [1; 0; 5; 12; 1; -1]; [1; 0; 5; 9; 7; -1]; [1; 0; 4; 11; -1];
   [2; 0; 5; 12; 1; -1]; [2; 0; 5; 12; 7; -1]; [3; 0; 6; 10; 3; -1]; [4; 5; 12; 1; -1]; [4; 13; 1; -1];
   [4; 0; 10; 3; -1]; [5; 0; 6; 12; 1; -1]; [6; 4; 11; 7; -1]; [7; 0; 6; 8; 1; -1]; [7; 0; 6; 10; 3; -1];
   [8; 0; 1; -1]; [8; 13; 1; -1]; [8; 10; 3; -1]; [9; 0; 8; 1; -1]; [9; 0; 5; 9; 2; -1];
   [9; 0; 4; 11; -1]; [9; 0; 10; 3; -1]; [10; 0; 12; 1; -1]; [11; 13; 1; -1]; [11; 0; 9; 7; -1];
   [12; 0; 1; 9; 2; -1]; [13; 0; 5; 9; 2; -1]; [14; 0; 2; 13; 8; -1]; [15; 0; 1; -1]; [16; 0; 1; -1];
   [17; 0; 1; -1]].

(** The shipped flow file does not fit the table. Whatever [ip_id] is at
    the start, its 26 lines of the applications 0 to 12 load, and the line of
    application 13 writes past the table, which has [APP_ID_END] = 13
    applications: loading the whole file leaves the table's bounds. *)
Theorem shipped_flows_leave_table ip0 :
  loadFlows ip0 shipped_lines = Err OutOfRange /\
  exists t, loadFlows ip0 (take 26 shipped_lines) = Ok t.
Proof.
  unfold loadFlows, shipped_lines. split; [by vm_compute | eexists; by vm_compute].
Qed.

(** [getFlowId] compares the diagonal only: it returns the first flow [i]
    whose [i]-th IP, not any IP, is the one asked for, and -1 when there is
    none. *)
Theorem getFlowId_diagonal ts app_id core a flows ip :
  chains_ok ts -> runs ts app_id core a flows -> ip <> -1 ->
  let hit f := exists ips, flows !! f = Some ips /\ ips !! f = Some ip in
  (exists f, getFlowId (table_of ts) app_id core ip = Ok (Z.of_nat f) /\ hit f /\ forall g, (g < f)%nat -> ~ hit g) \/
  (getFlowId (table_of ts) app_id core ip = Ok (-1) /\ forall f, ~ hit f).
Proof.
  intros Hts Hr Hip hit. pose proof (runs_ok ts app_id Hts _ _ _ Hr) as [Hl Hc].
  unfold getFlowId. rewrite (proj1 Hr). cbn [of_option mbind Res_bind].
  assert (forall k i, (i + k = Z.to_nat MAX_FLOWS_IN_APP)%nat -> (forall g, (g < i)%nat -> ~ hit g) ->
    (exists f, find_flow (table_of ts) a ip (Z.of_nat <$> seq i k) = Ok (Z.of_nat f) /\ hit f /\
       forall g, (g < f)%nat -> ~ hit g) \/
    (find_flow (table_of ts) a ip (Z.of_nat <$> seq i k) = Ok (-1) /\ forall f, ~ hit f)) as Hgen.
  { induction k as [|k IH]; intros i Hi Hlow; cbn [seq fmap list_fmap find_flow].
    - right. split; [done|]. intros f (ips & Ef & E). apply (Hlow f); [|by exists ips].
      apply lookup_lt_Some in Ef. lia.
    - rewrite (flow_row_of ts app_id core a flows i Hr) by lia. cbn [mbind Res_bind].
      assert (chain_ok (default [] (flows !! i))) as [Hlen Hips].
      { destruct (flows !! i) as [ips|] eqn:Ei; cbn; [exact (proj1 (Forall_lookup _ _) Hc _ _ Ei)|].
        split; [|done]. change (Z.to_nat MAX_IPS_IN_FLOW) with 5%nat. cbn. lia. }
      change (Z.to_nat MAX_FLOWS_IN_APP) with 5%nat in Hi.
      rewrite pad_cell by (unfold MAX_IPS_IN_FLOW in *; lia). rewrite zget_of_nat. cbn [of_option mbind Res_bind].
      case_bool_decide as E.
      + left. exists i. split; [done|]. split; [|done]. unfold hit. destruct (flows !! i) as [ips|]; cbn in E.
        * exists ips. split; [done|]. destruct (ips !! i); cbn in E; congruence.
        * exfalso. by apply Hip.
      + apply IH; [by rewrite Nat.add_succ_l, <- Nat.add_succ_r|]. intros g Hg. destruct (decide (g = i)) as [->|]; [|apply Hlow; lia].
        intros (ips & Ef & Eg). rewrite Ef in E. cbn in E. by rewrite Eg in E. }
  apply (Hgen 5%nat 0%nat); [done|]. intros g Hg. lia.
Qed.

(** ** Witnesses *)

(** The chains of the first applications of the shipped file. *)
Definition sample_chains : Chains :=
  [[[0; 8; 1]; [10; 3]]; [[0; 5; 12; 1]; [0; 5; 9; 7]; [0; 4; 11]]; [[0; 5; 12; 1]; [0; 5; 12; 7]]]
  ++ replicate 10 [].

Lemma sample_chains_ok : chains_ok sample_chains.
Proof.
  split; [done|]. unfold sample_chains. apply Forall_app. split.
  - repeat constructor; cbn; lia.
  - apply Forall_replicate. split; [cbn; lia | done].
Qed.

Lemma nextIPtoCall_spec_witness :
  nextIPtoCall (table_of sample_chains) [1; 0] 5 0 IP_TYPE_DC = Ok [12; -1; -1; -1; -1].
Proof.
  rewrite (nextIPtoCall_spec sample_chains [1; 0] sample_chains_ok 0 1 [[0; 5; 12; 1]; [0; 5; 9; 7]; [0; 4; 11]]).
  - reflexivity.
  - by split.
  - by apply (bool_decide_unpack _); vm_compute.
  - lia.
Defined.

Lemma flow_identification_spec_witness :
  flow_identification (table_of sample_chains) [1; 0] 0 5 = Ok [0; 1; -1; -1; -1].
Proof.
  rewrite (flow_identification_spec sample_chains [1; 0] sample_chains_ok 0 1 [[0; 5; 12; 1]; [0; 5; 9; 7]; [0; 4; 11]]).
  - reflexivity.
  - by split.
  - by apply (bool_decide_unpack _); vm_compute.
  - lia.
Defined.

Lemma ips_of_chain_witness :
  getIPsInFlow (table_of sample_chains) [1; 0] 0 1 = Ok ([0; 5; 9; 7; -1], 4).
Proof.
  exact (proj1 (ips_of_chain sample_chains [1; 0] sample_chains_ok 0 1 [[0; 5; 12; 1]; [0; 5; 9; 7]; [0; 4; 11]] 1
    [0; 5; 9; 7] (conj eq_refl eq_refl) eq_refl)).
Defined.

Lemma loadFlows_roundtrip_witness : loadFlows 77 (flow_lines sample_chains) = Ok (table_of sample_chains).
Proof. exact (loadFlows_roundtrip sample_chains 77 sample_chains_ok). Defined.

(** Asking for the display's flow of application 1 finds none. *)
Lemma getFlowId_diagonal_witness :
  getFlowId (table_of sample_chains) [1; 0] 0 IP_TYPE_DC = Ok (-1).
Proof.
  destruct (getFlowId_diagonal sample_chains [1; 0] 0 1 [[0; 5; 12; 1]; [0; 5; 9; 7]; [0; 4; 11]] IP_TYPE_DC
    sample_chains_ok (conj eq_refl eq_refl) ltac:(done)) as [(f & _ & (ips & Ef & E) & _)|[H _]]; [|exact H].
  exfalso. destruct f as [|[|[|f]]]; cbn in Ef; simplify_eq; done.
Defined.
