(* ===== verification/Ip.v ===== *)
(** * IPs ([gemdroid_ip.cc])

    The base class of every device and accelerator: a call to move or process
    a buffer, the memory requests it makes of the agent, its power states and
    its frequency. Devices tick as this file says; the accelerators have their
    own ticks, in [Coders]. *)

From S2P Require Import Prelude.
From S2P Require Import DramConfig.
From S2P Require Import GemDefines.

(** ** Constants *)

Definition IPACC_PSTATE_ENTER_TIME : Z := 48900 * 2.
Definition IPACC_PSTATE_LOWPOWER_EXIT_TIME : Z := 54600 * 2.
Definition IPACC_PSTATE_IDLE_EXIT_TIME : Z := 54600 * 2.
Definition IPDEV_PSTATE_ENTER_TIME : Z := 48900 * 2.
Definition IPDEV_PSTATE_LOWPOWER_EXIT_TIME : Z := 54600 * 2.
Definition IPDEV_PSTATE_IDLE_EXIT_TIME : Z := 54600 * 2.

(** ** What an IP asks of the platform *)

Class IPPort (E : Type) := {
  getGovernor : E -> Z;
  (** core, type, id, frame *)
  markIPRequestStarted : E -> Z -> Z -> Z -> Z -> E;
  (** type, id, core, address, is a read *)
  enqueueMem : E -> Z -> Z -> Z -> Z -> bool -> bool * E;
  (** type, id, core, frame, flow type, flow id *)
  completeFrame : E -> Z -> Z -> Z -> Z -> Z -> Z -> Res E
}.

(** ** State *)

Inductive ip_state := ip_idle | ip_lowpower | ip_active.

#[export] Instance ip_state_eq_dec : EqDecision ip_state.
Proof. solve_decision. Defined.

(** The counters of the periodic statistics. *)
Record IPStats := mkIPStats {
  ip_ticks : Z;
  m_CPUReqs : Z;
  m_MemReqs : Z;
  m_IPActiveCycles : Z;
  m_IPIdleCycles : Z;
  m_IPBusyStalls : Z;
  m_IPLowPowerCycles : Z;
  ip_memRejected : Z;
  m_IPMemStalls : Z;
  m_IPWorkingCycles : Z;
  idleStreak : Z;
  m_IPActiveInLast1ms : Z;
  m_IPLowInLast1ms : Z;
  m_IPActivityIn1ms : Z;
  m_IPActiveInLast1us : Z;
  m_IPLowInLast1us : Z;
  m_IPActivityIn1us : Z;
  m_IPActivityInDVFSEpoch : Z;
  m_IPMemStallsFrame : Z
}.

#[export] Instance eta_IPStats : Settable IPStats := fun r =>
  mkIPStats (ip_ticks r) (m_CPUReqs r) (m_MemReqs r) (m_IPActiveCycles r) (m_IPIdleCycles r)
    (m_IPBusyStalls r) (m_IPLowPowerCycles r) (ip_memRejected r) (m_IPMemStalls r)
    (m_IPWorkingCycles r) (idleStreak r) (m_IPActiveInLast1ms r) (m_IPLowInLast1ms r)
    (m_IPActivityIn1ms r) (m_IPActiveInLast1us r) (m_IPLowInLast1us r) (m_IPActivityIn1us r)
    (m_IPActivityInDVFSEpoch r) (m_IPMemStallsFrame r).

#[export] Instance set_ip_ticks : Setter ip_ticks := ltac:(mk_setter).
#[export] Instance set_m_CPUReqs : Setter m_CPUReqs := ltac:(mk_setter).
#[export] Instance set_m_MemReqs : Setter m_MemReqs := ltac:(mk_setter).
#[export] Instance set_m_IPActiveCycles : Setter m_IPActiveCycles := ltac:(mk_setter).
#[export] Instance set_m_IPIdleCycles : Setter m_IPIdleCycles := ltac:(mk_setter).
#[export] Instance set_m_IPBusyStalls : Setter m_IPBusyStalls := ltac:(mk_setter).
#[export] Instance set_m_IPLowPowerCycles : Setter m_IPLowPowerCycles := ltac:(mk_setter).
#[export] Instance set_ip_memRejected : Setter ip_memRejected := ltac:(mk_setter).
#[export] Instance set_m_IPMemStalls : Setter m_IPMemStalls := ltac:(mk_setter).
#[export] Instance set_m_IPWorkingCycles : Setter m_IPWorkingCycles := ltac:(mk_setter).
#[export] Instance set_idleStreak : Setter idleStreak := ltac:(mk_setter).
#[export] Instance set_m_IPActiveInLast1ms : Setter m_IPActiveInLast1ms := ltac:(mk_setter).
#[export] Instance set_m_IPLowInLast1ms : Setter m_IPLowInLast1ms := ltac:(mk_setter).
#[export] Instance set_m_IPActivityIn1ms : Setter m_IPActivityIn1ms := ltac:(mk_setter).
#[export] Instance set_m_IPActiveInLast1us : Setter m_IPActiveInLast1us := ltac:(mk_setter).
#[export] Instance set_m_IPLowInLast1us : Setter m_IPLowInLast1us := ltac:(mk_setter).
#[export] Instance set_m_IPActivityIn1us : Setter m_IPActivityIn1us := ltac:(mk_setter).
#[export] Instance set_m_IPActivityInDVFSEpoch : Setter m_IPActivityInDVFSEpoch := ltac:(mk_setter).
#[export] Instance set_m_IPMemStallsFrame : Setter m_IPMemStallsFrame := ltac:(mk_setter).

Record GemDroidIP := mkIP {
  ip_type : Z;
  ip_id : Z;
  ip_isDevice : bool;
  ioLatency : Z;
  ip_core_id : Z;
  m_flowType : Z;
  m_flowId : Z;
  m_reqCount : Z;
  m_respCount : Z;
  m_dataSize : Z;
  is_busy : bool;
  m_reqAddr : Z;
  m_isRead : bool;
  m_frameNum : Z;
  ip_cyclesToSkip : Z;
  m_reqOutAddr : Z;
  reqSent : Z;
  inputProcessedInCL : Z;
  inputToBeProcessedInCL : Z;
  targetOutputChunkSizeInCL : Z;
  idleCycles : Z;
  cyclesToWake : Z;
  startCycle : Z;
  power_state : ip_state;
  dvfsState : Z;
  dvfsCounter : Z;
  m_optDVFSState : Z;
  ip_static_power : spec_float;
  capacitance : spec_float;
  (** voltage, frequency in GHz, highest dynamic power *)
  voltage_freq_table : list (spec_float * spec_float * spec_float);
  powerInLastEpoch : spec_float;
  stats : IPStats
}.

#[export] Instance eta_GemDroidIP : Settable GemDroidIP := fun r =>
  mkIP (ip_type r) (ip_id r) (ip_isDevice r) (ioLatency r) (ip_core_id r) (m_flowType r) (m_flowId r)
    (m_reqCount r) (m_respCount r) (m_dataSize r) (is_busy r) (m_reqAddr r) (m_isRead r) (m_frameNum r)
    (ip_cyclesToSkip r) (m_reqOutAddr r) (reqSent r) (inputProcessedInCL r) (inputToBeProcessedInCL r)
    (targetOutputChunkSizeInCL r) (idleCycles r) (cyclesToWake r) (startCycle r) (power_state r)
    (dvfsState r) (dvfsCounter r) (m_optDVFSState r) (ip_static_power r) (capacitance r)
    (voltage_freq_table r) (powerInLastEpoch r) (stats r).

#[export] Instance set_ip_type : Setter ip_type := ltac:(mk_setter).
#[export] Instance set_ip_id : Setter ip_id := ltac:(mk_setter).
#[export] Instance set_ip_isDevice : Setter ip_isDevice := ltac:(mk_setter).
#[export] Instance set_ioLatency : Setter ioLatency := ltac:(mk_setter).
#[export] Instance set_ip_core_id : Setter ip_core_id := ltac:(mk_setter).
#[export] Instance set_m_flowType : Setter m_flowType := ltac:(mk_setter).
#[export] Instance set_m_flowId : Setter m_flowId := ltac:(mk_setter).
#[export] Instance set_m_reqCount : Setter m_reqCount := ltac:(mk_setter).
#[export] Instance set_m_respCount : Setter m_respCount := ltac:(mk_setter).
#[export] Instance set_m_dataSize : Setter m_dataSize := ltac:(mk_setter).
#[export] Instance set_is_busy : Setter is_busy := ltac:(mk_setter).
#[export] Instance set_m_reqAddr : Setter m_reqAddr := ltac:(mk_setter).
#[export] Instance set_m_isRead : Setter m_isRead := ltac:(mk_setter).
#[export] Instance set_m_frameNum : Setter m_frameNum := ltac:(mk_setter).
#[export] Instance set_ip_cyclesToSkip : Setter ip_cyclesToSkip := ltac:(mk_setter).
#[export] Instance set_m_reqOutAddr : Setter m_reqOutAddr := ltac:(mk_setter).
#[export] Instance set_reqSent : Setter reqSent := ltac:(mk_setter).
#[export] Instance set_inputProcessedInCL : Setter inputProcessedInCL := ltac:(mk_setter).
#[export] Instance set_inputToBeProcessedInCL : Setter inputToBeProcessedInCL := ltac:(mk_setter).
#[export] Instance set_targetOutputChunkSizeInCL : Setter targetOutputChunkSizeInCL := ltac:(mk_setter).
#[export] Instance set_idleCycles : Setter idleCycles := ltac:(mk_setter).
#[export] Instance set_cyclesToWake : Setter cyclesToWake := ltac:(mk_setter).
#[export] Instance set_startCycle : Setter startCycle := ltac:(mk_setter).
#[export] Instance set_power_state : Setter power_state := ltac:(mk_setter).
#[export] Instance set_dvfsState : Setter dvfsState := ltac:(mk_setter).
#[export] Instance set_dvfsCounter : Setter dvfsCounter := ltac:(mk_setter).
#[export] Instance set_m_optDVFSState : Setter m_optDVFSState := ltac:(mk_setter).
#[export] Instance set_ip_static_power : Setter ip_static_power := ltac:(mk_setter).
#[export] Instance set_capacitance : Setter capacitance := ltac:(mk_setter).
#[export] Instance set_voltage_freq_table : Setter voltage_freq_table := ltac:(mk_setter).
#[export] Instance set_powerInLastEpoch : Setter powerInLastEpoch := ltac:(mk_setter).
#[export] Instance set_stats : Setter stats := ltac:(mk_setter).

(** ** Constructor

    The C++ constructor sets nothing: [init] starts from any object. *)

(** [V2F] is 1.057*1.057*0.8. *)
Definition V2F : spec_float := F64.mul (F64.mul (F64.lit 1057 1000) (F64.lit 1057 1000)) (F64.lit 8 10).

(** The static power and the capacitance of each type, in hundredths; the
    types without an entry keep what the object has. *)
Definition ip_power_constants (ty : Z) : option (Z * Z) :=
  if bool_decide (ty = IP_TYPE_DC) then Some (10, 50)
  else if bool_decide (ty = IP_TYPE_SND) then Some (5, 0)
  else if bool_decide (ty = IP_TYPE_MIC) then Some (5, 0)
  else if bool_decide (ty = IP_TYPE_NW) then Some (5, 20)
  else if bool_decide (ty = IP_TYPE_CAM) then Some (10, 100)
  else if bool_decide (ty = IP_TYPE_MMC_IN) then Some (5, 30)
  else if bool_decide (ty = IP_TYPE_MMC_OUT) then Some (5, 30)
  else if bool_decide (ty = IP_TYPE_VD) then Some (10, 100)
  else if bool_decide (ty = IP_TYPE_VE) then Some (10, 150)
  else if bool_decide (ty = IP_TYPE_AD) then Some (5, 75)
  else if bool_decide (ty = IP_TYPE_AE) then Some (5, 75)
  else if bool_decide (ty = IP_TYPE_IMG) then Some (10, 150)
  else if bool_decide (ty = IP_TYPE_GPU) then Some (35, 400)
  else None.

(** Voltage in thousandths and frequency in tenths of each state. *)
Definition volt_freq : list (Z * Z) :=
  [(835, 2); (872, 3); (909, 4); (946, 5); (983, 6); (1020, 7); (1057, 8)].

Definition dvfs_table (cap : spec_float) : list (spec_float * spec_float * spec_float) :=
  (fun vf => let v := F64.lit vf.1 1000 in let f := F64.lit vf.2 10 in
             (v, f, F64.mul (F64.mul (F64.mul cap v) v) f)) <$> volt_freq.

Definition tbl_freq (row : spec_float * spec_float * spec_float) : spec_float := row.1.2.
Definition tbl_power (row : spec_float * spec_float * spec_float) : spec_float := row.2.

(** ** Frequency *)

Fixpoint index_of_freq (freq : spec_float) (i : Z) (rows : list (spec_float * spec_float * spec_float)) : Z :=
  match rows with
  | [] => -1
  | row :: rows' => if F64.eqb freq (tbl_freq row) then i else index_of_freq freq (i + 1) rows'
  end.

Definition getIndexInTable (ip : GemDroidIP) (freq : spec_float) : Z :=
  index_of_freq freq 0 (voltage_freq_table ip).

Definition setIPFreqInd (ind : Z) (ip : GemDroidIP) : Res GemDroidIP :=
  if bool_decide (-1 < ind) && bool_decide (ind < IP_DVFS_STATES)
  then Ok (ip <| dvfsState := ind |>)
  else Err (AssertFail "ind > -1 && ind < IP_DVFS_STATES").

Definition setIPFreq (freq : spec_float) (ip : GemDroidIP) : Res GemDroidIP :=
  setIPFreqInd (getIndexInTable ip freq) ip.

Definition not_device (ip : GemDroidIP) : Res unit :=
  if ip_isDevice ip then Err (AssertFail "!isDevice") else Ok tt.

Definition setMaxIPFreq (ip : GemDroidIP) : Res GemDroidIP :=
  _ ← not_device ip;
  Ok (ip <| dvfsState := IP_DVFS_STATES - 1 |> <| dvfsCounter := INTERACTIVE_GOVERNOR_LAT |>).

Definition setMinIPFreq (ip : GemDroidIP) : Res GemDroidIP := _ ← not_device ip; Ok (ip <| dvfsState := 0 |>).

Definition setOptIPFreq (ip : GemDroidIP) : Res GemDroidIP :=
  _ ← not_device ip; Ok (ip <| dvfsState := m_optDVFSState ip |>).

Definition incFreq (steps : Z) (ip : GemDroidIP) : Res (bool * GemDroidIP) :=
  _ ← not_device ip;
  if bool_decide (dvfsState ip < IP_DVFS_STATES - steps - 1)
  then Ok (true, ip <| dvfsState ::= Z.add steps |>)
  else ip ← setMaxIPFreq ip; Ok (false, ip).

Definition decFreq (governor steps : Z) (ip : GemDroidIP) : Res (bool * GemDroidIP) :=
  _ ← not_device ip;
  if bool_decide (governor = GOVERNOR_TYPE_INTERACTIVE) && bool_decide (dvfsCounter ip > 0) then Ok (false, ip)
  else if bool_decide (dvfsState ip > steps - 1) then Ok (true, ip <| dvfsState ::= fun s => s - steps |>)
  else Ok (false, ip).

Definition IP_updateDVFS (ip : GemDroidIP) : GemDroidIP := ip <| dvfsCounter ::= Z.pred |>.

(** [getIPFreq(ind)] brings the index into the table. *)
Definition clamp_index (ind : Z) : Z :=
  if bool_decide (ind >= IP_DVFS_STATES) then IP_DVFS_STATES - 1 else if bool_decide (ind < 0) then 0 else ind.
Definition getIPFreq_at (ip : GemDroidIP) (ind : Z) : Res spec_float :=
  row ← of_option (zget (voltage_freq_table ip) (clamp_index ind)); Ok (tbl_freq row).
Definition getIPFreq (ip : GemDroidIP) : Res spec_float :=
  row ← of_option (zget (voltage_freq_table ip) (dvfsState ip)); Ok (tbl_freq row).

(** The first state below the power, which the table lists in growing order. *)
Fixpoint freq_for_power (power : spec_float) (rows : list (spec_float * spec_float * spec_float)) (last : spec_float)
  : spec_float :=
  match rows with
  | [] => last
  | row :: rows' => if F64.ltb (tbl_power row) power then tbl_freq row else freq_for_power power rows' last
  end.
Definition getFreqForPower (ip : GemDroidIP) (power : spec_float) : Res spec_float :=
  last ← getIPFreq_at ip (IP_DVFS_STATES - 1);
  Ok (freq_for_power power (voltage_freq_table ip) last).

(** ** Power estimates *)

Definition getDynamicPower (ip : GemDroidIP) (activity : spec_float) : Res spec_float :=
  row ← of_option (zget (voltage_freq_table ip) (dvfsState ip)); Ok (F64.mul activity (tbl_power row)).

Definition getStaticPower (ip : GemDroidIP) (activePortion lowPortion : spec_float) : spec_float :=
  F64.add (F64.mul activePortion (ip_static_power ip))
          (F64.div (F64.mul lowPortion (ip_static_power ip)) (F64.of_Z 3)).

Definition getPowerEst (ip : GemDroidIP) : Res spec_float :=
  if bool_decide (power_state ip = ip_active)
  then dyn ← getDynamicPower ip (F64.lit 5 10);
       Ok (F64.add dyn (getStaticPower ip (F64.lit 5 10) (F64.lit 5 10)))
  else Ok (F64.of_Z 0).

Definition getTimeEst (oldTime oldFreq newFreq : spec_float) : spec_float :=
  F64.div (F64.mul oldTime oldFreq) newFreq.

Definition getEnergyEst (ip : GemDroidIP) (time power newFreq : spec_float) : Res spec_float :=
  let dynPower := F64.sub power (ip_static_power ip) in
  row ← of_option (zget (voltage_freq_table ip) (dvfsState ip));
  let activity := F64.div dynPower (tbl_power row) in
  f ← getIPFreq ip;
  let newTime := getTimeEst time f newFreq in
  row' ← of_option (zget (voltage_freq_table ip) (getIndexInTable ip newFreq));
  let newDynPower := F64.mul activity (tbl_power row') in
  Ok (F64.add (F64.mul newTime (ip_static_power ip)) (F64.mul newTime newDynPower)).

(** [coordinated] is the platform's budget. *)
Definition setMaxAllowedFreq (coordinated : spec_float) (ip : GemDroidIP) : Res GemDroidIP :=
  freq ← getFreqForPower ip (F64.sub coordinated (powerInLastEpoch ip));
  setIPFreq freq ip.

(** ** Power over a period *)

(** [IPCLOCKS_IN_1MS]: the clocks of a millisecond, as a double. *)
Definition clocks_in_1ms (freq : spec_float) : spec_float := F64.mul freq (F64.of_Z 1000000).

(** The macros [VD_MAX] to [GPU_MAX]. *)
Definition lines_in_1ms (ty : Z) (freq : spec_float) : option spec_float :=
  let c := clocks_in_1ms freq in
  if bool_decide (ty = IP_TYPE_VD) then Some (F64.div c (F64.of_Z 12))
  else if bool_decide (ty = IP_TYPE_VE) then Some (F64.div (F64.mul c (F64.of_Z VID_CODING_RATIO)) (F64.of_Z 18))
  else if bool_decide (ty = IP_TYPE_AD) then Some (F64.div c (F64.of_Z (44 * 12)))
  else if bool_decide (ty = IP_TYPE_AE)
  then Some (F64.div (F64.mul c (F64.of_Z AUD_CODING_RATIO)) (F64.of_Z (44 * 8)))
  else if bool_decide (ty = IP_TYPE_IMG) then Some (F64.div c (F64.of_Z 16))
  else if bool_decide (ty = IP_TYPE_CAM) then Some (F64.div c (F64.of_Z 1))
  else if bool_decide (ty = IP_TYPE_SND) then Some (F64.div c (F64.of_Z 1))
  else if bool_decide (ty = IP_TYPE_DC) then Some (F64.div c (F64.of_Z (1 * 5)))
  else if bool_decide (ty = IP_TYPE_NW) then Some (F64.div c (F64.of_Z 1))
  else if bool_decide (ty = IP_TYPE_MIC) then Some (F64.div c (F64.of_Z 1))
  else if bool_decide (ty = IP_TYPE_MMC_IN) || bool_decide (ty = IP_TYPE_MMC_OUT)
  then Some (F64.div c (F64.of_Z 10))
  else if bool_decide (ty = IP_TYPE_GPU) then Some (F64.div c (F64.of_Z 4))
  else None.

Definition getMaxProcessible (ip : GemDroidIP) : Res Z :=
  f ← getIPFreq ip;
  Ok (match lines_in_1ms (ip_type ip) f with Some x => F32.trunc x | None => 1 end).

Definition powerIn1us (ip : GemDroidIP) : Res (spec_float * GemDroidIP) :=
  f ← getIPFreq ip;
  let one_microsec := F64.of_Z (F32.trunc (F64.mul f (F64.of_Z 1000))) in
  let s := stats ip in
  let static := getStaticPower ip (F64.div (F64.of_Z (m_IPActiveInLast1us s)) one_microsec)
                  (F64.div (F64.of_Z (m_IPLowInLast1us s)) one_microsec) in
  n ← getMaxProcessible ip;
  dynamic ← getDynamicPower ip (F64.div (F64.mul (F64.of_Z (m_IPActivityIn1us s)) (F64.of_Z 1000)) (F64.of_Z n));
  Ok (F64.add static dynamic,
      ip <| stats ::= fun s => s <| m_IPActiveInLast1us := 0 |> <| m_IPLowInLast1us := 0 |>
                                 <| m_IPActivityIn1us := 0 |> |>).

Definition powerIn1ms (ip : GemDroidIP) : Res (spec_float * GemDroidIP) :=
  f ← getIPFreq ip;
  let one_millisec := F64.of_Z (F32.trunc (F64.mul f (F64.of_Z 1000000))) in
  let s := stats ip in
  let static := getStaticPower ip (F64.div (F64.of_Z (m_IPActiveInLast1ms s)) one_millisec)
                  (F64.div (F64.of_Z (m_IPLowInLast1ms s)) one_millisec) in
  n ← getMaxProcessible ip;
  dynamic ← getDynamicPower ip (F64.div (F64.of_Z (m_IPActivityIn1ms s)) (F64.of_Z n));
  let power := F64.add static dynamic in
  Ok (power,
      ip <| stats ::= fun s => s <| m_IPActiveInLast1ms := 0 |> <| m_IPLowInLast1ms := 0 |>
                                 <| m_IPActivityIn1ms := 0 |> |>
         <| powerInLastEpoch := power |>).

(** [last_time] is the platform's [lastTimeTook] of the type. *)
Definition getLoadInLastDVFSEpoch (last_time : spec_float) (ip : GemDroidIP) : Res (spec_float * GemDroidIP) :=
  let ty := ip_type ip in
  util ← (if bool_decide (ty = IP_TYPE_VD) || bool_decide (ty = IP_TYPE_VE) || bool_decide (ty = IP_TYPE_AD)
             || bool_decide (ty = IP_TYPE_AE) || bool_decide (ty = IP_TYPE_IMG)
          then
            f ← getIPFreq ip;
            Ok (match lines_in_1ms ty f with
                | Some x => F64.div (F64.of_Z (m_IPActivityInDVFSEpoch (stats ip))) (F64.mul x last_time)
                | None => F64.of_Z 0
                end)
          else Ok (F64.of_Z 0));
  Ok (if F64.ltb (F64.of_Z 1) util then F64.lit 99 100 else util,
      ip <| stats ::= fun s => s <| m_IPActivityInDVFSEpoch := 0 |> |>).

(** ** Power states *)

Definition setPStateIdle (ip : GemDroidIP) : Res GemDroidIP :=
  if bool_decide (power_state ip = ip_lowpower) then Ok (ip <| power_state := ip_idle |>)
  else Err (AssertFail "isPStateLowPower()").

Definition setPStateLowPower (ip : GemDroidIP) : Res GemDroidIP :=
  if bool_decide (power_state ip = ip_active) then Ok (ip <| power_state := ip_lowpower |>)
  else Err (AssertFail "isPStateActive()").

Definition enter_time (ip : GemDroidIP) : Z :=
  if ip_isDevice ip then IPDEV_PSTATE_ENTER_TIME else IPACC_PSTATE_ENTER_TIME.

(** The cycles to wake from the present state. *)
Definition wakeUp (ip : GemDroidIP) : GemDroidIP :=
  match power_state ip with
  | ip_lowpower =>
      ip <| cyclesToWake := if ip_isDevice ip then IPDEV_PSTATE_LOWPOWER_EXIT_TIME
                            else IPACC_PSTATE_LOWPOWER_EXIT_TIME |>
  | ip_idle =>
      ip <| cyclesToWake := if ip_isDevice ip then IPDEV_PSTATE_IDLE_EXIT_TIME
                            else IPACC_PSTATE_IDLE_EXIT_TIME |>
  | ip_active => ip
  end.

Definition upd_stats (g : IPStats -> IPStats) (ip : GemDroidIP) : GemDroidIP := ip <| stats ::= g |>.

Definition IPActivityUpdate (ip : GemDroidIP) : GemDroidIP :=
  upd_stats (fun s => s <| m_IPActivityIn1ms ::= Z.succ |> <| m_IPActivityIn1us ::= Z.succ |>
                        <| m_IPActivityInDVFSEpoch ::= Z.succ |>) ip.

(** The statistics of one cycle in the present state. *)
Definition count_cycle (ip : GemDroidIP) : GemDroidIP :=
  match power_state ip with
  | ip_active =>
      upd_stats (fun s => s <| m_IPActiveCycles ::= Z.succ |> <| m_IPActiveInLast1ms ::= Z.succ |>
                            <| m_IPActiveInLast1us ::= Z.succ |>) ip
  | ip_lowpower =>
      (upd_stats (fun s => s <| m_IPLowPowerCycles ::= Z.succ |> <| m_IPLowInLast1ms ::= Z.succ |>
                             <| m_IPLowInLast1us ::= Z.succ |>) ip) <| idleCycles ::= Z.succ |>
  | ip_idle => upd_stats (fun s => s <| m_IPIdleCycles ::= Z.succ |>) ip
  end.

(** The cache lines of a buffer: [ceil((double) size / CACHE_LINE_SIZE)]. The
    conversion of an [int] and the division by 64 are exact in a double, so
    this is the integer ceiling. *)
Definition ceil_lines (size : Z) : Z := - ((- size) / CACHE_LINE_SIZE).

Section Port.
Context {E : Type} {port : IPPort E}.

Definition setPStateActive (ip : GemDroidIP) (e : E) : Res (GemDroidIP * E) :=
  ip ← (if bool_decide (getGovernor e = GOVERNOR_TYPE_INTERACTIVE) && bool_decide (ip_type ip > IP_TYPE_VD)
        then setMaxIPFreq ip
        else if bool_decide (getGovernor e = GOVERNOR_TYPE_POWERCAP) && bool_decide (ip_type ip > IP_TYPE_VD)
        then setOptIPFreq ip
        else Ok ip);
  Ok (ip <| power_state := ip_active |>, markIPRequestStarted e 0 (ip_type ip) (ip_id ip) 0).

(** [GemDroidIP::init]; [ip0] is the object as it was allocated. *)
Definition GemDroidIP_init (ip0 : GemDroidIP) (ty id : Z) (device : bool) (latency : Z)
    (freq : spec_float) (opt_freq : Z) (e : E) : Res (GemDroidIP * E) :=
  let ip := ip0 <| ip_type := ty |> <| ip_isDevice := device |> <| ip_id := id |> <| ioLatency := latency |> in
  '(ip, e) ← setPStateActive ip e;
  let ip := ip <| m_reqCount := -1 |> <| cyclesToWake := 0 |> <| idleCycles := 0 |>
               <| power_state := ip_idle |> <| ip_cyclesToSkip := 0 |> in
  let ip := upd_stats (fun s =>
    s <| ip_ticks := 0 |> <| idleStreak := 0 |> <| m_CPUReqs := 0 |> <| m_MemReqs := 0 |>
      <| m_IPActiveCycles := 0 |> <| m_IPIdleCycles := 0 |> <| m_IPLowPowerCycles := 0 |>
      <| m_IPBusyStalls := 0 |> <| ip_memRejected := 0 |> <| m_IPMemStalls := 0 |>
      <| m_IPWorkingCycles := 0 |>) ip in
  let ip :=
    match ip_power_constants ty with
    | Some (static, cap) =>
        ip <| ip_static_power := F64.lit static 100 |> <| capacitance := F64.div (F64.lit cap 100) V2F |>
    | None => ip
    end in
  let ip := ip <| voltage_freq_table := dvfs_table (capacitance ip) |> in
  ip ← setIPFreq freq ip;
  let ip := ip <| m_optDVFSState := opt_freq |> in
  Ok (upd_stats (fun s =>
        s <| m_IPActiveInLast1ms := 0 |> <| m_IPLowInLast1ms := 0 |> <| m_IPActivityIn1ms := 0 |>
          <| m_IPActivityInDVFSEpoch := 0 |> <| m_IPActiveInLast1us := 0 |> <| m_IPLowInLast1us := 0 |>
          <| m_IPActivityIn1us := 0 |>) ip, e).

(** The flag says whether the cycle can do work. *)
Definition updatePower (ip : GemDroidIP) (e : E) : Res (bool * GemDroidIP * E) :=
  let ip := count_cycle ip in
  if bool_decide (cyclesToWake ip > 0) then
    let ip := ip <| cyclesToWake ::= Z.pred |> in
    if bool_decide (cyclesToWake ip <= 0) then
      if bool_decide (power_state ip = ip_active) then Err (AssertFail "!isPStateActive()")
      else
        '(ip, e) ← setPStateActive ip e;
        let e := markIPRequestStarted e (ip_core_id ip) (ip_type ip) (ip_id ip) (m_frameNum ip) in
        Ok (false, ip <| idleCycles := 0 |>, e)
    else Ok (false, ip, e)
  else if bool_decide (idleCycles ip >= enter_time ip) then
    ip ← match power_state ip with
         | ip_active => setPStateLowPower ip
         | ip_lowpower => setPStateIdle ip
         | ip_idle => Ok ip
         end;
    Ok (false, ip <| idleCycles := 0 |>, e)
  else Ok (bool_decide (power_state ip = ip_active), ip, e).

(** ** Calls and memory requests *)

Definition sendMemoryReq (ip : GemDroidIP) (e : E) : bool * GemDroidIP * E :=
  let '(ok, e) := enqueueMem e (ip_type ip) (ip_id ip) (ip_core_id ip) (m_reqAddr ip) (m_isRead ip) in
  if (ok : bool)
  then (true, IPActivityUpdate (upd_stats (fun s => s <| m_MemReqs ::= Z.succ |>)
                (ip <| m_reqCount ::= Z.pred |> <| m_reqAddr ::= fun a => u64 (a + CACHE_LINE_SIZE) |>)), e)
  else (false, upd_stats (fun s => s <| ip_memRejected ::= Z.succ |>) ip, e).

Definition IP_memResponse (ip : GemDroidIP) : GemDroidIP := ip <| m_respCount ::= Z.succ |>.

Definition IP_enqueueIPReq (ip : GemDroidIP) (e : E) (core_id addr size : Z) (isRead : bool)
    (frameNum flowType flowId : Z) : bool * GemDroidIP * E :=
  if negb (is_busy ip) then
    let ip := ip <| is_busy := true |> <| m_reqCount := ceil_lines size |> <| m_reqAddr := addr |>
                 <| m_isRead := isRead |> <| m_frameNum := frameNum |> <| m_respCount := 0 |>
                 <| m_dataSize := size |> <| idleCycles := 0 |> <| startCycle := ip_ticks (stats ip) |>
                 <| ip_core_id := core_id |> in
    let ip := ip <| ip_cyclesToSkip := ioLatency ip * m_reqCount ip |>
                 <| m_flowType := flowType |> <| m_flowId := flowId |> in
    let ip := upd_stats (fun s => s <| m_CPUReqs ::= Z.succ |>) ip in
    if bool_decide (power_state ip = ip_active)
    then (true, ip, markIPRequestStarted e core_id (ip_type ip) (ip_id ip) (m_frameNum ip))
    else (true, wakeUp ip, e)
  else (false, upd_stats (fun s => s <| m_IPBusyStalls ::= Z.succ |>) ip, e).

(** ** The tick of a device *)

(** The cycles of the device itself; the flag says that some remain. *)
Definition IP_process (ip : GemDroidIP) : bool * GemDroidIP :=
  let ip := if bool_decide (ip_cyclesToSkip ip > 0) then ip <| ip_cyclesToSkip ::= Z.pred |> else ip in
  (negb (bool_decide (ip_cyclesToSkip ip = 0)), ip).

(** [m_dataSize / CACHE_LINE_SIZE] is a division of integers. *)
Definition IP_finish (ip : GemDroidIP) (e : E) : Res (GemDroidIP * E) :=
  if bool_decide (m_respCount ip = Z.quot (m_dataSize ip) CACHE_LINE_SIZE) then
    let ip := ip <| is_busy := false |> <| m_respCount := 0 |> <| m_reqCount := 0 |> in
    e ← completeFrame e (ip_type ip) (ip_id ip) (ip_core_id ip) (m_frameNum ip) (m_flowType ip) (m_flowId ip);
    Ok (ip, e)
  else Ok (ip, e).

Definition IP_send (ip : GemDroidIP) (e : E) : Res (GemDroidIP * E) :=
  if bool_decide (m_reqCount ip > 0) then
    let '(ok, ip, e) := sendMemoryReq ip e in
    let ip := if (ok : bool) then ip
              else upd_stats (fun s => s <| idleStreak ::= Z.succ |> <| m_IPMemStalls ::= Z.succ |>) ip in
    if bool_decide (m_reqCount ip = 0) then
      if bool_decide (power_state ip = ip_active) then Ok (ip <| m_reqCount ::= Z.pred |>, e)
      else Err (AssertFail "isPStateActive()")
    else Ok (ip, e)
  else Ok (ip, e).

Definition IP_tick (ip : GemDroidIP) (e : E) : Res (GemDroidIP * E) :=
  let ip := upd_stats (fun s => s <| ip_ticks ::= Z.succ |>) ip in
  '(go, ip, e) ← updatePower ip e;
  if negb go then Ok (ip, e)
  else if negb (bool_decide (power_state ip = ip_active)) then Err (AssertFail "isPStateActive()")
  else
    let '(waiting, ip) := IP_process ip in
    if (waiting : bool) then Ok (ip, e)
    else
      '(ip, e) ← IP_finish ip e;
      if bool_decide (m_reqCount ip <= 0) && negb (is_busy ip) then Ok (ip <| idleCycles ::= Z.succ |>, e)
      else
        let ip := if is_busy ip then upd_stats (fun s => s <| m_IPWorkingCycles ::= Z.succ |>) ip else ip in
        IP_send ip e.
End Port.
