(* ===== verification/DeviceSafety.v ===== *)
(** * A frame through a device

    A device that is called to move [n] cache lines sends exactly [n] requests
    to consecutive addresses and completes exactly once, when all their
    responses have come, whatever the agent refuses meanwhile. *)

From stdpp Require Import relations.
From S2P Require Import Prelude.
From S2P Require Import DramConfig.
From S2P Require Import GemDefines.
From S2P Require Import Ip.

(** ** What the platform promises an IP *)

(** Type, id, core, frame, flow type and flow of a completed frame. *)
Definition Completion : Type := (Z * Z * Z * Z * Z * Z).
(** Type, id, core, address and direction of a request. *)
Definition Request : Type := (Z * Z * Z * Z * bool).

Class IPPortLaws (E : Type) {port : IPPort E} := {
  sent : E -> list Request;
  completions : E -> list Completion;
  enqueueMem_law e ty id core addr isRead :
    let '(ok, e') := enqueueMem e ty id core addr isRead in
    sent e' = sent e ++ (if (ok : bool) then [(ty, id, core, addr, isRead)] else []) /\
    completions e' = completions e;
  mark_law e core ty id frame :
    sent (markIPRequestStarted e core ty id frame) = sent e /\
    completions (markIPRequestStarted e core ty id frame) = completions e;
  completeFrame_law e ty id core frame flowType flowId :
    exists e', completeFrame e ty id core frame flowType flowId = Ok e' /\
      sent e' = sent e /\ completions e' = completions e ++ [(ty, id, core, frame, flowType, flowId)]
}.

(** The platform looks the same to the observer. *)
Record same_trace {E} {port : IPPort E} {laws : IPPortLaws E} (e e' : E) : Prop := {
  st_sent : sent e' = sent e;
  st_completions : completions e' = completions e
}.

(** ** What holds of every IP between ticks *)

(** Waking excludes being active. *)
Definition power_ok (ip : GemDroidIP) : Prop := 0 <= cyclesToWake ip /\ (0 < cyclesToWake ip -> power_state ip <> ip_active).

(** With work to do an IP is active, or it will be. *)
Definition awake (ip : GemDroidIP) : Prop :=
  (power_state ip = ip_active /\ cyclesToWake ip = 0 /\ idleCycles ip = 0) \/
  (power_state ip <> ip_active /\ 0 < cyclesToWake ip).

(** Nothing else of [ip] changed but its power state, frequency and counters. *)
Record same_work (ip ip' : GemDroidIP) : Prop := {
  sw_type : ip_type ip' = ip_type ip;
  sw_id : ip_id ip' = ip_id ip;
  sw_device : ip_isDevice ip' = ip_isDevice ip;
  sw_latency : ioLatency ip' = ioLatency ip;
  sw_core : ip_core_id ip' = ip_core_id ip;
  sw_flowType : m_flowType ip' = m_flowType ip;
  sw_flowId : m_flowId ip' = m_flowId ip;
  sw_reqCount : m_reqCount ip' = m_reqCount ip;
  sw_respCount : m_respCount ip' = m_respCount ip;
  sw_dataSize : m_dataSize ip' = m_dataSize ip;
  sw_busy : is_busy ip' = is_busy ip;
  sw_reqAddr : m_reqAddr ip' = m_reqAddr ip;
  sw_isRead : m_isRead ip' = m_isRead ip;
  sw_frame : m_frameNum ip' = m_frameNum ip;
  sw_skip : ip_cyclesToSkip ip' = ip_cyclesToSkip ip;
  sw_out : m_reqOutAddr ip' = m_reqOutAddr ip;
  sw_reqSent : reqSent ip' = reqSent ip;
  sw_processed : inputProcessedInCL ip' = inputProcessedInCL ip;
  sw_target : inputToBeProcessedInCL ip' = inputToBeProcessedInCL ip;
  sw_chunk : targetOutputChunkSizeInCL ip' = targetOutputChunkSizeInCL ip
}.

Lemma same_work_refl ip : same_work ip ip.
Proof. by constructor. Qed.

Lemma same_work_trans a b c : same_work a b -> same_work b c -> same_work a c.
Proof. intros [] []. constructor; congruence. Qed.

Lemma count_cycle_work ip :
  same_work ip (count_cycle ip) /\ power_state (count_cycle ip) = power_state ip /\
  cyclesToWake (count_cycle ip) = cyclesToWake ip /\
  (power_state ip = ip_active -> idleCycles (count_cycle ip) = idleCycles ip).
Proof. unfold count_cycle. destruct (power_state ip) eqn:E; cbn; by rewrite ?E. Qed.

Lemma wakeUp_work ip :
  same_work ip (wakeUp ip) /\
  (power_state ip <> ip_active -> 0 < cyclesToWake (wakeUp ip) /\ power_state (wakeUp ip) <> ip_active).
Proof.
  unfold wakeUp. destruct (power_state ip) eqn:E; (split; [by constructor|]); intros H; try done;
    destruct (ip_isDevice ip); cbn; by rewrite E.
Qed.

Section Power.
Context {E : Type} {port : IPPort E} {laws : IPPortLaws E}.

Lemma mark_same e core ty id frame : same_trace e (markIPRequestStarted e core ty id frame).
Proof. destruct (mark_law e core ty id frame). by constructor. Qed.

Lemma same_trace_trans e1 e2 e3 : same_trace e1 e2 -> same_trace e2 e3 -> same_trace e1 e3.
Proof. intros [] []. constructor; congruence. Qed.

(** A device is never above the video decoder in the enumeration, so waking it
    changes no frequency. *)
Definition kind_ok (ip : GemDroidIP) : Prop := ip_isDevice ip = true -> ip_type ip < IP_TYPE_VD.

Lemma setPStateActive_ok ip e :
  kind_ok ip -> exists ip' e', setPStateActive ip e = Ok (ip', e') /\ same_work ip ip' /\
    power_state ip' = ip_active /\ cyclesToWake ip' = cyclesToWake ip /\ idleCycles ip' = idleCycles ip /\
    same_trace e e'.
Proof.
  intros Hk. unfold setPStateActive, setMaxIPFreq, setOptIPFreq, not_device.
  destruct (ip_isDevice ip) eqn:Ed.
  - specialize (Hk Ed). rewrite !(bool_decide_false (ip_type ip > IP_TYPE_VD)) by lia. rewrite !andb_false_r.
    cbn [mbind Res_bind]. do 2 eexists. split; [reflexivity|]. repeat split. all: apply mark_same.
  - destruct (bool_decide (getGovernor e = GOVERNOR_TYPE_INTERACTIVE) && _); cbn [mbind Res_bind];
      [|destruct (bool_decide (getGovernor e = GOVERNOR_TYPE_POWERCAP) && _); cbn [mbind Res_bind]];
      (do 2 eexists; split; [reflexivity|]; repeat split; apply mark_same).
Qed.

(** One cycle of the power states. *)
Lemma updatePower_ok ip e :
  kind_ok ip -> power_ok ip -> exists go ip' e', updatePower ip e = Ok (go, ip', e') /\ same_work ip ip' /\
    same_trace e e' /\ power_ok ip' /\ (go = true -> power_state ip' = ip_active) /\ (awake ip -> awake ip') /\
    (awake ip -> cyclesToWake ip' + (if go then 0 else 1) = cyclesToWake ip).
Proof.
  intros Hk [Hw Hp]. unfold updatePower. destruct (count_cycle_work ip) as (Hs & Ep & Ew & Ei).
  revert Hs Ep Ew Ei. generalize (count_cycle ip). intros ip1 Hs Ep Ew Ei.
  assert (kind_ok ip1) as Hk1 by (unfold kind_ok; by rewrite (sw_device _ _ Hs), (sw_type _ _ Hs)).
  case_bool_decide as Hc; [|case_bool_decide as Hidle].
  - cbn [cyclesToWake upd_field set_cyclesToWake]. assert (power_state ip <> ip_active) as Hna by (apply Hp; lia).
    case_bool_decide as Hlast.
    + rewrite bool_decide_false by (cbn; by rewrite Ep).
      destruct (setPStateActive_ok (ip1 <| cyclesToWake ::= Z.pred |>) e) as (ip2 & e2 & -> & Hs2 & E2 & W2 & I2 & T2); [done|].
      cbn [mbind Res_bind]. do 3 eexists. split; [reflexivity|]. cbn in W2.
      assert (same_work ip (ip2 <| idleCycles := 0 |>)) as Hs3.
      { apply (same_work_trans _ ip1); [done|]. destruct Hs2. by constructor. }
      split; [done|]. split; [by eapply same_trace_trans; [|apply mark_same]|].
      split; [split; cbn; lia|]. split; [done|]. split; [|intros _; cbn; lia].
      intros _. left. cbn. repeat split; [done | lia].
    + do 3 eexists. split; [reflexivity|].
      split; [destruct Hs; by constructor|]. split; [done|].
      split; [split; cbn; [lia|]; intros _; by rewrite Ep|]. split; [done|]. split; [|intros _; cbn; lia].
      intros _. right. cbn. rewrite Ep. split; [done | lia].
  - assert (forall ip2, same_work ip1 ip2 -> cyclesToWake ip2 = cyclesToWake ip1 -> (awake ip -> False) ->
      exists go ip' e', Ok (false, ip2 <| idleCycles := 0 |>, e) = Ok (go, ip', e') /\ same_work ip ip' /\
      same_trace e e' /\ power_ok ip' /\ (go = true -> power_state ip' = ip_active) /\ (awake ip -> awake ip') /\
      (awake ip -> cyclesToWake ip' + (if go then 0 else 1) = cyclesToWake ip)) as Hdown.
    { intros ip2 Hs2 W2 Hna. do 3 eexists. split; [reflexivity|].
      split; [apply (same_work_trans _ ip1); [done|]; destruct Hs2; by constructor|]. split; [done|].
      split; [split; cbn; lia|]. split; [done|]. split; [intros ?; by exfalso; auto | intros ?; by exfalso; auto]. }
    assert (awake ip -> False) as Hna.
    { intros [(Ha & _ & Hi)|[_ ?]]; [|lia]. rewrite Ei, Hi in Hidle by done.
      unfold enter_time, IPDEV_PSTATE_ENTER_TIME, IPACC_PSTATE_ENTER_TIME in Hidle. destruct (ip_isDevice ip1); lia. }
    destruct (power_state ip1) eqn:E1; unfold setPStateIdle, setPStateLowPower; rewrite ?E1; cbn [mbind Res_bind].
    + by apply Hdown.
    + rewrite bool_decide_true by done. cbn [mbind Res_bind]. apply Hdown; [|done|done]. by constructor.
    + rewrite bool_decide_true by done. cbn [mbind Res_bind]. apply Hdown; [|done|done]. by constructor.
  - do 3 eexists. split; [reflexivity|]. split; [done|]. split; [done|].
    split; [split; [lia|]; by rewrite Ew, Ep|]. split; [apply bool_decide_eq_true|].
    split.
    2: { unfold awake. rewrite Ep, Ew. intros [(Ha & Hz & _)|[_ ?]]; [rewrite bool_decide_true by done|]; lia. }
    unfold awake. rewrite Ep, Ew. intros [(Ha & Hz & Hi)|]; [left; by rewrite Ei | by right].
Qed.
End Power.

(** ** The frame of a device *)

Section Device.
Context {E : Type} {port : IPPort E} {laws : IPPortLaws E}.
(** The call: [n] lines at [addr]. *)
Context (ty id core addr n frame flowType flowId : Z) (isRead : bool).

(** The first [k] requests of the call. *)
Definition burst (k : Z) : list Request :=
  (fun i => (ty, id, core, u64 (addr + CACHE_LINE_SIZE * i), isRead)) <$> zrange k.

Definition completion : Completion := (ty, id, core, frame, flowType, flowId).

(** The registers that hold the call. *)
Record call_regs (ip : GemDroidIP) : Prop := {
  cr_type : ip_type ip = ty;
  cr_id : ip_id ip = id;
  cr_core : ip_core_id ip = core;
  cr_flowType : m_flowType ip = flowType;
  cr_flowId : m_flowId ip = flowId;
  cr_frame : m_frameNum ip = frame;
  cr_isRead : m_isRead ip = isRead;
  cr_size : m_dataSize ip = CACHE_LINE_SIZE * n;
  cr_skip : 0 <= ip_cyclesToSkip ip;
  cr_kind : kind_ok ip;
  cr_power : power_ok ip
}.

Lemma same_work_regs ip ip' : same_work ip ip' -> power_ok ip' -> call_regs ip -> call_regs ip'.
Proof.
  intros [] Hp []. constructor; try congruence.
  unfold kind_ok in *. by rewrite sw_device0, sw_type0.
Qed.

(** While the frame is under way: [k] requests sent and [r] answered. *)
Record underway (e0 : E) (k r : Z) (ip : GemDroidIP) (e : E) : Prop := {
  uw_regs : call_regs ip;
  uw_busy : is_busy ip = true;
  uw_awake : awake ip;
  uw_range : 0 <= r <= k /\ k <= n;
  uw_req : m_reqCount ip = (if bool_decide (k < n) then n - k else -1);
  uw_addr : m_reqAddr ip = u64 (addr + CACHE_LINE_SIZE * k);
  uw_resp : m_respCount ip = r;
  uw_sent : sent e = sent e0 ++ burst k;
  uw_completions : completions e = completions e0
}.

(** The frame is complete. *)
Record complete (e0 : E) (ip : GemDroidIP) (e : E) : Prop := {
  cp_regs : call_regs ip;
  cp_busy : is_busy ip = false;
  cp_req : m_reqCount ip <= 0;
  cp_resp : m_respCount ip = 0;
  cp_sent : sent e = sent e0 ++ burst n;
  cp_completions : completions e = completions e0 ++ [completion]
}.

(** A frame with [o] requests sent and not answered. *)
Definition in_frame (e0 : E) (o : Z) (ip : GemDroidIP) (e : E) : Prop :=
  (exists k r, underway e0 k r ip e /\ o = k - r) \/ (complete e0 ip e /\ o = 0).

Lemma burst_snoc k : 0 <= k -> burst (k + 1) = burst k ++ [(ty, id, core, u64 (addr + CACHE_LINE_SIZE * k), isRead)].
Proof.
  intros Hk. unfold burst, zrange. replace (Z.to_nat (k + 1)) with (S (Z.to_nat k)) by lia.
  rewrite seq_S, !fmap_app. cbn. by rewrite Z2Nat.id.
Qed.

Lemma set_stats_work g ip : same_work ip (upd_stats g ip).
Proof. by constructor. Qed.

Lemma set_stats_power g ip : power_ok ip -> power_ok (upd_stats g ip).
Proof. done. Qed.

Lemma underway_same e0 k r ip ip' e e' :
  same_work ip ip' -> power_ok ip' -> awake ip' -> same_trace e e' -> underway e0 k r ip e -> underway e0 k r ip' e'.
Proof.
  intros Hs Hp Ha [T1 T2] [Hr Hb _ Hk Hq Had Hre Hse Hc]. pose proof (same_work_regs _ _ Hs Hp Hr).
  destruct Hs. constructor; congruence.
Qed.

Lemma complete_same e0 ip ip' e e' :
  same_work ip ip' -> power_ok ip' -> same_trace e e' -> complete e0 ip e -> complete e0 ip' e'.
Proof.
  intros Hs Hp [T1 T2] [Hr Hb Hq Hre Hse Hc]. pose proof (same_work_regs _ _ Hs Hp Hr).
  destruct Hs. constructor; congruence || (rewrite sw_reqCount0; done).
Qed.

(** An agent that takes every request, and the ticks until all are sent. *)
Definition accepting : Prop := forall e ty id core addr isRead, (enqueueMem e ty id core addr isRead).1 = true.
Definition measure (ip : GemDroidIP) (k : Z) : Z := cyclesToWake ip + ip_cyclesToSkip ip + (n - k).

(** Sending, while requests remain. *)
Lemma IP_send_ok e0 k r ip e :
  underway e0 k r ip e -> power_state ip = ip_active -> r < n ->
  exists ip' e' k', IP_send ip e = Ok (ip', e') /\ underway e0 k' r ip' e' /\ k <= k' /\
    (accepting -> k < n -> measure ip' k' < measure ip k).
Proof.
  intros Hu Ha Hrn. pose proof Hu as [Hr Hb Haw Hk Hq Had Hre Hse Hc]. unfold IP_send.
  destruct (bool_decide_reflect (m_reqCount ip > 0)) as [Hpos|];
    [|exists ip, e, k; split; [done | split; [done | split; [lia|]]]].
  2: { intros _ Hkn. rewrite bool_decide_true in Hq by done. lia. }
  rewrite Hq in Hpos. destruct (bool_decide_reflect (k < n)) as [Hkn|]; [|lia]. unfold sendMemoryReq.
  pose proof (enqueueMem_law e (ip_type ip) (ip_id ip) (ip_core_id ip) (m_reqAddr ip) (m_isRead ip)) as Hlaw.
  destruct (enqueueMem e (ip_type ip) (ip_id ip) (ip_core_id ip) (m_reqAddr ip) (m_isRead ip)) as [ok e1] eqn:Hok.
  destruct Hlaw as [Hs1 Hc1]. apply (f_equal fst) in Hok. cbn in Hok.
  assert (awake ip -> forall ip', power_state ip' = power_state ip -> cyclesToWake ip' = cyclesToWake ip ->
    idleCycles ip' = idleCycles ip -> awake ip') as Haw'.
  { intros HA ip' E1 E2 E3. unfold awake. by rewrite E1, E2, E3. }
  destruct ok; cbv zeta.
  - assert (forall q, call_regs (IPActivityUpdate (upd_stats (fun s => s <| m_MemReqs ::= Z.succ |>)
        (ip <| m_reqCount := q |> <| m_reqAddr ::= fun a => u64 (a + CACHE_LINE_SIZE) |>)))) as Hregs.
    { intros q. destruct Hr. by constructor. }
    assert (sent e1 = sent e0 ++ burst (k + 1)) as Hs2.
    { rewrite Hs1, Hse, (burst_snoc k) by lia. destruct Hr as [-> -> -> _ _ _ -> _ _ _ _]. by rewrite Had, app_assoc. }
    assert (u64 (m_reqAddr ip + CACHE_LINE_SIZE) = u64 (addr + CACHE_LINE_SIZE * (k + 1))) as Had2.
    { rewrite Had. unfold u64. rewrite Zplus_mod_idemp_l. f_equal. lia. }
    case_bool_decide as Hlast; cbn in Hlast; rewrite Hq in Hlast.
    + rewrite (bool_decide_true (_ = ip_active)) by done. do 3 eexists. split; [reflexivity|]. split; [|instantiate (1 := k + 1); split; [lia | intros _ _; unfold measure; cbn; lia]].
      constructor; [apply (Hregs (Z.pred (Z.pred (m_reqCount ip)))) | done | apply (Haw' Haw); reflexivity | lia | | done | done | done | by rewrite Hc1].
      cbn. rewrite Hq. rewrite bool_decide_false by lia. lia.
    + do 3 eexists. split; [reflexivity|]. split; [|instantiate (1 := k + 1); split; [lia | intros _ _; unfold measure; cbn; lia]].
      constructor; [apply (Hregs (Z.pred (m_reqCount ip))) | done | apply (Haw' Haw); reflexivity | lia | | done | done | done | by rewrite Hc1].
      cbn. rewrite Hq. rewrite bool_decide_true by lia. lia.
  - rewrite app_nil_r in Hs1. rewrite bool_decide_false by (cbn; rewrite Hq; lia).
    exists (upd_stats (fun s => s <| idleStreak ::= Z.succ |> <| m_IPMemStalls ::= Z.succ |>)
      (upd_stats (fun s => s <| ip_memRejected ::= Z.succ |>) ip)), e1, k.
    split; [done|]. split; [|split; [lia | intros Hacc _; by rewrite Hacc in Hok]].
    apply (underway_same _ _ _ ip _ e); [by constructor | apply (cr_power _ Hr) | apply (Haw' Haw); reflexivity | by constructor | done].
Qed.

(** The cycles of the device itself. *)
Lemma IP_process_ok e0 k r ip e waiting ip' :
  IP_process ip = (waiting, ip') -> underway e0 k r ip e -> underway e0 k r ip' e /\ power_state ip' = power_state ip /\
    measure ip' k + (if (waiting : bool) then 1 else 0) <= measure ip k.
Proof.
  unfold IP_process. intros H Hu. destruct (bool_decide_reflect (ip_cyclesToSkip ip > 0)) as [Hp|].
  - injection H as <- <-. split; [|split; [done|]; unfold measure; cbn; destruct (bool_decide _); cbn; lia].
    destruct Hu as [[] ? ? ? ? ? ? ? ?]. constructor; try done.
    constructor; try done. cbn. lia.
  - injection H as <- <-. split; [done|]. split; [done|]. pose proof (cr_skip _ (uw_regs _ _ _ _ _ Hu)).
    rewrite bool_decide_true by lia. cbn. lia.
Qed.

Lemma lines_of_size ip : call_regs ip -> Z.quot (m_dataSize ip) CACHE_LINE_SIZE = n.
Proof. intros Hr. rewrite (cr_size _ Hr), Z.mul_comm. by apply Z.quot_mul. Qed.

(** One tick under way. *)
Lemma IP_tick_underway e0 k r ip e :
  underway e0 k r ip e ->
  exists ip' e', IP_tick ip e = Ok (ip', e') /\
    ((exists k', underway e0 k' r ip' e' /\ k <= k' /\ (accepting -> k < n \/ r = n -> measure ip' k' < measure ip k)) \/ (r = n /\ k = n /\ complete e0 ip' e')).
Proof.
  intros Hu. unfold IP_tick. set (ip1 := upd_stats _ ip).
  assert (underway e0 k r ip1 e) as Hu1.
  { apply (underway_same _ _ _ ip _ e); [by constructor | apply (cr_power _ (uw_regs _ _ _ _ _ Hu)) | apply Hu | by constructor | done]. }
  destruct (updatePower_ok ip1 e) as (go & ip2 & e2 & -> & Hs & Ht & Hp & Hact & Haw & Hwake);
    [apply (cr_kind _ (uw_regs _ _ _ _ _ Hu1)) | apply (cr_power _ (uw_regs _ _ _ _ _ Hu1)) |].
  cbn [mbind Res_bind]. assert (underway e0 k r ip2 e2) as Hu2.
  { apply (underway_same _ _ _ ip1 _ e); [done | done | apply Haw, Hu1 | done | done]. }
  assert (measure ip2 k + (if go then 0 else 1) = measure ip k) as Hm2.
  { specialize (Hwake (uw_awake _ _ _ _ _ Hu1)). pose proof (sw_skip _ _ Hs) as Hsk. unfold measure. rewrite Hsk.
    change (cyclesToWake ip1) with (cyclesToWake ip) in Hwake. change (ip_cyclesToSkip ip1) with (ip_cyclesToSkip ip). lia. }
  destruct go; cbn [negb];
    [|do 2 eexists; split; [reflexivity|]; left; exists k; split; [done | split; [lia | intros _ _; lia]]].
  rewrite bool_decide_true by auto. cbn [negb].
  destruct (IP_process ip2) as [waiting ip3] eqn:Epr.
  destruct (IP_process_ok _ _ _ _ _ _ _ Epr Hu2) as (Hu3 & Ea3 & Hm3).
  destruct waiting;
    [do 2 eexists; split; [reflexivity|]; left; exists k; split; [done | split; [lia | intros _ _; lia]]|].
  pose proof Hu3 as [Hr Hb Haw3 Hk Hq Had Hre Hse Hc]. unfold IP_finish. rewrite lines_of_size, Hre by done.
  destruct (bool_decide_reflect (r = n)) as [->|Hrn].
  - destruct Hr as [E1 E2 E3 E4 E5 E6 E7 E8 E9 E10 E11].
    destruct (completeFrame_law e2 (ip_type ip3) (ip_id ip3) (ip_core_id ip3) (m_frameNum ip3) (m_flowType ip3) (m_flowId ip3))
      as (e3 & Ec & Hs3 & Hc3).
    cbv zeta. change (completeFrame e2 _ _ _ _ _ _) with
      (completeFrame e2 (ip_type ip3) (ip_id ip3) (ip_core_id ip3) (m_frameNum ip3) (m_flowType ip3) (m_flowId ip3)).
    rewrite Ec. cbn [mbind Res_bind]. do 2 eexists. split; [reflexivity|]. right.
    split; [done|]. split; [lia|]. constructor; cbn; try done.
    + rewrite Hs3, Hse. by replace k with n by lia.
    + rewrite Hc3, Hc. unfold completion. by rewrite E1, E2, E3, E4, E5, E6.
  - cbn [mbind Res_bind]. rewrite Hb. rewrite andb_false_r.
    destruct (IP_send_ok e0 k r (upd_stats (fun s => s <| m_IPWorkingCycles ::= Z.succ |>) ip3) e2) as (ip' & e' & k' & E' & Hu' & Hk' & Hm').
    + apply (underway_same _ _ _ ip3 _ e2); [by constructor | by apply (cr_power _ Hr) | done | by constructor | done].
    + change (power_state ip3 = ip_active). rewrite Ea3. auto.
    + lia.
    + exists ip', e'. split; [exact E'|]. left. exists k'. split; [done|]. split; [done|].
      intros Ha Hkn. specialize (Hm' Ha ltac:(lia)). revert Hm'. unfold measure in *. cbn. lia.
Qed.

Lemma IP_tick_complete e0 ip e :
  0 < n -> complete e0 ip e -> exists ip' e', IP_tick ip e = Ok (ip', e') /\ complete e0 ip' e'.
Proof.
  intros n_pos Hcp. unfold IP_tick. set (ip1 := upd_stats _ ip).
  assert (complete e0 ip1 e) as H1.
  { apply (complete_same _ ip _ e); [by constructor | apply (cr_power _ (cp_regs _ _ _ Hcp)) | by constructor | done]. }
  destruct (updatePower_ok ip1 e) as (go & ip2 & e2 & -> & Hs & Ht & Hp & Hact & _ & _);
    [apply (cr_kind _ (cp_regs _ _ _ H1)) | apply (cr_power _ (cp_regs _ _ _ H1)) |].
  cbn [mbind Res_bind]. assert (complete e0 ip2 e2) as H2 by by apply (complete_same _ ip1 _ e).
  destruct go; cbn [negb]; [|by eauto]. rewrite bool_decide_true by auto. cbn [negb].
  destruct (IP_process ip2) as [waiting ip3] eqn:Epr.
  assert (complete e0 ip3 e2) as H3.
  { unfold IP_process in Epr. destruct (bool_decide_reflect (ip_cyclesToSkip ip2 > 0)); injection Epr as <- <-; [|done].
    destruct H2 as [[] ? ? ? ? ?]. constructor; try done. constructor; try done. cbn. lia. }
  destruct waiting; [by eauto|]. pose proof H3 as [Hr Hb Hq Hre Hse Hc]. unfold IP_finish.
  rewrite lines_of_size, Hre by done. rewrite bool_decide_false by lia. cbn [mbind Res_bind].
  rewrite Hb, bool_decide_true by done. cbn [andb negb]. do 2 eexists. split; [reflexivity|].
  destruct H3 as [[] ? ? ? ? ?]. constructor; try done.
Qed.
End Device.

(** ** Runs of a device *)

(** A device between ticks with the requests sent and not answered. *)
Record DeviceState (E : Type) := mkDevice { dev_ip : GemDroidIP; dev_env : E; dev_outstanding : Z }.
Arguments mkDevice {E} _ _ _.
Arguments dev_ip {E} _.
Arguments dev_env {E} _.
Arguments dev_outstanding {E} _.

Section Runs.
Context {E : Type} {port : IPPort E} {laws : IPPortLaws E}.

(** A tick, or the response to a request that was sent. *)
Inductive device_step : DeviceState E -> DeviceState E -> Prop :=
| device_tick ip e o ip' e' :
    IP_tick ip e = Ok (ip', e') ->
    device_step (mkDevice ip e o) (mkDevice ip' e' (o + zlen (sent e') - zlen (sent e)))
| device_response ip e o :
    0 < o -> device_step (mkDevice ip e o) (mkDevice (IP_memResponse ip) e (o - 1)).

Definition device_ok (ty id core addr n frame flowType flowId : Z) (isRead : bool) (e0 : E) (d : DeviceState E) : Prop :=
  in_frame ty id core addr n frame flowType flowId isRead e0 (dev_outstanding d) (dev_ip d) (dev_env d).

Lemma zlen_burst ty id core addr isRead k : 0 <= k -> zlen (burst ty id core addr isRead k) = k.
Proof. intros Hk. unfold burst. by rewrite zlen_fmap, zlen_zrange. Qed.

Lemma device_step_ok ty id core addr n frame flowType flowId isRead e0 d d' :
  0 < n -> device_step d d' ->
  device_ok ty id core addr n frame flowType flowId isRead e0 d ->
  device_ok ty id core addr n frame flowType flowId isRead e0 d'.
Proof.
  intros Hn Hstep Hok. destruct Hstep as [ip e o ip' e' Et | ip e o Ho]; unfold device_ok, in_frame in *; cbn in *.
  - destruct Hok as [(k & r & Hu & ->)|[Hc ->]].
    + destruct (IP_tick_underway _ _ _ _ _ _ _ _ _ _ _ _ _ _ Hu) as (ip2 & e2 & E2 & H). rewrite Et in E2.
      injection E2 as <- <-. pose proof (uw_range _ _ _ _ _ _ _ _ _ _ _ _ _ _ Hu) as Hk.
      rewrite (uw_sent _ _ _ _ _ _ _ _ _ _ _ _ _ _ Hu), zlen_app, zlen_burst by lia.
      destruct H as [(k' & Hu' & Hk' & _)|(-> & -> & Hc)].
      * left. exists k', r. split; [done|]. rewrite (uw_sent _ _ _ _ _ _ _ _ _ _ _ _ _ _ Hu'), zlen_app, zlen_burst by lia. lia.
      * right. split; [done|]. rewrite (cp_sent _ _ _ _ _ _ _ _ _ _ _ _ Hc), zlen_app, zlen_burst by lia. lia.
    + destruct (IP_tick_complete _ _ _ _ _ _ _ _ _ _ _ _ Hn Hc) as (ip2 & e2 & E2 & H). rewrite Et in E2.
      injection E2 as <- <-. right. split; [done|].
      rewrite (cp_sent _ _ _ _ _ _ _ _ _ _ _ _ Hc), (cp_sent _ _ _ _ _ _ _ _ _ _ _ _ H). lia.
  - destruct Hok as [(k & r & Hu & ->)|[Hc ->]]; [|lia]. left. exists k, (r + 1).
    split; [|lia]. destruct Hu as [[] ? ? ? ? ? ? ? ?]. constructor; cbn; try (done || lia).
Qed.

(** The call that starts the frame. *)
Lemma IP_enqueueIPReq_ok ip e ty id core addr n frame flowType flowId isRead :
  is_busy ip = false -> ip_type ip = ty -> ip_id ip = id -> kind_ok ip -> power_ok ip -> 0 <= ioLatency ip ->
  0 < n -> in_u64 addr ->
  exists ip' e', IP_enqueueIPReq ip e core addr (CACHE_LINE_SIZE * n) isRead frame flowType flowId = (true, ip', e') /\
    same_trace e e' /\ device_ok ty id core addr n frame flowType flowId isRead e (mkDevice ip' e' 0).
Proof.
  intros Hb Ety Eid Hk Hp Hl Hn Ha. unfold IP_enqueueIPReq. rewrite Hb. cbn [negb].
  assert (ceil_lines (CACHE_LINE_SIZE * n) = n) as Ec.
  { unfold ceil_lines. rewrite <- Z.mul_opp_r, Z.mul_comm, Z.div_mul by done. lia. }
  rewrite Ec. cbv zeta. set (ip1 := upd_stats _ _).
  assert (call_regs ty id core n frame flowType flowId isRead ip1) as Hr.
  { constructor; cbn; try done. by apply Z.mul_nonneg_nonneg; [|lia]. }
  assert (forall ip' e', call_regs ty id core n frame flowType flowId isRead ip' -> awake ip' -> is_busy ip' = true ->
    m_reqCount ip' = n -> m_reqAddr ip' = addr -> m_respCount ip' = 0 -> same_trace e e' ->
    device_ok ty id core addr n frame flowType flowId isRead e (mkDevice ip' e' 0)) as Hstart.
  { intros ip' e' Hr' Haw Hb' Hq Had Hre [T1 T2]. left. exists 0, 0. split; [|done]. cbn. constructor; try done.
    - lia.
    - rewrite Hq, bool_decide_true by done. lia.
    - rewrite Z.mul_0_r, Z.add_0_r. by rewrite u64_small.
    - by rewrite T1, app_nil_r. }
  destruct (bool_decide_reflect (power_state ip1 = ip_active)) as [Hact|Hact].
  - do 2 eexists. split; [reflexivity|]. split; [apply mark_same|].
    apply Hstart; try done; [|apply mark_same]. left. split; [done|]. split; [|done].
    destruct Hp as [Hp0 Hp1]. change (cyclesToWake ip1) with (cyclesToWake ip). change (power_state ip1) with (power_state ip) in Hact.
    destruct (decide (cyclesToWake ip = 0)); [done|]. exfalso. apply Hp1; [lia | done].
  - do 2 eexists. split; [reflexivity|]. split; [done|].
    destruct (wakeUp_work ip1) as [Hs Hwake]. destruct (Hwake Hact) as [W1 W2].
    apply Hstart; try done; [| by right | by rewrite (sw_busy _ _ Hs) | by rewrite (sw_reqCount _ _ Hs) |
      by rewrite (sw_reqAddr _ _ Hs) | by rewrite (sw_respCount _ _ Hs)].
    apply (same_work_regs _ _ _ _ _ _ _ _ ip1); [done | split; [lia | done] | done].
Qed.

(** Runs from a state. *)
Definition device_run : DeviceState E -> DeviceState E -> Prop := rtc device_step.

Lemma device_run_ok ty id core addr n frame flowType flowId isRead e0 d d' :
  0 < n -> device_run d d' ->
  device_ok ty id core addr n frame flowType flowId isRead e0 d ->
  device_ok ty id core addr n frame flowType flowId isRead e0 d'.
Proof. intros Hn Hrun. induction Hrun; [done|]. intros H1. by eapply IHHrun, device_step_ok. Qed.

(** The frame ends, when the agent takes every request and all are answered. *)
Section Completes.
Context (ty id core addr n frame flowType flowId : Z) (isRead : bool) (e0 : E).
Hypothesis Hacc : accepting (E := E).

Notation underway' := (underway ty id core addr n frame flowType flowId isRead e0).
Notation complete' := (complete ty id core addr n frame flowType flowId isRead e0).

Lemma measure_nonneg k r ip e : underway' k r ip e -> 0 <= measure n ip k.
Proof. intros []. pose proof (cr_skip _ _ _ _ _ _ _ _ _ uw_regs0). destruct (cr_power _ _ _ _ _ _ _ _ _ uw_regs0). unfold measure. lia. Qed.

Lemma tick_step ip e o ip' e' : IP_tick ip e = Ok (ip', e') -> exists o', device_step (mkDevice ip e o) (mkDevice ip' e' o').
Proof. intros H. eexists. by constructor. Qed.

Lemma ticks_until m : forall k r ip e o, underway' k r ip e -> measure n ip k <= Z.of_nat m ->
  exists ip' e' o', device_run (mkDevice ip e o) (mkDevice ip' e' o') /\
    ((exists k', underway' k' r ip' e' /\ k' = n /\ r <> n) \/ complete' ip' e').
Proof.
  induction m as [m IH] using lt_wf_ind. intros k r ip e o Hu Hm.
  destruct (decide (k < n \/ r = n)) as [Hg|Hg].
  2: { exists ip, e, o. split; [apply rtc_refl|]. left. exists k. split; [done|].
       pose proof (uw_range _ _ _ _ _ _ _ _ _ _ _ _ _ _ Hu). lia. }
  destruct (IP_tick_underway _ _ _ _ _ _ _ _ _ _ _ _ _ _ Hu) as (ip1 & e1 & E1 & H).
  destruct (tick_step _ _ o _ _ E1) as [o1 Hstep].
  destruct H as [(k1 & Hu1 & _ & Hdec)|(_ & _ & Hc)].
  - specialize (Hdec Hacc Hg). pose proof (measure_nonneg _ _ _ _ Hu1).
    destruct (IH (Z.to_nat (measure n ip1 k1)) ltac:(lia) k1 r ip1 e1 o1 Hu1 ltac:(lia)) as (ip' & e' & o' & Hrun & H').
    exists ip', e', o'. split; [by eapply rtc_l | done].
  - exists ip1, e1, o1. split; [by apply rtc_once | by right].
Qed.

Lemma answers m : forall r ip e, underway' n r ip e -> n - r = Z.of_nat m ->
  exists ip', device_run (mkDevice ip e (n - r)) (mkDevice ip' e 0) /\ underway' n n ip' e.
Proof.
  induction m as [|m IH]; intros r ip e Hu Hm.
  - exists ip. replace r with n in * by lia. rewrite Z.sub_diag. split; [apply rtc_refl | done].
  - destruct (IH (r + 1) (IP_memResponse ip) e) as (ip' & Hrun & H).
    + destruct Hu as [[] ? ? ? ? ? ? ? ?]. constructor; cbn; try (done || lia).
    + lia.
    + exists ip'. split; [|done]. eapply rtc_l; [|exact Hrun].
      replace (n - (r + 1)) with (n - r - 1) by lia. apply device_response. lia.
Qed.
End Completes.

Lemma device_run_outstanding ty id core addr n frame flowType flowId isRead e0 d ip e o k r :
  0 < n -> device_run d (mkDevice ip e o) ->
  device_ok ty id core addr n frame flowType flowId isRead e0 d ->
  underway ty id core addr n frame flowType flowId isRead e0 k r ip e -> o = k - r.
Proof.
  intros Hn Hrun Hok Hu. destruct (device_run_ok _ _ _ _ _ _ _ _ _ _ _ _ Hn Hrun Hok) as [(k' & r' & Hu' & Ho)|[Hc _]]; cbn in *.
  - pose proof (uw_resp _ _ _ _ _ _ _ _ _ _ _ _ _ _ Hu) as R1. pose proof (uw_resp _ _ _ _ _ _ _ _ _ _ _ _ _ _ Hu') as R2.
    pose proof (uw_sent _ _ _ _ _ _ _ _ _ _ _ _ _ _ Hu) as S1. rewrite (uw_sent _ _ _ _ _ _ _ _ _ _ _ _ _ _ Hu') in S1.
    apply (f_equal zlen) in S1. pose proof (uw_range _ _ _ _ _ _ _ _ _ _ _ _ _ _ Hu).
    pose proof (uw_range _ _ _ _ _ _ _ _ _ _ _ _ _ _ Hu'). rewrite !zlen_app, !zlen_burst in S1 by lia. lia.
  - pose proof (uw_busy _ _ _ _ _ _ _ _ _ _ _ _ _ _ Hu) as B. by rewrite (cp_busy _ _ _ _ _ _ _ _ _ _ _ _ Hc) in B.
Qed.

(** A frame through a device ends. When the agent takes every request,
    some sequence of ticks and of responses to the requests sent leads from
    the call to the completion: the device is not stuck asleep, and it does not
    wait for more responses than it sent requests. *)
Theorem device_frame_completes ip e core addr n frame flowType flowId isRead :
  is_busy ip = false -> kind_ok ip -> power_ok ip -> 0 <= ioLatency ip -> 0 < n -> in_u64 addr -> accepting (E := E) ->
  exists ip1 e1, IP_enqueueIPReq ip e core addr (CACHE_LINE_SIZE * n) isRead frame flowType flowId = (true, ip1, e1) /\
  exists d, device_run (mkDevice ip1 e1 0) d /\ is_busy (dev_ip d) = false /\
    completions (dev_env d) = completions e ++ [(ip_type ip, ip_id ip, core, frame, flowType, flowId)].
Proof.
  intros Hb Hk Hp Hl Hn Ha Hacc.
  destruct (IP_enqueueIPReq_ok ip e _ _ core addr n frame flowType flowId isRead Hb eq_refl eq_refl Hk Hp Hl Hn Ha)
    as (ip1 & e1 & E1 & _ & Hok).
  exists ip1, e1. split; [done|]. pose proof Hok as [(k & r & Hu & _)|[Hc _]]; cbn in *.
  2: { exists (mkDevice ip1 e1 0). split; [apply rtc_refl|]. by destruct Hc. }
  destruct (ticks_until _ _ _ _ _ _ _ _ _ _ Hacc (Z.to_nat (measure n ip1 k)) _ _ _ _ 0 Hu ltac:(lia))
    as (ip2 & e2 & o2 & Hrun & [(k' & Hu2 & -> & _)|Hc]).
  2: { exists (mkDevice ip2 e2 o2). split; [done|]. by destruct Hc. }
  pose proof (device_run_outstanding _ _ _ _ _ _ _ _ _ _ _ _ _ _ _ _ Hn Hrun Hok Hu2) as ->.
  pose proof (uw_range _ _ _ _ _ _ _ _ _ _ _ _ _ _ Hu2).
  destruct (answers _ _ _ _ _ _ _ _ _ _ (Z.to_nat (n - r)) _ _ _ Hu2 ltac:(lia)) as (ip3 & Hrun3 & Hu3).
  destruct (ticks_until _ _ _ _ _ _ _ _ _ _ Hacc (Z.to_nat (measure n ip3 n)) _ _ _ _ 0 Hu3 ltac:(lia))
    as (ip4 & e4 & o4 & Hrun4 & [(k' & _ & _ & ?)|Hc]); [done|].
  exists (mkDevice ip4 e4 o4). split; [|by destruct Hc]. etrans; [exact Hrun|]. etrans; [exact Hrun3 | exact Hrun4].
Qed.

(** C16: a frame through a device. A device that is free takes a call for [n]
    cache lines; from then on, whatever the agent refuses and however ticks
    and responses interleave, no tick fails, the device has sent the first
    requests of the [n] to consecutive lines, in order, and nothing else, and
    it reports completion exactly once: not before all [n] requests are
    answered, and with it the device is free again. *)
Theorem device_frame ip e core addr n frame flowType flowId isRead :
  is_busy ip = false -> kind_ok ip -> power_ok ip -> 0 <= ioLatency ip -> 0 < n -> in_u64 addr ->
  exists ip1 e1, IP_enqueueIPReq ip e core addr (CACHE_LINE_SIZE * n) isRead frame flowType flowId = (true, ip1, e1) /\
  forall d, device_run (mkDevice ip1 e1 0) d ->
    (exists r, IP_tick (dev_ip d) (dev_env d) = Ok r) /\
    ((exists k r, is_busy (dev_ip d) = true /\ 0 <= r <= k /\ k <= n /\ dev_outstanding d = k - r /\
        sent (dev_env d) = sent e ++ burst (ip_type ip) (ip_id ip) core addr isRead k /\
        completions (dev_env d) = completions e) \/
     (is_busy (dev_ip d) = false /\ dev_outstanding d = 0 /\
        sent (dev_env d) = sent e ++ burst (ip_type ip) (ip_id ip) core addr isRead n /\
        completions (dev_env d) = completions e ++ [(ip_type ip, ip_id ip, core, frame, flowType, flowId)])).
Proof.
  intros Hb Hk Hp Hl Hn Ha.
  destruct (IP_enqueueIPReq_ok ip e _ _ core addr n frame flowType flowId isRead Hb eq_refl eq_refl Hk Hp Hl Hn Ha)
    as (ip1 & e1 & E1 & _ & Hok).
  exists ip1, e1. split; [done|]. intros d Hrun.
  destruct (device_run_ok _ _ _ _ _ _ _ _ _ _ _ _ Hn Hrun Hok) as [(k & r & Hu & Ho)|[Hc Ho]].
  - split.
    + destruct (IP_tick_underway _ _ _ _ _ _ _ _ _ _ _ _ _ _ Hu) as (ip2 & e2 & E2 & _). by exists (ip2, e2).
    + left. exists k, r. destruct Hu. tauto.
  - split.
    + destruct (IP_tick_complete _ _ _ _ _ _ _ _ _ _ _ _ Hn Hc) as (ip2 & e2 & E2 & _). by exists (ip2, e2).
    + right. by destruct Hc.
Qed.
End Runs.

(** ** A platform that records, and takes every request *)

Record Trace := mkTrace { tr_sent : list Request; tr_completions : list Completion; tr_governor : Z }.

#[export] Instance trace_port : IPPort Trace := {
  getGovernor := tr_governor;
  markIPRequestStarted e core ty id frame := e;
  enqueueMem e ty id core addr isRead :=
    (true, mkTrace (tr_sent e ++ [(ty, id, core, addr, isRead)]) (tr_completions e) (tr_governor e));
  completeFrame e ty id core frame flowType flowId :=
    Ok (mkTrace (tr_sent e) (tr_completions e ++ [(ty, id, core, frame, flowType, flowId)]) (tr_governor e))
}.

#[export] Instance trace_laws : IPPortLaws Trace.
Proof.
  apply (Build_IPPortLaws _ _ tr_sent tr_completions).
  - done.
  - done.
  - intros e ty id core frame flowType flowId. eexists. split; [reflexivity|]. done.
Defined.

Definition zero_stats : IPStats := mkIPStats 0 0 0 0 0 0 0 0 0 0 0 0 0 0 0 0 0 0 0.

(** An object of zeros. *)
Definition zero_ip : GemDroidIP :=
  mkIP 0 0 false 0 0 0 0 0 0 0 false 0 false 0 0 0 0 0 0 0 0 0 0 ip_idle 0 0 0
    (F64.of_Z 0) (F64.of_Z 0) [] (F64.of_Z 0) zero_stats.

(** The display controller as the platform sets it up, awake. *)
Definition sample_dc : GemDroidIP :=
  match GemDroidIP_init zero_ip IP_TYPE_DC 0 true 1 (F64.lit 4 10) 2 (mkTrace [] [] 0) with
  | Ok (ip, _) => ip <| power_state := ip_active |>
  | Err _ => zero_ip
  end.

Definition quiet : Trace := mkTrace [] [] 0.

Lemma device_frame_witness : exists ip1 e1,
  IP_enqueueIPReq sample_dc quiet 0 DC1_ADDR_START 128 true 7 IP_TYPE_DC 0 = (true, ip1, e1) /\
  exists r, IP_tick ip1 e1 = Ok r.
Proof.
  destruct (device_frame sample_dc quiet 0 DC1_ADDR_START 2 7 IP_TYPE_DC 0 true) as (ip1 & e1 & E & H).
  - by vm_compute.
  - by vm_compute.
  - split; [by vm_compute | by vm_compute].
  - by vm_compute.
  - lia.
  - by vm_compute.
  - exists ip1, e1. split; [exact E|]. exact (proj1 (H _ (rtc_refl _ _))).
Defined.

(** ** Sizes that are not multiples of the cache line *)

Fixpoint ticks_of (n : nat) (st : GemDroidIP * Trace) : Res (GemDroidIP * Trace) :=
  match n with O => Ok st | S n' => st ← IP_tick st.1 st.2; ticks_of n' st end.

Definition after_ticks (n : nat) (st : bool * GemDroidIP * Trace) : option (Z * Z) :=
  match ticks_of n (st.1.2, st.2) with
  | Ok (_, e) => Some (zlen (tr_sent e), zlen (tr_completions e))
  | Err _ => None
  end.

(** A call for less than a cache line completes unanswered, and again at
    every tick. The device counts [ceil(size/64)] requests to send but waits
    for [size/64] responses, a division of integers, and the count of
    responses is reset to the same 0: after one tick of a call for 32 bytes
    the completion is reported though nothing was sent, and after ten ticks
    ten completions were reported. *)
Theorem short_call_completes_every_tick :
  let call := IP_enqueueIPReq (sample_dc <| ioLatency := 0 |>) quiet 0 DC1_ADDR_START 32 true 7 IP_TYPE_DC 0 in
  ceil_lines 32 = 1 /\ after_ticks 1 call = Some (0, 1) /\ after_ticks 10 call = Some (0, 10).
Proof. by vm_compute. Qed.

Lemma device_frame_completes_witness : exists ip1 e1,
  IP_enqueueIPReq sample_dc quiet 0 DC1_ADDR_START 128 true 7 IP_TYPE_DC 0 = (true, ip1, e1) /\
  exists d, device_run (mkDevice ip1 e1 0) d /\ is_busy (dev_ip d) = false /\
    tr_completions (dev_env d) = [(IP_TYPE_DC, 0, 0, 7, IP_TYPE_DC, 0)].
Proof.
  destruct (device_frame_completes sample_dc quiet 0 DC1_ADDR_START 2 7 IP_TYPE_DC 0 true) as (ip1 & e1 & E & H).
  - by vm_compute.
  - by vm_compute.
  - split; [by vm_compute | by vm_compute].
  - by vm_compute.
  - lia.
  - by vm_compute.
  - done.
  - exists ip1, e1. split; [exact E | exact H].
Defined.
