(* ===== verification/IpFreq.v ===== *)
(** * The frequencies of an IP

    The table of states, the operations of the governors on it, and the choice
    of a frequency under a power budget. *)

From S2P Require Import Prelude.
From S2P Require Import DramConfig.
From S2P Require Import GemDefines.
From S2P Require Import Ip.

(** ** Operations *)

Inductive IPFreqOp :=
| FreqInc (steps : Z)
| FreqDec (governor steps : Z)
| FreqMax
| FreqMin
| FreqOpt
| FreqSet (freq : spec_float)
| FreqSetInd (ind : Z)
| FreqTick.

Definition ip_freq_op (ip : GemDroidIP) (op : IPFreqOp) : Res GemDroidIP :=
  match op with
  | FreqInc steps => '(_, ip) ← incFreq steps ip; Ok ip
  | FreqDec governor steps => '(_, ip) ← decFreq governor steps ip; Ok ip
  | FreqMax => setMaxIPFreq ip
  | FreqMin => setMinIPFreq ip
  | FreqOpt => setOptIPFreq ip
  | FreqSet freq => setIPFreq freq ip
  | FreqSetInd ind => setIPFreqInd ind ip
  | FreqTick => Ok (IP_updateDVFS ip)
  end.

Definition steps_ok (op : IPFreqOp) : Prop :=
  match op with FreqInc steps | FreqDec _ steps => 0 <= steps | _ => True end.

(** The state and the optimal state are rows of the table. *)
Record freq_ok (ip : GemDroidIP) : Prop := {
  fo_table : zlen (voltage_freq_table ip) = IP_DVFS_STATES;
  fo_state : 0 <= dvfsState ip < IP_DVFS_STATES;
  fo_opt : 0 <= m_optDVFSState ip < IP_DVFS_STATES
}.

Lemma with_state ip ip' :
  voltage_freq_table ip' = voltage_freq_table ip -> m_optDVFSState ip' = m_optDVFSState ip ->
  0 <= dvfsState ip' < IP_DVFS_STATES -> freq_ok ip -> freq_ok ip'.
Proof. intros E1 E2 H []. constructor; by rewrite ?E1, ?E2. Qed.

Lemma setMax_ok ip ip' : setMaxIPFreq ip = Ok ip' -> freq_ok ip -> freq_ok ip'.
Proof. unfold setMaxIPFreq. intros H. res_inv. by apply with_state. Qed.

Lemma setIPFreqInd_ok ind ip ip' : setIPFreqInd ind ip = Ok ip' -> freq_ok ip -> freq_ok ip'.
Proof.
  unfold setIPFreqInd. destruct (_ && _) eqn:E; [|done]. apply andb_true_iff in E as [H1%bool_decide_eq_true H2%bool_decide_eq_true].
  intros [= <-]. apply with_state; cbn; (done || lia).
Qed.

Lemma ip_freq_op_ok ip op ip' : steps_ok op -> ip_freq_op ip op = Ok ip' -> freq_ok ip -> freq_ok ip'.
Proof.
  intros Hop H Hok. pose proof Hok as [Ht Hs Ho]. destruct op; cbn [ip_freq_op] in H.
  - unfold incFreq in H. res_inv. destruct a as [ok ip2]. injection H as <-.
    case_bool_decide as Hlt; res_inv; [|by eapply setMax_ok].
    apply (with_state ip); cbn; try done. cbn in Hop. lia.
  - unfold decFreq in H. res_inv. destruct a as [ok ip2]. injection H as <-.
    destruct (_ && _); res_inv; [done|]. case_bool_decide as Hgt; res_inv; [|done].
    apply (with_state ip); cbn; try done. cbn in Hop. lia.
  - by eapply setMax_ok.
  - unfold setMinIPFreq in H. res_inv. by apply (with_state ip).
  - unfold setOptIPFreq in H. res_inv. by apply (with_state ip).
  - by eapply setIPFreqInd_ok.
  - by eapply setIPFreqInd_ok.
  - res_inv. by apply (with_state ip).
Qed.

(** C33: the frequency of an IP is always a state of its table. Whatever the
    governors do to an IP, as long as no assertion stops them, its state is
    one of the seven rows of the table, and reading its frequency succeeds. *)
Theorem ip_freq_in_table ops ip ip' :
  freq_ok ip -> Forall steps_ok ops -> foldM ip_freq_op ip ops = Ok ip' ->
  0 <= dvfsState ip' < IP_DVFS_STATES /\ exists f, getIPFreq ip' = Ok f.
Proof.
  intros Hok Hops Hrun. assert (freq_ok ip') as [Ht Hs _].
  { revert ip Hok Hrun. induction Hops as [|op ops Hop Hops IH]; intros ip Hok Hrun; cbn in Hrun; [by injection Hrun as <-|].
    res_inv. apply (IH a); [|done]. by apply (ip_freq_op_ok ip op). }
  split; [done|]. unfold getIPFreq. destruct (of_option_zget (voltage_freq_table ip') (dvfsState ip')) as (row & _ & ->).
  - by rewrite Ht.
  - cbn. eauto.
Qed.

(** ** The table *)

(** The IPs with an entry, and the tables they are given. *)
Definition powered_types : list Z :=
  [IP_TYPE_DC; IP_TYPE_NW; IP_TYPE_CAM; IP_TYPE_MMC_IN; IP_TYPE_MMC_OUT; IP_TYPE_VD; IP_TYPE_VE; IP_TYPE_AD;
   IP_TYPE_AE; IP_TYPE_IMG; IP_TYPE_GPU].

Definition table_for (ty : Z) : list (spec_float * spec_float * spec_float) :=
  match ip_power_constants ty with
  | Some (_, cap) => dvfs_table (F64.div (F64.lit cap 100) V2F)
  | None => []
  end.

Definition lowest_power (ty : Z) : spec_float :=
  match table_for ty with row :: _ => tbl_power row | [] => F64.of_Z 0 end.

(** Each row costs more than the one before. *)
Fixpoint increasing (l : list spec_float) : bool :=
  match l with
  | x :: (y :: _) as l' => F64.ltb x y && increasing l'
  | _ => true
  end.

(** The first test decides, as the table grows. *)
Lemma lowest_row_wins ty power :
  ty ∈ powered_types -> F64.ltb (lowest_power ty) power = true ->
  forall last, freq_for_power power (table_for ty) last = F64.lit 2 10.
Proof.
  intros Hty Hp last. assert (exists row rows, table_for ty = row :: rows /\ tbl_freq row = F64.lit 2 10) as (row & rows & E & Ef).
  { unfold powered_types in Hty. rewrite !elem_of_cons, elem_of_nil in Hty.
    repeat (destruct Hty as [->|Hty]; [do 2 eexists; split; [reflexivity | by vm_compute]|]). done. }
  unfold lowest_power in Hp. rewrite E in Hp |- *. cbn. by rewrite Hp.
Qed.

Lemma no_budget_highest ty :
  ty ∈ powered_types -> forall last, freq_for_power (F64.of_Z 0) (table_for ty) last = last.
Proof.
  intros Hty last. assert (forallb (fun row => negb (F64.ltb (tbl_power row) (F64.of_Z 0))) (table_for ty) = true) as Hall.
  { revert Hty. unfold powered_types. rewrite !elem_of_cons, elem_of_nil. intros Hty.
    repeat (destruct Hty as [->|Hty]; [by vm_compute|]). done. }
  revert Hall. induction (table_for ty) as [|row rows IH]; [done|]. cbn.
  rewrite andb_true_iff, negb_true_iff. intros [-> H]. by apply IH.
Qed.

(** The frequency for a power budget is chosen the wrong way round. The
    rows of every table grow in frequency and in power; [getFreqForPower]
    stops at the first row the budget covers, so any budget that covers the
    lowest state gets the lowest frequency, 0.2 GHz, however large it is, and
    no budget at all gets the highest, 0.8 GHz. *)
Theorem power_budget_inverted ip ty :
  ty ∈ powered_types -> voltage_freq_table ip = table_for ty ->
  increasing (tbl_power <$> table_for ty) = true /\
  (forall power, F64.ltb (lowest_power ty) power = true -> getFreqForPower ip power = Ok (F64.lit 2 10)) /\
  getFreqForPower ip (F64.of_Z 0) = Ok (F64.lit 8 10).
Proof.
  intros Hty Et. unfold getFreqForPower, getIPFreq_at. rewrite Et.
  assert (increasing (tbl_power <$> table_for ty) = true /\
    exists row, zget (table_for ty) (clamp_index (IP_DVFS_STATES - 1)) = Some row /\ tbl_freq row = F64.lit 8 10) as (Hi & row & Er & Ef).
  { revert Hty. unfold powered_types. rewrite !elem_of_cons, elem_of_nil. intros Hty.
    repeat (destruct Hty as [->|Hty]; [split; [by vm_compute|]; eexists; split; [reflexivity | by vm_compute]|]). done. }
  rewrite Er. cbn [of_option mbind Res_bind]. split; [done|]. split.
  - intros power Hp. by rewrite lowest_row_wins.
  - by rewrite no_budget_highest, Ef.
Qed.

(** ** Witnesses *)

Definition sample_vd_ip : GemDroidIP :=
  mkIP IP_TYPE_VD 0 false 0 0 0 0 0 0 0 false 0 false 0 0 0 0 0 0 0 0 0 0 ip_idle 3 0 1
    (F64.of_Z 0) (F64.of_Z 0) (table_for IP_TYPE_VD) (F64.of_Z 0)
    (mkIPStats 0 0 0 0 0 0 0 0 0 0 0 0 0 0 0 0 0 0 0).

Lemma ip_freq_in_table_witness : exists ip',
  foldM ip_freq_op sample_vd_ip [FreqInc 1; FreqInc 2; FreqDec 1 3; FreqOpt; FreqSet (F64.lit 5 10)] = Ok ip' /\
  0 <= dvfsState ip' < IP_DVFS_STATES.
Proof.
  eexists. split; [vm_compute; reflexivity|].
  eapply (ip_freq_in_table [FreqInc 1; FreqInc 2; FreqDec 1 3; FreqOpt; FreqSet (F64.lit 5 10)] sample_vd_ip).
  - split; by vm_compute.
  - repeat constructor; cbn; lia.
  - by vm_compute.
Defined.

Lemma power_budget_inverted_witness :
  getFreqForPower sample_vd_ip (F64.of_Z 100) = Ok (F64.lit 2 10) /\
  getFreqForPower sample_vd_ip (F64.of_Z 0) = Ok (F64.lit 8 10).
Proof.
  destruct (power_budget_inverted sample_vd_ip IP_TYPE_VD) as (_ & H1 & H2).
  - unfold powered_types. rewrite !elem_of_cons. tauto.
  - reflexivity.
  - split; [apply H1; by vm_compute | exact H2].
Defined.
