(* ===== verification/Coders.v ===== *)
(** * Accelerators
    ([gemdroid_ip_decoder.cc], [gemdroid_ip_encoder.cc], [gemdroid_ip_nocoder.cc])

    An accelerator reads cache lines into its input buffer, spends cycles on
    each, and writes what it computed from its output buffer: a decoder
    produces [coding_ratio] lines for each line read, an encoder one chunk for
    [coding_ratio] chunks read, the image processor ("nocoder") a chunk for a
    chunk. The three classes have the same private members; the members and
    methods that are the same text in all are here once. *)

From S2P Require Import Prelude.
From S2P Require Import DramConfig.
From S2P Require Import GemDefines.
From S2P Require Import Ip.

Record Coder := mkCoder {
  base : GemDroidIP;
  computeLatency : Z;
  inBufferSize : Z;
  outBufferSize : Z;
  currInBuffer : Z;
  currOutBuffer : Z;
  coding_ratio : Z
}.

#[export] Instance eta_Coder : Settable Coder := fun r =>
  mkCoder (base r) (computeLatency r) (inBufferSize r) (outBufferSize r) (currInBuffer r) (currOutBuffer r)
    (coding_ratio r).

#[export] Instance set_base : Setter base := ltac:(mk_setter).
#[export] Instance set_computeLatency : Setter computeLatency := ltac:(mk_setter).
#[export] Instance set_inBufferSize : Setter inBufferSize := ltac:(mk_setter).
#[export] Instance set_outBufferSize : Setter outBufferSize := ltac:(mk_setter).
#[export] Instance set_currInBuffer : Setter currInBuffer := ltac:(mk_setter).
#[export] Instance set_currOutBuffer : Setter currOutBuffer := ltac:(mk_setter).
#[export] Instance set_coding_ratio : Setter coding_ratio := ltac:(mk_setter).

(** What a cycle of processing did; only the decoder keeps it. *)
Inductive process_event := OUT_BUFFER_FULL | IN_BUFFER_EMPTY | INBUFFER_DATA_RECVD | TRUE_PROCESS_CYCLE.

Definition upd_base (g : GemDroidIP -> GemDroidIP) (c : Coder) : Coder := c <| base ::= g |>.

(** ** Members common to the three classes *)

Definition Coder_memResponse (isRead : bool) (c : Coder) : Coder :=
  upd_base IP_memResponse (if isRead then c <| currInBuffer ::= Z.succ |> else c).

(** The data of a cycle is taken into the compute units for [latency] cycles. *)
Definition take_line (latency : Z) (c : Coder) : Coder :=
  upd_base (fun ip => ip <| ip_cyclesToSkip := latency |> <| reqSent ::= Z.pred |>)
    (c <| currInBuffer ::= Z.pred |>).

(** The frame is set up; [out_addr] is where its output goes. *)
Definition start_frame (size : Z) (c : Coder) : Res Coder :=
  let c := upd_base (upd_stats (fun s => s <| m_IPMemStallsFrame := 0 |>)) c in
  if negb (bool_decide (currInBuffer c = 0)) then Err (AssertFail "currInBuffer == 0")
  else if negb (bool_decide (currOutBuffer c = 0)) then Err (AssertFail "currOutBuffer == 0")
  else Ok (upd_base (fun ip => ip <| inputProcessedInCL := 0 |>
                                  <| inputToBeProcessedInCL := Z.quot size CACHE_LINE_SIZE |>
                                  <| reqSent := 0 |>) c).

Section Port.
Context {E : Type} {port : IPPort E}.

Definition Coder_init (c0 : Coder) (ty id : Z) (device : bool) (latency inBuf outBuf ratio chunk : Z)
    (freq : spec_float) (opt_freq : Z) (e : E) : Res (Coder * E) :=
  '(ip, e) ← GemDroidIP_init (base c0) ty id device 0 freq opt_freq e;
  Ok (mkCoder (ip <| targetOutputChunkSizeInCL := chunk |>) latency inBuf outBuf 0 0 ratio, e).

Definition sendDataOut (c : Coder) (e : E) : Coder * E :=
  let ip := base c in
  if bool_decide (currOutBuffer c > 0) then
    let '(ok, e) := enqueueMem e (ip_type ip) (ip_id ip) (ip_core_id ip) (u64 (m_reqOutAddr ip)) false in
    if (ok : bool)
    then (upd_base (fun ip => upd_stats (fun s => s <| m_MemReqs ::= Z.succ |>)
                                (ip <| m_reqOutAddr ::= fun a => a + CACHE_LINE_SIZE |>))
            (c <| currOutBuffer ::= Z.pred |>), e)
    else (upd_base (upd_stats (fun s => s <| ip_memRejected ::= Z.succ |>)) c, e)
  else (c, e).

Definition requestData (c : Coder) (e : E) : Coder * E :=
  if bool_decide (m_reqCount (base c) > 0) && bool_decide (reqSent (base c) < inBufferSize c) then
    let '(ok, ip, e) := sendMemoryReq (base c) e in
    (c <| base := if (ok : bool) then ip <| reqSent ::= Z.succ |> else ip |>, e)
  else (c, e).

(** The end of a tick: the frame is complete when all input is processed and
    all output is sent. *)
Definition finish_frame (c : Coder) (e : E) : Res (Coder * E) :=
  let ip := base c in
  if bool_decide (inputProcessedInCL ip = inputToBeProcessedInCL ip) && bool_decide (currOutBuffer c = 0)
  then
    e ← completeFrame e (ip_type ip) (ip_id ip) (ip_core_id ip) (m_frameNum ip) (m_flowType ip) (m_flowId ip);
    Ok (upd_base (fun ip => ip <| is_busy := false |>) c, e)
  else Ok (c, e).

(** The ticks begin alike: the flag says whether the cycle works on a frame. *)
Definition begin_tick (c : Coder) (e : E) : Res (bool * Coder * E) :=
  let ip := upd_stats (fun s => s <| ip_ticks ::= Z.succ |>) (base c) in
  '(go, ip, e) ← updatePower ip e;
  if negb go then Ok (false, c <| base := ip |>, e)
  else if negb (bool_decide (power_state ip = ip_active)) then Err (AssertFail "isPStateActive()")
  else if negb (is_busy ip) then Ok (false, c <| base := ip <| idleCycles ::= Z.succ |> |>, e)
  else Ok (true, c <| base := upd_stats (fun s => s <| m_IPWorkingCycles ::= Z.succ |>) ip |>, e).

(** A call; [set_out] records where the class writes its output. *)
Definition Coder_enqueueIPReq (set_out : GemDroidIP -> GemDroidIP) (c : Coder) (e : E)
    (core_id addr size : Z) (isRead : bool) (frameNum flowType flowId : Z) : Res (bool * Coder * E) :=
  let '(ok, ip, e) := IP_enqueueIPReq (base c) e core_id addr size isRead frameNum flowType flowId in
  if (ok : bool)
  then c ← start_frame size (c <| base := set_out ip |>); Ok (true, c, e)
  else Ok (false, c <| base := ip |>, e).

End Port.

(** ** [GemDroidIPNocoder] *)

Module Nocoder.
Section Port.
Context {E : Type} {port : IPPort E}.

Definition set_out (ip : GemDroidIP) : GemDroidIP :=
  if bool_decide (ip_type ip = IP_TYPE_IMG) then ip <| m_reqOutAddr := IMG_ADDR_START + FRAME_SIZE |> else ip.

Definition enqueueIPReq := Coder_enqueueIPReq set_out.

(** The flag says that something was processed. *)
Definition process (c : Coder) : bool * Coder :=
  let ip := base c in
  if bool_decide (currOutBuffer c + targetOutputChunkSizeInCL ip > outBufferSize c) then (false, c)
  else if bool_decide (ip_cyclesToSkip ip > 0) then
    let c := upd_base (fun ip => ip <| ip_cyclesToSkip ::= Z.pred |>) c in
    if bool_decide (ip_cyclesToSkip (base c) = 0) then
      let c := upd_base (fun ip => ip <| inputProcessedInCL ::= Z.succ |>) c in
      if bool_decide (Z.rem (inputProcessedInCL (base c)) (targetOutputChunkSizeInCL (base c)) = 0)
      then (true, c <| currOutBuffer ::= Z.add (targetOutputChunkSizeInCL (base c)) |>)
      else (true, c)
    else (true, c)
  else if bool_decide (currInBuffer c > 0) then (true, take_line (computeLatency c) c)
  else (false, c).

Definition tick (c : Coder) (e : E) : Res (Coder * E) :=
  '(go, c, e) ← begin_tick c e;
  if negb go then Ok (c, e)
  else
    let '(c, e) := sendDataOut c e in
    let '(c, e) := requestData c e in
    let '(is_success, c) :=
      if bool_decide (inputProcessedInCL (base c) < inputToBeProcessedInCL (base c)) then process c else (false, c) in
    '(c, e) ← finish_frame c e;
    Ok (if (is_success : bool) then c else upd_base (upd_stats (fun s => s <| m_IPMemStalls ::= Z.succ |>)) c, e).

End Port.
End Nocoder.

(** ** [GemDroidIPEncoder] *)

Module Encoder.
Section Port.
Context {E : Type} {port : IPPort E}.

Definition set_out (ip : GemDroidIP) : GemDroidIP :=
  if bool_decide (ip_type ip = IP_TYPE_VE) then ip <| m_reqOutAddr := VE_ADDR_START + FRAME_SIZE |>
  else if bool_decide (ip_type ip = IP_TYPE_AE) then ip <| m_reqOutAddr := AE_ADDR_START + AUD_FRAME_SIZE |>
  else ip.

Definition enqueueIPReq := Coder_enqueueIPReq set_out.

Definition process (c : Coder) : bool * Coder :=
  let ip := base c in
  if bool_decide (currOutBuffer c + targetOutputChunkSizeInCL ip > outBufferSize c) then (false, c)
  else if bool_decide (ip_cyclesToSkip ip > 0) then
    let c := upd_base (fun ip => ip <| ip_cyclesToSkip ::= Z.pred |>) c in
    if bool_decide (ip_cyclesToSkip (base c) = 0) then
      let c := upd_base (fun ip => ip <| inputProcessedInCL ::= Z.succ |>) c in
      if bool_decide (Z.rem (inputProcessedInCL (base c)) (targetOutputChunkSizeInCL (base c) * coding_ratio c) = 0)
      then (true, c <| currOutBuffer ::= Z.add (targetOutputChunkSizeInCL (base c)) |>)
      else (true, c)
    else (true, c)
  else if bool_decide (currInBuffer c > 0)
  then (true, take_line (Z.quot (computeLatency c) (coding_ratio c)) c)
  else (false, c).

Definition tick (c : Coder) (e : E) : Res (Coder * E) :=
  '(go, c, e) ← begin_tick c e;
  if negb go then Ok (c, e)
  else
    let '(c, e) := sendDataOut c e in
    let '(c, e) := requestData c e in
    let '(is_success, c) :=
      if bool_decide (inputProcessedInCL (base c) < inputToBeProcessedInCL (base c)) then process c else (false, c) in
    '(c, e) ← finish_frame c e;
    Ok (if (is_success : bool) then c else upd_base (upd_stats (fun s => s <| m_IPMemStalls ::= Z.succ |>)) c, e).

End Port.
End Encoder.

(** ** [GemDroidIPDecoder] *)

Module Decoder.

(** [enum FrameType]; only two are used. *)
Inductive FrameType := I_Frame | P_Frame | B_Frame.

Record Decoder := mkDecoder {
  coder : Coder;
  m_frameType : FrameType;
  m_dependenceCount : Z;
  m_dependenceAddr : Z;
  m_IPMemOutStall : Z;
  m_IPMemInStalls : Z;
  m_IPDataReadIntoIP : Z;
  m_IPTrueProcessCycles : Z
}.

#[export] Instance eta_Decoder : Settable Decoder := fun r =>
  mkDecoder (coder r) (m_frameType r) (m_dependenceCount r) (m_dependenceAddr r) (m_IPMemOutStall r)
    (m_IPMemInStalls r) (m_IPDataReadIntoIP r) (m_IPTrueProcessCycles r).

#[export] Instance set_coder : Setter coder := ltac:(mk_setter).
#[export] Instance set_m_frameType : Setter m_frameType := ltac:(mk_setter).
#[export] Instance set_m_dependenceCount : Setter m_dependenceCount := ltac:(mk_setter).
#[export] Instance set_m_dependenceAddr : Setter m_dependenceAddr := ltac:(mk_setter).
#[export] Instance set_m_IPMemOutStall : Setter m_IPMemOutStall := ltac:(mk_setter).
#[export] Instance set_m_IPMemInStalls : Setter m_IPMemInStalls := ltac:(mk_setter).
#[export] Instance set_m_IPDataReadIntoIP : Setter m_IPDataReadIntoIP := ltac:(mk_setter).
#[export] Instance set_m_IPTrueProcessCycles : Setter m_IPTrueProcessCycles := ltac:(mk_setter).

Definition upd_coder (g : Coder -> Coder) (d : Decoder) : Decoder := d <| coder ::= g |>.

Definition memResponse (isRead : bool) (d : Decoder) : Decoder := upd_coder (Coder_memResponse isRead) d.

(** [(size * 0.4) / CACHE_LINE_SIZE] and [m_reqCount * 0.6], rounded up. *)
Definition dependence_lines (size : Z) : Z :=
  F64.ceil (F64.div (F64.mul (F64.of_Z size) (F64.lit 4 10)) (F64.of_Z CACHE_LINE_SIZE)).
Definition frame_lines (lines : Z) : Z := F64.ceil (F64.mul (F64.of_Z lines) (F64.lit 6 10)).

(** The frame type, the dependences and the output address. *)
Definition set_frame (size frameNum : Z) (d : Decoder) : Decoder :=
  let ip := base (coder d) in
  if bool_decide (ip_type ip = IP_TYPE_VD) then
    let d := upd_coder (upd_base (fun ip => ip <| m_reqOutAddr := VD_ADDR_START + FRAME_SIZE |>)) d in
    if bool_decide (Z.rem frameNum FRACTION_OF_IFRAMES = 0) then d <| m_frameType := I_Frame |>
    else
      upd_coder (upd_base (fun ip => ip <| m_reqCount ::= frame_lines |>))
        (d <| m_frameType := P_Frame |> <| m_dependenceCount := dependence_lines size |>
           <| m_dependenceAddr := VD_ADDR_START + 2 * FRAME_SIZE |>)
  else if bool_decide (ip_type ip = IP_TYPE_AD)
  then upd_coder (upd_base (fun ip => ip <| m_reqOutAddr := AD_ADDR_START + AUD_FRAME_SIZE |>)) d
  else d.

(** One cycle of the compute units. *)
Definition process (c : Coder) : process_event * Coder :=
  let ip := base c in
  if bool_decide (currOutBuffer c + coding_ratio c > outBufferSize c) then (OUT_BUFFER_FULL, c)
  else if bool_decide (ip_cyclesToSkip ip > 0) then
    let c := upd_base (fun ip => ip <| ip_cyclesToSkip ::= Z.pred |>) c in
    if bool_decide (ip_cyclesToSkip (base c) = 0)
    then (TRUE_PROCESS_CYCLE,
          upd_base (fun ip => ip <| inputProcessedInCL ::= Z.succ |>) (c <| currOutBuffer ::= Z.add (coding_ratio c) |>))
    else (TRUE_PROCESS_CYCLE, c)
  else if bool_decide (currInBuffer c > 0) then (INBUFFER_DATA_RECVD, take_line (computeLatency c) c)
  else (IN_BUFFER_EMPTY, c).

(** The event is counted. *)
Definition count_event (ev : process_event) (d : Decoder) : Decoder :=
  match ev with
  | OUT_BUFFER_FULL => d <| m_IPMemOutStall ::= Z.succ |>
  | IN_BUFFER_EMPTY => d <| m_IPMemInStalls ::= Z.succ |>
  | INBUFFER_DATA_RECVD => d <| m_IPDataReadIntoIP ::= Z.succ |>
  | TRUE_PROCESS_CYCLE => d <| m_IPTrueProcessCycles ::= Z.succ |>
  end.

Section Port.
Context {E : Type} {port : IPPort E}.

Definition init (d0 : Decoder) (ty id : Z) (device : bool) (latency inBuf outBuf ratio chunk : Z)
    (freq : spec_float) (opt_freq : Z) (e : E) : Res (Decoder * E) :=
  '(c, e) ← Coder_init (coder d0) ty id device latency inBuf outBuf ratio chunk freq opt_freq e;
  Ok (d0 <| coder := c |> <| m_IPMemOutStall := 0 |> <| m_IPMemInStalls := 0 |>
         <| m_IPDataReadIntoIP := 0 |> <| m_IPTrueProcessCycles := 0 |>, e).

Definition enqueueIPReq (d : Decoder) (e : E) (core_id addr size : Z) (isRead : bool)
    (frameNum flowType flowId : Z) : Res (bool * Decoder * E) :=
  let '(ok, ip, e) := IP_enqueueIPReq (base (coder d)) e core_id addr size isRead frameNum flowType flowId in
  let d := upd_coder (fun c => c <| base := ip |>) d in
  if (ok : bool)
  then
    let d := set_frame size frameNum d in
    c ← start_frame size (coder d); Ok (true, d <| coder := c |>, e)
  else Ok (false, d, e).

Definition requestDependentData (d : Decoder) (e : E) : Decoder * E :=
  let ip := base (coder d) in
  if bool_decide (reqSent ip >= inBufferSize (coder d)) then (d, e)
  else
    let '(ok, e) := enqueueMem e (ip_type ip) (ip_id ip) (ip_core_id ip) (u64 (m_dependenceAddr d)) true in
    if (ok : bool)
    then (upd_coder (upd_base (fun ip => IPActivityUpdate (upd_stats (fun s => s <| m_MemReqs ::= Z.succ |>)
                                           (ip <| reqSent ::= Z.succ |>))))
            (d <| m_dependenceCount ::= Z.pred |> <| m_dependenceAddr ::= fun a => a + CACHE_LINE_SIZE |>), e)
    else (upd_coder (upd_base (upd_stats (fun s => s <| ip_memRejected ::= Z.succ |>))) d, e).

(** [is_success] is only assigned when [process] is called; [uninit] is the
    value it has otherwise. *)
Definition tick (uninit : process_event) (d : Decoder) (e : E) : Res (Decoder * E) :=
  '(go, c, e) ← begin_tick (coder d) e;
  let d := d <| coder := c |> in
  if negb go then Ok (d, e)
  else
    let '(c, e) := sendDataOut (coder d) e in
    let d := d <| coder := c |> in
    let '(d, e) :=
      if bool_decide (m_dependenceCount d > 0) then requestDependentData d e
      else let '(c, e) := requestData (coder d) e in (d <| coder := c |>, e) in
    let '(is_success, c) :=
      if bool_decide (inputProcessedInCL (base (coder d)) < inputToBeProcessedInCL (base (coder d)))
      then process (coder d) else (uninit, coder d) in
    '(c, e) ← finish_frame c e;
    Ok (count_event is_success (d <| coder := c |>), e).
End Port.
End Decoder.
