(* ===== verification/CoderSafety.v ===== *)
(** * A frame through an accelerator

    Between a call and its completion an accelerator reads each line of its
    input once, processes the lines it got, writes what it produced, never
    overruns a buffer, and reports completion once, with its buffers empty, so
    that the assertions of the next call hold. One invariant serves the three
    classes; they differ in what a processed line produces. *)

From stdpp Require Import relations.
From S2P Require Import Prelude.
From S2P Require Import DramConfig.
From S2P Require Import GemDefines.
From S2P Require Import Ip.
From S2P Require Import DeviceSafety.
From S2P Require Import Coders.

(** The reads, and the writes, among the requests. *)
Definition reads_of (l : list Request) : list Request := filter (fun r => r.2 = true) l.
Definition writes_of (l : list Request) : list Request := filter (fun r => r.2 = false) l.

Lemma reads_of_snoc l ty id core addr rd :
  reads_of (l ++ [(ty, id, core, addr, rd)]) = reads_of l ++ (if rd then [(ty, id, core, addr, rd)] else []).
Proof. unfold reads_of. rewrite filter_app. by destruct rd. Qed.

Lemma writes_of_snoc l ty id core addr rd :
  writes_of (l ++ [(ty, id, core, addr, rd)]) = writes_of l ++ (if rd then [] else [(ty, id, core, addr, rd)]).
Proof. unfold writes_of. rewrite filter_app. by destruct rd. Qed.

(** What a frame asks of an accelerator: who asks, the number of lines, how
    many come from the reference frame ([ref_lines] at [ref_addr]) and how
    many from the call's buffer, where the output goes, what the first [p]
    lines produce, and the sizes of the buffers. *)
Record Frame := mkFrame {
  f_type : Z;
  f_id : Z;
  f_core : Z;
  f_frame : Z;
  f_flowType : Z;
  f_flowId : Z;
  f_addr : Z;
  f_ref_addr : Z;
  f_out_addr : Z;
  f_lines : Z;
  f_ref_lines : Z;
  f_produced : Z -> Z;
  f_room : Z;
  f_inBuf : Z;
  f_outBuf : Z;
  f_latency : Z;
  f_ratio : Z;
  f_chunk : Z
}.

(** A line produces at most what the compute units make room for. *)
Record frame_ok (f : Frame) : Prop := {
  fr_lines : 0 <= f_ref_lines f /\ f_ref_lines f <= f_lines f;
  fr_zero : f_produced f 0 = 0;
  fr_step p : 0 <= p -> 0 <= f_produced f (p + 1) - f_produced f p <= f_room f;
  fr_inBuf : 0 <= f_inBuf f;
  fr_outBuf : 0 <= f_outBuf f
}.

(** How far a frame has come: lines of the reference and of the buffer
    requested, lines received, taken into the compute units and processed,
    and lines written. *)
Record Progress := mkProgress { p_ref : Z; p_req : Z; p_recv : Z; p_taken : Z; p_proc : Z; p_written : Z }.

Definition requested (g : Progress) : Z := p_ref g + p_req g.

Record progress_ok (f : Frame) (g : Progress) : Prop := {
  pg_ref : 0 <= p_ref g <= f_ref_lines f;
  pg_req : 0 <= p_req g <= f_lines f - f_ref_lines f;
  pg_order : 0 < p_req g -> p_ref g = f_ref_lines f;
  pg_chain : 0 <= p_proc g /\ p_proc g <= p_taken g <= p_proc g + 1 /\ p_taken g <= p_recv g <= requested g;
  pg_out : 0 <= p_written g <= f_produced f (p_proc g) /\ f_produced f (p_proc g) - p_written g <= f_outBuf f;
  pg_in : requested g - p_taken g <= f_inBuf f
}.

Definition f_burst (f : Frame) (start : Z) (rd : bool) (k : Z) : list Request :=
  burst (f_type f) (f_id f) (f_core f) start rd k.

Section Frames.
Context {E : Type} {port : IPPort E} {laws : IPPortLaws E}.

(** The registers that name the frame and do not change during it. *)
Record frame_regs (f : Frame) (c : Coder) : Prop := {
  rg_type : ip_type (base c) = f_type f;
  rg_id : ip_id (base c) = f_id f;
  rg_core : ip_core_id (base c) = f_core f;
  rg_frame : m_frameNum (base c) = f_frame f;
  rg_flowType : m_flowType (base c) = f_flowType f;
  rg_flowId : m_flowId (base c) = f_flowId f;
  rg_isRead : m_isRead (base c) = true;
  rg_target : inputToBeProcessedInCL (base c) = f_lines f;
  rg_inBuf : inBufferSize c = f_inBuf f;
  rg_outBuf : outBufferSize c = f_outBuf f;
  rg_latency : computeLatency c = f_latency f;
  rg_ratio : coding_ratio c = f_ratio f;
  rg_chunk : targetOutputChunkSizeInCL (base c) = f_chunk f;
  rg_ioLatency : ioLatency (base c) = 0;
  rg_kind : kind_ok (base c);
  rg_power : power_ok (base c)
}.

(** The counters of the code say how far the frame is. *)
Record counters (f : Frame) (g : Progress) (c : Coder) : Prop := {
  ct_req : m_reqCount (base c) = f_lines f - f_ref_lines f - p_req g;
  ct_addr : m_reqAddr (base c) = u64 (f_addr f + CACHE_LINE_SIZE * p_req g);
  ct_sent : reqSent (base c) = requested g - p_taken g;
  ct_in : currInBuffer c = p_recv g - p_taken g;
  ct_proc : inputProcessedInCL (base c) = p_proc g;
  ct_out : currOutBuffer c = f_produced f (p_proc g) - p_written g;
  ct_outAddr : m_reqOutAddr (base c) = f_out_addr f + CACHE_LINE_SIZE * p_written g;
  ct_skip : (p_taken g = p_proc g /\ ip_cyclesToSkip (base c) = 0) \/
            (p_taken g = p_proc g + 1 /\ 0 < ip_cyclesToSkip (base c))
}.

(** What the platform saw of the frame. *)
Record frame_trace (f : Frame) (e0 : E) (g : Progress) (e : E) : Prop := {
  ft_reads : reads_of (sent e) = reads_of (sent e0)
    ++ f_burst f (f_ref_addr f) true (p_ref g) ++ f_burst f (f_addr f) true (p_req g);
  ft_writes : writes_of (sent e) = writes_of (sent e0) ++ f_burst f (f_out_addr f) false (p_written g)
}.

Record working (f : Frame) (e0 : E) (g : Progress) (c : Coder) (e : E) : Prop := {
  wk_regs : frame_regs f c;
  wk_busy : is_busy (base c) = true;
  wk_awake : awake (base c);
  wk_progress : progress_ok f g;
  wk_counters : counters f g c;
  wk_trace : frame_trace f e0 g e;
  wk_completions : completions e = completions e0
}.

(** The progress of a frame that is complete. *)
Definition all_done (f : Frame) (g : Progress) : Prop :=
  p_ref g = f_ref_lines f /\ p_req g = f_lines f - f_ref_lines f /\ p_recv g = f_lines f /\
  p_proc g = f_lines f /\ p_written g = f_produced f (f_lines f).

Record finished (f : Frame) (e0 : E) (g : Progress) (c : Coder) (e : E) : Prop := {
  fn_regs : frame_regs f c;
  fn_busy : is_busy (base c) = false;
  fn_progress : progress_ok f g;
  fn_all : all_done f g;
  fn_in : currInBuffer c = 0;
  fn_out : currOutBuffer c = 0;
  fn_trace : frame_trace f e0 g e;
  fn_completions : completions e = completions e0 ++
    [(f_type f, f_id f, f_core f, f_frame f, f_flowType f, f_flowId f)]
}.

(** ** Changes that leave the frame alone *)

Record same_frame (c c' : Coder) : Prop := {
  sf_base : same_work (base c) (base c');
  sf_in : inBufferSize c' = inBufferSize c;
  sf_out : outBufferSize c' = outBufferSize c;
  sf_latency : computeLatency c' = computeLatency c;
  sf_ratio : coding_ratio c' = coding_ratio c;
  sf_cin : currInBuffer c' = currInBuffer c;
  sf_cout : currOutBuffer c' = currOutBuffer c
}.

Lemma regs_same f c c' :
  same_frame c c' ->
  power_ok (base c') -> frame_regs f c -> frame_regs f c'.
Proof.
  intros [Hs H1 H2 H3 H4 H5 H6] Hp Hr. pose proof (rg_kind _ _ Hr) as Hk. assert (kind_ok (base c')) as Hk'.
  { unfold kind_ok in *. by rewrite (sw_device _ _ Hs), (sw_type _ _ Hs). }
  destruct Hs, Hr. constructor; try congruence; done.
Qed.

Lemma working_same f e0 g c c' e e' :
  same_frame c c' -> power_ok (base c') -> awake (base c') -> same_trace e e' ->
  working f e0 g c e -> working f e0 g c' e'.
Proof.
  intros Hsf Hp Ha [T1 T2] [Hr Hbu _ Hpr Hc [Ht1 Ht2] Hcm].
  pose proof (regs_same f c c' Hsf Hp Hr). destruct Hsf as [Hb H1 H2 H3 H4 H5 H6], Hb. constructor; try congruence.
  - destruct Hc. constructor; congruence.
  - constructor; congruence.
Qed.

Lemma finished_same f e0 g c c' e e' :
  same_frame c c' -> power_ok (base c') -> same_trace e e' -> finished f e0 g c e -> finished f e0 g c' e'.
Proof.
  intros Hsf Hp [T1 T2] [Hr Hbu Hpg Ha Hi Ho [Ht1 Ht2] Hcm].
  pose proof (regs_same f c c' Hsf Hp Hr). destruct Hsf as [Hb H1 H2 H3 H4 H5 H6], Hb. constructor; try congruence. constructor; congruence.
Qed.

Lemma same_frame_base c ip : same_work (base c) ip -> same_frame c (c <| base := ip |>).
Proof. intros H. by constructor. Qed.

Lemma same_trace_refl e : same_trace e e.
Proof. by constructor. Qed.

(** The ticks begin with the power states and the test of [is_busy]. *)
Lemma begin_tick_working f e0 g c e :
  working f e0 g c e -> exists go c' e', begin_tick c e = Ok (go, c', e') /\ working f e0 g c' e' /\
    (go = true -> power_state (base c') = ip_active).
Proof.
  intros Hw. unfold begin_tick. set (ip := upd_stats _ (base c)).
  assert (same_work (base c) ip) as Hs0 by by constructor.
  destruct (updatePower_ok ip e) as (go & ip1 & e1 & -> & Hs & Ht & Hp & Hact & Haw & _);
    [apply (rg_kind _ _ (wk_regs _ _ _ _ _ Hw)) | apply (rg_power _ _ (wk_regs _ _ _ _ _ Hw)) |].
  cbn [mbind Res_bind]. specialize (Haw (wk_awake _ _ _ _ _ Hw)). pose proof (same_work_trans _ _ _ Hs0 Hs) as Hs1.
  assert (is_busy ip1 = true) as Hb by (rewrite (sw_busy _ _ Hs1); apply Hw).
  destruct go; cbn [negb].
  - rewrite bool_decide_true by auto. cbn [negb]. rewrite Hb. cbn [negb]. do 3 eexists. split; [reflexivity|].
    split; [|auto]. apply (working_same _ _ _ c _ e); [apply same_frame_base | done | done | done | done].
    by apply (same_work_trans _ ip1).
  - do 3 eexists. split; [reflexivity|]. split; [|done].
    apply (working_same _ _ _ c _ e); [by apply same_frame_base | done | done | done | done].
Qed.

Lemma begin_tick_finished f e0 g c e :
  finished f e0 g c e -> exists c' e', begin_tick c e = Ok (false, c', e') /\ finished f e0 g c' e'.
Proof.
  intros Hf. unfold begin_tick. set (ip := upd_stats _ (base c)).
  assert (same_work (base c) ip) as Hs0 by by constructor.
  destruct (updatePower_ok ip e) as (go & ip1 & e1 & -> & Hs & Ht & Hp & Hact & _);
    [apply (rg_kind _ _ (fn_regs _ _ _ _ _ Hf)) | apply (rg_power _ _ (fn_regs _ _ _ _ _ Hf)) |].
  cbn [mbind Res_bind]. pose proof (same_work_trans _ _ _ Hs0 Hs) as Hs1.
  assert (is_busy ip1 = false) as Hb by (rewrite (sw_busy _ _ Hs1); apply Hf).
  destruct go; cbn [negb].
  - rewrite bool_decide_true by auto. cbn [negb]. rewrite Hb. cbn [negb]. do 2 eexists. split; [reflexivity|].
    apply (finished_same _ _ _ c _ e); [apply same_frame_base | done | done | done].
    by apply (same_work_trans _ ip1).
  - do 2 eexists. split; [reflexivity|].
    apply (finished_same _ _ _ c _ e); [by apply same_frame_base | done | done | done].
Qed.

(** One more write of the output. *)
Lemma wrote_trace f e0 g e e1 c :
  frame_regs f c -> counters f g c -> frame_trace f e0 g e -> 0 <= p_written g ->
  sent e1 = sent e ++ [(ip_type (base c), ip_id (base c), ip_core_id (base c), u64 (m_reqOutAddr (base c)), false)] ->
  frame_trace f e0 (mkProgress (p_ref g) (p_req g) (p_recv g) (p_taken g) (p_proc g) (p_written g + 1)) e1.
Proof.
  intros Hr Hc [T1 T2] Hw Hs. constructor; rewrite Hs, ?reads_of_snoc, ?writes_of_snoc; cbn.
  - by rewrite app_nil_r.
  - rewrite T2, <- app_assoc. f_equal. unfold f_burst. rewrite burst_snoc by done.
    by rewrite (rg_type _ _ Hr), (rg_id _ _ Hr), (rg_core _ _ Hr), (ct_outAddr _ _ _ Hc).
Qed.

Lemma sendDataOut_ok f e0 g c e :
  working f e0 g c e -> exists g', working f e0 g' (sendDataOut c e).1 (sendDataOut c e).2 /\
    p_recv g' = p_recv g /\ p_ref g' = p_ref g /\
    power_state (base (sendDataOut c e).1) = power_state (base c).
Proof.
  intros Hw. pose proof Hw as [Hr Hb Ha Hp Hc Ht Hcm]. unfold sendDataOut.
  destruct (bool_decide_reflect (currOutBuffer c > 0)) as [Hpos|]; [|by exists g].
  pose proof (enqueueMem_law e (ip_type (base c)) (ip_id (base c)) (ip_core_id (base c)) (u64 (m_reqOutAddr (base c))) false) as Hlaw.
  destruct (enqueueMem e _ _ _ _ _) as [ok e1]. destruct Hlaw as [L1 L2]. destruct ok; cbn [fst snd].
  - pose proof Hp as [G1 G2 G3 G4 G5 G6]. pose proof Hc as [C1 C2 C3 C4 C5 C6 C7 C8].
    exists (mkProgress (p_ref g) (p_req g) (p_recv g) (p_taken g) (p_proc g) (p_written g + 1)).
    split; [|done]. constructor; try done; [by destruct Hr | | | apply (wrote_trace f e0 g e e1 c); done || lia | by rewrite L2].
    + constructor; cbn; try done. lia.
    + constructor; cbn; try done; [lia|]. rewrite C7. lia.
  - rewrite app_nil_r in L1. exists g. split; [|done].
    apply (working_same _ _ _ c _ e); [by constructor | apply (rg_power _ _ Hr) | done | by constructor | done].
Qed.

(** One more read of the buffer. *)
Lemma requestData_ok f e0 g c e :
  p_ref g = f_ref_lines f -> working f e0 g c e -> exists g', working f e0 g' (requestData c e).1 (requestData c e).2 /\
    p_recv g' = p_recv g /\ p_ref g' = p_ref g /\ power_state (base (requestData c e).1) = power_state (base c).
Proof.
  intros Href Hw. pose proof Hw as [Hr Hb Ha Hp Hc Ht Hcm]. unfold requestData.
  destruct (bool_decide_reflect (m_reqCount (base c) > 0)) as [Hpos|]; [|by exists g].
  destruct (bool_decide_reflect (reqSent (base c) < inBufferSize c)) as [Hroom|]; [|by exists g]. cbn [andb].
  unfold sendMemoryReq.
  pose proof (enqueueMem_law e (ip_type (base c)) (ip_id (base c)) (ip_core_id (base c)) (m_reqAddr (base c)) (m_isRead (base c))) as Hlaw.
  destruct (enqueueMem e _ _ _ _ _) as [ok e1]. destruct Hlaw as [L1 L2]. destruct ok; cbn [fst snd].
  - pose proof Hp as [G1 G2 G3 G4 G5 G6]. pose proof Hc as [C1 C2 C3 C4 C5 C6 C7 C8]. unfold requested in *.
    rewrite C1 in Hpos. rewrite C3, (rg_inBuf _ _ Hr) in Hroom.
    exists (mkProgress (p_ref g) (p_req g + 1) (p_recv g) (p_taken g) (p_proc g) (p_written g)).
    split; [|done]. constructor; try done; [by destruct Hr | | | | by rewrite L2].
    + constructor; unfold requested; cbn; try done; lia.
    + constructor; unfold requested; cbn; try done; [lia | | lia].
      rewrite C2. unfold u64. rewrite Zplus_mod_idemp_l. f_equal. lia.
    + rewrite (rg_isRead _ _ Hr) in L1. destruct Ht as [T1 T2].
      constructor; rewrite L1, ?reads_of_snoc, ?writes_of_snoc; cbn; [|by rewrite app_nil_r].
      rewrite T1, <- !app_assoc. do 2 f_equal. unfold f_burst. rewrite burst_snoc by lia.
      by rewrite (rg_type _ _ Hr), (rg_id _ _ Hr), (rg_core _ _ Hr), C2.
  - rewrite app_nil_r in L1. exists g. split; [|done].
    apply (working_same _ _ _ c _ e); [by constructor | apply (rg_power _ _ Hr) | done | by constructor | done].
Qed.

(** ** One cycle of the compute units *)

(** The line in the compute units is done, and [d] lines of output with it. *)
Definition finish_line (d : Z) (c : Coder) : Coder :=
  upd_base (fun ip => ip <| ip_cyclesToSkip ::= Z.pred |> <| inputProcessedInCL ::= Z.succ |>)
    (c <| currOutBuffer ::= Z.add d |>).

(** What [process] of a class may do. *)
Inductive compute (f : Frame) (c : Coder) : Coder -> Prop :=
| compute_nothing : compute f c c
| compute_cycle :
    1 < ip_cyclesToSkip (base c) ->
    compute f c (upd_base (fun ip => ip <| ip_cyclesToSkip ::= Z.pred |>) c)
| compute_line :
    ip_cyclesToSkip (base c) = 1 -> currOutBuffer c + f_room f <= outBufferSize c ->
    compute f c (finish_line (f_produced f (inputProcessedInCL (base c) + 1) - f_produced f (inputProcessedInCL (base c))) c)
| compute_take latency :
    0 < latency -> ip_cyclesToSkip (base c) <= 0 -> 0 < currInBuffer c -> compute f c (take_line latency c).

Lemma compute_ok f e0 g c c' e :
  frame_ok f -> compute f c c' -> working f e0 g c e ->
  exists g', working f e0 g' c' e /\ p_recv g' = p_recv g /\ p_ref g' = p_ref g /\ p_req g' = p_req g /\
    power_state (base c') = power_state (base c).
Proof.
  intros Hf Hcomp Hw. pose proof Hw as [Hr Hb Ha [G1 G2 G3 G4 G5 G6] [C1 C2 C3 C4 C5 C6 C7 C8] [T1 T2] Hcm].
  destruct Hcomp as [|Hskip|Hskip Hroom|latency Hl Hskip Hin].
  - by exists g.
  - exists g. split; [|done]. constructor; try done; [by destruct Hr|]. constructor; try done. right. cbn. lia.
  - exists (mkProgress (p_ref g) (p_req g) (p_recv g) (p_taken g) (p_proc g + 1) (p_written g)). split; [|done].
    rewrite C6, (rg_outBuf _ _ Hr) in Hroom. pose proof (fr_step _ Hf (p_proc g) ltac:(lia)) as Hstep.
    constructor; try done; [by destruct Hr | |].
    + constructor; unfold requested in *; cbn in *; (done || lia).
    + constructor; unfold requested in *; cbn in *; try done; [lia | rewrite C5, C6; lia | lia].
  - exists (mkProgress (p_ref g) (p_req g) (p_recv g) (p_taken g + 1) (p_proc g) (p_written g)). split; [|done].
    constructor; try done; [by destruct Hr | |].
    + constructor; unfold requested in *; cbn in *; (done || lia).
    + constructor; unfold requested in *; cbn in *; (done || lia).
Qed.

(** ** The end of a tick *)

Lemma finish_frame_ok f e0 g c e :
  working f e0 g c e -> exists c' e', finish_frame c e = Ok (c', e') /\
    (working f e0 g c' e' \/ finished f e0 g c' e').
Proof.
  intros Hw. pose proof Hw as [Hr Hb Ha [G1 G2 G3 G4 G5 G6] [C1 C2 C3 C4 C5 C6 C7 C8] [T1 T2] Hcm].
  unfold finish_frame.
  destruct (bool_decide_reflect (inputProcessedInCL (base c) = inputToBeProcessedInCL (base c))) as [Hp|]; [|by eauto].
  destruct (bool_decide_reflect (currOutBuffer c = 0)) as [Ho|]; [|by eauto]. cbn [andb].
  destruct (completeFrame_law e (ip_type (base c)) (ip_id (base c)) (ip_core_id (base c)) (m_frameNum (base c))
    (m_flowType (base c)) (m_flowId (base c))) as (e' & -> & L1 & L2).
  cbn [mbind Res_bind]. do 2 eexists. split; [reflexivity|]. right.
  unfold requested in *. rewrite C5, (rg_target _ _ Hr) in Hp.
  constructor; cbn; try done.
  - by destruct Hr.
  - unfold all_done. rewrite <- Hp. lia.
  - lia.
  - constructor; by rewrite L1.
  - by rewrite L2, Hcm, (rg_type _ _ Hr), (rg_id _ _ Hr), (rg_core _ _ Hr), (rg_frame _ _ Hr), (rg_flowType _ _ Hr),
      (rg_flowId _ _ Hr).
Qed.

(** ** Responses *)

Lemma read_response_ok f e0 g c e :
  p_recv g < requested g -> working f e0 g c e ->
  working f e0 (mkProgress (p_ref g) (p_req g) (p_recv g + 1) (p_taken g) (p_proc g) (p_written g))
    (Coder_memResponse true c) e.
Proof.
  intros Hlt [Hr Hb Ha [G1 G2 G3 G4 G5 G6] [C1 C2 C3 C4 C5 C6 C7 C8] [T1 T2] Hcm]. unfold requested in *.
  constructor; try done; [by destruct Hr | |]; constructor; unfold requested; cbn; (done || lia).
Qed.

Lemma write_response_ok f e0 g c e :
  working f e0 g c e \/ finished f e0 g c e ->
  working f e0 g (Coder_memResponse false c) e \/ finished f e0 g (Coder_memResponse false c) e.
Proof.
  intros [[Hr Hb Ha Hp Hc Ht Hcm]|[Hr Hb Hpg Ha Hi Ho Ht Hcm]]; [left|right]; constructor; try done; (by destruct Hr) || (by destruct Hc).
Qed.
End Frames.

(** ** What the lines of each class produce *)

(** A chunk for every [step] lines. *)
Definition chunks (chunk step p : Z) : Z := chunk * (p / step).

Lemma chunks_next chunk step p :
  0 < step -> 0 <= p ->
  chunks chunk step (p + 1) - chunks chunk step p = if bool_decide (Z.rem (p + 1) step = 0) then chunk else 0.
Proof.
  intros Hs Hp. unfold chunks. rewrite Z.rem_mod_nonneg by lia.
  pose proof (Z.div_mod p step ltac:(lia)) as E1. pose proof (Z.div_mod (p + 1) step ltac:(lia)) as E2.
  pose proof (Z.mod_pos_bound p step Hs). pose proof (Z.mod_pos_bound (p + 1) step Hs).
  case_bool_decide as E.
  - assert ((p + 1) / step = p / step + 1) as -> by nia. lia.
  - assert ((p + 1) / step = p / step) as -> by nia. lia.
Qed.

(** The frame of an accelerator that reads its input from the call's buffer,
    and that of a decoder. *)
Record chunk_frame (f : Frame) (step : Z) : Prop := {
  cf_lines : 0 <= f_lines f;
  cf_ref : f_ref_lines f = 0;
  cf_produced : f_produced f = chunks (f_chunk f) step;
  cf_room : f_room f = f_chunk f;
  cf_chunk : 0 < f_chunk f;
  cf_step : 0 < step;
  cf_bufs : 0 <= f_inBuf f /\ 0 <= f_outBuf f
}.

Lemma chunk_frame_ok f step : chunk_frame f step -> frame_ok f.
Proof.
  intros [H1 H2 H3 H4 H5 H6 [H7 H8]]. constructor; try done.
  - lia.
  - rewrite H3. unfold chunks. rewrite Z.div_0_l by lia. lia.
  - intros p Hp. rewrite H3, H4, chunks_next by done. case_bool_decide; lia.
Qed.

Section Classes.
Context {E : Type} {port : IPPort E} {laws : IPPortLaws E}.

(** The cycle of the two classes that write chunks, with the number of lines
    [step] that a chunk takes and the cycles [latency] of a line. *)
Definition chunk_process (step latency : Z) (c : Coder) : bool * Coder :=
  let ip := base c in
  if bool_decide (currOutBuffer c + targetOutputChunkSizeInCL ip > outBufferSize c) then (false, c)
  else if bool_decide (ip_cyclesToSkip ip > 0) then
    let c := upd_base (fun ip => ip <| ip_cyclesToSkip ::= Z.pred |>) c in
    if bool_decide (ip_cyclesToSkip (base c) = 0) then
      let c := upd_base (fun ip => ip <| inputProcessedInCL ::= Z.succ |>) c in
      if bool_decide (Z.rem (inputProcessedInCL (base c)) step = 0)
      then (true, c <| currOutBuffer ::= Z.add (targetOutputChunkSizeInCL (base c)) |>)
      else (true, c)
    else (true, c)
  else if bool_decide (currInBuffer c > 0) then (true, take_line latency c)
  else (false, c).

Lemma Nocoder_process_chunk c :
  Nocoder.process c = chunk_process (targetOutputChunkSizeInCL (base c)) (computeLatency c) c.
Proof. reflexivity. Qed.

Lemma Encoder_process_chunk c :
  Encoder.process c =
  chunk_process (targetOutputChunkSizeInCL (base c) * coding_ratio c) (Z.quot (computeLatency c) (coding_ratio c)) c.
Proof. reflexivity. Qed.

Lemma chunk_process_ok f e0 g c e step latency :
  chunk_frame f step -> 0 < latency -> working f e0 g c e -> compute f c (chunk_process step latency c).2.
Proof.
  intros Hf Hl [Hr _ _ [_ _ _ G4 _ _] [_ _ _ _ C5 _ _ C8] _ _]. unfold chunk_process.
  destruct (bool_decide_reflect (currOutBuffer c + targetOutputChunkSizeInCL (base c) > outBufferSize c)) as [|Hroom];
    [constructor|].
  destruct (bool_decide_reflect (ip_cyclesToSkip (base c) > 0)) as [Hs|Hs].
  - destruct (bool_decide_reflect (ip_cyclesToSkip (base (upd_base (fun ip => ip <| ip_cyclesToSkip ::= Z.pred |>) c)) = 0))
      as [Hz|Hz]; cbn in Hz; [|constructor; lia].
    pose proof (chunks_next (f_chunk f) step (p_proc g) (cf_step _ _ Hf) ltac:(lia)) as Hd.
    assert (forall d, d = f_produced f (inputProcessedInCL (base c) + 1) - f_produced f (inputProcessedInCL (base c)) ->
      compute f c (finish_line d c)) as Hline.
    { intros d ->. constructor; [lia|]. rewrite (cf_room _ _ Hf), <- (rg_chunk _ _ Hr). lia. }
    rewrite (cf_produced _ _ Hf), C5, Hd in Hline.
    change (inputProcessedInCL (base (upd_base _ (upd_base _ c)))) with (Z.succ (inputProcessedInCL (base c))).
    rewrite C5. change (Z.succ (p_proc g)) with (p_proc g + 1).
    destruct (bool_decide (Z.rem (p_proc g + 1) step = 0)).
    + rewrite <- (rg_chunk _ _ Hr) in Hline. exact (Hline _ eq_refl).
    + exact (Hline 0 eq_refl).
  - destruct (bool_decide_reflect (currInBuffer c > 0)); [|constructor]. constructor; lia.
Qed.

(** The tick of the two classes. *)
Definition chunk_tick (process : Coder -> bool * Coder) (c : Coder) (e : E) : Res (Coder * E) :=
  '(go, c, e) ← begin_tick c e;
  if negb go then Ok (c, e)
  else
    let '(c, e) := sendDataOut c e in
    let '(c, e) := requestData c e in
    let '(is_success, c) :=
      if bool_decide (inputProcessedInCL (base c) < inputToBeProcessedInCL (base c)) then process c else (false, c) in
    '(c, e) ← finish_frame c e;
    Ok (if (is_success : bool) then c else upd_base (upd_stats (fun s => s <| m_IPMemStalls ::= Z.succ |>)) c, e).

Lemma Nocoder_tick_chunk c e : Nocoder.tick c e = chunk_tick Nocoder.process c e.
Proof. reflexivity. Qed.

Lemma Encoder_tick_chunk c e : Encoder.tick c e = chunk_tick Encoder.process c e.
Proof. reflexivity. Qed.

(** A frame under way or complete, with [r] of its lines received. *)
Definition in_frame (f : Frame) (e0 : E) (r : Z) (c : Coder) (e : E) : Prop :=
  exists g, p_recv g = r /\ (working f e0 g c e \/ finished f e0 g c e).

Lemma in_frame_stats f e0 r c e s :
  in_frame f e0 r c e -> in_frame f e0 r (upd_base (upd_stats s) c) e.
Proof.
  intros (g & Hr & [Hw|Hf]); exists g; (split; [done|]).
  - left. apply (working_same _ _ _ c _ e); [by constructor | apply (rg_power _ _ (wk_regs _ _ _ _ _ Hw)) |
      apply Hw | by constructor | done].
  - right. apply (finished_same _ _ _ c _ e); [by constructor | apply (rg_power _ _ (fn_regs _ _ _ _ _ Hf)) |
      by constructor | done].
Qed.

Lemma chunk_tick_ok f step process e0 r c e :
  chunk_frame f step ->
  (forall c, frame_regs f c -> exists latency, 0 < latency /\ process c = chunk_process step latency c) ->
  in_frame f e0 r c e -> exists c' e', chunk_tick process c e = Ok (c', e') /\ in_frame f e0 r c' e'.
Proof.
  intros Hf Hproc (g & Hg & [Hw|Hfin]); unfold chunk_tick.
  2: { destruct (begin_tick_finished _ _ _ _ _ Hfin) as (c1 & e1 & -> & H). cbn. do 2 eexists. split; [reflexivity|].
       exists g. auto. }
  destruct (begin_tick_working _ _ _ _ _ Hw) as (go & c1 & e1 & -> & Hw1 & _). cbn [mbind Res_bind].
  destruct go; cbn [negb]; [|do 2 eexists; split; [reflexivity|]; exists g; auto].
  destruct (sendDataOut_ok _ _ _ _ _ Hw1) as (g2 & Hw2 & R2 & _).
  destruct (sendDataOut c1 e1) as [c2 e2]. cbn [fst snd] in Hw2.
  assert (p_ref g2 = f_ref_lines f) as Href2.
  { pose proof (pg_ref _ _ (wk_progress _ _ _ _ _ Hw2)). rewrite (cf_ref _ _ Hf) in *. lia. }
  destruct (requestData_ok _ _ _ _ _ Href2 Hw2) as (g3 & Hw3 & R3 & _).
  destruct (requestData c2 e2) as [c3 e3]. cbn [fst snd] in Hw3.
  assert (exists ok c4 g4, (if bool_decide (inputProcessedInCL (base c3) < inputToBeProcessedInCL (base c3))
    then process c3 else (false, c3)) = (ok, c4) /\ working f e0 g4 c4 e3 /\ p_recv g4 = p_recv g3) as (ok & c4 & g4 & -> & Hw4 & R4).
  { case_bool_decide; [|by exists false, c3, g3].
    destruct (Hproc c3 (wk_regs _ _ _ _ _ Hw3)) as (latency & Hl & ->).
    destruct (compute_ok f e0 g3 c3 _ e3 (chunk_frame_ok _ _ Hf) (chunk_process_ok _ _ _ _ _ _ _ Hf Hl Hw3) Hw3)
      as (g4 & Hw4 & R4 & _).
    destruct (chunk_process step latency c3) as [ok c4]. by exists ok, c4, g4. }
  destruct (finish_frame_ok _ _ _ _ _ Hw4) as (c5 & e5 & -> & H5). cbn [mbind Res_bind].
  do 2 eexists. split; [reflexivity|]. assert (in_frame f e0 r c5 e5) as H6 by (exists g4; split; [lia | done]).
  destruct ok; [done | by apply in_frame_stats].
Qed.

(** ** Ticks of the classes *)

Lemma Nocoder_tick_ok f e0 r c e :
  chunk_frame f (f_chunk f) -> 0 < f_latency f -> in_frame f e0 r c e ->
  exists c' e', Nocoder.tick c e = Ok (c', e') /\ in_frame f e0 r c' e'.
Proof.
  intros Hf Hl H. rewrite Nocoder_tick_chunk. apply (chunk_tick_ok f (f_chunk f)); [done | | done].
  intros c1 Hr. exists (f_latency f). split; [done|]. by rewrite Nocoder_process_chunk, (rg_chunk _ _ Hr), (rg_latency _ _ Hr).
Qed.

Lemma Encoder_tick_ok f e0 r c e :
  chunk_frame f (f_chunk f * f_ratio f) -> 0 < Z.quot (f_latency f) (f_ratio f) -> in_frame f e0 r c e ->
  exists c' e', Encoder.tick c e = Ok (c', e') /\ in_frame f e0 r c' e'.
Proof.
  intros Hf Hl H. rewrite Encoder_tick_chunk. apply (chunk_tick_ok f (f_chunk f * f_ratio f)); [done | | done].
  intros c1 Hr. exists (Z.quot (f_latency f) (f_ratio f)). split; [done|].
  by rewrite Encoder_process_chunk, (rg_chunk _ _ Hr), (rg_latency _ _ Hr), (rg_ratio _ _ Hr).
Qed.
End Classes.

(** ** The call *)

(** An accelerator that is free, as [init] and every completed frame leave it. *)
Record coder_free (c : Coder) : Prop := {
  cf_busy : is_busy (base c) = false;
  cf_in : currInBuffer c = 0;
  cf_out : currOutBuffer c = 0;
  cf_latency : ioLatency (base c) = 0;
  cf_kind : kind_ok (base c);
  cf_power : power_ok (base c)
}.

(** What a call writes in a free IP. *)
Record called (ip : GemDroidIP) (core addr size frame flowType flowId : Z) (isRead : bool) (ip' : GemDroidIP) : Prop := {
  ca_type : ip_type ip' = ip_type ip;
  ca_id : ip_id ip' = ip_id ip;
  ca_core : ip_core_id ip' = core;
  ca_frame : m_frameNum ip' = frame;
  ca_flowType : m_flowType ip' = flowType;
  ca_flowId : m_flowId ip' = flowId;
  ca_isRead : m_isRead ip' = isRead;
  ca_busy : is_busy ip' = true;
  ca_req : m_reqCount ip' = ceil_lines size;
  ca_addr : m_reqAddr ip' = addr;
  ca_skip : ip_cyclesToSkip ip' = ioLatency ip * ceil_lines size;
  ca_out : m_reqOutAddr ip' = m_reqOutAddr ip;
  ca_chunk : targetOutputChunkSizeInCL ip' = targetOutputChunkSizeInCL ip;
  ca_ioLatency : ioLatency ip' = ioLatency ip;
  ca_kind : kind_ok ip';
  ca_power : power_ok ip';
  ca_awake : awake ip'
}.

Lemma called_same ip core addr size frame flowType flowId isRead ip1 ip2 :
  same_work ip1 ip2 -> power_ok ip2 -> awake ip2 ->
  called ip core addr size frame flowType flowId isRead ip1 -> called ip core addr size frame flowType flowId isRead ip2.
Proof.
  intros Hs Hp Ha Hc. pose proof (ca_kind _ _ _ _ _ _ _ _ _ Hc) as Hk. assert (kind_ok ip2) as Hk2.
  { unfold kind_ok in *. by rewrite (sw_device _ _ Hs), (sw_type _ _ Hs). }
  destruct Hs, Hc. constructor; try congruence; done.
Qed.

Lemma ceil_lines_mul n : ceil_lines (CACHE_LINE_SIZE * n) = n.
Proof. unfold ceil_lines. rewrite <- Z.mul_opp_r, Z.mul_comm, Z.div_mul by done. lia. Qed.

Section Calls.
Context {E : Type} {port : IPPort E} {laws : IPPortLaws E}.

Lemma IP_enqueueIPReq_called ip e core addr size frame flowType flowId isRead :
  is_busy ip = false -> kind_ok ip -> power_ok ip ->
  exists ip' e', IP_enqueueIPReq ip e core addr size isRead frame flowType flowId = (true, ip', e') /\
    same_trace e e' /\ called ip core addr size frame flowType flowId isRead ip'.
Proof.
  intros Hb Hk Hp. unfold IP_enqueueIPReq. rewrite Hb. cbn [negb]. cbv zeta. set (ip1 := upd_stats _ _).
  assert (forall ip', awake ip' -> power_ok ip' -> same_work ip1 ip' ->
    called ip core addr size frame flowType flowId isRead ip') as Hdone.
  { intros ip' Ha Hp' Hs. pose proof (sw_device _ _ Hs) as Hd. pose proof (sw_type _ _ Hs) as Ht.
    destruct Hs. constructor; try done. unfold kind_ok. by rewrite Hd, Ht. }
  destruct (bool_decide_reflect (power_state ip1 = ip_active)) as [Hact|Hact].
  - do 2 eexists. split; [reflexivity|]. split; [apply mark_same|]. apply Hdone; [|done|apply same_work_refl].
    left. split; [done|]. split; [|done]. destruct Hp as [Hp0 Hp1].
    change (cyclesToWake ip1) with (cyclesToWake ip). change (power_state ip1) with (power_state ip) in Hact.
    destruct (decide (cyclesToWake ip = 0)); [done|]. exfalso. apply Hp1; [lia | done].
  - do 2 eexists. split; [reflexivity|]. split; [by constructor|].
    destruct (wakeUp_work ip1) as [Hs Hwake]. destruct (Hwake Hact) as [W1 W2].
    apply Hdone; [by right | split; [lia | done] | done].
Qed.

(** The frame that a call of a chunk writer makes. *)
Definition frame_of (set_out : GemDroidIP -> GemDroidIP) (c : Coder) (step core addr n frame flowType flowId : Z) : Frame :=
  mkFrame (ip_type (base c)) (ip_id (base c)) core frame flowType flowId addr 0 (m_reqOutAddr (set_out (base c))) n 0
    (chunks (targetOutputChunkSizeInCL (base c)) step) (targetOutputChunkSizeInCL (base c))
    (inBufferSize c) (outBufferSize c) (computeLatency c) (coding_ratio c) (targetOutputChunkSizeInCL (base c)).

(** [set_out] writes the output address only, by the type of the IP. *)
Record sets_out (set_out : GemDroidIP -> GemDroidIP) : Prop := {
  so_only ip : exists a, set_out ip = ip <| m_reqOutAddr := a |>;
  so_type ip ip' : ip_type ip' = ip_type ip -> m_reqOutAddr ip' = m_reqOutAddr ip ->
    m_reqOutAddr (set_out ip') = m_reqOutAddr (set_out ip)
}.

Lemma working_start f e0 c e :
  frame_ok f -> frame_regs f c -> is_busy (base c) = true -> awake (base c) ->
  m_reqCount (base c) = f_lines f - f_ref_lines f -> m_reqAddr (base c) = u64 (f_addr f) -> reqSent (base c) = 0 ->
  currInBuffer c = 0 -> inputProcessedInCL (base c) = 0 -> currOutBuffer c = 0 -> m_reqOutAddr (base c) = f_out_addr f ->
  ip_cyclesToSkip (base c) = 0 -> same_trace e0 e ->
  working f e0 (mkProgress 0 0 0 0 0 0) c e.
Proof.
  intros Hf Hr Hb Ha H1 H2 H3 H4 H5 H6 H7 H8 [T1 T2]. pose proof Hf as [L Z0 _ I O].
  constructor; try done.
  - constructor; unfold requested; cbn; lia.
  - constructor; unfold requested; cbn; rewrite ?Z0, ?Z.add_0_r; (done || lia).
  - constructor; cbn; by rewrite T1, !app_nil_r.
Qed.

Lemma Coder_enqueueIPReq_ok set_out c e step core addr n frame flowType flowId :
  coder_free c -> sets_out set_out -> 0 <= n -> in_u64 addr ->
  chunk_frame (frame_of set_out c step core addr n frame flowType flowId) step ->
  exists c' e', Coder_enqueueIPReq set_out c e core addr (CACHE_LINE_SIZE * n) true frame flowType flowId = Ok (true, c', e') /\
    same_trace e e' /\ in_frame (frame_of set_out c step core addr n frame flowType flowId) e 0 c' e'.
Proof.
  intros [Hb Hin Hout Hl Hk Hp] Hso Hn Ha Hcf. unfold Coder_enqueueIPReq.
  destruct (IP_enqueueIPReq_called (base c) e core addr (CACHE_LINE_SIZE * n) frame flowType flowId true Hb Hk Hp)
    as (ip & e1 & -> & Ht & Hca).
  pose proof (so_type _ Hso (base c) ip (ca_type _ _ _ _ _ _ _ _ _ Hca) (ca_out _ _ _ _ _ _ _ _ _ Hca)) as Ho.
  destruct (so_only _ Hso ip) as (a & Ea). rewrite Ea in Ho |- *. cbn in Ho. unfold start_frame.
  rewrite !bool_decide_true by done. cbn [negb mbind Res_bind]. do 2 eexists. split; [reflexivity|]. split; [done|].
  exists (mkProgress 0 0 0 0 0 0). split; [done|]. left. destruct Hca. rewrite ceil_lines_mul in *.
  apply working_start; cbn; try done.
  - by apply (chunk_frame_ok _ step).
  - constructor; cbn; try done; [rewrite Z.mul_comm; by apply Z.quot_mul | by rewrite ca_ioLatency0].
  - lia.
  - by rewrite u64_small.
  - by rewrite ca_skip0, Hl.
Qed.
End Calls.

Lemma Nocoder_sets_out : sets_out Nocoder.set_out.
Proof.
  unfold Nocoder.set_out. split.
  - intros ip. case_bool_decide; [by eexists | exists (m_reqOutAddr ip)]. by destruct ip.
  - intros ip ip' E1 E2. rewrite E1. by case_bool_decide.
Qed.

Lemma Encoder_sets_out : sets_out Encoder.set_out.
Proof.
  unfold Encoder.set_out. split.
  - intros ip. repeat case_bool_decide; [by eexists.. | exists (m_reqOutAddr ip)]. by destruct ip.
  - intros ip ip' E1 E2. rewrite E1. by repeat case_bool_decide.
Qed.
