(* ===== verification/DecoderSafety.v ===== *)
(** * A frame through a decoder

    The invariant of [CoderSafety] for the decoder, whose predicted frames
    read part of their lines from a reference frame. *)

From stdpp Require Import relations.
From S2P Require Import Prelude.
From S2P Require Import DramConfig.
From S2P Require Import GemDefines.
From S2P Require Import Ip.
From S2P Require Import DeviceSafety.
From S2P Require Import Coders.
From S2P Require Import CoderSafety.

Section Decoders.
Context {E : Type} {port : IPPort E} {laws : IPPortLaws E}.
Import Decoder.

(** A decoder's frame: [coding_ratio] lines for each line. *)
Record decoder_frame (f : Frame) : Prop := {
  df_lines : 0 <= f_ref_lines f /\ f_ref_lines f <= f_lines f;
  df_produced : f_produced f = fun p => f_ratio f * p;
  df_room : f_room f = f_ratio f;
  df_ratio : 0 <= f_ratio f;
  df_latency : 0 < f_latency f;
  df_bufs : 0 <= f_inBuf f /\ 0 <= f_outBuf f
}.

Lemma decoder_frame_ok f : decoder_frame f -> frame_ok f.
Proof. intros [H1 H2 H3 H4 H5 [H6 H7]]. constructor; try done; rewrite ?H2, ?H3; intros; lia. Qed.

(** The lines of the reference still to be read, and where they are. *)
Record dependence_ok (f : Frame) (g : Progress) (d : Decoder) : Prop := {
  dp_count : Z.max 0 (m_dependenceCount d) = f_ref_lines f - p_ref g;
  dp_addr : p_ref g < f_ref_lines f -> m_dependenceAddr d = f_ref_addr f + CACHE_LINE_SIZE * p_ref g
}.

Definition decoder_in_frame (f : Frame) (e0 : E) (r : Z) (d : Decoder) (e : E) : Prop :=
  exists g, p_recv g = r /\ dependence_ok f g d /\ (working f e0 g (coder d) e \/ finished f e0 g (coder d) e).

Lemma decoder_process_ok f e0 g c e : decoder_frame f -> working f e0 g c e -> compute f c (process c).2.
Proof.
  intros Hf [Hr _ _ [_ _ _ G4 _ _] [_ _ _ _ C5 _ _ C8] _ _]. unfold process.
  destruct (bool_decide_reflect (currOutBuffer c + coding_ratio c > outBufferSize c)) as [|Hroom]; [constructor|].
  destruct (bool_decide_reflect (ip_cyclesToSkip (base c) > 0)) as [Hs|Hs].
  - destruct (bool_decide_reflect (ip_cyclesToSkip (base (upd_base (fun ip => ip <| ip_cyclesToSkip ::= Z.pred |>) c)) = 0))
      as [Hz|Hz]; cbn in Hz; [|constructor; lia].
    assert (compute f c (finish_line (f_produced f (inputProcessedInCL (base c) + 1) - f_produced f (inputProcessedInCL (base c))) c)) as Hline.
    { constructor; [lia|]. rewrite (df_room _ Hf), <- (rg_ratio _ _ Hr). lia. }
    rewrite (df_produced _ Hf) in Hline. rewrite <- (rg_ratio _ _ Hr) in Hline.
    replace (coding_ratio c * (inputProcessedInCL (base c) + 1) - coding_ratio c * inputProcessedInCL (base c))
      with (coding_ratio c) in Hline by lia. exact Hline.
  - destruct (bool_decide_reflect (currInBuffer c > 0)); [|constructor].
    constructor; [rewrite (rg_latency _ _ Hr); apply Hf | lia | lia].
Qed.

(** One more read of the reference frame. *)
Lemma requestDependentData_ok f e0 g d e :
  dependence_ok f g d -> 0 < m_dependenceCount d -> working f e0 g (coder d) e ->
  exists g', p_recv g' = p_recv g /\ dependence_ok f g' (requestDependentData d e).1 /\
    working f e0 g' (coder (requestDependentData d e).1) (requestDependentData d e).2.
Proof.
  intros [D1 D2] Hpos Hw. pose proof Hw as [Hr Hb Ha [G1 G2 G3 G4 G5 G6] [C1 C2 C3 C4 C5 C6 C7 C8] Ht Hcm].
  unfold requestDependentData. destruct (bool_decide_reflect (reqSent (base (coder d)) >= inBufferSize (coder d))) as [|Hroom];
    [by exists g|].
  pose proof (enqueueMem_law e (ip_type (base (coder d))) (ip_id (base (coder d))) (ip_core_id (base (coder d)))
    (u64 (m_dependenceAddr d)) true) as Hlaw.
  destruct (enqueueMem e _ _ _ _ _) as [ok e1]. destruct Hlaw as [L1 L2].
  unfold requested in *. rewrite C3, (rg_inBuf _ _ Hr) in Hroom.
  assert (p_req g = 0) as Hq by (destruct (decide (p_req g = 0)); [done | lia]).
  destruct ok; cbn [fst snd].
  - exists (mkProgress (p_ref g + 1) (p_req g) (p_recv g) (p_taken g) (p_proc g) (p_written g)).
    split; [done|]. split; [constructor; cbn; [lia | intros; rewrite D2 by lia; lia]|].
    constructor; try done; [by destruct Hr | | | | by rewrite L2].
    + constructor; unfold requested; cbn; (done || lia).
    + constructor; unfold requested; cbn; (done || lia).
    + destruct Ht as [T1 T2]. constructor; rewrite L1, ?reads_of_snoc, ?writes_of_snoc; cbn; [|by rewrite app_nil_r].
      rewrite T1, Hq, D2 by lia. unfold f_burst. rewrite (burst_snoc (f_type f) (f_id f) (f_core f) (f_ref_addr f)) by lia.
      rewrite (rg_type _ _ Hr), (rg_id _ _ Hr), (rg_core _ _ Hr). rewrite !app_nil_r. by rewrite app_assoc.
  - rewrite app_nil_r in L1. exists g. split; [done|]. split; [by constructor|].
    apply (working_same _ _ _ (coder d) _ e); [by constructor | apply (rg_power _ _ Hr) | done | by constructor | done].
Qed.

Lemma dependence_same f g g' d d' :
  p_ref g' = p_ref g -> m_dependenceCount d' = m_dependenceCount d -> m_dependenceAddr d' = m_dependenceAddr d ->
  dependence_ok f g d -> dependence_ok f g' d'.
Proof. intros E1 E2 E3 []. constructor; by rewrite ?E1, ?E2, ?E3. Qed.

Lemma count_event_same ev d :
  coder (count_event ev d) = coder d /\ m_dependenceCount (count_event ev d) = m_dependenceCount d /\
  m_dependenceAddr (count_event ev d) = m_dependenceAddr d.
Proof. by destruct ev. Qed.

Lemma Decoder_tick_ok ev f e0 r d e :
  decoder_frame f -> decoder_in_frame f e0 r d e ->
  exists d' e', tick ev d e = Ok (d', e') /\ decoder_in_frame f e0 r d' e'.
Proof.
  intros Hf (g & Hg & Hd & [Hw|Hfin]); unfold tick.
  2: { destruct (begin_tick_finished _ _ _ _ _ Hfin) as (c1 & e1 & -> & H). cbn. do 2 eexists. split; [reflexivity|].
       exists g. split; [done|]. split; [by destruct Hd | by right]. }
  destruct (begin_tick_working _ _ _ _ _ Hw) as (go & c1 & e1 & -> & Hw1 & _). cbn [mbind Res_bind].
  destruct go; cbn [negb].
  2: { do 2 eexists. split; [reflexivity|]. exists g. split; [done|]. split; [by destruct Hd | by left]. }
  change (coder (d <| coder := c1 |>)) with c1.
  destruct (sendDataOut_ok _ _ _ _ _ Hw1) as (g2 & Hw2 & R2 & Ref2 & _).
  destruct (sendDataOut c1 e1) as [c2 e2]. cbn [fst snd] in Hw2.
  set (d2 := d <| coder := c1 |> <| coder := c2 |>). assert (dependence_ok f g2 d2) as Hd2 by by apply (dependence_same f g g2 d).
  change (coder d2) with c2. change (m_dependenceCount d2) with (m_dependenceCount d).
  assert (exists d3 e3 g3, (if bool_decide (m_dependenceCount d > 0) then requestDependentData d2 e2
      else let '(c, e) := requestData c2 e2 in (d2 <| coder := c |>, e)) = (d3, e3) /\
    working f e0 g3 (coder d3) e3 /\ p_recv g3 = p_recv g2 /\ dependence_ok f g3 d3) as (d3 & e3 & g3 & -> & Hw3 & R3 & Hd3).
  { case_bool_decide as Hpos.
    - destruct (requestDependentData_ok f e0 g2 d2 e2 Hd2) as (g3 & R3 & Hd3 & Hw3); [cbn; lia | done|].
      destruct (requestDependentData d2 e2) as [d3 e3]. by exists d3, e3, g3.
    - assert (p_ref g2 = f_ref_lines f) as Href.
      { pose proof (dp_count _ _ _ Hd2) as H. change (m_dependenceCount d2) with (m_dependenceCount d) in H. lia. }
      destruct (requestData_ok _ _ _ _ _ Href Hw2) as (g3 & Hw3 & R3 & Ref3 & _).
      destruct (requestData c2 e2) as [c3 e3]. exists (d2 <| coder := c3 |>), e3, g3. split; [done|]. split; [done|].
      split; [done|]. by apply (dependence_same f g2 g3 d2). }
  assert (exists ev' c4 g4, (if bool_decide (inputProcessedInCL (base (coder d3)) < inputToBeProcessedInCL (base (coder d3)))
    then process (coder d3) else (ev, coder d3)) = (ev', c4) /\ working f e0 g4 c4 e3 /\ p_recv g4 = p_recv g3 /\
    p_ref g4 = p_ref g3) as (ev' & c4 & g4 & -> & Hw4 & R4 & Ref4).
  { case_bool_decide; [|by exists ev, (coder d3), g3].
    destruct (compute_ok f e0 g3 (coder d3) _ e3 (decoder_frame_ok _ Hf) (decoder_process_ok _ _ _ _ _ Hf Hw3) Hw3)
      as (g4 & Hw4 & R4 & Ref4 & _).
    destruct (process (coder d3)) as [ev' c4]. by exists ev', c4, g4. }
  destruct (finish_frame_ok _ _ _ _ _ Hw4) as (c5 & e5 & -> & H5). cbn [mbind Res_bind].
  do 2 eexists. split; [reflexivity|]. exists g4. split; [lia|].
  destruct (count_event_same ev' (d3 <| coder := c5 |>)) as (Ec & E1 & E2). rewrite Ec. split; [|exact H5].
  by apply (dependence_same f g3 g4 d3); rewrite ?E1, ?E2.
Qed.

(** The frame that a call of a decoder makes. A predicted frame of the video
    decoder reads part of its lines from the reference. *)
Definition decoder_frame_of (d : Decoder) (core addr n frame flowType flowId : Z) : Frame :=
  let ip := base (coder d) in
  let predicted := bool_decide (ip_type ip = IP_TYPE_VD) && negb (bool_decide (Z.rem frame FRACTION_OF_IFRAMES = 0)) in
  let out := if bool_decide (ip_type ip = IP_TYPE_VD) then VD_ADDR_START + FRAME_SIZE
             else if bool_decide (ip_type ip = IP_TYPE_AD) then AD_ADDR_START + AUD_FRAME_SIZE
             else m_reqOutAddr ip in
  mkFrame (ip_type ip) (ip_id ip) core frame flowType flowId addr (VD_ADDR_START + 2 * FRAME_SIZE) out n
    (if predicted then dependence_lines (CACHE_LINE_SIZE * n) else 0)
    (fun p => coding_ratio (coder d) * p) (coding_ratio (coder d))
    (inBufferSize (coder d)) (outBufferSize (coder d)) (computeLatency (coder d)) (coding_ratio (coder d))
    (targetOutputChunkSizeInCL ip).

(** The two parts of a predicted frame add up to its lines. *)
Definition splits (n : Z) : Prop := dependence_lines (CACHE_LINE_SIZE * n) + frame_lines n = n /\
  0 <= dependence_lines (CACHE_LINE_SIZE * n) <= n.

(** A frame has begun: its registers and counters are those of no progress. *)
Ltac begin_frame :=
  unfold start_frame; rewrite !bool_decide_true by done; cbn [negb mbind Res_bind];
  do 2 eexists; split; [reflexivity|]; split; [done|];
  exists (mkProgress 0 0 0 0 0 0); split; [done|]; split; [constructor; cbn; lia|]; left;
  apply working_start; cbn; try done; try congruence; try (by rewrite u64_small);
  try (constructor; cbn; (done || congruence)).

Lemma Decoder_enqueueIPReq_ok d e core addr n frame flowType flowId :
  coder_free (coder d) -> m_dependenceCount d <= 0 -> 0 <= n -> in_u64 addr ->
  (ip_type (base (coder d)) = IP_TYPE_VD -> splits n) ->
  decoder_frame (decoder_frame_of d core addr n frame flowType flowId) ->
  exists d' e', enqueueIPReq d e core addr (CACHE_LINE_SIZE * n) true frame flowType flowId = Ok (true, d', e') /\
    same_trace e e' /\ decoder_in_frame (decoder_frame_of d core addr n frame flowType flowId) e 0 d' e'.
Proof.
  intros [Hb Hin Hout Hl Hk Hp] Hdep Hn Ha Hsp Hdf. unfold enqueueIPReq.
  destruct (IP_enqueueIPReq_called (base (coder d)) e core addr (CACHE_LINE_SIZE * n) frame flowType flowId true Hb Hk Hp)
    as (ip & e1 & -> & Ht & Hca).
  unfold set_frame. change (base (coder (upd_coder (fun c => c <| base := ip |>) d))) with ip.
  pose proof (decoder_frame_ok _ Hdf) as Hfo. destruct Hca as [H1 H2 H3 H4 H5 H6 H7 H8 H9 H10 H11 H12 H13 H14 H15 H16 H17].
  rewrite ceil_lines_mul in *. rewrite Hl, Z.mul_0_l in H11. rewrite H1. unfold decoder_frame_of in *.
  assert (Z.quot (CACHE_LINE_SIZE * n) CACHE_LINE_SIZE = n) as Hq by (rewrite Z.mul_comm; by apply Z.quot_mul).
  destruct (bool_decide_reflect (ip_type (base (coder d)) = IP_TYPE_VD)) as [Hvd|Hvd]; cbn [andb negb] in *.
  - destruct (Hsp Hvd) as [Hs1 Hs2].
    destruct (bool_decide_reflect (Z.rem frame FRACTION_OF_IFRAMES = 0)) as [Hi|Hi]; cbn [negb] in *; begin_frame; rewrite ?H9; lia.
  - destruct (bool_decide_reflect (ip_type (base (coder d)) = IP_TYPE_AD)) as [Had|Had]; begin_frame; rewrite ?H9; lia.
Qed.
End Decoders.
