(* ===== verification/AcceleratorFrames.v ===== *)
(** * What the accelerators promise

    The three classes behind one interface, runs of ticks and responses, and
    the properties of a frame: no assertion fails, the buffers hold, every
    line is read once, the output is written, one completion. *)

From stdpp Require Import relations.
From S2P Require Import Prelude.
From S2P Require Import DramConfig.
From S2P Require Import GemDefines.
From S2P Require Import Ip.
From S2P Require Import DeviceSafety.
From S2P Require Import Coders.
From S2P Require Import CoderSafety.
From S2P Require Import DecoderSafety.

(** ** The interface

    [step_event] is what an unassigned variable holds in a tick of a decoder. *)

Class Accelerator (T : Type) := {
  coder_of : T -> Coder;
  acc_tick {E} {port : IPPort E} : process_event -> T -> E -> Res (T * E);
  acc_response : bool -> T -> T;
  (** what the class needs of its own members to take a call *)
  acc_ready : T -> Prop;
  (** the frame [f], begun when the platform was [e0], with so many lines received *)
  acc_frame_ok : Frame -> Prop;
  acc_in_frame {E} {port : IPPort E} {laws : IPPortLaws E} : Frame -> E -> Z -> T -> E -> Prop
}.

Class AcceleratorLaws (T : Type) {acc : Accelerator T} := {
  acc_tick_law {E} {port : IPPort E} {laws : IPPortLaws E} ev f (e0 : E) r t e :
    acc_frame_ok f -> acc_in_frame f e0 r t e ->
    exists t' e', acc_tick ev t e = Ok (t', e') /\ acc_in_frame f e0 r t' e';
  acc_read_law {E} {port : IPPort E} {laws : IPPortLaws E} f (e0 : E) r t e :
    acc_in_frame f e0 r t e -> r < zlen (reads_of (sent e)) - zlen (reads_of (sent e0)) ->
    acc_in_frame f e0 (r + 1) (acc_response true t) e;
  acc_write_law {E} {port : IPPort E} {laws : IPPortLaws E} f (e0 : E) r t e :
    acc_in_frame f e0 r t e -> acc_in_frame f e0 r (acc_response false t) e;
  acc_in_frame_law {E} {port : IPPort E} {laws : IPPortLaws E} f (e0 : E) r t e :
    acc_in_frame f e0 r t e -> in_frame f e0 r (coder_of t) e;
  acc_ready_law {E} {port : IPPort E} {laws : IPPortLaws E} f (e0 : E) r t e :
    acc_in_frame f e0 r t e -> is_busy (base (coder_of t)) = false -> acc_ready t
}.

Section Instances.

Lemma trace_reads {E} {port : IPPort E} {laws : IPPortLaws E} f e0 g (e : E) :
  frame_trace f e0 g e -> 0 <= p_ref g -> 0 <= p_req g ->
  zlen (reads_of (sent e)) = zlen (reads_of (sent e0)) + requested g.
Proof.
  intros [-> _] H1 H2. unfold f_burst, requested. rewrite !zlen_app, !zlen_burst by done. lia.
Qed.

(** A read that is outstanding arrives. *)
Lemma read_arrives {E} {port : IPPort E} {laws : IPPortLaws E} f e0 r c (e : E) g :
  p_recv g = r -> working f e0 g c e \/ finished f e0 g c e ->
  r < zlen (reads_of (sent e)) - zlen (reads_of (sent e0)) ->
  exists g', p_recv g' = r + 1 /\ p_ref g' = p_ref g /\ working f e0 g' (Coder_memResponse true c) e.
Proof.
  intros <- [Hw|Hf] Hlt.
  - pose proof (wk_progress _ _ _ _ _ Hw) as [[] [] _ _ _ _].
    rewrite (trace_reads _ _ _ _ (wk_trace _ _ _ _ _ Hw)) in Hlt by done.
    eexists. split; [|split; [|apply read_response_ok; [|exact Hw]]]; [done | done | lia].
  - exfalso. pose proof (fn_progress _ _ _ _ _ Hf) as [[] [] _ _ _ _]. destruct (fn_all _ _ _ _ _ Hf) as (A1 & A2 & A3 & _).
    rewrite (trace_reads _ _ _ _ (fn_trace _ _ _ _ _ Hf)) in Hlt by done. unfold requested in Hlt. lia.
Qed.

Lemma in_frame_read {E} {port : IPPort E} {laws : IPPortLaws E} f e0 r c (e : E) :
  in_frame f e0 r c e -> r < zlen (reads_of (sent e)) - zlen (reads_of (sent e0)) ->
  in_frame f e0 (r + 1) (Coder_memResponse true c) e.
Proof.
  intros (g & Hg & H) Hlt. destruct (read_arrives _ _ _ _ _ _ Hg H Hlt) as (g' & Hg' & _ & Hw). exists g'. auto.
Qed.

Lemma in_frame_write {E} {port : IPPort E} {laws : IPPortLaws E} f e0 r c (e : E) :
  in_frame f e0 r c e -> in_frame f e0 r (Coder_memResponse false c) e.
Proof. intros (g & Hg & H). exists g. split; [done|]. by apply write_response_ok. Qed.

(** The image processor and the encoder are the same record; the decoder's
    own members are beside it. *)
Definition nocoder : Accelerator Coder := {|
  coder_of c := c;
  acc_tick E port _ := Nocoder.tick;
  acc_response := Coder_memResponse;
  acc_ready _ := True;
  acc_frame_ok f := chunk_frame f (f_chunk f) /\ 0 < f_latency f;
  acc_in_frame E port laws := in_frame
|}.

Definition encoder : Accelerator Coder := {|
  coder_of c := c;
  acc_tick E port _ := Encoder.tick;
  acc_response := Coder_memResponse;
  acc_ready _ := True;
  acc_frame_ok f := chunk_frame f (f_chunk f * f_ratio f) /\ 0 < Z.quot (f_latency f) (f_ratio f);
  acc_in_frame E port laws := in_frame
|}.

Definition decoder : Accelerator Decoder.Decoder := {|
  coder_of := Decoder.coder;
  acc_tick E port := Decoder.tick;
  acc_response := Decoder.memResponse;
  acc_ready d := Decoder.m_dependenceCount d <= 0;
  acc_frame_ok := decoder_frame;
  acc_in_frame E port laws := decoder_in_frame
|}.

Lemma nocoder_laws : @AcceleratorLaws Coder nocoder.
Proof.
  split; cbn; intros E port laws.
  - intros _ f e0 r c e [Hf Hl] H. by apply Nocoder_tick_ok.
  - apply in_frame_read.
  - apply in_frame_write.
  - done.
  - done.
Qed.

Lemma encoder_laws : @AcceleratorLaws Coder encoder.
Proof.
  split; cbn; intros E port laws.
  - intros _ f e0 r c e [Hf Hl] H. by apply Encoder_tick_ok.
  - apply in_frame_read.
  - apply in_frame_write.
  - done.
  - done.
Qed.

Lemma decoder_laws : @AcceleratorLaws Decoder.Decoder decoder.
Proof.
  split; cbn; intros E port laws.
  - intros ev f e0 r d e Hf H. by apply Decoder_tick_ok.
  - intros f e0 r d e (g & Hg & Hd & H) Hlt.
    destruct (read_arrives _ _ _ _ _ _ Hg H Hlt) as (g' & Hg' & Hr & Hw). exists g'. split; [done|].
    split; [|by left]. by apply (dependence_same f g g' d).
  - intros f e0 r d e (g & Hg & Hd & H). exists g. split; [done|].
    split; [by apply (dependence_same f g g d) | by apply write_response_ok].
  - intros f e0 r d e (g & Hg & _ & H). exists g. auto.
  - intros f e0 r d e (g & _ & [Hd _] & [Hw|Hf]) Hb.
    + by rewrite (wk_busy _ _ _ _ _ Hw) in Hb.
    + destruct (fn_all _ _ _ _ _ Hf) as (A1 & _). lia.
Qed.

End Instances.

(** ** Runs *)

Record AccState (T E : Type) := mkAcc { acc : T; acc_env : E; acc_outstanding : Z }.
Arguments mkAcc {T E} _ _ _.
Arguments acc {T E} _.
Arguments acc_env {T E} _.
Arguments acc_outstanding {T E} _.

Section Runs.
Context {T : Type} {A : Accelerator T} {Laws : AcceleratorLaws T}.
Context {E : Type} {port : IPPort E} {laws : IPPortLaws E}.

Definition reads_sent (e : E) : Z := zlen (reads_of (sent e)).

(** A tick, the response to a read that was sent, or one to a write. *)
Inductive acc_step : AccState T E -> AccState T E -> Prop :=
| acc_step_tick ev t e o t' e' :
    acc_tick ev t e = Ok (t', e') -> acc_step (mkAcc t e o) (mkAcc t' e' (o + reads_sent e' - reads_sent e))
| acc_step_read t e o : 0 < o -> acc_step (mkAcc t e o) (mkAcc (acc_response true t) e (o - 1))
| acc_step_write t e o : acc_step (mkAcc t e o) (mkAcc (acc_response false t) e o).

Definition acc_ok (f : Frame) (e0 : E) (st : AccState T E) : Prop :=
  acc_in_frame f e0 (reads_sent (acc_env st) - reads_sent e0 - acc_outstanding st) (acc st) (acc_env st).

Lemma acc_step_ok f e0 st st' : acc_frame_ok f -> acc_step st st' -> acc_ok f e0 st -> acc_ok f e0 st'.
Proof.
  intros Hf Hstep. destruct Hstep as [ev t e o t' e' Et | t e o Ho | t e o]; unfold acc_ok; cbn; intros H.
  - destruct (acc_tick_law ev f e0 _ t e Hf H) as (t2 & e2 & E2 & H2). rewrite Et in E2. injection E2 as <- <-.
    by replace (reads_sent e' - reads_sent e0 - (o + reads_sent e' - reads_sent e)) with (reads_sent e - reads_sent e0 - o) by lia.
  - apply acc_read_law in H; [|unfold reads_sent; lia].
    by replace (reads_sent e - reads_sent e0 - (o - 1)) with (reads_sent e - reads_sent e0 - o + 1) by lia.
  - by apply acc_write_law.
Qed.

Lemma acc_run_ok f e0 st st' : acc_frame_ok f -> rtc acc_step st st' -> acc_ok f e0 st -> acc_ok f e0 st'.
Proof. intros Hf Hrun. induction Hrun; [done|]. intros H1. by eapply IHHrun, acc_step_ok. Qed.

(** What holds of a frame whenever one looks. *)
Definition frame_outcome (f : Frame) (e0 : E) (c : Coder) (e : E) : Prop :=
  0 <= currInBuffer c <= f_inBuf f /\ 0 <= currOutBuffer c <= f_outBuf f /\
  ((is_busy (base c) = true /\ completions e = completions e0 /\
    exists i j w, 0 <= i <= f_ref_lines f /\ 0 <= j <= f_lines f - f_ref_lines f /\ 0 <= w <= f_produced f (f_lines f) /\
      reads_of (sent e) = reads_of (sent e0) ++ f_burst f (f_ref_addr f) true i ++ f_burst f (f_addr f) true j /\
      writes_of (sent e) = writes_of (sent e0) ++ f_burst f (f_out_addr f) false w) \/
   (coder_free c /\
    completions e = completions e0 ++ [(f_type f, f_id f, f_core f, f_frame f, f_flowType f, f_flowId f)] /\
    reads_of (sent e) = reads_of (sent e0) ++ f_burst f (f_ref_addr f) true (f_ref_lines f)
      ++ f_burst f (f_addr f) true (f_lines f - f_ref_lines f) /\
    writes_of (sent e) = writes_of (sent e0) ++ f_burst f (f_out_addr f) false (f_produced f (f_lines f)))).

(** More lines produce more. *)
Lemma produced_mono f p q : frame_ok f -> 0 <= p <= q -> f_produced f p <= f_produced f q.
Proof.
  intros Hf [Hp Hq]. replace q with (p + Z.of_nat (Z.to_nat (q - p))) by lia. generalize (Z.to_nat (q - p)). clear Hq.
  intros k. induction k as [|k IH]; [rewrite Z.add_0_r; lia|].
  pose proof (fr_step _ Hf (p + Z.of_nat k) ltac:(lia)).
  replace (p + Z.of_nat (S k)) with (p + Z.of_nat k + 1) by lia. lia.
Qed.

Lemma in_frame_outcome f e0 r c e : frame_ok f -> in_frame f e0 r c e -> frame_outcome f e0 c e.
Proof.
  intros Hf (g & _ & [Hw|Hfin]).
  - destruct Hw as [Hr Hb Ha [G1 G2 G3 G4 G5 G6] [C1 C2 C3 C4 C5 C6 C7 C8] [T1 T2] Hcm]. unfold requested in *.
    pose proof (produced_mono f (p_proc g) (f_lines f) Hf ltac:(lia)).
    split; [lia|]. split; [lia|]. left. split; [done|]. split; [done|].
    exists (p_ref g), (p_req g), (p_written g). repeat split; (done || lia).
  - destruct Hfin as [Hr Hb Hpg (A1 & A2 & A3 & A4 & A5) Hi Ho [T1 T2] Hcm].
    pose proof (fr_inBuf _ Hf). pose proof (fr_outBuf _ Hf). split; [lia|]. split; [lia|]. right.
    split; [constructor; try done; apply Hr|]. split; [done|]. rewrite A1, A2 in T1. rewrite A5 in T2. done.
Qed.

(** The theorem that the classes instantiate. *)
Lemma acc_frame f e0 t e :
  acc_frame_ok f -> frame_ok f -> same_trace e0 e -> acc_in_frame f e0 0 t e ->
  forall st, rtc acc_step (mkAcc t e 0) st ->
    (forall ev, exists r, acc_tick ev (acc st) (acc_env st) = Ok r) /\
    frame_outcome f e0 (coder_of (acc st)) (acc_env st) /\
    (is_busy (base (coder_of (acc st))) = false -> acc_ready (acc st)).
Proof.
  intros Hf Hf' [T1 _] Hin st Hrun. assert (acc_ok f e0 st) as H.
  { apply (acc_run_ok f e0 _ _ Hf Hrun). unfold acc_ok. cbn. unfold reads_sent. rewrite T1.
    by replace (zlen (reads_of (sent e0)) - zlen (reads_of (sent e0)) - 0) with 0 by lia. }
  split.
  - intros ev. destruct (acc_tick_law ev f e0 _ _ _ Hf H) as (t' & e' & E' & _). by exists (t', e').
  - split; [|by eapply acc_ready_law]. apply acc_in_frame_law in H. by eapply in_frame_outcome.
Qed.
End Runs.

(** ** Properties *)

Section Properties.
Context {E : Type} {port : IPPort E} {laws : IPPortLaws E}.

(** A frame through the image processor. Free, it takes a call for [n]
    lines; then, whatever the agent refuses and however ticks and responses
    interleave, no assertion fails, the input and the output buffer stay
    within their sizes, the lines are read in order, each once, the output is
    written in order, a chunk of lines for each chunk read, and completion is
    reported once, when all of it is done; after it the processor is free,
    with empty buffers. *)
Theorem nocoder_frame c (e : E) core addr n frame flowType flowId :
  coder_free c -> 0 < computeLatency c -> 0 < targetOutputChunkSizeInCL (base c) ->
  0 <= inBufferSize c -> 0 <= outBufferSize c -> 0 <= n -> in_u64 addr ->
  exists c1 e1,
    Nocoder.enqueueIPReq c e core addr (CACHE_LINE_SIZE * n) true frame flowType flowId = Ok (true, c1, e1) /\
    forall st, rtc (acc_step (A := nocoder)) (mkAcc c1 e1 0) st ->
      (exists r, Nocoder.tick (acc st) (acc_env st) = Ok r) /\
      frame_outcome (frame_of Nocoder.set_out c (targetOutputChunkSizeInCL (base c)) core addr n frame flowType flowId)
        e (acc st) (acc_env st).
Proof.
  intros Hfree Hl Hch Hi Ho Hn Ha. set (f := frame_of _ _ _ _ _ _ _ _ _).
  assert (chunk_frame f (f_chunk f)) as Hf by (constructor; cbn; done).
  destruct (Coder_enqueueIPReq_ok Nocoder.set_out c e _ core addr n frame flowType flowId Hfree Nocoder_sets_out Hn Ha Hf)
    as (c1 & e1 & E1 & Ht & Hin).
  exists c1, e1. split; [exact E1|]. intros st Hrun.
  destruct (@acc_frame _ nocoder nocoder_laws _ _ _ f e c1 e1 (conj Hf Hl) (chunk_frame_ok _ _ Hf) Ht Hin st Hrun)
    as (Htick & Hout & _). split; [exact (Htick OUT_BUFFER_FULL) | exact Hout].
Qed.

(** A frame through an encoder: the same, with a chunk of output for
    [coding_ratio] chunks read. *)
Theorem encoder_frame c (e : E) core addr n frame flowType flowId :
  coder_free c -> 0 < Z.quot (computeLatency c) (coding_ratio c) -> 0 < targetOutputChunkSizeInCL (base c) ->
  0 < coding_ratio c -> 0 <= inBufferSize c -> 0 <= outBufferSize c -> 0 <= n -> in_u64 addr ->
  exists c1 e1,
    Encoder.enqueueIPReq c e core addr (CACHE_LINE_SIZE * n) true frame flowType flowId = Ok (true, c1, e1) /\
    forall st, rtc (acc_step (A := encoder)) (mkAcc c1 e1 0) st ->
      (exists r, Encoder.tick (acc st) (acc_env st) = Ok r) /\
      frame_outcome (frame_of Encoder.set_out c (targetOutputChunkSizeInCL (base c) * coding_ratio c)
        core addr n frame flowType flowId) e (acc st) (acc_env st).
Proof.
  intros Hfree Hl Hch Hrt Hi Ho Hn Ha. set (f := frame_of _ _ _ _ _ _ _ _ _).
  assert (chunk_frame f (f_chunk f * f_ratio f)) as Hf by (constructor; cbn; (done || lia)).
  destruct (Coder_enqueueIPReq_ok Encoder.set_out c e _ core addr n frame flowType flowId Hfree Encoder_sets_out Hn Ha Hf)
    as (c1 & e1 & E1 & Ht & Hin).
  exists c1, e1. split; [exact E1|]. intros st Hrun.
  destruct (@acc_frame _ encoder encoder_laws _ _ _ f e c1 e1 (conj Hf Hl) (chunk_frame_ok _ _ Hf) Ht Hin st Hrun)
    as (Htick & Hout & _). split; [exact (Htick OUT_BUFFER_FULL) | exact Hout].
Qed.

(** C15: a frame through a decoder: the same, with [coding_ratio] lines of
    output for each line read. A predicted frame of the video decoder reads
    part of its lines from the reference frame and the others from the call's
    buffer, and the parts must add up to the frame, as they do for the
    platform's frames; no reference reads are left over for the next call. *)
Theorem decoder_frame_spec d (e : E) core addr n frame flowType flowId :
  coder_free (Decoder.coder d) -> Decoder.m_dependenceCount d <= 0 ->
  (ip_type (base (Decoder.coder d)) = IP_TYPE_VD -> splits n) ->
  0 < computeLatency (Decoder.coder d) -> 0 <= coding_ratio (Decoder.coder d) ->
  0 <= inBufferSize (Decoder.coder d) -> 0 <= outBufferSize (Decoder.coder d) -> 0 <= n -> in_u64 addr ->
  exists d1 e1,
    Decoder.enqueueIPReq d e core addr (CACHE_LINE_SIZE * n) true frame flowType flowId = Ok (true, d1, e1) /\
    forall st, rtc (acc_step (A := decoder)) (mkAcc d1 e1 0) st ->
      (forall ev, exists r, Decoder.tick ev (acc st) (acc_env st) = Ok r) /\
      frame_outcome (decoder_frame_of d core addr n frame flowType flowId) e (Decoder.coder (acc st)) (acc_env st) /\
      (is_busy (base (Decoder.coder (acc st))) = false -> Decoder.m_dependenceCount (acc st) <= 0).
Proof.
  intros Hfree Hdep Hsp Hl Hrt Hi Ho Hn Ha. set (f := decoder_frame_of _ _ _ _ _ _ _).
  assert (decoder_frame f) as Hf.
  { constructor; cbn; try done. unfold decoder_frame_of. cbn.
    destruct (bool_decide_reflect (ip_type (base (Decoder.coder d)) = IP_TYPE_VD)) as [Hvd|]; cbn; [|lia].
    destruct (Hsp Hvd). by destruct (negb _). }
  destruct (Decoder_enqueueIPReq_ok d e core addr n frame flowType flowId Hfree Hdep Hn Ha Hsp Hf)
    as (d1 & e1 & E1 & Ht & Hin).
  exists d1, e1. split; [exact E1|]. intros st Hrun.
  exact (@acc_frame _ decoder decoder_laws _ _ _ f e d1 e1 Hf (decoder_frame_ok _ Hf) Ht Hin st Hrun).
Qed.
End Properties.

(** ** Calls that are not whole lines *)

(** An object of zeros, set up as the platform does, at 400 MHz. *)
Definition zero_coder : Coder := mkCoder zero_ip 0 0 0 0 0 0.

Definition set_up (ty latency inBuf outBuf ratio chunk : Z) : Coder :=
  match Coder_init zero_coder ty 0 false latency inBuf outBuf ratio chunk (F64.lit 4 10) 1 quiet with
  | Ok (c, _) => c
  | Err _ => zero_coder
  end.

Definition sample_img : Coder := set_up IP_TYPE_IMG 16 16 32 1 16.
Definition sample_ve : Coder := set_up IP_TYPE_VE 18 24 64 16 16.
Definition sample_vd : Decoder.Decoder :=
  Decoder.mkDecoder (set_up IP_TYPE_VD 12 24 64 16 1) Decoder.I_Frame 0 0 0 0 0 0.

(** Ticks of the image processor, a read answered after each. *)
Fixpoint answered_ticks (n : nat) (c : Coder) (e : Trace) : Res (Coder * Trace) :=
  match n with
  | O => Ok (c, e)
  | S n' =>
      '(c', e') ← Nocoder.tick c e;
      answered_ticks n' (if bool_decide (zlen (sent e') = zlen (sent e)) then c' else Coder_memResponse true c') e'
  end.

(** A call for [size] bytes, that many ticks, and the next call. *)
Definition call_twice (size : Z) (n : nat) (c : Coder) : Res (bool * Coder * Trace) :=
  '(_, c, e) ← Nocoder.enqueueIPReq c quiet 0 IMG_ADDR_START size true 1 IP_TYPE_DC 0;
  '(c, e) ← answered_ticks n c e;
  if is_busy (base c) then Err (AssertFail "still busy")
  else Nocoder.enqueueIPReq c e 0 IMG_ADDR_START 1024 true 2 IP_TYPE_DC 0.

(** A call for part of a line breaks the next call. The processor asks
    for [ceil(size/64)] lines and processes [size/64]: after a call for 65
    bytes one line stays in the input buffer, and the next call fails its
    assertion, while after a call for 64 bytes it is taken. *)
Theorem part_line_breaks_next_call :
  call_twice 65 30 (sample_img <| base ::= fun ip => ip <| power_state := ip_active |> |>)
    = Err (AssertFail "currInBuffer == 0") /\
  is_ok (call_twice 64 30 (sample_img <| base ::= fun ip => ip <| power_state := ip_active |> |>)) = true.
Proof. by vm_compute. Qed.

(** ** Witnesses *)

Lemma sample_img_free : coder_free sample_img.
Proof. split; by vm_compute. Qed.

Lemma sample_ve_free : coder_free sample_ve.
Proof. split; by vm_compute. Qed.

Lemma sample_vd_free : coder_free (Decoder.coder sample_vd).
Proof. split; by vm_compute. Qed.

(** The lines of the frames that the flash controller hands to the decoder:
    4*FRAME_SIZE/VID_CODING_RATIO bytes. *)
Lemma decoder_lines_split : splits 103680.
Proof. split; [by vm_compute | split; by vm_compute]. Qed.

Lemma nocoder_frame_witness : exists c1 e1,
  Nocoder.enqueueIPReq sample_img quiet 0 IMG_ADDR_START (CACHE_LINE_SIZE * 64) true 1 IP_TYPE_DC 0 = Ok (true, c1, e1) /\
  exists r, Nocoder.tick c1 e1 = Ok r.
Proof.
  destruct (nocoder_frame sample_img quiet 0 IMG_ADDR_START 64 1 IP_TYPE_DC 0 sample_img_free) as (c1 & e1 & E & H).
  1-6: by vm_compute.
  exists c1, e1. split; [exact E|]. exact (proj1 (H _ (rtc_refl _ _))).
Defined.

Lemma encoder_frame_witness : exists c1 e1,
  Encoder.enqueueIPReq sample_ve quiet 0 CAM_ADDR_START (CACHE_LINE_SIZE * 1024) true 1 IP_TYPE_MMC_OUT 0 = Ok (true, c1, e1) /\
  exists r, Encoder.tick c1 e1 = Ok r.
Proof.
  destruct (encoder_frame sample_ve quiet 0 CAM_ADDR_START 1024 1 IP_TYPE_MMC_OUT 0 sample_ve_free) as (c1 & e1 & E & H).
  1-7: by vm_compute.
  exists c1, e1. split; [exact E|]. exact (proj1 (H _ (rtc_refl _ _))).
Defined.

Lemma decoder_frame_spec_witness : exists d1 e1,
  Decoder.enqueueIPReq sample_vd quiet 0 MMC_IN_ADDR_START (CACHE_LINE_SIZE * 103680) true 7 IP_TYPE_DC 0 = Ok (true, d1, e1) /\
  exists r, Decoder.tick IN_BUFFER_EMPTY d1 e1 = Ok r.
Proof.
  destruct (decoder_frame_spec sample_vd quiet 0 MMC_IN_ADDR_START 103680 7 IP_TYPE_DC 0 sample_vd_free) as (d1 & e1 & E & H).
  { by vm_compute. }
  { intros _. exact decoder_lines_split. }
  1-6: by vm_compute.
  exists d1, e1. split; [exact E|]. exact (proj1 (H _ (rtc_refl _ _)) IN_BUFFER_EMPTY).
Defined.
