(* ===== verification/Dma.v ===== *)
(** * The DMA engine ([gemdroid_ip_dma.cc])

    A copy between two buffers: the lines of the source are read as any
    device reads, and each answer sends the write of a line. The platform
    compiles the class but has no instance of it. *)

From S2P Require Import Prelude.
From S2P Require Import DramConfig.
From S2P Require Import GemDefines.
From S2P Require Import Ip.

Module Dma.

Record GemDroidIPDMA := mkDMA {
  base : GemDroidIP;
  srcAddr : Z;
  destAddr : Z
}.

#[export] Instance eta_GemDroidIPDMA : Settable GemDroidIPDMA := fun r => mkDMA (base r) (srcAddr r) (destAddr r).
#[export] Instance set_base : Setter base := ltac:(mk_setter).
#[export] Instance set_srcAddr : Setter srcAddr := ltac:(mk_setter).
#[export] Instance set_destAddr : Setter destAddr := ltac:(mk_setter).

Definition upd_base (f : GemDroidIP -> GemDroidIP) (d : GemDroidIPDMA) : GemDroidIPDMA := d <| base ::= f |>.

Definition init (ty id : Z) (d : GemDroidIPDMA) : GemDroidIPDMA :=
  upd_base (fun ip => upd_stats (fun s => s <| ip_ticks := 0 |>)
    (ip <| ip_type := ty |> <| ip_id := id |> <| ip_isDevice := false |> <| m_reqCount := -1 |>)) d.

(** Neither the core nor the flow is recorded. *)
Definition enqueueIPReq (d : GemDroidIPDMA) (src dest size frameNum : Z) : bool * GemDroidIPDMA :=
  if negb (is_busy (base d)) then
    (true,
     upd_base (fun ip => upd_stats (fun s => s <| m_CPUReqs ::= Z.succ |>)
       (ip <| is_busy := true |> <| m_frameNum := frameNum |> <| m_reqCount := ceil_lines size |>
           <| m_isRead := true |> <| m_reqAddr := src |>))
       (d <| srcAddr := src |> <| destAddr := dest |>))
  else (false, upd_base (upd_stats (fun s => s <| m_IPBusyStalls ::= Z.succ |>)) d).

Section Port.
Context {E : Type} {port : IPPort E}.

Definition tick (d : GemDroidIPDMA) (e : E) : GemDroidIPDMA * E :=
  let d := upd_base (upd_stats (fun s => s <| ip_ticks ::= Z.succ |>)) d in
  if bool_decide (m_reqCount (base d) > 0) then
    let '(_, ip, e) := sendMemoryReq (base d) e in
    (d <| base := if bool_decide (m_reqCount ip = 0) then ip <| is_busy := false |> else ip |>, e)
  else (d, e).

(** A write that is refused is not tried again. *)
Definition memResponse (isRead : bool) (d : GemDroidIPDMA) (e : E) : GemDroidIPDMA * E :=
  if isRead then
    let '(ok, e) := enqueueMem e (ip_type (base d)) (ip_id (base d)) 0 (destAddr d) false in
    if (ok : bool)
    then (upd_base (upd_stats (fun s => s <| m_MemReqs ::= Z.succ |>))
            (d <| destAddr ::= fun a => u64 (a + CACHE_LINE_SIZE) |>), e)
    else (upd_base (upd_stats (fun s => s <| ip_memRejected ::= Z.succ |>)) d, e)
  else (d, e).
End Port.
End Dma.
