(* ===== verification/TraceFile.v ===== *)
(** * Trace files

    The cores and the GPU replay text traces through [std::ifstream]: words
    and numbers separated by white space. A token is kept with its text and
    its readings as a decimal and as a hexadecimal number. *)

From S2P Require Import Prelude.

Record Token := mkToken {
  tk_text : string;
  tk_dec : option Z;
  tk_hex : option Z
}.

Record Stream := mkStream {
  sm_tokens : list Token;
  sm_fail : bool
}.

(** [stream >> s] for a fresh string: empty when nothing can be read. *)
Definition read_string (s : Stream) : string * Stream :=
  if sm_fail s then (""%string, s)
  else
    match sm_tokens s with
    | [] => (""%string, mkStream [] true)
    | t :: ts => (tk_text t, mkStream ts false)
    end.

(** [stream >> n]: a token that is not a number gives 0 and makes the stream
    fail; a failed stream leaves the variable unassigned. *)
Definition read_number (reading : Token -> option Z) (s : Stream) : option Z * Stream :=
  if sm_fail s then (None, s)
  else
    match sm_tokens s with
    | [] => (None, mkStream [] true)
    | t :: ts =>
        match reading t with
        | Some n => (Some n, mkStream ts false)
        | None => (Some 0, mkStream (t :: ts) true)
        end
    end.

Definition skip_string (s : Stream) : Stream := snd (read_string s).

(** The use of a variable. *)
Definition assigned (x : option Z) : Res Z :=
  match x with Some n => Ok n | None => Err Unassigned end.

(** [s.find(pat) != string::npos] *)
Definition contains (pat s : string) : bool :=
  match String.index 0 pat s with Some _ => true | None => false end.

(** Reading never adds tokens. *)
Definition shorter (s' s : Stream) : Prop :=
  (length (sm_tokens s') <= length (sm_tokens s))%nat /\ (sm_fail s = true -> sm_fail s' = true).

Lemma read_string_shorter s : shorter (snd (read_string s)) s.
Proof. destruct s as [[|t ts] []]; split; cbn; (done || lia). Qed.

Lemma read_number_shorter r s : shorter (snd (read_number r s)) s.
Proof. destruct s as [[|t ts] []]; unfold read_number; cbn; try (split; cbn; (done || lia)). by destruct (r t); split; cbn; (done || lia). Qed.

#[export] Instance shorter_trans : Transitive shorter.
Proof. intros a b c [H1 H2] [H3 H4]. split; [lia | auto]. Qed.

(** A word that was read shortens the stream. *)
Lemma read_string_word s op s' :
  read_string s = (op, s') -> op <> ""%string -> (length (sm_tokens s') < length (sm_tokens s))%nat.
Proof. destruct s as [[|t ts] []]; intros [= <- <-] Hne; cbn; (done || lia). Qed.
