(* ===== verification/Gpu.v ===== *)
(** * The GPU ([gemdroid_ip_gpu.cc])

    The GPU replays a trace of its own: compute cycles, texture reads and the
    end of a frame. A rendered frame is written line by line to the frame
    buffer of the second display controller, which is then called. *)

From S2P Require Import Prelude.
From S2P Require Import DramConfig.
From S2P Require Import GemDefines.
From S2P Require Import TraceFile.
From S2P Require Import Ip.

(** What the GPU asks of the platform besides what every IP does. *)
Class GPUPort (E : Type) := {
  gpu_ip :: IPPort E;
  gpu_getTicks : E -> Z;
  (** core, type, id, frame, flow *)
  gpu_markIPRequestCompleted : E -> Z -> Z -> Z -> Z -> Z -> Res E;
  (** [true_fetch = false] *)
  gpu_stopFetch : E -> E
}.

(** [GPU_FPS_TICKS], a double. *)
Definition GPU_FPS_TICKS : spec_float :=
  F64.div (F64.mul (F64.mul (F64.mul GEMDROID_FREQ (F64.of_Z 1000)) (F64.of_Z 1000)) (F64.of_Z 1000)) (F64.of_Z TARGET_FPS).

Module Gpu.

Record GemDroidIPGPU := mkGPU {
  base : GemDroidIP;
  em_gputrace_file : Stream;
  cyclesToSkip : Z;
  lastDCTick : Z;
  fpsStalls : Z;
  m_enabled : bool;
  writeToDCFlag : bool;
  m_addrToDC : Z;
  m_thisMilliSecInstructionsCommitted : Z;
  m_thisMicroSecInstructionsCommitted : Z;
  lines_read_gpu : Z;
  m_fpsStallsCount : Z;
  m_framesDisplayed : Z;
  m_framesDropped : Z
}.

#[export] Instance eta_GemDroidIPGPU : Settable GemDroidIPGPU := fun r =>
  mkGPU (base r) (em_gputrace_file r) (cyclesToSkip r) (lastDCTick r) (fpsStalls r) (m_enabled r)
    (writeToDCFlag r) (m_addrToDC r) (m_thisMilliSecInstructionsCommitted r)
    (m_thisMicroSecInstructionsCommitted r) (lines_read_gpu r) (m_fpsStallsCount r)
    (m_framesDisplayed r) (m_framesDropped r).

#[export] Instance set_base : Setter base := ltac:(mk_setter).
#[export] Instance set_em_gputrace_file : Setter em_gputrace_file := ltac:(mk_setter).
#[export] Instance set_cyclesToSkip : Setter cyclesToSkip := ltac:(mk_setter).
#[export] Instance set_lastDCTick : Setter lastDCTick := ltac:(mk_setter).
#[export] Instance set_fpsStalls : Setter fpsStalls := ltac:(mk_setter).
#[export] Instance set_m_enabled : Setter m_enabled := ltac:(mk_setter).
#[export] Instance set_writeToDCFlag : Setter writeToDCFlag := ltac:(mk_setter).
#[export] Instance set_m_addrToDC : Setter m_addrToDC := ltac:(mk_setter).
#[export] Instance set_m_thisMilliSecInstructionsCommitted : Setter m_thisMilliSecInstructionsCommitted := ltac:(mk_setter).
#[export] Instance set_m_thisMicroSecInstructionsCommitted : Setter m_thisMicroSecInstructionsCommitted := ltac:(mk_setter).
#[export] Instance set_lines_read_gpu : Setter lines_read_gpu := ltac:(mk_setter).
#[export] Instance set_m_fpsStallsCount : Setter m_fpsStallsCount := ltac:(mk_setter).
#[export] Instance set_m_framesDisplayed : Setter m_framesDisplayed := ltac:(mk_setter).
#[export] Instance set_m_framesDropped : Setter m_framesDropped := ltac:(mk_setter).

Definition upd_base (f : GemDroidIP -> GemDroidIP) (g : GemDroidIPGPU) : GemDroidIPGPU := g <| base ::= f |>.

(** ** Power *)

Definition getStaticPower (g : GemDroidIPGPU) (activePortion lowPortion : spec_float) : spec_float :=
  F64.add (F64.mul (ip_static_power (base g)) activePortion)
          (F64.mul (F64.div (ip_static_power (base g)) (F64.of_Z 3)) lowPortion).

Definition getDynamicPower (g : GemDroidIPGPU) (activity : spec_float) : Res spec_float :=
  let activity := if F64.ltb (F64.of_Z 1) activity then F64.of_Z 1 else activity in
  row ← of_option (zget (voltage_freq_table (base g)) (dvfsState (base g)));
  Ok (F64.mul activity (tbl_power row)).

(** The power of a period of [clocks] cycles at 1 GHz. *)
Definition power_of_period (g : GemDroidIPGPU) (clocks active lowpower insns : Z) : Res spec_float :=
  f ← getIPFreq (base g);
  let one := F64.mul f (F64.of_Z clocks) in
  let static := getStaticPower g (F64.div (F64.of_Z active) one) (F64.div (F64.of_Z lowpower) one) in
  dynamic ← getDynamicPower g (F64.div (F64.of_Z insns) one);
  Ok (F64.add static dynamic).

Definition powerIn1ms (g : GemDroidIPGPU) : Res (spec_float * GemDroidIPGPU) :=
  let s := stats (base g) in
  power ← power_of_period g 1000000 (m_IPActiveInLast1ms s) (m_IPLowInLast1ms s)
            (m_thisMilliSecInstructionsCommitted g);
  Ok (power, upd_base (upd_stats (fun s => s <| m_IPActiveInLast1ms := 0 |> <| m_IPLowInLast1ms := 0 |>))
               (g <| m_thisMilliSecInstructionsCommitted := 0 |>)).

Definition powerIn1us (g : GemDroidIPGPU) : Res (spec_float * GemDroidIPGPU) :=
  let s := stats (base g) in
  power ← power_of_period g 1000 (m_IPActiveInLast1us s) (m_IPLowInLast1us s)
            (m_thisMicroSecInstructionsCommitted g);
  Ok (power, upd_base (upd_stats (fun s => s <| m_IPActiveInLast1us := 0 |> <| m_IPLowInLast1us := 0 |>))
               (g <| m_thisMicroSecInstructionsCommitted := 0 |>)).

Definition getPowerEst (g : GemDroidIPGPU) : Res spec_float :=
  if m_enabled g && bool_decide (power_state (base g) = ip_active)
  then dyn ← getDynamicPower g (F64.of_Z 1); Ok (F64.add dyn (getStaticPower g (F64.of_Z 1) (F64.of_Z 0)))
  else Ok (F64.of_Z 0).

Section Port.
Context {E : Type} {port : GPUPort E}.

(** [name] is the trace's file name and [file] what opening it gives. The
    members that a GPU without a trace leaves alone, [m_enabled] among them,
    keep what the object [g0] had when it was allocated. *)
Definition init (g0 : GemDroidIPGPU) (ty id : Z) (device : bool) (name : string) (file : option Stream)
    (freq : spec_float) (opt_freq : Z) (e : E) : Res (GemDroidIPGPU * E) :=
  '(ip, e) ← GemDroidIP_init (base g0) ty id device 0 freq opt_freq e;
  let g := g0 <| base := ip |> in
  if String.eqb name "none.txt" then Ok (g, e)
  else
    match file with
    | None => Err (AssertFail "0")
    | Some s =>
        Ok (upd_base (fun ip => ip <| power_state := ip_active |>)
              (g <| em_gputrace_file := s |> <| m_enabled := true |> <| lines_read_gpu := 0 |>
                 <| lastDCTick := 0 |> <| fpsStalls := 0 |> <| writeToDCFlag := false |> <| m_addrToDC := 0 |>
                 <| m_thisMilliSecInstructionsCommitted := 0 |> <| m_thisMicroSecInstructionsCommitted := 0 |>
                 <| m_framesDisplayed := 0 |> <| m_framesDropped := 0 |> <| m_fpsStallsCount := 0 |>), e)
    end.

(** The state of an idle GPU only goes up by waking; the flag says that the
    cycle can do work. *)
Definition updatePower (g : GemDroidIPGPU) (e : E) : Res (bool * GemDroidIPGPU * E) :=
  let ip := count_cycle (base g) in
  if bool_decide (Ip.cyclesToWake ip > 0) then
    let ip := ip <| Ip.cyclesToWake ::= Z.pred |> in
    if bool_decide (Ip.cyclesToWake ip = 0) then
      '(ip, e) ← setPStateActive ip e;
      Ok (false, g <| base := ip <| idleCycles := 0 |> |>, e)
    else Ok (false, g <| base := ip |>, e)
  else
    ip ← (if bool_decide (idleCycles ip >= IPACC_PSTATE_ENTER_TIME) then
            ip ← match power_state ip with
                 | ip_active => setPStateLowPower ip
                 | ip_lowpower => setPStateIdle ip
                 | ip_idle => Ok ip
                 end;
            Ok (ip <| idleCycles := 0 |>)
          else Ok ip);
    Ok (bool_decide (power_state ip = ip_active), g <| base := ip |>, e).

(** One request, tried at once; refused, it is tried again by the next ticks. *)
Definition processMMURequest (a : Z) (is_read : bool) (g : GemDroidIPGPU) (e : E) : GemDroidIPGPU * E :=
  let ip := (base g) <| m_reqCount := 1 |> <| m_reqAddr := a |> <| m_isRead := is_read |> in
  let '(_, ip, e) := sendMemoryReq ip e in
  (g <| base := ip |>, e).

(** A line of the trace. *)
Definition readLine (g : GemDroidIPGPU) (e : E) : Res (GemDroidIPGPU * E) :=
  let '(op, s) := read_string (em_gputrace_file g) in
  let g := g <| lines_read_gpu ::= Z.succ |> in
  if String.eqb op "GPU" then
    let '(insns, s) := read_number tk_dec s in
    insns ← assigned insns;
    if bool_decide (insns < 10000000000)
    then Ok (g <| em_gputrace_file := s |> <| cyclesToSkip := i32 insns |>, e)
    else Err (AssertFail "insns < 10000000000")
  else if String.eqb op "GMU_st" then
    let '(a, s) := read_number tk_dec s in
    _ ← assigned a;
    Ok (g <| em_gputrace_file := s |>, e)
  else if String.eqb op "GMU_ld" then
    let '(a, s) := read_number tk_dec s in
    a ← assigned a;
    Ok (processMMURequest (u64 (a + GPU_ADDR_START)) true (g <| em_gputrace_file := s |>) e)
  else if String.eqb op "Rendered" then
    let g := g <| em_gputrace_file := skip_string (skip_string s) |> in
    let ticksFromLastDC := i32 (gpu_getTicks e - lastDCTick g) in
    e ← gpu_markIPRequestCompleted e 0 (ip_type (base g)) (ip_id (base g)) (m_frameNum (base g)) 20;
    let g := upd_base (fun ip => ip <| m_frameNum ::= Z.succ |>)
               (g <| writeToDCFlag := true |> <| m_addrToDC := DC1_ADDR_START |>) in
    if F64.ltb (F64.of_Z ticksFromLastDC) GPU_FPS_TICKS
    then Ok (g <| fpsStalls := F32.trunc (F64.sub GPU_FPS_TICKS (F64.of_Z ticksFromLastDC)) |>, e)
    else Ok (g <| lastDCTick := gpu_getTicks e |> <| m_framesDropped ::= Z.succ |>, e)
  else if String.eqb op "END" then Ok (g <| em_gputrace_file := s |>, gpu_stopFetch e)
  else Err (AssertFail "0").

(** A cycle of waiting for the frame rate; the last one displays the frame. *)
Definition stall (g : GemDroidIPGPU) (e : E) : Res (GemDroidIPGPU * E) :=
  f ← getIPFreq (base g);
  let g := upd_base (fun ip => ip <| idleCycles ::= Z.succ |>)
             (g <| m_fpsStallsCount ::= Z.succ |>
                <| fpsStalls ::= fun n => F32.trunc (F64.sub (F64.of_Z n) (F64.div GEMDROID_FREQ f)) |>) in
  let '(g, e) :=
    if bool_decide (fpsStalls g <= 0) then
      let g := g <| lastDCTick := gpu_getTicks e |> in
      match power_state (base g) with
      | ip_lowpower => (upd_base (fun ip => ip <| Ip.cyclesToWake := IPACC_PSTATE_LOWPOWER_EXIT_TIME |>) g, e)
      | ip_idle => (upd_base (fun ip => ip <| Ip.cyclesToWake := IPACC_PSTATE_IDLE_EXIT_TIME |>) g, e)
      | ip_active => (g, markIPRequestStarted e 0 (ip_type (base g)) (ip_id (base g)) 0)
      end
    else (g, e) in
  '(_, g, e) ← updatePower g e;
  Ok (g, e).

(** The next line of the frame buffer; after the last one the display
    controller is called. *)
Definition write_line (g : GemDroidIPGPU) (e : E) : Res (GemDroidIPGPU * E) :=
  let '(g, e) := processMMURequest (m_addrToDC g) false g e in
  let g := g <| m_addrToDC ::= fun a => u64 (a + CACHE_LINE_SIZE) |> in
  if bool_decide (m_addrToDC g >= DC1_ADDR_START + FRAME_SIZE) then
    let g := g <| writeToDCFlag := false |> in
    e ← completeFrame e (ip_type (base g)) (ip_id (base g)) 0 (m_framesDisplayed g) IP_TYPE_DC 0;
    Ok (g <| m_framesDisplayed ::= Z.succ |>, e)
  else Ok (g, e).

(** A cycle of the trace. *)
Definition run_trace (g : GemDroidIPGPU) (e : E) : Res (GemDroidIPGPU * E) :=
  '(go, g, e) ← updatePower g e;
  if negb go then Ok (g, e)
  else if negb (bool_decide (power_state (base g) = ip_active)) then Err (AssertFail "isPStateActive()")
  else if bool_decide (cyclesToSkip g > 0) then
    Ok (upd_base (upd_stats (fun s => s <| m_IPActivityIn1ms ::= Z.succ |> <| m_IPActivityIn1us ::= Z.succ |>))
          (g <| cyclesToSkip ::= Z.pred |> <| m_thisMilliSecInstructionsCommitted ::= Z.succ |>
             <| m_thisMicroSecInstructionsCommitted ::= Z.succ |>), e)
  else readLine g e.

Definition tick (g : GemDroidIPGPU) (e : E) : Res (GemDroidIPGPU * E) :=
  if negb (m_enabled g) then Err (AssertFail "isEnabled()")
  else
    let g := upd_base (upd_stats (fun s => s <| ip_ticks ::= Z.succ |>)) g in
    let '(ok, ip, e) :=
      if bool_decide (m_reqCount (base g) > 0) then sendMemoryReq (base g) e else (true, base g, e) in
    let g := g <| base := ip |> in
    if negb (ok : bool) then Ok (upd_base (upd_stats (fun s => s <| idleStreak ::= Z.succ |>)) g, e)
    else if bool_decide (fpsStalls g > 0) then stall g e
    else if writeToDCFlag g then write_line g e
    else run_trace g e.
End Port.
End Gpu.
