(* ===== verification/GpuTheorems.v ===== *)
(** * A frame of the GPU

    A rendered frame is written to the frame buffer line by line, while the
    agent may refuse any request, and then the display controller is called. *)

From S2P Require Import Prelude.
From S2P Require Import DramConfig.
From S2P Require Import GemDefines.
From S2P Require Import Ip.
From S2P Require Import DeviceSafety.
From S2P Require Import TraceFile.
From S2P Require Import Gpu.

Import Gpu.Gpu.

(** The cache lines of a frame. *)
Definition frame_lines : Z := FRAME_SIZE / CACHE_LINE_SIZE.

Section Frame.
Context {E : Type} {port : GPUPort E} {laws : IPPortLaws E}.

Definition line (ip : GemDroidIP) (i : Z) : Request :=
  (ip_type ip, ip_id ip, ip_core_id ip, DC1_ADDR_START + CACHE_LINE_SIZE * i, false).
(** The first [k] lines, in order. *)
Definition first_lines (ip : GemDroidIP) (k : Z) : list Request := line ip <$> zrange k.

Lemma first_lines_succ ip k : 0 <= k -> first_lines ip (k + 1) = first_lines ip k ++ [line ip k].
Proof.
  intros Hk. unfold first_lines, zrange. replace (Z.to_nat (k + 1)) with (S (Z.to_nat k)) by lia.
  rewrite seq_S, !fmap_app. cbn. by rewrite Z2Nat.id.
Qed.

(** The requests taken when [k] lines were produced: the last one may wait. *)
Definition taken (sent0 : list Request) (k : Z) (g : GemDroidIPGPU) (e : E) : Prop :=
  (m_reqCount (base g) = 0 /\ sent e = sent0 ++ first_lines (base g) k) \/
  (m_reqCount (base g) = 1 /\ 0 < k /\ m_reqAddr (base g) = DC1_ADDR_START + CACHE_LINE_SIZE * (k - 1)
   /\ m_isRead (base g) = false /\ sent e = sent0 ++ first_lines (base g) (k - 1)).

(** The GPU writes a frame and has produced [k] lines of it. *)
Record writing (sent0 : list Request) (done0 : list Completion) (k : Z) (g : GemDroidIPGPU) (e : E) : Prop := {
  wr_enabled : m_enabled g = true;
  wr_stalls : fpsStalls g <= 0;
  wr_flag : writeToDCFlag g = true;
  wr_range : 0 <= k < frame_lines;
  wr_addr : m_addrToDC g = DC1_ADDR_START + CACHE_LINE_SIZE * k;
  wr_taken : taken sent0 k g e;
  wr_done : completions e = done0
}.

(** The frame is produced and the display called, once. *)
Record written (sent0 : list Request) (done0 : list Completion) (g : GemDroidIPGPU) (e : E) : Prop := {
  wn_flag : writeToDCFlag g = false;
  wn_taken : taken sent0 frame_lines g e;
  wn_done : completions e =
    done0 ++ [(ip_type (base g), ip_id (base g), 0, m_framesDisplayed g - 1, IP_TYPE_DC, 0)]
}.

Lemma frame_bound k : 0 <= k < frame_lines -> 0 <= DC1_ADDR_START + CACHE_LINE_SIZE * k < 2 ^ 63.
Proof. change frame_lines with 414720. unfold DC1_ADDR_START, CACHE_LINE_SIZE. lia. Qed.

(** The IP that asks stays the same. *)
Definition same_ids (ip ip' : GemDroidIP) : Prop :=
  ip_type ip' = ip_type ip /\ ip_id ip' = ip_id ip /\ ip_core_id ip' = ip_core_id ip.

Lemma first_lines_ids ip ip' k : same_ids ip ip' -> first_lines ip' k = first_lines ip k.
Proof. intros (E1 & E2 & E3). unfold first_lines, line. by rewrite E1, E2, E3. Qed.

(** An attempt at a request: it is taken, or it stays as it was. *)
Lemma attempt ip (e : E) :
  let '(ok, ip', e') := sendMemoryReq ip e in
  same_ids ip ip' /\ completions e' = completions e /\
  if (ok : bool)
  then m_reqCount ip' = m_reqCount ip - 1
       /\ sent e' = sent e ++ [(ip_type ip, ip_id ip, ip_core_id ip, m_reqAddr ip, m_isRead ip)]
  else m_reqCount ip' = m_reqCount ip /\ m_reqAddr ip' = m_reqAddr ip /\ m_isRead ip' = m_isRead ip /\ sent e' = sent e.
Proof.
  unfold sendMemoryReq.
  pose proof (enqueueMem_law e (ip_type ip) (ip_id ip) (ip_core_id ip) (m_reqAddr ip) (m_isRead ip)) as Hlaw.
  destruct (enqueueMem _ _ _ _ _ _) as [[|] e']; destruct Hlaw as [Hs Hc]; (split; [done|]); (split; [done|]).
  - split; [cbn; lia | done].
  - rewrite app_nil_r in Hs. done.
Qed.

(** Line [k] is produced. *)
Lemma produce sent0 k g (e : E) :
  0 <= k -> m_reqCount (base g) = 0 -> sent e = sent0 ++ first_lines (base g) k ->
  let '(g', e') := processMMURequest (DC1_ADDR_START + CACHE_LINE_SIZE * k) false g e in
  exists ip, g' = g <| base := ip |> /\ same_ids (base g) ip /\ taken sent0 (k + 1) g' e'
             /\ completions e' = completions e.
Proof.
  intros Hk Hc Hs. unfold processMMURequest. cbv zeta.
  pose proof (attempt ((base g) <| m_reqCount := 1 |> <| m_reqAddr := DC1_ADDR_START + CACHE_LINE_SIZE * k |>
                         <| m_isRead := false |>) e) as Ha.
  destruct (sendMemoryReq _ _) as [[ok ip] e']. destruct Ha as (Hid & Hd & Ha). exists ip.
  split; [done|]. split; [exact Hid|]. split; [|done]. unfold taken.
  change (base (g <| base := ip |>)) with ip.
  assert (forall j, first_lines ip j = first_lines (base g) j) as Hl by (intros j; by apply first_lines_ids).
  rewrite !Hl. destruct ok.
  - left. destruct Ha as [Hn Hsent]. split; [cbn in Hn; lia|]. rewrite Hsent, Hs, first_lines_succ by done.
    by rewrite <- app_assoc.
  - right. destruct Ha as (Hn & Hadr & Hrd & Hsent). cbn in Hn, Hadr, Hrd. replace (k + 1 - 1) with k by lia.
    rewrite Hsent, Hs. repeat split; [done | lia | done | done].
Qed.

Lemma write_line_step sent0 done0 k g (e : E) :
  writing sent0 done0 k g e -> m_reqCount (base g) = 0 -> sent e = sent0 ++ first_lines (base g) k ->
  exists g' e', write_line g e = Ok (g', e') /\
    (writing sent0 done0 (k + 1) g' e' \/ written sent0 done0 g' e').
Proof.
  intros Hw Hc Hs. pose proof (wr_range _ _ _ _ _ Hw) as Hk. pose proof (frame_bound k Hk) as Hb.
  unfold write_line. rewrite (wr_addr _ _ _ _ _ Hw).
  pose proof (produce sent0 k g e ltac:(lia) Hc Hs) as Hp. destruct (processMMURequest _ _ _ _) as [g1 e1].
  destruct Hp as (ip & -> & Hid & Ht & Hd). cbv zeta. destruct Hw as [W1 W2 W3 W4 W5 W6 W7].
  set (g2 := g <| base := ip |> <| m_addrToDC ::= fun a => u64 (a + CACHE_LINE_SIZE) |>).
  assert (m_addrToDC g2 = DC1_ADDR_START + CACHE_LINE_SIZE * (k + 1)) as Ea.
  { change (u64 (m_addrToDC g + CACHE_LINE_SIZE) = DC1_ADDR_START + CACHE_LINE_SIZE * (k + 1)).
    rewrite W5, u64_small; unfold in_u64, CACHE_LINE_SIZE in *; lia. }
  assert (taken sent0 (k + 1) g2 e1) as Ht2 by exact Ht.
  destruct (bool_decide_reflect (m_addrToDC g2 >= DC1_ADDR_START + FRAME_SIZE)) as [Hend|Hend]; rewrite Ea in Hend;
    change FRAME_SIZE with (CACHE_LINE_SIZE * frame_lines) in Hend; unfold CACHE_LINE_SIZE in Hend.
  - assert (k + 1 = frame_lines) as Ek by lia. rewrite Ek in Ht2.
    set (g3 := g2 <| writeToDCFlag := false |>).
    destruct (completeFrame_law e1 (ip_type (base g3)) (ip_id (base g3)) 0 (m_framesDisplayed g3) IP_TYPE_DC 0)
      as (e2 & E2 & S2 & C2).
    rewrite E2. cbn [mbind Res_bind]. do 2 eexists. split; [reflexivity|]. right. constructor.
    + reflexivity.
    + unfold taken in *. rewrite S2. exact Ht2.
    + rewrite C2, Hd, W7. replace (m_framesDisplayed (g3 <| m_framesDisplayed ::= Z.succ |>) - 1)
        with (m_framesDisplayed g3) by (change (m_framesDisplayed g = Z.succ (m_framesDisplayed g) - 1); lia).
      reflexivity.
  - do 2 eexists. split; [reflexivity|]. left. constructor; try assumption; [lia | by rewrite Hd].
Qed.

(** The cycle goes on to the next line once nothing waits. *)
Lemma next_line sent0 done0 k g (e : E) :
  writing sent0 done0 k g e -> m_reqCount (base g) = 0 -> sent e = sent0 ++ first_lines (base g) k ->
  exists g' e',
    (if bool_decide (fpsStalls g > 0) then stall g e else if writeToDCFlag g then write_line g e else run_trace g e)
      = Ok (g', e') /\ (writing sent0 done0 (k + 1) g' e' \/ written sent0 done0 g' e').
Proof.
  intros Hw Hc Hs. pose proof (wr_stalls _ _ _ _ _ Hw). rewrite bool_decide_eq_false_2 by lia.
  rewrite (wr_flag _ _ _ _ _ Hw). by apply (write_line_step _ _ k).
Qed.

Lemma put_same_base g : g <| base := base g |> = g.
Proof. by destruct g. Qed.

(** A cycle of writing: a request is still refused, or a line is produced. *)
Lemma writing_tick sent0 done0 k g (e : E) :
  writing sent0 done0 k g e ->
  exists g' e', tick g e = Ok (g', e') /\
    (writing sent0 done0 k g' e' \/ writing sent0 done0 (k + 1) g' e' \/ written sent0 done0 g' e').
Proof.
  intros Hw. unfold tick. rewrite (wr_enabled _ _ _ _ _ Hw). cbn [negb]. cbv zeta.
  set (g1 := upd_base (upd_stats (fun s => s <| ip_ticks ::= Z.succ |>)) g).
  assert (writing sent0 done0 k g1 e) as Hw1 by (destruct Hw; by constructor). clearbody g1. clear Hw g.
  pose proof (wr_taken _ _ _ _ _ Hw1) as [[Hc Hs]|(Hc & Hk & Ha & Hr & Hs)]; rewrite Hc.
  - rewrite bool_decide_eq_false_2 by lia. cbn [negb]. rewrite put_same_base.
    destruct (next_line _ _ k g1 e Hw1 Hc Hs) as (g' & e' & E1 & H). exists g', e'. split; [exact E1|]. by right.
  - rewrite bool_decide_eq_true_2 by lia. pose proof (attempt (base g1) e) as Hat.
    destruct (sendMemoryReq (base g1) e) as [[ok ip] e1]. destruct Hat as (Hid & Hd & Hat).
    assert (forall j, first_lines ip j = first_lines (base g1) j) as Hl by (intros j; by apply first_lines_ids).
    destruct ok; cbn [negb].
    + destruct Hat as [Hn Hsent].
      assert (sent e1 = sent0 ++ first_lines ip k) as Hs1.
      { rewrite Hl, Hsent, Hs, Ha, Hr. replace k with (k - 1 + 1) at 3 by lia.
        rewrite first_lines_succ by lia. by rewrite <- app_assoc. }
      destruct (next_line sent0 done0 k (g1 <| base := ip |>) e1) as (g' & e' & E1 & H); [| cbn; lia | exact Hs1 |].
      * destruct Hw1 as [W1 W2 W3 W4 W5 W6 W7]. constructor; try assumption; [|by rewrite Hd].
        left. split; [cbn; lia | exact Hs1].
      * exists g', e'. split; [exact E1|]. by right.
    + destruct Hat as (Hn & Hadr & Hrd & Hsent). do 2 eexists. split; [reflexivity|]. left.
      destruct Hw1 as [W1 W2 W3 W4 W5 W6 W7]. constructor; try assumption; [|by rewrite Hd].
      right. change (base (upd_base _ (g1 <| base := ip |>))) with (upd_stats (fun s => s <| idleStreak ::= Z.succ |>) ip).
      change (m_reqCount ip = 1 /\ 0 < k /\ m_reqAddr ip = DC1_ADDR_START + CACHE_LINE_SIZE * (k - 1)
              /\ m_isRead ip = false /\ sent e1 = sent0 ++ first_lines ip (k - 1)).
      rewrite Hl, Hn, Hadr, Hrd, Hsent. done.
Qed.

(** The cycles of a frame, until the display is called. *)
Fixpoint write_frame (cycles : nat) (g : GemDroidIPGPU) (e : E) : Res (GemDroidIPGPU * E) :=
  match cycles with
  | O => Ok (g, e)
  | S n => if writeToDCFlag g then '(g, e) ← tick g e; write_frame n g e else Ok (g, e)
  end.

(** C25: the GPU writes a rendered frame: whatever the agent refuses, no cycle
    fails, the lines of the frame buffer go out in order, each once, and the
    display controller is called once, when all of them but possibly the last
    have been taken. *)
Theorem gpu_frame sent0 done0 cycles g (e : E) :
  writing sent0 done0 0 g e ->
  exists g' e', write_frame cycles g e = Ok (g', e') /\
    ((exists k, writing sent0 done0 k g' e') \/ written sent0 done0 g' e').
Proof.
  generalize 0. revert g e. induction cycles as [|n IH]; intros g e k Hw; cbn [write_frame].
  - exists g, e. split; [done|]. left. by exists k.
  - rewrite (wr_flag _ _ _ _ _ Hw). destruct (writing_tick _ _ k g e Hw) as (g1 & e1 & -> & H).
    cbn [mbind Res_bind]. destruct H as [H|[H|H]]; [by apply (IH g1 e1 k) | by apply (IH g1 e1 (k + 1)) |].
    exists g1, e1. split; [|by right]. destruct n; [done|]. cbn [write_frame]. by rewrite (wn_flag _ _ _ _ H).
Qed.
End Frame.

(** ** A run

    An agent that takes every second request. *)

Record Busy := mkBusy { bz_turn : bool; bz_sent : list Request; bz_done : list Completion }.

#[export] Instance busy_port : IPPort Busy := {
  getGovernor e := 0;
  markIPRequestStarted e core ty id frame := e;
  enqueueMem e ty id core addr isRead :=
    (bz_turn e, mkBusy (negb (bz_turn e))
                  (bz_sent e ++ if bz_turn e then [(ty, id, core, addr, isRead)] else []) (bz_done e));
  completeFrame e ty id core frame flowType flowId :=
    Ok (mkBusy (bz_turn e) (bz_sent e) (bz_done e ++ [(ty, id, core, frame, flowType, flowId)]))
}.

#[export] Instance busy_gpu_port : GPUPort Busy := {
  gpu_getTicks e := 0;
  gpu_markIPRequestCompleted e core ty id frame flow := Ok e;
  gpu_stopFetch e := e
}.

#[export] Instance busy_laws : IPPortLaws Busy.
Proof.
  refine {| sent := bz_sent; completions := bz_done |}.
  - intros e ty id core addr isRead. done.
  - done.
  - intros e ty id core frame flowType flowId. eexists. by split.
Defined.

(** A GPU that has rendered a frame. *)
Definition rendered : GemDroidIPGPU :=
  mkGPU (zero_ip <| ip_type := IP_TYPE_GPU |>) (mkStream [] false) 0 0 0 true true DC1_ADDR_START 0 0 0 0 0 0.

(** Nine cycles: eight lines have gone out and the ninth waits. *)
Lemma gpu_frame_witness :
  exists g e, write_frame 9 rendered (mkBusy true [] []) = Ok (g, e)
    /\ ((exists k, writing [] [] k g e) \/ written [] [] g e)
    /\ bz_sent e = first_lines (base rendered) 8 /\ m_reqCount (base g) = 1.
Proof.
  destruct (gpu_frame (E := Busy) [] [] 9 rendered (mkBusy true [] [])) as (g & e & E & H).
  - constructor; [done | by vm_compute | done | by vm_compute | by vm_compute | left; by split | done].
  - exists g, e. split; [exact E|]. split; [exact H|].
    assert ((r ← write_frame 9 rendered (mkBusy true [] []); Ok (bz_sent r.2, m_reqCount (base r.1)))
            = Ok (first_lines (base rendered) 8, 1)) as Hr by by vm_compute.
    rewrite E in Hr. injection Hr as H1 H2. split; [exact H1 | exact H2].
Defined.
