(* ===== verification/Cores.v ===== *)
(** * Cores ([gemdroid_core.cc], [gemdroid_core.hh], [gemdroid_core_util.hh])

    A core replays a trace: compute lines, memory accesses and calls to IPs.
    It keeps a reorder buffer of compute transactions and memory accesses,
    stalls for idle time and for the frame rate, and sleeps in power states.
    The members of [CoreStats] only count (and feed the power estimates); the
    table of frequencies never changes and is a constant. *)

From S2P Require Import Prelude.
From S2P Require Import DramConfig.
From S2P Require Import GemDefines.
From S2P Require Import TraceFile.

Module Core.

(** ** Constants *)

Definition MAX_TRANSACTIONS : Z := 100.
Definition ROB_SIZE : Z := 32.
Definition TARGET_AUD_FPS : Z := 60.
Definition DEADLOCK_PERIOD : Z := 100000.
Definition CORE_PSTATE_LOWPOWER_ENTER_TIME : Z := 200000.
Definition CORE_PSTATE_IDLE_ENTER_TIME : Z := 1128900.
Definition CORE_PSTATE_LOWPOWER_EXIT_TIME : Z := 54600.
Definition CORE_PSTATE_IDLE_EXIT_TIME : Z := 2634600.
Definition ENABLE_CORE_IDLE : bool := false.
Definition CORE_CAPACITANCE : spec_float := F64.of_Z 1.
Definition CORE_STATIC_PWR : spec_float := F64.lit 35 100.
Definition IN_ORDER : bool := true.

(** [(GEMDROID_FREQ * 1000 * 1000 * 1000) / fps], a double. *)
Definition frame_ticks (fps : Z) : spec_float :=
  F64.div (F64.mul (F64.mul (F64.mul GEMDROID_FREQ (F64.of_Z 1000)) (F64.of_Z 1000)) (F64.of_Z 1000)) (F64.of_Z fps).
Definition FPS_TICKS : spec_float := frame_ticks TARGET_FPS.
Definition AUD_FPS_TICKS : spec_float := frame_ticks TARGET_AUD_FPS.

Inductive CPU_PSTATE := CPU_PSTATE_ACTIVE | CPU_PSTATE_LOWPOWER | CPU_PSTATE_IDLE.
Inductive APP_TYPE := CORE_BOUND | DISPLAY_BOUND | VIDEO_PLAYBACK | AUDIO_PLAYBACK.
Inductive INSTR_TYPE := INSTR_CPU | INSTR_MMU_LD | INSTR_MMU_ST | INSTR_OTHERS.

#[export] Instance CPU_PSTATE_eq_dec : EqDecision CPU_PSTATE.
Proof. solve_decision. Defined.
#[export] Instance APP_TYPE_eq_dec : EqDecision APP_TYPE.
Proof. solve_decision. Defined.
#[export] Instance INSTR_TYPE_eq_dec : EqDecision INSTR_TYPE.
Proof. solve_decision. Defined.

(** ** What a core asks of the platform

    Identifiers come first: core, then IP type and id, then the frame. *)

Class CorePort (E : Type) := {
  getGovernor : E -> Z;
  getTicks : E -> Z;
  markIPRequestStarted : E -> Z -> Z -> Z -> Z -> E;
  (** ... frame, flow; the platform reads the core's own frequency back, whose
      state is the last argument. *)
  markIPRequestCompleted : E -> Z -> Z -> Z -> Z -> Z -> Z -> Res E;
  (** IP, core, flow type *)
  nextIPtoCall : E -> Z -> Z -> Z -> Res (list Z);
  (** core, IP *)
  flow_identification : E -> Z -> Z -> Res (list Z);
  (** core, address, is a read *)
  enqueueCoreMemRequest : E -> Z -> Z -> bool -> bool * E;
  isIPReqLimitReached : E -> Z -> Res bool;
  (** core, IP, address, size, is a read, frame, flow type, flow *)
  enqueueCoreIPRequest : E -> Z -> Z -> Z -> Z -> bool -> Z -> Z -> Z -> Res (bool * E);
  (** [m_totalCommittedInsns++] *)
  countCommittedInsn : E -> E;
  (** [true_fetch = false] *)
  stopFetch : E -> E
}.

(** ** State *)

Record GemDroidOoOTransaction := mkOoO {
  transaction_type : INSTR_TYPE;
  number_of_instructions : Z;
  instr_executed_ooo : Z;
  addr : Z;
  can_be_committed : bool;
  inserted_tick : Z;
  isIssued : bool
}.

#[export] Instance eta_GemDroidOoOTransaction : Settable GemDroidOoOTransaction := fun r =>
  mkOoO (transaction_type r) (number_of_instructions r) (instr_executed_ooo r) (addr r)
    (can_be_committed r) (inserted_tick r) (isIssued r).

#[export] Instance set_transaction_type : Setter transaction_type := ltac:(mk_setter).
#[export] Instance set_number_of_instructions : Setter number_of_instructions := ltac:(mk_setter).
#[export] Instance set_instr_executed_ooo : Setter instr_executed_ooo := ltac:(mk_setter).
#[export] Instance set_addr : Setter addr := ltac:(mk_setter).
#[export] Instance set_can_be_committed : Setter can_be_committed := ltac:(mk_setter).
#[export] Instance set_inserted_tick : Setter inserted_tick := ltac:(mk_setter).
#[export] Instance set_isIssued : Setter isIssued := ltac:(mk_setter).

(** The constructor of a transaction, with its assertions. *)
Definition new_transaction (ty : INSTR_TYPE) (insns a : Z) : Res GemDroidOoOTransaction :=
  let mmu := bool_decide (ty = INSTR_MMU_LD) || bool_decide (ty = INSTR_MMU_ST) in
  if bool_decide (ty = INSTR_CPU) && negb (bool_decide (a = u64 (-1))) then Err (AssertFail "addr == -1")
  else if mmu && bool_decide (a = 1) then Err (AssertFail "addr != 1")
  else if mmu && negb (bool_decide (insns = 0)) then Err (AssertFail "number_of_instructions == 0")
  else Ok (mkOoO ty insns 0 a false (-1) false).

Definition isRead (t : GemDroidOoOTransaction) : Res bool :=
  if bool_decide (transaction_type t = INSTR_CPU) then Err (AssertFail "transaction_type != INSTR_CPU")
  else Ok (bool_decide (transaction_type t = INSTR_MMU_LD)).

Definition commit_transaction (t : GemDroidOoOTransaction) : GemDroidOoOTransaction :=
  t <| can_be_committed := true |>.

Definition commit_instruction (t : GemDroidOoOTransaction) : Res GemDroidOoOTransaction :=
  if bool_decide (number_of_instructions t = 0) then Err (AssertFail "number_of_instructions")
  else Ok (t <| number_of_instructions ::= Z.pred |> <| instr_executed_ooo ::= Z.succ |>).

Definition reset_instr_committed (t : GemDroidOoOTransaction) : GemDroidOoOTransaction :=
  t <| instr_executed_ooo := 0 |>.

Definition issueToMem (t : GemDroidOoOTransaction) : GemDroidOoOTransaction := t <| isIssued := true |>.
Definition setInsertedTick (tick : Z) (t : GemDroidOoOTransaction) : GemDroidOoOTransaction :=
  t <| inserted_tick := tick |>.

Record CoreStats := mkCoreStats {
  m_cycles : Z;
  m_committedInsns : Z;
  m_memReqs : Z;
  m_ipReqs : Z;
  lines_read_cpu : Z;
  m_idleStallsCount : Z;
  m_fpsStallsCount : Z;
  m_framesDisplayed : Z;
  m_framesDropped : Z;
  m_framesDroppedDueToRobStalls : Z;
  m_framesDroppedDueToMemStalls : Z;
  m_framesDroppedDueToIPStalls : Z;
  m_thisFrameRobFullStalls : Z;
  m_thisFrameMemFullStalls : Z;
  m_thisFrameIPFullStalls : Z;
  m_activePStateCycles : Z;
  m_lowpowerPStateCycles : Z;
  m_idlePStateCycles : Z;
  m_thisMilliSecActivePStateCycles : Z;
  m_thisMilliSecLowpowerPStateCycles : Z;
  m_thisMilliSecIdlePStateCycles : Z;
  m_thisMilliSecInstructionsCommitted : Z;
  m_thisMilliSecRobFullStalls : Z;
  m_thisMilliSecIdleStalls : Z;
  m_thisDVFSEpochInstructionsCommitted : Z;
  m_thisMicroSecActivePStateCycles : Z;
  m_thisMicroSecLowpowerPStateCycles : Z;
  m_thisMicroSecIdlePStateCycles : Z;
  m_thisMicroSecInstructionsCommitted : Z;
  m_thisMicroSecRobFullStalls : Z;
  m_profileRobFullStalls : Z;
  m_profileMemFullStalls : Z;
  m_profileActiveCycles : Z;
  m_profileStartCPUCycle : Z;
  profileStartGemDroidCycle : Z;
  flagProfile : bool;
  m_ipCallsPresentInTrace : list Z
}.

#[export] Instance eta_CoreStats : Settable CoreStats := fun r =>
  mkCoreStats (m_cycles r) (m_committedInsns r) (m_memReqs r) (m_ipReqs r) (lines_read_cpu r)
    (m_idleStallsCount r) (m_fpsStallsCount r) (m_framesDisplayed r) (m_framesDropped r)
    (m_framesDroppedDueToRobStalls r) (m_framesDroppedDueToMemStalls r)
    (m_framesDroppedDueToIPStalls r) (m_thisFrameRobFullStalls r) (m_thisFrameMemFullStalls r)
    (m_thisFrameIPFullStalls r) (m_activePStateCycles r) (m_lowpowerPStateCycles r)
    (m_idlePStateCycles r) (m_thisMilliSecActivePStateCycles r)
    (m_thisMilliSecLowpowerPStateCycles r) (m_thisMilliSecIdlePStateCycles r)
    (m_thisMilliSecInstructionsCommitted r) (m_thisMilliSecRobFullStalls r)
    (m_thisMilliSecIdleStalls r) (m_thisDVFSEpochInstructionsCommitted r)
    (m_thisMicroSecActivePStateCycles r) (m_thisMicroSecLowpowerPStateCycles r)
    (m_thisMicroSecIdlePStateCycles r) (m_thisMicroSecInstructionsCommitted r)
    (m_thisMicroSecRobFullStalls r) (m_profileRobFullStalls r) (m_profileMemFullStalls r)
    (m_profileActiveCycles r) (m_profileStartCPUCycle r) (profileStartGemDroidCycle r)
    (flagProfile r) (m_ipCallsPresentInTrace r).

#[export] Instance set_m_cycles : Setter m_cycles := ltac:(mk_setter).
#[export] Instance set_m_committedInsns : Setter m_committedInsns := ltac:(mk_setter).
#[export] Instance set_m_memReqs : Setter m_memReqs := ltac:(mk_setter).
#[export] Instance set_m_ipReqs : Setter m_ipReqs := ltac:(mk_setter).
#[export] Instance set_lines_read_cpu : Setter lines_read_cpu := ltac:(mk_setter).
#[export] Instance set_m_idleStallsCount : Setter m_idleStallsCount := ltac:(mk_setter).
#[export] Instance set_m_fpsStallsCount : Setter m_fpsStallsCount := ltac:(mk_setter).
#[export] Instance set_m_framesDisplayed : Setter m_framesDisplayed := ltac:(mk_setter).
#[export] Instance set_m_framesDropped : Setter m_framesDropped := ltac:(mk_setter).
#[export] Instance set_m_framesDroppedDueToRobStalls : Setter m_framesDroppedDueToRobStalls := ltac:(mk_setter).
#[export] Instance set_m_framesDroppedDueToMemStalls : Setter m_framesDroppedDueToMemStalls := ltac:(mk_setter).
#[export] Instance set_m_framesDroppedDueToIPStalls : Setter m_framesDroppedDueToIPStalls := ltac:(mk_setter).
#[export] Instance set_m_thisFrameRobFullStalls : Setter m_thisFrameRobFullStalls := ltac:(mk_setter).
#[export] Instance set_m_thisFrameMemFullStalls : Setter m_thisFrameMemFullStalls := ltac:(mk_setter).
#[export] Instance set_m_thisFrameIPFullStalls : Setter m_thisFrameIPFullStalls := ltac:(mk_setter).
#[export] Instance set_m_activePStateCycles : Setter m_activePStateCycles := ltac:(mk_setter).
#[export] Instance set_m_lowpowerPStateCycles : Setter m_lowpowerPStateCycles := ltac:(mk_setter).
#[export] Instance set_m_idlePStateCycles : Setter m_idlePStateCycles := ltac:(mk_setter).
#[export] Instance set_m_thisMilliSecActivePStateCycles : Setter m_thisMilliSecActivePStateCycles := ltac:(mk_setter).
#[export] Instance set_m_thisMilliSecLowpowerPStateCycles : Setter m_thisMilliSecLowpowerPStateCycles := ltac:(mk_setter).
#[export] Instance set_m_thisMilliSecIdlePStateCycles : Setter m_thisMilliSecIdlePStateCycles := ltac:(mk_setter).
#[export] Instance set_m_thisMilliSecInstructionsCommitted : Setter m_thisMilliSecInstructionsCommitted := ltac:(mk_setter).
#[export] Instance set_m_thisMilliSecRobFullStalls : Setter m_thisMilliSecRobFullStalls := ltac:(mk_setter).
#[export] Instance set_m_thisMilliSecIdleStalls : Setter m_thisMilliSecIdleStalls := ltac:(mk_setter).
#[export] Instance set_m_thisDVFSEpochInstructionsCommitted : Setter m_thisDVFSEpochInstructionsCommitted := ltac:(mk_setter).
#[export] Instance set_m_thisMicroSecActivePStateCycles : Setter m_thisMicroSecActivePStateCycles := ltac:(mk_setter).
#[export] Instance set_m_thisMicroSecLowpowerPStateCycles : Setter m_thisMicroSecLowpowerPStateCycles := ltac:(mk_setter).
#[export] Instance set_m_thisMicroSecIdlePStateCycles : Setter m_thisMicroSecIdlePStateCycles := ltac:(mk_setter).
#[export] Instance set_m_thisMicroSecInstructionsCommitted : Setter m_thisMicroSecInstructionsCommitted := ltac:(mk_setter).
#[export] Instance set_m_thisMicroSecRobFullStalls : Setter m_thisMicroSecRobFullStalls := ltac:(mk_setter).
#[export] Instance set_m_profileRobFullStalls : Setter m_profileRobFullStalls := ltac:(mk_setter).
#[export] Instance set_m_profileMemFullStalls : Setter m_profileMemFullStalls := ltac:(mk_setter).
#[export] Instance set_m_profileActiveCycles : Setter m_profileActiveCycles := ltac:(mk_setter).
#[export] Instance set_m_profileStartCPUCycle : Setter m_profileStartCPUCycle := ltac:(mk_setter).
#[export] Instance set_profileStartGemDroidCycle : Setter profileStartGemDroidCycle := ltac:(mk_setter).
#[export] Instance set_flagProfile : Setter flagProfile := ltac:(mk_setter).
#[export] Instance set_m_ipCallsPresentInTrace : Setter m_ipCallsPresentInTrace := ltac:(mk_setter).

Record GemDroidCore := mkCore {
  core_id : Z;
  app_id : Z;
  issue_width : Z;
  ticks : Z;
  idleCycles : Z;
  cyclesToWake : Z;
  idleStreak : Z;
  cpu_pstate : CPU_PSTATE;
  needToLookAhead : bool;
  qemu_to_60FPS_speedratio : spec_float;
  em_trace_file : Stream;
  lookahead_trace_file : Stream;
  type_of_application : APP_TYPE;
  idleStalls : Z;
  fpsStalls : Z;
  lastDCTick : Z;
  audFpsStalls : Z;
  lastSNDTick : Z;
  m_readFBLine : bool;
  outstanding_transactions : list GemDroidOoOTransaction;
  outstanding_transactions_size : Z;
  number_of_instr_executed_OoO : Z;
  deadlocks_faced : Z;
  dvfsCounter : Z;
  dvfsState : Z;
  optDVFSState : Z;
  powerInLastEpoch : spec_float;
  pstateTimer : Z;
  m_frameNumber : list Z;
  startCycle : Z;
  stats : CoreStats
}.

#[export] Instance eta_GemDroidCore : Settable GemDroidCore := fun r =>
  mkCore (core_id r) (app_id r) (issue_width r) (ticks r) (idleCycles r) (cyclesToWake r)
    (idleStreak r) (cpu_pstate r) (needToLookAhead r) (qemu_to_60FPS_speedratio r)
    (em_trace_file r) (lookahead_trace_file r) (type_of_application r) (idleStalls r)
    (fpsStalls r) (lastDCTick r) (audFpsStalls r) (lastSNDTick r) (m_readFBLine r)
    (outstanding_transactions r) (outstanding_transactions_size r)
    (number_of_instr_executed_OoO r) (deadlocks_faced r) (dvfsCounter r) (dvfsState r)
    (optDVFSState r) (powerInLastEpoch r) (pstateTimer r) (m_frameNumber r) (startCycle r)
    (stats r).

#[export] Instance set_core_id : Setter core_id := ltac:(mk_setter).
#[export] Instance set_app_id : Setter app_id := ltac:(mk_setter).
#[export] Instance set_issue_width : Setter issue_width := ltac:(mk_setter).
#[export] Instance set_ticks : Setter ticks := ltac:(mk_setter).
#[export] Instance set_idleCycles : Setter idleCycles := ltac:(mk_setter).
#[export] Instance set_cyclesToWake : Setter cyclesToWake := ltac:(mk_setter).
#[export] Instance set_idleStreak : Setter idleStreak := ltac:(mk_setter).
#[export] Instance set_cpu_pstate : Setter cpu_pstate := ltac:(mk_setter).
#[export] Instance set_needToLookAhead : Setter needToLookAhead := ltac:(mk_setter).
#[export] Instance set_qemu_to_60FPS_speedratio : Setter qemu_to_60FPS_speedratio := ltac:(mk_setter).
#[export] Instance set_em_trace_file : Setter em_trace_file := ltac:(mk_setter).
#[export] Instance set_lookahead_trace_file : Setter lookahead_trace_file := ltac:(mk_setter).
#[export] Instance set_type_of_application : Setter type_of_application := ltac:(mk_setter).
#[export] Instance set_idleStalls : Setter idleStalls := ltac:(mk_setter).
#[export] Instance set_fpsStalls : Setter fpsStalls := ltac:(mk_setter).
#[export] Instance set_lastDCTick : Setter lastDCTick := ltac:(mk_setter).
#[export] Instance set_audFpsStalls : Setter audFpsStalls := ltac:(mk_setter).
#[export] Instance set_lastSNDTick : Setter lastSNDTick := ltac:(mk_setter).
#[export] Instance set_m_readFBLine : Setter m_readFBLine := ltac:(mk_setter).
#[export] Instance set_outstanding_transactions : Setter outstanding_transactions := ltac:(mk_setter).
#[export] Instance set_outstanding_transactions_size : Setter outstanding_transactions_size := ltac:(mk_setter).
#[export] Instance set_number_of_instr_executed_OoO : Setter number_of_instr_executed_OoO := ltac:(mk_setter).
#[export] Instance set_deadlocks_faced : Setter deadlocks_faced := ltac:(mk_setter).
#[export] Instance set_dvfsCounter : Setter dvfsCounter := ltac:(mk_setter).
#[export] Instance set_dvfsState : Setter dvfsState := ltac:(mk_setter).
#[export] Instance set_optDVFSState : Setter optDVFSState := ltac:(mk_setter).
#[export] Instance set_powerInLastEpoch : Setter powerInLastEpoch := ltac:(mk_setter).
#[export] Instance set_pstateTimer : Setter pstateTimer := ltac:(mk_setter).
#[export] Instance set_m_frameNumber : Setter m_frameNumber := ltac:(mk_setter).
#[export] Instance set_startCycle : Setter startCycle := ltac:(mk_setter).
#[export] Instance set_stats : Setter stats := ltac:(mk_setter).

Definition upd_stats (g : CoreStats -> CoreStats) (c : GemDroidCore) : GemDroidCore := c <| stats ::= g |>.

(** ** Frequency table

    Voltage, frequency in GHz, static and dynamic power of each state. The
    voltages are in units of 10^-10 V and the frequencies in tenths. *)

Definition volt_freq : list (Z * Z) :=
  [(9250000000, 3); (9485714286, 4); (9721428571, 5); (9957142857, 6); (10192857143, 7);
   (10428571429, 8); (10664285714, 9); (10900000000, 10); (11135714286, 11); (11371428571, 12);
   (11607142857, 14); (11842857143, 16); (12550000000, 18)].

Record Row := mkRow { tbl_volt : spec_float; tbl_freq : spec_float; tbl_static : spec_float; tbl_dynamic : spec_float }.

Definition voltage_freq_table : list Row :=
  (fun vf =>
     let v := F64.lit vf.1 10000000000 in let f := F64.lit vf.2 10 in
     mkRow v f CORE_STATIC_PWR (F64.mul (F64.mul (F64.mul CORE_CAPACITANCE v) v) f)) <$> volt_freq.

(** ** Constructor

    [c0] is the object as it was allocated: the members that the constructor
    leaves alone keep its values. *)

Definition GemDroidCore_new (c0 : GemDroidCore) : GemDroidCore :=
  let c := c0 <| number_of_instr_executed_OoO := 0 |> <| deadlocks_faced := 0 |>
              <| outstanding_transactions_size := 0 |> <| type_of_application := CORE_BOUND |>
              <| needToLookAhead := true |> <| idleCycles := 0 |> <| cyclesToWake := 0 |> <| idleStreak := 0 |>
              <| ticks := 0 |> <| fpsStalls := 0 |> <| lastDCTick := 0 |> <| audFpsStalls := 0 |>
              <| lastSNDTick := 0 |> <| m_readFBLine := false |> <| idleStalls := 0 |>
              <| qemu_to_60FPS_speedratio := F64.of_Z 0 |> <| startCycle := 0 |>
              <| m_frameNumber := replicate (Z.to_nat IP_TYPE_END) 0 |>
              <| outstanding_transactions := [] |> <| dvfsCounter := 0 |> in
  upd_stats (fun s =>
    s <| m_idleStallsCount := 0 |> <| m_committedInsns := 0 |> <| m_cycles := 0 |> <| m_memReqs := 0 |>
      <| m_ipReqs := 0 |> <| lines_read_cpu := 0 |> <| m_framesDisplayed := 0 |> <| m_framesDropped := 0 |>
      <| m_framesDroppedDueToRobStalls := 0 |> <| m_framesDroppedDueToMemStalls := 0 |>
      <| m_fpsStallsCount := 0 |> <| m_thisFrameRobFullStalls := 0 |> <| m_thisFrameMemFullStalls := 0 |>
      <| m_activePStateCycles := 0 |> <| m_lowpowerPStateCycles := 0 |> <| m_idlePStateCycles := 0 |>
      <| m_thisMilliSecActivePStateCycles := 0 |> <| m_thisMilliSecLowpowerPStateCycles := 0 |>
      <| m_thisMilliSecIdlePStateCycles := 0 |> <| m_thisMilliSecInstructionsCommitted := 0 |>
      <| m_thisMilliSecRobFullStalls := 0 |> <| m_thisDVFSEpochInstructionsCommitted := 0 |>
      <| m_thisMilliSecIdleStalls := 0 |>
      <| m_thisMicroSecActivePStateCycles := 0 |> <| m_thisMicroSecLowpowerPStateCycles := 0 |>
      <| m_thisMicroSecIdlePStateCycles := 0 |> <| m_thisMicroSecInstructionsCommitted := 0 |>
      <| m_thisMicroSecRobFullStalls := 0 |>
      <| m_ipCallsPresentInTrace := replicate (Z.to_nat IP_TYPE_END) 0 |>) c.

Definition resetStats (c : GemDroidCore) : GemDroidCore :=
  upd_stats (fun s =>
    s <| m_committedInsns := 0 |> <| m_cycles := 0 |> <| m_memReqs := 0 |> <| m_ipReqs := 0 |>
      <| lines_read_cpu := 0 |> <| m_fpsStallsCount := 0 |> <| m_framesDisplayed := 0 |>
      <| m_framesDropped := 0 |> <| m_framesDroppedDueToRobStalls := 0 |>
      <| m_framesDroppedDueToMemStalls := 0 |> <| m_thisFrameRobFullStalls := 0 |>
      <| m_thisFrameMemFullStalls := 0 |> <| m_activePStateCycles := 0 |>
      <| m_lowpowerPStateCycles := 0 |> <| m_idlePStateCycles := 0 |>) c.

(** ** Frequency *)

Fixpoint index_of_freq (freq : spec_float) (i : Z) (rows : list Row) : Z :=
  match rows with
  | [] => -1
  | row :: rows' => if F64.eqb freq (tbl_freq row) then i else index_of_freq freq (i + 1) rows'
  end.
Definition getIndexInTable (freq : spec_float) : Z := index_of_freq freq 0 voltage_freq_table.

(** The array is read without a check. *)
Definition row_at (ind : Z) : Res Row :=
  match zget voltage_freq_table ind with Some row => Ok row | None => Err OutOfTable end.
Definition getCoreFreq (c : GemDroidCore) : Res spec_float := row ← row_at (dvfsState c); Ok (tbl_freq row).

Definition clamp_index (ind : Z) : Z :=
  if bool_decide (ind >= CORE_DVFS_STATES) then CORE_DVFS_STATES - 1
  else if bool_decide (ind < 0) then 0 else ind.
Definition getCoreFreq_at (ind : Z) : Res spec_float := row ← row_at (clamp_index ind); Ok (tbl_freq row).

Definition incFreq (steps : Z) (c : GemDroidCore) : bool * GemDroidCore :=
  if bool_decide (dvfsState c < CORE_DVFS_STATES - 1) then (true, c <| dvfsState ::= Z.add steps |>)
  else (false, c).

Definition decFreq (governor steps : Z) (c : GemDroidCore) : bool * GemDroidCore :=
  if bool_decide (governor = GOVERNOR_TYPE_INTERACTIVE) && bool_decide (dvfsCounter c > 0) then (false, c)
  else if bool_decide (dvfsState c > steps - 1) then (true, c <| dvfsState ::= fun s => s - steps |>)
  else (false, c).

Definition setMaxCoreFreq (governor : Z) (c : GemDroidCore) : GemDroidCore :=
  let c := c <| dvfsState := CORE_DVFS_STATES - 1 |> in
  if bool_decide (governor = GOVERNOR_TYPE_INTERACTIVE) then c <| dvfsCounter := INTERACTIVE_GOVERNOR_LAT |>
  else c.
Definition setMinCoreFreq (c : GemDroidCore) : GemDroidCore := c <| dvfsState := 0 |>.
Definition setOptCoreFreq (c : GemDroidCore) : GemDroidCore := c <| dvfsState := optDVFSState c |>.

Definition setCoreFreqInd (ind : Z) (c : GemDroidCore) : Res GemDroidCore :=
  if bool_decide (ind > -1) && bool_decide (ind < CORE_DVFS_STATES) then Ok (c <| dvfsState := ind |>)
  else Err (AssertFail "ind > -1 && ind < CORE_DVFS_STATES").
Definition setCoreFreq (freq : spec_float) (c : GemDroidCore) : Res GemDroidCore :=
  setCoreFreqInd (getIndexInTable freq) c.

Definition updateDVFS (governor : Z) (c : GemDroidCore) : GemDroidCore :=
  if bool_decide (governor = GOVERNOR_TYPE_INTERACTIVE) then c <| dvfsCounter ::= Z.pred |> else c.

(** The first state whose power is below the budget, or the last one. *)
Fixpoint freq_for_power (power : spec_float) (rows : list Row) (last : spec_float) : spec_float :=
  match rows with
  | [] => last
  | row :: rows' =>
      if F64.ltb (F64.add (tbl_static row) (tbl_dynamic row)) power then tbl_freq row
      else freq_for_power power rows' last
  end.
Definition getFreqForPower (power : spec_float) : Res spec_float :=
  last ← getCoreFreq_at (CORE_DVFS_STATES - 1);
  Ok (freq_for_power power voltage_freq_table last).

(** [int freq = getFreqForPower(...)]: the frequency in GHz becomes an index. *)
Definition setMaxAllowedFreq (coordinated : spec_float) (c : GemDroidCore) : Res GemDroidCore :=
  freq ← getFreqForPower (F64.sub coordinated (powerInLastEpoch c));
  row ← row_at (F32.trunc freq);
  setCoreFreq (tbl_freq row) c.

Definition getTimeEst (time oldFreq newFreq : spec_float) : spec_float := F64.mul time (F64.div oldFreq newFreq).

(** The loop that lowers the frequency while the frame still fits: the last
    index tried, where [n] counts the indices from [optFreqInd] to [k]. *)
Fixpoint slowest_in_time (n : nat) (k : Z) (scaledTime freq limit : spec_float) : Res Z :=
  match n with
  | O => Ok k
  | S n' =>
      f ← getCoreFreq_at k;
      if F64.ltb limit (getTimeEst scaledTime freq f) then Ok k
      else slowest_in_time n' (k - 1) scaledTime freq limit
  end.

(** [scaledTime] is what the platform's [memScaledTimeCPU] gives; the new
    frequency and the slack that is left. *)
Definition getFreqForSlackOptimal (c : GemDroidCore) (scaledTime prevTime slack : spec_float)
  : Res (spec_float * spec_float) :=
  currFreq ← getCoreFreq c;
  newFreq ←
    (if F64.ltb slack (F64.of_Z 0) then getCoreFreq_at (dvfsState c + 2)
     else if bool_decide (dvfsState c > optDVFSState c) then
       k ← slowest_in_time (Z.to_nat (dvfsState c - optDVFSState c)) (dvfsState c - 1) scaledTime currFreq
             (F64.add prevTime slack);
       f ← getCoreFreq_at (k + 1);
       if F64.ltb (F64.of_Z 0) f then Ok f else Err (AssertFail "newFreq > 0")
     else getCoreFreq_at (optDVFSState c));
  let newTime := getTimeEst scaledTime currFreq newFreq in
  Ok (newFreq, F64.sub slack (F64.sub newTime prevTime)).

(** ** Power *)

Definition getStaticPower (c : GemDroidCore) (activePortion lowPortion : spec_float) : Res spec_float :=
  row ← row_at (dvfsState c);
  Ok (F64.add (F64.mul (tbl_static row) activePortion) (F64.mul (F64.div (tbl_static row) (F64.of_Z 3)) lowPortion)).

Definition getDynamicPower (c : GemDroidCore) (coreActivity coreStallActivity : spec_float) : Res spec_float :=
  let coreActivity := if F64.ltb (F64.of_Z 1) coreActivity then F64.of_Z 1 else coreActivity in
  row ← row_at (dvfsState c);
  Ok (F64.add (F64.mul coreActivity (tbl_dynamic row))
              (F64.div (F64.mul coreStallActivity (tbl_dynamic row)) (F64.of_Z 3))).

(** The power of a period of [clocks] cycles at 1 GHz, from its counters. The
    stall activity is a quotient of integers, and dividing by zero stops the
    program. *)
Definition power_of_period (c : GemDroidCore) (clocks active lowpower insns robStalls : Z) : Res spec_float :=
  f ← getCoreFreq c;
  let one := F32.trunc (F64.mul f (F64.of_Z clocks)) in
  static ← getStaticPower c (F64.div (F64.of_Z active) (F64.of_Z one)) (F64.div (F64.of_Z lowpower) (F64.of_Z one));
  let slots := issue_width c * one in
  if bool_decide (slots = 0) then Err (Abort "SIGFPE")
  else
    dynamic ← getDynamicPower c (F64.div (F64.of_Z insns) (F64.of_Z slots)) (F64.of_Z (Z.quot robStalls slots));
    Ok (F64.add static dynamic).

Definition powerIn1us (c : GemDroidCore) : Res (spec_float * GemDroidCore) :=
  let s := stats c in
  power ← power_of_period c 1000 (m_thisMicroSecActivePStateCycles s) (m_thisMicroSecLowpowerPStateCycles s)
            (m_thisMicroSecInstructionsCommitted s) (m_thisMicroSecRobFullStalls s);
  Ok (power, upd_stats (fun s =>
        s <| m_thisMicroSecActivePStateCycles := 0 |> <| m_thisMicroSecLowpowerPStateCycles := 0 |>
          <| m_thisMicroSecIdlePStateCycles := 0 |> <| m_thisMicroSecInstructionsCommitted := 0 |>
          <| m_thisMicroSecRobFullStalls := 0 |>) c).

Definition powerIn1ms (c : GemDroidCore) : Res (spec_float * GemDroidCore) :=
  let s := stats c in
  power ← power_of_period c 1000000 (m_thisMilliSecActivePStateCycles s) (m_thisMilliSecLowpowerPStateCycles s)
            (m_thisMilliSecInstructionsCommitted s) (m_thisMilliSecRobFullStalls s);
  let c := upd_stats (fun s =>
        s <| m_thisMilliSecActivePStateCycles := 0 |> <| m_thisMilliSecLowpowerPStateCycles := 0 |>
          <| m_thisMilliSecIdlePStateCycles := 0 |> <| m_thisMilliSecInstructionsCommitted := 0 |>
          <| m_thisMilliSecRobFullStalls := 0 |> <| m_thisMilliSecIdleStalls := 0 |>) c in
  Ok (power, c <| powerInLastEpoch := power |>).

(** [lastTime] is the platform's [lastTimeTook] of the CPU. *)
Definition getLoadInLastDVFSEpoch (lastTime : spec_float) (c : GemDroidCore) : Res (spec_float * GemDroidCore) :=
  f ← getCoreFreq c;
  let ticks_in_epoch := F64.mul (F64.mul lastTime (F64.of_Z 1000000)) f in
  let core_util := F64.div (F64.of_Z (m_thisDVFSEpochInstructionsCommitted (stats c)))
                           (F64.mul ticks_in_epoch (F64.of_Z (issue_width c))) in
  Ok (core_util, upd_stats (fun s => s <| m_thisDVFSEpochInstructionsCommitted := 0 |>) c).

Definition getPowerEst (c : GemDroidCore) : Res spec_float :=
  if bool_decide (cpu_pstate c = CPU_PSTATE_ACTIVE)
  then row ← row_at (dvfsState c);
       Ok (F64.add (F64.div (tbl_static row) (F64.of_Z 2)) (F64.div (tbl_dynamic row) (F64.of_Z 2)))
  else Ok (F64.of_Z 0).

Definition getEnergyEst (c : GemDroidCore) (time power newFreq : spec_float) : Res spec_float :=
  let dynPower := F64.sub power CORE_STATIC_PWR in
  row ← row_at (dvfsState c);
  let activity := F64.div dynPower (tbl_dynamic row) in
  let newTime := F64.mul time (F64.div (tbl_freq row) newFreq) in
  row' ← row_at (getIndexInTable newFreq);
  let newDynPower := F64.mul activity (tbl_dynamic row') in
  Ok (F64.add (F64.mul newTime CORE_STATIC_PWR) (F64.mul newTime newDynPower)).

(** [getProfileFractionOfMemInst] *)
Definition getProfileFractionOfMemInst (c : GemDroidCore) : spec_float :=
  let s := stats c in
  F64.div (F64.of_Z (m_profileMemFullStalls s + m_profileRobFullStalls s)) (F64.of_Z (m_profileActiveCycles s)).

(** ** The reorder buffer *)

(** [outstanding_transactions[i]] *)
Definition transaction (c : GemDroidCore) (i : Z) : Res GemDroidOoOTransaction :=
  of_option (zget (outstanding_transactions c) i).
Definition set_transaction (i : Z) (t : GemDroidOoOTransaction) (c : GemDroidCore) : GemDroidCore :=
  c <| outstanding_transactions ::= fun l => zalter (fun _ => t) l i |>.

(** The loops stop at [outstanding_transactions_size] and at MAX_TRANSACTIONS;
    they read the vector in order, so they go down the list. *)
Fixpoint search_rob (found : GemDroidOoOTransaction -> bool) (n : nat) (i : Z) (l : list GemDroidOoOTransaction)
  : Res (option Z) :=
  match n with
  | O => Ok None
  | S n' =>
      match l with
      | [] => Err OutOfRange
      | t :: l' => if found t then Ok (Some i) else search_rob found n' (i + 1) l'
      end
  end.
Definition search_bound (c : GemDroidCore) : nat := Z.to_nat (Z.min (outstanding_transactions_size c) MAX_TRANSACTIONS).
Definition not_found (c : GemDroidCore) : Z := if bool_decide (outstanding_transactions_size c = 0) then -2 else -1.

Definition searchInROB (c : GemDroidCore) (a : Z) : Res Z :=
  r ← search_rob (fun t => bool_decide (a = addr t) && negb (can_be_committed t)) (search_bound c) 0
        (outstanding_transactions c);
  Ok (match r with Some i => i | None => not_found c end).

Definition markTransactionCompleted (a : Z) (c : GemDroidCore) : Res (Z * GemDroidCore) :=
  r ← search_rob (fun t => bool_decide (a = addr t)) (search_bound c) 0 (outstanding_transactions c);
  match r with
  | Some i =>
      Ok (i, c <| outstanding_transactions ::= fun l => zalter commit_transaction l i |>)
  | None => Ok (not_found c, c)
  end.

Definition commitHeadTransaction (c : GemDroidCore) : Res GemDroidCore :=
  t ← transaction c 0;
  if negb (can_be_committed t) then Err (AssertFail "outstanding_transactions[0].isTransactionReadyToCommit()")
  else
    let c := c <| outstanding_transactions ::= tail |> <| outstanding_transactions_size ::= Z.pred |> in
    if bool_decide (outstanding_transactions_size c < 0) then Err (AssertFail "0") else Ok c.

Definition push_transaction (t : GemDroidOoOTransaction) (c : GemDroidCore) : Res GemDroidCore :=
  let c := c <| outstanding_transactions ::= fun l => l ++ [t] |> <| outstanding_transactions_size ::= Z.succ |> in
  if bool_decide (outstanding_transactions_size c > MAX_TRANSACTIONS) then Err (AssertFail "0") else Ok c.

Definition addInstructions (insns : Z) (c : GemDroidCore) : Res GemDroidCore :=
  new_entry ← new_transaction INSTR_CPU insns (u64 (-1)); push_transaction new_entry c.

(** An access to an address that is still outstanding is dropped. *)
Definition processMMURequest (is_read : bool) (a : Z) (c : GemDroidCore) : Res GemDroidCore :=
  index ← searchInROB c a;
  if bool_decide (index = -1) || bool_decide (index = -2) then
    let c := upd_stats (fun s => s <| m_memReqs ::= Z.succ |>) c in
    new_entry ← new_transaction (if is_read then INSTR_MMU_LD else INSTR_MMU_ST) 0 a;
    push_transaction new_entry c
  else Ok c.

(** The streak is only sampled for a statistic. *)
Definition streakCalculator (c : GemDroidCore) : GemDroidCore :=
  if bool_decide (idleStreak c > 0) then c <| idleStreak := 0 |> else c.

Definition rob_full_stall (c : GemDroidCore) : GemDroidCore :=
  upd_stats (fun s =>
    let s := s <| m_thisFrameRobFullStalls ::= Z.succ |> in
    let s := if flagProfile s then s <| m_profileRobFullStalls ::= Z.succ |> else s in
    s <| m_thisMicroSecRobFullStalls ::= Z.succ |> <| m_thisMilliSecRobFullStalls ::= Z.succ |>)
    (c <| idleCycles ::= Z.succ |>).

Definition mem_full_stall (c : GemDroidCore) : GemDroidCore :=
  upd_stats (fun s =>
    let s := s <| m_thisFrameMemFullStalls ::= Z.succ |> in
    if flagProfile s then s <| m_profileMemFullStalls ::= Z.succ |> else s) c.

(** The head has waited for the memory for too long: it is committed. *)
Definition checkDeadlock (c : GemDroidCore) : Res GemDroidCore :=
  if bool_decide (outstanding_transactions_size c > 0) then
    t ← transaction c 0;
    if negb (bool_decide (transaction_type t = INSTR_CPU)) && isIssued t && negb (can_be_committed t)
       && bool_decide (ticks c - inserted_tick t > DEADLOCK_PERIOD)
    then
      c ← commitHeadTransaction (set_transaction 0 (commit_transaction t) c);
      Ok (c <| deadlocks_faced ::= Z.succ |>)
    else Ok c
  else Ok c.

(** ** Reading the trace *)

(** [2^30 * core_id] for the first two cores, [2^30 * (core_id / 6)] after. *)
Definition core_offset (id : Z) : Z :=
  if bool_decide (id < 2) then id * 1024 * 1024 * 1024 else Z.quot id 6 * 1024 * 1024 * 1024.

Definition skip_strings (n : nat) (s : Stream) : Stream := Nat.iter n skip_string s.

(** The loop of [setIdleRatio]: cycles and idle nanoseconds up to the next
    frame; every turn reads a word, so the words left bound the turns. *)
Fixpoint look_ahead (fuel : nat) (s : Stream) (look : bool) (work idle : Z)
  : Res (Stream * bool * Z * Z) :=
  match fuel with
  | O => Err OutOfFuel
  | S fuel' =>
      let '(op, s) := read_string s in
      if String.eqb op "CPU" then
        let '(insns, s) := read_number tk_dec s in
        let '(wait, s) := read_number tk_dec s in
        insns ← assigned insns;
        wait ← assigned wait;
        look_ahead fuel' s look (work + insns) (idle + wait)
      else if String.eqb op "MMU_ld" || String.eqb op "MMU_st" then
        look_ahead fuel' (skip_strings 2 s) look work idle
      else if String.eqb op "CPUSummary" then look_ahead fuel' (skip_strings 4 s) look work idle
      else if String.eqb op "END" then look_ahead fuel' s false work idle
      else if String.eqb op "" then Ok (s, false, work, idle)
      else
        let s := skip_strings 2 s in
        if contains "FB-UP" op then Ok (s, look, work, idle) else look_ahead fuel' s look work idle
  end.

Definition look_fuel (s : Stream) : nat := S (length (sm_tokens s)).

(** The frequency is read for the printing in any case. *)
Definition setIdleRatio (c : GemDroidCore) : Res GemDroidCore :=
  '(s, look, work, idle) ← look_ahead (look_fuel (lookahead_trace_file c)) (lookahead_trace_file c)
                              (needToLookAhead c) 0 0;
  f ← getCoreFreq c;
  let ratio :=
    if bool_decide (idle = 0) && bool_decide (work = 0) then F64.of_Z 0
    else F64.div (F64.mul (F64.of_Z idle) f)
           (F64.sub (F64.mul (F64.mul f (F64.of_Z 1000000)) (F64.of_Z 16)) (F64.of_Z work)) in
  Ok (c <| lookahead_trace_file := s |> <| needToLookAhead := look |> <| qemu_to_60FPS_speedratio := ratio |>).

(** ** Frames *)

(** [FPS_TICKS - n] converted to an integer. *)
Definition ticks_left (deadline : spec_float) (n : Z) : Z := F32.trunc (F64.sub deadline (F64.of_Z n)).

(** True when the frame has to be dropped; [now] is the platform's clock. *)
Definition isFrameDrop (now : Z) (c : GemDroidCore) : Res (bool * GemDroidCore) :=
  let c := upd_stats (fun s =>
    s <| m_thisFrameRobFullStalls := 0 |> <| m_thisFrameMemFullStalls := 0 |> <| m_thisFrameIPFullStalls := 0 |>)
    (c <| startCycle := 0 |>) in
  if bool_decide (type_of_application c = DISPLAY_BOUND) || bool_decide (type_of_application c = VIDEO_PLAYBACK)
  then
    let ticksFromLastDC := i32 (now - lastDCTick c) in
    _ ← of_option (zget (m_frameNumber c) IP_TYPE_DC);
    let c := c <| m_frameNumber ::= fun l => zalter Z.succ l IP_TYPE_DC |> in
    if bool_decide (lastDCTick c = 0) then Ok (false, c <| fpsStalls := ticks_left FPS_TICKS (ticks c) |>)
    else if F64.ltb (F64.of_Z ticksFromLastDC) FPS_TICKS
    then Ok (false, c <| fpsStalls := ticks_left FPS_TICKS ticksFromLastDC |>)
    else
      let s := stats c in
      let rob := m_thisFrameRobFullStalls s in
      let mem := m_thisFrameMemFullStalls s in
      let ip := m_thisFrameIPFullStalls s in
      let c := upd_stats (fun s => s <| m_framesDropped ::= Z.succ |>) (c <| lastDCTick := now |>) in
      let c := upd_stats (fun s =>
        if bool_decide (rob > mem) && bool_decide (rob > ip) then s <| m_framesDroppedDueToRobStalls ::= Z.succ |>
        else if bool_decide (mem > rob) && bool_decide (mem > ip)
        then s <| m_framesDroppedDueToMemStalls ::= Z.succ |>
        else s <| m_framesDroppedDueToIPStalls ::= Z.succ |>) c in
      Ok (true, c)
  else Ok (false, c).

Definition isAudioFrameDrop (now : Z) (c : GemDroidCore) : Res (bool * GemDroidCore) :=
  if bool_decide (type_of_application c = AUDIO_PLAYBACK) then
    let ticksFromLastSND := i32 (now - lastSNDTick c) in
    _ ← of_option (zget (m_frameNumber c) IP_TYPE_SND);
    let c := c <| m_frameNumber ::= fun l => zalter Z.succ l IP_TYPE_SND |> in
    if bool_decide (lastSNDTick c = 0) then Ok (false, c <| audFpsStalls := 1 |>)
    else if F64.ltb (F64.of_Z ticksFromLastSND) AUD_FPS_TICKS
    then Ok (false, c <| audFpsStalls := ticks_left AUD_FPS_TICKS ticksFromLastSND |>)
    else Ok (true, c <| lastSNDTick := now |>)
  else Ok (false, c).

Definition count_call (ip : Z) (c : GemDroidCore) : GemDroidCore :=
  upd_stats (fun s => s <| m_ipCallsPresentInTrace ::= fun l => zalter Z.succ l ip |>) c.

(** The call to an IP that a trace line becomes: IP, address, size, direction
    and flow type. *)
Record IPCall := mkCall { call_ip : Z; call_addr : Z; call_size : Z; call_isRead : bool; call_flowType : Z }.

(** Which IP starts a display frame, when it is not dropped. *)
Definition display_call (first : Z) : option IPCall :=
  if bool_decide (first = IP_TYPE_VD)
  then Some (mkCall IP_TYPE_VD VD_ADDR_START (Z.quot FRAME_SIZE VID_CODING_RATIO) true IP_TYPE_DC)
  else if bool_decide (first = IP_TYPE_IMG)
  then Some (mkCall IP_TYPE_IMG IMG_ADDR_START (Z.quot FRAME_SIZE 2) true IP_TYPE_DC)
  else if bool_decide (first = IP_TYPE_VE) then Some (mkCall IP_TYPE_VE VE_ADDR_START FRAME_SIZE true IP_TYPE_DC)
  else if bool_decide (first = IP_TYPE_MMC_IN)
  then Some (mkCall IP_TYPE_MMC_IN MMC_IN_ADDR_START (Z.quot FRAME_SIZE VID_CODING_RATIO) false IP_TYPE_DC)
  else if bool_decide (first = IP_TYPE_DC) then Some (mkCall IP_TYPE_DC DC0_ADDR_START FRAME_SIZE true IP_TYPE_DC)
  else None.

(** The members an address or a size is read into are overwritten here. *)
Definition network_call : IPCall := mkCall IP_TYPE_NW NW_ADDR_START 1562 false IP_TYPE_END.
Definition audio_file_call : IPCall :=
  mkCall IP_TYPE_MMC_IN MMC_IN_ADDR_START (Z.quot AUD_FRAME_SIZE AUD_CODING_RATIO) false IP_TYPE_SND.
Definition audio_call : IPCall := mkCall IP_TYPE_AD AD_ADDR_START AUD_FRAME_SIZE true IP_TYPE_SND.
Definition microphone_call : IPCall := mkCall IP_TYPE_MIC MIC_ADDR_START AUD_FRAME_SIZE false IP_TYPE_MIC.
Definition camera_call : IPCall := mkCall IP_TYPE_CAM CAM_ADDR_START (Z.quot FRAME_SIZE 1) false IP_TYPE_CAM.

Section Port.
Context {E : Type} {port : CorePort E}.

(** ** Processing *)

Definition updateStatInstructionCommit (c : GemDroidCore) (e : E) : GemDroidCore * E :=
  (upd_stats (fun s =>
     s <| m_committedInsns ::= Z.succ |> <| m_thisMilliSecInstructionsCommitted ::= Z.succ |>
       <| m_thisDVFSEpochInstructionsCommitted ::= Z.succ |>
       <| m_thisMicroSecInstructionsCommitted ::= Z.succ |>) c, countCommittedInsn e).

(** A request for transaction [i]; the flag says whether the agent took it. *)
Definition issue (i : Z) (t : GemDroidOoOTransaction) (c : GemDroidCore) (e : E) : Res (bool * GemDroidCore * E) :=
  rd ← isRead t;
  let '(ok, e) := enqueueCoreMemRequest e (core_id c) (addr t) rd in
  if (ok : bool) then Ok (true, set_transaction i (issueToMem (setInsertedTick (ticks c) t)) c, e)
  else Ok (false, c, e).

(** One turn of the loop of [inOrderProcess]. *)
Definition in_order_step (st : GemDroidCore * E) (_ : Z) : Res (GemDroidCore * E) :=
  let '(c, e) := st in
  if bool_decide (outstanding_transactions_size c > 0) then
    t ← transaction c 0;
    if bool_decide (transaction_type t = INSTR_CPU) && bool_decide (number_of_instructions t > 0) then
      t ← commit_instruction t;
      Ok (updateStatInstructionCommit (set_transaction 0 t c) e)
    else if bool_decide (transaction_type t = INSTR_CPU) && bool_decide (number_of_instructions t = 0) then
      c ← commitHeadTransaction (set_transaction 0 (commit_transaction t) c);
      Ok (c, e)
    else if negb (bool_decide (transaction_type t = INSTR_CPU)) then
      if can_be_committed t then
        c ← commitHeadTransaction (c <| idleCycles := 0 |>);
        Ok (updateStatInstructionCommit c e)
      else if negb (isIssued t) then
        '(ok, c, e) ← issue 0 t c e;
        Ok (if (ok : bool) then c else mem_full_stall c, e)
      else Ok (rob_full_stall c, e)
    else Ok (c, e)
  else Ok (c <| idleCycles ::= Z.succ |>, e).

Definition inOrderProcess (c : GemDroidCore) (e : E) : Res (GemDroidCore * E) :=
  foldM in_order_step (c, e) (zrange (issue_width c)).

(** What a turn of the loop of [process] does next: [break], [continue], or
    [continue] after [j--]. *)
Inductive Turn := Break | Continue | Again.

(** A compute transaction at the head first gives back what was executed
    ahead of it. *)
Definition retire_head (t : GemDroidOoOTransaction) (c : GemDroidCore) : Res GemDroidCore :=
  let c := c <| number_of_instr_executed_OoO ::= fun n => n - instr_executed_ooo t |> in
  let t := reset_instr_committed t in
  let c := streakCalculator (set_transaction 0 t c <| idleCycles := 0 |>) in
  if bool_decide (number_of_instructions t = 0)
  then commitHeadTransaction (set_transaction 0 (commit_transaction t) c)
  else Ok c.

(** One compute instruction of transaction [i]. *)
Definition execute (i : Z) (t : GemDroidOoOTransaction) (c : GemDroidCore) (e : E) : Res (GemDroidCore * E) :=
  t ← commit_instruction t;
  let c := set_transaction i t c <| number_of_instr_executed_OoO ::= Z.succ |> in
  let '(c, e) := updateStatInstructionCommit c e in
  Ok (streakCalculator c, e).

(** Work found past a blocked head, at position [k]. *)
Definition run_ahead (k : Z) (c : GemDroidCore) (e : E) : Res (Turn * GemDroidCore * E) :=
  t ← transaction c k;
  if negb (bool_decide (transaction_type t = INSTR_CPU)) && negb (isIssued t) then
    '(ok, c, e) ← issue k t c e;
    Ok (Continue, if (ok : bool) then streakCalculator c else mem_full_stall c, e)
  else if bool_decide (transaction_type t = INSTR_CPU) && bool_decide (number_of_instructions t > 0) then
    '(c, e) ← execute k t c e; Ok (Continue, c, e)
  else Ok (Again, c, e).

(** The part of a turn after the head was looked at; [k] is [ROB_check_head]. *)
Definition process_rest (k : Z) (c : GemDroidCore) (e : E) : Res (Turn * Z * GemDroidCore * E) :=
  if bool_decide (number_of_instr_executed_OoO c < ROB_SIZE) && bool_decide (outstanding_transactions_size c > 0)
  then
    t ← transaction c 0;
    if bool_decide (transaction_type t = INSTR_CPU) && bool_decide (number_of_instructions t > 0) then
      '(c, e) ← execute 0 t c e; Ok (Continue, k, c, e)
    else if negb (can_be_committed t) && negb (bool_decide (transaction_type t = INSTR_CPU)) then
      let k := k + 1 in
      if bool_decide (k >= outstanding_transactions_size c) then Ok (Break, k, c, e)
      else '(turn, c, e) ← run_ahead k c e; Ok (turn, k, c, e)
    else Ok (Continue, k, c, e)
  else Ok (Continue, k, (rob_full_stall c) <| idleStreak ::= Z.succ |>, e).

Definition process_step (k : Z) (c : GemDroidCore) (e : E) : Res (Turn * Z * GemDroidCore * E) :=
  if bool_decide (outstanding_transactions_size c > 0) then
    t ← transaction c 0;
    if negb (bool_decide (transaction_type t = INSTR_CPU)) then
      if can_be_committed t then
        c ← commitHeadTransaction (streakCalculator (c <| idleCycles := 0 |>));
        let '(c, e) := updateStatInstructionCommit c e in
        Ok (Continue, k, c, e)
      else if negb (isIssued t) then
        '(_, c, e) ← issue 0 t c e; Ok (Continue, k, c, e)
      else process_rest k c e
    else
      c ← retire_head t c; process_rest k c e
  else Ok (Continue, k, c <| idleCycles ::= Z.succ |> <| idleStreak ::= Z.succ |>, e).

(** [j] counts down from [issue_width]; a turn that is done [Again] does not
    count, and advances [ROB_check_head]. *)
Fixpoint process_loop (fuel : nat) (j k : Z) (c : GemDroidCore) (e : E) : Res (GemDroidCore * E) :=
  if bool_decide (j <= 0) then Ok (c, e)
  else
    match fuel with
    | O => Err OutOfFuel
    | S fuel' =>
        '(turn, k, c, e) ← process_step k c e;
        match turn with
        | Break => Ok (c, e)
        | Continue => process_loop fuel' (j - 1) k c e
        | Again => process_loop fuel' j k c e
        end
    end.

Definition process_fuel (c : GemDroidCore) : nat := (Z.to_nat (issue_width c) + Z.to_nat (outstanding_transactions_size c))%nat.
Definition process (c : GemDroidCore) (e : E) : Res (GemDroidCore * E) :=
  process_loop (process_fuel c) (issue_width c) 0 c e.

(** ** Power states *)

Definition setPStateActive (c : GemDroidCore) (e : E) : GemDroidCore * E :=
  let c :=
    if bool_decide (getGovernor e = GOVERNOR_TYPE_INTERACTIVE) then setMaxCoreFreq (getGovernor e) c
    else if bool_decide (getGovernor e = GOVERNOR_TYPE_POWERCAP) then setOptCoreFreq c
    else c in
  let c := c <| cpu_pstate := CPU_PSTATE_ACTIVE |> in
  let e := markIPRequestStarted e (core_id c) IP_TYPE_CPU (core_id c) 0 in
  (c <| idleCycles := 0 |>, e).

Definition setPStateLowPower (c : GemDroidCore) : Res GemDroidCore :=
  if bool_decide (cpu_pstate c = CPU_PSTATE_ACTIVE)
  then Ok (c <| pstateTimer := CORE_PSTATE_LOWPOWER_ENTER_TIME |> <| cpu_pstate := CPU_PSTATE_LOWPOWER |>)
  else Err (AssertFail "isPStateActive()").
Definition setPStateIdle (c : GemDroidCore) : GemDroidCore :=
  c <| pstateTimer := CORE_PSTATE_IDLE_ENTER_TIME |> <| cpu_pstate := CPU_PSTATE_IDLE |>.

(** ** Calls to IPs *)

(** The call that a line of the trace stands for, or nothing. *)
Definition frame_update_call (c : GemDroidCore) (e : E) : Res (option IPCall * GemDroidCore * E) :=
  '(shouldFrameDrop, c) ← isFrameDrop (getTicks e) c;
  let c := c <| m_readFBLine := true |> in
  call ← (if (shouldFrameDrop : bool)
          then Ok (Some (mkCall IP_TYPE_DC DC0_ADDR_START FRAME_SIZE true IP_TYPE_DC))
          else
            ips ← nextIPtoCall e IP_TYPE_CPU (core_id c) IP_TYPE_DC;
            first ← of_option (zget ips 0);
            Ok (display_call first));
  let c := match call with Some x => count_call (call_ip x) c | None => c end in
  frame ← of_option (zget (m_frameNumber c) (match call with Some x => call_ip x | None => IP_TYPE_DC end));
  e ← markIPRequestCompleted e (core_id c) IP_TYPE_CPU (core_id c) (frame + 1) 0 (dvfsState c);
  Ok (call, c, e).

Definition audio_in_call (c : GemDroidCore) (e : E) : Res (option IPCall * GemDroidCore * E) :=
  '(_, c) ← isAudioFrameDrop (getTicks e) c;
  ips ← nextIPtoCall e IP_TYPE_CPU (core_id c) IP_TYPE_SND;
  first ← of_option (zget ips 0);
  if bool_decide (first = IP_TYPE_MMC_IN)
  then Ok (Some audio_file_call, count_call IP_TYPE_SND (count_call IP_TYPE_AD (count_call IP_TYPE_MMC_IN c)), e)
  else if bool_decide (first = -1) then Ok (None, c, e)
  else Ok (Some audio_call, count_call IP_TYPE_SND (count_call IP_TYPE_AD c), e).

Definition trace_call (op : string) (c : GemDroidCore) (e : E) : Res (option IPCall * GemDroidCore * E) :=
  if contains "FB-UP" op then frame_update_call c e
  else if contains "NW" op then Ok (Some network_call, count_call IP_TYPE_NW c, e)
  else if contains "SND-IN" op then audio_in_call c e
  else if contains "SND-OUT" op
  then Ok (Some microphone_call, count_call IP_TYPE_AE (count_call IP_TYPE_MIC c), e)
  else if contains "CAM" op then
    if negb (m_readFBLine c) then Ok (None, c, e)
    else
      let c := count_call IP_TYPE_DC (count_call IP_TYPE_IMG (count_call IP_TYPE_CAM (c <| m_readFBLine := false |>))) in
      Ok (Some camera_call, c <| em_trace_file ::= skip_strings 3 |>, e)
  else Ok (None, c, e).

(** The call is made unless the queue of the IP is full. *)
Definition make_call (call : IPCall) (c : GemDroidCore) (e : E) : Res (GemDroidCore * E) :=
  full ← isIPReqLimitReached e (call_ip call);
  if (full : bool) then Ok (upd_stats (fun s => s <| m_thisFrameIPFullStalls ::= Z.succ |>) c, e)
  else
    let c := upd_stats (fun s => s <| m_ipReqs ::= Z.succ |>) c in
    frameNum ← of_option (zget (m_frameNumber c) (call_ip call));
    let c := c <| m_frameNumber ::= fun l => zalter Z.succ l (call_ip call) |> in
    flows ← flow_identification e (core_id c) (call_ip call);
    flow ← of_option (zget flows 0);
    '(_, e) ← enqueueCoreIPRequest e (core_id c) (call_ip call) (call_addr call) (call_size call)
                (call_isRead call) frameNum (call_flowType call) flow;
    Ok (c, e).

Definition processIPCall (op : string) (c : GemDroidCore) (e : E) : Res (GemDroidCore * E) :=
  '(call, c, e) ← trace_call op c e;
  match call with Some x => make_call x c e | None => Ok (c, e) end.

(** ** One line of the trace *)

Definition cpu_line (s : Stream) (c : GemDroidCore) : Res GemDroidCore :=
  let '(insns, s) := read_number tk_dec s in
  let '(wait, s) := read_number tk_dec s in
  let c := c <| em_trace_file := s |> in
  let ratio := qemu_to_60FPS_speedratio c in
  stalls ← (if F64.eqb ratio (F64.of_Z 0) then Ok 0
            else wait ← assigned wait;
                 f ← getCoreFreq c;
                 Ok (F32.trunc (F64.div (F64.mul (F64.of_Z wait) f) ratio)));
  let c := c <| idleStalls := stalls |> in
  insns ← assigned insns;
  addInstructions insns c.

Definition mmu_line (is_read : bool) (s : Stream) (c : GemDroidCore) : Res GemDroidCore :=
  let '(a, s) := read_number tk_hex s in
  let '(_, s) := read_number tk_dec s in
  a ← assigned a;
  processMMURequest is_read (u64 (a + core_offset (core_id c))) (c <| em_trace_file := s |>).

Definition ip_line (op : string) (s : Stream) (c : GemDroidCore) (e : E) : Res (GemDroidCore * E) :=
  let '(_, s) := read_number tk_hex s in
  let '(_, s) := read_number tk_dec s in
  '(c, e) ← processIPCall op (c <| em_trace_file := s |>) e;
  if contains "FB-UP" op && negb (bool_decide (type_of_application c = CORE_BOUND)) && needToLookAhead c
  then c ← setIdleRatio c; Ok (c, e)
  else Ok (c, e).

Definition readLine (c : GemDroidCore) (e : E) : Res (GemDroidCore * E) :=
  if negb (bool_decide (cpu_pstate c = CPU_PSTATE_ACTIVE)) then Err (AssertFail "isPStateActive()")
  else
    let '(op, s) := read_string (em_trace_file c) in
    let c := upd_stats (fun st => st <| lines_read_cpu ::= Z.succ |>) c in
    if String.eqb op "CPU" then c ← cpu_line s c; Ok (c, e)
    else if String.eqb op "MMU_ld" || String.eqb op "MMU_st"
    then c ← mmu_line (String.eqb op "MMU_ld") s c; Ok (c, e)
    else if String.eqb op "CPUSummary" then Ok (c <| em_trace_file := skip_strings 4 s |>, e)
    else if String.eqb op "END" then Ok (c <| em_trace_file := s |>, stopFetch e)
    else if String.eqb op "" then Ok (c <| em_trace_file := s |>, e)
    else ip_line op s c e.

(** ** A cycle *)

Definition count_cycle (c : GemDroidCore) : GemDroidCore :=
  match cpu_pstate c with
  | CPU_PSTATE_ACTIVE =>
      upd_stats (fun s => s <| m_activePStateCycles ::= Z.succ |> <| m_thisMilliSecActivePStateCycles ::= Z.succ |>
                            <| m_thisMicroSecActivePStateCycles ::= Z.succ |>) c
  | CPU_PSTATE_LOWPOWER =>
      upd_stats (fun s => s <| m_lowpowerPStateCycles ::= Z.succ |> <| m_thisMilliSecLowpowerPStateCycles ::= Z.succ |>
                            <| m_thisMicroSecLowpowerPStateCycles ::= Z.succ |>) c
  | CPU_PSTATE_IDLE =>
      upd_stats (fun s => s <| m_idlePStateCycles ::= Z.succ |> <| m_thisMilliSecIdlePStateCycles ::= Z.succ |>
                            <| m_thisMicroSecIdlePStateCycles ::= Z.succ |>) c
  end.

(** A core that has been idle for long enough goes to sleep. *)
Definition fall_asleep (c : GemDroidCore) : Res GemDroidCore :=
  match cpu_pstate c with
  | CPU_PSTATE_ACTIVE =>
      if bool_decide (idleCycles c >= CORE_PSTATE_LOWPOWER_ENTER_TIME)
      then c ← setPStateLowPower c; Ok (c <| idleCycles := 0 |>)
      else Ok c
  | CPU_PSTATE_LOWPOWER =>
      if ENABLE_CORE_IDLE && bool_decide (idleCycles c >= CORE_PSTATE_IDLE_ENTER_TIME)
      then Ok ((setPStateIdle c) <| idleCycles := 0 |>)
      else Ok c
  | CPU_PSTATE_IDLE => Ok c
  end.

(** [n -= GEMDROID_FREQ / getCoreFreq()] on an integer. *)
Definition count_down (n : Z) (freq : spec_float) : Z := F32.trunc (F64.sub (F64.of_Z n) (F64.div GEMDROID_FREQ freq)).

(** The wake-up at the end of a stall. *)
Definition wake_time (c : GemDroidCore) : option Z :=
  match cpu_pstate c with
  | CPU_PSTATE_LOWPOWER => Some CORE_PSTATE_LOWPOWER_EXIT_TIME
  | CPU_PSTATE_IDLE => Some CORE_PSTATE_IDLE_EXIT_TIME
  | CPU_PSTATE_ACTIVE => None
  end.

Definition fps_stall (c : GemDroidCore) (e : E) : Res (GemDroidCore * E) :=
  f ← getCoreFreq c;
  let c := upd_stats (fun s => s <| m_fpsStallsCount ::= Z.succ |>)
             (c <| fpsStalls ::= fun n => count_down n f |> <| idleCycles ::= Z.succ |> <| idleStreak ::= Z.succ |>) in
  if bool_decide (fpsStalls c <= 0) then
    let c := upd_stats (fun s =>
      s <| m_framesDisplayed ::= Z.succ |> <| flagProfile := true |> <| profileStartGemDroidCycle := getTicks e |>
        <| m_profileRobFullStalls := 0 |> <| m_profileMemFullStalls := 0 |> <| m_profileStartCPUCycle := ticks c |>)
      (c <| startCycle := 0 |> <| lastDCTick := getTicks e |>) in
    Ok (match wake_time c with
        | Some n => (c <| cyclesToWake := n |>, e)
        | None => (c, markIPRequestStarted e (core_id c) IP_TYPE_CPU (core_id c) 0)
        end)
  else Ok (c, e).

Definition audio_stall (c : GemDroidCore) (e : E) : Res (GemDroidCore * E) :=
  f ← getCoreFreq c;
  let c := c <| audFpsStalls ::= fun n => count_down n f |> <| idleCycles ::= Z.succ |> <| idleStreak ::= Z.succ |> in
  if bool_decide (audFpsStalls c <= 0) then
    let c := c <| startCycle := 0 |> <| lastSNDTick := getTicks e |> in
    Ok (match wake_time c with Some n => c <| cyclesToWake := n |> | None => c end, e)
  else Ok (c, e).

Definition end_profile (now : Z) (c : GemDroidCore) : GemDroidCore :=
  let s := stats c in
  if flagProfile s && bool_decide (now >= profileStartGemDroidCycle s + 300 * MICROSEC)
  then upd_stats (fun s => s <| m_profileActiveCycles := ticks c - m_profileStartCPUCycle s |> <| flagProfile := false |>) c
  else c.

(** A cycle in which the core is neither asleep nor stalled. *)
Definition run_cycle (c : GemDroidCore) (e : E) : Res (GemDroidCore * E) :=
  let c := end_profile (getTicks e) c in
  '(c, e) ← (if IN_ORDER then inOrderProcess c e else process c e);
  if bool_decide (number_of_instr_executed_OoO c < ROB_SIZE)
     && bool_decide (outstanding_transactions_size c < MAX_TRANSACTIONS)
  then readLine c e
  else Ok (c, e).

Definition tick (c : GemDroidCore) (e : E) : Res (GemDroidCore * E) :=
  let c := upd_stats (fun s => s <| m_cycles ::= Z.succ |>) (c <| ticks ::= Z.succ |>) in
  c ← (if bool_decide (Z.rem (ticks c) DEADLOCK_PERIOD = 0) then Ok c else checkDeadlock c);
  let c := count_cycle c in
  if bool_decide (cyclesToWake c > 0) then
    let c := c <| cyclesToWake ::= Z.pred |> in
    Ok (if bool_decide (cyclesToWake c = 0) then setPStateActive c e else (c, e))
  else
    c ← fall_asleep c;
    if bool_decide (idleStalls c > 0) then
      Ok (upd_stats (fun s => s <| m_idleStallsCount ::= Z.succ |> <| m_thisMilliSecIdleStalls ::= Z.succ |>)
            (c <| idleStalls ::= Z.pred |>), e)
    else if bool_decide (fpsStalls c > 0) then fps_stall c e
    else if bool_decide (audFpsStalls c > 0) then audio_stall c e
    else run_cycle c e.

(** ** Start *)

Definition app_type (trace_file : string) (default : APP_TYPE) : APP_TYPE :=
  if contains "DISP" trace_file then DISPLAY_BOUND
  else if contains "VID" trace_file then VIDEO_PLAYBACK
  else if contains "AUD" trace_file then AUDIO_PLAYBACK
  else default.

(** [file] is the content of the trace, when it can be opened; [freq] is in
    MHz. *)
Definition init (c : GemDroidCore) (id : Z) (trace_file : string) (file : option (list Token)) (app freq optState width : Z)
    (e : E) : Res (GemDroidCore * E) :=
  let c := c <| core_id := id |> <| issue_width := width |> <| app_id := app |>
             <| type_of_application := app_type trace_file (type_of_application c) |> in
  match file with
  | None => Err (AssertFail "0")
  | Some tokens =>
      let c := c <| em_trace_file := mkStream tokens false |> <| lookahead_trace_file := mkStream tokens false |> in
      c ← (if bool_decide (type_of_application c = CORE_BOUND) then Ok c else setIdleRatio c);
      let '(c, e) := setPStateActive c e in
      c ← setCoreFreq (F64.div (F64.of_Z freq) (F64.of_Z 1000)) c;
      Ok (c <| optDVFSState := optState |>, e)
  end.
End Port.

End Core.
