(* ===== verification/CoreSafety.v ===== *)
(** * What a core does with its trace

    A core in order: no assertion of the reorder buffer ever fails, every
    instruction is committed once, memory requests leave once and in the order
    of the trace. The one assertion that can fail is that a core reading its
    trace is awake. *)

From stdpp Require Import list relations.
From S2P Require Import Prelude.
From S2P Require Import DramConfig.
From S2P Require Import GemDefines.
From S2P Require Import TraceFile.
From S2P Require Import Cores.
Import Core.

(** ** What the platform promises a core *)

(** Address and direction of a memory access. *)
Definition MemOp : Type := (Z * bool).

(** The types of IPs that a trace calls. *)
Definition callable (ip : Z) : Prop := 0 < ip < IP_TYPE_END.

Class CorePortLaws (E : Type) {port : CorePort E} := {
  env_ok : E -> Prop;
  is_core : Z -> Prop;
  (** The requests of a core that were accepted. *)
  requests : E -> Z -> list MemOp;
  started_law e id ty i frame :
    env_ok e -> let e' := markIPRequestStarted e id ty i frame in env_ok e' /\ requests e' = requests e;
  completed_law e id frame flow state :
    env_ok e -> is_core id -> 0 <= state < CORE_DVFS_STATES ->
    exists e', markIPRequestCompleted e id IP_TYPE_CPU id frame flow state = Ok e' /\ env_ok e' /\
               requests e' = requests e;
  next_law e ty id flow :
    env_ok e -> is_core id -> exists ip ips, nextIPtoCall e ty id flow = Ok (ip :: ips);
  flow_law e id ip :
    env_ok e -> is_core id -> exists flow flows, flow_identification e id ip = Ok (flow :: flows);
  mem_law e id a rd :
    env_ok e -> is_core id ->
    let '(ok, e') := enqueueCoreMemRequest e id a rd in
    env_ok e' /\ requests e' id = requests e id ++ (if (ok : bool) then [(a, rd)] else []);
  limit_law e ip : env_ok e -> callable ip -> exists b, isIPReqLimitReached e ip = Ok b;
  call_law e id ip a size rd frame flowType flow :
    env_ok e -> is_core id -> callable ip -> isIPReqLimitReached e ip = Ok false ->
    exists ok e', enqueueCoreIPRequest e id ip a size rd frame flowType flow = Ok (ok, e') /\ env_ok e' /\
                  requests e' = requests e;
  count_law e : env_ok e -> env_ok (countCommittedInsn e) /\ requests (countCommittedInsn e) = requests e;
  stop_law e : env_ok e -> env_ok (stopFetch e) /\ requests (stopFetch e) = requests e
}.

(** ** What a core still has to do *)

(** The instructions a transaction stands for. *)
Definition tx_insns (t : GemDroidOoOTransaction) : Z :=
  if bool_decide (transaction_type t = INSTR_CPU) then number_of_instructions t else 1.
Definition pending (l : list GemDroidOoOTransaction) : Z := foldr (fun t n => tx_insns t + n) 0 l.

(** The accesses of the reorder buffer that were not sent yet. *)
Definition tx_op (t : GemDroidOoOTransaction) : list MemOp :=
  if bool_decide (transaction_type t = INSTR_CPU) || isIssued t then []
  else [(addr t, bool_decide (transaction_type t = INSTR_MMU_LD))].
Definition unissued (l : list GemDroidOoOTransaction) : list MemOp := l ≫= tx_op.

(** Everything else that processing leaves alone. *)
Record same_ctl (c c' : GemDroidCore) : Prop := {
  sc_id : core_id c' = core_id c;
  sc_width : issue_width c' = issue_width c;
  sc_ticks : ticks c' = ticks c;
  sc_wake : cyclesToWake c' = cyclesToWake c;
  sc_pstate : cpu_pstate c' = cpu_pstate c;
  sc_look : needToLookAhead c' = needToLookAhead c;
  sc_trace : em_trace_file c' = em_trace_file c;
  sc_lookahead : lookahead_trace_file c' = lookahead_trace_file c;
  sc_app : type_of_application c' = type_of_application c;
  sc_idle : idleStalls c' = idleStalls c;
  sc_fps : fpsStalls c' = fpsStalls c;
  sc_aud : audFpsStalls c' = audFpsStalls c;
  sc_ooo : number_of_instr_executed_OoO c' = number_of_instr_executed_OoO c;
  sc_deadlocks : deadlocks_faced c' = deadlocks_faced c;
  sc_dvfs : dvfsState c' = dvfsState c;
  sc_opt : optDVFSState c' = optDVFSState c;
  sc_frames : m_frameNumber c' = m_frameNumber c;
  sc_memReqs : m_memReqs (stats c') = m_memReqs (stats c)
}.

#[export] Instance same_ctl_refl : Reflexive same_ctl.
Proof. by constructor. Qed.
#[export] Instance same_ctl_trans : Transitive same_ctl.
Proof. intros a b c [] []. constructor; congruence. Qed.

(** The counter of the buffer is its length. *)
Definition rob_ok (c : GemDroidCore) : Prop :=
  outstanding_transactions_size c = zlen (outstanding_transactions c) /\
  zlen (outstanding_transactions c) <= MAX_TRANSACTIONS.

Lemma pending_cons t l : pending (t :: l) = tx_insns t + pending l.
Proof. done. Qed.

Lemma pending_app l k : pending (l ++ k) = pending l + pending k.
Proof. induction l as [|t l IH]; [done|]. rewrite <- app_comm_cons, !pending_cons, IH. lia. Qed.

Lemma unissued_app l k : unissued (l ++ k) = unissued l ++ unissued k.
Proof. unfold unissued. by rewrite bind_app. Qed.

Lemma transaction_head c t l : outstanding_transactions c = t :: l -> transaction c 0 = Ok t.
Proof. intros E. unfold transaction. by rewrite E. Qed.

Lemma rob_head c :
  rob_ok c -> 0 < outstanding_transactions_size c ->
  exists t l, outstanding_transactions c = t :: l /\ transaction c 0 = Ok t.
Proof.
  intros [Hs _] Hp. destruct (outstanding_transactions c) as [|t l] eqn:E.
  - rewrite Hs in Hp. by cbn in Hp.
  - exists t, l. split; [done|]. by apply (transaction_head _ _ l).
Qed.

(** Removing a head that may be committed. *)
Lemma commitHeadTransaction_ok c t l :
  rob_ok c -> outstanding_transactions c = t :: l -> can_be_committed t = true ->
  exists c', commitHeadTransaction c = Ok c' /\ outstanding_transactions c' = l /\
    outstanding_transactions_size c' = zlen l /\ same_ctl c c' /\ stats c' = stats c /\ idleCycles c' = idleCycles c.
Proof.
  intros [Hs _] E Hr. unfold commitHeadTransaction. rewrite (transaction_head _ _ _ E). cbn [mbind Res_bind].
  rewrite Hr. cbn [negb]. rewrite bool_decide_false; [|cbn; rewrite Hs, E; unfold zlen; cbn [length]; lia].
  eexists. split; [reflexivity|]. cbn. rewrite E, Hs, E. unfold zlen. cbn [tail length].
  split; [done|]. split; [lia|]. by split; [constructor|].
Qed.

Section Process.
Context {E : Type} {port : CorePort E} {laws : CorePortLaws E}.

(** What one turn of processing does. *)
Record turn_ok (c c' : GemDroidCore) (e e' : E) : Prop := {
  to_rob : rob_ok c';
  to_shrinks : zlen (outstanding_transactions c') <= zlen (outstanding_transactions c);
  to_ctl : same_ctl c c';
  to_insns : m_committedInsns (stats c') + pending (outstanding_transactions c')
             = m_committedInsns (stats c) + pending (outstanding_transactions c);
  to_requests : requests e' (core_id c) ++ unissued (outstanding_transactions c')
                `sublist_of` requests e (core_id c) ++ unissued (outstanding_transactions c);
  to_env : env_ok e'
}.

Lemma turn_ok_refl c e : rob_ok c -> env_ok e -> turn_ok c c e e.
Proof. by constructor. Qed.

Lemma turn_ok_trans c1 c2 c3 e1 e2 e3 : turn_ok c1 c2 e1 e2 -> turn_ok c2 c3 e2 e3 -> turn_ok c1 c3 e1 e3.
Proof.
  intros [] []. constructor; [done | lia | by transitivity c2 | lia | | done].
  rewrite (sc_id _ _ to_ctl0) in *. by etransitivity.
Qed.

(** Bookkeeping that leaves the buffer and the trace alone. *)
Lemma turn_ok_stall c c' e :
  rob_ok c -> env_ok e -> same_ctl c c' -> outstanding_transactions c' = outstanding_transactions c ->
  outstanding_transactions_size c' = outstanding_transactions_size c ->
  m_committedInsns (stats c') = m_committedInsns (stats c) -> turn_ok c c' e e.
Proof.
  intros Hr He Hc El Es Em. destruct Hr. constructor; rewrite ?El, ?Em; try done. split; rewrite ?El, ?Es; done.
Qed.

Lemma set_head c t l t' :
  outstanding_transactions c = t :: l -> outstanding_transactions (set_transaction 0 t' c) = t' :: l.
Proof. intros H. unfold set_transaction. cbn. by rewrite H. Qed.

(** The head executes one instruction. *)
Lemma head_executes c e t l :
  rob_ok c -> env_ok e -> outstanding_transactions c = t :: l -> transaction_type t = INSTR_CPU ->
  0 < number_of_instructions t ->
  exists t', commit_instruction t = Ok t' /\
    turn_ok c (fst (updateStatInstructionCommit (set_transaction 0 t' c) e)) e
      (snd (updateStatInstructionCommit (set_transaction 0 t' c) e)).
Proof.
  intros Hr He El Ht Hn. unfold commit_instruction. rewrite bool_decide_false by lia.
  eexists. split; [reflexivity|]. pose proof (count_law e He) as [He' Hq].
  assert (outstanding_transactions (set_transaction 0
    (t <| number_of_instructions ::= Z.pred |> <| instr_executed_ooo ::= Z.succ |>) c) =
    (t <| number_of_instructions ::= Z.pred |> <| instr_executed_ooo ::= Z.succ |>) :: l) as E' by (by apply (set_head _ t)).
  destruct Hr as [Hs Hm]. rewrite El in Hs, Hm. cbn [fst snd updateStatInstructionCommit].
  constructor; cbn -[set_transaction]; rewrite ?E', ?El, ?Hq; try done.
  - split; cbn -[set_transaction]; rewrite E'; [|done]. unfold set_transaction. cbn. rewrite Hs. done.
  - cbn. unfold tx_insns. cbn. rewrite Ht, !bool_decide_true by done. lia.
Qed.

(** A finished head leaves the buffer. *)
Lemma head_retires c e t l t' :
  rob_ok c -> env_ok e -> outstanding_transactions c = t :: l -> transaction_type t = INSTR_CPU ->
  number_of_instructions t = 0 -> t' = commit_transaction t ->
  exists c', commitHeadTransaction (set_transaction 0 t' c) = Ok c' /\ turn_ok c c' e e.
Proof.
  intros Hr He El Ht Hn ->.
  destruct (commitHeadTransaction_ok (set_transaction 0 (commit_transaction t) c) (commit_transaction t) l)
    as (c' & Hc & E' & Es & Hctl & Est & _); [|by apply (set_head _ t)|done|].
  { destruct Hr as [Hs Hm]. split; rewrite (set_head _ t l _ El), El in *; done. }
  exists c'. split; [done|]. destruct Hr as [Hs Hm]. rewrite El in Hm. unfold zlen in Hm. cbn [length] in Hm.
  constructor; rewrite ?E', ?Est, ?El, ?pending_cons; try done.
  - split; [by rewrite E'|]. rewrite E'. unfold zlen. lia.
  - unfold zlen. cbn [length]. lia.
  - transitivity (set_transaction 0 (commit_transaction t) c); [by constructor | done].
  - unfold tx_insns. rewrite Ht, bool_decide_true, Hn by done. cbn. lia.
  - unfold unissued, tx_op. cbn. by rewrite Ht, bool_decide_true by done.
Qed.

(** An answered head is committed and counted. *)
Lemma head_completes c e t l :
  rob_ok c -> env_ok e -> outstanding_transactions c = t :: l -> transaction_type t <> INSTR_CPU ->
  can_be_committed t = true ->
  exists c1, commitHeadTransaction (c <| idleCycles := 0 |>) = Ok c1 /\
    turn_ok c (fst (updateStatInstructionCommit c1 e)) e (snd (updateStatInstructionCommit c1 e)).
Proof.
  intros Hr He El Ht Hd.
  destruct (commitHeadTransaction_ok (c <| idleCycles := 0 |>) t l) as (c' & Hc & E' & Es & Hctl & Est & _); [done..|].
  exists c'. split; [done|]. destruct Hr as [Hs Hm]. rewrite El in Hm. unfold zlen in Hm. cbn [length] in Hm.
  pose proof (count_law e He) as [He' Hq]. cbn [fst snd updateStatInstructionCommit].
  constructor; cbn -[pending unissued]; rewrite ?E', ?Est, ?El, ?Hq, ?pending_cons; try done.
  - split; cbn; rewrite ?E', ?Es; [done|]. unfold zlen. lia.
  - unfold zlen. cbn [length]. lia.
  - destruct Hctl. constructor; cbn; rewrite ?Est; done.
  - unfold tx_insns. rewrite bool_decide_false by done. cbn. lia.
  - unfold unissued. cbn. apply sublist_app; [done|]. by apply sublist_inserts_l.
Qed.

(** The head is sent to the memory, if the agent takes it. *)
Lemma head_issues c e t l :
  rob_ok c -> env_ok e -> is_core (core_id c) -> outstanding_transactions c = t :: l -> transaction_type t <> INSTR_CPU ->
  isIssued t = false -> can_be_committed t = false ->
  exists ok c' e', issue 0 t c e = Ok (ok, c', e') /\ turn_ok c c' e e'.
Proof.
  intros Hr He Hid El Ht Hi Hd. unfold issue, isRead. rewrite bool_decide_false by done. cbn [mbind Res_bind].
  pose proof (mem_law e (core_id c) (addr t) (bool_decide (transaction_type t = INSTR_MMU_LD)) He Hid) as Hl.
  destruct (enqueueCoreMemRequest e (core_id c) (addr t) (bool_decide (transaction_type t = INSTR_MMU_LD))) as [ok e'].
  destruct Hl as [He' Hq].
  assert (tx_op t = [(addr t, bool_decide (transaction_type t = INSTR_MMU_LD))]) as Ho
    by (unfold tx_op; by rewrite Hi, bool_decide_false by done).
  destruct ok; do 3 eexists; (split; [reflexivity|]).
  - assert (outstanding_transactions (set_transaction 0 (issueToMem (setInsertedTick (ticks c) t)) c) =
      issueToMem (setInsertedTick (ticks c) t) :: l) as E' by (by apply (set_head _ t)).
    destruct Hr as [Hs Hm]. rewrite El in Hs, Hm.
    constructor; rewrite ?E', ?El, ?pending_cons, ?Hq; try done.
    + split; rewrite E'; done.
    + unfold unissued. cbn [mbind list_bind]. fold (unissued l). rewrite Ho.
      replace (tx_op (issueToMem (setInsertedTick (ticks c) t))) with (@nil MemOp)
        by (unfold tx_op; cbn; by rewrite orb_true_r).
      by rewrite <- app_assoc.
  - destruct Hr. constructor; try done. by rewrite Hq, app_nil_r.
Qed.

Lemma in_order_step_ok c e j :
  rob_ok c -> env_ok e -> is_core (core_id c) ->
  exists c' e', in_order_step (c, e) j = Ok (c', e') /\ turn_ok c c' e e'.
Proof.
  intros Hr He Hid. unfold in_order_step. case_bool_decide as Hsz.
  2: { do 2 eexists. split; [reflexivity|]. by apply turn_ok_stall. }
  destruct (rob_head c Hr) as (t & l & El & ->); [lia|]. cbn [mbind Res_bind].
  destruct (bool_decide_reflect (transaction_type t = INSTR_CPU)) as [Ht|Ht]; cbn [andb negb].
  - case_bool_decide as Hn; [|case_bool_decide as Hz].
    + destruct (head_executes c e t l) as (t' & -> & Hok); [done..|lia|]. cbn [mbind Res_bind].
      destruct (updateStatInstructionCommit _ e) as [c' e']. by exists c', e'.
    + destruct (head_retires c e t l (commit_transaction t)) as (c' & -> & Hok); [done..|]. by exists c', e.
    + exists c, e. split; [done|]. by apply turn_ok_refl.
  - destruct (can_be_committed t) eqn:Hd; [|destruct (isIssued t) eqn:Hi]; cbn [negb].
    + destruct (head_completes c e t l) as (c1 & -> & Hok); [done..|]. cbn [mbind Res_bind].
      destruct (updateStatInstructionCommit c1 e) as [c' e']. by exists c', e'.
    + do 2 eexists. split; [reflexivity|]. unfold rob_full_stall. apply turn_ok_stall; try done; cbn.
      * constructor; try done. cbn. by destruct (flagProfile (stats c)).
      * by destruct (flagProfile (stats c)).
    + destruct (head_issues c e t l) as (ok & c' & e' & -> & Hok); [done..|]. cbn [mbind Res_bind].
      do 2 eexists. split; [reflexivity|]. destruct ok; [done|]. eapply turn_ok_trans; [exact Hok|].
      destruct Hok. unfold mem_full_stall.
      apply turn_ok_stall; try done; [constructor; try done|]; cbn; by destruct (flagProfile (stats c')).
Qed.

Lemma inOrderProcess_ok c e :
  rob_ok c -> env_ok e -> is_core (core_id c) ->
  exists c' e', inOrderProcess c e = Ok (c', e') /\ turn_ok c c' e e'.
Proof.
  intros Hr He Hid. unfold inOrderProcess.
  destruct (foldM_inv (fun st => turn_ok c st.1 e st.2) in_order_step (zrange (issue_width c))) with (s := (c, e))
    as ([c' e'] & Hf & Hok).
  - intros [c1 e1] j _ H1. cbn [fst snd] in H1.
    destruct (in_order_step_ok c1 e1 j) as (c2 & e2 & -> & H2).
    + apply H1.
    + apply H1.
    + by rewrite (sc_id _ _ (to_ctl _ _ _ _ H1)).
    + exists (c2, e2). split; [done|]. by eapply turn_ok_trans.
  - by apply turn_ok_refl.
  - by exists c', e'.
Qed.
End Process.

(** ** The trace *)

(** The words that follow the first word of a line. *)
Definition line_words (op : string) : nat :=
  if String.eqb op "CPUSummary" then 4 else if String.eqb op "END" then 0 else 2.

Definition is_mmu (op : string) : bool := String.eqb op "MMU_ld" || String.eqb op "MMU_st".

Definition Line : Type := (Token * list Token).

Fixpoint lines_upto (n : nat) (ts : list Token) : list Line :=
  match n, ts with
  | S n', t :: ts' =>
      let k := line_words (tk_text t) in (t, take k ts') :: lines_upto n' (drop k ts')
  | _, _ => []
  end.
Definition lines (ts : list Token) : list Line := lines_upto (length ts) ts.

(** The instructions and the memory accesses of a line. *)
Definition line_insns (l : Line) : Z :=
  match l with
  | (t, n :: _) => if String.eqb (tk_text t) "CPU" then default 0 (tk_dec n) else 0
  | _ => 0
  end.
Definition line_ops (off : Z) (l : Line) : list MemOp :=
  match l with
  | (t, a :: _) =>
      if is_mmu (tk_text t)
      then match tk_hex a with Some x => [(u64 (x + off), String.eqb (tk_text t) "MMU_ld")] | None => [] end
      else []
  | _ => []
  end.
Definition trace_insns (ts : list Token) : Z := foldr (fun l n => line_insns l + n) 0 (lines ts).
Definition trace_ops (off : Z) (ts : list Token) : list MemOp := lines ts ≫= line_ops off.

(** The numbers of a line can be read. *)
Definition line_ok (off : Z) (op : string) (args : list Token) : Prop :=
  if String.eqb op "CPU" then
    exists n w, (tk_dec <$> args) = [Some n; Some w]
  else if is_mmu op then
    exists a s x y, args = [a; s] /\ tk_hex a = Some x /\ u64 (x + off) <> 1 /\ tk_dec s = Some y
  else if String.eqb op "CPUSummary" || String.eqb op "END" then True
  else exists a s x y, args = [a; s] /\ tk_hex a = Some x /\ tk_dec s = Some y.

(** A word that starts a line with neither instructions nor accesses. *)
Definition is_ip (op : string) : bool :=
  negb (String.eqb op "CPU" || is_mmu op || String.eqb op "CPUSummary" || String.eqb op "END" || String.eqb op "").

(** A camera line has three more words, which are skipped or not: read as a
    line they call no camera. *)
Inductive trace_ok (off : Z) : list Token -> Prop :=
| trace_nil : trace_ok off []
| trace_line t args ts :
    tk_text t <> ""%string -> length args = line_words (tk_text t) -> line_ok off (tk_text t) args ->
    (is_ip (tk_text t) && contains "CAM" (tk_text t) = true ->
     exists d args' ts', ts = d :: args' ++ ts' /\ length args' = 2%nat /\ is_ip (tk_text d) = true /\
                         trace_ok off ts') ->
    trace_ok off ts ->
    trace_ok off (t :: args ++ ts).

Definition stream_ok (off : Z) (s : Stream) : Prop := trace_ok off (sm_tokens s).

Lemma lines_upto_enough n ts : (length ts <= n)%nat -> lines_upto n ts = lines ts.
Proof.
  unfold lines. revert ts. induction n as [n IH] using lt_wf_ind. intros ts Hn.
  destruct ts as [|t ts]; [by destruct n|]. destruct n as [|n]; [cbn in Hn; lia|]. cbn in Hn |- *. f_equal.
  pose proof (length_drop ts (line_words (tk_text t))).
  rewrite (IH n) by lia. symmetry. destruct (decide (length ts = n)) as [->|]; [apply (IH n); lia|].
  apply (IH (length ts)); lia.
Qed.

Lemma lines_cons t args ts :
  length args = line_words (tk_text t) -> lines (t :: args ++ ts) = (t, args) :: lines ts.
Proof.
  intros Hl. unfold lines at 1. cbn. rewrite <- Hl, take_app_length, drop_app_length. f_equal.
  apply lines_upto_enough. rewrite length_app. lia.
Qed.

Lemma trace_insns_cons t args ts :
  length args = line_words (tk_text t) -> trace_insns (t :: args ++ ts) = line_insns (t, args) + trace_insns ts.
Proof. intros H. unfold trace_insns. by rewrite lines_cons. Qed.

Lemma trace_ops_cons off t args ts :
  length args = line_words (tk_text t) -> trace_ops off (t :: args ++ ts) = line_ops off (t, args) ++ trace_ops off ts.
Proof. intros H. unfold trace_ops. by rewrite lines_cons. Qed.

(** ** The look-ahead *)

Lemma skip_strings_shorter n s : shorter (skip_strings n s) s.
Proof.
  unfold skip_strings. induction n as [|n IH]; cbn; [by split|]. transitivity (Nat.iter n skip_string s); [|done].
  apply read_string_shorter.
Qed.

Lemma shorter_len s1 s2 : shorter s1 s2 -> (length (sm_tokens s1) <= length (sm_tokens s2))%nat.
Proof. by intros []. Qed.

(** The loop of the look-ahead returns: every turn reads a word. *)
Lemma look_ahead_returns fuel s look work idle :
  (length (sm_tokens s) < fuel)%nat -> look_ahead fuel s look work idle <> Err OutOfFuel.
Proof.
  revert s look work idle. induction fuel as [|fuel IH]; intros s look work idle Hf; [lia|]. cbn [look_ahead].
  destruct (read_string s) as [op s1] eqn:E1.
  destruct (String.string_dec op "") as [->|Hne]; [done|].
  pose proof (read_string_word _ _ _ E1 Hne) as H1.
  destruct (String.eqb op "CPU").
  { pose proof (read_number_shorter tk_dec s1) as Ha. destruct (read_number tk_dec s1) as [insns s2].
    pose proof (read_number_shorter tk_dec s2) as Hb. destruct (read_number tk_dec s2) as [wait s3].
    apply shorter_len in Ha, Hb. cbn in Ha, Hb.
    destruct insns; [|done]. destruct wait; [|done]. cbn. apply IH. lia. }
  pose proof (shorter_len _ _ (skip_strings_shorter 2 s1)). pose proof (shorter_len _ _ (skip_strings_shorter 4 s1)).
  repeat case_match; try done; apply IH; lia.
Qed.

(** Reading the words of a line. *)
Lemma read_word t ts : read_string (mkStream (t :: ts) false) = (tk_text t, mkStream ts false).
Proof. done. Qed.
Lemma read_num r t ts n : r t = Some n -> read_number r (mkStream (t :: ts) false) = (Some n, mkStream ts false).
Proof. unfold read_number. cbn. by intros ->. Qed.
Lemma skip_words args ts : skip_strings (length args) (mkStream (args ++ ts) false) = mkStream ts false.
Proof.
  unfold skip_strings. revert ts. induction args as [|a args IH] using rev_ind; intros ts; [done|].
  rewrite length_app, Nat.add_1_r, <- app_assoc, Nat.iter_succ, IH. done.
Qed.

(** The five kinds of lines. *)
Inductive op_kind (op : string) : Prop :=
| kind_cpu : op = "CPU"%string -> op_kind op
| kind_mmu (rd : bool) : op = (if rd then "MMU_ld" else "MMU_st")%string -> op_kind op
| kind_summary : op = "CPUSummary"%string -> op_kind op
| kind_end : op = "END"%string -> op_kind op
| kind_ip : is_ip op = true -> op_kind op.

Lemma op_kinds op : op <> ""%string -> op_kind op.
Proof.
  intros Hne.
  destruct (String.eqb_spec op "CPU"); [by apply kind_cpu|].
  destruct (String.eqb_spec op "MMU_ld"); [by apply (kind_mmu _ true)|].
  destruct (String.eqb_spec op "MMU_st"); [by apply (kind_mmu _ false)|].
  destruct (String.eqb_spec op "CPUSummary"); [by apply kind_summary|].
  destruct (String.eqb_spec op "END"); [by apply kind_end|].
  apply kind_ip. unfold is_ip, is_mmu. by rewrite !(proj2 (String.eqb_neq _ _)).
Qed.

Lemma is_ip_eqb op :
  is_ip op = true ->
  String.eqb op "CPU" = false /\ is_mmu op = false /\ String.eqb op "CPUSummary" = false /\
  String.eqb op "END" = false /\ String.eqb op "" = false.
Proof. unfold is_ip. by intros [[[[]%orb_false_iff]%orb_false_iff]%orb_false_iff]%negb_true_iff%orb_false_iff. Qed.

(** A line that is an IP call, or a camera's extra words read as one. *)
Lemma line_ok_ip off op args :
  is_ip op = true -> line_ok off op args ->
  exists a s x y, args = [a; s] /\ tk_hex a = Some x /\ tk_dec s = Some y.
Proof. intros Hip. destruct (is_ip_eqb op Hip) as (H1 & H2 & H3 & H4 & _). unfold line_ok. by rewrite H1, H2, H3, H4. Qed.

Lemma line_words_ip op : is_ip op = true -> line_words op = 2%nat.
Proof. intros Hip. destruct (is_ip_eqb op Hip) as (_ & _ & H3 & H4 & _). unfold line_words. by rewrite H3, H4. Qed.

Lemma line_ok_cpu off args :
  line_ok off "CPU" args -> exists a b n w, args = [a; b] /\ tk_dec a = Some n /\ tk_dec b = Some w.
Proof.
  intros (n & w & H). destruct args as [|a [|b [|]]]; try done. cbn in H. injection H as ??. by exists a, b, n, w.
Qed.

(** The look-ahead leaves the second copy of the trace at a line. *)
Lemma look_ahead_ok off fuel s look work idle :
  stream_ok off s -> (length (sm_tokens s) < fuel)%nat ->
  exists s' look' work' idle', look_ahead fuel s look work idle = Ok (s', look', work', idle') /\ stream_ok off s'.
Proof.
  revert s look work idle. induction fuel as [|fuel IH]; intros [ts fail] look work idle Hok Hf; [lia|]. cbn [look_ahead].
  destruct fail; [by do 4 eexists|]. unfold stream_ok in Hok. cbn [sm_tokens] in *.
  destruct Hok as [|t args ts Hne Hw Hl Hcam Hok]; [do 4 eexists; split; [reflexivity | apply trace_nil]|].
  rewrite read_word. cbn [length] in Hf. rewrite length_app in Hf.
  assert (forall l w i, exists s' look' work' idle',
    look_ahead fuel (mkStream ts false) l w i = Ok (s', look', work', idle') /\ stream_ok off s') as Hnext.
  { intros. apply IH; [done|]. cbn. lia. }
  destruct (op_kinds _ Hne) as [E|rd E|E|E|E]; try rewrite E in Hl, Hw |- *.
  - apply line_ok_cpu in Hl as (a & b & n & w & -> & Ha & Hb).
    cbn -[read_number look_ahead]. rewrite (read_num _ _ _ _ Ha), (read_num _ _ _ _ Hb). apply Hnext.
  - assert (skip_strings 2 (mkStream (args ++ ts) false) = mkStream ts false) as Hs
      by (replace 2%nat with (length args) by (rewrite Hw; by destruct rd); apply skip_words).
    destruct rd; cbn -[skip_strings look_ahead]; rewrite Hs; apply Hnext.
  - cbn -[skip_strings look_ahead] in Hw |- *. rewrite <- Hw, skip_words. apply Hnext.
  - cbn in Hw. destruct args; [|done]. apply Hnext.
  - destruct (is_ip_eqb _ E) as (-> & Hm & -> & -> & ->). unfold is_mmu in Hm. rewrite Hm.
    rewrite line_words_ip in Hw by done. rewrite <- Hw, skip_words.
    destruct (contains "FB-UP" (tk_text t)); [by do 4 eexists | apply Hnext].
Qed.

Lemma setIdleRatio_ok off c :
  stream_ok off (lookahead_trace_file c) -> 0 <= dvfsState c < CORE_DVFS_STATES ->
  exists s look r, setIdleRatio c = Ok (c <| lookahead_trace_file := s |> <| needToLookAhead := look |>
                                         <| qemu_to_60FPS_speedratio := r |>) /\ stream_ok off s.
Proof.
  intros Hs Hd. unfold setIdleRatio, look_fuel.
  destruct (look_ahead_ok off (S (length (sm_tokens (lookahead_trace_file c)))) (lookahead_trace_file c)
    (needToLookAhead c) 0 0 Hs) as (s & look & work & idle & -> & Hok); [lia|]. cbn [mbind Res_bind].
  unfold getCoreFreq, row_at. destruct (zget_lt voltage_freq_table (dvfsState c)) as [row ->]; [done|].
  cbn [of_option mbind Res_bind]. by do 3 eexists.
Qed.

Lemma getCoreFreq_ok c : 0 <= dvfsState c < CORE_DVFS_STATES -> exists f, getCoreFreq c = Ok f.
Proof.
  intros Hd. unfold getCoreFreq, row_at. destruct (zget_lt voltage_freq_table (dvfsState c)) as [row ->]; [done|].
  by exists (tbl_freq row).
Qed.

(** ** Invariant *)

Section Lines.
Context {E : Type} {port : CorePort E} {laws : CorePortLaws E}.

Definition off (c : GemDroidCore) : Z := core_offset (core_id c).

Record core_inv (c : GemDroidCore) : Prop := {
  ci_rob : rob_ok c;
  ci_core : is_core (core_id c);
  ci_dvfs : 0 <= dvfsState c < CORE_DVFS_STATES;
  ci_opt : 0 <= optDVFSState c < CORE_DVFS_STATES;
  ci_frames : zlen (m_frameNumber c) = IP_TYPE_END;
  ci_ooo : number_of_instr_executed_OoO c = 0;
  ci_trace : stream_ok (off c) (em_trace_file c);
  ci_look : stream_ok (off c) (lookahead_trace_file c)
}.

(** What reading a line and pacing frames leave alone. *)
Record same_rob (c c' : GemDroidCore) : Prop := {
  sr_id : core_id c' = core_id c;
  sr_pstate : cpu_pstate c' = cpu_pstate c;
  sr_ooo : number_of_instr_executed_OoO c' = number_of_instr_executed_OoO c;
  sr_deadlocks : deadlocks_faced c' = deadlocks_faced c;
  sr_dvfs : dvfsState c' = dvfsState c;
  sr_opt : optDVFSState c' = optDVFSState c;
  sr_frames : zlen (m_frameNumber c') = zlen (m_frameNumber c);
  sr_rob : outstanding_transactions c' = outstanding_transactions c;
  sr_size : outstanding_transactions_size c' = outstanding_transactions_size c;
  sr_committed : m_committedInsns (stats c') = m_committedInsns (stats c);
  sr_memReqs : m_memReqs (stats c') = m_memReqs (stats c);
  sr_trace : em_trace_file c' = em_trace_file c;
  sr_look : lookahead_trace_file c' = lookahead_trace_file c
}.

#[local] Instance same_rob_refl : Reflexive same_rob.
Proof. by constructor. Qed.
#[local] Instance same_rob_trans : Transitive same_rob.
Proof. intros a b c [] []. constructor; congruence. Qed.

Lemma same_rob_inv c c' : same_rob c c' -> core_inv c -> core_inv c'.
Proof.
  intros [] []. unfold rob_ok, off in *. constructor; unfold rob_ok, off; rewrite ?sr_id0, ?sr_dvfs0, ?sr_opt0, ?sr_frames0,
    ?sr_ooo0, ?sr_trace0, ?sr_look0, ?sr_rob0, ?sr_size0; done.
Qed.

Lemma isFrameDrop_ok now c :
  zlen (m_frameNumber c) = IP_TYPE_END -> exists b c', isFrameDrop now c = Ok (b, c') /\ same_rob c c'.
Proof.
  intros Hz. unfold isFrameDrop. cbn [type_of_application upd_stats upd_field set_stats set_startCycle].
  destruct (bool_decide _ || bool_decide _); [|by do 2 eexists; split; [reflexivity|constructor]].
  destruct (of_option_zget (m_frameNumber c) IP_TYPE_DC) as (n & Hn & _); [rewrite Hz; done|].
  cbn. rewrite Hn. cbn.
  destruct (bool_decide (lastDCTick c = 0)); [|destruct (F64.ltb _ _)].
  1-2: do 2 eexists; (split; [reflexivity|]); constructor; cbn; by rewrite ?zlen_zalter.
  do 2 eexists. split; [reflexivity|]. constructor; cbn; by rewrite ?zlen_zalter.
Qed.

Lemma isAudioFrameDrop_ok now c :
  zlen (m_frameNumber c) = IP_TYPE_END -> exists b c', isAudioFrameDrop now c = Ok (b, c') /\ same_rob c c'.
Proof.
  intros Hz. unfold isAudioFrameDrop. destruct (bool_decide (type_of_application c = AUDIO_PLAYBACK)).
  2: by do 2 eexists; split; [reflexivity|constructor].
  destruct (of_option_zget (m_frameNumber c) IP_TYPE_SND) as (n & Hn & _); [rewrite Hz; done|].
  rewrite Hn. cbn [mbind Res_bind of_option].
  cbn [lastSNDTick upd_field set_m_frameNumber].
  destruct (bool_decide (lastSNDTick c = 0)); [|destruct (F64.ltb _ _)].
  all: do 2 eexists; (split; [reflexivity|]); constructor; cbn; by rewrite ?zlen_zalter.
Qed.

Lemma count_call_same ip c : same_rob c (count_call ip c).
Proof. by constructor. Qed.

(** The calls of a trace name real IPs. *)
Lemma display_call_callable first x : display_call first = Some x -> callable (call_ip x).
Proof.
  unfold display_call, callable. repeat (case_bool_decide; [intros [= <-]; by vm_compute|]). done.
Qed.

Lemma frame_update_call_ok c e :
  core_inv c -> env_ok e ->
  exists call c' e', frame_update_call c e = Ok (call, c', e') /\ same_rob c c' /\ env_ok e' /\
    requests e' = requests e /\ (forall x, call = Some x -> callable (call_ip x)).
Proof.
  intros Hc He. unfold frame_update_call.
  destruct (isFrameDrop_ok (getTicks e) c (ci_frames c Hc)) as (b & c1 & -> & H1). cbn [mbind Res_bind].
  pose proof (same_rob_inv _ _ H1 Hc) as Hc1.
  assert (exists call, (if b then Ok (Some (mkCall IP_TYPE_DC DC0_ADDR_START FRAME_SIZE true IP_TYPE_DC))
     else ips ← nextIPtoCall e IP_TYPE_CPU (core_id (c1 <| m_readFBLine := true |>)) IP_TYPE_DC;
          first ← of_option (zget ips 0); Ok (display_call first)) = Ok call /\
     forall x, call = Some x -> callable (call_ip x)) as (call & Hcall & Hx).
  { destruct b; [eexists; split; [reflexivity|]; by intros x [= <-]|].
    destruct (next_law e IP_TYPE_CPU (core_id c1) IP_TYPE_DC He (ci_core _ Hc1)) as (ip & ips & Hn).
    cbn [core_id upd_field set_m_readFBLine]. rewrite Hn. cbn. eexists. split; [reflexivity|].
    apply display_call_callable. }
  rewrite Hcall. cbn [mbind Res_bind].
  set (c2 := match call with Some x => count_call (call_ip x) (c1 <| m_readFBLine := true |>)
                        | None => c1 <| m_readFBLine := true |> end).
  assert (same_rob c1 c2) as H2 by (subst c2; by destruct call; constructor).
  pose proof (same_rob_inv _ _ H2 Hc1) as Hc2.
  destruct (of_option_zget (m_frameNumber c2) (match call with Some x => call_ip x | None => IP_TYPE_DC end))
    as (n & _ & Hn).
  { rewrite (ci_frames _ Hc2). destruct call as [x|]; [|by vm_compute]. specialize (Hx x eq_refl). unfold callable in Hx. lia. }
  rewrite Hn. cbn [mbind Res_bind].
  destruct (completed_law e (core_id c2) (n + 1) 0 (dvfsState c2) He (ci_core _ Hc2) (ci_dvfs _ Hc2))
    as (e' & -> & He' & Hq). cbn [mbind Res_bind].
  do 3 eexists. split; [reflexivity|]. split; [by transitivity c1|]. done.
Qed.

Lemma audio_in_call_ok c e :
  core_inv c -> env_ok e ->
  exists call c', audio_in_call c e = Ok (call, c', e) /\ same_rob c c' /\
    (forall x, call = Some x -> callable (call_ip x)).
Proof.
  intros Hc He. unfold audio_in_call.
  destruct (isAudioFrameDrop_ok (getTicks e) c (ci_frames c Hc)) as (b & c1 & -> & H1). cbn [mbind Res_bind].
  pose proof (same_rob_inv _ _ H1 Hc) as Hc1.
  destruct (next_law e IP_TYPE_CPU (core_id c1) IP_TYPE_SND He (ci_core _ Hc1)) as (ip & ips & ->).
  cbn [mbind Res_bind]. change (zget (ip :: ips) 0) with (Some ip). cbn [of_option mbind Res_bind].
  destruct (bool_decide (ip = IP_TYPE_MMC_IN)); [|destruct (bool_decide (ip = -1))]; do 2 eexists;
    (split; [reflexivity|]); (split; [|by intros x [= <-]]); (transitivity c1; [done|]); by constructor.
Qed.

Lemma core_inv_trace c s : core_inv c -> stream_ok (off c) s -> core_inv (c <| em_trace_file := s |>).
Proof. intros [] H. by constructor. Qed.

(** A call may skip the three words of a camera line. *)
Definition words_skipped (op : string) (c c' : GemDroidCore) : Prop :=
  em_trace_file c' = em_trace_file c \/
  (contains "CAM" op = true /\ em_trace_file c' = skip_strings 3 (em_trace_file c)).

Lemma trace_call_ok op c e :
  core_inv c -> env_ok e ->
  exists call c' e', trace_call op c e = Ok (call, c', e') /\
    same_rob (c <| em_trace_file := em_trace_file c' |>) c' /\ words_skipped op c c' /\ env_ok e' /\
    requests e' = requests e /\ (forall x, call = Some x -> callable (call_ip x)).
Proof.
  intros Hc He. unfold trace_call, words_skipped.
  assert (forall c', same_rob c c' -> same_rob (c <| em_trace_file := em_trace_file c' |>) c') as Hsame
    by (intros c' []; by constructor).
  destruct (contains "FB-UP" op).
  { destruct (frame_update_call_ok c e Hc He) as (call & c' & e' & -> & Hs & He' & Hq & Hx).
    do 3 eexists. split; [reflexivity|]. split; [by apply Hsame|]. split; [left; apply Hs | done]. }
  destruct (contains "NW" op); [|destruct (contains "SND-IN" op); [|destruct (contains "SND-OUT" op);
    [|destruct (contains "CAM" op) eqn:Ecam]]].
  - do 3 eexists. split; [reflexivity|]. split; [by constructor|]. split; [by left|]. split; [done|]. split; [done|]. by intros x [= <-].
  - destruct (audio_in_call_ok c e Hc He) as (call & c' & -> & Hs & Hx).
    do 3 eexists. split; [reflexivity|]. split; [by apply Hsame|]. split; [left; apply Hs | done].
  - do 3 eexists. split; [reflexivity|]. split; [by constructor|]. split; [by left|]. split; [done|]. split; [done|]. by intros x [= <-].
  - destruct (m_readFBLine c); do 3 eexists; (split; [reflexivity|]); (split; [by constructor|]).
    + split; [by right|]. split; [done|]. split; [done|]. by intros x [= <-].
    + split; [by left|]. done.
  - do 3 eexists. split; [reflexivity|]. split; [by constructor|]. split; [by left|]. done.
Qed.

Lemma make_call_ok x c e :
  core_inv c -> env_ok e -> callable (call_ip x) ->
  exists c' e', make_call x c e = Ok (c', e') /\ same_rob c c' /\ env_ok e' /\ requests e' = requests e.
Proof.
  intros Hc He Hx. unfold make_call. destruct (limit_law e (call_ip x) He Hx) as (full & Hf). rewrite Hf.
  cbn [mbind Res_bind]. destruct full; [by do 2 eexists; split; [reflexivity|]; split; [constructor|]|].
  destruct (of_option_zget (m_frameNumber c) (call_ip x)) as (n & Hn & _).
  { rewrite (ci_frames _ Hc). unfold callable in Hx. lia. }
  cbn [m_frameNumber upd_stats upd_field set_stats]. rewrite Hn. cbn [mbind Res_bind of_option].
  destruct (flow_law e (core_id c) (call_ip x) He (ci_core _ Hc)) as (flow & flows & Hfl).
  cbn [core_id upd_stats upd_field set_m_frameNumber set_stats]. rewrite Hfl. cbn [mbind Res_bind].
  change (of_option (zget (flow :: flows) 0)) with (Ok flow). cbn [mbind Res_bind].
  destruct (call_law e (core_id c) (call_ip x) (call_addr x) (call_size x) (call_isRead x) n (call_flowType x) flow
    He (ci_core _ Hc) Hx Hf) as (ok & e' & -> & He' & Hq). cbn [mbind Res_bind].
  do 2 eexists. split; [reflexivity|]. split; [|done]. constructor; cbn; by rewrite ?zlen_zalter.
Qed.

Lemma processIPCall_ok op c e :
  core_inv c -> env_ok e ->
  (contains "CAM" op = true -> stream_ok (off c) (skip_strings 3 (em_trace_file c))) ->
  exists c' e', processIPCall op c e = Ok (c', e') /\ same_rob (c <| em_trace_file := em_trace_file c' |>) c' /\
    words_skipped op c c' /\ env_ok e' /\ requests e' = requests e /\ core_inv c'.
Proof.
  intros Hc He Hcam. unfold processIPCall.
  destruct (trace_call_ok op c e Hc He) as (call & c1 & e1 & -> & H1 & Hw & He1 & Hq1 & Hx). cbn [mbind Res_bind].
  assert (core_inv c1) as Hc1.
  { eapply same_rob_inv; [done|]. apply core_inv_trace; [done|]. destruct Hw as [->|[? ->]]; [apply Hc | auto]. }
  destruct call as [x|]; [|by do 2 eexists].
  destruct (make_call_ok x c1 e1) as (c2 & e2 & -> & H2 & He2 & Hq2); [done..|auto|].
  do 2 eexists. split; [reflexivity|].
  pose proof (sr_trace _ _ H2) as Ht. split.
  { rewrite Ht. by transitivity c1. }
  split; [unfold words_skipped in *; by rewrite Ht|]. split; [done|]. split; [congruence|]. by eapply same_rob_inv.
Qed.

(** ** Reading a line *)

(** One line read: an instruction count and an access move from the trace to
    the buffer; an access may be dropped. *)
Record read_ok (c c' : GemDroidCore) (e e' : E) : Prop := {
  ro_inv : core_inv c';
  ro_env : env_ok e';
  ro_requests : requests e' = requests e;
  ro_id : core_id c' = core_id c;
  ro_pstate : cpu_pstate c' = cpu_pstate c;
  ro_deadlocks : deadlocks_faced c' = deadlocks_faced c;
  ro_committed : m_committedInsns (stats c') = m_committedInsns (stats c);
  ro_insns : pending (outstanding_transactions c') + trace_insns (sm_tokens (em_trace_file c')) - m_memReqs (stats c')
             = pending (outstanding_transactions c) + trace_insns (sm_tokens (em_trace_file c)) - m_memReqs (stats c);
  ro_ops : unissued (outstanding_transactions c') ++ trace_ops (off c) (sm_tokens (em_trace_file c'))
           `sublist_of` unissued (outstanding_transactions c) ++ trace_ops (off c) (sm_tokens (em_trace_file c))
}.

Lemma search_rob_ok found n i l :
  (n <= length l)%nat -> exists r, search_rob found n i l = Ok r.
Proof.
  revert i l. induction n as [|n IH]; intros i l Hn; [by eexists|].
  destruct l as [|t l]; cbn in Hn; [lia|]. cbn. destruct (found t); [by eexists|]. apply IH. lia.
Qed.

Lemma search_bound_ok c : rob_ok c -> (search_bound c <= length (outstanding_transactions c))%nat.
Proof. intros [Hs _]. unfold search_bound. rewrite Hs. unfold zlen. lia. Qed.

Lemma push_transaction_ok t c :
  rob_ok c -> outstanding_transactions_size c < MAX_TRANSACTIONS ->
  exists c', push_transaction t c = Ok c' /\ rob_ok c' /\ outstanding_transactions c' = outstanding_transactions c ++ [t] /\
    c' = (c <| outstanding_transactions ::= fun l => l ++ [t] |> <| outstanding_transactions_size ::= Z.succ |>).
Proof.
  intros [Hs Hm] Hlt. unfold push_transaction. rewrite bool_decide_false by (cbn; lia).
  eexists. split; [reflexivity|]. split; [|by split]. split; cbn; rewrite zlen_snoc; lia.
Qed.

Lemma cpu_line_ok c a b ts n w :
  core_inv c -> outstanding_transactions_size c < MAX_TRANSACTIONS -> tk_dec a = Some n -> tk_dec b = Some w ->
  trace_ok (off c) ts ->
  exists c' r, cpu_line (mkStream (a :: b :: ts) false) c = Ok c' /\
    c' = (c <| em_trace_file := mkStream ts false |> <| idleStalls := r |>
            <| outstanding_transactions ::= fun l => l ++ [mkOoO INSTR_CPU n 0 (u64 (-1)) false (-1) false] |>
            <| outstanding_transactions_size ::= Z.succ |>) /\ rob_ok c'.
Proof.
  intros Hc Hlt Ha Hb Hts. unfold cpu_line. rewrite (read_num _ _ _ _ Ha), (read_num _ _ _ _ Hb).
  destruct (getCoreFreq_ok c (ci_dvfs _ Hc)) as (f & Hf).
  assert (exists r, (if F64.eqb (qemu_to_60FPS_speedratio (c <| em_trace_file := mkStream ts false |>)) (F64.of_Z 0)
     then Ok 0
     else wait ← assigned (Some w); f ← getCoreFreq (c <| em_trace_file := mkStream ts false |>);
          Ok (F32.trunc (F64.div (F64.mul (F64.of_Z wait) f) (qemu_to_60FPS_speedratio (c <| em_trace_file := mkStream ts false |>)))))
     = Ok r) as (r & Hr).
  { destruct (F64.eqb _ _); [by eexists|]. cbn [assigned mbind Res_bind].
    change (getCoreFreq (c <| em_trace_file := mkStream ts false |>)) with (getCoreFreq c). rewrite Hf. by eexists. }
  cbn zeta. rewrite Hr. cbn [mbind Res_bind assigned]. unfold addInstructions.
  change (new_transaction INSTR_CPU n (u64 (-1))) with (Ok (mkOoO INSTR_CPU n 0 (u64 (-1)) false (-1) false)).
  cbn [mbind Res_bind].
  destruct (push_transaction_ok (mkOoO INSTR_CPU n 0 (u64 (-1)) false (-1) false)
    (c <| em_trace_file := mkStream ts false |> <| idleStalls := r |>)) as (c' & -> & Hr' & _ & ->).
  { destruct (ci_rob _ Hc). by split. }
  { done. }
  by exists (c <| em_trace_file := mkStream ts false |> <| idleStalls := r |>
            <| outstanding_transactions ::= fun l => l ++ [mkOoO INSTR_CPU n 0 (u64 (-1)) false (-1) false] |>
            <| outstanding_transactions_size ::= Z.succ |>), r.
Qed.

(** An access that is not outstanding yet becomes the last transaction. *)
Lemma processMMURequest_ok rd a c :
  rob_ok c -> outstanding_transactions_size c < MAX_TRANSACTIONS -> a <> 1 ->
  processMMURequest rd a c = Ok c \/
  exists c', processMMURequest rd a c = Ok c' /\ rob_ok c' /\
    c' = (upd_stats (fun s => s <| m_memReqs ::= Z.succ |>) c)
           <| outstanding_transactions ::= fun l => l ++ [mkOoO (if rd then INSTR_MMU_LD else INSTR_MMU_ST) 0 0 a false (-1) false] |>
           <| outstanding_transactions_size ::= Z.succ |>.
Proof.
  intros Hr Hlt Ha. unfold processMMURequest, searchInROB.
  destruct (search_rob_ok (fun t => bool_decide (a = addr t) && negb (can_be_committed t)) (search_bound c) 0
    (outstanding_transactions c) (search_bound_ok c Hr)) as (r & ->). cbn [mbind Res_bind].
  destruct (bool_decide (_ = -1) || bool_decide (_ = -2)); [|by left]. right.
  assert (new_transaction (if rd then INSTR_MMU_LD else INSTR_MMU_ST) 0 a =
    Ok (mkOoO (if rd then INSTR_MMU_LD else INSTR_MMU_ST) 0 0 a false (-1) false)) as ->.
  { unfold new_transaction. rewrite (bool_decide_false (a = 1)) by done. by destruct rd. }
  cbn [mbind Res_bind]. destruct (push_transaction_ok (mkOoO (if rd then INSTR_MMU_LD else INSTR_MMU_ST) 0 0 a false (-1) false)
    (upd_stats (fun s => s <| m_memReqs ::= Z.succ |>) c)) as (c' & -> & Hr' & _ & ->); [done..|].
  by eexists.
Qed.

Lemma line_insns_ip off0 t args : is_ip (tk_text t) = true -> line_insns (t, args) = 0 /\ line_ops off0 (t, args) = [].
Proof.
  intros Hip. destruct (is_ip_eqb _ Hip) as (H1 & H2 & _). unfold line_insns, line_ops. rewrite H1, H2. by destruct args.
Qed.

(** The lines that touch neither the buffer nor the platform. *)
Lemma skip_line_ok c c' e ts :
  core_inv c -> env_ok e -> trace_ok (off c) ts ->
  same_rob (c <| em_trace_file := mkStream ts false |>) c' ->
  trace_insns ts = trace_insns (sm_tokens (em_trace_file c)) ->
  trace_ops (off c) ts = trace_ops (off c) (sm_tokens (em_trace_file c)) -> read_ok c c' e e.
Proof.
  intros Hc He Hts Hs Hi Ho. pose proof (same_rob_inv _ _ Hs (core_inv_trace _ (mkStream ts false) Hc Hts)) as Hc'.
  destruct Hs. constructor; try done.
  - rewrite sr_rob0, sr_trace0, sr_memReqs0. cbn -[pending trace_insns]. lia.
  - rewrite sr_rob0, sr_trace0. cbn -[unissued trace_ops]. by rewrite Ho.
Qed.

Lemma ip_line_ok c e op a s ts x y :
  core_inv c -> env_ok e -> tk_hex a = Some x -> tk_dec s = Some y -> trace_ok (off c) ts ->
  (contains "CAM" op = true -> exists d args ts', ts = d :: args ++ ts' /\ length args = 2%nat /\
     is_ip (tk_text d) = true /\ trace_ok (off c) ts') ->
  trace_insns ts = trace_insns (sm_tokens (em_trace_file c)) ->
  trace_ops (off c) ts = trace_ops (off c) (sm_tokens (em_trace_file c)) ->
  exists c' e', ip_line op (mkStream (a :: s :: ts) false) c e = Ok (c', e') /\ read_ok c c' e e'.
Proof.
  intros Hc He Hx Hy Hts Hcam Hi Ho. unfold ip_line. rewrite (read_num _ _ _ _ Hx), (read_num _ _ _ _ Hy).
  pose proof (core_inv_trace _ _ Hc (Hts : stream_ok (off c) (mkStream ts false))) as Hc0.
  assert (forall d args ts', ts = d :: args ++ ts' -> length args = 2%nat ->
    skip_strings 3 (mkStream ts false) = mkStream ts' false) as Hskip.
  { intros d args ts' -> Hl. rewrite app_comm_cons. replace 3%nat with (length (d :: args)) by (cbn; lia). apply skip_words. }
  destruct (processIPCall_ok op _ e Hc0 He) as (c1 & e1 & -> & Hs & Hw & He1 & Hq & Hc1).
  { intros Hy'. destruct (Hcam Hy') as (d & args & ts' & Ets & Hl & Hd & Hok').
    cbn [em_trace_file upd_field set_em_trace_file]. rewrite (Hskip _ _ _ Ets Hl). done. }
  cbn [mbind Res_bind].
  assert (exists ts1, em_trace_file c1 = mkStream ts1 false /\ trace_insns ts1 = trace_insns ts /\
    trace_ops (off c) ts1 = trace_ops (off c) ts) as (ts1 & Et & Hi1 & Ho1).
  { destruct Hw as [Hw|[Hy' Hw]]; cbn in Hw; [by exists ts|].
    destruct (Hcam Hy') as (d & args & ts' & Ets & Hl & Hd & Hok'). exists ts'. rewrite Hw. split; [by eapply Hskip|].
    rewrite Ets, trace_insns_cons, trace_ops_cons by (by rewrite line_words_ip).
    by destruct (line_insns_ip (off c) d args Hd) as [-> ->]. }
  assert (read_ok c c1 e e1) as Hok.
  { pose proof (sr_rob _ _ Hs : outstanding_transactions c1 = outstanding_transactions c) as R1.
    pose proof (sr_memReqs _ _ Hs : m_memReqs (stats c1) = m_memReqs (stats c)) as R2.
    constructor; try done; try apply Hs; rewrite ?R1, ?R2, Et; cbn -[pending unissued trace_insns trace_ops].
    - lia.
    - by rewrite Ho1, Ho. }
  destruct (contains "FB-UP" op && _ && needToLookAhead c1); [|by do 2 eexists].
  destruct (setIdleRatio_ok (off c1) c1 (ci_look _ Hc1) (ci_dvfs _ Hc1)) as (st & look & r & -> & Hst).
  cbn [mbind Res_bind]. do 2 eexists. split; [reflexivity|]. destruct Hok. constructor; try done.
  destruct ro_inv0. by constructor.
Qed.

Lemma line_insns_cpu off0 t a b n :
  tk_text t = "CPU"%string -> tk_dec a = Some n ->
  line_insns (t, [a; b]) = n /\ line_ops off0 (t, [a; b]) = [].
Proof. intros Ht Ha. unfold line_insns, line_ops. by rewrite Ht, Ha. Qed.

Lemma line_ops_mmu off0 t a s (rd : bool) x :
  tk_text t = (if rd then "MMU_ld" else "MMU_st")%string -> tk_hex a = Some x ->
  line_insns (t, [a; s]) = 0 /\ line_ops off0 (t, [a; s]) = [(u64 (x + off0), rd)].
Proof. intros Ht Ha. unfold line_insns, line_ops. rewrite Ht, Ha. by destruct rd. Qed.

(** What is left of the trace after a line. *)
Definition after_line (c : GemDroidCore) (t : Token) (args ts : list Token) : Prop :=
  trace_ok (off c) ts /\
  trace_insns (sm_tokens (em_trace_file c)) = line_insns (t, args) + trace_insns ts /\
  trace_ops (off c) (sm_tokens (em_trace_file c)) = line_ops (off c) (t, args) ++ trace_ops (off c) ts.

Lemma cpu_line_read c e t a b n w ts :
  core_inv c -> env_ok e -> outstanding_transactions_size c < MAX_TRANSACTIONS -> after_line c t [a; b] ts ->
  tk_text t = "CPU"%string -> tk_dec a = Some n -> tk_dec b = Some w ->
  exists c', cpu_line (mkStream (a :: b :: ts) false) c = Ok c' /\ read_ok c c' e e.
Proof.
  intros Hc He Hlt (Hts & Ei & Eo) Ht Hn Hb.
  destruct (line_insns_cpu (off c) t a b n Ht Hn) as [Hi Ho]. rewrite Hi in Ei. rewrite Ho in Eo.
  destruct (cpu_line_ok c a b ts n w) as (c' & r & Hcpu & Ec' & Hr'); [done..|].
  exists c'. split; [done|]. rewrite Ec' in Hr' |- *. destruct Hc.
  constructor; try done; cbn -[pending unissued trace_insns trace_ops].
  - rewrite pending_app, pending_cons, Ei. change (pending (@nil GemDroidOoOTransaction)) with 0.
    change (tx_insns (mkOoO INSTR_CPU n 0 (u64 (-1)) false (-1) false)) with n. lia.
  - rewrite unissued_app, Eo. cbn [unissued mbind list_bind tx_op]. cbn -[trace_ops unissued]. by rewrite app_nil_r.
Qed.

Lemma mmu_line_read c e t a s (rd : bool) x y ts :
  core_inv c -> env_ok e -> outstanding_transactions_size c < MAX_TRANSACTIONS -> after_line c t [a; s] ts ->
  tk_text t = (if rd then "MMU_ld" else "MMU_st")%string -> tk_hex a = Some x -> u64 (x + off c) <> 1 -> tk_dec s = Some y ->
  exists c', mmu_line rd (mkStream (a :: s :: ts) false) c = Ok c' /\ read_ok c c' e e.
Proof.
  intros Hc He Hlt (Hts & Ei & Eo) Ht Hx Hoff Hy.
  destruct (line_ops_mmu (off c) t a s rd x Ht Hx) as [Hi Ho]. rewrite Hi in Ei. rewrite Ho in Eo.
  unfold mmu_line. rewrite (read_num _ _ _ _ Hx), (read_num _ _ _ _ Hy). cbn [assigned mbind Res_bind].
  change (core_offset (core_id c)) with (off c).
  pose proof (core_inv_trace _ (mkStream ts false) Hc Hts) as Hc2.
  destruct (processMMURequest_ok rd (u64 (x + off c)) (c <| em_trace_file := mkStream ts false |>))
    as [->|(c' & -> & Hr' & ->)]; [apply Hc2|done|done| |]; eexists; (split; [reflexivity|]).
  - constructor; try done; cbn -[pending unissued trace_insns trace_ops]; [rewrite Ei; lia|]. rewrite Eo.
    apply sublist_app; [done|]. by apply sublist_inserts_l.
  - destruct Hc2. constructor; try done; cbn -[pending unissued trace_insns trace_ops].
    + rewrite pending_app, pending_cons, Ei. change (pending (@nil GemDroidOoOTransaction)) with 0.
      replace (tx_insns _) with 1 by (by destruct rd). lia.
    + rewrite unissued_app, Eo, <- app_assoc. by destruct rd.
Qed.

(** A core that is awake and has room reads a line of a well-formed trace. *)
Lemma readLine_ok c e :
  core_inv c -> env_ok e -> cpu_pstate c = CPU_PSTATE_ACTIVE -> outstanding_transactions_size c < MAX_TRANSACTIONS ->
  exists c' e', readLine c e = Ok (c', e') /\ read_ok c c' e e'.
Proof.
  intros Hc0 He Ha Hlt0. unfold readLine. rewrite bool_decide_true by done. cbn [negb].
  set (c1 := upd_stats (fun st => st <| lines_read_cpu ::= Z.succ |>) c).
  assert (same_rob c c1) as H01 by (by constructor).
  pose proof (same_rob_inv _ _ H01 Hc0) as Hc.
  assert (outstanding_transactions_size c1 < MAX_TRANSACTIONS) as Hlt by done.
  cut (exists c' e', (let '(op, s) := read_string (em_trace_file c1) in
    if String.eqb op "CPU" then c ← cpu_line s c1; Ok (c, e)
    else if String.eqb op "MMU_ld" || String.eqb op "MMU_st"
    then c ← mmu_line (String.eqb op "MMU_ld") s c1; Ok (c, e)
    else if String.eqb op "CPUSummary" then Ok (c1 <| em_trace_file := skip_strings 4 s |>, e)
    else if String.eqb op "END" then Ok (c1 <| em_trace_file := s |>, stopFetch e)
    else if String.eqb op "" then Ok (c1 <| em_trace_file := s |>, e)
    else ip_line op s c1 e) = Ok (c', e') /\ read_ok c1 c' e e').
  { intros (c' & e' & Hr & Hok). exists c', e'. split; [done|]. by destruct Hok. }
  clearbody c1. clear Hc0 H01 Hlt0 Ha.
  destruct (em_trace_file c1) as [ts fail] eqn:Es.
  assert (trace_ok (off c1) ts) as Hts by (pose proof (ci_trace _ Hc) as H; by rewrite Es in H).
  destruct fail.
  { do 2 eexists. split; [reflexivity|].
    assert (core_inv (c1 <| em_trace_file := mkStream ts true |>)) by (by apply core_inv_trace).
    constructor; cbn; rewrite ?Es; done. }
  destruct Hts as [|t args ts Hne Hw Hl Hcam Hts].
  { do 2 eexists. split; [reflexivity|].
    assert (core_inv (c1 <| em_trace_file := mkStream [] true |>)) by (apply core_inv_trace; [done | apply trace_nil]).
    constructor; cbn; rewrite ?Es; done. }
  rewrite read_word.
  assert (after_line c1 t args ts) as Hafter
    by (unfold after_line; rewrite Es; split; [done|]; split; [by apply trace_insns_cons | by apply trace_ops_cons]).
  destruct (op_kinds _ Hne) as [Ek|rd Ek|Ek|Ek|Ek].
  - rewrite Ek in Hl. apply line_ok_cpu in Hl as (a & b & n & w & -> & Hn & Hb).
    destruct (cpu_line_read c1 e t a b n w ts) as (c' & Hcpu & Hok); [done..|].
    rewrite Ek. cbn [app String.eqb Ascii.eqb eqb andb]. rewrite Hcpu. by exists c', e.
  - assert (String.eqb (tk_text t) "CPU" = false /\ is_mmu (tk_text t) = true /\ String.eqb (tk_text t) "MMU_ld" = rd)
      as (E1 & Em & E2) by (rewrite Ek; by destruct rd).
    unfold line_ok in Hl. rewrite E1, Em in Hl. destruct Hl as (a & s & x & y & -> & Hx & Hoff & Hy).
    destruct (mmu_line_read c1 e t a s rd x y ts) as (c' & Hmmu & Hok); [done..|].
    rewrite E1. unfold is_mmu in Em. rewrite Em, E2. cbn [app]. rewrite Hmmu. by exists c', e.
  - rewrite Ek in Hw |- *. do 2 eexists. split; [reflexivity|]. cbn in Hw.
    apply (skip_line_ok c1 _ e ts); try done.
    + cbn -[skip_strings]. replace 4%nat with (length args) by done. by rewrite skip_words.
    + destruct Hafter as (_ & -> & _). unfold line_insns. rewrite Ek. by destruct args.
    + destruct Hafter as (_ & _ & ->). unfold line_ops. rewrite Ek. by destruct args.
  - rewrite Ek in Hw |- *. cbn in Hw. destruct args; [|done]. do 2 eexists. split; [reflexivity|].
    destruct (stop_law e He) as [He' Hq].
    destruct Hafter as (_ & Ei & Eo). unfold line_insns, line_ops in Ei, Eo.
    destruct (skip_line_ok c1 (c1 <| em_trace_file := mkStream ts false |>) e ts); done.
  - pose proof (line_ok_ip _ _ _ Ek Hl) as (a & s & x & y & -> & Hx & Hy).
    destruct (is_ip_eqb _ Ek) as (-> & Hm & -> & -> & ->). unfold is_mmu in Hm. rewrite Hm.
    destruct (line_insns_ip (off c1) t [a; s] Ek) as [Hli Hlo]. destruct Hafter as (_ & Ei & Eo).
    rewrite Hli in Ei. rewrite Hlo in Eo.
    apply (ip_line_ok c1 e _ a s ts x y); try done. intros Hcm. apply Hcam. by rewrite Ek, Hcm.
Qed.

(** ** A cycle *)

(** Committed and pending instructions, with those still in the trace; an
    access is an instruction from the moment it is in the buffer. *)
Definition account (c : GemDroidCore) : Z :=
  m_committedInsns (stats c) + deadlocks_faced c + pending (outstanding_transactions c)
  + trace_insns (sm_tokens (em_trace_file c)) - m_memReqs (stats c).

(** The accesses a core has sent, those that wait, those it has not read. *)
Definition accesses (c : GemDroidCore) (e : E) : list MemOp :=
  requests e (core_id c) ++ unissued (outstanding_transactions c) ++ trace_ops (off c) (sm_tokens (em_trace_file c)).

Record step_ok (c c' : GemDroidCore) (e e' : E) : Prop := {
  so_inv : core_inv c';
  so_env : env_ok e';
  so_id : core_id c' = core_id c;
  so_account : account c' = account c;
  so_accesses : accesses c' e' `sublist_of` accesses c e
}.

Lemma step_ok_trans c1 c2 c3 e1 e2 e3 : step_ok c1 c2 e1 e2 -> step_ok c2 c3 e2 e3 -> step_ok c1 c3 e1 e3.
Proof. intros [] []. constructor; try done; [congruence|congruence|]. by transitivity (accesses c2 e2). Qed.

Lemma same_rob_step c c' e e' :
  core_inv c -> env_ok e' -> requests e' (core_id c) = requests e (core_id c) -> same_rob c c' -> step_ok c c' e e'.
Proof.
  intros Hc He Hq Hs. pose proof (same_rob_inv _ _ Hs Hc). destruct Hs. constructor; try done.
  - unfold account. by rewrite sr_committed0, sr_deadlocks0, sr_rob0, sr_trace0, sr_memReqs0.
  - unfold accesses, off. by rewrite sr_id0, sr_rob0, sr_trace0, Hq.
Qed.

Lemma turn_step c c' e e' : core_inv c -> turn_ok c c' e e' -> step_ok c c' e e'.
Proof.
  intros Hc [Hrob _ Hctl Hins Hreq He]. destruct Hctl. destruct Hc.
  assert (off c' = off c) as Eoff by (unfold off; by rewrite sc_id0).
  constructor; try done.
  - constructor; rewrite ?Eoff, ?sc_id0, ?sc_dvfs0, ?sc_opt0, ?sc_frames0, ?sc_ooo0, ?sc_trace0, ?sc_lookahead0; done.
  - unfold account. rewrite sc_deadlocks0, sc_trace0, sc_memReqs0. lia.
  - unfold accesses. rewrite Eoff, sc_id0, sc_trace0, !app_assoc. by apply sublist_app.
Qed.

Lemma read_step c c' e e' : read_ok c c' e e' -> step_ok c c' e e'.
Proof.
  intros []. constructor; try done.
  - unfold account. lia.
  - unfold accesses. rewrite ro_requests0, ro_id0. unfold off in *. rewrite ro_id0. by apply sublist_app.
Qed.

Lemma checkDeadlock_ok c e :
  core_inv c -> env_ok e ->
  exists c', checkDeadlock c = Ok c' /\ step_ok c c' e e /\ cpu_pstate c' = cpu_pstate c /\
    cyclesToWake c' = cyclesToWake c /\ idleCycles c' = idleCycles c /\ idleStalls c' = idleStalls c /\
    fpsStalls c' = fpsStalls c /\ audFpsStalls c' = audFpsStalls c.
Proof.
  intros Hc He. assert (step_ok c c e e) as Hrefl by (by constructor). unfold checkDeadlock.
  case_bool_decide as Hsz; [|by exists c].
  destruct (rob_head c (ci_rob _ Hc)) as (t & l & El & ->); [lia|]. cbn [mbind Res_bind].
  destruct (negb _ && isIssued t && _ && _) eqn:Ed; [|by exists c].
  apply andb_prop in Ed as [[[Ht Hi]%andb_prop Hd]%andb_prop _].
  apply negb_true_iff, bool_decide_eq_false_1 in Ht. apply negb_true_iff in Hd.
  destruct (commitHeadTransaction_ok (set_transaction 0 (commit_transaction t) c) (commit_transaction t) l)
    as (c' & -> & E' & Es & Hctl & Est & Eidle); [|by apply (set_head _ t)|done|].
  { destruct (ci_rob _ Hc) as [Hs Hm]. split; rewrite (set_head _ t l _ El), El in *; done. }
  cbn [mbind Res_bind]. eexists. split; [reflexivity|].
  assert (same_ctl c c') as [] by (transitivity (set_transaction 0 (commit_transaction t) c); [by constructor | done]).
  split; [|done]. destruct (ci_rob _ Hc) as [Hs Hm]. rewrite El in Hm. unfold zlen in Hm. cbn [length] in Hm.
  assert (stats c' = stats c) as Est' by done.
  destruct Hc. constructor; try done.
  - constructor; unfold rob_ok, off; cbn -[core_offset]; rewrite ?E', ?Es, ?sc_id0, ?sc_dvfs0, ?sc_opt0, ?sc_frames0,
      ?sc_ooo0, ?sc_trace0, ?sc_lookahead0; try done. split; [done|]. unfold zlen. lia.
  - unfold account. cbn -[pending trace_insns]. rewrite E', Est', sc_deadlocks0, sc_trace0, El, pending_cons.
    unfold tx_insns. rewrite bool_decide_false by done. lia.
  - unfold accesses, off. cbn -[unissued trace_ops core_offset]. rewrite E', sc_id0, sc_trace0, El.
    change (unissued (t :: l)) with (tx_op t ++ unissued l). unfold tx_op. by rewrite Hi, orb_true_r.
Qed.

Lemma setPStateActive_step c e :
  core_inv c -> env_ok e -> step_ok c (fst (setPStateActive c e)) e (snd (setPStateActive c e)).
Proof.
  intros Hc He. unfold setPStateActive. destruct (started_law e (core_id c) IP_TYPE_CPU (core_id c) 0 He) as [He' Hq].
  set (c1 := if bool_decide (getGovernor e = GOVERNOR_TYPE_INTERACTIVE) then setMaxCoreFreq (getGovernor e) c
    else if bool_decide (getGovernor e = GOVERNOR_TYPE_POWERCAP) then setOptCoreFreq c else c).
  assert (exists d k, c1 = (c <| dvfsState := d |> <| dvfsCounter := k |>) /\ 0 <= d < CORE_DVFS_STATES) as (d & k & -> & Hd).
  { subst c1. unfold setMaxCoreFreq, setOptCoreFreq. pose proof (ci_opt _ Hc). pose proof (ci_dvfs _ Hc).
    destruct (bool_decide (getGovernor e = GOVERNOR_TYPE_INTERACTIVE)).
    - exists (CORE_DVFS_STATES - 1), INTERACTIVE_GOVERNOR_LAT. split; [by destruct c | by vm_compute].
    - destruct (bool_decide _); [exists (optDVFSState c), (dvfsCounter c) | exists (dvfsState c), (dvfsCounter c)];
        (split; [by destruct c | done]). }
  cbn [fst snd core_id upd_field set_dvfsState set_dvfsCounter set_cpu_pstate]. destruct Hc.
  constructor; try done. unfold accesses. cbn. by rewrite Hq.
Qed.

Lemma fall_asleep_ok c e :
  core_inv c -> env_ok e ->
  exists c', fall_asleep c = Ok c' /\ step_ok c c' e e /\ cyclesToWake c' = cyclesToWake c /\
    idleStalls c' = idleStalls c /\ fpsStalls c' = fpsStalls c /\ audFpsStalls c' = audFpsStalls c /\
    (cpu_pstate c = CPU_PSTATE_ACTIVE -> idleCycles c < CORE_PSTATE_LOWPOWER_ENTER_TIME ->
     cpu_pstate c' = CPU_PSTATE_ACTIVE).
Proof.
  intros Hc He. assert (step_ok c c e e) as Hrefl by (by constructor).
  unfold fall_asleep, setPStateLowPower. destruct (cpu_pstate c) eqn:Ep; [|by exists c..].
  case_bool_decide as Hi; [|by exists c]. rewrite bool_decide_true by done. cbn [mbind Res_bind].
  eexists. split; [reflexivity|]. split; [destruct Hc; by constructor|]. do 4 (split; [done|]). intros _. lia.
Qed.

Lemma run_cycle_ok c e :
  core_inv c -> env_ok e ->
  (exists c' e', run_cycle c e = Ok (c', e') /\ step_ok c c' e e') \/
  (run_cycle c e = Err (AssertFail "isPStateActive()") /\ cpu_pstate c <> CPU_PSTATE_ACTIVE).
Proof.
  intros Hc He. unfold run_cycle. set (c1 := end_profile (getTicks e) c).
  assert (same_rob c c1) as H1.
  { subst c1. unfold end_profile. destruct (flagProfile (stats c) && _); by constructor. }
  pose proof (same_rob_inv _ _ H1 Hc) as Hc1. pose proof (sr_pstate _ _ H1) as Ep1.
  pose proof (same_rob_step c c1 e e Hc He eq_refl H1) as S1. clearbody c1. clear H1.
  change IN_ORDER with true. cbv iota.
  destruct (inOrderProcess_ok c1 e (ci_rob _ Hc1) He (ci_core _ Hc1)) as (c2 & e2 & -> & H2). cbn [mbind Res_bind].
  pose proof (turn_step _ _ _ _ Hc1 H2) as S2. pose proof (sc_pstate _ _ (to_ctl _ _ _ _ H2)) as Ep2.
  pose proof (step_ok_trans _ _ _ _ _ _ S1 S2) as S12.
  destruct (bool_decide (number_of_instr_executed_OoO c2 < ROB_SIZE)); cbn [andb]; [|left; by do 2 eexists].
  case_bool_decide as Hsz; [|left; by do 2 eexists].
  destruct (decide (cpu_pstate c2 = CPU_PSTATE_ACTIVE)) as [Ha|Ha].
  - left. destruct (readLine_ok c2 e2 (so_inv _ _ _ _ S2) (so_env _ _ _ _ S2) Ha Hsz) as (c3 & e3 & -> & H3).
    do 2 eexists. split; [reflexivity|]. eapply step_ok_trans; [exact S12|]. by apply read_step.
  - right. unfold readLine. rewrite bool_decide_false by done. split; [done|]. by rewrite Ep2, Ep1 in Ha.
Qed.

(** About to run a cycle asleep, or falling asleep over it. *)
Definition drowsy (c : GemDroidCore) : Prop :=
  cyclesToWake c <= 0 /\ idleStalls c <= 0 /\ fpsStalls c <= 0 /\ audFpsStalls c <= 0 /\
  (cpu_pstate c = CPU_PSTATE_ACTIVE -> CORE_PSTATE_LOWPOWER_ENTER_TIME <= idleCycles c).

Lemma fps_stall_ok c e : core_inv c -> env_ok e -> exists c' e', fps_stall c e = Ok (c', e') /\ step_ok c c' e e'.
Proof.
  intros Hc He. unfold fps_stall. destruct (getCoreFreq_ok c (ci_dvfs _ Hc)) as (f & ->). cbn [mbind Res_bind].
  destruct (started_law e (core_id c) IP_TYPE_CPU (core_id c) 0 He) as [He' Hq].
  match goal with |- context [bool_decide (fpsStalls ?c1 <= 0)] => set (c2 := c1) end.
  destruct (bool_decide (fpsStalls c2 <= 0)).
  - match goal with |- context [wake_time ?c1] => destruct (wake_time c1) end; do 2 eexists; (split; [reflexivity|]);
      (apply same_rob_step; [done|done| |by constructor]); [done|]. cbn. by rewrite Hq.
  - do 2 eexists. split; [reflexivity|]. by apply same_rob_step.
Qed.

Lemma audio_stall_ok c e : core_inv c -> env_ok e -> exists c' e', audio_stall c e = Ok (c', e') /\ step_ok c c' e e'.
Proof.
  intros Hc He. unfold audio_stall. destruct (getCoreFreq_ok c (ci_dvfs _ Hc)) as (f & ->). cbn [mbind Res_bind].
  destruct (bool_decide _).
  - match goal with |- context [wake_time ?c1] => destruct (wake_time c1) end; do 2 eexists; (split; [reflexivity|]);
      by apply same_rob_step.
  - do 2 eexists. split; [reflexivity|]. by apply same_rob_step.
Qed.

Lemma tick_ok c e :
  core_inv c -> env_ok e ->
  (exists c' e', tick c e = Ok (c', e') /\ step_ok c c' e e') \/
  (tick c e = Err (AssertFail "isPStateActive()") /\ drowsy c).
Proof.
  intros Hc He. unfold tick.
  set (c1 := upd_stats (fun s => s <| m_cycles ::= Z.succ |>) (c <| ticks ::= Z.succ |>)).
  assert (step_ok c c1 e e) as S1 by (apply same_rob_step; [done|done|done|by constructor]).
  destruct (checkDeadlock_ok c1 e (so_inv _ _ _ _ S1) He) as (c2 & Hdl & S2 & P2 & W2 & I2 & A2 & F2 & U2).
  assert (exists c2, (if bool_decide (Z.rem (ticks c1) DEADLOCK_PERIOD = 0) then Ok c1 else checkDeadlock c1) = Ok c2 /\
    step_ok c c2 e e /\ cpu_pstate c2 = cpu_pstate c /\ cyclesToWake c2 = cyclesToWake c /\ idleCycles c2 = idleCycles c /\
    idleStalls c2 = idleStalls c /\ fpsStalls c2 = fpsStalls c /\ audFpsStalls c2 = audFpsStalls c)
    as (c3 & -> & S3 & P3 & W3 & I3 & A3 & F3 & U3).
  { destruct (bool_decide (Z.rem _ _ = 0)); [by exists c1|]. exists c2. split; [done|].
    split; [by eapply step_ok_trans|]. by rewrite P2, W2, I2, A2, F2, U2. }
  clear S1 S2 Hdl P2 W2 I2 A2 F2 U2 c2. cbn [mbind Res_bind].
  assert (same_rob c3 (count_cycle c3)) as H4 by (unfold count_cycle; destruct (cpu_pstate c3) eqn:Ep; by constructor).
  assert (cpu_pstate (count_cycle c3) = cpu_pstate c /\ cyclesToWake (count_cycle c3) = cyclesToWake c /\
    idleCycles (count_cycle c3) = idleCycles c /\ idleStalls (count_cycle c3) = idleStalls c /\
    fpsStalls (count_cycle c3) = fpsStalls c /\ audFpsStalls (count_cycle c3) = audFpsStalls c)
    as (P4 & W4 & I4 & A4 & F4 & U4).
  { rewrite <- P3, <- W3, <- I3, <- A3, <- F3, <- U3. unfold count_cycle. by destruct (cpu_pstate c3) eqn:Ep. }
  pose proof (step_ok_trans _ _ _ _ _ _ S3 (same_rob_step _ _ e e (so_inv _ _ _ _ S3) He eq_refl H4)) as S4.
  generalize dependent (count_cycle c3). intros c4 _ P4 W4 I4 A4 F4 U4 S4. pose proof (so_inv _ _ _ _ S4) as Hc4.
  case_bool_decide as Hw.
  { left. destruct (bool_decide (_ = 0)).
    - pose proof (setPStateActive_step (c4 <| cyclesToWake ::= Z.pred |>) e) as H5.
      destruct (setPStateActive _ e) as [c5 e5]. do 2 eexists. split; [reflexivity|].
      eapply step_ok_trans; [exact S4|]. apply (step_ok_trans _ (c4 <| cyclesToWake ::= Z.pred |>) _ _ e).
      + apply same_rob_step; [done..|by constructor].
      + apply H5; [|done]. by apply (same_rob_inv c4); [constructor|].
    - do 2 eexists. split; [reflexivity|]. eapply step_ok_trans; [exact S4|]. apply same_rob_step; [done..|by constructor]. }
  destruct (fall_asleep_ok c4 e Hc4 He) as (c5 & -> & S5 & W5 & A5 & F5 & U5 & P5). cbn [mbind Res_bind].
  pose proof (step_ok_trans _ _ _ _ _ _ S4 S5) as S45. pose proof (so_inv _ _ _ _ S5) as Hc5.
  assert (forall c' e', step_ok c5 c' e e' -> exists c'' e'', Ok (c', e') = Ok (c'', e'') /\ step_ok c c'' e e'') as Hdone.
  { intros c' e' H. do 2 eexists. split; [reflexivity|]. by eapply step_ok_trans. }
  case_bool_decide as Ha; [left; apply Hdone; by apply same_rob_step|].
  case_bool_decide as Hf; [left; destruct (fps_stall_ok c5 e Hc5 He) as (c' & e' & -> & H); by apply Hdone|].
  case_bool_decide as Hu; [left; destruct (audio_stall_ok c5 e Hc5 He) as (c' & e' & -> & H); by apply Hdone|].
  destruct (run_cycle_ok c5 e Hc5 He) as [(c' & e' & -> & H)|[-> Hp]]; [left; by apply Hdone|].
  right. split; [done|]. unfold drowsy. rewrite <- W4, <- A4, <- F4, <- U4, <- A5, <- F5, <- U5.
  do 4 (split; [lia|]). intros Hact. destruct (Z.le_gt_cases CORE_PSTATE_LOWPOWER_ENTER_TIME (idleCycles c)); [done|].
  exfalso. apply Hp, P5; congruence || lia.
Qed.

(** ** Answers of the memory *)

Lemma unissued_mark l i : unissued (zalter commit_transaction l i) = unissued l.
Proof.
  unfold zalter. case_bool_decide; [|done]. generalize (Z.to_nat i). clear. intros i. revert i.
  induction l as [|t l IH]; intros [|i]; cbn; try done.
  by f_equal.
Qed.

Lemma pending_mark l i : pending (zalter commit_transaction l i) = pending l.
Proof.
  unfold zalter. case_bool_decide; [|done]. generalize (Z.to_nat i). clear. intros i. revert i.
  induction l as [|t l IH]; intros [|i]; try done.
  change (alter commit_transaction (S i) (t :: l)) with (t :: alter commit_transaction i l).
  by rewrite !pending_cons, IH.
Qed.

Lemma markTransactionCompleted_ok a c e :
  core_inv c -> env_ok e -> exists i c', markTransactionCompleted a c = Ok (i, c') /\ step_ok c c' e e.
Proof.
  intros Hc He. assert (step_ok c c e e) as Hrefl by (by constructor). unfold markTransactionCompleted.
  destruct (search_rob_ok (fun t => bool_decide (a = addr t)) (search_bound c) 0 (outstanding_transactions c)
    (search_bound_ok c (ci_rob _ Hc))) as ([i|] & ->); cbn [mbind Res_bind]; [|by exists (not_found c), c].
  do 2 eexists. split; [reflexivity|]. destruct Hc. destruct ci_rob0 as [Hs Hm]. constructor; try done.
  - constructor; try done. split; cbn; by rewrite zlen_zalter.
  - unfold account. cbn -[pending trace_insns]. by rewrite pending_mark.
  - unfold accesses. cbn -[unissued trace_ops core_offset]. apply sublist_app; [done|].
    by rewrite unissued_mark.
Qed.

(** ** Runs

    A core ticks, is answered by the memory, has its frequency set, and the
    platform changes around it. *)

Inductive core_step : GemDroidCore * E -> GemDroidCore * E -> Prop :=
| step_tick c e c' e' : tick c e = Ok (c', e') -> core_step (c, e) (c', e')
| step_answer c e a i c' : markTransactionCompleted a c = Ok (i, c') -> core_step (c, e) (c', e)
| step_freq c e ind c' : setCoreFreqInd ind c = Ok c' -> core_step (c, e) (c', e)
| step_platform c e e' : env_ok e' -> requests e' = requests e -> core_step (c, e) (c, e').

Lemma core_step_ok c e c' e' : core_inv c -> env_ok e -> core_step (c, e) (c', e') -> step_ok c c' e e'.
Proof.
  intros Hc He H. inversion H as [? ? ? ? Ht|? ? ? ? ? Ha|? ? ? ? Hf|? ? ? He' Hq]; subst.
  - destruct (tick_ok c e Hc He) as [(c1 & e1 & H1 & Hok)|[H1 _]]; [|by rewrite Ht in H1].
    rewrite H1 in Ht. by injection Ht as <- <-.
  - destruct (markTransactionCompleted_ok a c e' Hc He) as (i1 & c1 & H1 & Hok). rewrite H1 in Ha. by injection Ha as <- <-.
  - unfold setCoreFreqInd in Hf. destruct (bool_decide_reflect (ind > -1)); [|done].
    destruct (bool_decide_reflect (ind < CORE_DVFS_STATES)); [|done]. injection Hf as <-.
    destruct Hc. constructor; try done. constructor; try done. cbn. lia.
  - constructor; try done. unfold accesses. by rewrite Hq.
Qed.

Lemma core_run_ok c e c' e' : core_inv c -> env_ok e -> rtc core_step (c, e) (c', e') -> step_ok c c' e e'.
Proof.
  intros Hc He H. remember (c, e) as s eqn:Es. remember (c', e') as s' eqn:Es'. revert c e Hc He Es.
  induction H as [s|s1 s2 s3 H1 H2 IH]; intros c e Hc He ->.
  - injection Es' as -> ->. by constructor.
  - destruct s2 as [c2 e2]. pose proof (core_step_ok _ _ _ _ Hc He H1) as S1.
    eapply step_ok_trans; [exact S1|]. apply IH; [done|apply S1|apply S1|done].
Qed.

(** C17: At every point of every run of a core over a well-formed trace, its
    next cycle either succeeds or stops at the one assertion that a core
    reading its trace is awake, and then the core slept or had been idle for
    CORE_PSTATE_LOWPOWER_ENTER_TIME; an answer of the memory always
    succeeds. *)
Theorem core_stops_only_asleep c0 e0 c e a :
  core_inv c0 -> env_ok e0 -> rtc core_step (c0, e0) (c, e) ->
  ((exists c' e', tick c e = Ok (c', e')) \/ (tick c e = Err (AssertFail "isPStateActive()") /\ drowsy c)) /\
  (exists i c', markTransactionCompleted a c = Ok (i, c')).
Proof.
  intros Hc He Hrun. destruct (core_run_ok _ _ _ _ Hc He Hrun) as [Hc' He' _ _ _]. split.
  - destruct (tick_ok c e Hc' He') as [(c' & e' & H & _)|H]; [left; by exists c', e' | by right].
  - destruct (markTransactionCompleted_ok a c e Hc' He') as (i & c' & H & _). by exists i, c'.
Qed.

(** C18: Along every run, the committed instructions, those pending in the
    buffer, those left in the trace and the heads given up as deadlocked
    balance with the accesses entered: each instruction of the trace is
    committed exactly once. *)
Theorem core_commits_once c0 e0 c e :
  core_inv c0 -> env_ok e0 -> rtc core_step (c0, e0) (c, e) ->
  m_committedInsns (stats c) + deadlocks_faced c + pending (outstanding_transactions c)
    + trace_insns (sm_tokens (em_trace_file c)) - m_memReqs (stats c)
  = m_committedInsns (stats c0) + deadlocks_faced c0 + pending (outstanding_transactions c0)
    + trace_insns (sm_tokens (em_trace_file c0)) - m_memReqs (stats c0).
Proof. intros Hc He Hrun. exact (so_account _ _ _ _ (core_run_ok _ _ _ _ Hc He Hrun)). Qed.

(** C19: A core sends its memory requests in the order of the trace and never
    twice: what it has sent, followed by what waits in the buffer and what is
    left in the trace, is a subsequence of what it started with. *)
Theorem core_requests_in_order c0 e0 c e :
  core_inv c0 -> env_ok e0 -> rtc core_step (c0, e0) (c, e) ->
  requests e (core_id c) ++ unissued (outstanding_transactions c) ++ trace_ops (off c) (sm_tokens (em_trace_file c))
  `sublist_of`
  requests e0 (core_id c0) ++ unissued (outstanding_transactions c0) ++ trace_ops (off c0) (sm_tokens (em_trace_file c0)).
Proof. intros Hc He Hrun. exact (so_accesses _ _ _ _ (core_run_ok _ _ _ _ Hc He Hrun)). Qed.
End Lines.
