(* ===== verification/CoreTheorems.v ===== *)
(** * More about cores

    The out-of-order processing of a core, which the build leaves unused;
    where its start, its sleep, its frequencies and its frame statistics
    depart from what they mean to do. *)

From Stdlib Require Import Permutation.
From stdpp Require Import list relations.
From S2P Require Import Prelude.
From S2P Require Import DramConfig.
From S2P Require Import GemDefines.
From S2P Require Import TraceFile.
From S2P Require Import Cores.
From S2P Require Import CoreSafety.
Import Core.

(** ** Processing out of order *)

Section OutOfOrder.
Context {E : Type} {port : CorePort E} {laws : CorePortLaws E}.

(** What a turn keeps: each request sent was to be sent, in some order. *)
Record ooo_ok (c c' : GemDroidCore) (e e' : E) : Prop := {
  oo_rob : rob_ok c';
  oo_size : zlen (outstanding_transactions c') <= zlen (outstanding_transactions c);
  oo_id : core_id c' = core_id c;
  oo_insns : m_committedInsns (stats c') + pending (outstanding_transactions c')
             = m_committedInsns (stats c) + pending (outstanding_transactions c);
  oo_requests : requests e' (core_id c) ++ unissued (outstanding_transactions c')
                ⊆+ requests e (core_id c) ++ unissued (outstanding_transactions c);
  oo_env : env_ok e'
}.

Lemma ooo_refl c e : rob_ok c -> env_ok e -> ooo_ok c c e e.
Proof. by constructor. Qed.

Lemma ooo_trans c1 c2 c3 e1 e2 e3 : ooo_ok c1 c2 e1 e2 -> ooo_ok c2 c3 e2 e3 -> ooo_ok c1 c3 e1 e3.
Proof.
  intros [] []. constructor; [done|lia|congruence|lia| |done]. rewrite oo_id0 in *.
  etransitivity; [eassumption|done].
Qed.

Lemma turn_ooo c c' e e' : turn_ok c c' e e' -> ooo_ok c c' e e'.
Proof. intros [Hr Hz Hc Hi Hq He]. constructor; try done; [apply Hc | by apply sublist_submseteq]. Qed.

(** Bookkeeping. *)
Lemma ooo_same c c' e :
  rob_ok c -> env_ok e -> core_id c' = core_id c -> outstanding_transactions c' = outstanding_transactions c ->
  outstanding_transactions_size c' = outstanding_transactions_size c ->
  m_committedInsns (stats c') = m_committedInsns (stats c) -> ooo_ok c c' e e.
Proof. intros [Hs Hm] He Ei El Es Em. constructor; rewrite ?El, ?Em; try done. by split; rewrite El, ?Es. Qed.

Lemma alter_split {A} (g : A -> A) l i x :
  l !! i = Some x -> exists l1 l2, l = l1 ++ x :: l2 /\ alter g i l = l1 ++ g x :: l2.
Proof.
  revert i. induction l as [|y l IH]; intros [|i] H; try done.
  - injection H as ->. by exists [], l.
  - destruct (IH i H) as (l1 & l2 & -> & E'). exists (y :: l1), l2. split; [done|]. cbn. by rewrite E'.
Qed.

Lemma set_transaction_split c k t t' :
  transaction c k = Ok t ->
  exists l1 l2, outstanding_transactions c = l1 ++ t :: l2 /\
                outstanding_transactions (set_transaction k t' c) = l1 ++ t' :: l2.
Proof.
  unfold transaction, set_transaction. destruct (zget (outstanding_transactions c) k) as [x|] eqn:Ek; [|done].
  intros [= ->]. apply zget_lookup in Ek as [Hk Hl].
  destruct (alter_split (fun _ => t') _ _ _ Hl) as (l1 & l2 & E1 & E2). exists l1, l2. split; [done|].
  cbn. unfold zalter. by rewrite bool_decide_true.
Qed.

Lemma unissued_snoc l1 t l2 : unissued (l1 ++ t :: l2) ≡ₚ tx_op t ++ unissued (l1 ++ l2).
Proof.
  rewrite !unissued_app. change (unissued (t :: l2)) with (tx_op t ++ unissued l2). by rewrite Permutation_app_swap_app.
Qed.

(** A transaction anywhere in the buffer executes an instruction. *)
Lemma execute_ok k t c e :
  rob_ok c -> env_ok e -> transaction c k = Ok t -> transaction_type t = INSTR_CPU -> 0 < number_of_instructions t ->
  exists c' e', execute k t c e = Ok (c', e') /\ ooo_ok c c' e e' /\
    outstanding_transactions_size c' = outstanding_transactions_size c.
Proof.
  intros [Hs Hm] He Hk Ht Hn. unfold execute, commit_instruction. rewrite bool_decide_false by lia.
  cbn [mbind Res_bind].
  set (t' := t <| number_of_instructions ::= Z.pred |> <| instr_executed_ooo ::= Z.succ |>).
  destruct (set_transaction_split c k t t' Hk) as (l1 & l2 & E1 & E2). pose proof (count_law e He) as [He' Hq].
  unfold updateStatInstructionCommit. do 2 eexists. split; [reflexivity|].
  match goal with |- context [streakCalculator ?x] => set (c1 := x) end.
  assert (core_id (streakCalculator c1) = core_id c /\
    outstanding_transactions (streakCalculator c1) = l1 ++ t' :: l2 /\
    outstanding_transactions_size (streakCalculator c1) = outstanding_transactions_size c /\
    m_committedInsns (stats (streakCalculator c1)) = Z.succ (m_committedInsns (stats c))) as (R1 & R2 & R3 & R4).
  { unfold streakCalculator. subst c1. rewrite <- E2. by destruct (bool_decide _). }
  split; [|done]. rewrite E1 in Hs, Hm.
  constructor; rewrite ?R1, ?R2, ?R4, ?E1, ?Hq; try done.
  - split; rewrite R2, ?R3, ?Hs; unfold zlen in *; rewrite !length_app in *; done.
  - unfold zlen. by rewrite !length_app.
  - rewrite !pending_app, !pending_cons. unfold tx_insns. cbn. rewrite Ht, !bool_decide_true by done. lia.
  - rewrite !unissued_snoc. subst t'. unfold tx_op. cbn. by rewrite Ht, !bool_decide_true by done.
Qed.

Lemma issue_ok k t c e :
  rob_ok c -> env_ok e -> is_core (core_id c) -> transaction c k = Ok t -> transaction_type t <> INSTR_CPU ->
  isIssued t = false ->
  exists ok c' e', issue k t c e = Ok (ok, c', e') /\ ooo_ok c c' e e' /\
    outstanding_transactions_size c' = outstanding_transactions_size c.
Proof.
  intros [Hs Hm] He Hid Hk Ht Hi. unfold issue, isRead. rewrite bool_decide_false by done. cbn [mbind Res_bind].
  set (rd := bool_decide (transaction_type t = INSTR_MMU_LD)).
  pose proof (mem_law e (core_id c) (addr t) rd He Hid) as Hl.
  destruct (enqueueCoreMemRequest e (core_id c) (addr t) rd) as [[] e'] eqn:Ee; destruct Hl as [He' Hq];
    do 3 eexists; (split; [reflexivity|]); (split; [|done]).
  - set (t' := issueToMem (setInsertedTick (ticks c) t)).
    destruct (set_transaction_split c k t t' Hk) as (l1 & l2 & E1 & E2). rewrite E1 in Hs, Hm.
    constructor; rewrite ?E1, ?E2, ?Hq; try done.
    + split; rewrite E2; cbn -[zlen]; rewrite ?Hs; unfold zlen in *; rewrite !length_app in *; done.
    + unfold zlen. by rewrite !length_app.
    + cbn -[pending]. by rewrite !pending_app, !pending_cons.
    + rewrite !unissued_snoc. unfold tx_op at 1 2. subst t'. cbn. rewrite Hi, bool_decide_false, orb_true_r by done.
      cbn. fold rd. by rewrite <- app_assoc.
  - constructor; try done. by rewrite Hq, app_nil_r.
Qed.

Lemma streak_ooo c e : rob_ok c -> env_ok e -> ooo_ok c (streakCalculator c) e e.
Proof. intros. unfold streakCalculator. destruct (bool_decide _); [by apply ooo_same | by apply ooo_refl]. Qed.

Lemma streak_size c : outstanding_transactions_size (streakCalculator c) = outstanding_transactions_size c.
Proof. unfold streakCalculator. by destruct (bool_decide _). Qed.

Lemma mem_full_ooo c e : rob_ok c -> env_ok e -> ooo_ok c (mem_full_stall c) e e.
Proof. intros. apply ooo_same; try done; cbn. by destruct (flagProfile (stats c)). Qed.

Lemma rob_full_ooo c e : rob_ok c -> env_ok e -> ooo_ok c (((rob_full_stall c) <| idleStreak ::= Z.succ |>)) e e.
Proof. intros. apply ooo_same; try done; cbn. by destruct (flagProfile (stats c)). Qed.

(** A compute head gives back what it executed, and leaves when it is done. *)
Lemma retire_head_ok c t l e :
  rob_ok c -> env_ok e -> outstanding_transactions c = t :: l -> transaction_type t = INSTR_CPU ->
  exists c', retire_head t c = Ok c' /\ ooo_ok c c' e e.
Proof.
  intros Hr He El Ht. unfold retire_head. cbn zeta. set (t1 := reset_instr_committed t).
  match goal with |- context [streakCalculator ?x] => set (c1 := x) end.
  assert (El1 : outstanding_transactions (streakCalculator c1) = t1 :: l).
  { unfold streakCalculator. subst c1. destruct (bool_decide _); cbn; by rewrite El. }
  assert (ooo_ok c (streakCalculator c1) e e) as H1.
  { assert (core_id (streakCalculator c1) = core_id c /\
      outstanding_transactions_size (streakCalculator c1) = outstanding_transactions_size c /\
      m_committedInsns (stats (streakCalculator c1)) = m_committedInsns (stats c)) as (R1 & R2 & R3)
      by (unfold streakCalculator; by destruct (bool_decide _)).
    destruct Hr as [Hs Hm]. rewrite El in Hs, Hm. constructor; rewrite ?R1, ?R3, ?El1, ?El; try done.
    split; rewrite El1, ?R2; done. }
  case_bool_decide as Hn; [|by exists (streakCalculator c1)].
  destruct (head_retires (streakCalculator c1) e t1 l (commit_transaction t1)) as (c' & -> & Hok);
    [apply H1|done..|].
  exists c'. split; [done|]. eapply ooo_trans; [exact H1|]. by apply turn_ooo.
Qed.

Lemma transaction_ok c k : rob_ok c -> 0 <= k < outstanding_transactions_size c -> exists t, transaction c k = Ok t.
Proof.
  intros [Hs _] Hk. unfold transaction. rewrite Hs in Hk. destruct (zget_lt _ _ Hk) as [t ->]. by exists t.
Qed.

(** Looking past a blocked head. *)
Lemma run_ahead_ok k c e :
  rob_ok c -> env_ok e -> is_core (core_id c) -> 0 <= k < outstanding_transactions_size c ->
  exists turn c' e', run_ahead k c e = Ok (turn, c', e') /\ ooo_ok c c' e e' /\
    outstanding_transactions_size c' = outstanding_transactions_size c.
Proof.
  intros Hr He Hid Hk. unfold run_ahead. destruct (transaction_ok c k Hr Hk) as (t & Et). rewrite Et.
  cbn [mbind Res_bind].
  destruct (bool_decide_reflect (transaction_type t = INSTR_CPU)) as [Ht|Ht]; cbn [negb andb].
  - case_bool_decide as Hn; [|do 3 eexists; split; [reflexivity|]; split; [by apply ooo_refl | done]].
    destruct (execute_ok k t c e) as (c' & e' & -> & Hok & Hz); [done..|lia|]. by do 3 eexists.
  - destruct (isIssued t) eqn:Hi; cbn [negb].
    + do 3 eexists. split; [reflexivity|]. split; [by apply ooo_refl | done].
    + destruct (issue_ok k t c e) as (ok & c' & e' & -> & Hok & Hz); [by auto..|]. cbn [mbind Res_bind].
      do 3 eexists. split; [reflexivity|]. destruct ok; (split; [eapply ooo_trans; [exact Hok|]|]).
      * apply streak_ooo; apply Hok.
      * by rewrite streak_size.
      * apply mem_full_ooo; apply Hok.
      * done.
Qed.

(** How a turn that started at [k] moves [ROB_check_head]. *)
Definition moves (turn : Turn) (k k' : Z) (c' : GemDroidCore) : Prop :=
  match turn with
  | Break => True
  | Continue => k <= k'
  | Again => k' = k + 1 /\ k' < outstanding_transactions_size c'
  end.

Lemma process_rest_ok k c e :
  rob_ok c -> env_ok e -> is_core (core_id c) -> 0 <= k ->
  exists turn k' c' e', process_rest k c e = Ok (turn, k', c', e') /\ ooo_ok c c' e e' /\ moves turn k k' c'.
Proof.
  intros Hr He Hid Hk. unfold process_rest.
  destruct (bool_decide (number_of_instr_executed_OoO c < ROB_SIZE)); cbn [andb].
  2: { do 4 eexists. split; [reflexivity|]. split; [by apply rob_full_ooo | cbn; lia]. }
  case_bool_decide as Hz.
  2: { do 4 eexists. split; [reflexivity|]. split; [by apply rob_full_ooo | cbn; lia]. }
  destruct (rob_head c Hr) as (t & l & El & Et); [lia|]. rewrite Et. cbn [mbind Res_bind].
  destruct (bool_decide_reflect (transaction_type t = INSTR_CPU)) as [Ht|Ht]; cbn [negb andb].
  - rewrite andb_false_r. case_bool_decide as Hn.
    + destruct (execute_ok 0 t c e) as (c' & e' & -> & Hok & _); [done..|lia|]. do 4 eexists. split; [reflexivity|].
      split; [done | cbn; lia].
    + do 4 eexists. split; [reflexivity|]. split; [by apply ooo_refl | cbn; lia].
  - rewrite andb_true_r. destruct (can_be_committed t); cbn [negb].
    { do 4 eexists. split; [reflexivity|]. split; [by apply ooo_refl | cbn; lia]. }
    case_bool_decide as Hge; [by do 4 eexists; split; [reflexivity|]; split; [apply ooo_refl|]|].
    destruct (run_ahead_ok (k + 1) c e) as (turn & c' & e' & -> & Hok & Hsz); [done..|lia|].
    do 4 eexists. split; [reflexivity|]. split; [done|]. destruct turn; cbn; lia || done.
Qed.

Lemma process_step_ok k c e :
  rob_ok c -> env_ok e -> is_core (core_id c) -> 0 <= k ->
  exists turn k' c' e', process_step k c e = Ok (turn, k', c', e') /\ ooo_ok c c' e e' /\ moves turn k k' c'.
Proof.
  intros Hr He Hid Hk. unfold process_step. case_bool_decide as Hz.
  2: { do 4 eexists. split; [reflexivity|]. split; [by apply ooo_same | cbn; lia]. }
  destruct (rob_head c Hr) as (t & l & El & Et); [lia|]. rewrite Et. cbn [mbind Res_bind].
  destruct (bool_decide_reflect (transaction_type t = INSTR_CPU)) as [Ht|Ht]; cbn [negb].
  { destruct (retire_head_ok c t l e) as (c1 & -> & H1); [done..|]. cbn [mbind Res_bind].
    destruct (process_rest_ok k c1 e) as (turn & k' & c' & e' & -> & H2 & Hm);
      [apply H1|done|by rewrite (oo_id _ _ _ _ H1)|done|].
    do 4 eexists. split; [reflexivity|]. split; [by eapply ooo_trans | done]. }
  destruct (can_be_committed t) eqn:Hd; [|destruct (isIssued t) eqn:Hi; cbn [negb]].
  - set (c1 := streakCalculator (c <| idleCycles := 0 |>)).
    assert (ooo_ok c c1 e e) as H1.
    { eapply ooo_trans; [|by apply streak_ooo]. by apply ooo_same. }
    assert (outstanding_transactions c1 = t :: l) as El1
      by (subst c1; unfold streakCalculator; destruct (bool_decide _); done).
    destruct (commitHeadTransaction_ok c1 t l) as (c2 & -> & E2 & Z2 & Hctl & Est & _); [apply H1|done..|].
    cbn [mbind Res_bind]. pose proof (count_law e He) as [He' Hq]. unfold updateStatInstructionCommit.
    do 4 eexists. split; [reflexivity|]. split; [|cbn; lia].
    eapply ooo_trans; [exact H1|]. destruct (oo_rob _ _ _ _ H1) as [Hs Hm]. rewrite El1 in Hm. unfold zlen in Hm.
    cbn [length] in Hm. constructor; cbn -[pending unissued]; rewrite ?E2, ?Est, ?El1, ?Hq, ?pending_cons; try done.
    + split; cbn; rewrite E2, ?Z2; [done|]. unfold zlen. lia.
    + unfold zlen. cbn [length]. lia.
    + apply Hctl.
    + unfold tx_insns. rewrite bool_decide_false by done. lia.
    + apply submseteq_skips_l. unfold unissued. cbn. by apply submseteq_inserts_l.
  - destruct (process_rest_ok k c e) as (turn & k' & c' & e' & -> & H2 & Hm); [done..|]. by do 4 eexists.
  - destruct (issue_ok 0 t c e) as (ok & c' & e' & -> & Hok & _); [done..|]. cbn [mbind Res_bind].
    do 4 eexists. split; [reflexivity|]. split; [done | cbn; lia].
Qed.

(** Turns left and positions left to look at bound the loop. *)
Lemma process_loop_ok fuel j k c e :
  rob_ok c -> env_ok e -> is_core (core_id c) -> 0 <= k ->
  Z.max 0 j + Z.max 0 (outstanding_transactions_size c - 1 - k) <= Z.of_nat fuel ->
  exists c' e', process_loop fuel j k c e = Ok (c', e') /\ ooo_ok c c' e e'.
Proof.
  revert j k c e. induction fuel as [|fuel IH]; intros j k c e Hr He Hid Hk Hf; cbn [process_loop]; case_bool_decide as Hj;
    try (exists c, e; split; [done|]; by apply ooo_refl); [lia|].
  destruct (process_step_ok k c e) as (turn & k' & c1 & e1 & -> & H1 & Hm); [done..|]. cbn [mbind Res_bind].
  pose proof (oo_size _ _ _ _ H1) as Hz. destruct (oo_rob _ _ _ _ H1) as [Hs1 _]. destruct Hr as [Hs _].
  assert (forall j', moves turn k k' c1 -> turn <> Break ->
    Z.max 0 j' + Z.max 0 (outstanding_transactions_size c1 - 1 - k') <= Z.of_nat fuel ->
    exists c' e', process_loop fuel j' k' c1 e1 = Ok (c', e') /\ ooo_ok c c' e e') as Hnext.
  { intros j' Hmv Hb Hf'. destruct (IH j' k' c1 e1) as (c' & e' & -> & H2); [apply H1|apply H1| | |done|].
    - by rewrite (oo_id _ _ _ _ H1).
    - destruct turn; cbn in Hmv; [done|lia|lia].
    - exists c', e'. split; [done|]. by eapply ooo_trans. }
  destruct turn; [by exists c1, e1|apply Hnext..]; try done; cbn in Hm; lia.
Qed.

(** C20: Processing out of order returns (enough fuel is [issue_width] plus the
    transactions in the buffer), fails no assertion, commits each instruction
    once and sends each access of the buffer at most once. *)
Theorem process_returns c e :
  rob_ok c -> env_ok e -> is_core (core_id c) ->
  exists c' e', process c e = Ok (c', e') /\ rob_ok c' /\
    m_committedInsns (stats c') + pending (outstanding_transactions c')
      = m_committedInsns (stats c) + pending (outstanding_transactions c) /\
    requests e' (core_id c) ++ unissued (outstanding_transactions c')
      ⊆+ requests e (core_id c) ++ unissued (outstanding_transactions c).
Proof.
  intros Hr He Hid. unfold process. pose proof (proj1 Hr) as Hs. unfold zlen in Hs.
  destruct (process_loop_ok (process_fuel c) (issue_width c) 0 c e) as (c' & e' & -> & []); try done.
  - unfold process_fuel. lia.
  - by exists c', e'.
Qed.
End OutOfOrder.

(** ** A platform to run a core on

    It takes every request and call, starts every frame with the display, and
    keeps the requests. *)

Record Probe := mkProbe { pr_log : list MemOp; pr_now : Z }.

#[export] Instance probe_port : CorePort Probe := {
  Core.getGovernor _ := GOVERNOR_TYPE_DISABLED;
  Core.getTicks := pr_now;
  Core.markIPRequestStarted e _ _ _ _ := e;
  Core.markIPRequestCompleted e _ _ _ _ _ _ := Ok e;
  Core.nextIPtoCall _ _ _ _ := Ok [IP_TYPE_DC];
  Core.flow_identification _ _ _ := Ok [0];
  Core.enqueueCoreMemRequest e _ a rd := (true, mkProbe (pr_log e ++ [(a, rd)]) (pr_now e));
  Core.isIPReqLimitReached _ _ := Ok false;
  Core.enqueueCoreIPRequest e _ _ _ _ _ _ _ _ := Ok (true, e);
  Core.countCommittedInsn e := e;
  Core.stopFetch e := e
}.

#[export, refine] Instance probe_laws : CorePortLaws Probe := {
  env_ok _ := True;
  is_core id := id = 0;
  requests e _ := pr_log e
}.
Proof.
  - done.
  - intros. by exists e.
  - intros. by exists IP_TYPE_DC, [].
  - intros. by exists 0, [].
  - done.
  - intros. by exists false.
  - intros. by exists true, e.
  - done.
  - done.
Defined.

(** ** The start of a core *)

(** A core that has read nothing and done nothing. *)
Definition fresh (ts : list Token) (c : GemDroidCore) : Prop :=
  outstanding_transactions c = [] /\ em_trace_file c = mkStream ts false /\
  m_committedInsns (stats c) = 0 /\ deadlocks_faced c = 0 /\ m_memReqs (stats c) = 0.

Section Start.
Context {E : Type} {port : CorePort E} {laws : CorePortLaws E}.

Lemma new_inv c0 id width app ty ts :
  is_core id -> trace_ok (core_offset id) ts -> 0 <= dvfsState c0 < CORE_DVFS_STATES ->
  0 <= optDVFSState c0 < CORE_DVFS_STATES ->
  let c := ((GemDroidCore_new c0) <| core_id := id |> <| issue_width := width |> <| app_id := app |>
              <| type_of_application := ty |>)
             <| em_trace_file := mkStream ts false |> <| lookahead_trace_file := mkStream ts false |> in
  core_inv c /\ fresh ts c.
Proof.
  intros Hid Hts Hd Ho c. split; [|done].
  constructor; [by split|exact Hid|exact Hd|exact Ho|reflexivity|reflexivity|exact Hts|exact Hts].
Qed.

Lemma setIdleRatio_fresh ts c :
  core_inv c -> fresh ts c -> exists c', setIdleRatio c = Ok c' /\ core_inv c' /\ fresh ts c'.
Proof.
  intros Hc Hf. destruct (setIdleRatio_ok (off c) c (ci_look _ Hc) (ci_dvfs _ Hc)) as (s & look & r & -> & Hs).
  eexists. split; [reflexivity|]. split; [|done]. destruct Hc. constructor; assumption.
Qed.

Lemma setPStateActive_fresh ts c e :
  core_inv c -> env_ok e -> fresh ts c ->
  exists c' e', setPStateActive c e = (c', e') /\ core_inv c' /\ env_ok e' /\ fresh ts c' /\
    cpu_pstate c' = CPU_PSTATE_ACTIVE.
Proof.
  intros Hc He Hf. destruct (setPStateActive_step c e Hc He) as [Hc' He' _ _ _].
  exists (fst (setPStateActive c e)), (snd (setPStateActive c e)). split; [by destruct (setPStateActive c e)|].
  split; [exact Hc'|]. split; [exact He'|].
  unfold setPStateActive, setMaxCoreFreq, setOptCoreFreq. unfold fresh in *.
  repeat destruct (bool_decide _); split; (exact Hf || done).
Qed.

Lemma setCoreFreq_fresh ts freq opt c c' :
  core_inv c -> fresh ts c -> 0 <= opt < CORE_DVFS_STATES -> setCoreFreq freq c = Ok c' ->
  core_inv (c' <| optDVFSState := opt |>) /\ fresh ts (c' <| optDVFSState := opt |>) /\ cpu_pstate c' = cpu_pstate c.
Proof.
  unfold setCoreFreq. generalize (getIndexInTable freq). intros i Hc Hf Ho. unfold setCoreFreqInd.
  destruct (bool_decide_reflect (i > -1)); cbn [andb]; [|done]. case_bool_decide; [|done]. intros [= <-].
  split; [|done]. destruct Hc. constructor; try assumption. cbn. lia.
Qed.

(** A fresh core that starts on a well-formed trace has the invariant, if its
    uninitialised frequency happens to be in the table. *)
Lemma init_inv c0 id name ts app freq opt width e c e' :
  is_core id -> env_ok e -> trace_ok (core_offset id) ts -> 0 <= dvfsState c0 < CORE_DVFS_STATES ->
  0 <= optDVFSState c0 < CORE_DVFS_STATES -> 0 <= opt < CORE_DVFS_STATES ->
  init (GemDroidCore_new c0) id name (Some ts) app freq opt width e = Ok (c, e') ->
  core_inv c /\ env_ok e' /\ fresh ts c /\ cpu_pstate c = CPU_PSTATE_ACTIVE.
Proof.
  intros Hid He Hts Hd Ho0 Ho. unfold init. cbn zeta.
  set (ty := app_type name _).
  destruct (new_inv c0 id width app ty ts Hid Hts Hd Ho0) as [Hc1 Hf1]. revert Hc1 Hf1.
  match goal with |- core_inv ?x -> _ => generalize x end. intros c1 Hc1 Hf1.
  destruct (bool_decide (type_of_application c1 = CORE_BOUND)); cbn [mbind Res_bind].
  2: destruct (setIdleRatio_fresh ts c1 Hc1 Hf1) as (c2 & -> & Hc2 & Hf2); clear c1 Hc1 Hf1; rename c2 into c1,
       Hc2 into Hc1, Hf2 into Hf1; cbn [mbind Res_bind].
  all: destruct (setPStateActive_fresh ts c1 e Hc1 He Hf1) as (c3 & e3 & -> & Hc3 & He3 & Hf3 & Hp3).
  all: destruct (setCoreFreq (F64.div (F64.of_Z freq) (F64.of_Z 1000)) c3) as [c4|] eqn:E4; [|done].
  all: destruct (setCoreFreq_fresh ts _ opt c3 c4 Hc3 Hf3 Ho E4) as (Hc4 & Hf4 & Hp4).
  all: cbn [mbind Res_bind]; intros [= <- <-]; split; [exact Hc4|]; split; [exact He3|]; split; [exact Hf4|].
  all: by rewrite <- Hp3, <- Hp4.
Qed.
End Start.

(** The members that the constructor leaves alone. *)
Definition raw_stats : CoreStats :=
  mkCoreStats 0 0 0 0 0 0 0 0 0 0 0 0 0 0 0 0 0 0 0 0 0 0 0 0 0 0 0 0 0 0 0 0 0 0 0 false [].
Definition raw_core (dvfs : Z) : GemDroidCore :=
  mkCore 0 0 0 0 0 0 0 CPU_PSTATE_ACTIVE false (F64.of_Z 0) (mkStream [] false) (mkStream [] false) CORE_BOUND
    0 0 0 0 0 false [] 0 0 0 0 dvfs 6 (F64.of_Z 0) 0 [] 0 raw_stats.

Definition word (s : string) : Token := mkToken s None None.
Definition number (n : Z) : Token := mkToken "0" (Some n) (Some n).

(** Two instructions, a load, a frame, a store. *)
Definition small_trace : list Token :=
  [word "CPU"; number 2; number 0; word "MMU_ld"; number 4096; number 64;
   word "FB-UP"; number 0; number 0; word "MMU_st"; number 8192; number 64].

Lemma small_trace_ok : trace_ok (core_offset 0) small_trace.
Proof.
  apply (trace_line _ (word "CPU") [number 2; number 0]); [done..|by exists 2, 0|done|].
  apply (trace_line _ (word "MMU_ld") [number 4096; number 64]); [done..|by exists (number 4096), (number 64), 4096, 64|done|].
  apply (trace_line _ (word "FB-UP") [number 0; number 0]); [done..|by exists (number 0), (number 0), 0, 0|done|].
  apply (trace_line _ (word "MMU_st") [number 8192; number 64] []); [done..|by exists (number 8192), (number 64), 8192, 64|done|].
  apply trace_nil.
Qed.

(** [n] cycles. *)
Fixpoint cycles {E} {port : CorePort E} (n : nat) (c : GemDroidCore) (e : E) : Res (GemDroidCore * E) :=
  match n with
  | O => Ok (c, e)
  | S n' => '(c, e) ← tick c e; cycles n' c e
  end.

Lemma cycles_run {E} {port : CorePort E} {laws : CorePortLaws E} n c e c' e' :
  cycles n c e = Ok (c', e') -> rtc core_step (c, e) (c', e').
Proof.
  revert c e. induction n as [|n IH]; intros c e H; cbn in H; [by injection H as -> ->|].
  destruct (tick c e) as [[c1 e1]|] eqn:Et; [|done]. eapply rtc_l; [by apply step_tick|]. by apply IH.
Qed.

Definition started : Res (GemDroidCore * Probe) :=
  init (GemDroidCore_new (raw_core 0)) 0 "angrybirds" (Some small_trace) 8 1000 6 2 (mkProbe [] 0).

Lemma started_inv c e : started = Ok (c, e) -> core_inv c /\ env_ok e.
Proof.
  unfold started. intros H.
  destruct (init_inv (laws := probe_laws) (raw_core 0) 0 "angrybirds" small_trace 8 1000 6 2 (mkProbe [] 0) c e eq_refl I small_trace_ok)
    as (Hc & He & _); [split; vm_compute; done..|exact H|]. by split.
Qed.

(** After four cycles the load has been sent. *)
Definition after_load : Res (GemDroidCore * Probe) := '(c, e) ← started; cycles 4 c e.

Lemma after_load_log : (fun r => pr_log r.2) <$> after_load = Ok [(4096, true)].
Proof. by vm_compute. Qed.

(** ** The end of a trace *)

Section Exhausted.
Context {E : Type} {port : CorePort E}.

(** A core with nothing to do and nothing to read, idle for [i] turns. *)
Record exhausted (i : Z) (c : GemDroidCore) : Prop := {
  ex_rob : outstanding_transactions_size c = 0;
  ex_trace : sm_tokens (em_trace_file c) = [];
  ex_ooo : number_of_instr_executed_OoO c = 0;
  ex_active : cpu_pstate c = CPU_PSTATE_ACTIVE;
  ex_wake : cyclesToWake c <= 0;
  ex_stalls : idleStalls c <= 0 /\ fpsStalls c <= 0 /\ audFpsStalls c <= 0;
  ex_idle : idleCycles c = i
}.

(** Nothing of the above is a statistic. *)
Lemma exhausted_stats i c g : exhausted i c -> exhausted i (upd_stats g c).
Proof. intros []. by constructor. Qed.

Lemma empty_turn c e j :
  outstanding_transactions_size c = 0 -> in_order_step (c, e) j = Ok (c <| idleCycles ::= Z.succ |>, e).
Proof. intros H. unfold in_order_step. by rewrite H. Qed.

Lemma exhausted_idles i c e n :
  exhausted i c -> exists c', foldM in_order_step (c, e) (replicate n 0) = Ok (c', e) /\ exhausted (i + Z.of_nat n) c' /\
    issue_width c' = issue_width c.
Proof.
  revert i c. induction n as [|n IH]; intros i c Hc; [exists c; rewrite Z.add_0_r; by split|].
  cbn [replicate foldM]. rewrite empty_turn by apply Hc.
  cbn [mbind Res_bind].
  destruct (IH (i + 1) (c <| idleCycles ::= Z.succ |>)) as (c' & -> & H & Hw).
  { destruct Hc. constructor; try done. cbn. lia. }
  exists c'. split; [done|]. by replace (i + Z.of_nat (S n)) with (i + 1 + Z.of_nat n) by lia.
Qed.

(** The turns do not look at their number. *)
Lemma in_order_turns c e l : foldM in_order_step (c, e) l = foldM in_order_step (c, e) (replicate (length l) 0).
Proof.
  revert c e. induction l as [|j l IH]; intros c e; [done|]. cbn.
  destruct (in_order_step (c, e) 0) as [[c' e']|] eqn:E0; unfold in_order_step in *; rewrite E0; cbn; [apply IH | done].
Qed.

Lemma end_profile_exhausted i now c : exhausted i c -> exhausted i (end_profile now c) /\ issue_width (end_profile now c) = issue_width c.
Proof.
  intros Hc. unfold end_profile. destruct (_ && _); [|done]. split; [by apply exhausted_stats | done].
Qed.

(** What a cycle does before it processes. *)
Lemma exhausted_tick i c e :
  exhausted i c ->
  exists c1, exhausted i c1 /\ issue_width c1 = issue_width c /\ tick c e = c2 ← fall_asleep c1; run_cycle c2 e.
Proof.
  intros Hc. unfold tick.
  set (c0 := upd_stats (fun s => s <| m_cycles ::= Z.succ |>) (c <| ticks ::= Z.succ |>)).
  assert (exhausted i c0) as H0 by (destruct Hc; by constructor).
  assert (issue_width c0 = issue_width c) as W0 by done. clearbody c0.
  assert ((if bool_decide (Z.rem (ticks c0) DEADLOCK_PERIOD = 0) then Ok c0 else checkDeadlock c0) = Ok c0) as ->.
  { unfold checkDeadlock. rewrite (ex_rob _ _ H0). by destruct (bool_decide _). }
  cbn [mbind Res_bind]. exists (count_cycle c0).
  assert (exhausted i (count_cycle c0)) as H1
    by (unfold count_cycle; rewrite (ex_active _ _ H0); by apply exhausted_stats).
  assert (issue_width (count_cycle c0) = issue_width c) as W1
    by (unfold count_cycle; by rewrite (ex_active _ _ H0)).
  split; [done|]. split; [done|]. destruct H1 as [_ _ _ H3 H4 (H5 & H6 & H7) _]. clear W1.
  rewrite bool_decide_false by lia. unfold fall_asleep. rewrite H3.
  case_bool_decide; cbn [mbind Res_bind].
  - unfold setPStateLowPower. rewrite bool_decide_true by done. cbn [mbind Res_bind].
    by rewrite !bool_decide_false by (cbn; lia).
  - by rewrite !bool_decide_false by lia.
Qed.

Lemma exhausted_step i c e :
  exhausted i c -> i < CORE_PSTATE_LOWPOWER_ENTER_TIME -> 0 <= issue_width c ->
  exists c', tick c e = Ok (c', e) /\ exhausted (i + issue_width c) c' /\ issue_width c' = issue_width c.
Proof.
  intros Hc Hi Hw. destruct (exhausted_tick i c e Hc) as (c1 & H1 & W1 & ->).
  unfold fall_asleep. rewrite (ex_active _ _ H1), bool_decide_false by (rewrite (ex_idle _ _ H1); lia).
  cbn [mbind Res_bind]. unfold run_cycle. change IN_ORDER with true. cbv iota. cbn zeta.
  destruct (end_profile_exhausted i (getTicks e) c1 H1) as [H2 W2].
  unfold inOrderProcess. rewrite in_order_turns.
  destruct (exhausted_idles i (end_profile (getTicks e) c1) e (length (zrange (issue_width (end_profile (getTicks e) c1)))) H2)
    as (c3 & -> & H3 & W3). cbn [mbind Res_bind].
  assert (Z.of_nat (length (zrange (issue_width (end_profile (getTicks e) c1)))) = issue_width c) as Hn.
  { unfold zrange. rewrite length_fmap, length_seq. lia. }
  rewrite Hn in H3. pose proof H3 as [R1 R2 R3 R4 _ _ _]. rewrite R1, R3. cbn [bool_decide andb].
  rewrite !bool_decide_true by done. cbn [andb]. unfold readLine. rewrite bool_decide_true by done. cbn [negb].
  destruct (em_trace_file c3) as [ts fail] eqn:Es. cbn in R2. subst ts.
  exists ((upd_stats (fun st => st <| lines_read_cpu ::= Z.succ |>) c3) <| em_trace_file := mkStream [] true |>).
  split; [by destruct fail|]. split; [|cbn; lia]. destruct H3. by constructor.
Qed.

Lemma exhausted_sleeps i c e :
  exhausted i c -> CORE_PSTATE_LOWPOWER_ENTER_TIME <= i -> tick c e = Err (AssertFail "isPStateActive()").
Proof.
  intros Hc Hi. destruct (exhausted_tick i c e Hc) as (c1 & H1 & W1 & ->).
  unfold fall_asleep. rewrite (ex_active _ _ H1), bool_decide_true by (rewrite (ex_idle _ _ H1); lia).
  unfold setPStateLowPower. rewrite bool_decide_true by apply H1. cbn [mbind Res_bind].
  unfold run_cycle. change IN_ORDER with true. cbv iota. cbn zeta.
  match goal with |- context [end_profile _ ?x] => set (c2 := x) end.
  assert (outstanding_transactions_size (end_profile (getTicks e) c2) = 0 /\
    number_of_instr_executed_OoO (end_profile (getTicks e) c2) = 0 /\
    cpu_pstate (end_profile (getTicks e) c2) = CPU_PSTATE_LOWPOWER) as (R1 & R2 & R3).
  { destruct H1. subst c2. unfold end_profile. by destruct (_ && _). }
  generalize dependent (end_profile (getTicks e) c2). clear. intros c R1 R2 R3.
  assert (exists c', inOrderProcess c e = Ok (c', e) /\ outstanding_transactions_size c' = 0 /\
    number_of_instr_executed_OoO c' = 0 /\ cpu_pstate c' = CPU_PSTATE_LOWPOWER) as (c' & -> & S1 & S2 & S3).
  { unfold inOrderProcess. generalize (zrange (issue_width c)). intros l. revert c R1 R2 R3.
    induction l as [|j l IH]; intros c R1 R2 R3; [by exists c|]. cbn [foldM]. rewrite empty_turn by done. cbn [mbind Res_bind]. by apply IH. }
  cbn [mbind Res_bind]. rewrite S1, S2. cbn. unfold readLine. by rewrite S3.
Qed.

(** C21: A core whose trace has ended does not idle for ever: after
    ceil(CORE_PSTATE_LOWPOWER_ENTER_TIME / issue_width) cycles it falls asleep
    and, reading on in the same cycle, fails its assertion. *)
Theorem exhausted_core_aborts c e :
  exhausted 0 c -> 0 < issue_width c ->
  let n := ((CORE_PSTATE_LOWPOWER_ENTER_TIME + issue_width c - 1) / issue_width c) in
  (exists c' e', cycles (Z.to_nat n) c e = Ok (c', e')) /\
  cycles (S (Z.to_nat n)) c e = Err (AssertFail "isPStateActive()").
Proof.
  intros Hc Hw n.
  assert (forall k i c, exhausted i c -> 0 < issue_width c ->
    (Z.of_nat k - 1) * issue_width c + i < CORE_PSTATE_LOWPOWER_ENTER_TIME ->
    exists c', cycles k c e = Ok (c', e) /\ exhausted (i + Z.of_nat k * issue_width c) c') as Hrun.
  { induction k as [|k IH]; intros i c0 H0 W0 Hk; [exists c0; split; [done|]; by rewrite Z.mul_0_l, Z.add_0_r|].
    destruct (exhausted_step i c0 e) as (c1 & Ht & H1 & W1); [done|nia|lia|].
    destruct (IH _ c1 H1) as (c2 & Hcyc & H2); [lia|rewrite W1; nia|].
    exists c2. cbn. rewrite Ht. cbn. split; [done|].
    rewrite W1 in H2. by replace (i + Z.of_nat (S k) * issue_width c0) with
      (i + issue_width c0 + Z.of_nat k * issue_width c0) by lia. }
  assert (n * issue_width c >= CORE_PSTATE_LOWPOWER_ENTER_TIME /\ (n - 1) * issue_width c < CORE_PSTATE_LOWPOWER_ENTER_TIME) as [Hn1 Hn2].
  { subst n. pose proof (Z.div_mod (CORE_PSTATE_LOWPOWER_ENTER_TIME + issue_width c - 1) (issue_width c) ltac:(lia)).
    pose proof (Z.mod_pos_bound (CORE_PSTATE_LOWPOWER_ENTER_TIME + issue_width c - 1) (issue_width c) Hw). nia. }
  assert (0 <= n) by (apply Z.div_pos; unfold CORE_PSTATE_LOWPOWER_ENTER_TIME; lia).
  destruct (Hrun (Z.to_nat n) 0 c Hc Hw) as (c' & Hc' & Hex); [rewrite Z2Nat.id; lia|].
  split; [by exists c', e|].
  assert (forall k c0 e0 c1 e1, cycles k c0 e0 = Ok (c1, e1) -> cycles (S k) c0 e0 = tick c1 e1) as Hsnoc.
  { induction k as [|k IH]; intros c0 e0 c1 e1 H0.
    - cbn in H0. injection H0 as -> ->. cbn. by destruct (tick c1 e1) as [[]|].
    - change (cycles (S (S k)) c0 e0) with ('(c, e) ← tick c0 e0; cycles (S k) c e).
      cbn in H0. destruct (tick c0 e0) as [[c2 e2]|]; [|done]. by apply IH. }
  rewrite (Hsnoc _ _ _ _ _ Hc'). apply (exhausted_sleeps _ _ _ Hex). rewrite Z2Nat.id; lia.
Qed.
End Exhausted.

(** ** Frequencies *)

(** Two steps up from the last state but one leave the table. *)
Lemma incFreq_leaves_table c :
  dvfsState c = CORE_DVFS_STATES - 2 -> getCoreFreq (snd (incFreq 2 c)) = Err OutOfTable.
Proof.
  intros Hd. unfold incFreq. rewrite bool_decide_true by (rewrite Hd; by vm_compute). cbn [snd].
  unfold getCoreFreq. change (dvfsState (c <| dvfsState ::= Z.add 2 |>)) with (2 + dvfsState c). rewrite Hd.
  by vm_compute.
Qed.

Lemma freq_for_power_in power rows last :
  freq_for_power power rows last = last \/ freq_for_power power rows last ∈ tbl_freq <$> rows.
Proof.
  induction rows as [|row rows IH]; [by left|]. cbn. destruct (F64.ltb _ _); [right; by left|].
  destruct IH; [by left | right; by right].
Qed.

(** Every frequency of the table, taken as an index, is one of the first two. *)
Lemma frequency_as_index :
  forallb (fun f => bool_decide (F32.trunc f = 0) || bool_decide (F32.trunc f = 1)) (tbl_freq <$> voltage_freq_table) = true.
Proof. by vm_compute. Qed.

Lemma index_0_1 : forallb (fun i => match row_at i with
    | Ok row => bool_decide (getIndexInTable (tbl_freq row) = i) | Err _ => false end) [0; 1] = true.
Proof. by vm_compute. Qed.

Lemma row_index i :
  match row_at i with Ok row => bool_decide (getIndexInTable (tbl_freq row) = i) | Err _ => false end = true ->
  exists row, row_at i = Ok row /\ getIndexInTable (tbl_freq row) = i.
Proof.
  destruct (row_at i) as [row|]; [|discriminate]. intros H. exists row.
  split; [reflexivity | exact (bool_decide_eq_true_1 _ H)].
Qed.

(** Whatever the budget, a core under the power cap gets one of the two
    lowest frequencies: the frequency in GHz is used as an index. *)
Theorem power_cap_slowest coordinated c :
  exists i, setMaxAllowedFreq coordinated c = Ok (c <| dvfsState := i |>) /\ (i = 0 \/ i = 1).
Proof.
  unfold setMaxAllowedFreq, getFreqForPower.
  assert (exists last, getCoreFreq_at (CORE_DVFS_STATES - 1) = Ok last /\ last ∈ tbl_freq <$> voltage_freq_table)
    as (last & -> & Hlast).
  { unfold getCoreFreq_at, row_at. change (clamp_index (CORE_DVFS_STATES - 1)) with 12.
    destruct (zget voltage_freq_table 12) as [row|] eqn:Er; [|by vm_compute in Er].
    exists (tbl_freq row). split; [done|]. apply list_elem_of_fmap_2. apply zget_lookup in Er as [_ Er].
    by apply list_elem_of_lookup_2 in Er. }
  cbn [mbind Res_bind]. set (power := F64.sub coordinated (powerInLastEpoch c)).
  assert (freq_for_power power voltage_freq_table last ∈ tbl_freq <$> voltage_freq_table) as Hin
    by (destruct (freq_for_power_in power voltage_freq_table last) as [->|]; done).
  pose proof frequency_as_index as Hall. rewrite forallb_forall in Hall.
  specialize (Hall _ (proj1 (list_elem_of_In _ _) Hin)).
  generalize dependent (freq_for_power power voltage_freq_table last). intros f _ Hf.
  assert (F32.trunc f = 0 \/ F32.trunc f = 1) as Hi by (apply orb_true_iff in Hf as [H|H]; apply bool_decide_eq_true in H; auto).
  pose proof index_0_1 as Hidx. cbn [forallb] in Hidx. apply andb_true_iff in Hidx as [H0 [H1 _]%andb_true_iff].
  exists (F32.trunc f). split; [|done].
  assert (exists row, row_at (F32.trunc f) = Ok row /\ getIndexInTable (tbl_freq row) = F32.trunc f) as (row & -> & Hrow).
  { destruct Hi as [->| ->]; by apply row_index. }
  cbn [mbind Res_bind]. unfold setCoreFreq, setCoreFreqInd. rewrite Hrow.
  by destruct Hi as [->| ->].
Qed.

(** ** Statistics of frames *)

(** Every dropped frame is counted as dropped because of the IPs: the
    stalls are cleared before they are compared. *)
Theorem dropped_frames_blamed_on_ips now c c' :
  isFrameDrop now c = Ok (true, c') ->
  m_framesDropped (stats c') = m_framesDropped (stats c) + 1 /\
  m_framesDroppedDueToIPStalls (stats c') = m_framesDroppedDueToIPStalls (stats c) + 1 /\
  m_framesDroppedDueToRobStalls (stats c') = m_framesDroppedDueToRobStalls (stats c) /\
  m_framesDroppedDueToMemStalls (stats c') = m_framesDroppedDueToMemStalls (stats c).
Proof.
  unfold isFrameDrop. cbn [type_of_application upd_stats upd_field set_stats set_startCycle].
  destruct (bool_decide _ || bool_decide _); [|done]. cbn [m_frameNumber upd_field set_stats set_startCycle].
  destruct (of_option _); cbn [mbind Res_bind]; [|done].
  destruct (bool_decide _); [discriminate|]. destruct (F64.ltb _ _); [discriminate|]. intros [= <-]. cbn. lia.
Qed.

(** ** Starting *)

(** A core that runs an application with frames looks up its frequency before
    it has been set. *)
Lemma init_reads_unset_frequency {E} {port : CorePort E} c0 id name ts app freq opt width (e : E) :
  trace_ok (core_offset id) ts -> app_type name CORE_BOUND <> CORE_BOUND -> CORE_DVFS_STATES <= dvfsState c0 ->
  init (GemDroidCore_new c0) id name (Some ts) app freq opt width e = Err OutOfTable.
Proof.
  intros Hts Happ Hd. unfold init. cbn zeta.
  change (type_of_application (GemDroidCore_new c0)) with CORE_BOUND.
  match goal with |- context [setIdleRatio ?x] => set (c1 := x) end.
  assert (type_of_application c1 = app_type name CORE_BOUND /\ lookahead_trace_file c1 = mkStream ts false /\
    dvfsState c1 = dvfsState c0) as (R1 & R2 & R3) by done. clearbody c1.
  rewrite bool_decide_false by (by rewrite R1). unfold setIdleRatio, look_fuel. rewrite R2.
  destruct (look_ahead_ok (core_offset id) (S (length (sm_tokens (mkStream ts false)))) (mkStream ts false)
    (needToLookAhead c1) 0 0 Hts) as (s & look & work & idle & -> & _); [lia|]. cbn [mbind Res_bind].
  unfold getCoreFreq, row_at. rewrite R3.
  destruct (zget voltage_freq_table (dvfsState c0)) eqn:Ez; [|done].
  apply zget_Some_range in Ez. exfalso. change (zlen voltage_freq_table) with CORE_DVFS_STATES in Ez. lia.
Qed.

(** The assertion of a memory transaction excludes address 1, where -1 is the
    address of no access. *)
Lemma address_one_aborts (rd : bool) : new_transaction (if rd then INSTR_MMU_LD else INSTR_MMU_ST) 0 1 = Err (AssertFail "addr != 1").
Proof. by destruct rd. Qed.

(** ** Witnesses *)

Lemma core_stops_only_asleep_witness :
  exists c0 e0 c e, started = Ok (c0, e0) /\ cycles 4 c0 e0 = Ok (c, e) /\
    exists i c', markTransactionCompleted 4096 c = Ok (i, c').
Proof.
  destruct started as [[c0 e0]|] eqn:Es; [|by vm_compute in Es].
  destruct (cycles 4 c0 e0) as [[c e]|] eqn:Ec; [|vm_compute in Es; injection Es as <- <-; by vm_compute in Ec].
  exists c0, e0, c, e. split; [done|]. split; [done|].
  destruct (started_inv _ _ Es) as [Hc He].
  exact (proj2 (core_stops_only_asleep c0 e0 c e 4096 Hc He (cycles_run _ _ _ _ _ Ec))).
Defined.

Lemma core_commits_once_witness :
  exists c0 e0 c e, started = Ok (c0, e0) /\ cycles 4 c0 e0 = Ok (c, e) /\
    m_committedInsns (stats c) + deadlocks_faced c + pending (outstanding_transactions c)
    + trace_insns (sm_tokens (em_trace_file c)) - m_memReqs (stats c)
    = m_committedInsns (stats c0) + deadlocks_faced c0 + pending (outstanding_transactions c0)
    + trace_insns (sm_tokens (em_trace_file c0)) - m_memReqs (stats c0).
Proof.
  destruct started as [[c0 e0]|] eqn:Es; [|by vm_compute in Es].
  destruct (cycles 4 c0 e0) as [[c e]|] eqn:Ec; [|vm_compute in Es; injection Es as <- <-; by vm_compute in Ec].
  exists c0, e0, c, e. split; [done|]. split; [done|].
  destruct (started_inv _ _ Es) as [Hc He]. exact (core_commits_once c0 e0 c e Hc He (cycles_run _ _ _ _ _ Ec)).
Defined.

Lemma core_requests_in_order_witness :
  exists c0 e0 c e, started = Ok (c0, e0) /\ cycles 4 c0 e0 = Ok (c, e) /\
    requests e (core_id c) ++ unissued (outstanding_transactions c) ++ trace_ops (off c) (sm_tokens (em_trace_file c))
    `sublist_of`
    requests e0 (core_id c0) ++ unissued (outstanding_transactions c0) ++ trace_ops (off c0) (sm_tokens (em_trace_file c0)).
Proof.
  destruct started as [[c0 e0]|] eqn:Es; [|by vm_compute in Es].
  destruct (cycles 4 c0 e0) as [[c e]|] eqn:Ec; [|vm_compute in Es; injection Es as <- <-; by vm_compute in Ec].
  exists c0, e0, c, e. split; [done|]. split; [done|].
  destruct (started_inv _ _ Es) as [Hc He]. exact (core_requests_in_order c0 e0 c e Hc He (cycles_run _ _ _ _ _ Ec)).
Defined.

(** Two loads and five instructions in the buffer. *)
Definition full_core : GemDroidCore :=
  (GemDroidCore_new (raw_core 0)) <| issue_width := 4 |> <| outstanding_transactions_size := 3 |>
    <| outstanding_transactions := [mkOoO INSTR_MMU_LD 0 0 64 false (-1) false; mkOoO INSTR_CPU 5 0 (u64 (-1)) false (-1) false;
                                    mkOoO INSTR_MMU_ST 0 0 128 false (-1) false] |>.

Lemma process_returns_witness :
  exists c' e', process full_core (mkProbe [] 0) = Ok (c', e') /\ rob_ok c' /\
    m_committedInsns (stats c') + pending (outstanding_transactions c')
      = m_committedInsns (stats full_core) + pending (outstanding_transactions full_core) /\
    requests e' (core_id full_core) ++ unissued (outstanding_transactions c')
      ⊆+ requests (mkProbe [] 0) (core_id full_core) ++ unissued (outstanding_transactions full_core).
Proof. apply (process_returns full_core (mkProbe [] 0)); [by split|done|done]. Defined.

(** A core of width 4 whose trace has ended. *)
Definition ended_core : GemDroidCore := (GemDroidCore_new (raw_core 0)) <| issue_width := 4 |>.

Lemma exhausted_core_aborts_witness :
  cycles (S (Z.to_nat ((CORE_PSTATE_LOWPOWER_ENTER_TIME + 4 - 1) / 4))) ended_core (mkProbe [] 0)
  = Err (AssertFail "isPStateActive()").
Proof. apply (exhausted_core_aborts ended_core (mkProbe [] 0)); [by constructor | done]. Defined.

(** A display application that is late. *)
Definition late_core : GemDroidCore :=
  (GemDroidCore_new (raw_core 0)) <| type_of_application := DISPLAY_BOUND |> <| lastDCTick := 1 |>.

Lemma dropped_frames_blamed_on_ips_witness :
  exists c', isFrameDrop 200000000 late_core = Ok (true, c') /\ m_framesDroppedDueToIPStalls (stats c') = 1.
Proof.
  destruct (isFrameDrop 200000000 late_core) as [[b c']|] eqn:Ed; [|by vm_compute in Ed].
  exists c'. assert (b = true) as -> by (vm_compute in Ed; by injection Ed). split; [done|].
  apply (dropped_frames_blamed_on_ips 200000000 late_core c' Ed).
Defined.
