(* ===== verification/Platform.v ===== *)
(** * The platform ([gemdroid.cc], [gemdroid.hh])

    The object that owns everything: the cores, the IPs, the agent, the
    memory, the flow table and the records of each frame that the governors
    read. This file has its state, its construction, and the methods the other
    parts call; it is the instance of their interfaces. The flow table and its
    queries are in [Flows], the governors in [Governors], and the clock in
    [GemTick]. *)

From S2P Require Import Prelude.
From S2P Require Import DramConfig.
From S2P Require Import BusTypes.
From S2P Require Import MultiChannel.
From S2P Require Import GemDefines.
From S2P Require Import Flows.
From S2P Require Import SystemAgent.
From S2P Require Import GemMemory.
From S2P Require Import MemStats.
From S2P Require Import Uncore.
From S2P Require Import Ip.
From S2P Require Import Coders.
From S2P Require Import TraceFile.
From S2P Require Import Gpu.
From S2P Require Import Cores.

(** ** IPs of all classes

    An element of one of the arrays [gemdroid_ip_dc] to [gemdroid_ip_gpu]. The
    methods of [GemDroidIP] are not virtual: through a [GemDroidIP *] the base
    class's are called. *)

Inductive IPInstance :=
| Device (ip : GemDroidIP)
| IPDecoder (d : Decoder.Decoder)
| IPEncoder (c : Coder)
| IPNocoder (c : Coder)
| IPGPU (g : Gpu.GemDroidIPGPU).

Definition ip_base (i : IPInstance) : GemDroidIP :=
  match i with
  | Device ip => ip
  | IPDecoder d => base (Decoder.coder d)
  | IPEncoder c | IPNocoder c => base c
  | IPGPU g => Gpu.base g
  end.

(** The object with its base class part replaced. *)
Definition with_base (ip : GemDroidIP) (i : IPInstance) : IPInstance :=
  match i with
  | Device _ => Device ip
  | IPDecoder d => IPDecoder (Decoder.upd_coder (upd_base (fun _ => ip)) d)
  | IPEncoder c => IPEncoder (upd_base (fun _ => ip) c)
  | IPNocoder c => IPNocoder (upd_base (fun _ => ip) c)
  | IPGPU g => IPGPU (Gpu.upd_base (fun _ => ip) g)
  end.

Definition DVFS_POWERCAP : spec_float := F64.of_Z 7.
Definition PERIODIC_STATS : Z := 1000000 * 10.
Definition FPS_DEADLINE_SAFETYNET : Z := 1.
Definition FPS_DEADLINE : Z := Z.quot 1000 TARGET_FPS - FPS_DEADLINE_SAFETYNET.

Module Platform.

(** ** State

    Row [t] of [ips] is the array of the IPs of type [t]. [mem_stats] are the
    figures of the memory, see [MemStats]. [true_fetch] is the global that the
    main loop of the simulator reads. *)

Record GemDroid := mkGemDroid {
  ticks : Z;
  num_cpus : Z;
  num_ip_inst : Z;
  governor : Z;
  governor_timing : Z;
  mem_freq : Z;
  sweep_val1 : spec_float;
  sweep_val2 : spec_float;
  app_id : list Z;
  flowTable : FlowTable;
  powerCalcLastTick : Z;
  periodicStatsLastTick : Z;
  slackLastTick : Z;
  dvfsLastTick : Z;
  memLastTick : Z;
  cpuLastTick : list Z;
  ipLastTick : list (list Z);
  ipProcessStartCycle : list (list Z);
  frameStarted : list (list bool);
  enableDVFS : bool;
  dvfsPeriod : Z;
  powerInLastEpoch : spec_float;
  framesMissed : Z;
  framesToBeShown : Z;
  doSlackDVFS : bool;
  memFreqMultiplier : Z;
  cpuFreqMultipliers : list Z;
  ipFreqMultipliers : list (list Z);
  m_avgPowerInFrameSum : list (list spec_float);
  m_avgPowerInFrameCount : list (list Z);
  optimal_freqs : list Z;
  optimal_energy : list spec_float;
  ip_energy_table : list (list spec_float);
  time_pred_coeffs : list (list spec_float);
  gemdroid_core : list Core.GemDroidCore;
  uncore : Uncore;
  ips : list (list IPInstance);
  ip_time_table : list (list spec_float);
  lastTimeTook : list spec_float;
  lastPowerTook : list spec_float;
  lastEnergyTook : list spec_float;
  lastFrequency : list spec_float;
  lastMemFreq : spec_float;
  dvfs_core : Z;
  m_totalCommittedInsns : Z;
  m_totalMilliSecs : Z;
  mem_stats : MemStats.MemStats;
  isPrintPeriodicStats : bool;
  true_fetch : bool
}.

#[export] Instance eta_GemDroid : Settable GemDroid := fun r =>
  mkGemDroid (ticks r) (num_cpus r) (num_ip_inst r) (governor r) (governor_timing r) (mem_freq r)
    (sweep_val1 r) (sweep_val2 r) (app_id r) (flowTable r) (powerCalcLastTick r)
    (periodicStatsLastTick r) (slackLastTick r) (dvfsLastTick r) (memLastTick r)
    (cpuLastTick r) (ipLastTick r) (ipProcessStartCycle r) (frameStarted r) (enableDVFS r)
    (dvfsPeriod r) (powerInLastEpoch r) (framesMissed r) (framesToBeShown r) (doSlackDVFS r)
    (memFreqMultiplier r) (cpuFreqMultipliers r) (ipFreqMultipliers r) (m_avgPowerInFrameSum r)
    (m_avgPowerInFrameCount r) (optimal_freqs r) (optimal_energy r) (ip_energy_table r)
    (time_pred_coeffs r) (gemdroid_core r) (uncore r) (ips r) (ip_time_table r)
    (lastTimeTook r) (lastPowerTook r) (lastEnergyTook r) (lastFrequency r) (lastMemFreq r)
    (dvfs_core r) (m_totalCommittedInsns r) (m_totalMilliSecs r) (mem_stats r) (isPrintPeriodicStats r) (true_fetch r).

#[export] Instance set_ticks : Setter ticks := ltac:(mk_setter).
#[export] Instance set_num_cpus : Setter num_cpus := ltac:(mk_setter).
#[export] Instance set_num_ip_inst : Setter num_ip_inst := ltac:(mk_setter).
#[export] Instance set_governor : Setter governor := ltac:(mk_setter).
#[export] Instance set_governor_timing : Setter governor_timing := ltac:(mk_setter).
#[export] Instance set_mem_freq : Setter mem_freq := ltac:(mk_setter).
#[export] Instance set_sweep_val1 : Setter sweep_val1 := ltac:(mk_setter).
#[export] Instance set_sweep_val2 : Setter sweep_val2 := ltac:(mk_setter).
#[export] Instance set_app_id : Setter app_id := ltac:(mk_setter).
#[export] Instance set_flowTable : Setter flowTable := ltac:(mk_setter).
#[export] Instance set_powerCalcLastTick : Setter powerCalcLastTick := ltac:(mk_setter).
#[export] Instance set_periodicStatsLastTick : Setter periodicStatsLastTick := ltac:(mk_setter).
#[export] Instance set_slackLastTick : Setter slackLastTick := ltac:(mk_setter).
#[export] Instance set_dvfsLastTick : Setter dvfsLastTick := ltac:(mk_setter).
#[export] Instance set_memLastTick : Setter memLastTick := ltac:(mk_setter).
#[export] Instance set_cpuLastTick : Setter cpuLastTick := ltac:(mk_setter).
#[export] Instance set_ipLastTick : Setter ipLastTick := ltac:(mk_setter).
#[export] Instance set_ipProcessStartCycle : Setter ipProcessStartCycle := ltac:(mk_setter).
#[export] Instance set_frameStarted : Setter frameStarted := ltac:(mk_setter).
#[export] Instance set_enableDVFS : Setter enableDVFS := ltac:(mk_setter).
#[export] Instance set_dvfsPeriod : Setter dvfsPeriod := ltac:(mk_setter).
#[export] Instance set_powerInLastEpoch : Setter powerInLastEpoch := ltac:(mk_setter).
#[export] Instance set_framesMissed : Setter framesMissed := ltac:(mk_setter).
#[export] Instance set_framesToBeShown : Setter framesToBeShown := ltac:(mk_setter).
#[export] Instance set_doSlackDVFS : Setter doSlackDVFS := ltac:(mk_setter).
#[export] Instance set_memFreqMultiplier : Setter memFreqMultiplier := ltac:(mk_setter).
#[export] Instance set_cpuFreqMultipliers : Setter cpuFreqMultipliers := ltac:(mk_setter).
#[export] Instance set_ipFreqMultipliers : Setter ipFreqMultipliers := ltac:(mk_setter).
#[export] Instance set_m_avgPowerInFrameSum : Setter m_avgPowerInFrameSum := ltac:(mk_setter).
#[export] Instance set_m_avgPowerInFrameCount : Setter m_avgPowerInFrameCount := ltac:(mk_setter).
#[export] Instance set_optimal_freqs : Setter optimal_freqs := ltac:(mk_setter).
#[export] Instance set_optimal_energy : Setter optimal_energy := ltac:(mk_setter).
#[export] Instance set_ip_energy_table : Setter ip_energy_table := ltac:(mk_setter).
#[export] Instance set_time_pred_coeffs : Setter time_pred_coeffs := ltac:(mk_setter).
#[export] Instance set_gemdroid_core : Setter gemdroid_core := ltac:(mk_setter).
#[export] Instance set_uncore : Setter uncore := ltac:(mk_setter).
#[export] Instance set_ips : Setter ips := ltac:(mk_setter).
#[export] Instance set_ip_time_table : Setter ip_time_table := ltac:(mk_setter).
#[export] Instance set_lastTimeTook : Setter lastTimeTook := ltac:(mk_setter).
#[export] Instance set_lastPowerTook : Setter lastPowerTook := ltac:(mk_setter).
#[export] Instance set_lastEnergyTook : Setter lastEnergyTook := ltac:(mk_setter).
#[export] Instance set_lastFrequency : Setter lastFrequency := ltac:(mk_setter).
#[export] Instance set_lastMemFreq : Setter lastMemFreq := ltac:(mk_setter).
#[export] Instance set_dvfs_core : Setter dvfs_core := ltac:(mk_setter).
#[export] Instance set_m_totalCommittedInsns : Setter m_totalCommittedInsns := ltac:(mk_setter).
#[export] Instance set_m_totalMilliSecs : Setter m_totalMilliSecs := ltac:(mk_setter).
#[export] Instance set_mem_stats : Setter mem_stats := ltac:(mk_setter).
#[export] Instance set_isPrintPeriodicStats : Setter isPrintPeriodicStats := ltac:(mk_setter).
#[export] Instance set_true_fetch : Setter true_fetch := ltac:(mk_setter).

Definition gemdroid_sa (p : GemDroid) : GemDroidSA := Uncore.gemdroid_sa (uncore p).
Definition gemdroid_memory (p : GemDroid) : GemDroidMemory := Uncore.gemdroid_memory (uncore p).
Definition upd_sa (f : GemDroidSA -> GemDroidSA) (p : GemDroid) : GemDroid :=
  p <| uncore ::= fun u => u <| Uncore.gemdroid_sa ::= f |> |>.
Definition upd_memory (f : GemDroidMemory -> GemDroidMemory) (p : GemDroid) : GemDroid :=
  p <| uncore ::= fun u => u <| Uncore.gemdroid_memory ::= f |> |>.

(** ** IPs and cores by index *)

(** [getIPInstance]; the types without an array stop the program. *)
Definition getIPInstance (p : GemDroid) (type id : Z) : Res IPInstance :=
  if bool_decide (IP_TYPE_DC <= type) && bool_decide (type <= IP_TYPE_GPU)
  then of_option (zget2 (ips p) type id)
  else Err (AssertFail "0").

Definition put_ip (type id : Z) (i : IPInstance) (p : GemDroid) : GemDroid :=
  p <| ips ::= fun l => zalter2 (fun _ => i) l type id |>.

Definition get_core (p : GemDroid) (i : Z) : Res Core.GemDroidCore := of_option (zget (gemdroid_core p) i).
Definition put_core (i : Z) (c : Core.GemDroidCore) (p : GemDroid) : GemDroid :=
  p <| gemdroid_core ::= fun l => zalter (fun _ => c) l i |>.

(** A method of the base class called through [getIPInstance]. *)
Definition on_ip (f : GemDroidIP -> Res GemDroidIP) (type id : Z) (p : GemDroid) : Res GemDroid :=
  i ← getIPInstance p type id;
  ip ← f (ip_base i);
  Ok (put_ip type id (with_base ip i) p).

Definition on_core (f : Core.GemDroidCore -> Res Core.GemDroidCore) (i : Z) (p : GemDroid) : Res GemDroid :=
  c ← get_core p i; c ← f c; Ok (put_core i c p).

(** [for(int i=first; i<last; i++) for(int j=0; j<num_ip_inst; j++)] *)
Definition ip_types (first last : Z) : list Z := (fun k => first + k) <$> zrange (last - first).
Definition for_ips (first last : Z) (body : Z -> Z -> GemDroid -> Res GemDroid) (p : GemDroid) : Res GemDroid :=
  foldM (fun p type => foldM (fun p id => body type id p) p (zrange (num_ip_inst p))) p (ip_types first last).
Definition for_cores (body : Z -> GemDroid -> Res GemDroid) (p : GemDroid) : Res GemDroid :=
  foldM (fun p i => body i p) p (zrange (num_cpus p)).

(** ** Records of the frames

    [markIPRequestStarted] does not use the core and the frame. *)

Definition markIPRequestStarted (p : GemDroid) (core type id frameNum : Z) : GemDroid :=
  p <| ipProcessStartCycle ::= fun l => zalter2 (fun _ => ticks p) l type id |>
    <| frameStarted ::= fun l => zalter2 (fun _ => true) l type id |>.

(** A frame that was not started is not recorded. [core_state] is the DVFS
    state of the core that calls, for a frame of a core; an IP that calls has
    the state the platform knows, since a cycle that moves it does no work. *)
Definition markIPRequestCompleted (p : GemDroid) (coreId type id core_state : Z) : Res GemDroid :=
  started ← of_option (zget2 (frameStarted p) type id);
  if negb (started : bool) then Ok p
  else
    start ← of_option (zget2 (ipProcessStartCycle p) type id);
    let time := F64.div (F64.of_Z (ticks p - start)) (F64.of_Z MILLISEC) in
    let slot := if bool_decide (type = IP_TYPE_CPU) then coreId else id in
    sum ← of_option (zget2 (m_avgPowerInFrameSum p) type slot);
    count ← of_option (zget2 (m_avgPowerInFrameCount p) type slot);
    freq ← (if bool_decide (type = IP_TYPE_CPU)
            then row ← Core.row_at core_state; Ok (Core.tbl_freq row)
            else i ← getIPInstance p type id; getIPFreq (ip_base i));
    let pwrAvg := F64.div sum (F64.of_Z count) in
    Ok (p <| frameStarted ::= fun l => zalter2 (fun _ => false) l type id |>
          <| lastTimeTook ::= fun l => zalter (fun _ => time) l type |>
          <| lastMemFreq := m_freq (gemdroid_memory p) |>
          <| lastPowerTook ::= fun l => zalter (fun _ => pwrAvg) l type |>
          <| lastEnergyTook ::= fun l => zalter (fun _ => F64.mul pwrAvg time) l type |>
          <| lastFrequency ::= fun l => zalter (fun _ => freq) l type |>
          <| m_avgPowerInFrameSum ::= fun l => zalter2 (fun _ => F64.of_Z 0) l type slot |>
          <| m_avgPowerInFrameCount ::= fun l => zalter2 (fun _ => 0) l type slot |>).

(** [GemDroidSA::enqueueIPResponse]: the record, then the next call. *)
Definition enqueueIPResponse (p : GemDroid) (type id core frameNum flowType flowId : Z) : Res GemDroid :=
  p ← markIPRequestCompleted p core type id 0;
  '(_, sa) ← SystemAgent.enqueueIPResponse (flowTable p) (app_id p) (gemdroid_sa p) type id core frameNum flowType;
  Ok (upd_sa (fun _ => sa) p).

(** An operation of the agent that answers. *)
Definition ask_sa {A} (f : GemDroidSA -> A * GemDroidSA) (p : GemDroid) : A * GemDroid :=
  let '(a, sa) := f (gemdroid_sa p) in (a, upd_sa (fun _ => sa) p).

(** ** The platform as the IPs and the cores see it *)

#[export] Instance gemdroid_ip_port : IPPort GemDroid := {
  getGovernor := governor;
  Ip.markIPRequestStarted := markIPRequestStarted;
  enqueueMem p type id core a is_read := ask_sa (fun sa => enqueueIPMemRequest sa type id core a is_read) p;
  completeFrame := enqueueIPResponse
}.

#[export] Instance gemdroid_gpu_port : GPUPort GemDroid := {
  gpu_getTicks := ticks;
  gpu_markIPRequestCompleted p core type id frame flow := markIPRequestCompleted p core type id 0;
  gpu_stopFetch p := p <| true_fetch := false |>
}.

#[export] Instance gemdroid_core_port : Core.CorePort GemDroid := {
  Core.getGovernor := governor;
  Core.getTicks := ticks;
  Core.markIPRequestStarted := markIPRequestStarted;
  Core.markIPRequestCompleted p core type id frame flow state := markIPRequestCompleted p core type id state;
  Core.nextIPtoCall p := nextIPtoCall (flowTable p) (app_id p);
  Core.flow_identification p := flow_identification (flowTable p) (app_id p);
  Core.enqueueCoreMemRequest p id a is_read := ask_sa (fun sa => enqueueCoreMemRequest sa id a is_read) p;
  Core.isIPReqLimitReached p := isIPReqLimitReached (gemdroid_sa p);
  Core.enqueueCoreIPRequest p core type a size is_read frame flowType flow :=
    '(ok, sa) ← enqueueCoreIPRequest (gemdroid_sa p) core type a size is_read frame flowType flow;
    Ok (ok, upd_sa (fun _ => sa) p);
  Core.countCommittedInsn p := p <| m_totalCommittedInsns ::= Z.succ |>;
  Core.stopFetch p := p <| true_fetch := false |>
}.

(** ** Cycles of the parts

    [uninit] is what the decoders' unassigned [is_success] holds, see
    [Decoder.tick]. *)

Definition tick_instance (uninit : process_event) (i : IPInstance) (p : GemDroid) : Res (IPInstance * GemDroid) :=
  match i with
  | Device ip => '(ip, p) ← IP_tick ip p; Ok (Device ip, p)
  | IPDecoder d => '(d, p) ← Decoder.tick uninit d p; Ok (IPDecoder d, p)
  | IPEncoder c => '(c, p) ← Encoder.tick c p; Ok (IPEncoder c, p)
  | IPNocoder c => '(c, p) ← Nocoder.tick c p; Ok (IPNocoder c, p)
  | IPGPU g => '(g, p) ← Gpu.tick g p; Ok (IPGPU g, p)
  end.

(** An unknown type only prints. *)
Definition tickIP (uninit : process_event) (type id : Z) (p : GemDroid) : Res GemDroid :=
  if bool_decide (IP_TYPE_DC <= type) && bool_decide (type <= IP_TYPE_GPU) then
    i ← getIPInstance p type id;
    '(i, p) ← tick_instance uninit i p;
    Ok (put_ip type id i p)
  else Ok p.

Definition tick_core (i : Z) (p : GemDroid) : Res GemDroid :=
  c ← get_core p i;
  '(c, p) ← Core.tick c p;
  Ok (put_core i c p).

(** ** Deliveries of the agent *)

Definition instance_memResponse (is_read : bool) (i : IPInstance) : IPInstance :=
  match i with
  | Device ip => Device (IP_memResponse ip)
  | IPDecoder d => IPDecoder (Decoder.memResponse is_read d)
  | IPEncoder c => IPEncoder (Coder_memResponse is_read c)
  | IPNocoder c => IPNocoder (Coder_memResponse is_read c)
  | IPGPU g => IPGPU g
  end.

(** The answers to the GPU are dropped. *)
Definition memIPResponse (p : GemDroid) (type id a : Z) (is_read : bool) : Res GemDroid :=
  if bool_decide (type = IP_TYPE_CPU) then Err (AssertFail "ip_type != IP_TYPE_CPU")
  else if bool_decide (IP_TYPE_DC <= type) && bool_decide (type <= IP_TYPE_IMG) then
    i ← getIPInstance p type id;
    Ok (put_ip type id (instance_memResponse is_read i) p)
  else Ok p.

(** The result is not used by the agent. *)
Definition memCoreResponse (p : GemDroid) (type core_id a : Z) (is_read : bool) : Res GemDroid :=
  on_core (fun c => '(_, c) ← Core.markTransactionCompleted a c; Ok c) core_id p.

(** A call through the class of the object; the GPU has the base class's. *)
Definition instance_enqueueIPReq (i : IPInstance) (p : GemDroid) (core a size : Z) (is_read : bool)
    (frameNum flowType flowId : Z) : Res (bool * IPInstance * GemDroid) :=
  match i with
  | Device ip =>
      let '(ok, ip, p) := IP_enqueueIPReq ip p core a size is_read frameNum flowType flowId in Ok (ok, Device ip, p)
  | IPDecoder d =>
      '(ok, d, p) ← Decoder.enqueueIPReq d p core a size is_read frameNum flowType flowId; Ok (ok, IPDecoder d, p)
  | IPEncoder c =>
      '(ok, c, p) ← Encoder.enqueueIPReq c p core a size is_read frameNum flowType flowId; Ok (ok, IPEncoder c, p)
  | IPNocoder c =>
      '(ok, c, p) ← Nocoder.enqueueIPReq c p core a size is_read frameNum flowType flowId; Ok (ok, IPNocoder c, p)
  | IPGPU g =>
      let '(ok, ip, p) := IP_enqueueIPReq (Gpu.base g) p core a size is_read frameNum flowType flowId in
      Ok (ok, IPGPU (Gpu.upd_base (fun _ => ip) g), p)
  end.

(** Instance 0 takes the calls, but for those of the GPU to a display. *)
Definition call_instance (sender_type type : Z) : Z :=
  if bool_decide (type = IP_TYPE_DC) && bool_decide (sender_type = IP_TYPE_GPU) then 1 else 0.

Definition enqueueIPReq (p : GemDroid) (r : GemDroidIPRequest) : Res (bool * GemDroid) :=
  let type := req_iptype r in
  let id := call_instance (req_sendertype r) type in
  i ← getIPInstance p type id;
  '(ok, i, p) ← instance_enqueueIPReq i p (req_core_id r) (req_addr r) (req_size r) (req_isRead r)
                  (req_frameNum r) (req_flowType r) (req_flowId r);
  Ok (ok, put_ip type id i p).

#[export] Instance gemdroid_receivers : Receivers GemDroid := {
  Uncore.memCoreResponse := memCoreResponse;
  Uncore.memIPResponse := memIPResponse;
  Uncore.enqueueIPReq := enqueueIPReq
}.

(** The agent and the memory, in this order. *)
Definition tick_uncore (p : GemDroid) : Res GemDroid :=
  '(u, p) ← sa_tick (uncore p) p;
  u ← memory_tick u;
  Ok (p <| uncore := u |>).

(** ** Times and power *)

(** [while ((ip = flowTable[app_id][flow_id][i++]) != -1) time += ...] *)
Fixpoint time_of_row (times : list spec_float) (row : list Z) (time : spec_float) : Res spec_float :=
  match row with
  | [] => Err OutOfRange
  | ip :: row' =>
      if bool_decide (ip = -1) then Ok time
      else t ← of_option (zget times ip); time_of_row times row' (F64.add time t)
  end.

Definition getLastTimeForFlow (p : GemDroid) (app flow : Z) : Res spec_float :=
  row ← flow_row (flowTable p) app flow; time_of_row (lastTimeTook p) row (F64.of_Z 0).

Definition getLastSlack (p : GemDroid) (app flow : Z) : Res spec_float :=
  t ← getLastTimeForFlow p app flow; Ok (F64.sub (F64.of_Z FPS_DEADLINE) t).

Definition getCoordinatedPower (p : GemDroid) : spec_float := F64.sub DVFS_POWERCAP (powerInLastEpoch p).

(** The power of a microsecond is added to the frame under way. *)
Definition add_power (type id : Z) (power : spec_float) (p : GemDroid) : Res GemDroid :=
  _ ← of_option (zget2 (m_avgPowerInFrameSum p) type id);
  _ ← of_option (zget2 (m_avgPowerInFrameCount p) type id);
  Ok (p <| m_avgPowerInFrameSum ::= fun l => zalter2 (fun s => F64.add s power) l type id |>
        <| m_avgPowerInFrameCount ::= fun l => zalter2 Z.succ l type id |>).

Definition core_power_1us (i : Z) (p : GemDroid) : Res GemDroid :=
  c ← get_core p i;
  '(power, c) ← Core.powerIn1us c;
  let p := put_core i c p in
  started ← of_option (zget2 (frameStarted p) IP_TYPE_CPU i);
  if (started : bool) then add_power IP_TYPE_CPU i power p else Ok p.

Definition base_power_1us (type id : Z) (p : GemDroid) : Res (spec_float * GemDroid) :=
  i ← getIPInstance p type id;
  '(power, ip) ← powerIn1us (ip_base i);
  Ok (power, put_ip type id (with_base ip i) p).

(** The GPU's own figure replaces the base class's, whose counters are reset
    by then. *)
Definition ip_power_1us (type id : Z) (p : GemDroid) : Res GemDroid :=
  '(power, p) ← base_power_1us type id p;
  started ← of_option (zget2 (frameStarted p) type id);
  if (started : bool) then
    '(power, p) ← (if bool_decide (type = IP_TYPE_GPU)
                   then
                     i ← getIPInstance p IP_TYPE_GPU 0;
                     match i with
                     | IPGPU g => '(power, g) ← Gpu.powerIn1us g; Ok (power, put_ip IP_TYPE_GPU 0 (IPGPU g) p)
                     | _ => Err OutOfRange
                     end
                   else Ok (power, p));
    add_power type id power p
  else Ok p.

(** [gemdroid_ip_gpu[0].isEnabled()] *)
Definition gpu_enabled (p : GemDroid) : Res bool :=
  i ← getIPInstance p IP_TYPE_GPU 0;
  match i with IPGPU g => Ok (Gpu.m_enabled g) | _ => Err OutOfRange end.

Definition powerCalculator1us (p : GemDroid) : Res GemDroid :=
  p ← for_cores core_power_1us p;
  p ← for_ips IP_TYPE_DC IP_TYPE_DMA ip_power_1us p;
  enabled ← gpu_enabled p;
  if (enabled : bool) then '(power, p) ← base_power_1us IP_TYPE_DC 1 p; add_power IP_TYPE_DC 1 power p else Ok p.

(** ** Clocks

    [int = GEMDROID_FREQ / freq]: the cycles of the platform per cycle of the
    part. *)

Definition multiplier (freq : spec_float) : Z := F32.trunc (F64.div GEMDROID_FREQ freq).

Definition core_multiplier (i : Z) (p : GemDroid) : Res GemDroid :=
  c ← get_core p i;
  f ← Core.getCoreFreq c;
  Ok (p <| cpuFreqMultipliers ::= fun l => zalter (fun _ => multiplier f) l i |>).

Definition ip_multiplier (type id : Z) (p : GemDroid) : Res GemDroid :=
  i ← getIPInstance p type id;
  f ← getIPFreq (ip_base i);
  Ok (p <| ipFreqMultipliers ::= fun l => zalter2 (fun _ => multiplier f) l type id |>).

Definition set_multipliers (p : GemDroid) : Res GemDroid :=
  p ← for_cores core_multiplier p;
  p ← for_ips IP_TYPE_DC IP_TYPE_DMA ip_multiplier p;
  Ok (p <| memFreqMultiplier := multiplier (m_freq (gemdroid_memory p)) |>).
End Platform.
