(* ===== verification/Governors.v ===== *)
(** * The governors ([gemdroid_dvfs.cc], and the slack estimates of
    [gemdroid_ip.cc])

    At each period a governor looks at how long the last frames took and moves
    the frequencies of the memory, the cores and the accelerators. The loops
    over frequencies have fuel for the steps of 0.1 GHz, or the states, there
    are; running out of it is a fault of its own. *)

From S2P Require Import Prelude.
From S2P Require Import DramConfig.
From S2P Require Import GemDefines.
From S2P Require Import Flows.
From S2P Require Import GemMemory.
From S2P Require Import MemStats.
From S2P Require Import Uncore.
From S2P Require Import Ip.
From S2P Require Import Cores.
From S2P Require Import Platform.

Module Governors.
Import Platform.Platform.

(** ** Constants and arrays of doubles *)

Definition AD_AE_RATIO_TO_VD : Z := 12.
Definition GOVERNOR_TIMING_FRAME_BOUNDARIES : Z := 4.
Definition APP_ID_ANGRYBIRDS : Z := 8.
Definition APP_ID_MPGAME : Z := 11.

(** 0.1 and 0 *)
Definition tenth : spec_float := F64.lit 1 10.
Definition zero : spec_float := F64.of_Z 0.

Definition DBL_MAX : spec_float := S754_finite false 9007199254740991 971.

Fixpoint find_max (array : list spec_float) (i : Z) (max_val : spec_float) (max_ind : Z) : Z :=
  match array with
  | [] => max_ind
  | x :: array' =>
      if F64.ltb max_val x then find_max array' (i + 1) x i else find_max array' (i + 1) max_val max_ind
  end.
Definition findMax (array : list spec_float) : Z := find_max array 0 (SFopp DBL_MAX) (-99999).

Fixpoint find_min (array : list spec_float) (i : Z) (min_val : spec_float) (min_ind : Z) : Z :=
  match array with
  | [] => min_ind
  | x :: array' =>
      if negb (F64.eqb x zero) && F64.ltb x min_val then find_min array' (i + 1) x i
      else find_min array' (i + 1) min_val min_ind
  end.
Definition findMin (array : list spec_float) : Z := find_min array 0 DBL_MAX (-99999).

Definition at_ip (l : list spec_float) (type : Z) : Res spec_float := of_option (zget l type).

(** ** The memory as the governors see it *)

Definition getMemFreq (p : GemDroid) : spec_float := m_freq (gemdroid_memory p).
Definition set_mem_freq (freq : spec_float) (p : GemDroid) : Res GemDroid :=
  m ← setMemFreq freq (gemdroid_memory p); Ok (upd_memory (fun _ => m) p).

(** ** Estimates *)

Definition getIPProcessingLatency (type : Z) : Z :=
  if bool_decide (type = IP_TYPE_VD) then 12
  else if bool_decide (type = IP_TYPE_VE) then 18
  else if bool_decide (type = IP_TYPE_AE) then 8
  else if bool_decide (type = IP_TYPE_AD) then 12
  else if bool_decide (type = IP_TYPE_IMG) then 16
  else if bool_decide (type = IP_TYPE_CAM) then 1
  else if bool_decide (type = IP_TYPE_MMC_OUT) || bool_decide (type = IP_TYPE_MMC_IN) then 10
  else 1.

Definition getIPProcessingSize (type : Z) : Z :=
  if bool_decide (type = IP_TYPE_VD) || bool_decide (type = IP_TYPE_VE) then VID_CODING_RATIO + 1
  else if bool_decide (type = IP_TYPE_AE) || bool_decide (type = IP_TYPE_AD) then AUD_CODING_RATIO + 1
  else 1.

Definition memScaledTimeCPU (p : GemDroid) (core_id : Z) (oldMemFreq newMemFreq : spec_float) : Res spec_float :=
  c ← get_core p core_id;
  last ← at_ip (lastTimeTook p) IP_TYPE_CPU;
  let memFraction := Core.getProfileFractionOfMemInst c in
  let memFraction := if MemStats.is_nan memFraction then F64.lit 20 100 else memFraction in
  let memTime := F64.mul memFraction last in
  let computeTime := F64.sub last memTime in
  Ok (F64.add computeTime (F64.mul memTime (F64.div oldMemFreq newMemFreq))).

(** [c0*bw*bw*bw + c1*bw*bw + c2*bw + c3] *)
Definition predicted_time (coeffs : list spec_float) (bw : spec_float) : Res spec_float :=
  c0 ← at_ip coeffs 0; c1 ← at_ip coeffs 1; c2 ← at_ip coeffs 2; c3 ← at_ip coeffs 3;
  Ok (F64.add (F64.add (F64.add (F64.mul (F64.mul (F64.mul c0 bw) bw) bw) (F64.mul (F64.mul c1 bw) bw))
                       (F64.mul c2 bw)) c3).

Definition memScaledTime (p : GemDroid) (type : Z) (availableBW : spec_float) (ipFreqIndex : Z) : Res spec_float :=
  if bool_decide (type = IP_TYPE_CPU) then Err (AssertFail "0")
  else
    inst ← getIPInstance p type 0;
    last ← at_ip (lastTimeTook p) type;
    if bool_decide (type = IP_TYPE_DC) || bool_decide (type = IP_TYPE_CAM)
    then coeffs ← of_option (zget (time_pred_coeffs p) type); predicted_time coeffs availableBW
    else if bool_decide (IP_TYPE_NW <= type) && bool_decide (type <= IP_TYPE_MMC_OUT) then Ok last
    else if bool_decide (type = IP_TYPE_GPU) then
      let memTime := F64.mul (F64.lit 30 100) last in
      let computeTime := F64.sub last memTime in
      Ok (F64.add computeTime (F64.mul memTime (F64.div (getMemFreq p) (getFreqForBandwidth availableBW))))
    else
      freq ← getIPFreq_at (ip_base inst) ipFreqIndex;
      lastFreq ← at_ip (lastFrequency p) type;
      let baseTime := getTimeEst last lastFreq freq in
      let requirement := F64.div (F64.mul (F64.of_Z (getIPProcessingSize type)) (F64.of_Z CACHE_LINE_SIZE))
                                 (F64.div (F64.of_Z (getIPProcessingLatency type)) freq) in
      Ok (if F64.ltb requirement availableBW then baseTime else F64.mul (F64.div requirement availableBW) baseTime).

Definition getAvailBW (p : GemDroid) (core_id : Z) : Res spec_float :=
  let max := getMaxBandwidth (getMemFreq p) in
  if bool_decide (num_cpus p = 1) then Ok max
  else
    reqs ← of_option (zget (appMemReqs (uncore p)) core_id);
    let appBW := F64.mul (F64.div (F64.mul (F64.of_Z reqs) (F64.of_Z 64))
                                  (F64.mul (F64.of_Z (dvfsPeriod p)) (F64.lit 1125 1000))) (F64.of_Z 10) in
    Ok (F64.add (F64.sub max (MemStats.getBandwidth (mem_stats p))) appBW).

(** The overload without a bandwidth. *)
Definition memScaledTime_avail (p : GemDroid) (type core_id ipFreqIndex : Z) : Res spec_float :=
  bw ← getAvailBW p core_id; memScaledTime p type bw ipFreqIndex.

(** ** Frequencies for a slack *)

(** [n] states from [k] down are tried. *)
Fixpoint slowest_in_time (n : nat) (k : Z) (ip : GemDroidIP) (scaledTime freq limit : spec_float) : Res Z :=
  match n with
  | O => Ok k
  | S n' =>
      f ← getIPFreq_at ip k;
      if F64.ltb limit (getTimeEst scaledTime freq f) then Ok k
      else slowest_in_time n' (k - 1) ip scaledTime freq limit
  end.

(** [GemDroidIP::getFreqForSlackOptimal]: the frequency and the slack left. *)
Definition getFreqForSlackOptimal (p : GemDroid) (ip : GemDroidIP) (prevTime slack : spec_float)
  : Res (spec_float * spec_float) :=
  currFreq ← getIPFreq ip;
  scaledTime ← memScaledTime_avail p (ip_type ip) 0 (dvfsState ip);
  '(newFreq, k) ←
    (if F64.ltb slack zero then f ← getIPFreq_at ip (dvfsState ip + 2); Ok (f, dvfsState ip + 1)
     else if bool_decide (dvfsState ip > m_optDVFSState ip) then
       let minFreq := if bool_decide (ip_type ip = IP_TYPE_IMG) then dvfsState ip - 2 else m_optDVFSState ip in
       k ← slowest_in_time (Z.to_nat (dvfsState ip - minFreq)) (dvfsState ip - 1) ip scaledTime currFreq
             (F64.add prevTime slack);
       f ← getIPFreq_at ip (k + 1);
       if F64.ltb zero f then Ok (f, k) else Err (AssertFail "newFreq > 0")
     else Ok (currFreq, dvfsState ip - 1));
  f ← getIPFreq_at ip (k + 1);
  let extra := F64.sub (getTimeEst scaledTime currFreq f) prevTime in
  let audio := bool_decide (ip_type ip = IP_TYPE_AD) || bool_decide (ip_type ip = IP_TYPE_AE) in
  Ok (newFreq, F64.sub slack (if audio then F64.mul (F64.of_Z AD_AE_RATIO_TO_VD) extra else extra)).

(** One core gets the frequency its slack allows. *)
Definition slack_core (i : Z) (slack : spec_float) (p : GemDroid) : Res (spec_float * GemDroid) :=
  c ← get_core p i;
  scaledTime ← memScaledTimeCPU p 0 (lastMemFreq p) (getMemFreq p);
  last ← at_ip (lastTimeTook p) IP_TYPE_CPU;
  '(freq, slack) ← Core.getFreqForSlackOptimal c scaledTime last slack;
  c ← Core.setCoreFreq freq c;
  Ok (slack, put_core i c p).

(** Instance 0 of a type gets the frequency its slack allows. *)
Definition slack_ip (type : Z) (slack : spec_float) (p : GemDroid) : Res (spec_float * GemDroid) :=
  i ← getIPInstance p type 0;
  last ← at_ip (lastTimeTook p) type;
  '(freq, slack) ← getFreqForSlackOptimal p (ip_base i) last slack;
  ip ← setIPFreq freq (ip_base i);
  Ok (slack, put_ip type 0 (with_base ip i) p).

Definition setDVFSSlackFrequencies (slack : spec_float) (type : Z) (p : GemDroid) : Res (spec_float * GemDroid) :=
  if bool_decide (type = IP_TYPE_CPU) then
    foldM (fun st i => slack_core i st.1 st.2) (slack, p) (zrange (num_cpus p))
  else if bool_decide (IP_TYPE_VD <= type) && bool_decide (type <= IP_TYPE_GPU) then
    energy ← at_ip (lastEnergyTook p) type;
    if F64.eqb energy zero then Err (AssertFail "lastEnergyTook[ip_type] != 0") else slack_ip type slack p
  else Ok (slack, p).

(** ** The IPs of the first flow of the first core

    [while ((ip = ips[j++]) != -1)]: past the last entry the array is left. *)
Fixpoint flow_loop {S} (body : Z -> S -> Res S) (ips : list Z) (s : S) : Res S :=
  match ips with
  | [] => Err OutOfRange
  | ip :: ips' => if bool_decide (ip = -1) then Ok s else s ← body ip s; flow_loop body ips' s
  end.

Definition first_flow {S} (body : Z -> S -> Res S) (p : GemDroid) (s : S) : Res S :=
  '(row, _) ← getIPsInFlow (flowTable p) (app_id p) 0 0; flow_loop body row s.

(** ** The memory *)

(** The time of an IP when the memory ran at [freq], and the time it took. *)
Definition time_at (p : GemDroid) (orig freq : spec_float) (ip : Z) : Res (spec_float * spec_float) :=
  newTime ← (if bool_decide (ip = IP_TYPE_CPU) then memScaledTimeCPU p 0 orig freq
             else i ← getIPInstance p ip 0; memScaledTime p ip (getMaxBandwidth freq) (dvfsState (ip_base i)));
  oldTime ← at_ip (lastTimeTook p) ip;
  Ok (newTime, oldTime).

(** [if (newTime > oldTime); newTime = oldTime;]: the estimate is thrown away. *)
Definition faster_time (p : GemDroid) (orig freq : spec_float) (ip : Z) (extra : spec_float) : Res spec_float :=
  '(_, oldTime) ← time_at p orig freq ip; Ok (F64.add extra (F64.sub oldTime oldTime)).

Definition slower_time (p : GemDroid) (orig freq : spec_float) (ip : Z) (extra : spec_float) : Res spec_float :=
  '(newTime, oldTime) ← time_at p orig freq ip;
  let newTime := if F64.ltb newTime oldTime then oldTime else newTime in
  Ok (F64.add extra (F64.sub newTime oldTime)).

(** [fabs(a - b) > EPSILON] *)
Definition apart (a b : spec_float) : bool := F64.ltb EPSILON (SFabs (F64.sub a b)).

(** The frequency goes down while the frames stay within the slack. The extra
    time is summed over the steps. *)
Fixpoint lower_memory (fuel : nat) (orig min_mem slack mem_freq extra correct : spec_float) (p : GemDroid)
  : Res (spec_float * GemDroid) :=
  match fuel with
  | O => Err OutOfFuel
  | S fuel' =>
      if apart mem_freq min_mem then
        let mem_freq := F64.sub mem_freq tenth in
        extra ← first_flow (slower_time p orig mem_freq) p extra;
        if F64.ltb slack extra then Ok (correct, p)
        else
          p ← set_mem_freq mem_freq p;
          lower_memory fuel' orig min_mem slack mem_freq extra extra p
      else Ok (correct, p)
  end.

Definition memory_fuel : nat := 12.

(** The flag says whether the other parts are to be looked at. *)
Definition dvfsMemory (slack : spec_float) (p : GemDroid) : Res (bool * spec_float * GemDroid) :=
  let orig := getMemFreq p in
  if F64.ltb slack zero then
    if F64.ltb orig MAX_MEM_FREQ then
      let mem_freq := F64.add orig tenth in
      extra ← first_flow (faster_time p orig mem_freq) p zero;
      p ← set_mem_freq mem_freq p;
      Ok (false, F64.sub slack extra, p)
    else Ok (false, slack, p)
  else
    let min_mem :=
      if bool_decide (governor p = GOVERNOR_TYPE_SLACK_MAXENERGY_CONSUMER)
         || bool_decide (governor p = GOVERNOR_TYPE_SLACK_FAR_ENERGY)
      then F64.add MIN_MEM_FREQ tenth else MIN_MEM_FREQ in
    '(correct, p) ← lower_memory memory_fuel orig min_mem slack orig zero zero p;
    Ok (true, F64.sub slack correct, p).

(** ** Fixed order *)

(** An IP that has a record of a frame. *)
Definition has_energy (p : GemDroid) (ip : Z) : Res bool :=
  e ← at_ip (lastEnergyTook p) ip; Ok (negb (F64.eqb e zero)).

Definition fixed_step (with_ips : bool) (ip : Z) (st : spec_float * GemDroid) : Res (spec_float * GemDroid) :=
  let '(slack, p) := st in
  known ← has_energy p ip;
  if (known : bool) && bool_decide (ip = IP_TYPE_CPU) then slack_core 0 slack p
  else if known && with_ips && bool_decide (ip >= IP_TYPE_VD) then slack_ip ip slack p
  else Ok (slack, p).

Definition dvfsCoreOracle (slack : spec_float) (p : GemDroid) : Res GemDroid :=
  '(_, p) ← first_flow (fixed_step false) p (slack, p); Ok p.

Definition dvfsFixedPriority (slack : spec_float) (p : GemDroid) : Res GemDroid :=
  '(doNextDVFS, slack, p) ← dvfsMemory slack p;
  if F64.ltb zero slack && negb doNextDVFS then Ok p
  else '(_, p) ← first_flow (fixed_step true) p (slack, p); Ok p.

(** ** Load *)

(** A busy core goes up, an idle one down; the last read of the frequency is
    for the printing. *)
Definition load_core (i : Z) (p : GemDroid) : Res GemDroid :=
  c ← get_core p i;
  last ← at_ip (lastTimeTook p) IP_TYPE_CPU;
  '(load, c) ← Core.getLoadInLastDVFSEpoch last c;
  c ← (if F64.ltb (F64.lit 6 10) load then
         if bool_decide (governor p = GOVERNOR_TYPE_ONDEMAND) || bool_decide (governor p = GOVERNOR_TYPE_INTERACTIVE)
         then Ok (Core.setMaxCoreFreq (governor p) c)
         else if bool_decide (governor p = GOVERNOR_TYPE_BUILDING) then Ok (snd (Core.incFreq 2 c))
         else if bool_decide (governor p = GOVERNOR_TYPE_POWERCAP)
         then Core.setMaxAllowedFreq (getCoordinatedPower p) c
         else Ok c
       else if F64.ltb load (F64.lit 2 10) then Ok (snd (Core.decFreq (governor p) 1 c)) else Ok c);
  _ ← Core.getCoreFreq c;
  Ok (put_core i c p).

Definition load_ip (type id : Z) (p : GemDroid) : Res GemDroid :=
  known ← has_energy p type;
  if negb known then Ok p
  else
    i ← getIPInstance p type id;
    last ← at_ip (lastTimeTook p) type;
    '(load, ip) ← getLoadInLastDVFSEpoch last (ip_base i);
    if MemStats.is_nan load then Ok (put_ip type id (with_base ip i) p)
    else
      ip ← (if F64.ltb (F64.lit 6 10) load then
              if bool_decide (governor p = GOVERNOR_TYPE_ONDEMAND)
                 || bool_decide (governor p = GOVERNOR_TYPE_INTERACTIVE)
              then setMaxIPFreq ip
              else if bool_decide (governor p = GOVERNOR_TYPE_BUILDING) then snd <$> incFreq 1 ip
              else if bool_decide (governor p = GOVERNOR_TYPE_POWERCAP) then setMaxAllowedFreq (getCoordinatedPower p) ip
              else Ok ip
            else if F64.ltb load (F64.lit 3 10) then snd <$> decFreq (governor p) 1 ip else Ok ip);
      _ ← getIPFreq ip;
      Ok (put_ip type id (with_base ip i) p).

Definition dvfsLoadBased (p : GemDroid) : Res GemDroid :=
  p ← for_cores load_core p; for_ips IP_TYPE_VD IP_TYPE_DMA load_ip p.

Definition memscale_core (i : Z) (p : GemDroid) : Res GemDroid :=
  c ← get_core p i;
  last ← at_ip (lastTimeTook p) IP_TYPE_CPU;
  '(load, c) ← Core.getLoadInLastDVFSEpoch last c;
  let c := if F64.leb tenth load then Core.setMaxCoreFreq (governor p) c
           else if F64.ltb load tenth then Core.setMinCoreFreq c else c in
  _ ← Core.getCoreFreq c;
  Ok (put_core i c p).

Definition memscale_ip (type id : Z) (p : GemDroid) : Res GemDroid :=
  i ← getIPInstance p type id;
  last ← at_ip (lastTimeTook p) type;
  '(load, ip) ← getLoadInLastDVFSEpoch last (ip_base i);
  ip ← (if F64.ltb (F64.lit 5 10) load then setMaxIPFreq ip
        else if F64.ltb load tenth then setMinIPFreq ip else Ok ip);
  _ ← getIPFreq ip;
  Ok (put_ip type id (with_base ip i) p).

Definition dvfsMemScale (slack : spec_float) (p : GemDroid) : Res GemDroid :=
  p ← for_cores memscale_core p;
  p ← for_ips IP_TYPE_VD IP_TYPE_DMA memscale_ip p;
  '(_, _, p) ← dvfsMemory slack p;
  Ok p.

(** ** Order by a figure of merit

    The part with the largest figure goes first when there is slack, the one
    with the smallest when there is none; a part that had its turn gets 0.
    There are [IP_TYPE_END] figures. *)

Definition no_figures : list spec_float := replicate (Z.to_nat IP_TYPE_END) zero.
Definition drain_fuel : nat := S (Z.to_nat IP_TYPE_END).

(** The index is good and its figure above the threshold. *)
Definition eligible (threshold : spec_float) (figures : list spec_float) (ind : Z) : Res bool :=
  if bool_decide (ind > -1) then x ← at_ip figures ind; Ok (F64.ltb threshold x) else Ok false.

Fixpoint drain_max (fuel : nat) (threshold : spec_float) (figures : list spec_float) (slack : spec_float)
    (p : GemDroid) : Res GemDroid :=
  match fuel with
  | O => Err OutOfFuel
  | S fuel' =>
      let ind := findMax figures in
      go ← eligible threshold figures ind;
      if (go : bool) then
        '(slack, p) ← setDVFSSlackFrequencies slack ind p;
        drain_max fuel' threshold (zalter (fun _ => zero) figures ind) slack p
      else Ok p
  end.

Fixpoint drain_min (fuel : nat) (figures : list spec_float) (slack : spec_float) (p : GemDroid)
  : Res (spec_float * GemDroid) :=
  match fuel with
  | O => Err OutOfFuel
  | S fuel' =>
      let ind := findMin figures in
      go ← eligible zero figures ind;
      if (go : bool) then
        '(slack, p) ← setDVFSSlackFrequencies slack ind p;
        if F64.ltb zero slack then Ok (slack, p)
        else drain_min fuel' (zalter (fun _ => zero) figures ind) slack p
      else Ok (slack, p)
  end.

(** The end of the four governors. *)
Definition spend_slack (threshold : spec_float) (figures : list spec_float) (slack : spec_float) (p : GemDroid)
  : Res GemDroid :=
  '(doNextDVFS, slack, p) ← dvfsMemory slack p;
  if F64.ltb zero slack && negb doNextDVFS then Ok p
  else if F64.ltb zero slack then drain_max drain_fuel threshold figures slack p
  else '(_, p) ← drain_min drain_fuel figures slack p; Ok p.

Definition set_figure (type : Z) (x : spec_float) (figures : list spec_float) : Res (list spec_float) :=
  _ ← of_option (zget figures type); Ok (zalter (fun _ => x) figures type).

(** [if (x <= 0) x = 0.01] and [if (x < 0) x = 0.01] *)
Definition at_least (x : spec_float) : spec_float := if F64.leb x zero then F64.lit 1 100 else x.
Definition not_below (x : spec_float) : spec_float := if F64.ltb x zero then F64.lit 1 100 else x.

Definition audio_scaled (type : Z) (x : spec_float) : spec_float :=
  if bool_decide (type = IP_TYPE_AD) || bool_decide (type = IP_TYPE_AE)
  then F64.mul x (F64.of_Z AD_AE_RATIO_TO_VD) else x.

(** The figure of an accelerator of the flow; its frequency is printed. *)
Definition flow_figure (figure : Z -> spec_float -> Res spec_float) (p : GemDroid) (ip : Z) (figures : list spec_float)
  : Res (list spec_float) :=
  energy ← at_ip (lastEnergyTook p) ip;
  if negb (F64.eqb energy zero) && bool_decide (ip >= IP_TYPE_VD) then
    x ← figure ip energy;
    i ← getIPInstance p ip 0;
    _ ← getIPFreq (ip_base i);
    set_figure ip x figures
  else Ok figures.

(** The cores' figure, computed once for each and kept for the last. *)
Definition core_figure (figure : Core.GemDroidCore -> Res spec_float) (p : GemDroid) (figures : list spec_float)
  : Res (list spec_float) :=
  foldM (fun figures i => c ← get_core p i; x ← figure c; _ ← Core.getCoreFreq c; set_figure IP_TYPE_CPU x figures)
    figures (zrange (num_cpus p)).

Definition getOptCoreFreq (c : Core.GemDroidCore) : Res spec_float :=
  row ← Core.row_at (Core.optDVFSState c); Ok (Core.tbl_freq row).

(** The energy of the last frame at the optimal frequency. *)
Definition core_optimal_energy (p : GemDroid) (c : Core.GemDroidCore) : Res spec_float :=
  freq ← getOptCoreFreq c;
  time ← at_ip (lastTimeTook p) IP_TYPE_CPU;
  power ← at_ip (lastPowerTook p) IP_TYPE_CPU;
  Core.getEnergyEst c time power freq.

Definition dvfsParetoEfficient (slack : spec_float) (p : GemDroid) : Res GemDroid :=
  figures ← core_figure (fun c => best ← core_optimal_energy p c;
                                  energy ← at_ip (lastEnergyTook p) IP_TYPE_CPU;
                                  Ok (at_least (F64.sub energy best))) p no_figures;
  figures ← first_flow (flow_figure (fun ip energy => best ← at_ip (optimal_energy p) ip;
                                       Ok (audio_scaled ip (at_least (F64.sub energy best)))) p) p figures;
  spend_slack zero figures slack p.

Definition dvfsMaxEnergyConsumer (slack : spec_float) (p : GemDroid) : Res GemDroid :=
  figures ← core_figure (fun _ => energy ← at_ip (lastEnergyTook p) IP_TYPE_CPU; Ok (at_least energy)) p no_figures;
  figures ← first_flow (flow_figure (fun ip energy => Ok (at_least (audio_scaled ip energy))) p) p figures;
  spend_slack EPSILON figures slack p.

Definition dvfsMaxPowerConsumer (slack : spec_float) (p : GemDroid) : Res GemDroid :=
  figures ← core_figure (fun _ => at_ip (lastPowerTook p) IP_TYPE_CPU) p no_figures;
  figures ← first_flow (flow_figure (fun ip _ => at_ip (lastPowerTook p) ip) p) p figures;
  spend_slack EPSILON figures slack p.

(** Energy per time: what the optimal frequency would save for the time it
    would cost. *)
Definition core_energy_per_time (p : GemDroid) (energy : spec_float) : Res spec_float :=
  c ← get_core p 0;
  best ← core_optimal_energy p c;
  time ← at_ip (lastTimeTook p) IP_TYPE_CPU;
  freq ← Core.getCoreFreq c;
  optFreq ← getOptCoreFreq c;
  let diffTime := F64.sub time (Core.getTimeEst time freq optFreq) in
  let x := F64.div (F64.sub energy best) diffTime in
  Ok (if F64.eqb diffTime zero then F64.of_Z 100
      else if F64.ltb x zero then F64.mul x (F64.of_Z (-1)) else x).

Definition ip_energy_per_time (p : GemDroid) (ip : Z) (energy : spec_float) : Res spec_float :=
  i ← getIPInstance p ip 0;
  best ← at_ip (optimal_energy p) ip;
  time ← at_ip (lastTimeTook p) ip;
  optTime ← of_option (zget2 (ip_time_table p) ip (m_optDVFSState (ip_base i)));
  Ok (audio_scaled ip (F64.div (not_below (F64.sub energy best)) (not_below (F64.sub time optTime)))).

Definition energy_per_time_step (p : GemDroid) (ip : Z) (figures : list spec_float) : Res (list spec_float) :=
  if bool_decide (ip = IP_TYPE_CPU) then
    energy ← at_ip (lastEnergyTook p) ip;
    if F64.eqb energy zero then Ok figures
    else x ← core_energy_per_time p energy; set_figure IP_TYPE_CPU x figures
  else flow_figure (ip_energy_per_time p) p ip figures.

Definition energy_per_time (p : GemDroid) : Res (list spec_float) :=
  first_flow (energy_per_time_step p) p no_figures.

Definition dvfsMaxEnergyPerTimeConsumer (slack : spec_float) (p : GemDroid) : Res GemDroid :=
  figures ← energy_per_time p; spend_slack zero figures slack p.

(** ** Knapsack *)

(** [(FPS_DEADLINE+FPS_DEADLINE_SAFETYNET) * powerIn1ms()]: the reading, and
    the energy after it. *)
Definition read_power (p : GemDroid) : GemDroid := p <| mem_stats ::= fun ms => snd (MemStats.powerIn1ms ms) |>.
Definition frame_memory_energy (p : GemDroid) : spec_float :=
  F64.mul (F64.of_Z (FPS_DEADLINE + FPS_DEADLINE_SAFETYNET)) (MemStats.m_power (mem_stats p)).

(** [GemDroidMemory::getEnergyEst] *)
Definition memory_energy (currFreq currEnergy newFreq : spec_float) : spec_float :=
  F64.mul currEnergy (F64.div newFreq currFreq).

Definition assert_nonneg (x : spec_float) : Res unit :=
  if F64.leb zero x then Ok tt else Err (AssertFail "extra_time >= 0").

(** The time the flow would lose by one step of the memory, for the core and
    for the IPs; neither sum may be negative at any point. *)
Definition extra_time (p : GemDroid) (last curr next : spec_float) (ip : Z) (st : spec_float * spec_float)
  : Res (spec_float * spec_float) :=
  let '(extra_cpu, extra_ip) := st in
  if bool_decide (ip = IP_TYPE_CPU) then
    now ← memScaledTimeCPU p 0 last curr;
    then_ ← memScaledTimeCPU p 0 last next;
    let extra := F64.add extra_cpu (F64.sub then_ now) in
    _ ← assert_nonneg extra;
    Ok (extra, extra_ip)
  else
    i ← getIPInstance p ip 0;
    now ← memScaledTime p ip (getMaxBandwidth curr) (dvfsState (ip_base i));
    then_ ← memScaledTime p ip (getMaxBandwidth next) (dvfsState (ip_base i));
    let extra := F64.add extra_ip (F64.sub then_ now) in
    _ ← assert_nonneg extra;
    Ok (extra_cpu, extra).

(** The first of [n] states from [i] up whose energy is worth the memory's:
    [est] gives the energy and the time of a step to a state. *)
Fixpoint find_step (est : Z -> Res (spec_float * spec_float)) (saving extra : spec_float) (n : nat) (i : Z)
  : Res (option Z) :=
  match n with
  | O => Ok None
  | S n' =>
      '(diffEnergy, diffTime) ← est i;
      if F64.ltb diffTime zero then Err (AssertFail "0")
      else if F64.ltb saving diffEnergy then Ok None
      else if F64.ltb extra diffTime && F64.ltb diffEnergy saving then Ok (Some i)
      else find_step est saving extra n' (i + 1)
  end.

Definition core_step_estimate (p : GemDroid) (c : Core.GemDroidCore) (currTime : spec_float) (i : Z)
  : Res (spec_float * spec_float) :=
  freq ← Core.getCoreFreq_at i;
  time ← at_ip (lastTimeTook p) IP_TYPE_CPU;
  power ← at_ip (lastPowerTook p) IP_TYPE_CPU;
  energy ← at_ip (lastEnergyTook p) IP_TYPE_CPU;
  lastFreq ← at_ip (lastFrequency p) IP_TYPE_CPU;
  nextEnergy ← Core.getEnergyEst c time power freq;
  Ok (F64.sub nextEnergy energy, F64.sub currTime (Core.getTimeEst currTime lastFreq freq)).

Definition ip_step_estimate (p : GemDroid) (type : Z) (ip : GemDroidIP) (currTime : spec_float) (i : Z)
  : Res (spec_float * spec_float) :=
  freq ← getIPFreq_at ip i;
  time ← at_ip (lastTimeTook p) type;
  power ← at_ip (lastPowerTook p) type;
  energy ← at_ip (lastEnergyTook p) type;
  lastFreq ← at_ip (lastFrequency p) type;
  nextEnergy ← getEnergyEst ip time power freq;
  Ok (F64.sub nextEnergy energy, F64.sub currTime (getTimeEst currTime lastFreq freq)).

Definition slower_memory (p : GemDroid) : GemDroid := upd_memory (decMemFreq 1) p.

(** The part with the smallest figure goes up, for the memory to go down one
    step; the flag says that it did. *)
Definition knapsack_trade (figures : list spec_float) (last saving extra : spec_float) (p : GemDroid)
  : Res (bool * GemDroid) :=
  let ind := findMin figures in
  if bool_decide (ind = IP_TYPE_CPU) then
    c ← get_core p (dvfs_core p);
    currTime ← memScaledTimeCPU p 0 last (getMemFreq p);
    let first := Core.dvfsState c + 1 in
    found ← find_step (core_step_estimate p c currTime) saving extra (Z.to_nat (CORE_DVFS_STATES - first)) first;
    match found with
    | Some i => p ← on_core (Core.setCoreFreqInd i) (dvfs_core p) (slower_memory p); Ok (true, p)
    | None => Ok (false, p)
    end
  else if bool_decide (ind <> -99999) then
    i ← getIPInstance p ind 0;
    let ip := ip_base i in
    currTime ← memScaledTime p ind (getMaxBandwidth (getMemFreq p)) (dvfsState ip);
    let first := dvfsState ip + 1 in
    found ← find_step (ip_step_estimate p ind ip currTime) saving extra (Z.to_nat (IP_DVFS_STATES - first)) first;
    match found with
    | Some k => p ← on_ip (setIPFreqInd k) ind 0 (slower_memory p); Ok (true, p)
    | None => Ok (false, p)
    end
  else Ok (false, p).

Fixpoint knapsack_loop (fuel : nat) (figures : list spec_float) (last slack : spec_float) (p : GemDroid) : Res GemDroid :=
  match fuel with
  | O => Err OutOfFuel
  | S fuel' =>
      let curr := getMemFreq p in
      if F64.ltb (F64.add MIN_MEM_FREQ EPSILON) curr then
        let p := read_power p in
        let next := F64.sub curr tenth in
        let saving := F64.sub (memory_energy last (frame_memory_energy p) curr)
                              (memory_energy last (frame_memory_energy p) next) in
        '(extra_cpu, extra_ip) ← first_flow (extra_time p last curr next) p (zero, zero);
        '(reduced, p) ← knapsack_trade figures last saving (F64.sub (F64.add extra_cpu extra_ip) slack) p;
        if (reduced : bool) then knapsack_loop fuel' figures last slack p else Ok p
      else Ok p
  end.

Definition dvfsGreedyKnapsack (slack : spec_float) (p : GemDroid) : Res GemDroid :=
  figures ← energy_per_time p;
  let last := getMemFreq p in
  if F64.ltb slack zero then
    '(slack, p) ← drain_min drain_fuel figures slack p;
    if F64.ltb slack zero then '(_, _, p) ← dvfsMemory slack p; Ok p else Ok p
  else
    '(_, slack, p) ← dvfsMemory slack p;
    if F64.ltb (SFabs (F64.sub (getMemFreq p) MIN_MEM_FREQ)) EPSILON && F64.ltb zero slack
    then drain_max drain_fuel zero figures slack p
    else knapsack_loop memory_fuel figures last slack p.

(** ** CoScale *)

(** The frequencies tried, those chosen, and the highest memory frequency any
    part of the flow asked for. *)
Record CoScale := mkCoScale {
  cs_mem : spec_float;
  cs_mem_freq : spec_float;
  cs_max : spec_float;
  cs_platform : GemDroid
}.

Definition below (a b : spec_float) : bool := F64.ltb (SFabs (F64.sub a b)) EPSILON.

(** What a step of the memory, or of the part, would cost and save: estimates
    of energy and time of the memory at a frequency, and of the part at a
    state given that time. *)
Record Estimates := mkEstimates {
  es_min_time : spec_float;
  es_last_memory_energy : spec_float;
  es_last_energy : spec_float;
  es_memory_energy : spec_float -> spec_float;
  es_memory_time : spec_float -> Res spec_float;
  es_part : spec_float -> Z -> Res (spec_float * spec_float)
}.

(** One part against the memory: [mem] and [state] are what is tried, and
    [mem_freq] and [chosen] what fits. *)
Fixpoint coscale_loop (fuel : nat) (es : Estimates) (limit : spec_float) (lowest : Z) (mem : spec_float) (state : Z)
    (mem_freq : spec_float) (chosen : Z) : Res (spec_float * spec_float * Z) :=
  match fuel with
  | O => Err OutOfFuel
  | S fuel' =>
      let lower := apart mem MIN_MEM_FREQ in
      let mem := if lower then F64.sub mem tenth else mem in
      memory_time ← (if lower then es_memory_time es mem else Ok (es_min_time es));
      let mem_energy := if lower then es_memory_energy es mem else es_last_memory_energy es in
      if negb (bool_decide (state > lowest)) && below mem MIN_MEM_FREQ then Ok (mem, mem_freq, chosen)
      else
        let state' := if bool_decide (state > lowest) then state - 1 else state in
        '(time, energy) ← (if bool_decide (state > lowest) then es_part es memory_time state'
                           else Ok (es_min_time es, es_last_energy es));
        let memory_fits := F64.ltb memory_time limit in
        let part_fits := F64.ltb time limit in
        let memory_first := F64.ltb (F64.sub (es_last_energy es) energy)
                                    (F64.sub (es_last_memory_energy es) mem_energy) in
        if (if memory_first then memory_fits else memory_fits && negb part_fits)
        then coscale_loop fuel' es limit lowest mem state' mem chosen
        else if part_fits then coscale_loop fuel' es limit lowest mem state' mem_freq state'
        else Ok (mem, mem_freq, chosen)
  end.

Definition coscale_fuel : nat := 32.

Definition raise_memory (mem_freq : spec_float) : spec_float :=
  if F64.ltb mem_freq MAX_MEM_FREQ then F64.add mem_freq tenth else mem_freq.

Definition keep_max (mem mem_freq : spec_float) (p : GemDroid) (cs : CoScale) : CoScale :=
  mkCoScale mem mem_freq (if F64.ltb (cs_max cs) mem_freq then mem_freq else cs_max cs) p.

Definition isPStateActive (c : Core.GemDroidCore) : bool :=
  match Core.cpu_pstate c with Core.CPU_PSTATE_ACTIVE => true | _ => false end.

(** The core: [cpu_freq] and [cpu] both start from its state. *)
Definition coscale_core (cs : CoScale) : Res CoScale :=
  let p := cs_platform cs in
  c ← get_core p 0;
  if negb (isPStateActive c) then Ok cs
  else
    let p := read_power p in
    last ← at_ip (lastTimeTook p) IP_TYPE_CPU;
    lastEnergy ← at_ip (lastEnergyTook p) IP_TYPE_CPU;
    lastPower ← at_ip (lastPowerTook p) IP_TYPE_CPU;
    lastFreq ← at_ip (lastFrequency p) IP_TYPE_CPU;
    let memFreq := getMemFreq p in
    baseTime ← memScaledTimeCPU p 0 memFreq MAX_MEM_FREQ;
    freq ← Core.getCoreFreq c;
    maxFreq ← Core.getCoreFreq_at (CORE_DVFS_STATES - 1);
    let min_time := Core.getTimeEst baseTime freq maxFreq in
    let state := Core.dvfsState c in
    let es := mkEstimates min_time (frame_memory_energy p) lastEnergy
                (memory_energy memFreq (frame_memory_energy p))
                (memScaledTimeCPU p 0 memFreq)
                (fun time k => f ← Core.getCoreFreq_at k;
                               energy ← Core.getEnergyEst c time lastPower f;
                               Ok (Core.getTimeEst time lastFreq f, energy)) in
    '(mem, mem_freq, chosen) ←
      (if F64.ltb (F64.mul (sweep_val2 p) min_time) last
       then Ok (cs_mem cs, raise_memory (cs_mem_freq cs),
                if bool_decide (state < CORE_DVFS_STATES - 1) then state + 1 else state)
       else coscale_loop coscale_fuel es (F64.mul min_time (sweep_val1 p)) (Core.optDVFSState c)
              (cs_mem cs) state (cs_mem_freq cs) state);
    p ← on_core (Core.setCoreFreqInd chosen) 0 p;
    Ok (keep_max mem mem_freq p cs).

(** An accelerator: the chosen state starts from 0, not from its state. *)
Definition coscale_accelerator (type : Z) (cs : CoScale) : Res CoScale :=
  let p := cs_platform cs in
  i ← getIPInstance p type 0;
  let ip := ip_base i in
  if negb (bool_decide (power_state ip = ip_active)) then Ok cs
  else
    let p := read_power p in
    last ← at_ip (lastTimeTook p) type;
    lastEnergy ← at_ip (lastEnergyTook p) type;
    lastPower ← at_ip (lastPowerTook p) type;
    lastFreq ← at_ip (lastFrequency p) type;
    let state := dvfsState ip in
    baseTime ← memScaledTime p type (getMaxBandwidth MAX_MEM_FREQ) state;
    freq ← getIPFreq ip;
    maxFreq ← getIPFreq_at ip (IP_DVFS_STATES - 1);
    let min_time := getTimeEst baseTime freq maxFreq in
    let es := mkEstimates min_time (frame_memory_energy p) lastEnergy
                (memory_energy (getMemFreq p) (frame_memory_energy p))
                (fun mem =>
                   time ← memScaledTime p type (getMaxBandwidth mem) state;
                   Ok (if F64.ltb mem (lastMemFreq p)
                       then F64.add time (F64.mul (F64.mul time (F64.lit 10 100)) (F64.sub (lastMemFreq p) mem))
                       else time))
                (fun time k => f ← getIPFreq_at ip k;
                               energy ← getEnergyEst ip time lastPower f;
                               Ok (getTimeEst time lastFreq f, energy)) in
    '(mem, mem_freq, chosen) ←
      (if F64.ltb (F64.mul (sweep_val2 p) min_time) last then Ok (cs_mem cs, raise_memory (cs_mem_freq cs), 1)
       else coscale_loop coscale_fuel es (F64.mul min_time (sweep_val1 p)) (m_optDVFSState ip)
              (cs_mem cs) state (cs_mem_freq cs) 0);
    p ← on_ip (setIPFreqInd chosen) type 0 p;
    Ok (keep_max mem mem_freq p cs).

(** A device: only the memory can go down. *)
Fixpoint coscale_device_loop (fuel : nat) (time_of : spec_float -> Res spec_float) (limit mem mem_freq : spec_float)
  : Res (spec_float * spec_float) :=
  match fuel with
  | O => Err OutOfFuel
  | S fuel' =>
      if apart mem MIN_MEM_FREQ then
        let mem := F64.sub mem tenth in
        time ← time_of mem;
        if F64.ltb time limit then coscale_device_loop fuel' time_of limit mem mem else Ok (mem, mem_freq)
      else Ok (mem, mem_freq)
  end.

Definition coscale_device (type : Z) (cs : CoScale) : Res CoScale :=
  let p := cs_platform cs in
  i ← getIPInstance p type 0;
  let ip := ip_base i in
  if negb (bool_decide (power_state ip = ip_active)) then Ok cs
  else
    let p := read_power p in
    last ← at_ip (lastTimeTook p) type;
    min_time ← memScaledTime p type (getMaxBandwidth MAX_MEM_FREQ) (dvfsState ip);
    '(mem, mem_freq) ←
      (if F64.ltb (F64.mul (sweep_val2 p) min_time) last then Ok (cs_mem cs, raise_memory (cs_mem_freq cs))
       else coscale_device_loop coscale_fuel (fun mem => memScaledTime p type (getMaxBandwidth mem) (dvfsState ip))
              (F64.mul min_time (sweep_val1 p)) (cs_mem cs) (cs_mem_freq cs));
    Ok (keep_max mem mem_freq p cs).

Definition coscale_step (ip : Z) (cs : CoScale) : Res CoScale :=
  last ← at_ip (lastTimeTook (cs_platform cs)) ip;
  if negb (F64.ltb zero last) then Ok cs
  else if bool_decide (ip = IP_TYPE_CPU) then coscale_core cs
  else if bool_decide (ip >= IP_TYPE_VD) then coscale_accelerator ip cs
  else coscale_device ip cs.

Definition dvfsCoScaleNewNew (p : GemDroid) : Res GemDroid :=
  cs ← first_flow coscale_step p (mkCoScale (getMemFreq p) (getMemFreq p) zero p);
  if F64.eqb (cs_max cs) zero then Ok (cs_platform cs) else set_mem_freq (cs_max cs) (cs_platform cs).

(** ** Dynamic programming: every combination of frequencies

    The cheapest plan that meets the deadline. The power of the memory is read
    once, which gives the same as a reading in each turn of its loop, see
    [MemStats.powerIn1ms_again]. *)

Record Plan := mkPlan { pl_energy : spec_float; pl_mem : spec_float; pl_cpu : Z; pl_ip : Z }.

Definition deadline : spec_float := F64.of_Z FPS_DEADLINE.

(** The states of the accelerator, from [k] down: [est] gives the time and the
    energy, [time0] and [energy0] are those of the other parts. *)
Fixpoint try_ip_states (better : spec_float -> spec_float -> bool) (est : Z -> Res (spec_float * spec_float))
    (time0 energy0 mem : spec_float) (cpu : Z) (n : nat) (k : Z) (best : Plan) : Res Plan :=
  match n with
  | O => Ok best
  | S n' =>
      '(ip_time, ip_energy) ← est k;
      let energy := F64.add energy0 ip_energy in
      if F64.ltb deadline (F64.add time0 ip_time) then Ok best
      else
        try_ip_states better est time0 energy0 mem cpu n' (k - 1)
          (if better energy (pl_energy best) then mkPlan energy mem cpu k else best)
  end.

(** The states of the core, from [k] down; [inner] tries the accelerator's. *)
Fixpoint try_cpu_states (est : Z -> Res (spec_float * spec_float)) (dev_time : spec_float)
    (inner : Z -> spec_float -> spec_float -> Plan -> Res Plan) (n : nat) (k : Z) (best : Plan) : Res Plan :=
  match n with
  | O => Ok best
  | S n' =>
      '(cpu_time, cpu_energy) ← est k;
      if F64.ltb deadline (F64.add cpu_time dev_time) then Ok best
      else best ← inner k cpu_time cpu_energy best; try_cpu_states est dev_time inner n' (k - 1) best
  end.

(** The frequencies of the memory, from [mem] down; [inner] stops the loop
    when the devices alone miss the deadline. *)
Fixpoint try_mem (fuel : nat) (inner : spec_float -> Plan -> Res (bool * Plan)) (min_mem mem : spec_float) (best : Plan)
  : Res Plan :=
  match fuel with
  | O => Err OutOfFuel
  | S fuel' =>
      if F64.leb min_mem mem then
        '(go, best) ← inner mem best;
        if (go : bool) then try_mem fuel' inner min_mem (F64.sub mem tenth) best else Ok best
      else Ok best
  end.

Definition ip_estimate (p : GemDroid) (type : Z) (ip : GemDroidIP) (base_time : spec_float) (k : Z)
  : Res (spec_float * spec_float) :=
  lastFreq ← at_ip (lastFrequency p) type;
  lastPower ← at_ip (lastPowerTook p) type;
  f ← getIPFreq_at ip k;
  energy ← getEnergyEst ip base_time lastPower f;
  Ok (getTimeEst base_time lastFreq f, energy).

Definition cpu_estimate (p : GemDroid) (c : Core.GemDroidCore) (base_time : spec_float) (k : Z)
  : Res (spec_float * spec_float) :=
  lastFreq ← at_ip (lastFrequency p) IP_TYPE_CPU;
  lastPower ← at_ip (lastPowerTook p) IP_TYPE_CPU;
  f ← Core.getCoreFreq_at k;
  energy ← Core.getEnergyEst c base_time lastPower f;
  Ok (Core.getTimeEst base_time lastFreq f, energy).

(** The accelerator's time at a memory frequency, worse below the one the last
    frame had. *)
Definition ip_time_at (p : GemDroid) (type : Z) (ip : GemDroidIP) (mem : spec_float) : Res spec_float :=
  time ← memScaledTime p type (getMaxBandwidth mem) (dvfsState ip);
  Ok (if F64.ltb mem (lastMemFreq p)
      then F64.add time (F64.mul (F64.mul time tenth) (F64.sub (lastMemFreq p) mem))
      else time).

(** Time and energy of the devices, with the display's state for all. *)
Definition device_costs (p : GemDroid) (mem : spec_float) (devs : list Z) (num_devs : Z) : Res (spec_float * spec_float) :=
  foldM (fun st i =>
      type ← of_option (zget devs i);
      dc ← getIPInstance p IP_TYPE_DC 0;
      time ← memScaledTime p type (getMaxBandwidth mem) (dvfsState (ip_base dc));
      energy ← at_ip (lastEnergyTook p) type;
      Ok (F64.add st.1 time, F64.add st.2 energy))
    (zero, zero) (zrange num_devs).

(** What is printed first reads the times of two devices. *)
Definition print_times (p : GemDroid) (devs : list Z) : Res unit :=
  dev0 ← of_option (zget devs 0);
  dev1 ← of_option (zget devs 1);
  _ ← at_ip (lastTimeTook p) dev0;
  _ ← at_ip (lastTimeTook p) dev1;
  Ok tt.

(** States tried: from the highest down to two below the one it has. *)
Definition states_tried (highest current : Z) : nat := Z.to_nat (highest - (current - 2) + 1).

Definition dvfsDynamicProg1 (accs : list Z) (devs : list Z) (num_devs : Z) (p : GemDroid) : Res GemDroid :=
  type ← of_option (zget accs 0);
  i ← getIPInstance p type 0;
  let ip := ip_base i in
  _ ← print_times p devs;
  last ← at_ip (lastTimeTook p) type;
  if F64.eqb last zero then Ok p
  else
    let p := read_power p in
    best ← try_mem memory_fuel (fun mem best =>
        '(dev_time, dev_energy) ← device_costs p mem devs num_devs;
        if F64.ltb deadline dev_time then Ok (false, best)
        else
          base_time ← ip_time_at p type ip mem;
          best ← try_ip_states F64.leb (ip_estimate p type ip base_time) dev_time
                   (F64.add (memory_energy (getMemFreq p) (frame_memory_energy p) mem) dev_energy) mem 0
                   (states_tried (IP_DVFS_STATES - 1) (dvfsState ip)) (IP_DVFS_STATES - 1) best;
          Ok (true, best))
      (F64.add MIN_MEM_FREQ (F64.lit 3 10)) MAX_MEM_FREQ
      (mkPlan (F64.of_Z 9999) MAX_MEM_FREQ 0 (IP_DVFS_STATES - 1));
    app ← of_option (zget (app_id p) 0);
    let game := bool_decide (app = APP_ID_ANGRYBIRDS) || bool_decide (app = APP_ID_MPGAME) in
    let mem := if game then F64.lit 5 10 else pl_mem best in
    let ind := if game then F32.trunc (F64.lit 3 10) else pl_ip best in
    p ← set_mem_freq mem p;
    on_ip (setIPFreqInd ind) type 0 p.

Definition dvfsDynamicProg2 (accs : list Z) (devs : list Z) (num_devs : Z) (p : GemDroid) : Res GemDroid :=
  type ← of_option (zget accs 1);
  i ← getIPInstance p type 0;
  let ip := ip_base i in
  c ← get_core p 0;
  _ ← print_times p devs;
  last ← at_ip (lastTimeTook p) type;
  lastCpu ← at_ip (lastTimeTook p) IP_TYPE_CPU;
  if F64.eqb last zero || F64.eqb lastCpu zero then Ok p
  else
    let p := read_power p in
    best ← try_mem memory_fuel (fun mem best =>
        '(dev_time, dev_energy) ← device_costs p mem devs num_devs;
        if F64.ltb deadline dev_time then Ok (false, best)
        else
          cpu_base_time ← memScaledTimeCPU p 0 (getMemFreq p) mem;
          best ← try_cpu_states (cpu_estimate p c cpu_base_time) dev_time
                   (fun cpu cpu_time cpu_energy best =>
                      base_time ← ip_time_at p type ip mem;
                      try_ip_states F64.ltb (ip_estimate p type ip base_time) (F64.add dev_time cpu_time)
                        (F64.add (F64.add (memory_energy (getMemFreq p) (frame_memory_energy p) mem) dev_energy) cpu_energy)
                        mem cpu (states_tried (IP_DVFS_STATES - 1) (dvfsState ip)) (IP_DVFS_STATES - 1) best)
                   (states_tried (CORE_DVFS_STATES - 1) (Core.dvfsState c)) (CORE_DVFS_STATES - 1) best;
          Ok (true, best))
      MIN_MEM_FREQ MAX_MEM_FREQ
      (mkPlan (F64.of_Z 9999) MAX_MEM_FREQ (CORE_DVFS_STATES - 1) (IP_DVFS_STATES - 1));
    p ← set_mem_freq (pl_mem best) p;
    p ← on_core (Core.setCoreFreqInd (pl_cpu best)) 0 p;
    on_ip (setIPFreqInd (pl_ip best)) type 0 p.

Definition dvfsDynamicProg (p : GemDroid) : Res GemDroid :=
  '(accs, num_accs) ← getIPAccsInFlow (flowTable p) (app_id p) 0 0;
  '(devs, num_devs) ← getIPDevsInFlow (flowTable p) (app_id p) 0 0;
  if bool_decide (num_accs = 1) then dvfsDynamicProg1 accs devs num_devs p
  else if bool_decide (num_accs = 2) then dvfsDynamicProg2 accs devs num_devs p
  else Err (AssertFail "0").

(** ** The choice of the governor *)

Definition run_governor (slack : spec_float) (p : GemDroid) : Res GemDroid :=
  let g := governor p in
  if bool_decide (g = GOVERNOR_TYPE_SLACK) then dvfsFixedPriority slack p
  else if bool_decide (g = GOVERNOR_TYPE_CORE_ORACLE) then dvfsCoreOracle slack p
  else if bool_decide (g = GOVERNOR_TYPE_SLACK_FAR_ENERGY) then dvfsParetoEfficient slack p
  else if bool_decide (g = GOVERNOR_TYPE_SLACK_MAXENERGY_CONSUMER) then dvfsMaxEnergyConsumer slack p
  else if bool_decide (g = GOVERNOR_TYPE_SLACK_MAXPOWER_CONSUMER) then dvfsMaxPowerConsumer slack p
  else if bool_decide (g = GOVERNOR_TYPE_SLACK_MAXENERGYPERTIME_CONSUMER) then dvfsMaxEnergyPerTimeConsumer slack p
  else if bool_decide (g = GOVERNOR_TYPE_SLACK_KNAPSACK) then dvfsGreedyKnapsack slack p
  else if bool_decide (g = GOVERNOR_TYPE_COSCALE) then dvfsCoScaleNewNew p
  else if bool_decide (g = GOVERNOR_TYPE_MEMSCALE) then dvfsMemScale slack p
  else dvfsDynamicProg p.

(** The governors that wait for a frame when the timing says so. *)
Definition by_frame (g : Z) : bool :=
  bool_decide (g ∈ [GOVERNOR_TYPE_SLACK; GOVERNOR_TYPE_CORE_ORACLE; GOVERNOR_TYPE_SLACK_FAR_ENERGY;
                    GOVERNOR_TYPE_SLACK_MAXENERGY_CONSUMER; GOVERNOR_TYPE_SLACK_MAXPOWER_CONSUMER;
                    GOVERNOR_TYPE_SLACK_MAXENERGYPERTIME_CONSUMER; GOVERNOR_TYPE_SLACK_KNAPSACK;
                    GOVERNOR_TYPE_COSCALE; GOVERNOR_TYPE_MEMSCALE; GOVERNOR_TYPE_DYNAMICPROG]).

Definition updateDVFS (p : GemDroid) : Res GemDroid :=
  if negb (enableDVFS p) then Err (AssertFail "enableDVFS")
  else
    let p := p <| dvfs_core := 0 |> in
    app ← of_option (zget (app_id p) 0);
    slack ← getLastSlack p app 0;
    if F64.eqb slack deadline then Ok p
    else
      let at_frame := if bool_decide (governor_timing p = GOVERNOR_TIMING_FRAME_BOUNDARIES) then doSlackDVFS p else true in
      p ← for_cores (on_core (fun c => Ok (Core.updateDVFS (governor p) c))) p;
      p ← for_ips IP_TYPE_DC IP_TYPE_DMA (on_ip (fun ip => Ok (IP_updateDVFS ip))) p;
      let g := governor p in
      if bool_decide (g = GOVERNOR_TYPE_PERFORMANCE) || bool_decide (g = GOVERNOR_TYPE_POWERSAVE)
         || bool_decide (g = GOVERNOR_TYPE_OPTIMAL) then Ok p
      else if by_frame g then if at_frame then run_governor slack p else Ok p
      else dvfsLoadBased p.

End Governors.
