(* ===== verification/GemTick.v ===== *)
(** * The clock of the platform ([gemdroid.cc:tick])

    One cycle of 10 GHz: the periodic work when its period has passed, then
    the cores, the IPs, and the agent with the memory, each when its own clock
    has an edge. The first argument [uninit] is what the decoders' unassigned
    [is_success] holds. *)

From S2P Require Import Prelude.
From S2P Require Import DramConfig.
From S2P Require Import GemDefines.
From S2P Require Import Flows.
From S2P Require Import SystemAgent.
From S2P Require Import GemMemory.
From S2P Require Import MemStats.
From S2P Require Import Uncore.
From S2P Require Import Ip.
From S2P Require Import Coders.
From S2P Require Import Gpu.
From S2P Require Import Cores.
From S2P Require Import Platform.
From S2P Require Import Governors.

Module GemTick.
Import Platform.Platform.

Definition APP_ID_YOUTUBE : Z := 0.
Definition APP_ID_PHOTOCAPTURE : Z := 2.
Definition APP_ID_AUDIOPLAY : Z := 3.
Definition APP_ID_GALLERY : Z := 5.
Definition APP_ID_AUDIORECORD : Z := 6.
Definition APP_ID_VIDPLAYER : Z := 7.
Definition APP_ID_OTHER : Z := 12.

Definition has2ndFlow (app : Z) : bool :=
  negb (bool_decide (app ∈ [APP_ID_YOUTUBE; APP_ID_PHOTOCAPTURE; APP_ID_AUDIOPLAY; APP_ID_GALLERY;
                            APP_ID_AUDIORECORD; APP_ID_VIDPLAYER; APP_ID_OTHER])).

(** [if (ticks - last >= period)] *)
Definition due (p : GemDroid) (last period : Z) : bool := bool_decide (ticks p - last >= period).

(** [v[i] = 0] for each index. *)
Definition clear_at (v : list Z) (idx : list Z) : list Z := foldl (fun v i => zalter (fun _ => 0) v i) v idx.

(** [GemDroid::printPeriodicStats]: of what is not only printed, the agent's
    sum of its queue's sizes. *)
Definition printPeriodicStats (p : GemDroid) : GemDroid :=
  upd_sa (fun sa => sa <| SystemAgent.totalQueueSize := 0 |>) p.

(** Each millisecond. *)
Definition periodic_stats (p : GemDroid) : Res GemDroid :=
  if due p (periodicStatsLastTick p) PERIODIC_STATS then
    let p := if isPrintPeriodicStats p then printPeriodicStats p else p in
    '(ms, m) ← MemStats.printPeriodicStats (mem_stats p) (gemdroid_memory p);
    let p := upd_memory (fun _ => m) (p <| mem_stats := ms |>) in
    Ok (p <| m_totalMilliSecs ::= Z.succ |>
          <| uncore ::= fun u => u <| appMemReqs ::= fun v => clear_at v (zrange (num_cpus p)) |> |>
          <| periodicStatsLastTick := ticks p |>)
  else Ok p.

(** Each microsecond. *)
Definition periodic_power (p : GemDroid) : Res GemDroid :=
  if due p (powerCalcLastTick p) MICROSEC
  then p ← powerCalculator1us p; Ok (p <| powerCalcLastTick := ticks p |>)
  else Ok p.

(** Each 16 milliseconds: was a frame missed? The slack of the second flow is
    for the printing. *)
Definition periodic_slack (p : GemDroid) : Res GemDroid :=
  if due p (slackLastTick p) (16 * MILLISEC) then
    app ← of_option (zget (app_id p) 0);
    slack ← getLastSlack p app 0;
    _ ← (if has2ndFlow app then getLastSlack p app 1 else Ok slack);
    let missed := F64.ltb slack (F64.of_Z (- FPS_DEADLINE_SAFETYNET)) in
    Ok (p <| framesToBeShown ::= Z.succ |>
          <| framesMissed ::= fun n => if missed then n + 1 else n |>
          <| slackLastTick := ticks p |>)
  else Ok p.

(** Each period of the governor. *)
Definition periodic_dvfs (p : GemDroid) : Res GemDroid :=
  if enableDVFS p && due p (dvfsLastTick p) (dvfsPeriod p) then
    p ← Governors.updateDVFS p;
    p ← set_multipliers p;
    Ok (p <| uncore ::= fun u => u <| ipMemReqs ::= fun v => clear_at v (ip_types IP_TYPE_CPU (IP_TYPE_GPU + 1)) |> |>
          <| dvfsLastTick := ticks p |>)
  else Ok p.

(** ** The clocks of the parts *)

Definition clock_core (i : Z) (p : GemDroid) : Res GemDroid :=
  last ← of_option (zget (cpuLastTick p) i);
  period ← of_option (zget (cpuFreqMultipliers p) i);
  if due p last period
  then p ← tick_core i p; Ok (p <| cpuLastTick ::= fun l => zalter (fun _ => ticks p) l i |>)
  else Ok p.

(** An edge of the clock of an IP, and the work done at it. *)
Definition clock_ip_with (work : GemDroid -> Res GemDroid) (type id : Z) (p : GemDroid) : Res GemDroid :=
  last ← of_option (zget2 (ipLastTick p) type id);
  period ← of_option (zget2 (ipFreqMultipliers p) type id);
  if due p last period
  then p ← work p; Ok (p <| ipLastTick ::= fun l => zalter2 (fun _ => ticks p) l type id |>)
  else Ok p.

Definition clock_ip (uninit : process_event) (type id : Z) : GemDroid -> Res GemDroid :=
  clock_ip_with (tickIP uninit type id) type id.

(** The GPU, and the display it calls, which follows the GPU's clock. *)
Definition clock_gpu (uninit : process_event) (p : GemDroid) : Res GemDroid :=
  enabled ← gpu_enabled p;
  if (enabled : bool)
  then clock_ip_with (fun p => p ← tickIP uninit IP_TYPE_GPU 0 p; tickIP uninit IP_TYPE_DC (num_ip_inst p) p)
         IP_TYPE_GPU 0 p
  else Ok p.

Definition clock_memory (p : GemDroid) : Res GemDroid :=
  if due p (memLastTick p) (memFreqMultiplier p)
  then p ← tick_uncore p; Ok (p <| memLastTick := ticks p |>)
  else Ok p.

Definition tick (uninit : process_event) (p : GemDroid) : Res GemDroid :=
  let p := p <| ticks ::= Z.succ |> in
  p ← periodic_stats p;
  p ← periodic_power p;
  p ← periodic_slack p;
  p ← periodic_dvfs p;
  p ← for_cores clock_core p;
  p ← for_ips IP_TYPE_DC IP_TYPE_GPU (clock_ip uninit) p;
  p ← clock_gpu uninit p;
  clock_memory p.

(** [n] cycles, and what they did so far. *)
Fixpoint run (uninit : process_event) (n : nat) (p : GemDroid) : Res GemDroid :=
  match n with
  | O => Ok p
  | S n' => p ← tick uninit p; run uninit n' p
  end.

End GemTick.
