(* ===== verification/GemBuild.v ===== *)
(** * The construction of the platform ([gemdroid.cc]: the constructor,
    [initDVFS], [loadIPChars], [getAppIdWithName])

    What the parameters of the simulation and the input files say is collected
    in two records. The object is built in the storage [p0]: the members that
    the constructor does not assign keep what it held. *)

From S2P Require Import Prelude.
From S2P Require Import DramConfig.
From S2P Require Import GemDefines.
From S2P Require Import MultiChannel.
From S2P Require Import Flows.
From S2P Require Import SystemAgent.
From S2P Require Import GemMemory.
From S2P Require Import MemStats.
From S2P Require Import Uncore.
From S2P Require Import Ip.
From S2P Require Import Coders.
From S2P Require Import TraceFile.
From S2P Require Import Gpu.
From S2P Require Import Cores.
From S2P Require Import Platform.
From S2P Require Import Governors.

Module GemBuild.
Import Platform.Platform.

Definition DC_PROCESSING_TIME : Z := 1.
Definition NW_PROCESSING_TIME : Z := 1.
Definition SND_PROCESSING_TIME : Z := 1.
Definition MIC_PROCESSING_TIME : Z := 1.
Definition CAM_PROCESSING_TIME : Z := 1.
Definition MMC_PROCESSING_TIME : Z := 10.
Definition VD_PROCESSING_TIME : Z := 12.
Definition VE_PROCESSING_TIME : Z := 18.
Definition AD_PROCESSING_TIME : Z := 12.
Definition AE_PROCESSING_TIME : Z := 8.
Definition IMG_PROCESSING_TIME : Z := 16.

(** ** Parameters and files

    [GemDroid.py]; the frequencies are in MHz. [par_memory] are those of the
    memory: the globals of its ini files, the clock period, its size. *)

Record MemoryParams := mkMemoryParams { mp_ini : Cfg; mp_vdd : spec_float; mp_period : spec_float; mp_sizeMB : Z }.

Record Params := mkParams {
  enable_gemdroid : bool;
  num_cpu_traces : Z;
  par_governor : Z;
  par_governor_timing : Z;
  core_freq : Z;
  issue_width : Z;
  par_mem_freq : Z;
  dev_freq : Z;
  ip_freq : Z;
  num_ip_instances : Z;
  cpu_traces : list string;
  gpu_trace : string;
  perfect_memory : bool;
  no_periodic_stats : bool;
  par_sweep_val1 : spec_float;
  par_sweep_val2 : spec_float;
  par_memory : MemoryParams
}.

(** [ipchars.txt] as the numbers it has for each type and state (times, then
    energies), when it can be opened; [flows.txt] as the integers of its
    lines; the traces when they can be opened. *)
Record Files := mkFiles {
  ipchars : option ((Z -> Z -> spec_float) * (Z -> Z -> spec_float));
  flow_lines : list (list Z);
  core_trace : Z -> option (list Token);
  gpu_stream : option Stream
}.

(** ** Names of the applications *)

Definition mentions (part name : string) : bool := match String.index 0 part name with Some _ => true | None => false end.

(** The names looked for, in their order, and the identifiers. *)
Definition app_names : list (string * Z) :=
  [("youtube", 0); ("video-record", 1); ("photo-capture", 2); ("audio-play", 3); ("argame", 4); ("gallery", 5);
   ("audio-record", 6); ("video-play", 7); ("angrybirds", 8); ("skype", 9); ("facebook", 10); ("mpgame", 11)]%string.

Fixpoint first_named (names : list (string * Z)) (name : string) : Z :=
  match names with
  | [] => 12
  | (part, app) :: names' => if mentions part name then app else first_named names' name
  end.

Definition getAppIdWithName (name : string) : Z := first_named app_names name.

(** ** [loadIPChars] *)

(** The types the file has rows for. *)
Definition char_types : list Z :=
  filter (fun i => i <> IP_TYPE_AD /\ i <> IP_TYPE_AE) (ip_types IP_TYPE_VD (IP_TYPE_GPU + 1)).

Definition fill_table (numbers : Z -> Z -> spec_float) (table : list (list spec_float)) : list (list spec_float) :=
  foldl (fun t i => foldl (fun t j => zalter2 (fun _ => numbers i j) t i j) t (zrange IP_DVFS_STATES)) table char_types.

Definition set_all {A} (l : list A) (entries : list (Z * A)) : list A :=
  foldl (fun l e => zalter (fun _ => e.2) l e.1) l entries.

Definition optimal_freqs_table : list Z :=
  set_all (replicate (Z.to_nat IP_TYPE_END) 1)
    [(IP_TYPE_CPU, 6); (IP_TYPE_VD, 1); (IP_TYPE_VE, 2); (IP_TYPE_AD, 1); (IP_TYPE_AE, 2); (IP_TYPE_IMG, 2);
     (IP_TYPE_GPU, 1)].

Definition time_coeffs : list spec_float :=
  [SFopp (F64.lit 115 10000); F64.lit 3574 10000; SFopp (F64.lit 38969 10000); F64.lit 18473 1000].

Definition energy_at (table : list (list spec_float)) (type freq_of : Z) : Res (Z * spec_float) :=
  f ← of_option (zget optimal_freqs_table freq_of);
  e ← of_option (zget2 table type f);
  Ok (type, e).

(** The row of AE is read at the state of IMG; the rows of AD and AE are not
    in the file. *)
Definition optimal_energies (table : list (list spec_float)) : Res (list (Z * spec_float)) :=
  vd ← energy_at table IP_TYPE_VD IP_TYPE_VD;
  ve ← energy_at table IP_TYPE_VE IP_TYPE_VE;
  ad ← energy_at table IP_TYPE_AD IP_TYPE_AD;
  ae ← energy_at table IP_TYPE_AE IP_TYPE_IMG;
  img ← energy_at table IP_TYPE_IMG IP_TYPE_IMG;
  gpu ← energy_at table IP_TYPE_GPU IP_TYPE_GPU;
  Ok [(IP_TYPE_CPU, F64.of_Z 0); vd; ve; ad; ae; img; gpu].

Definition loadIPChars (chars : option ((Z -> Z -> spec_float) * (Z -> Z -> spec_float))) (p : GemDroid) : Res GemDroid :=
  match chars with
  | None => Err (AssertFail "0")
  | Some (times, energies) =>
      let table := fill_table energies (ip_energy_table p) in
      optimal ← optimal_energies table;
      Ok (p <| ip_time_table ::= fun t => zalter2 (fun _ => F64.lit 3167 1000) (fill_table times t) IP_TYPE_DC 2 |>
            <| ip_energy_table := table |>
            <| time_pred_coeffs ::= fun t => set_all t [(IP_TYPE_DC, time_coeffs); (IP_TYPE_CAM, time_coeffs)] |>
            <| optimal_freqs := optimal_freqs_table |>
            <| optimal_energy ::= fun l => set_all l optimal |>)
  end.
(** ** The IPs

    Each class has its own [init]; the object in the storage has the class of
    its array. *)

Definition ghz (freq : Z) : spec_float := F64.div (F64.of_Z freq) (F64.of_Z 1000).
Definition optimal_of (p : GemDroid) (type : Z) : Res Z := of_option (zget (optimal_freqs p) type).

Definition init_device (pr : Params) (type latency id : Z) (p : GemDroid) : Res GemDroid :=
  i ← getIPInstance p type id;
  opt ← optimal_of p type;
  match i with
  | Device ip =>
      '(ip, p) ← GemDroidIP_init ip type id true latency (ghz (dev_freq pr)) opt p;
      Ok (put_ip type id (Device ip) p)
  | _ => Err OutOfRange
  end.

Definition init_accelerator (pr : Params) (type latency inBuf outBuf ratio chunk id : Z) (p : GemDroid) : Res GemDroid :=
  i ← getIPInstance p type id;
  opt ← optimal_of p type;
  let freq := ghz (ip_freq pr) in
  match i with
  | IPDecoder d =>
      '(d, p) ← Decoder.init d type id false latency inBuf outBuf ratio chunk freq opt p; Ok (put_ip type id (IPDecoder d) p)
  | IPEncoder c =>
      '(c, p) ← Coder_init c type id false latency inBuf outBuf ratio chunk freq opt p; Ok (put_ip type id (IPEncoder c) p)
  | IPNocoder c =>
      '(c, p) ← Coder_init c type id false latency inBuf outBuf ratio chunk freq opt p; Ok (put_ip type id (IPNocoder c) p)
  | _ => Err OutOfRange
  end.

Definition init_gpu (pr : Params) (fs : Files) (p : GemDroid) : Res GemDroid :=
  i ← getIPInstance p IP_TYPE_GPU 0;
  opt ← optimal_of p IP_TYPE_GPU;
  match i with
  | IPGPU g =>
      '(g, p) ← Gpu.init g IP_TYPE_GPU 0 false (gpu_trace pr) (gpu_stream fs) (ghz (ip_freq pr)) opt p;
      Ok (put_ip IP_TYPE_GPU 0 (IPGPU g) p)
  | _ => Err OutOfRange
  end.

(** The constructor's table: the device types, then the accelerators. *)
Definition device_types : list (Z * Z) :=
  [(IP_TYPE_DC, DC_PROCESSING_TIME); (IP_TYPE_NW, NW_PROCESSING_TIME); (IP_TYPE_SND, SND_PROCESSING_TIME);
   (IP_TYPE_MIC, MIC_PROCESSING_TIME); (IP_TYPE_CAM, CAM_PROCESSING_TIME); (IP_TYPE_MMC_IN, MMC_PROCESSING_TIME);
   (IP_TYPE_MMC_OUT, MMC_PROCESSING_TIME)].

Definition init_instance (pr : Params) (p : GemDroid) (id : Z) : Res GemDroid :=
  p ← foldM (fun p dev => init_device pr dev.1 dev.2 id p) p device_types;
  p ← init_accelerator pr IP_TYPE_VD VD_PROCESSING_TIME 24 64 VID_CODING_RATIO 1 id p;
  p ← init_accelerator pr IP_TYPE_VE VE_PROCESSING_TIME 24 64 VID_CODING_RATIO PROCESSING_CHUNK id p;
  p ← init_accelerator pr IP_TYPE_AD AD_PROCESSING_TIME 24 64 AUD_CODING_RATIO 1 id p;
  p ← init_accelerator pr IP_TYPE_AE AE_PROCESSING_TIME 24 64 AUD_CODING_RATIO PROCESSING_CHUNK id p;
  init_accelerator pr IP_TYPE_IMG IMG_PROCESSING_TIME 16 (PROCESSING_CHUNK * 2) 1 PROCESSING_CHUNK id p.

Definition init_core (pr : Params) (fs : Files) (i : Z) (p : GemDroid) : Res GemDroid :=
  name ← of_option (zget (cpu_traces pr) i);
  let app := getAppIdWithName name in
  let p := p <| cpuLastTick ::= fun l => zalter (fun _ => 0) l i |> <| app_id ::= fun l => zalter (fun _ => app) l i |> in
  c ← get_core p i;
  opt ← optimal_of p IP_TYPE_CPU;
  '(c, p) ← Core.init c i name (core_trace fs i) app (core_freq pr) opt (issue_width pr) p;
  Ok (put_core i c p).

(** ** [initDVFS] *)

Definition set_cores (f : Core.GemDroidCore -> Res Core.GemDroidCore) : GemDroid -> Res GemDroid := for_cores (on_core f).
Definition set_accelerators (f : GemDroidIP -> Res GemDroidIP) : GemDroid -> Res GemDroid :=
  for_ips IP_TYPE_VD IP_TYPE_DMA (on_ip f).

(** The frequencies a governor starts from. *)
Definition start_frequencies (p : GemDroid) : Res GemDroid :=
  let g := governor p in
  if bool_decide (g = GOVERNOR_TYPE_DISABLED) then Ok (p <| enableDVFS := false |>)
  else if bool_decide (g = GOVERNOR_TYPE_OPTIMAL) then
    p ← set_cores (fun c => Ok (Core.setOptCoreFreq c)) p;
    p ← set_accelerators setOptIPFreq p;
    p ← Governors.set_mem_freq (F64.lit 5 10) p;
    Ok (p <| enableDVFS := false |>)
  else if bool_decide (g = GOVERNOR_TYPE_PERFORMANCE) then
    p ← set_cores (fun c => Ok (Core.setMaxCoreFreq g c)) p;
    p ← set_accelerators setMaxIPFreq p;
    Ok ((upd_memory setMaxMemFreq p) <| enableDVFS := false |>)
  else if bool_decide (g = GOVERNOR_TYPE_POWERSAVE) then
    p ← set_cores (Core.setCoreFreq (F64.lit 5 10)) p;
    p ← set_accelerators (setIPFreq (F64.lit 2 10)) p;
    p ← Governors.set_mem_freq (F64.lit 5 10) p;
    Ok (p <| enableDVFS := false |>)
  else if bool_decide (g ∈ [GOVERNOR_TYPE_ONDEMAND; GOVERNOR_TYPE_INTERACTIVE; GOVERNOR_TYPE_BUILDING;
                            GOVERNOR_TYPE_CORE_ORACLE]) then
    p ← set_cores (fun c => Ok (Core.setMaxCoreFreq g c)) p;
    p ← set_accelerators setMaxIPFreq p;
    Governors.set_mem_freq (F64.lit 9 10) p
  else if bool_decide (g ∈ [GOVERNOR_TYPE_SLACK; GOVERNOR_TYPE_SLACK_FAR_ENERGY; GOVERNOR_TYPE_SLACK_KNAPSACK;
                            GOVERNOR_TYPE_DYNAMICPROG; GOVERNOR_TYPE_SLACK_MAXENERGY_CONSUMER;
                            GOVERNOR_TYPE_SLACK_MAXPOWER_CONSUMER; GOVERNOR_TYPE_SLACK_MAXENERGYPERTIME_CONSUMER]) then
    p ← set_cores (fun c => Ok (Core.setOptCoreFreq c)) p;
    p ← set_accelerators setOptIPFreq p;
    Ok (upd_memory setOptMemFreq p)
  else Ok p.

Definition initDVFS (p : GemDroid) : Res GemDroid :=
  let p := p <| enableDVFS := true |> <| doSlackDVFS := false |> <| framesMissed := 0 |> in
  if bool_decide (governor p >= END_OF_GOVERNOR) then Err (AssertFail "0")
  else
    p ← start_frequencies p;
    set_multipliers (p <| dvfsPeriod := i32 (governor_timing p * MILLISEC) |>).

(** ** The constructor *)

(** The scalars, and the arrays of the frames' power. *)
Definition init_members (pr : Params) (p : GemDroid) : GemDroid :=
  p <| powerCalcLastTick := 0 |> <| periodicStatsLastTick := 0 |> <| slackLastTick := 0 |> <| dvfsLastTick := 0 |>
    <| memLastTick := 0 |> <| framesToBeShown := 0 |> <| num_cpus := num_cpu_traces pr |>
    <| mem_freq := par_mem_freq pr |> <| governor := par_governor pr |>
    <| governor_timing := par_governor_timing pr |> <| num_ip_inst := num_ip_instances pr |>
    <| isPrintPeriodicStats := negb (no_periodic_stats pr) |>
    <| sweep_val1 := par_sweep_val1 pr |> <| sweep_val2 := par_sweep_val2 pr |>.

Definition table_of {A} (x : A) : list (list A) := replicate (Z.to_nat IP_TYPE_END) (replicate (Z.to_nat MAX_IPS) x).

Definition init_tables (p : GemDroid) : GemDroid :=
  p <| ipLastTick := table_of 0 |> <| frameStarted := table_of false |>
    <| m_avgPowerInFrameSum := table_of (F64.of_Z 0) |> <| m_avgPowerInFrameCount := table_of 0 |>.

(** The members that are objects: the memory, the agent, the cores. *)
Definition construct_members (pr : Params) (p0 : GemDroid) : Res GemDroid :=
  let mp := par_memory pr in
  m ← GemDroidMemory_new (mp_ini mp) (mp_vdd mp) (mp_period mp) (mp_sizeMB mp) (perfect_memory pr)
        (m_freq (gemdroid_memory p0));
  let sa0 := gemdroid_sa p0 in
  let fgs := (fun _ => MemStats.Figures_new (MemStats.getLatency (mem_stats p0)))
               <$> zrange (getNumChannels (dramsim (dramWrapper m))) in
  Ok ((upd_sa (fun _ => GemDroidSA_new (SystemAgent.totalQueueSize sa0) (SystemAgent.m_cyclesToSkip sa0))
        (upd_memory (fun _ => m) p0))
      <| gemdroid_core ::= fmap Core.GemDroidCore_new |>
      <| mem_stats ::= fun ms => MemStats.mkMemStats fgs (MemStats.m_power ms) |>).

Definition GemDroid_new (pr : Params) (fs : Files) (ip_id : Z) (p0 : GemDroid) : Res GemDroid :=
  p ← construct_members pr p0;
  let p := p <| ticks := 0 |> in
  if negb (enable_gemdroid pr) then Ok (p <| true_fetch := true |>)
  else
    p ← Governors.set_mem_freq (ghz (par_mem_freq pr)) (init_members pr p);
    let p := if bool_decide (num_cpus p <> 0) then p <| true_fetch := true |> else p in
    p ← loadIPChars (ipchars fs) (init_tables p);
    t ← loadFlows ip_id (flow_lines fs);
    p ← for_cores (init_core pr fs) (p <| flowTable := t |>);
    p ← foldM (init_instance pr) p (zrange (num_ip_inst p));
    p ← init_gpu pr fs p;
    enabled ← gpu_enabled p;
    p ← (if (enabled : bool) then init_device pr IP_TYPE_DC DC_PROCESSING_TIME (num_ip_inst p) p else Ok p);
    initDVFS p.

End GemBuild.
