(* ===== verification/GovernorSafety.v ===== *)
(** * Every governor ends, with all parts in their tables

    The governors compute with the doubles that the platform measured, which
    may be anything, infinite or no number. Whatever they are, a governor ends:
    its loops over frequencies and states are within their fuel. When no
    assertion stops it, every part is in a state of its table and the memory at
    one of its frequencies. None of the governors reads a core's table outside
    of its bounds, but the one for a building, which may after it has gone up
    two states at once: [stays] tells the faults apart, so that the other
    governors' claim does not rest on a fault. *)

From S2P Require Import Prelude.
From S2P Require Import Outcome.
From S2P Require Import DramConfig.
From S2P Require Import MultiChannel.
From S2P Require Import GemDefines.
From S2P Require Import Flows.
From S2P Require Import GemMemory.
From S2P Require Import MemoryFreq.
From S2P Require Import MemStats.
From S2P Require Import Uncore.
From S2P Require Import Ip.
From S2P Require Import Cores.
From S2P Require Import Platform.
From S2P Require Import Governors.

Import Platform.Platform.
Import Governors.Governors.

(** ** Frequencies of the memory *)

Definition accepted (f : spec_float) : bool :=
  F64.leb (F64.sub MIN_MEM_FREQ EPSILON) f && F64.leb f (F64.add MAX_MEM_FREQ EPSILON).

(** The tenth of GHz nearest to a frequency. *)
Definition rung (f : spec_float) : nat := Z.to_nat (F32.trunc (F64.add (F64.mul f (F64.of_Z 10)) (F64.lit 1 2))).

Definition lower (f : spec_float) : spec_float := F64.sub f tenth.
Definition lands (f g : spec_float) : bool := bool_decide (g ∈ reachable_freqs) && (rung g <? rung f)%nat.

(** What a step of each loop does to a reachable frequency. *)
Definition ladder_checks (f : spec_float) : bool :=
  (rung f <=? 10)%nat
  && (negb (apart f MIN_MEM_FREQ) || lands f (lower f))
  && (apart f MIN_MEM_FREQ || below f MIN_MEM_FREQ)
  && (negb (accepted (lower f)) || lands f (lower f))
  && (negb (F64.ltb (F64.add MIN_MEM_FREQ EPSILON) f) || lands f (step_down f))
  && forallb (fun m => negb (F64.leb m f) || lands f (lower f) || negb (F64.leb m (lower f)))
       [MIN_MEM_FREQ; F64.add MIN_MEM_FREQ (F64.lit 3 10)]
  && (negb (accepted (F64.add f tenth)) || bool_decide (F64.add f tenth ∈ reachable_freqs)).

Lemma ladder : forallb ladder_checks reachable_freqs = true.
Proof. by vm_compute. Qed.

Lemma lands_spec f g : lands f g = true -> g ∈ reachable_freqs /\ (rung g < rung f)%nat.
Proof. unfold lands. rewrite andb_true_iff, bool_decide_eq_true, Nat.ltb_lt. done. Qed.

Section Reachable.
Context (f : spec_float) (Hf : f ∈ reachable_freqs).

Lemma ladder_at : ladder_checks f = true.
Proof. exact (forallb_In _ _ f ladder Hf). Qed.

Lemma rung_le : (rung f <= 10)%nat.
Proof. pose proof ladder_at as H. unfold ladder_checks in H. rewrite !andb_true_iff, Nat.leb_le in H. tauto. Qed.

Lemma apart_lower : apart f MIN_MEM_FREQ = true -> lower f ∈ reachable_freqs /\ (rung (lower f) < rung f)%nat.
Proof.
  intros H. apply lands_spec. pose proof ladder_at as L. unfold ladder_checks in L. rewrite !andb_true_iff, H in L.
  tauto.
Qed.

Lemma not_apart_below : apart f MIN_MEM_FREQ = false -> below f MIN_MEM_FREQ = true.
Proof.
  intros H. pose proof ladder_at as L. unfold ladder_checks in L. rewrite !andb_true_iff, H in L. tauto.
Qed.

Lemma accepted_lower : accepted (lower f) = true -> lower f ∈ reachable_freqs /\ (rung (lower f) < rung f)%nat.
Proof.
  intros H. apply lands_spec. pose proof ladder_at as L. unfold ladder_checks in L. rewrite !andb_true_iff, H in L.
  tauto.
Qed.

Lemma above_step_down :
  F64.ltb (F64.add MIN_MEM_FREQ EPSILON) f = true -> step_down f ∈ reachable_freqs /\ (rung (step_down f) < rung f)%nat.
Proof.
  intros H. apply lands_spec. pose proof ladder_at as L. unfold ladder_checks in L. rewrite !andb_true_iff, H in L.
  tauto.
Qed.

Lemma try_lower m :
  m ∈ [MIN_MEM_FREQ; F64.add MIN_MEM_FREQ (F64.lit 3 10)] -> F64.leb m f = true ->
  (lower f ∈ reachable_freqs /\ (rung (lower f) < rung f)%nat) \/ F64.leb m (lower f) = false.
Proof.
  intros Hm H. pose proof ladder_at as L. unfold ladder_checks in L. rewrite !andb_true_iff in L.
  destruct L as [[_ L] _]. apply (forallb_In _ _ m) in L; [|done]. cbv beta in L. rewrite H in L. cbn [negb orb] in L.
  apply orb_true_iff in L as [L | L]; [left; by apply lands_spec | right; by apply negb_true_iff].
Qed.

Lemma accepted_higher : accepted (F64.add f tenth) = true -> F64.add f tenth ∈ reachable_freqs.
Proof.
  intros H. pose proof ladder_at as L. unfold ladder_checks in L. rewrite !andb_true_iff, H in L.
  cbn [negb orb] in L. rewrite bool_decide_eq_true in L. tauto.
Qed.
End Reachable.

(** The frequencies CoScale may end with: a reachable one, or one that was
    raised above the highest and that the memory refuses. *)
Definition overshoots : list spec_float :=
  Eval vm_compute in
    filter (fun g => bool_decide (g ∈ reachable_freqs) = false) ((fun f => raise_memory f) <$> reachable_freqs).
Definition wanted_freqs : list spec_float := reachable_freqs ++ overshoots.

Lemma wanted_closed :
  forallb (fun f => bool_decide (raise_memory f ∈ wanted_freqs)
                    && (negb (accepted f) || bool_decide (f ∈ reachable_freqs))) wanted_freqs = true.
Proof. by vm_compute. Qed.

Lemma wanted_raise f : f ∈ wanted_freqs -> raise_memory f ∈ wanted_freqs.
Proof.
  intros H. pose proof (forallb_In _ _ f wanted_closed H) as E. cbn beta in E.
  rewrite andb_true_iff, bool_decide_eq_true in E. tauto.
Qed.

Lemma wanted_accepted f : f ∈ wanted_freqs -> accepted f = true -> f ∈ reachable_freqs.
Proof.
  intros H Ha. pose proof (forallb_In _ _ f wanted_closed H) as E. cbn beta in E.
  rewrite andb_true_iff, Ha in E. cbn [negb orb] in E. rewrite !bool_decide_eq_true in E. tauto.
Qed.

Lemma reachable_wanted f : f ∈ reachable_freqs -> f ∈ wanted_freqs.
Proof. intros H. apply elem_of_app. by left. Qed.

(** ** Parts in their tables *)

Definition core_ok (c : Core.GemDroidCore) : Prop :=
  0 <= Core.dvfsState c < CORE_DVFS_STATES /\ 0 <= Core.optDVFSState c < CORE_DVFS_STATES.
Definition ip_ok (ip : GemDroidIP) : Prop :=
  0 <= dvfsState ip < IP_DVFS_STATES /\ 0 <= m_optDVFSState ip < IP_DVFS_STATES.

(** The states are those of the parts that are in use, [n] cores and [m]
    instances of each type; the memory runs at a reachable frequency. The
    governor [g] is the one that was chosen. While it is [deciding], it looks at
    the first core. *)
Record sized_tables (n m g : Z) (deciding : bool) (p : GemDroid) : Prop := {
  to_cpus : num_cpus p = n;
  to_insts : num_ip_inst p = m;
  to_governor : governor p = g;
  to_deciding : deciding = true -> dvfs_core p = 0;
  to_cores : forall i c, i < n -> get_core p i = Ok c -> core_ok c;
  to_ips : forall type id x, id < m -> getIPInstance p type id = Ok x -> ip_ok (ip_base x);
  to_freq : m_freq (gemdroid_memory p) ∈ reachable_freqs;
  to_opt : m_optMemFreq (gemdroid_memory p) = F64.lit 8 10
}.

(** With at least one core and one instance. *)
Definition tables_ok (p : GemDroid) : Prop :=
  1 <= num_cpus p /\ 1 <= num_ip_inst p /\ sized_tables (num_cpus p) (num_ip_inst p) (governor p) false p.

Lemma sized_tables_same n m g b p q :
  num_cpus q = num_cpus p -> num_ip_inst q = num_ip_inst p -> governor q = governor p ->
  (b = true -> dvfs_core q = dvfs_core p) -> gemdroid_core q = gemdroid_core p -> ips q = ips p ->
  m_freq (gemdroid_memory q) = m_freq (gemdroid_memory p) ->
  m_optMemFreq (gemdroid_memory q) = m_optMemFreq (gemdroid_memory p) ->
  sized_tables n m g b p -> sized_tables n m g b q.
Proof.
  intros E1 E2 Eg Ed E3 E4 E5 E6 [H1 H2 Hg Hd H3 H4 H5 H6].
  apply Build_sized_tables; unfold get_core, getIPInstance; rewrite ?E1, ?E2, ?Eg, ?E3, ?E4, ?E5, ?E6;
    [exact H1 | exact H2 | exact Hg | | exact H3 | exact H4 | exact H5 | exact H6].
  intros Hb. rewrite Ed by done. by apply Hd.
Qed.

(** A decision is over. *)
Lemma sized_tables_decided n m g p : sized_tables n m g true p -> sized_tables n m g false p.
Proof. intros [H1 H2 Hg _ H3 H4 H5 H6]. by apply Build_sized_tables. Qed.

(** A change of a part that does not leave the table. *)
Definition keeps_core (c c' : Core.GemDroidCore) : Prop := core_ok c -> core_ok c'.
Definition keeps_ip (ip ip' : GemDroidIP) : Prop := ip_ok ip -> ip_ok ip'.

Lemma ip_base_with_base ip x : ip_base (with_base ip x) = ip.
Proof. by destruct x. Qed.

(** ** What stops a governor

    No loop of the model, and no reading outside of a core's table, which the
    code would not notice. The governor for a building goes up two states of a
    core at once, and is the exception. *)
Definition stays (g : Z) (f : Fault) : Prop :=
  f <> OutOfFuel /\ (g <> GOVERNOR_TYPE_BUILDING -> f <> OutOfTable).

Lemma stays_other g f : f <> OutOfFuel -> f <> OutOfTable -> stays g f.
Proof. by split. Qed.
#[export] Hint Extern 0 (stays _ _) => apply stays_other; discriminate : core ends.

Section Sized.
Context (nc ni gv : Z) (Hnc : 1 <= nc) (Hni : 1 <= ni).
#[local] Notation tables_ok := (sized_tables nc ni gv true).
#[local] Notation ends := (ends_with (stays gv)).

Lemma put_core_ok p i c c' :
  tables_ok p -> get_core p i = Ok c -> keeps_core c c' -> tables_ok (put_core i c' p).
Proof.
  intros [H1 H2 Hg Hdec H3 H4 H5 H6] Hc Hk. apply Build_sized_tables; [exact H1 | exact H2 | exact Hg | exact Hdec | | exact H4 | exact H5 | exact H6].
  intros j d Hj Hd. unfold get_core, put_core in Hd. cbn in Hd. rewrite zget_zalter in Hd.
  case_bool_decide as Hij.
  - subst j. unfold get_core in Hc. destruct (zget (gemdroid_core p) i) as [c0|] eqn:E; [|done].
    cbn in Hc, Hd. injection Hc as ->. injection Hd as <-. apply Hk. apply (H3 i); [done|]. unfold get_core. by rewrite E.
  - apply (H3 j); [done|]. exact Hd.
Qed.

Lemma put_ip_ok p type id x ip' :
  tables_ok p -> getIPInstance p type id = Ok x -> keeps_ip (ip_base x) ip' ->
  tables_ok (put_ip type id (with_base ip' x) p).
Proof.
  intros [H1 H2 Hg Hdec H3 H4 H5 H6] Hx Hk. apply Build_sized_tables; [exact H1 | exact H2 | exact Hg | exact Hdec | exact H3 | | exact H5 | exact H6].
  intros t j y Hj Hy. revert Hy. unfold getIPInstance, put_ip. cbn.
  destruct (bool_decide (IP_TYPE_DC <= t) && bool_decide (t <= IP_TYPE_GPU)) eqn:Et; [|done].
  rewrite zget2_zalter2. destruct (bool_decide_reflect (type = t /\ id = j)) as [Hij|Hij].
  - destruct Hij as [-> ->]. unfold getIPInstance in Hx. rewrite Et in Hx.
    destruct (zget2 (ips p) t j) as [x0|] eqn:E; [|done]. cbn in Hx |- *. injection Hx as ->. intros [= <-].
    rewrite ip_base_with_base. apply Hk. apply (H4 t j); [done|]. unfold getIPInstance. by rewrite Et, E.
  - intros Hy. apply (H4 t j); [done|]. unfold getIPInstance. by rewrite Et.
Qed.

Lemma upd_memory_ok p f :
  tables_ok p -> m_freq (f (gemdroid_memory p)) ∈ reachable_freqs ->
  m_optMemFreq (f (gemdroid_memory p)) = F64.lit 8 10 -> tables_ok (upd_memory f p).
Proof. intros [H1 H2 Hg Hdec H3 H4 H5 H6] Hf Ho. by apply Build_sized_tables. Qed.

(** ** Reading *)

Lemma option_ends {A} (o : option A) : ends (fun a => o = Some a) (of_option o).
Proof. destruct o; [by apply ends_ok | by apply ends_err]. Qed.
Lemma option_reads {A} (o : option A) : ends (fun _ => True) (of_option o).
Proof. exact (ends_True _ _ (option_ends o)). Qed.
#[local] Hint Resolve option_ends | 0 : ends.
#[local] Hint Resolve option_reads | 5 : ends.

Lemma get_core_ends p i : ends (fun c => get_core p i = Ok c) (get_core p i).
Proof. unfold get_core. destruct (zget _ _); [by apply ends_ok | by apply ends_err]. Qed.
Lemma getIPInstance_ends p type id : ends (fun x => getIPInstance p type id = Ok x) (getIPInstance p type id).
Proof.
  unfold getIPInstance. destruct (_ && _); [|by apply ends_err].
  destruct (zget2 _ _ _); [by apply ends_ok | by apply ends_err].
Qed.
Lemma at_ip_ends l type : ends (fun _ => True) (at_ip l type).
Proof. apply option_reads. Qed.
#[local] Hint Resolve get_core_ends getIPInstance_ends at_ip_ends : ends.

(** The first core is in use. *)
Lemma core_at_in_table p i c : i < nc -> get_core p i = Ok c -> tables_ok p -> core_ok c.
Proof. intros Hi Hc Hp. by apply (to_cores _ _ _ _ p Hp i). Qed.
Lemma core_in_table p c : get_core p 0 = Ok c -> tables_ok p -> core_ok c.
Proof. apply core_at_in_table. lia. Qed.
Lemma core_deciding p c : get_core p (dvfs_core p) = Ok c -> tables_ok p -> core_ok c.
Proof. intros Hc Hp. rewrite (to_deciding _ _ _ _ p Hp eq_refl) in Hc. by apply (core_in_table p). Qed.
Lemma ip_in_table p type x : tables_ok p -> getIPInstance p type 0 = Ok x -> ip_ok (ip_base x).
Proof. intros Hp Hx. apply (to_ips _ _ _ _ p Hp type 0); [lia | done]. Qed.
#[local] Hint Resolve core_in_table core_at_in_table core_deciding : ends.

(** A frequency of the cores' table is found in it. *)
Definition tabled (f : spec_float) : Prop := 0 <= Core.getIndexInTable f < CORE_DVFS_STATES.

Lemma rows_tabled :
  forallb (fun row => bool_decide (0 <= Core.getIndexInTable (Core.tbl_freq row) < CORE_DVFS_STATES))
    Core.voltage_freq_table = true.
Proof. by vm_compute. Qed.

Lemma row_at_ends ind :
  0 <= ind < CORE_DVFS_STATES -> ends (fun row => row ∈ Core.voltage_freq_table) (Core.row_at ind).
Proof.
  intros Hi. unfold Core.row_at. destruct (zget_lt Core.voltage_freq_table ind) as [row E]; [done|]. rewrite E.
  apply ends_ok. apply zget_lookup in E as [_ E]. by eapply list_elem_of_lookup_2.
Qed.
Lemma row_tabled row : row ∈ Core.voltage_freq_table -> tabled (Core.tbl_freq row).
Proof.
  intros H. pose proof (forallb_In _ _ row rows_tabled H) as E. cbv beta in E. by apply bool_decide_eq_true in E.
Qed.
#[local] Hint Resolve row_at_ends row_tabled : ends.

Lemma core_state c : core_ok c -> 0 <= Core.dvfsState c < CORE_DVFS_STATES.
Proof. by intros []. Qed.
Lemma core_opt_state c : core_ok c -> 0 <= Core.optDVFSState c < CORE_DVFS_STATES.
Proof. by intros []. Qed.
Lemma clamp_index_in ind : 0 <= Core.clamp_index ind < CORE_DVFS_STATES.
Proof. unfold Core.clamp_index, CORE_DVFS_STATES. repeat case_bool_decide; lia. Qed.
Lemma tabled_index f : tabled f -> 0 <= Core.getIndexInTable f < CORE_DVFS_STATES.
Proof. done. Qed.
#[local] Hint Resolve core_state core_opt_state clamp_index_in tabled_index : ends.

Lemma getCoreFreq_ends c : core_ok c -> ends tabled (Core.getCoreFreq c).
Proof. intros Hc. unfold Core.getCoreFreq. ends_tac. by apply row_tabled. Qed.
Lemma getCoreFreq_at_ends ind : ends tabled (Core.getCoreFreq_at ind).
Proof. unfold Core.getCoreFreq_at. ends_tac. by apply row_tabled. Qed.
Lemma getCoreFreq_reads c : core_ok c -> ends (fun _ => True) (Core.getCoreFreq c).
Proof. intros Hc. exact (ends_True _ _ (getCoreFreq_ends c Hc)). Qed.
Lemma getCoreFreq_at_reads ind : ends (fun _ => True) (Core.getCoreFreq_at ind).
Proof. exact (ends_True _ _ (getCoreFreq_at_ends ind)). Qed.
#[local] Hint Resolve getCoreFreq_reads getCoreFreq_at_reads | 5 : ends.
Lemma getIPFreq_ends ip : ends (fun _ => True) (getIPFreq ip).
Proof. unfold getIPFreq. by ends_tac. Qed.
Lemma getIPFreq_at_ends ip ind : ends (fun _ => True) (getIPFreq_at ip ind).
Proof. unfold getIPFreq_at. by ends_tac. Qed.
#[local] Hint Resolve getCoreFreq_ends getCoreFreq_at_ends getIPFreq_ends getIPFreq_at_ends : ends.
Lemma core_getEnergyEst_ends c time power f :
  core_ok c -> tabled f -> ends (fun _ => True) (Core.getEnergyEst c time power f).
Proof. intros Hc Hf. unfold Core.getEnergyEst. by ends_tac. Qed.
Lemma ip_getEnergyEst_ends ip time power f : ends (fun _ => True) (getEnergyEst ip time power f).
Proof. unfold getEnergyEst. by ends_tac. Qed.
#[local] Hint Resolve core_getEnergyEst_ends ip_getEnergyEst_ends : ends.

Lemma memScaledTimeCPU_ends p i f g : ends (fun _ => True) (memScaledTimeCPU p i f g).
Proof. unfold memScaledTimeCPU. by ends_tac. Qed.
Lemma predicted_time_ends l bw : ends (fun _ => True) (predicted_time l bw).
Proof. unfold predicted_time. by ends_tac. Qed.
#[local] Hint Resolve memScaledTimeCPU_ends predicted_time_ends : ends.
Lemma memScaledTime_ends p type bw ind : ends (fun _ => True) (memScaledTime p type bw ind).
Proof. unfold memScaledTime. by ends_tac. Qed.
Lemma getAvailBW_ends p i : ends (fun _ => True) (getAvailBW p i).
Proof. unfold getAvailBW. by ends_tac. Qed.
#[local] Hint Resolve memScaledTime_ends getAvailBW_ends : ends.
Lemma memScaledTime_avail_ends p type i ind : ends (fun _ => True) (memScaledTime_avail p type i ind).
Proof. unfold memScaledTime_avail. by ends_tac. Qed.
#[local] Hint Resolve memScaledTime_avail_ends : ends.

(** ** Changing the state of a part *)

Lemma setCoreFreqInd_ends ind c : ends (keeps_core c) (Core.setCoreFreqInd ind c).
Proof.
  unfold Core.setCoreFreqInd. destruct (_ && _) eqn:E; [|by apply ends_err].
  rewrite andb_true_iff, !bool_decide_eq_true in E. apply ends_ok. intros [_ Ho]. split; [cbn; lia | done].
Qed.
Lemma setCoreFreq_ends f c : ends (keeps_core c) (Core.setCoreFreq f c).
Proof. apply setCoreFreqInd_ends. Qed.
Lemma setIPFreqInd_ends ind ip : ends (keeps_ip ip) (setIPFreqInd ind ip).
Proof.
  unfold setIPFreqInd. destruct (_ && _) eqn:E; [|by apply ends_err].
  rewrite andb_true_iff, !bool_decide_eq_true in E. apply ends_ok. intros [_ Ho]. split; [cbn; lia | done].
Qed.
Lemma setIPFreq_ends f ip : ends (keeps_ip ip) (setIPFreq f ip).
Proof. apply setIPFreqInd_ends. Qed.
#[local] Hint Resolve setCoreFreqInd_ends setCoreFreq_ends setIPFreqInd_ends setIPFreq_ends : ends.

Lemma not_device_ends ip : ends (fun _ => True) (not_device ip).
Proof. unfold not_device. by ends_read. Qed.
#[local] Hint Resolve not_device_ends : ends.

(** A state of the table, whatever the state before. *)
Lemma ip_to_state ip ip' :
  m_optDVFSState ip' = m_optDVFSState ip -> 0 <= dvfsState ip' < IP_DVFS_STATES -> keeps_ip ip ip'.
Proof. intros Ho Hs [_ H]. split; [done|]. by rewrite Ho. Qed.
Lemma core_to_state c c' :
  Core.optDVFSState c' = Core.optDVFSState c -> 0 <= Core.dvfsState c' < CORE_DVFS_STATES -> keeps_core c c'.
Proof. intros Ho Hs [_ H]. split; [done|]. by rewrite Ho. Qed.

Lemma setMaxIPFreq_ends ip : ends (keeps_ip ip) (setMaxIPFreq ip).
Proof. unfold setMaxIPFreq. ends_tac. by apply ip_to_state. Qed.
Lemma setMinIPFreq_ends ip : ends (keeps_ip ip) (setMinIPFreq ip).
Proof. unfold setMinIPFreq. ends_tac. by apply ip_to_state. Qed.
Lemma setOptIPFreq_ends ip : ends (keeps_ip ip) (setOptIPFreq ip).
Proof. unfold setOptIPFreq. ends_tac. intros [_ Ho]. by split. Qed.
#[local] Hint Resolve setMaxIPFreq_ends setMinIPFreq_ends setOptIPFreq_ends : ends.
Lemma incFreq_ends steps ip : 0 <= steps -> ends (fun r => keeps_ip ip r.2) (incFreq steps ip).
Proof.
  intros Hs. unfold incFreq. ends_tac; cbn [snd]; [|done].
  apply bool_decide_eq_true in Heqb. intros [[H0 _] Ho]. split; [|exact Ho].
  unfold upd_field, set_dvfsState. cbn. lia.
Qed.
Lemma decFreq_ends g steps ip : 0 <= steps -> ends (fun r => keeps_ip ip r.2) (decFreq g steps ip).
Proof.
  intros Hs. unfold decFreq. ends_tac; cbn [snd]; try (by intros ?).
  apply bool_decide_eq_true in Heqb0. intros [Hd Ho]. split; [|exact Ho].
  unfold upd_field, set_dvfsState. cbn. lia.
Qed.

Lemma core_slowest_ends n : forall k t f l, ends (fun _ => True) (Core.slowest_in_time n k t f l).
Proof. induction n as [|n IH]; intros; cbn [Core.slowest_in_time]; by ends_tac. Qed.
Lemma ip_slowest_ends n : forall k ip t f l, ends (fun _ => True) (slowest_in_time n k ip t f l).
Proof. induction n as [|n IH]; intros; cbn [slowest_in_time]; by ends_tac. Qed.
#[local] Hint Resolve core_slowest_ends ip_slowest_ends : ends.

Lemma core_slack_freq_ends c t time slack :
  core_ok c -> ends (fun _ => True) (Core.getFreqForSlackOptimal c t time slack).
Proof.
  intros Hc. unfold Core.getFreqForSlackOptimal. by ends_read.
Qed.
Lemma ip_slack_freq_ends p ip time slack : ends (fun _ => True) (getFreqForSlackOptimal p ip time slack).
Proof.
  unfold getFreqForSlackOptimal. by ends_read.
Qed.
#[local] Hint Resolve core_slack_freq_ends ip_slack_freq_ends : ends.

(** A frequency of the table in GHz, taken as an index, is one of the first two. *)
Lemma rows_as_index :
  forallb (fun row => bool_decide (0 <= F32.trunc (Core.tbl_freq row) < CORE_DVFS_STATES)) Core.voltage_freq_table = true.
Proof. by vm_compute. Qed.
Lemma row_as_index row : row ∈ Core.voltage_freq_table -> 0 <= F32.trunc (Core.tbl_freq row) < CORE_DVFS_STATES.
Proof.
  intros H. pose proof (forallb_In _ _ row rows_as_index H) as E. cbv beta in E. by apply bool_decide_eq_true in E.
Qed.

Lemma freq_for_power_index power rows last :
  (forall row, row ∈ rows -> row ∈ Core.voltage_freq_table) -> 0 <= F32.trunc last < CORE_DVFS_STATES ->
  0 <= F32.trunc (Core.freq_for_power power rows last) < CORE_DVFS_STATES.
Proof.
  intros Hr Hl. induction rows as [|row rows IH]; [done|]. cbn [Core.freq_for_power].
  destruct (F64.ltb _ _); [apply row_as_index, Hr; left | apply IH; intros r Hin; apply Hr; by right].
Qed.

Lemma freq_for_power_ends power :
  ends (fun f => 0 <= F32.trunc f < CORE_DVFS_STATES) (Core.getFreqForPower power).
Proof.
  unfold Core.getFreqForPower. apply (ends_bind (fun f => 0 <= F32.trunc f < CORE_DVFS_STATES)).
  - unfold Core.getCoreFreq_at. ends_tac. by apply row_as_index.
  - intros last Hl. apply ends_ok. by apply freq_for_power_index.
Qed.
#[local] Hint Resolve freq_for_power_ends : ends.

Lemma core_max_allowed_ends b c : ends (keeps_core c) (Core.setMaxAllowedFreq b c).
Proof. unfold Core.setMaxAllowedFreq. by ends_tac. Qed.
Lemma ip_max_allowed_ends b ip : ends (keeps_ip ip) (setMaxAllowedFreq b ip).
Proof. unfold setMaxAllowedFreq, getFreqForPower. by ends_read. Qed.
Lemma core_load_ends t c : core_ok c -> ends (fun r => core_ok r.2) (Core.getLoadInLastDVFSEpoch t c).
Proof. intros Hc. unfold Core.getLoadInLastDVFSEpoch. by ends_read. Qed.
Lemma ip_load_ends t ip : ends (fun r => keeps_ip ip r.2) (getLoadInLastDVFSEpoch t ip).
Proof.
  unfold getLoadInLastDVFSEpoch. ends_read. by intros ?.
Qed.
#[local] Hint Resolve core_max_allowed_ends ip_max_allowed_ends core_load_ends ip_load_ends : ends.

(** ** Steps of the governors

    [ends tables_ok]: the step ends with the parts in their tables. *)

Definition slack_ok {A} (r : A * GemDroid) : Prop := tables_ok r.2.

(** The cores that a loop goes through. *)
Lemma in_use p i : tables_ok p -> i ∈ zrange (num_cpus p) -> i < nc.
Proof. intros Hp Hi. rewrite (to_cpus _ _ _ _ p Hp) in Hi. apply elem_of_zrange in Hi. lia. Qed.
Lemma first_in_use : 0 < nc.
Proof. lia. Qed.
#[local] Hint Resolve first_in_use : ends.

Lemma slack_core_ends i slack p : i < nc -> tables_ok p -> ends slack_ok (slack_core i slack p).
Proof. intros Hi Hp. unfold slack_core. ends_tac. by eapply put_core_ok. Qed.
Lemma slack_ip_ends type slack p : tables_ok p -> ends slack_ok (slack_ip type slack p).
Proof. intros Hp. unfold slack_ip. ends_tac. by eapply put_ip_ok. Qed.
#[local] Hint Resolve slack_core_ends slack_ip_ends : ends.

Lemma setDVFSSlackFrequencies_ends slack type p : tables_ok p -> ends slack_ok (setDVFSSlackFrequencies slack type p).
Proof.
  intros Hp. unfold setDVFSSlackFrequencies. ends_tac.
  - apply ends_foldM; [|done]. intros [s q] i Hi Hq. apply slack_core_ends; [|done].
    by apply (in_use p).
  - done.
Qed.
#[local] Hint Resolve setDVFSSlackFrequencies_ends : ends.

Lemma flow_loop_ends {S} (P : S -> Prop) (body : Z -> S -> Res S) ips :
  (forall ip s, P s -> ends P (body ip s)) -> forall s, P s -> ends P (flow_loop body ips s).
Proof.
  intros Hb. induction ips as [|ip ips IH]; intros s Hs; cbn [flow_loop]; [by apply ends_err|].
  destruct (bool_decide _); [by apply ends_ok|]. apply (ends_bind P); auto.
Qed.

Lemma flow_row_ends t a f : ends (fun _ => True) (flow_row t a f).
Proof. unfold flow_row. by ends_read. Qed.
#[local] Hint Resolve flow_row_ends : ends.
(** A fold that only reads. *)
Lemma foldM_reads {S A} (body : S -> A -> Res S) l s :
  (forall s a, ends (fun _ => True) (body s a)) -> ends (fun _ => True) (foldM body s l).
Proof. intros Hb. by apply (ends_foldM (fun _ => True)). Qed.

Lemma copy_ips_ends row idx : forall ips i, ends (fun _ => True) (copy_ips row ips i idx).
Proof. induction idx as [|j idx IH]; intros; cbn [copy_ips]; by ends_read. Qed.
#[local] Hint Resolve copy_ips_ends : ends.
Lemma getIPsInFlow_ends t a i j : ends (fun _ => True) (getIPsInFlow t a i j).
Proof. unfold getIPsInFlow. by ends_read. Qed.
#[local] Hint Resolve getIPsInFlow_ends : ends.

Lemma first_flow_ends {S} (P : S -> Prop) (body : Z -> S -> Res S) p s :
  (forall ip s, P s -> ends P (body ip s)) -> P s -> ends P (first_flow body p s).
Proof. intros Hb Hs. unfold first_flow. ends_tac. by apply flow_loop_ends. Qed.
Lemma first_flow_reads {S} (body : Z -> S -> Res S) p s :
  (forall ip s, ends (fun _ => True) (body ip s)) -> ends (fun _ => True) (first_flow body p s).
Proof. intros Hb. by apply (first_flow_ends (fun _ => True)). Qed.

(** ** The memory *)

Lemma set_mem_freq_ends f p :
  tables_ok p -> (accepted f = true -> f ∈ reachable_freqs) ->
  ends (fun p' => tables_ok p' /\ accepted f = true) (set_mem_freq f p).
Proof.
  intros Hp Hf. unfold set_mem_freq, setMemFreq.
  change (F64.leb (F64.sub MIN_MEM_FREQ EPSILON) f && F64.leb f (F64.add MAX_MEM_FREQ EPSILON)) with (accepted f).
  destruct (accepted f); [|by apply ends_err]. apply ends_ok. split; [|done].
  apply upd_memory_ok; [done | by apply Hf | exact (to_opt _ _ _ _ p Hp)].
Qed.

Lemma time_at_ends p orig f ip : ends (fun _ => True) (time_at p orig f ip).
Proof. unfold time_at. by ends_read. Qed.
#[local] Hint Resolve time_at_ends : ends.
Lemma faster_time_ends p orig f ip e : ends (fun _ => True) (faster_time p orig f ip e).
Proof. unfold faster_time. by ends_read. Qed.
Lemma slower_time_ends p orig f ip e : ends (fun _ => True) (slower_time p orig f ip e).
Proof. unfold slower_time. by ends_read. Qed.
#[local] Hint Resolve faster_time_ends slower_time_ends first_flow_reads : ends.

(** The setter's check keeps the frequency on the ladder, also below the lowest
    of the governor. *)
Lemma lower_memory_ends fuel orig min_mem slack : forall mem_freq extra correct p,
  mem_freq ∈ reachable_freqs -> (rung mem_freq < fuel)%nat -> tables_ok p ->
  ends slack_ok (lower_memory fuel orig min_mem slack mem_freq extra correct p).
Proof.
  induction fuel as [|fuel IH]; intros f extra correct p Hf Hfuel Hp; [lia|]. cbn [lower_memory].
  cbv zeta. ends_step; [|by apply ends_ok]. ends_step. ends_step; [by apply ends_ok|]. eapply ends_bind.
  - apply (set_mem_freq_ends (lower f)); [done|]. intros Ha. by apply accepted_lower.
  - intros q [Hq Ha]. destruct (accepted_lower f Hf Ha) as [Hl Hr]. unfold lower in *. apply IH; [done | lia | done].
Qed.

Lemma memory_fuel_enough p : tables_ok p -> (rung (getMemFreq p) < memory_fuel)%nat.
Proof.
  intros Hp. apply (Nat.le_lt_trans _ 10); [exact (rung_le _ (to_freq _ _ _ _ p Hp)) | unfold memory_fuel; lia].
Qed.

Lemma dvfsMemory_ends slack p : tables_ok p -> ends slack_ok (dvfsMemory slack p).
Proof.
  intros Hp. pose proof (to_freq _ _ _ _ p Hp) as Hf. unfold dvfsMemory. ends_tac; try exact Hp.
  - eapply ends_bind; [apply set_mem_freq_ends; [done|]|].
    + by apply accepted_higher.
    + intros q [Hq _]. by apply ends_ok.
  - eapply ends_bind.
    + apply lower_memory_ends; [exact Hf | by apply memory_fuel_enough | done].
    + intros [e q] Hq. by apply ends_ok.
Qed.
#[local] Hint Resolve dvfsMemory_ends : ends.

(** ** Loops over the parts *)

Lemma for_cores_ends body p :
  (forall i p, i < nc -> tables_ok p -> ends tables_ok (body i p)) -> tables_ok p -> ends tables_ok (for_cores body p).
Proof.
  intros Hb Hp. unfold for_cores. apply ends_foldM; [|done]. intros q i Hi Hq. apply Hb; [|done]. by apply (in_use p).
Qed.
Lemma for_ips_ends first last body p :
  (forall type id p, tables_ok p -> ends tables_ok (body type id p)) -> tables_ok p ->
  ends tables_ok (for_ips first last body p).
Proof.
  intros Hb Hp. unfold for_ips. apply ends_foldM; [|done]. intros q type _ Hq.
  apply ends_foldM; [|done]. intros r id _ Hr. by apply Hb.
Qed.

Lemma on_core_ends f i p :
  (forall c, ends (keeps_core c) (f c)) -> tables_ok p -> ends tables_ok (on_core f i p).
Proof. intros Hf Hp. unfold on_core. ends_tac. by eapply put_core_ok. Qed.
Lemma on_ip_ends f type id p :
  (forall ip, ends (keeps_ip ip) (f ip)) -> tables_ok p -> ends tables_ok (on_ip f type id p).
Proof. intros Hf Hp. unfold on_ip. ends_tac. by eapply put_ip_ok. Qed.
#[local] Hint Resolve on_core_ends on_ip_ends : ends.

(** ** Fixed order and load *)

Lemma has_energy_ends p ip : ends (fun _ => True) (has_energy p ip).
Proof. unfold has_energy. by ends_read. Qed.
#[local] Hint Resolve has_energy_ends : ends.

Lemma fixed_step_ends b ip st : slack_ok st -> ends slack_ok (fixed_step b ip st).
Proof. destruct st as [slack p]. intros Hp. change (tables_ok p) in Hp. unfold fixed_step. by ends_tac. Qed.

Lemma dvfsCoreOracle_ends slack p : tables_ok p -> ends tables_ok (dvfsCoreOracle slack p).
Proof.
  intros Hp. unfold dvfsCoreOracle. apply (ends_bind slack_ok).
  - apply first_flow_ends; [|done]. intros. by apply fixed_step_ends.
  - intros [s q] Hq. by apply ends_ok.
Qed.
Lemma dvfsFixedPriority_ends slack p : tables_ok p -> ends tables_ok (dvfsFixedPriority slack p).
Proof.
  intros Hp. unfold dvfsFixedPriority. apply (ends_bind slack_ok); [by ends_tac|]. intros [[b s] q] Hq.
  destruct (_ && _); [by apply ends_ok|]. apply (ends_bind slack_ok).
  - apply first_flow_ends; [|done]. intros. by apply fixed_step_ends.
  - intros [s' q'] Hq'. by apply ends_ok.
Qed.

(** The steps of the load governors. Those of a building may lead a core out of
    its table, which the reading of its frequency then shows; all others stay in
    it. *)
Definition moved (c : Core.GemDroidCore) : Prop :=
  0 <= Core.optDVFSState c < CORE_DVFS_STATES /\ (gv <> GOVERNOR_TYPE_BUILDING -> core_ok c).

Lemma moved_in_table c : core_ok c -> moved c.
Proof. intros H. split; [apply H | done]. Qed.

Lemma read_moved c : moved c -> ends (fun _ => core_ok c) (Core.getCoreFreq c).
Proof.
  intros [Ho Hm]. unfold Core.getCoreFreq, Core.row_at. destruct (zget _ _) as [row|] eqn:E.
  - apply ends_ok. split; [|done]. apply zget_Some_range in E. exact E.
  - apply ends_err. split; [discriminate|]. intros Hg. exfalso. destruct (Hm Hg) as [Hs _].
    destruct (zget_lt Core.voltage_freq_table (Core.dvfsState c)) as [row Er]; [done|]. by rewrite E in Er.
Qed.

Lemma setMaxCoreFreq_in_table g c : core_ok c -> core_ok (Core.setMaxCoreFreq g c).
Proof. intros [_ Ho]. unfold Core.setMaxCoreFreq. destruct (bool_decide _); by split. Qed.
Lemma setMinCoreFreq_in_table c : core_ok c -> core_ok (Core.setMinCoreFreq c).
Proof. intros [_ Ho]. by split. Qed.
Lemma incFreq_moved steps c : gv = GOVERNOR_TYPE_BUILDING -> core_ok c -> moved (snd (Core.incFreq steps c)).
Proof. intros Hg [_ Ho]. split; [|done]. unfold Core.incFreq. by destruct (bool_decide _). Qed.
Lemma decFreq_in_table g c : core_ok c -> core_ok (snd (Core.decFreq g 1 c)).
Proof.
  intros [Hs Ho]. unfold Core.decFreq. destruct (_ && _); [done|]. case_bool_decide; [|done].
  split; [|done]. cbn. lia.
Qed.

Lemma put_moved_core i p c :
  tables_ok p -> moved c -> (exists c0, get_core p i = Ok c0) -> ends tables_ok (_ ← Core.getCoreFreq c; Ok (put_core i c p)).
Proof.
  intros Hp Hm [c0 Hc]. eapply ends_bind; [by apply read_moved|]. intros f Hok. apply ends_ok.
  apply (put_core_ok p i c0); [done..|]. by intros _.
Qed.

Lemma load_core_ends i p : i < nc -> tables_ok p -> ends tables_ok (load_core i p).
Proof.
  intros Hi Hp. unfold load_core. do 3 ends_step. destruct a1 as [load c]. cbn [snd] in H1.
  eapply ends_bind; [|intros c' Hc'; apply put_moved_core; [done | exact Hc' | by eexists]].
  ends_step; [|ends_step; apply ends_ok, moved_in_table; [by apply decFreq_in_table | done]].
  ends_step; [by apply ends_ok, moved_in_table, setMaxCoreFreq_in_table|].
  ends_step; [|ends_step; [|by apply ends_ok, moved_in_table]].
  - apply ends_ok, incFreq_moved; [|done]. rewrite <- (to_governor _ _ _ _ p Hp). exact (bool_decide_eq_true_1 _ Heqb1).
  - eapply ends_mono; [apply core_max_allowed_ends|]. intros c' Hk. by apply moved_in_table, Hk.
Qed.

Lemma memscale_core_ends i p : i < nc -> tables_ok p -> ends tables_ok (memscale_core i p).
Proof.
  intros Hi Hp. unfold memscale_core. do 3 ends_step. destruct a1 as [load c]. cbn [snd] in H1. cbv zeta.
  apply put_moved_core; [done | | by eexists]. apply moved_in_table.
  destruct (F64.leb _ _); [by apply setMaxCoreFreq_in_table|]. destruct (F64.ltb _ _); [by apply setMinCoreFreq_in_table | done].
Qed.

Lemma memscale_ip_ends type id p : tables_ok p -> ends tables_ok (memscale_ip type id p).
Proof.
  intros Hp. unfold memscale_ip. ends_step. ends_step. ends_step. destruct a1 as [load ip].
  eapply ends_bind; [instantiate (1 := keeps_ip ip); ends_tac; by intros ?|].
  intros ip' Hip'. ends_tac. eapply put_ip_ok; [done | done |]. intros Hx. auto.
Qed.

Lemma load_ip_ends type id p : tables_ok p -> ends tables_ok (load_ip type id p).
Proof.
  intros Hp. unfold load_ip. ends_step. ends_step; [by apply ends_ok|]. do 3 ends_step.
  destruct a2 as [load ip]. ends_step; [apply ends_ok; by eapply put_ip_ok|].
  eapply ends_bind.
  - instantiate (1 := keeps_ip ip). ends_tac; try (by intros ?).
    + by apply incFreq_ends.
    + by apply decFreq_ends.
  - intros ip' Hip'. ends_tac. eapply put_ip_ok; [done | done |]. intros Hx. auto.
Qed.
#[local] Hint Resolve load_core_ends load_ip_ends memscale_core_ends memscale_ip_ends : ends.
#[local] Hint Resolve for_cores_ends for_ips_ends : ends.

Lemma dvfsLoadBased_ends p : tables_ok p -> ends tables_ok (dvfsLoadBased p).
Proof. intros Hp. unfold dvfsLoadBased. by ends_tac. Qed.
Lemma dvfsMemScale_ends slack p : tables_ok p -> ends tables_ok (dvfsMemScale slack p).
Proof. intros Hp. unfold dvfsMemScale. by ends_tac. Qed.

(** ** Figures of merit

    Each turn of the loops clears a figure above the threshold. *)

Definition alive (threshold : spec_float) (figures : list spec_float) : nat :=
  length (filter (fun x => F64.ltb threshold x = true) figures).

Lemma alive_insert threshold figures n x :
  F64.ltb threshold zero = false -> F64.ltb threshold x = true -> figures !! n = Some x ->
  (alive threshold (<[n := zero]> figures) < alive threshold figures)%nat.
Proof.
  intros Hz Hx Hn. unfold alive. rewrite <- (take_drop_middle figures n x Hn) at 2.
  pose proof (lookup_lt_Some _ _ _ Hn). rewrite insert_take_drop by done.
  rewrite !filter_app, !filter_cons, Hz, Hx, !length_app.
  rewrite decide_False by done. rewrite decide_True by done. cbn [length]. lia.
Qed.

Lemma alive_le threshold figures : (alive threshold figures <= length figures)%nat.
Proof. apply length_filter. Qed.

Lemma alive_cleared threshold figures ind x :
  F64.ltb threshold zero = false -> F64.ltb threshold x = true -> zget figures ind = Some x ->
  (alive threshold (zalter (fun _ => zero) figures ind) < alive threshold figures)%nat.
Proof.
  intros Hz Hx Hi. unfold zget in Hi. unfold zalter. case_bool_decide; [|done].
  replace (alter _ _ figures) with (<[Z.to_nat ind := zero]> figures).
  - by apply (alive_insert threshold figures _ x).
  - apply list_eq. intros k. rewrite list_lookup_alter.
    destruct (decide (Z.to_nat ind = k)) as [<-|Hk].
    + rewrite list_lookup_insert_eq; [by rewrite Hi | by eapply lookup_lt_Some].
    + by rewrite list_lookup_insert_ne.
Qed.

Lemma eligible_ends threshold figures ind :
  ends (fun go : bool => go = true -> exists x, zget figures ind = Some x /\ F64.ltb threshold x = true)
    (eligible threshold figures ind).
Proof.
  unfold eligible. destruct (bool_decide _); [|by apply ends_ok]. unfold at_ip.
  eapply ends_bind; [apply option_ends|]. intros x Hx. apply ends_ok. intros Ht. by exists x.
Qed.

Lemma drain_max_ends fuel threshold : F64.ltb threshold zero = false -> forall figures slack p,
  (alive threshold figures < fuel)%nat -> tables_ok p -> ends tables_ok (drain_max fuel threshold figures slack p).
Proof.
  intros Hz. induction fuel as [|fuel IH]; intros figures slack p Hf Hp; [lia|]. cbn [drain_max].
  eapply ends_bind; [apply eligible_ends|]. intros [|] Hgo; [|by apply ends_ok].
  destruct (Hgo eq_refl) as (x & Hx & Ht). eapply ends_bind; [by apply setDVFSSlackFrequencies_ends|].
  intros [s q] Hq. apply IH; [|done]. pose proof (alive_cleared _ _ _ _ Hz Ht Hx). lia.
Qed.

Lemma drain_min_ends fuel : forall figures slack p,
  (alive zero figures < fuel)%nat -> tables_ok p -> ends slack_ok (drain_min fuel figures slack p).
Proof.
  induction fuel as [|fuel IH]; intros figures slack p Hf Hp; [lia|]. cbn [drain_min].
  eapply ends_bind; [apply eligible_ends|]. intros [|] Hgo; [|by apply ends_ok].
  destruct (Hgo eq_refl) as (x & Hx & Ht). eapply ends_bind; [by apply setDVFSSlackFrequencies_ends|].
  intros [s q] Hq. destruct (F64.ltb zero s); [by apply ends_ok|].
  apply IH; [|done]. assert (F64.ltb zero zero = false) as Hz by by vm_compute.
  pose proof (alive_cleared _ _ _ _ Hz Ht Hx). lia.
Qed.

(** There is a figure for each type of IP. *)
Definition figures_ok (figures : list spec_float) : Prop := zlen figures = IP_TYPE_END.

Lemma drain_fuel_enough threshold figures : figures_ok figures -> (alive threshold figures < drain_fuel)%nat.
Proof. unfold figures_ok, zlen. intros H. pose proof (alive_le threshold figures). unfold drain_fuel. lia. Qed.

Lemma spend_slack_ends threshold figures slack p :
  F64.ltb threshold zero = false -> figures_ok figures -> tables_ok p ->
  ends tables_ok (spend_slack threshold figures slack p).
Proof.
  intros Hz Hf Hp. unfold spend_slack. eapply ends_bind; [by apply dvfsMemory_ends|]. intros [[b s] q] Hq.
  destruct (_ && _); [by apply ends_ok|]. destruct (F64.ltb zero s).
  - apply drain_max_ends; [done | by apply drain_fuel_enough | done].
  - eapply ends_bind; [apply drain_min_ends; [by apply drain_fuel_enough | done]|].
    intros [s' q'] Hq'. by apply ends_ok.
Qed.

Lemma set_figure_ends type x figures : figures_ok figures -> ends figures_ok (set_figure type x figures).
Proof. intros Hf. unfold set_figure. ends_tac. unfold figures_ok. by rewrite zlen_zalter. Qed.
#[local] Hint Resolve set_figure_ends : ends.

Lemma flow_figure_ends figure p ip figures :
  (forall ip energy, ends (fun _ => True) (figure ip energy)) -> figures_ok figures ->
  ends figures_ok (flow_figure figure p ip figures).
Proof. intros Hfig Hf. unfold flow_figure. by ends_tac. Qed.

Lemma core_figure_ends figure p figures :
  (forall c, core_ok c -> ends (fun _ => True) (figure c)) -> tables_ok p -> figures_ok figures ->
  ends figures_ok (core_figure figure p figures).
Proof.
  intros Hfig Hp Hf. unfold core_figure. apply ends_foldM; [|done]. intros l i Hi Hl. apply in_use in Hi; [|done].
  by ends_tac.
Qed.

(** A governor that takes the cores' figure, then those of the flow. *)
Lemma by_figures_ends threshold core_fig ip_fig slack p :
  F64.ltb threshold zero = false ->
  (forall c, core_ok c -> ends (fun _ => True) (core_fig c)) -> (forall ip energy, ends (fun _ => True) (ip_fig ip energy)) ->
  tables_ok p ->
  ends tables_ok
    (figures ← core_figure core_fig p no_figures;
     figures ← first_flow (flow_figure ip_fig p) p figures;
     spend_slack threshold figures slack p).
Proof.
  intros Hz Hc Hi Hp. eapply ends_bind; [by apply core_figure_ends|]. intros figures Hf.
  apply (ends_bind figures_ok); [apply first_flow_ends; [|done]; intros; by apply flow_figure_ends|].
  intros figures' Hf'. by apply spend_slack_ends.
Qed.

Lemma getOptCoreFreq_ends c : core_ok c -> ends tabled (getOptCoreFreq c).
Proof. intros Hc. unfold getOptCoreFreq. ends_tac. by apply row_tabled. Qed.
#[local] Hint Resolve getOptCoreFreq_ends : ends.
Lemma core_optimal_energy_ends p c : core_ok c -> ends (fun _ => True) (core_optimal_energy p c).
Proof. intros Hc. unfold core_optimal_energy. by ends_read. Qed.
#[local] Hint Resolve core_optimal_energy_ends : ends.

Lemma no_figure_below_zero : F64.ltb zero zero = false /\ F64.ltb EPSILON zero = false.
Proof. by vm_compute. Qed.

Lemma dvfsParetoEfficient_ends slack p : tables_ok p -> ends tables_ok (dvfsParetoEfficient slack p).
Proof. intros Hp. apply by_figures_ends; [apply no_figure_below_zero | intros; by ends_read .. | done]. Qed.
Lemma dvfsMaxEnergyConsumer_ends slack p : tables_ok p -> ends tables_ok (dvfsMaxEnergyConsumer slack p).
Proof. intros Hp. apply by_figures_ends; [apply no_figure_below_zero | intros; by ends_read .. | done]. Qed.
Lemma dvfsMaxPowerConsumer_ends slack p : tables_ok p -> ends tables_ok (dvfsMaxPowerConsumer slack p).
Proof. intros Hp. apply by_figures_ends; [apply no_figure_below_zero | intros; by ends_read .. | done]. Qed.

Lemma core_energy_per_time_ends p e : tables_ok p -> ends (fun _ => True) (core_energy_per_time p e).
Proof. intros Hp. unfold core_energy_per_time. by ends_read. Qed.
Lemma ip_energy_per_time_ends p ip e : ends (fun _ => True) (ip_energy_per_time p ip e).
Proof. unfold ip_energy_per_time. by ends_read. Qed.
#[local] Hint Resolve core_energy_per_time_ends ip_energy_per_time_ends : ends.
Lemma energy_per_time_ends p : tables_ok p -> ends figures_ok (energy_per_time p).
Proof.
  intros Hp. unfold energy_per_time. apply first_flow_ends; [|done]. intros ip figures Hf. unfold energy_per_time_step.
  ends_tac; [done|]. apply flow_figure_ends; [|done]. by auto with ends.
Qed.
#[local] Hint Resolve energy_per_time_ends : ends.
Lemma dvfsMaxEnergyPerTimeConsumer_ends slack p :
  tables_ok p -> ends tables_ok (dvfsMaxEnergyPerTimeConsumer slack p).
Proof.
  intros Hp. unfold dvfsMaxEnergyPerTimeConsumer. ends_step. apply spend_slack_ends; [|done..].
  apply no_figure_below_zero.
Qed.

(** ** Knapsack *)

Lemma read_power_ok p : tables_ok p -> tables_ok (read_power p).
Proof. by apply sized_tables_same. Qed.

Definition same_memory (p p' : GemDroid) : Prop := tables_ok p' /\ gemdroid_memory p' = gemdroid_memory p.

Lemma on_core_memory f i p :
  (forall c, ends (keeps_core c) (f c)) -> tables_ok p -> ends (same_memory p) (on_core f i p).
Proof. intros Hf Hp. unfold on_core. ends_tac. split; [by eapply put_core_ok | done]. Qed.
Lemma on_ip_memory f type id p :
  (forall ip, ends (keeps_ip ip) (f ip)) -> tables_ok p -> ends (same_memory p) (on_ip f type id p).
Proof. intros Hf Hp. unfold on_ip. ends_tac. split; [by eapply put_ip_ok | done]. Qed.

Lemma slower_memory_freq p : getMemFreq (slower_memory p) = step_down (getMemFreq p).
Proof. reflexivity. Qed.
Lemma slower_memory_ok p : tables_ok p -> tables_ok (slower_memory p).
Proof.
  intros Hp. apply upd_memory_ok; [done | | exact (to_opt _ _ _ _ p Hp)]. apply (reachable_step _ (to_freq _ _ _ _ p Hp)).
Qed.

Lemma assert_nonneg_ends x : ends (fun _ => True) (assert_nonneg x).
Proof. unfold assert_nonneg. by ends_read. Qed.
#[local] Hint Resolve assert_nonneg_ends : ends.
Lemma extra_time_ends p last curr next ip st : ends (fun _ => True) (extra_time p last curr next ip st).
Proof. destruct st. unfold extra_time. by ends_read. Qed.
Lemma core_step_estimate_ends p c t i : core_ok c -> ends (fun _ => True) (core_step_estimate p c t i).
Proof. intros Hc. unfold core_step_estimate. by ends_read. Qed.
Lemma ip_step_estimate_ends p type ip t i : ends (fun _ => True) (ip_step_estimate p type ip t i).
Proof. unfold ip_step_estimate. by ends_read. Qed.
#[local] Hint Resolve extra_time_ends core_step_estimate_ends ip_step_estimate_ends : ends.
Lemma find_step_ends est saving extra n : (forall i, ends (fun _ => True) (est i)) -> forall i,
  ends (fun _ => True) (find_step est saving extra n i).
Proof. intros He. induction n as [|n IH]; intros i; cbn [find_step]; by ends_read. Qed.

(** A trade moves the memory one step down. *)
Definition traded (p : GemDroid) (r : bool * GemDroid) : Prop :=
  tables_ok r.2 /\ (r.1 = true -> getMemFreq r.2 = step_down (getMemFreq p)).

Lemma trade_step p m :
  ends (same_memory (slower_memory p)) m -> ends (traded p) (q ← m; Ok (true, q)).
Proof.
  intros Hm. eapply ends_bind; [exact Hm|]. intros q [Hq E]. apply ends_ok. split; [done|]. intros _.
  unfold getMemFreq. cbn [snd]. by rewrite E.
Qed.

Lemma knapsack_trade_ends figures last saving extra p :
  tables_ok p -> ends (traded p) (knapsack_trade figures last saving extra p).
Proof.
  intros Hp. pose proof (slower_memory_ok p Hp) as Hs. unfold knapsack_trade. cbv zeta.
  ends_step; [|ends_step; [|by apply ends_ok]]; do 2 ends_step;
    (apply (ends_bind (fun _ => True)); [apply find_step_ends; eauto with ends|]);
    intros [k|] _; try (by apply ends_ok); apply trade_step.
  - apply on_core_memory; [by auto with ends | done].
  - apply on_ip_memory; [by auto with ends | done].
Qed.

Lemma knapsack_loop_ends fuel figures last slack : forall p,
  (rung (getMemFreq p) < fuel)%nat -> tables_ok p -> ends tables_ok (knapsack_loop fuel figures last slack p).
Proof.
  induction fuel as [|fuel IH]; intros p Hf Hp; [lia|]. cbn [knapsack_loop]. cbv zeta.
  destruct (F64.ltb (F64.add MIN_MEM_FREQ EPSILON) (getMemFreq p)) eqn:Ha; [|by apply ends_ok].
  destruct (above_step_down _ (to_freq _ _ _ _ p Hp) Ha) as [_ Hdown]. clear Ha.
  apply (ends_bind (fun _ => True)); [apply first_flow_reads; intros; apply extra_time_ends|].
  intros [extra_cpu extra_ip] _. eapply ends_bind; [by apply knapsack_trade_ends, read_power_ok|].
  intros [[|] q] [Hq Hm]; cbn [fst snd] in *; [|by apply ends_ok].
  apply IH; [|done]. rewrite Hm by done. change (getMemFreq (read_power p)) with (getMemFreq p).
  change (m_freq (gemdroid_memory p)) with (getMemFreq p) in Hdown. lia.
Qed.

Lemma dvfsGreedyKnapsack_ends slack p : tables_ok p -> ends tables_ok (dvfsGreedyKnapsack slack p).
Proof.
  intros Hp. unfold dvfsGreedyKnapsack. ends_step. cbv zeta. destruct (F64.ltb slack zero).
  - eapply ends_bind; [apply drain_min_ends; [by apply drain_fuel_enough | done]|].
    intros [s q] Hq. destruct (F64.ltb s zero); [|by apply ends_ok].
    eapply ends_bind; [by apply dvfsMemory_ends|]. intros [[b s'] q'] Hq'. by apply ends_ok.
  - ends_step. destruct a0 as [[b s] q]. destruct (_ && _).
    + apply drain_max_ends; [apply no_figure_below_zero | by apply drain_fuel_enough | done].
    + apply knapsack_loop_ends; [by apply memory_fuel_enough | done].
Qed.

(** ** CoScale

    Each turn of the loop lowers the memory or the state of the part, or is the
    last. *)

Definition es_ends (es : Estimates) : Prop :=
  (forall m, ends (fun _ => True) (es_memory_time es m)) /\
  (forall t k, ends (fun _ => True) (es_part es t k)).

(** The memory frequency tried is reachable; the chosen one is wanted. *)
Definition coscale_pair {A} (r : spec_float * spec_float * A) : Prop :=
  r.1.1 ∈ reachable_freqs /\ r.1.2 ∈ wanted_freqs.

(** One lowering of the memory, if it is not at its lowest. *)
Lemma try_lower_memory mem :
  mem ∈ reachable_freqs ->
  let mem' := if apart mem MIN_MEM_FREQ then F64.sub mem tenth else mem in
  mem' ∈ reachable_freqs /\
  ((rung mem' < rung mem)%nat \/ (rung mem' = rung mem /\ below mem' MIN_MEM_FREQ = true)).
Proof.
  intros Hm. cbv zeta. destruct (apart mem MIN_MEM_FREQ) eqn:Ha.
  - destruct (apart_lower _ Hm Ha) as [Hl Hr]. split; [exact Hl | left; exact Hr].
  - split; [done|]. right. split; [done|]. by apply not_apart_below.
Qed.

Lemma coscale_loop_ends fuel es limit lowest : es_ends es -> forall mem state mem_freq chosen,
  mem ∈ reachable_freqs -> mem_freq ∈ wanted_freqs -> (rung mem + Z.to_nat (state - lowest) < fuel)%nat ->
  ends coscale_pair (coscale_loop fuel es limit lowest mem state mem_freq chosen).
Proof.
  intros [Htime Hpart]. induction fuel as [|fuel IH]; intros mem state mem_freq chosen Hm Hmf Hf; [lia|].
  cbn [coscale_loop]. cbv zeta. destruct (try_lower_memory mem Hm) as [Hm' Hr].
  revert Hm' Hr. generalize (if apart mem MIN_MEM_FREQ then F64.sub mem tenth else mem). intros mem' Hm' Hr.
  apply (ends_bind (fun _ => True)); [by ends_read|]. intros memory_time _.
  destruct (bool_decide_reflect (state > lowest)) as [Hs|Hs]; cbn [negb andb].
  - apply (ends_bind (fun _ => True)); [done|]. intros [time energy] _.
    destruct (if F64.ltb _ _ then _ else _ && _).
    + apply IH; [done | by apply reachable_wanted | lia].
    + destruct (F64.ltb time limit); [|by apply ends_ok]. apply IH; [done..|lia].
  - destruct Hr as [Hr|[Hr Hb]]; [|rewrite Hb; by apply ends_ok].
    destruct (below mem' MIN_MEM_FREQ); [by apply ends_ok|]. apply (ends_bind (fun _ => True)); [by apply ends_ok|].
    intros [time energy] _. destruct (if F64.ltb _ _ then _ else _ && _).
    + apply IH; [done | by apply reachable_wanted | lia].
    + destruct (F64.ltb time limit); [|by apply ends_ok]. apply IH; [done..|lia].
Qed.

Record cs_ok (cs : CoScale) : Prop := {
  co_platform : tables_ok (cs_platform cs);
  co_mem : cs_mem cs ∈ reachable_freqs;
  co_mem_freq : cs_mem_freq cs ∈ wanted_freqs;
  co_max : cs_max cs ∈ zero :: wanted_freqs
}.

Lemma keep_max_ok mem mem_freq p cs :
  cs_ok cs -> tables_ok p -> mem ∈ reachable_freqs -> mem_freq ∈ wanted_freqs -> cs_ok (keep_max mem mem_freq p cs).
Proof.
  intros Hcs Hp Hm Hmf. constructor; [done | done | done |]. unfold keep_max. cbn [cs_max].
  destruct (F64.ltb _ _); [apply elem_of_cons; by right | by apply co_max].
Qed.

(** The memory goes up, or the loop chooses. *)
Lemma coscale_choice_ends (up : bool) cs fuel es limit lowest state high chosen :
  cs_ok cs -> es_ends es -> (10 + Z.to_nat (state - lowest) < fuel)%nat ->
  ends coscale_pair
    (if up then Ok (cs_mem cs, raise_memory (cs_mem_freq cs), high)
     else coscale_loop fuel es limit lowest (cs_mem cs) state (cs_mem_freq cs) chosen).
Proof.
  intros Hcs He Hf. destruct up.
  - apply ends_ok. split; [by apply co_mem | by apply wanted_raise, co_mem_freq].
  - apply coscale_loop_ends; [done | by apply co_mem | by apply co_mem_freq |].
    pose proof (rung_le _ (co_mem cs Hcs)). lia.
Qed.

Lemma coscale_core_ends cs : cs_ok cs -> ends cs_ok (coscale_core cs).
Proof.
  intros Hcs. pose proof (co_platform cs Hcs) as Hp. pose proof (read_power_ok _ Hp) as Hq.
  unfold coscale_core. cbv zeta. ends_step. ends_step; [by apply ends_ok|]. do 7 ends_step.
  pose proof (core_in_table _ _ H Hp) as Hok. pose proof (core_state _ Hok). pose proof (core_opt_state _ Hok). eapply ends_bind.
  - apply coscale_choice_ends; [done | split; intros; cbn [es_memory_time es_part]; by ends_read |].
    unfold CORE_DVFS_STATES in *. unfold coscale_fuel. lia.
  - intros [[mem mem_freq] chosen] [Hm Hmf]. eapply ends_bind; [by apply on_core_ends; auto with ends|].
    intros q' Hq'. apply ends_ok. by apply keep_max_ok.
Qed.

Lemma coscale_accelerator_ends type cs : cs_ok cs -> ends cs_ok (coscale_accelerator type cs).
Proof.
  intros Hcs. pose proof (co_platform cs Hcs) as Hp. pose proof (read_power_ok _ Hp) as Hq.
  unfold coscale_accelerator. cbv zeta. ends_step. ends_step; [by apply ends_ok|]. do 7 ends_step.
  destruct (ip_in_table _ _ _ Hp H) as [Hs Ho]. eapply ends_bind.
  - apply coscale_choice_ends; [done | split; intros; cbn [es_memory_time es_part]; by ends_read |].
    unfold IP_DVFS_STATES in *. unfold coscale_fuel. lia.
  - intros [[mem mem_freq] chosen] [Hm Hmf]. eapply ends_bind; [by apply on_ip_ends; auto with ends|].
    intros q' Hq'. apply ends_ok. by apply keep_max_ok.
Qed.

Lemma coscale_device_loop_ends fuel time_of limit : (forall m, ends (fun _ => True) (time_of m)) -> forall mem mem_freq,
  mem ∈ reachable_freqs -> mem_freq ∈ wanted_freqs -> (rung mem < fuel)%nat ->
  ends (fun r => r.1 ∈ reachable_freqs /\ r.2 ∈ wanted_freqs) (coscale_device_loop fuel time_of limit mem mem_freq).
Proof.
  intros Ht. induction fuel as [|fuel IH]; intros mem mem_freq Hm Hmf Hf; [lia|]. cbn [coscale_device_loop]. cbv zeta.
  destruct (apart mem MIN_MEM_FREQ) eqn:Ha; [|by apply ends_ok].
  destruct (apart_lower _ Hm Ha) as [Hl Hr]. unfold lower in *. clear Ha.
  apply (ends_bind (fun _ => True)); [done|]. intros time _. destruct (F64.ltb time limit); [|by apply ends_ok].
  apply IH; [done | by apply reachable_wanted | lia].
Qed.

Lemma coscale_device_ends type cs : cs_ok cs -> ends cs_ok (coscale_device type cs).
Proof.
  intros Hcs. pose proof (read_power_ok _ (co_platform cs Hcs)) as Hq.
  unfold coscale_device. cbv zeta. ends_step. ends_step; [by apply ends_ok|]. do 2 ends_step.
  apply (ends_bind (fun r => r.1 ∈ reachable_freqs /\ r.2 ∈ wanted_freqs)).
  - ends_step; [apply ends_ok; split; [by apply co_mem | by apply wanted_raise, co_mem_freq]|].
    apply coscale_device_loop_ends; [by auto with ends | by apply co_mem | by apply co_mem_freq |].
    pose proof (rung_le _ (co_mem cs Hcs)). unfold coscale_fuel. lia.
  - intros [mem mem_freq] [Hm Hmf]. apply ends_ok. by apply keep_max_ok.
Qed.

Lemma coscale_step_ends ip cs : cs_ok cs -> ends cs_ok (coscale_step ip cs).
Proof.
  intros Hcs. unfold coscale_step. ends_step. ends_step; [by apply ends_ok|].
  ends_step; [by apply coscale_core_ends|].
  ends_step; [by apply coscale_accelerator_ends | by apply coscale_device_ends].
Qed.

Lemma dvfsCoScaleNewNew_ends p : tables_ok p -> ends tables_ok (dvfsCoScaleNewNew p).
Proof.
  intros Hp. unfold dvfsCoScaleNewNew. apply (ends_bind cs_ok).
  - apply first_flow_ends; [intros; by apply coscale_step_ends|]. pose proof (to_freq _ _ _ _ p Hp) as Hf.
    constructor; [done | done | by apply reachable_wanted | left].
  - intros cs [Hq _ _ Hmax]. destruct (F64.eqb (cs_max cs) zero) eqn:E; [by apply ends_ok|].
    apply elem_of_cons in Hmax as [Hz|Hw]; [by rewrite Hz in E; vm_compute in E|].
    eapply ends_mono; [apply set_mem_freq_ends; [done|]; by apply wanted_accepted | by intros q' [Hq' _]].
Qed.

(** ** Dynamic programming *)

Definition plan_ok (best : Plan) : Prop := pl_mem best ∈ reachable_freqs.

Lemma try_mem_ends inner min_mem :
  min_mem ∈ [MIN_MEM_FREQ; F64.add MIN_MEM_FREQ (F64.lit 3 10)] ->
  (forall mem best, mem ∈ reachable_freqs -> plan_ok best -> ends (fun r => plan_ok r.2) (inner mem best)) ->
  forall fuel mem best, mem ∈ reachable_freqs -> plan_ok best -> (S (rung mem) < fuel)%nat ->
  ends plan_ok (try_mem fuel inner min_mem mem best).
Proof.
  intros Hmin Hin. induction fuel as [|fuel IH]; intros mem best Hm Hb Hf; [lia|]. cbn [try_mem].
  destruct (F64.leb min_mem mem) eqn:Hle; [|by apply ends_ok].
  eapply ends_bind; [by apply Hin|]. intros [[|] best'] Hb'; [|by apply ends_ok].
  destruct (try_lower mem Hm min_mem Hmin Hle) as [[Hl Hr]|Hstop]; clear Hle; unfold lower in *.
  - apply IH; [done | done | lia].
  - destruct fuel as [|fuel]; [lia|]. cbn [try_mem]. rewrite Hstop. by apply ends_ok.
Qed.

Lemma try_ip_states_ends better est time0 energy0 mem cpu :
  (forall k, ends (fun _ => True) (est k)) -> mem ∈ reachable_freqs -> forall n k best,
  plan_ok best -> ends plan_ok (try_ip_states better est time0 energy0 mem cpu n k best).
Proof.
  intros He Hm. induction n as [|n IH]; intros k best Hb; cbn [try_ip_states]; [by apply ends_ok|].
  apply (ends_bind (fun _ => True)); [done|]. intros [t e] _. destruct (F64.ltb deadline _); [by apply ends_ok|].
  apply IH. by destruct (better _ _).
Qed.

Lemma try_cpu_states_ends est dev_time inner :
  (forall k, ends (fun _ => True) (est k)) ->
  (forall k t e best, plan_ok best -> ends plan_ok (inner k t e best)) -> forall n k best,
  plan_ok best -> ends plan_ok (try_cpu_states est dev_time inner n k best).
Proof.
  intros He Hi. induction n as [|n IH]; intros k best Hb; cbn [try_cpu_states]; [by apply ends_ok|].
  apply (ends_bind (fun _ => True)); [done|]. intros [t e] _. destruct (F64.ltb deadline _); [by apply ends_ok|].
  apply (ends_bind plan_ok); [by apply Hi | by intros b' Hb'; apply IH].
Qed.

Lemma device_costs_ends p mem devs n : ends (fun _ => True) (device_costs p mem devs n).
Proof. unfold device_costs. apply foldM_reads. intros [t e] i. by ends_read. Qed.
Lemma ip_time_at_ends p type ip mem : ends (fun _ => True) (ip_time_at p type ip mem).
Proof. unfold ip_time_at. by ends_read. Qed.
Lemma ip_estimate_ends p type ip t k : ends (fun _ => True) (ip_estimate p type ip t k).
Proof. unfold ip_estimate. by ends_read. Qed.
Lemma cpu_estimate_ends p c t k : core_ok c -> ends (fun _ => True) (cpu_estimate p c t k).
Proof. intros Hc. unfold cpu_estimate. by ends_read. Qed.
Lemma print_times_ends p devs : ends (fun _ => True) (print_times p devs).
Proof. unfold print_times. by ends_read. Qed.
#[local] Hint Resolve device_costs_ends ip_time_at_ends ip_estimate_ends cpu_estimate_ends print_times_ends : ends.

Lemma max_freq_reachable : MAX_MEM_FREQ ∈ reachable_freqs.
Proof. apply tenth_reachable. right. left. Qed.
Lemma game_freq_reachable : F64.lit 5 10 ∈ reachable_freqs.
Proof. apply tenth_reachable. do 2 right. by apply tenths_mem. Qed.

Lemma try_all_mem inner min_mem e cpu ip :
  min_mem ∈ [MIN_MEM_FREQ; F64.add MIN_MEM_FREQ (F64.lit 3 10)] ->
  (forall mem best, mem ∈ reachable_freqs -> plan_ok best -> ends (fun r => plan_ok r.2) (inner mem best)) ->
  ends plan_ok (try_mem memory_fuel inner min_mem MAX_MEM_FREQ (mkPlan e MAX_MEM_FREQ cpu ip)).
Proof.
  intros Hmin Hin. apply try_mem_ends; [done | done | exact max_freq_reachable | exact max_freq_reachable |].
  apply Nat.ltb_lt. by vm_compute.
Qed.

Lemma set_plan_freq_ends f p : f ∈ reachable_freqs -> tables_ok p -> ends tables_ok (set_mem_freq f p).
Proof. intros Hf Hp. eapply ends_mono; [by apply set_mem_freq_ends | by intros q [Hq _]]. Qed.

Lemma dvfsDynamicProg1_ends accs devs n p : tables_ok p -> ends tables_ok (dvfsDynamicProg1 accs devs n p).
Proof.
  intros Hp. pose proof (read_power_ok _ Hp) as Hq. unfold dvfsDynamicProg1. do 4 ends_step.
  ends_step; [by apply ends_ok|]. cbv zeta. apply (ends_bind plan_ok).
  - apply try_all_mem; [right; left|]. intros mem best Hm Hb.
    ends_step. destruct a3 as [dev_time dev_energy]. ends_step; [by apply ends_ok|]. ends_step.
    apply (ends_bind plan_ok); [by apply try_ip_states_ends; auto with ends|]. intros best' Hb'. by apply ends_ok.
  - intros best Hb. ends_step. generalize (bool_decide (a3 = APP_ID_ANGRYBIRDS) || bool_decide (a3 = APP_ID_MPGAME)).
    intros game. eapply ends_bind.
    + apply set_plan_freq_ends; [|done]. destruct game; [exact game_freq_reachable | exact Hb].
    + intros q Hq'. apply on_ip_ends; [by auto with ends | done].
Qed.

Lemma dvfsDynamicProg2_ends accs devs n p : tables_ok p -> ends tables_ok (dvfsDynamicProg2 accs devs n p).
Proof.
  intros Hp. pose proof (read_power_ok _ Hp) as Hq. unfold dvfsDynamicProg2. do 6 ends_step.
  ends_step; [by apply ends_ok|]. cbv zeta. apply (ends_bind plan_ok).
  - apply try_all_mem; [left|]. intros mem best Hm Hb.
    ends_step. destruct a5 as [dev_time dev_energy]. ends_step; [by apply ends_ok|]. ends_step.
    apply (ends_bind plan_ok); [|intros best' Hb'; by apply ends_ok].
    apply try_cpu_states_ends; [eauto with ends | | done]. intros k t e best' Hb'. ends_step.
    apply try_ip_states_ends; [by auto with ends | done | done].
  - intros best Hb. eapply ends_bind; [by apply set_plan_freq_ends|]. intros q Hq'.
    eapply ends_bind; [by apply on_core_ends; auto with ends|]. intros q' Hq''.
    apply on_ip_ends; [by auto with ends | done].
Qed.

Lemma pick_ip_ends keep row st i : ends (fun _ => True) (pick_ip keep row st i).
Proof. unfold pick_ip, push_at. by ends_read. Qed.
Lemma getIPAccsInFlow_ends t a i j : ends (fun _ => True) (getIPAccsInFlow t a i j).
Proof. unfold getIPAccsInFlow. ends_step. ends_step. apply foldM_reads. intros; apply pick_ip_ends. Qed.
Lemma getIPDevsInFlow_ends t a i j : ends (fun _ => True) (getIPDevsInFlow t a i j).
Proof. unfold getIPDevsInFlow. ends_step. ends_step. apply foldM_reads. intros; apply pick_ip_ends. Qed.
#[local] Hint Resolve getIPAccsInFlow_ends getIPDevsInFlow_ends : ends.
#[local] Hint Resolve dvfsDynamicProg1_ends dvfsDynamicProg2_ends : ends.

Lemma dvfsDynamicProg_ends p : tables_ok p -> ends tables_ok (dvfsDynamicProg p).
Proof. intros Hp. unfold dvfsDynamicProg. by ends_tac. Qed.

(** ** All governors *)

#[local] Hint Resolve dvfsFixedPriority_ends dvfsCoreOracle_ends dvfsParetoEfficient_ends : ends.
#[local] Hint Resolve dvfsMaxEnergyConsumer_ends dvfsMaxPowerConsumer_ends dvfsMaxEnergyPerTimeConsumer_ends : ends.
#[local] Hint Resolve dvfsGreedyKnapsack_ends dvfsCoScaleNewNew_ends dvfsMemScale_ends dvfsDynamicProg_ends : ends.
#[local] Hint Resolve dvfsLoadBased_ends : ends.

Lemma run_governor_ends slack p : tables_ok p -> ends tables_ok (run_governor slack p).
Proof. intros Hp. unfold run_governor. by ends_tac. Qed.
#[local] Hint Resolve run_governor_ends : ends.

Lemma time_of_row_ends times row : forall t, ends (fun _ => True) (time_of_row times row t).
Proof. induction row as [|ip row IH]; intros t; cbn [time_of_row]; by ends_read. Qed.
#[local] Hint Resolve time_of_row_ends : ends.
Lemma getLastSlack_ends p app flow : ends (fun _ => True) (getLastSlack p app flow).
Proof. unfold getLastSlack, getLastTimeForFlow. by ends_read. Qed.
#[local] Hint Resolve getLastSlack_ends : ends.

Lemma core_tick_keeps g c : keeps_core c (Core.updateDVFS g c).
Proof. intros H. unfold Core.updateDVFS. by destruct (bool_decide _). Qed.

(** A decision starts with the first core. *)
Lemma deciding_ok p : sized_tables nc ni gv false p -> tables_ok (p <| dvfs_core := 0 |>).
Proof. intros [H1 H2 Hg _ H3 H4 H5 H6]. by apply Build_sized_tables. Qed.

Lemma updateDVFS_ends p : sized_tables nc ni gv false p -> ends tables_ok (updateDVFS p).
Proof.
  intros Hp. pose proof (deciding_ok p Hp) as Hq.
  unfold updateDVFS. ends_step; [by ends_step|]. cbv zeta. ends_step. ends_step.
  ends_step; [by apply ends_ok|]. eapply ends_bind.
  { apply for_cores_ends; [|exact Hq]. intros i q _ Hq'. apply on_core_ends; [|done]. intros c.
    apply ends_ok, core_tick_keeps. }
  intros q Hq1. eapply ends_bind.
  { apply for_ips_ends; [|exact Hq1]. intros type id q' Hq'. apply on_ip_ends; [|done]. intros ip.
    apply ends_ok. by intros ?. }
  intros q2 Hq2. by ends_tac.
Qed.
End Sized.
