(* ===== verification/StateInv.v ===== *)
(** * No part leaves its table of frequencies

    The cycles of the cores, the accelerators and the GPU keep their states in
    the tables, whatever the platform they run on answers: the platform is an
    environment with a property [P] that its operations keep. *)

From S2P Require Import Prelude.
From S2P Require Import Outcome.
From S2P Require Import GemDefines.
From S2P Require Import TraceFile.
From S2P Require Import Ip.
From S2P Require Import Coders.
From S2P Require Import Gpu.
From S2P Require Import Cores.
From S2P Require Import GovernorSafety.

(** ** Cores *)

Section Cores.
Import Cores.Core.
Context {E : Type} {port : CorePort E} (P : E -> Prop) (F : Prop).

(** [F] says that the core is in use. *)
Definition core_in (c : GemDroidCore) : Prop := F -> core_ok c.

(** The platform's operations keep [P]. *)
Record core_port_inv : Prop := {
  cpi_started e core type id frame : P e -> P (markIPRequestStarted e core type id frame);
  cpi_completed e core type id frame flow state :
    P e -> yields P (markIPRequestCompleted e core type id frame flow state);
  cpi_mem e id a is_read : P e -> P (enqueueCoreMemRequest e id a is_read).2;
  cpi_ip e core type a size is_read frame ft flow :
    P e -> yields (fun r => P r.2) (enqueueCoreIPRequest e core type a size is_read frame ft flow);
  cpi_count e : P e -> P (countCommittedInsn e);
  cpi_stop e : P e -> P (stopFetch e)
}.
Context (HP : core_port_inv).

Definition core_st {A} (r : A * GemDroidCore * E) : Prop := core_in r.1.2 /\ P r.2.
Definition core_pair (r : GemDroidCore * E) : Prop := core_in r.1 /\ P r.2.

#[local] Hint Resolve cpi_started cpi_completed cpi_ip cpi_count cpi_stop : ends.
(** A change of other members. *)
#[local] Hint Extern 1 (core_in _) => match goal with H : core_in _ |- _ => exact H end : ends.

Ltac core_tac :=
  repeat first
    [ lazymatch goal with
      | |- ends_with _ _ (let '(_, _) := ?x in _) =>
          let X := fresh "X" in assert (core_pair x) as X by (solve [eauto with ends]); destruct x, X; cbn [fst snd] in *
      end
    | ends_step
    | match goal with
      | H : core_st _ |- _ => destruct H; cbn [fst snd] in *
      | H : core_pair _ |- _ => destruct H; cbn [fst snd] in *
      | H : (fun _ => _) _ |- _ => progress cbv beta in H; cbn [fst snd] in H
      | |- core_st (_, _) => split; cbn [fst snd]
      | |- core_pair (_, _) => split; cbn [fst snd]
      | |- core_in (if ?b then _ else _) => destruct b
      end
    | solve [eauto with ends] ].

Lemma streakCalculator_ok c : core_in c -> core_in (streakCalculator c).
Proof. intros H. unfold streakCalculator. by destruct (bool_decide _). Qed.
Lemma end_profile_ok now c : core_in c -> core_in (end_profile now c).
Proof. intros H. unfold end_profile. by destruct (_ && _). Qed.
Lemma count_cycle_ok c : core_in c -> core_in (count_cycle c).
Proof. intros H. unfold count_cycle. by destruct (cpu_pstate c). Qed.
#[local] Hint Resolve streakCalculator_ok end_profile_ok count_cycle_ok : ends.

Lemma commitHeadTransaction_inv c : core_in c -> yields core_in (commitHeadTransaction c).
Proof. intros H. unfold commitHeadTransaction. by core_tac. Qed.
Lemma push_transaction_inv t c : core_in c -> yields core_in (push_transaction t c).
Proof. intros H. unfold push_transaction. by core_tac. Qed.
#[local] Hint Resolve commitHeadTransaction_inv push_transaction_inv : ends.
Lemma addInstructions_inv n c : core_in c -> yields core_in (addInstructions n c).
Proof. intros H. unfold addInstructions. by core_tac. Qed.
Lemma processMMURequest_inv b a c : core_in c -> yields core_in (processMMURequest b a c).
Proof. intros H. unfold processMMURequest. by core_tac. Qed.
Lemma checkDeadlock_inv c : core_in c -> yields core_in (checkDeadlock c).
Proof. intros H. unfold checkDeadlock. by core_tac. Qed.
#[local] Hint Resolve addInstructions_inv processMMURequest_inv checkDeadlock_inv : ends.

Lemma core_pair_intro c e : core_in c -> P e -> core_pair (c, e).
Proof. by split. Qed.
Lemma commit_stat_inv c e : core_in c -> P e -> core_pair (updateStatInstructionCommit c e).
Proof. intros H He. split; [exact H | by apply cpi_count]. Qed.
#[local] Hint Resolve commit_stat_inv core_pair_intro : ends.

Lemma issue_inv i t c e : core_in c -> P e -> yields core_st (issue i t c e).
Proof.
  intros H He. unfold issue. ends_step. pose proof (cpi_mem HP e (core_id c) (addr t) a He) as Hm.
  destruct (enqueueCoreMemRequest _ _ _ _) as [ok e']. by destruct ok; apply ends_ok; split.
Qed.
#[local] Hint Resolve issue_inv : ends.

Lemma in_order_step_inv st k : core_pair st -> yields core_pair (in_order_step st k).
Proof.
  destruct st as [c e]. intros [H He]. cbn [fst snd] in *. unfold in_order_step. core_tac.
Qed.
Lemma inOrderProcess_inv c e : core_in c -> P e -> yields core_pair (inOrderProcess c e).
Proof. intros H He. unfold inOrderProcess. apply ends_foldM; [|by split]. intros st k _. apply in_order_step_inv. Qed.

Lemma retire_head_inv t c : core_in c -> yields core_in (retire_head t c).
Proof.
  intros H. unfold retire_head. cbv zeta.
  match goal with |- context [streakCalculator ?x] => pose proof (streakCalculator_ok x H) as Hs end.
  revert Hs. generalize (streakCalculator (set_transaction 0 (reset_instr_committed t)
    (c <| number_of_instr_executed_OoO ::= fun n => n - instr_executed_ooo t |>) <| idleCycles := 0 |>)).
  intros c' Hs. core_tac.
Qed.
Lemma execute_inv i t c e : core_in c -> P e -> yields core_pair (execute i t c e).
Proof.
  intros H He. unfold execute. ends_step. apply ends_ok. split; [by apply streakCalculator_ok | by apply cpi_count].
Qed.
#[local] Hint Resolve retire_head_inv execute_inv inOrderProcess_inv : ends.
Lemma run_ahead_inv k c e : core_in c -> P e -> yields core_st (run_ahead k c e).
Proof. intros H He. unfold run_ahead. core_tac. Qed.
#[local] Hint Resolve run_ahead_inv : ends.
Lemma process_rest_inv k c e : core_in c -> P e -> yields core_st (process_rest k c e).
Proof. intros H He. unfold process_rest. core_tac. Qed.
#[local] Hint Resolve process_rest_inv : ends.
Lemma process_step_inv k c e : core_in c -> P e -> yields core_st (process_step k c e).
Proof. intros H He. unfold process_step. core_tac. Qed.
#[local] Hint Resolve process_step_inv : ends.
Lemma process_loop_inv fuel : forall j k c e, core_in c -> P e -> yields core_pair (process_loop fuel j k c e).
Proof.
  induction fuel as [|fuel IH]; intros j k c e H He; cbn [process_loop]; core_tac.
  destruct t; [by apply ends_ok | by apply IH..].
Qed.
Lemma process_inv c e : core_in c -> P e -> yields core_pair (process c e).
Proof. intros H He. by apply process_loop_inv. Qed.
#[local] Hint Resolve process_inv : ends.

(** Power states *)
Lemma setPStateActive_inv c e : core_in c -> P e -> core_pair (setPStateActive c e).
Proof.
  intros H He. unfold setPStateActive, setMaxCoreFreq.
  repeat destruct (bool_decide _); (split; [intros HF; destruct (H HF) as [Hs Ho]; by split | by apply cpi_started]).
Qed.
Lemma setPStateLowPower_inv c : core_in c -> yields core_in (setPStateLowPower c).
Proof. intros H. unfold setPStateLowPower. by core_tac. Qed.
#[local] Hint Resolve setPStateLowPower_inv : ends.
Lemma fall_asleep_inv c : core_in c -> yields core_in (fall_asleep c).
Proof. intros H. unfold fall_asleep. destruct (cpu_pstate c); core_tac. Qed.
#[local] Hint Resolve setPStateActive_inv fall_asleep_inv : ends.

(** Frames and calls *)
Definition core_with {A} (r : A * GemDroidCore) : Prop := core_in r.2.
Lemma isFrameDrop_inv now c : core_in c -> yields core_with (isFrameDrop now c).
Proof. intros H. unfold isFrameDrop. core_tac; exact H. Qed.
Lemma isAudioFrameDrop_inv now c : core_in c -> yields core_with (isAudioFrameDrop now c).
Proof. intros H. unfold isAudioFrameDrop. core_tac; exact H. Qed.
#[local] Hint Resolve isFrameDrop_inv isAudioFrameDrop_inv : ends.
Lemma setIdleRatio_inv c : core_in c -> yields core_in (setIdleRatio c).
Proof. intros H. unfold setIdleRatio. core_tac. Qed.
#[local] Hint Resolve setIdleRatio_inv : ends.

Lemma frame_update_call_inv c e : core_in c -> P e -> yields core_st (frame_update_call c e).
Proof.
  intros H He. unfold frame_update_call. ends_step. destruct a as [drop c']. unfold core_with in H0. cbn [snd] in H0.
  cbv zeta. apply (ends_bind (fun _ => True)); [apply yields_any|]. intros call _.
  destruct call; core_tac.
Qed.
Lemma audio_in_call_inv c e : core_in c -> P e -> yields core_st (audio_in_call c e).
Proof.
  intros H He. unfold audio_in_call. ends_step. destruct a as [drop c']. unfold core_with in H0. cbn [snd] in H0.
  core_tac.
Qed.
#[local] Hint Resolve frame_update_call_inv audio_in_call_inv : ends.
Lemma trace_call_inv op c e : core_in c -> P e -> yields core_st (trace_call op c e).
Proof. intros H He. unfold trace_call. core_tac. Qed.
#[local] Hint Resolve trace_call_inv : ends.
Lemma make_call_inv call c e : core_in c -> P e -> yields core_pair (make_call call c e).
Proof. intros H He. unfold make_call. core_tac. Qed.
#[local] Hint Resolve make_call_inv : ends.
Lemma processIPCall_inv op c e : core_in c -> P e -> yields core_pair (processIPCall op c e).
Proof. intros H He. unfold processIPCall. core_tac. destruct o; core_tac. Qed.
#[local] Hint Resolve processIPCall_inv : ends.

(** Lines of the trace and cycles *)
Lemma cpu_line_inv s c : core_in c -> yields core_in (cpu_line s c).
Proof. intros H. unfold cpu_line. core_tac. Qed.
Lemma mmu_line_inv b s c : core_in c -> yields core_in (mmu_line b s c).
Proof. intros H. unfold mmu_line. core_tac. Qed.
#[local] Hint Resolve cpu_line_inv mmu_line_inv : ends.
Lemma ip_line_inv op s c e : core_in c -> P e -> yields core_pair (ip_line op s c e).
Proof. intros H He. unfold ip_line. core_tac. Qed.
#[local] Hint Resolve ip_line_inv : ends.
Lemma readLine_inv c e : core_in c -> P e -> yields core_pair (readLine c e).
Proof. intros H He. unfold readLine. core_tac. Qed.
Lemma fps_stall_inv c e : core_in c -> P e -> yields core_pair (fps_stall c e).
Proof. intros H He. unfold fps_stall. core_tac. destruct (wake_time _); core_tac. Qed.
Lemma audio_stall_inv c e : core_in c -> P e -> yields core_pair (audio_stall c e).
Proof. intros H He. unfold audio_stall. core_tac. by destruct (wake_time _). Qed.
#[local] Hint Resolve readLine_inv fps_stall_inv audio_stall_inv : ends.
Lemma run_cycle_inv c e : core_in c -> P e -> yields core_pair (run_cycle c e).
Proof.
  intros H He. unfold run_cycle. pose proof (end_profile_ok (getTicks e) c H) as H'.
  revert H'. generalize (end_profile (getTicks e) c). intros c' H'. apply (ends_bind core_pair); [|intros]; core_tac.
Qed.
#[local] Hint Resolve run_cycle_inv : ends.

Lemma core_tick_inv c e : core_in c -> P e -> yields core_pair (tick c e).
Proof.
  intros H He. unfold tick. cbv zeta. eapply ends_bind; [instantiate (1 := core_in); core_tac|].
  intros c1 H1. apply count_cycle_ok in H1. revert H1. generalize (count_cycle c1). intros c2 H2.
  core_tac. destruct (bool_decide (_ = 0)); core_tac.
Qed.
End Cores.

Lemma markTransactionCompleted_inv F a c :
  core_in F c -> yields (fun r => core_in F r.2) (Core.markTransactionCompleted a c).
Proof.
  intros H. unfold Core.markTransactionCompleted. apply (ends_bind (fun _ => True)); [apply yields_any|].
  intros [i|] _; by apply ends_ok.
Qed.
Lemma core_powerIn1us_inv F c : core_in F c -> yields (fun r => core_in F r.2) (Core.powerIn1us c).
Proof. intros H. unfold Core.powerIn1us. by ends_read. Qed.

(** ** IPs *)

Section IPs.
Context {E : Type} {port : IPPort E} (P : E -> Prop) (F : Prop).

(** [F] says that the IP is in use. *)
Definition ip_in (ip : GemDroidIP) : Prop := F -> ip_ok ip.

Record ip_port_inv : Prop := {
  ipi_started e core type id frame : P e -> P (markIPRequestStarted e core type id frame);
  ipi_mem e type id core a is_read : P e -> P (enqueueMem e type id core a is_read).2;
  ipi_done e type id core frame ft flow : P e -> yields P (completeFrame e type id core frame ft flow)
}.
Context (HP : ip_port_inv).

Definition ip_st {A} (r : A * GemDroidIP * E) : Prop := ip_in r.1.2 /\ P r.2.
Definition ip_pair (r : GemDroidIP * E) : Prop := ip_in r.1 /\ P r.2.

#[local] Hint Resolve ipi_started ipi_done : ends.
#[local] Hint Extern 1 (ip_in _) => match goal with H : ip_in _ |- _ => exact H end : ends.

Ltac ip_tac :=
  repeat first
    [ lazymatch goal with
      | |- ends_with _ _ (let '(_, _) := ?x in _) =>
          let X := fresh "X" in assert (ip_st x) as X by (solve [eauto with ends]);
          destruct x as [[? ?] ?], X; cbn [fst snd] in *
      end
    | ends_step
    | match goal with
      | H : ip_st _ |- _ => destruct H; cbn [fst snd] in *
      | H : ip_pair _ |- _ => destruct H; cbn [fst snd] in *
      | |- ip_st (_, _) => split; cbn [fst snd]
      | |- ip_pair (_, _) => split; cbn [fst snd]
      | |- ip_in (if ?b then _ else _) => destruct b
      end
    | solve [eauto with ends] ].

Lemma keeps_ip_yields allowed ip m : ip_in ip -> ends_with allowed (keeps_ip ip) m -> yields ip_in m.
Proof. intros H Hm. eapply ends_yields. eapply ends_mono; [exact Hm|].
  intros ip' Hk HF. by apply Hk, H. Qed.

Lemma ip_setPStateActive_inv ip e : ip_in ip -> P e -> yields ip_pair (setPStateActive ip e).
Proof.
  intros H He. unfold setPStateActive. apply (ends_bind ip_in).
  - ends_step; [by apply (keeps_ip_yields (stays 0) ip), setMaxIPFreq_ends|].
    ends_step; [by apply (keeps_ip_yields (stays 0) ip), setOptIPFreq_ends | by apply ends_ok].
  - intros ip' H'. ip_tac.
Qed.
Lemma ip_setPStateLowPower_inv ip : ip_in ip -> yields ip_in (setPStateLowPower ip).
Proof. intros H. unfold setPStateLowPower. ip_tac. Qed.
Lemma ip_setPStateIdle_inv ip : ip_in ip -> yields ip_in (setPStateIdle ip).
Proof. intros H. unfold setPStateIdle. ip_tac. Qed.
Lemma ip_count_cycle_ok ip : ip_in ip -> ip_in (count_cycle ip).
Proof. intros H. unfold count_cycle. by destruct (power_state ip). Qed.
Lemma wakeUp_ok ip : ip_in ip -> ip_in (wakeUp ip).
Proof. intros H. unfold wakeUp. by destruct (power_state ip). Qed.
#[local] Hint Resolve ip_setPStateActive_inv ip_setPStateLowPower_inv ip_setPStateIdle_inv : ends.
#[local] Hint Resolve ip_count_cycle_ok wakeUp_ok : ends.

Lemma updatePower_inv ip e : ip_in ip -> P e -> yields ip_st (updatePower ip e).
Proof.
  intros H He. unfold updatePower. apply ip_count_cycle_ok in H. revert H. cbv zeta.
  generalize (count_cycle ip). intros ip1 H. ends_step; [ip_tac|]. ends_step; [|ip_tac].
  apply (ends_bind ip_in); [|intros ip2 H2; ip_tac]. destruct (power_state ip1); ip_tac.
Qed.
Lemma sendMemoryReq_inv ip e : ip_in ip -> P e -> ip_st (sendMemoryReq ip e).
Proof.
  intros H He. unfold sendMemoryReq.
  pose proof (ipi_mem HP e (ip_type ip) (ip_id ip) (ip_core_id ip) (m_reqAddr ip) (m_isRead ip) He) as Hm.
  destruct (enqueueMem _ _ _ _ _ _) as [ok e']. by destruct ok; split.
Qed.
Lemma IP_enqueueIPReq_inv ip e core addr size rd fr ft fl :
  ip_in ip -> P e -> ip_st (IP_enqueueIPReq ip e core addr size rd fr ft fl).
Proof.
  intros H He. unfold IP_enqueueIPReq. destruct (negb _); [|by split]. cbv zeta.
  destruct (bool_decide _); split; [done | by apply (ipi_started HP) | by apply wakeUp_ok | done].
Qed.
#[local] Hint Resolve updatePower_inv sendMemoryReq_inv IP_enqueueIPReq_inv : ends.

Lemma IP_finish_inv ip e : ip_in ip -> P e -> yields ip_pair (IP_finish ip e).
Proof. intros H He. unfold IP_finish. ip_tac. Qed.
Lemma IP_send_inv ip e : ip_in ip -> P e -> yields ip_pair (IP_send ip e).
Proof. intros H He. unfold IP_send. ip_tac; destruct b; ip_tac. Qed.
#[local] Hint Resolve IP_finish_inv IP_send_inv : ends.
Lemma IP_process_in ip : ip_in ip -> ip_in (IP_process ip).2.
Proof. intros H. unfold IP_process. cbn [snd]. by destruct (bool_decide _). Qed.
Lemma IP_tick_inv ip e : ip_in ip -> P e -> yields ip_pair (IP_tick ip e).
Proof.
  intros H He. unfold IP_tick. ends_step. destruct H0 as [H1 He1]. destruct a as [[go ip1] e1]. cbn [fst snd] in *.
  ends_step; [ip_tac|]. ends_step; [ends_step|]. apply IP_process_in in H1. destruct (IP_process ip1) as [waiting ip2].
  cbn [snd] in H1. ip_tac. apply IP_send_inv; [ip_tac | done].
Qed.
#[local] Hint Resolve IP_tick_inv : ends.

(** ** Accelerators *)

Definition coder_ok (c : Coder) : Prop := ip_in (base c).
Definition coder_pair (r : Coder * E) : Prop := coder_ok r.1 /\ P r.2.
Definition coder_st {A} (r : A * Coder * E) : Prop := coder_ok r.1.2 /\ P r.2.
Definition decoder_ok (d : Decoder.Decoder) : Prop := coder_ok (Decoder.coder d).

Lemma begin_tick_inv c e : coder_ok c -> P e -> yields coder_st (begin_tick c e).
Proof.
  intros H He. change (ip_in (base c)) in H. unfold begin_tick. ends_step. destruct H0 as [H1 He1].
  destruct a as [[go ip] e1]. cbn [fst snd] in *. by repeat (ends_step; try done).
Qed.
Lemma sendDataOut_inv c e : coder_ok c -> P e -> coder_pair (sendDataOut c e).
Proof.
  intros H He. unfold sendDataOut. cbv zeta. destruct (bool_decide _); [|by split].
  pose proof (ipi_mem HP e (ip_type (base c)) (ip_id (base c)) (ip_core_id (base c)) (u64 (m_reqOutAddr (base c))) false He) as Hm.
  destruct (enqueueMem _ _ _ _ _ _) as [ok e']. by destruct ok; split.
Qed.
Lemma requestData_inv c e : coder_ok c -> P e -> coder_pair (requestData c e).
Proof.
  intros H He. unfold requestData. destruct (_ && _); [|by split].
  destruct (sendMemoryReq_inv (base c) e H He) as [H1 H2]. destruct (sendMemoryReq (base c) e) as [[ok ip] e'].
  by destruct ok; split.
Qed.
Lemma finish_frame_inv c e : coder_ok c -> P e -> yields coder_pair (finish_frame c e).
Proof.
  intros H He. unfold finish_frame. cbv zeta. ends_step; [|by apply ends_ok; split].
  ends_step. apply ends_ok. by split.
Qed.
Lemma start_frame_inv size c : coder_ok c -> yields coder_ok (start_frame size c).
Proof. intros H. unfold start_frame. by ends_read. Qed.
#[local] Hint Resolve begin_tick_inv finish_frame_inv start_frame_inv : ends.

Lemma Coder_enqueueIPReq_inv set_out c e core addr size rd fr ft fl :
  (forall ip, ip_in ip -> ip_in (set_out ip)) -> coder_ok c -> P e ->
  yields coder_st (Coder_enqueueIPReq set_out c e core addr size rd fr ft fl).
Proof.
  intros Hset H He. unfold Coder_enqueueIPReq.
  destruct (IP_enqueueIPReq_inv (base c) e core addr size rd fr ft fl H He) as [H1 H2].
  destruct (IP_enqueueIPReq _ _ _ _ _ _ _ _ _) as [[ok ip] e']. cbn [fst snd] in *.
  destruct ok; [|by apply ends_ok; split].
  eapply ends_bind; [apply start_frame_inv; by apply Hset|]. intros c' H'. by apply ends_ok; split.
Qed.

(** The ticks of the three classes: [work] is the cycle of the compute units. *)
Lemma coder_work_inv c e (go : bool) (process : Coder -> bool * Coder) :
  (forall c, coder_ok c -> coder_ok (process c).2) -> coder_ok c -> P e ->
  yields coder_pair
    (if negb go then Ok (c, e)
     else
       let '(c, e) := sendDataOut c e in
       let '(c, e) := requestData c e in
       let '(is_success, c) :=
         if bool_decide (inputProcessedInCL (base c) < inputToBeProcessedInCL (base c)) then process c else (false, c) in
       '(c, e) ← finish_frame c e;
       Ok (if (is_success : bool) then c else upd_base (upd_stats (fun s => s <| m_IPMemStalls ::= Z.succ |>)) c, e)).
Proof.
  intros Hp H He. destruct (negb go); [by apply ends_ok|].
  destruct (sendDataOut_inv c e H He) as [H1 He1]. destruct (sendDataOut c e) as [c1 e1]. cbn [fst snd] in *.
  destruct (requestData_inv c1 e1 H1 He1) as [H2 He2]. destruct (requestData c1 e1) as [c2 e2]. cbn [fst snd] in *.
  assert (forall b c3, coder_ok c3 -> yields coder_pair
    ('(c, e) ← finish_frame c3 e2;
     Ok (if (b : bool) then c else upd_base (upd_stats (fun s => s <| m_IPMemStalls ::= Z.succ |>)) c, e))) as Hend.
  { intros b c3 H3. eapply ends_bind; [by apply finish_frame_inv|]. intros [c4 e4] [H4 He4]. apply ends_ok.
    by destruct b. }
  destruct (bool_decide _); [|exact (Hend false c2 H2)]. pose proof (Hp c2 H2) as H3.
  destruct (process c2) as [b c3]. exact (Hend b c3 H3).
Qed.

Lemma nocoder_process_in c : coder_ok c -> coder_ok (Nocoder.process c).2.
Proof. intros H. unfold Nocoder.process. by repeat (destruct (bool_decide _); cbv zeta; cbn [snd]). Qed.
Lemma encoder_process_in c : coder_ok c -> coder_ok (Encoder.process c).2.
Proof. intros H. unfold Encoder.process. by repeat (destruct (bool_decide _); cbv zeta; cbn [snd]). Qed.
Lemma decoder_process_in c : coder_ok c -> coder_ok (Decoder.process c).2.
Proof. intros H. unfold Decoder.process. by repeat (destruct (bool_decide _); cbv zeta; cbn [snd]). Qed.

Lemma nocoder_tick_inv c e : coder_ok c -> P e -> yields coder_pair (Nocoder.tick c e).
Proof.
  intros H He. unfold Nocoder.tick. ends_step. destruct H0 as [H1 He1]. destruct a as [[go c1] e1].
  exact (coder_work_inv c1 e1 go Nocoder.process nocoder_process_in H1 He1).
Qed.
Lemma encoder_tick_inv c e : coder_ok c -> P e -> yields coder_pair (Encoder.tick c e).
Proof.
  intros H He. unfold Encoder.tick. ends_step. destruct H0 as [H1 He1]. destruct a as [[go c1] e1].
  exact (coder_work_inv c1 e1 go Encoder.process encoder_process_in H1 He1).
Qed.
Lemma nocoder_call_inv c e core addr size rd fr ft fl :
  coder_ok c -> P e -> yields coder_st (Nocoder.enqueueIPReq c e core addr size rd fr ft fl).
Proof.
  apply Coder_enqueueIPReq_inv. intros ip H. unfold Nocoder.set_out. by destruct (bool_decide _).
Qed.
Lemma encoder_call_inv c e core addr size rd fr ft fl :
  coder_ok c -> P e -> yields coder_st (Encoder.enqueueIPReq c e core addr size rd fr ft fl).
Proof.
  apply Coder_enqueueIPReq_inv. intros ip H. unfold Encoder.set_out. by repeat destruct (bool_decide _).
Qed.

Definition decoder_pair (r : Decoder.Decoder * E) : Prop := decoder_ok r.1 /\ P r.2.
Definition decoder_st {A} (r : A * Decoder.Decoder * E) : Prop := decoder_ok r.1.2 /\ P r.2.

Lemma set_frame_ok size fr d : decoder_ok d -> decoder_ok (Decoder.set_frame size fr d).
Proof. intros H. unfold Decoder.set_frame. by repeat (destruct (bool_decide _); cbv zeta). Qed.

Lemma decoder_call_inv d e core addr size rd fr ft fl :
  decoder_ok d -> P e -> yields decoder_st (Decoder.enqueueIPReq d e core addr size rd fr ft fl).
Proof.
  intros H He. unfold Decoder.enqueueIPReq.
  destruct (IP_enqueueIPReq_inv (base (Decoder.coder d)) e core addr size rd fr ft fl H He) as [H1 H2].
  destruct (IP_enqueueIPReq _ _ _ _ _ _ _ _ _) as [[ok ip] e']. cbn [fst snd] in *. cbv zeta.
  destruct ok; [|by apply ends_ok; split].
  eapply ends_bind; [apply start_frame_inv; by apply set_frame_ok|]. intros c' H'. by apply ends_ok; split.
Qed.

Lemma requestDependentData_inv d e : decoder_ok d -> P e -> decoder_pair (Decoder.requestDependentData d e).
Proof.
  intros H He. unfold Decoder.requestDependentData. cbv zeta. destruct (bool_decide _); [by split|].
  match goal with |- context [enqueueMem ?a ?b ?c ?d ?f ?g] => pose proof (ipi_mem HP a b c d f g He) as Hm end.
  destruct (enqueueMem _ _ _ _ _ _) as [ok e']. by destruct ok; split.
Qed.

#[local] Existing Instances Decoder.set_coder Decoder.eta_Decoder.
Lemma count_event_ok ev d : decoder_ok d -> decoder_ok (Decoder.count_event ev d).
Proof. by destruct ev. Qed.

Lemma decoder_tick_inv uninit d e : decoder_ok d -> P e -> yields decoder_pair (Decoder.tick uninit d e).
Proof.
  intros H He. unfold Decoder.tick. eapply ends_bind; [by apply begin_tick_inv|].
  intros [[go c] e1] [H1 He1]. cbn [fst snd] in *. cbv zeta. destruct (negb go); [by apply ends_ok|].
  destruct (sendDataOut_inv c e1 H1 He1) as [H2 He2]. change (Decoder.coder (d <| Decoder.coder := c |>)) with c.
  destruct (sendDataOut c e1) as [c2 e2]. cbn [fst snd] in *.
  set (d2 := d <| Decoder.coder := c |> <| Decoder.coder := c2 |>). assert (decoder_ok d2) as Hd2 by exact H2.
  assert (decoder_pair (if bool_decide (Decoder.m_dependenceCount d2 > 0) then Decoder.requestDependentData d2 e2
    else let '(c, e) := requestData (Decoder.coder d2) e2 in (d2 <| Decoder.coder := c |>, e))) as Hreq.
  { destruct (bool_decide _); [by apply requestDependentData_inv|].
    destruct (requestData_inv (Decoder.coder d2) e2 Hd2 He2) as [H3 He3].
    destruct (requestData (Decoder.coder d2) e2) as [c3 e3]. by split. }
  destruct (if bool_decide (Decoder.m_dependenceCount d2 > 0) then _ else _) as [d3 e3].
  destruct Hreq as [H3 He3]. cbn [fst snd] in *.
  assert (coder_ok (if bool_decide (inputProcessedInCL (base (Decoder.coder d3)) < inputToBeProcessedInCL (base (Decoder.coder d3)))
    then Decoder.process (Decoder.coder d3) else (uninit, Decoder.coder d3)).2) as H4
    by (destruct (bool_decide _); [by apply decoder_process_in | done]).
  destruct (if bool_decide (_ < _) then _ else _) as [ev c4]. cbn [snd] in H4.
  eapply ends_bind; [by apply finish_frame_inv|]. intros [c5 e5] [H5 He5]. apply ends_ok.
  split; [by apply count_event_ok | done].
Qed.
End IPs.

(** ** The GPU *)

Section GPU.
Import Gpu.Gpu.
Context {E : Type} {port : GPUPort E} (P : E -> Prop) (F : Prop).

Record gpu_port_inv : Prop := {
  gpi_ip : ip_port_inv P;
  gpi_completed e core type id frame flow : P e -> yields P (gpu_markIPRequestCompleted e core type id frame flow);
  gpi_stop e : P e -> P (gpu_stopFetch e)
}.
Context (HP : gpu_port_inv).

Definition gpu_ok (g : GemDroidIPGPU) : Prop := ip_in F (base g).
Definition gpu_pair (r : GemDroidIPGPU * E) : Prop := gpu_ok r.1 /\ P r.2.
Definition gpu_st {A} (r : A * GemDroidIPGPU * E) : Prop := gpu_ok r.1.2 /\ P r.2.

Lemma gpu_updatePower_inv g e : gpu_ok g -> P e -> yields gpu_st (updatePower g e).
Proof.
  intros H He. apply ip_count_cycle_ok in H. unfold updatePower. revert H. cbv zeta.
  generalize (count_cycle (base g)). intros ip1 H. ends_step.
  - ends_step; [|by apply ends_ok]. eapply ends_bind; [by apply (ip_setPStateActive_inv P F (gpi_ip HP))|].
    intros [ip2 e2] [H2 He2]. by apply ends_ok.
  - apply (ends_bind (ip_in F)); [|intros ip2 H2; by apply ends_ok]. ends_step; [|by apply ends_ok].
    apply (ends_bind (ip_in F)); [|intros ip2 H2; by apply ends_ok].
    destruct (power_state ip1); [by apply ends_ok | by apply ip_setPStateIdle_inv | by apply ip_setPStateLowPower_inv].
Qed.

Lemma gpu_processMMURequest_inv a rd g e : gpu_ok g -> P e -> gpu_pair (processMMURequest a rd g e).
Proof.
  intros H He. unfold processMMURequest. cbv zeta.
  match goal with |- context [sendMemoryReq ?x e] =>
    destruct (sendMemoryReq_inv P F (gpi_ip HP) x e H He) as [H1 H2]; destruct (sendMemoryReq x e) as [[ok ip] e'] end.
  by split.
Qed.

#[local] Hint Resolve gpi_completed gpi_stop : ends.
Lemma gpu_readLine_inv g e : gpu_ok g -> P e -> yields gpu_pair (readLine g e).
Proof.
  intros H He. unfold readLine. destruct (read_string _) as [op s]. cbv zeta.
  repeat first [ends_step | by split].
  - by apply (gpu_processMMURequest_inv _ _ (g <| lines_read_gpu ::= Z.succ |> <| em_gputrace_file := s0 |>)).
  - split; [done | by apply gpi_stop].
Qed.

Lemma gpu_stall_inv g e : gpu_ok g -> P e -> yields gpu_pair (stall g e).
Proof.
  intros H He. unfold stall. apply (ends_bind (fun _ => True)); [apply yields_any|]. intros f _. cbv zeta.
  match goal with |- context [let '(_, _) := ?x in _] => assert (gpu_pair x) as Hx; [|destruct x as [g1 e1]] end.
  { destruct (bool_decide _); [|by split]. match goal with |- context [power_state ?x] => destruct (power_state x) end;
      [by split.. | split; [done | by apply (ipi_started P (gpi_ip HP))]]. }
  destruct Hx as [H1 He1]. eapply ends_bind; [by apply gpu_updatePower_inv|]. intros [[go g2] e2] [H2 He2].
  by apply ends_ok.
Qed.

Lemma gpu_write_line_inv g e : gpu_ok g -> P e -> yields gpu_pair (write_line g e).
Proof.
  intros H He. unfold write_line. destruct (gpu_processMMURequest_inv (m_addrToDC g) false g e H He) as [H1 He1].
  destruct (processMMURequest _ _ _ _) as [g1 e1]. cbn [fst snd] in *. cbv zeta. ends_step; [|by apply ends_ok].
  eapply ends_bind; [by apply (ipi_done P (gpi_ip HP))|]. intros e2 He2. by apply ends_ok.
Qed.

Lemma gpu_run_trace_inv g e : gpu_ok g -> P e -> yields gpu_pair (run_trace g e).
Proof.
  intros H He. unfold run_trace. eapply ends_bind; [by apply gpu_updatePower_inv|]. intros [[go g1] e1] [H1 He1].
  cbn [fst snd] in *. repeat (ends_step; try by split). by apply gpu_readLine_inv.
Qed.

Lemma gpu_tick_inv g e : gpu_ok g -> P e -> yields gpu_pair (tick g e).
Proof.
  intros H He. unfold tick. ends_step; [ends_step|]. cbv zeta.
  set (g1 := upd_base (upd_stats (fun s => s <| ip_ticks ::= Z.succ |>)) g). assert (gpu_ok g1) as H1 by exact H.
  assert (ip_st P F (if bool_decide (m_reqCount (base g1) > 0) then sendMemoryReq (base g1) e else (true, base g1, e))) as Hs
    by (destruct (bool_decide _); [by apply (sendMemoryReq_inv P F (gpi_ip HP)) | by split]).
  destruct (if bool_decide (m_reqCount (base g1) > 0) then _ else _) as [[ok ip] e1]. destruct Hs as [H2 He1].
  cbn [fst snd] in *. repeat (ends_step; try by split).
  - by apply gpu_stall_inv.
  - by apply gpu_write_line_inv.
  - by apply gpu_run_trace_inv.
Qed.
End GPU.
