(* ===== verification/RunInv.v ===== *)
(** * The whole platform keeps its parts in their tables

    One cycle of [gemdroid.cc:tick]: the periodic work, the cores, the IPs, the
    agent with its deliveries and the memory. *)

From S2P Require Import Prelude.
From S2P Require Import Outcome.
From S2P Require Import DramConfig.
From S2P Require Import MultiChannel.
From S2P Require Import GemDefines.
From S2P Require Import Flows.
From S2P Require Import SystemAgent.
From S2P Require Import GemMemory.
From S2P Require Import MemoryFreq.
From S2P Require Import MemStats.
From S2P Require Import Uncore.
From S2P Require Import Ip.
From S2P Require Import Coders.
From S2P Require Import Gpu.
From S2P Require Import Cores.
From S2P Require Import Platform.
From S2P Require Import Governors.
From S2P Require Import GemTick.
From S2P Require Import GovernorSafety.
From S2P Require Import StateInv.

Import Platform.Platform.
Import GemTick.GemTick.

(** ** What the invariant reads *)

(** ** Clocks

    The cycle count, the cycles of the last edges, and the periods. *)

Record Clocks := mkClocks {
  ck_now : Z;
  ck_cpu : list Z;
  ck_ip : list (list Z);
  ck_mem : Z;
  ck_cpu_periods : list Z;
  ck_ip_periods : list (list Z);
  ck_mem_period : Z;
  ck_dvfs : bool
}.

Definition clocks (p : GemDroid) : Clocks :=
  mkClocks (ticks p) (cpuLastTick p) (ipLastTick p) (memLastTick p)
    (cpuFreqMultipliers p) (ipFreqMultipliers p) (memFreqMultiplier p) (enableDVFS p).

Lemma for_cores_inv (P : GemDroid -> Prop) body p :
  (forall i p, P p -> yields P (body i p)) -> P p -> yields P (for_cores body p).
Proof. intros Hb Hp. unfold for_cores. apply ends_foldM; [|done]. intros q i _ Hq. by apply Hb. Qed.
Lemma for_ips_inv (P : GemDroid -> Prop) first last body p :
  (forall type id p, P p -> yields P (body type id p)) -> P p -> yields P (for_ips first last body p).
Proof.
  intros Hb Hp. unfold for_ips. apply ends_foldM; [|done]. intros q type _ Hq.
  apply ends_foldM; [|done]. intros r id _ Hr. by apply Hb.
Qed.

(** ** The work of the parts

    It keeps the parts in their tables, and moves no clock. *)

Section Work.
Context (n m gv : Z) (cl : Clocks).

Definition inside (p : GemDroid) : Prop := sized_tables n m gv false p /\ clocks p = cl.

Lemma inside_same p q :
  num_cpus q = num_cpus p -> num_ip_inst q = num_ip_inst p -> governor q = governor p -> gemdroid_core q = gemdroid_core p -> ips q = ips p ->
  m_freq (gemdroid_memory q) = m_freq (gemdroid_memory p) ->
  m_optMemFreq (gemdroid_memory q) = m_optMemFreq (gemdroid_memory p) -> clocks q = clocks p -> inside p -> inside q.
Proof.
  intros E1 E2 Eg E3 E4 E5 E6 Ec [H Hc]. split; [by apply (sized_tables_same n m gv false p) | by rewrite Ec].
Qed.
Ltac same p := apply (inside_same p); [reflexivity .. | assumption].

Lemma put_core_in i c p : inside p -> core_in (i < n) c -> inside (put_core i c p).
Proof.
  intros [[H1 H2 Hg Hdec H3 H4 H5 H6] Hcl] Hc. split; [|exact Hcl].
  apply Build_sized_tables; [exact H1 | exact H2 | exact Hg | exact Hdec | | exact H4 | exact H5 | exact H6].
  intros j d Hj Hd. unfold get_core, put_core in Hd.
  change (of_option (zget (zalter (fun _ => c) (gemdroid_core p) i) j) = Ok d) in Hd. rewrite zget_zalter in Hd.
  destruct (bool_decide_reflect (i = j)) as [<-|Hij].
  - destruct (zget (gemdroid_core p) i); [|done]. injection Hd as <-. by apply Hc.
  - by apply (H3 j).
Qed.

Lemma put_ip_in type id x p : inside p -> ip_in (id < m) (ip_base x) -> inside (put_ip type id x p).
Proof.
  intros [[H1 H2 Hg Hdec H3 H4 H5 H6] Hcl] Hx. split; [|exact Hcl].
  apply Build_sized_tables; [exact H1 | exact H2 | exact Hg | exact Hdec | exact H3 | | exact H5 | exact H6].
  intros t j y Hj Hy. pose proof (H4 t j) as H. unfold getIPInstance in H, Hy.
  destruct (bool_decide (IP_TYPE_DC <= t) && bool_decide (t <= IP_TYPE_GPU)); [|done].
  change (of_option (zget2 (zalter2 (fun _ => x) (ips p) type id) t j) = Ok y) in Hy. rewrite zget2_zalter2 in Hy.
  destruct (bool_decide_reflect (type = t /\ id = j)) as [[<- <-]|Hij].
  - destruct (zget2 (ips p) type id); [|done]. injection Hy as <-. by apply Hx.
  - by apply H.
Qed.

Lemma core_found i c p : inside p -> get_core p i = Ok c -> core_in (i < n) c.
Proof. intros [H _] Hc Hi. by apply (to_cores n m gv false p H i). Qed.
Lemma ip_found type id x p : inside p -> getIPInstance p type id = Ok x -> ip_in (id < m) (ip_base x).
Proof. intros [H _] Hx Hi. by apply (to_ips n m gv false p H type id). Qed.

(** ** The ports *)

Lemma completed_inside p core type id state : inside p -> yields inside (markIPRequestCompleted p core type id state).
Proof.
  intros H. unfold markIPRequestCompleted. ends_read; [exact H|]. same p.
Qed.
#[local] Hint Resolve completed_inside : ends.

Lemma upd_sa_inside f p : inside p -> inside (upd_sa f p).
Proof. intros H. same p. Qed.
Lemma started_inside p core type id frame : inside p -> inside (markIPRequestStarted p core type id frame).
Proof. intros H. same p. Qed.
Lemma ask_sa_inside {A} (f : GemDroidSA -> A * GemDroidSA) p : inside p -> inside (ask_sa f p).2.
Proof. intros H. unfold ask_sa. destruct (f _). by apply upd_sa_inside. Qed.

Lemma gemdroid_ip_port_inv : ip_port_inv inside.
Proof.
  split.
  - intros e core type id frame H. by apply started_inside.
  - intros e type id core a rd H. by apply (ask_sa_inside _ e).
  - intros e type id core frame ft flow H. change (yields inside (enqueueIPResponse e type id core frame ft flow)).
    unfold enqueueIPResponse. ends_step. ends_step. destruct a0 as [u sa]. apply ends_ok. by apply upd_sa_inside.
Qed.

Lemma gemdroid_gpu_port_inv : gpu_port_inv inside.
Proof.
  split; [exact gemdroid_ip_port_inv | intros e core type id frame flow H; by apply completed_inside |].
  intros e H. same e.
Qed.

Lemma gemdroid_core_port_inv : core_port_inv inside.
Proof.
  split.
  - intros e core type id frame H. by apply started_inside.
  - intros e core type id frame flow state H. by apply completed_inside.
  - intros e id a rd H. by apply (ask_sa_inside _ e).
  - intros e core type a size rd frame ft flow H.
    apply (ends_bind (fun _ => True)); [apply yields_any|]. intros [ok sa] _. apply ends_ok. by apply upd_sa_inside.
  - intros e H. same e.
  - intros e H. same e.
Qed.

(** ** Cycles and calls of the parts *)

Definition instance_in (id : Z) (x : IPInstance) : Prop := ip_in (id < m) (ip_base x).
Definition instance_pair (id : Z) (r : IPInstance * GemDroid) : Prop := instance_in id r.1 /\ inside r.2.
Definition instance_st (id : Z) (r : bool * IPInstance * GemDroid) : Prop := instance_in id r.1.2 /\ inside r.2.

Lemma tick_instance_inv uninit id x p :
  instance_in id x -> inside p -> yields (instance_pair id) (tick_instance uninit x p).
Proof.
  intros Hx Hp. destruct x as [ip|d|c|c|g]; cbn [tick_instance].
  - eapply ends_bind; [by apply (IP_tick_inv _ (id < m) gemdroid_ip_port_inv)|].
    intros [ip' p'] [H1 H2]. apply ends_ok. by split.
  - eapply ends_bind; [by apply (decoder_tick_inv _ (id < m) gemdroid_ip_port_inv)|].
    intros [d' p'] [H1 H2]. apply ends_ok. by split.
  - eapply ends_bind; [by apply (encoder_tick_inv _ (id < m) gemdroid_ip_port_inv)|].
    intros [c' p'] [H1 H2]. apply ends_ok. by split.
  - eapply ends_bind; [by apply (nocoder_tick_inv _ (id < m) gemdroid_ip_port_inv)|].
    intros [c' p'] [H1 H2]. apply ends_ok. by split.
  - eapply ends_bind; [by apply (gpu_tick_inv _ (id < m) gemdroid_gpu_port_inv)|].
    intros [g' p'] [H1 H2]. apply ends_ok. by split.
Qed.

Lemma tickIP_inv uninit type id p : inside p -> yields inside (tickIP uninit type id p).
Proof.
  intros Hp. unfold tickIP. ends_step; [|by apply ends_ok].
  eapply ends_bind; [apply yields_result|]. intros x Hx.
  eapply ends_bind; [apply tick_instance_inv; [exact (ip_found _ _ _ _ Hp Hx) | done]|].
  intros [x' p'] [H1 H2]. apply ends_ok. by apply put_ip_in.
Qed.

Lemma tick_core_inv i p : inside p -> yields inside (tick_core i p).
Proof.
  intros Hp. unfold tick_core. eapply ends_bind; [apply yields_result|]. intros c Hc.
  eapply ends_bind; [apply (core_tick_inv _ (i < n) gemdroid_core_port_inv); [exact (core_found _ _ _ Hp Hc) | done]|].
  intros [c' p'] [H1 H2]. apply ends_ok. by apply put_core_in.
Qed.

Lemma instance_memResponse_in id rd x : instance_in id x -> instance_in id (instance_memResponse rd x).
Proof. intros H. destruct x; try done; by destruct rd. Qed.

Lemma instance_call_inv id x p core a size rd fr ft fl :
  instance_in id x -> inside p -> yields (instance_st id) (instance_enqueueIPReq x p core a size rd fr ft fl).
Proof.
  intros Hx Hp. destruct x as [ip|d|c|c|g]; cbn [instance_enqueueIPReq].
  - destruct (IP_enqueueIPReq_inv _ (id < m) gemdroid_ip_port_inv ip p core a size rd fr ft fl Hx Hp) as [H1 H2].
    destruct (IP_enqueueIPReq _ _ _ _ _ _ _ _ _) as [[ok ip'] p']. apply ends_ok. by split.
  - eapply ends_bind; [by apply (decoder_call_inv _ (id < m) gemdroid_ip_port_inv)|].
    intros [[ok d'] p'] [H1 H2]. apply ends_ok. by split.
  - eapply ends_bind; [by apply (encoder_call_inv _ (id < m) gemdroid_ip_port_inv)|].
    intros [[ok c'] p'] [H1 H2]. apply ends_ok. by split.
  - eapply ends_bind; [by apply (nocoder_call_inv _ (id < m) gemdroid_ip_port_inv)|].
    intros [[ok c'] p'] [H1 H2]. apply ends_ok. by split.
  - destruct (IP_enqueueIPReq_inv _ (id < m) gemdroid_ip_port_inv (Gpu.base g) p core a size rd fr ft fl Hx Hp) as [H1 H2].
    destruct (IP_enqueueIPReq _ _ _ _ _ _ _ _ _) as [[ok ip'] p']. apply ends_ok. by split.
Qed.

(** ** Deliveries *)

Lemma memCoreResponse_inv p type id a rd : inside p -> yields inside (memCoreResponse p type id a rd).
Proof.
  intros Hp. unfold memCoreResponse, on_core. eapply ends_bind; [apply yields_result|]. intros c Hc.
  eapply ends_bind; [|intros c' H'; apply ends_ok; by apply put_core_in].
  eapply ends_bind; [apply markTransactionCompleted_inv; exact (core_found _ _ _ Hp Hc)|]. intros [i c'] H'. by apply ends_ok.
Qed.

Lemma memIPResponse_inv p type id a rd : inside p -> yields inside (memIPResponse p type id a rd).
Proof.
  intros Hp. unfold memIPResponse. ends_step; [ends_step|]. ends_step; [|by apply ends_ok].
  eapply ends_bind; [apply yields_result|]. intros x Hx. apply ends_ok.
  apply put_ip_in; [done|]. apply instance_memResponse_in. exact (ip_found _ _ _ _ Hp Hx).
Qed.

Lemma enqueueIPReq_inv p r : inside p -> yields (fun r => inside r.2) (enqueueIPReq p r).
Proof.
  intros Hp. unfold enqueueIPReq. cbv zeta. eapply ends_bind; [apply yields_result|]. intros x Hx.
  eapply ends_bind; [apply instance_call_inv; [exact (ip_found _ _ _ _ Hp Hx) | done]|].
  intros [[ok x'] p'] [H1 H2]. apply ends_ok. by apply put_ip_in.
Qed.

(** ** The agent and the memory *)

(** No cycle moves the memory's frequency. *)
Definition same_freq (u u' : Uncore) : Prop :=
  m_freq (Uncore.gemdroid_memory u') = m_freq (Uncore.gemdroid_memory u) /\
  m_optMemFreq (Uncore.gemdroid_memory u') = m_optMemFreq (Uncore.gemdroid_memory u).

Lemma same_freq_trans u v w : same_freq u v -> same_freq v w -> same_freq u w.
Proof. intros [H1 H2] [H3 H4]. split; congruence. Qed.

Lemma count_request_freq type mem :
  m_freq (count_request type mem) = m_freq mem /\ m_optMemFreq (count_request type mem) = m_optMemFreq mem.
Proof. unfold count_request. by destruct (bool_decide _). Qed.

Lemma enqueueMemReq_freq u type id core a rd : yields (fun r => same_freq u r.2) (enqueueMemReq u type id core a rd).
Proof.
  pose proof (count_request_freq type (Uncore.gemdroid_memory u)) as [H1 H2].
  unfold enqueueMemReq. ends_read; (split; [try exact H1 | try exact H2]); reflexivity.
Qed.

Lemma sendMemoryRequests_freq u : yields (same_freq u) (sendMemoryRequests u).
Proof.
  unfold sendMemoryRequests, inject. destruct (coreMemReq _) as [|r l].
  - destruct (ipMemReq _) as [|r l]; [by apply ends_ok|]. eapply ends_bind; [apply enqueueMemReq_freq|].
    intros [ok u'] [H1 H2]. apply ends_ok. by destruct ok.
  - eapply ends_bind; [apply enqueueMemReq_freq|]. intros [ok u'] [H1 H2]. apply ends_ok. by destruct ok.
Qed.

Lemma inject_rounds_freq u : yields (same_freq u) (inject_rounds u).
Proof.
  unfold inject_rounds. apply (ends_foldM (same_freq u)); [|done]. intros v k _ Hv.
  eapply ends_mono; [apply sendMemoryRequests_freq|]. intros w. by apply same_freq_trans.
Qed.

Lemma sendMemoryResponses_inv perfect sa p :
  inside p -> yields (fun r => inside r.2) (sendMemoryResponses perfect sa p).
Proof.
  intros Hp. unfold sendMemoryResponses, deliver. destruct (memCoreResp sa) as [|r l].
  - destruct (memIpResp sa) as [|r l]; [by apply ends_ok|]. eapply ends_bind; [by apply memIPResponse_inv|].
    intros p' Hp'. by apply ends_ok.
  - eapply ends_bind; [by apply memCoreResponse_inv|]. intros p' Hp'. by apply ends_ok.
Qed.

Lemma sendIPRequests_from_inv types : forall sa p,
  inside p -> yields (fun r => inside r.2) (sendIPRequests_from types sa p).
Proof.
  induction types as [|i types IH]; intros sa p Hp; cbn [sendIPRequests_from]; [by apply ends_ok|].
  apply (ends_bind (fun _ => True)); [apply yields_any|]. intros [|r l] _; [by apply IH|].
  eapply ends_bind; [by apply enqueueIPReq_inv|]. intros [ok p'] Hp'. destruct ok; [by apply ends_ok | by apply IH].
Qed.

Lemma respond_rounds_inv perfect k sa p : inside p -> yields (fun r => inside r.2) (respond_rounds perfect k sa p).
Proof.
  intros Hp. unfold respond_rounds. apply (ends_foldM (fun st : GemDroidSA * GemDroid => inside st.2)); [|done].
  intros [sa' p'] i _ Hp'. by apply sendMemoryResponses_inv.
Qed.

Lemma sa_tick_inv u p : inside p -> yields (fun r => same_freq u r.1 /\ inside r.2) (sa_tick u p).
Proof.
  intros Hp. unfold sa_tick, process. cbv zeta. eapply ends_bind; [apply inject_rounds_freq|]. intros u1 Hu.
  eapply ends_bind; [by apply sendIPRequests_from_inv|]. intros [sa p1] Hp1. ends_step; [by apply ends_ok|].
  eapply ends_bind; [by apply respond_rounds_inv|]. intros [sa' p2] Hp2. by apply ends_ok.
Qed.

Lemma memory_tick_freq u : yields (same_freq u) (memory_tick u).
Proof.
  unfold memory_tick, GemDroidMemory_tick. cbv zeta.
  eapply ends_bind.
  - instantiate (1 := fun r => m_freq r.1 = m_freq (Uncore.gemdroid_memory u)
                               /\ m_optMemFreq r.1 = m_optMemFreq (Uncore.gemdroid_memory u)).
    by ends_read.
  - intros [mem calls] [H1 H2]. apply (ends_bind (fun _ => True)); [apply yields_any|]. intros sa _. by apply ends_ok.
Qed.

Lemma put_uncore_inside u p :
  inside p -> m_freq (Uncore.gemdroid_memory u) ∈ reachable_freqs ->
  m_optMemFreq (Uncore.gemdroid_memory u) = F64.lit 8 10 -> inside (p <| uncore := u |>).
Proof. intros [[H1 H2 Hg Hdec H3 H4 H5 H6] Hcl] Hf Ho. split; [by apply Build_sized_tables | exact Hcl]. Qed.

Lemma tick_uncore_inv p : inside p -> yields inside (tick_uncore p).
Proof.
  intros Hp. unfold tick_uncore. eapply ends_bind; [by apply sa_tick_inv|]. intros [u p1] [Hu Hp1].
  eapply ends_bind; [apply memory_tick_freq|]. intros u2 Hu2. apply ends_ok.
  destruct (same_freq_trans _ _ _ Hu Hu2) as [E1 E2]. destruct Hp as [[_ _ _ _ _ _ H5 H6] _].
  apply put_uncore_inside; [done | by rewrite E1 | by rewrite E2].
Qed.

(** ** Loops and periodic work *)

Lemma add_power_inv type id power p : inside p -> yields inside (add_power type id power p).
Proof. intros H. unfold add_power. ends_read. same p. Qed.
Lemma core_power_1us_inv i p : inside p -> yields inside (core_power_1us i p).
Proof.
  intros Hp. unfold core_power_1us. eapply ends_bind; [apply yields_result|]. intros c Hc.
  eapply ends_bind; [apply core_powerIn1us_inv; exact (core_found _ _ _ Hp Hc)|]. intros [power c'] Hc'. cbv zeta.
  ends_step. ends_step; [apply add_power_inv | apply ends_ok]; by apply put_core_in.
Qed.

Lemma ip_powerIn1us_in ip id : ip_in (id < m) ip -> yields (fun r => ip_in (id < m) r.2) (Ip.powerIn1us ip).
Proof. intros H. unfold Ip.powerIn1us. by ends_read. Qed.
Lemma with_base_in id ip x : ip_in (id < m) ip -> instance_in id (with_base ip x).
Proof. unfold instance_in. by rewrite ip_base_with_base. Qed.
Lemma base_power_1us_inv type id p : inside p -> yields (fun r => inside r.2) (base_power_1us type id p).
Proof.
  intros Hp. unfold base_power_1us. eapply ends_bind; [apply yields_result|]. intros x Hx.
  eapply ends_bind; [apply (ip_powerIn1us_in _ id); exact (ip_found _ _ _ _ Hp Hx)|].
  intros [power ip] Hip. apply ends_ok. apply put_ip_in; [done|]. by apply with_base_in.
Qed.
Lemma gpu_powerIn1us_in id g : ip_in (id < m) (Gpu.base g) -> yields (fun r => ip_in (id < m) (Gpu.base r.2)) (Gpu.powerIn1us g).
Proof. intros H. unfold Gpu.powerIn1us. by ends_read. Qed.
Lemma gpu_power_inv p :
  inside p ->
  yields (fun r => inside r.2)
    (i ← getIPInstance p IP_TYPE_GPU 0;
     match i with
     | IPGPU g => '(power, g) ← Gpu.powerIn1us g; Ok (power, put_ip IP_TYPE_GPU 0 (IPGPU g) p)
     | _ => Err OutOfRange
     end).
Proof.
  intros Hp. eapply ends_bind; [apply yields_result|]. intros x Hx.
  pose proof (ip_found _ _ _ _ Hp Hx) as Hin. destruct x; try by apply ends_err.
  eapply ends_bind; [by apply (gpu_powerIn1us_in 0)|]. intros [power g'] Hg. apply ends_ok. by apply put_ip_in.
Qed.
Lemma ip_power_1us_inv type id p : inside p -> yields inside (ip_power_1us type id p).
Proof.
  intros Hp. unfold ip_power_1us. eapply ends_bind; [by apply base_power_1us_inv|]. intros [power p1] Hp1.
  ends_step. ends_step; [|by apply ends_ok]. apply (ends_bind (fun r => inside r.2)).
  - ends_step; [by apply gpu_power_inv | by apply ends_ok].
  - intros [power' p2] Hp2. by apply add_power_inv.
Qed.
Lemma powerCalculator1us_inv p : inside p -> yields inside (powerCalculator1us p).
Proof.
  intros Hp. unfold powerCalculator1us. eapply ends_bind; [by apply for_cores_inv; [apply core_power_1us_inv|]|].
  intros p1 H1. eapply ends_bind; [by apply for_ips_inv; [apply ip_power_1us_inv|]|]. intros p2 H2.
  ends_step. ends_step; [|by apply ends_ok]. eapply ends_bind; [by apply base_power_1us_inv|].
  intros [power p3] H3. by apply add_power_inv.
Qed.

Lemma periodic_stats_inv p : inside p -> yields inside (periodic_stats p).
Proof.
  intros Hp. unfold periodic_stats. ends_step; [|by apply ends_ok].
  assert (inside (if isPrintPeriodicStats p then printPeriodicStats p else p)) as H1
    by (destruct (isPrintPeriodicStats p); [by apply upd_sa_inside | done]).
  revert H1. generalize (if isPrintPeriodicStats p then printPeriodicStats p else p). intros p1 H1. cbv zeta.
  unfold MemStats.printPeriodicStats.
  eapply ends_bind; [apply (ends_bind (fun _ => True)); [apply yields_any|]|].
  - intros [fgs d] _. apply ends_ok.
    instantiate (1 := fun r => m_freq r.2 = m_freq (gemdroid_memory p1)
                               /\ m_optMemFreq r.2 = m_optMemFreq (gemdroid_memory p1)). done.
  - intros [ms mem] [E1 E2]. apply ends_ok. by apply (inside_same p1).
Qed.

Lemma periodic_power_inv p : inside p -> yields inside (periodic_power p).
Proof.
  intros Hp. unfold periodic_power. ends_step; [|by apply ends_ok].
  eapply ends_bind; [by apply powerCalculator1us_inv|]. intros p1 H1. apply ends_ok. same p1.
Qed.

Lemma periodic_slack_inv p : inside p -> yields inside (periodic_slack p).
Proof. intros Hp. unfold periodic_slack. ends_read; [same p | exact Hp]. Qed.

End Work.

(** ** Edges

    What a cycle does to the clocks: the edge of a core, of an IP and of the
    memory is noted when its period has passed. *)

Definition edge (now last period : Z) : Z := if bool_decide (now - last >= period) then now else last.

Definition edge_core (cl : Clocks) (i : Z) : Clocks :=
  match zget (ck_cpu cl) i, zget (ck_cpu_periods cl) i with
  | Some last, Some period =>
      if bool_decide (ck_now cl - last >= period)
      then mkClocks (ck_now cl) (zalter (fun _ => ck_now cl) (ck_cpu cl) i) (ck_ip cl) (ck_mem cl)
             (ck_cpu_periods cl) (ck_ip_periods cl) (ck_mem_period cl) (ck_dvfs cl)
      else cl
  | _, _ => cl
  end.

Definition edge_ip (type : Z) (cl : Clocks) (id : Z) : Clocks :=
  match zget2 (ck_ip cl) type id, zget2 (ck_ip_periods cl) type id with
  | Some last, Some period =>
      if bool_decide (ck_now cl - last >= period)
      then mkClocks (ck_now cl) (ck_cpu cl) (zalter2 (fun _ => ck_now cl) (ck_ip cl) type id) (ck_mem cl)
             (ck_cpu_periods cl) (ck_ip_periods cl) (ck_mem_period cl) (ck_dvfs cl)
      else cl
  | _, _ => cl
  end.

(** A loop whose body moves the clocks by a function. *)
Lemma yields_shadow {S A C} (P : S -> Prop) (obs : S -> C) (body : S -> A -> Res S) (f : C -> A -> C) l :
  (forall s a, P s -> yields (fun s' => P s' /\ obs s' = f (obs s) a) (body s a)) ->
  forall s, P s -> yields (fun s' => P s' /\ obs s' = foldl f (obs s) l) (foldM body s l).
Proof.
  intros Hb. induction l as [|a l IH]; intros s Hs; cbn [foldM foldl]; [by apply ends_ok|].
  eapply ends_bind; [by apply Hb|]. intros s' [Hs' E]. rewrite <- E. by apply IH.
Qed.

Section Edges.
Context (n m gv : Z).
#[local] Notation sized := (sized_tables n m gv false).

Lemma sized_inside p : sized p -> inside n m gv (clocks p) p.
Proof. by split. Qed.

Lemma clock_core_inv i p : sized p -> yields (fun q => sized q /\ clocks q = edge_core (clocks p) i) (clock_core i p).
Proof.
  intros Hp. unfold clock_core, edge_core. cbn [clocks ck_cpu ck_cpu_periods ck_now].
  destruct (zget (cpuLastTick p) i) as [last|]; [|by apply ends_err].
  destruct (zget (cpuFreqMultipliers p) i) as [period|]; [|by apply ends_err].
  cbn [of_option mbind Res_bind]. unfold due. destruct (bool_decide _); [|by apply ends_ok].
  eapply ends_bind; [by apply (tick_core_inv n m gv (clocks p)), sized_inside|]. intros q [Hq E]. apply ends_ok.
  split; [by apply (sized_tables_same n m gv false q)|]. injection E as E1 E2 E3 E4 E5 E6 E7 E8. unfold clocks. cbn. by rewrite E1, E2, E3, E4, E5, E6, E7, E8.
Qed.

Lemma clock_ip_with_inv work type id p :
  (forall cl q, inside n m gv cl q -> yields (inside n m gv cl) (work q)) -> sized p ->
  yields (fun q => sized q /\ clocks q = edge_ip type (clocks p) id) (clock_ip_with work type id p).
Proof.
  intros Hw Hp. unfold clock_ip_with, edge_ip. cbn [clocks ck_ip ck_ip_periods ck_now].
  destruct (zget2 (ipLastTick p) type id) as [last|]; [|by apply ends_err].
  destruct (zget2 (ipFreqMultipliers p) type id) as [period|]; [|by apply ends_err].
  cbn [of_option mbind Res_bind]. unfold due. destruct (bool_decide _); [|by apply ends_ok].
  eapply ends_bind; [by apply (Hw (clocks p)), sized_inside|]. intros q [Hq E]. apply ends_ok.
  split; [by apply (sized_tables_same n m gv false q)|].
  injection E as E1 E2 E3 E4 E5 E6 E7 E8. unfold clocks. cbn. by rewrite E1, E2, E3, E4, E5, E6, E7, E8.
Qed.

Lemma clock_gpu_inv uninit p :
  sized p ->
  yields (fun q => sized q /\ (clocks q = clocks p \/ clocks q = edge_ip IP_TYPE_GPU (clocks p) 0)) (clock_gpu uninit p).
Proof.
  intros Hp. unfold clock_gpu. ends_step. ends_step; [|apply ends_ok; by split; [|left]].
  eapply ends_mono; [apply clock_ip_with_inv; [|done]|].
  - intros cl q Hq. eapply ends_bind; [by apply tickIP_inv|]. intros q' Hq'. by apply tickIP_inv.
  - intros q [Hq E]. split; [done | by right].
Qed.

(** The clocks after the memory's edge. *)
Definition edge_mem (cl : Clocks) : Clocks :=
  mkClocks (ck_now cl) (ck_cpu cl) (ck_ip cl) (edge (ck_now cl) (ck_mem cl) (ck_mem_period cl))
    (ck_cpu_periods cl) (ck_ip_periods cl) (ck_mem_period cl) (ck_dvfs cl).

Lemma clock_memory_inv p :
  sized p -> yields (fun q => sized q /\ clocks q = edge_mem (clocks p)) (clock_memory p).
Proof.
  intros Hp. unfold clock_memory, edge_mem, edge, due. cbn [clocks ck_now ck_mem ck_mem_period].
  destruct (bool_decide _); [|by apply ends_ok].
  eapply ends_bind; [by apply (tick_uncore_inv n m gv (clocks p)), sized_inside|]. intros q [Hq E]. apply ends_ok.
  split; [by apply (sized_tables_same n m gv false q)|].
  injection E as E1 E2 E3 E4 E5 E6 E7 E8. unfold clocks. cbn. by rewrite E1, E2, E3, E5, E6, E7, E8.
Qed.

(** ** The governor's period *)

Lemma set_multipliers_inv p : sized p -> yields sized (set_multipliers p).
Proof.
  intros H. unfold set_multipliers. eapply ends_bind.
  { apply (for_cores_inv sized); [|exact H]. intros i q Hq. unfold core_multiplier. ends_read.
    by apply (sized_tables_same n m gv false q). }
  intros p1 H1. eapply ends_bind.
  { apply (for_ips_inv sized); [|exact H1]. intros type id q Hq. unfold ip_multiplier. ends_read.
    by apply (sized_tables_same n m gv false q). }
  intros p2 H2. apply ends_ok. by apply (sized_tables_same n m gv false p2).
Qed.

Context (Hn : 1 <= n) (Hm : 1 <= m).

Lemma periodic_dvfs_inv p :
  sized p -> yields (fun q => sized q /\ (enableDVFS p = false -> clocks q = clocks p)) (periodic_dvfs p).
Proof.
  intros Hp. unfold periodic_dvfs. destruct (enableDVFS p) eqn:Ed; cbn [andb]; [|by apply ends_ok].
  ends_step; [|by apply ends_ok].
  eapply ends_bind; [exact (ends_yields _ _ _ (updateDVFS_ends n m gv Hn Hm p Hp))|]. intros p1 H1%sized_tables_decided.
  eapply ends_bind; [by apply set_multipliers_inv|]. intros p2 H2. apply ends_ok.
  split; [by apply (sized_tables_same n m gv false p2) | done].
Qed.

(** ** A cycle of the platform *)

(** The clocks after the parts' edges; the GPU's, when it has one. *)
Definition part_edges (cl : Clocks) : Clocks :=
  foldl (fun cl type => foldl (edge_ip type) cl (zrange m)) (foldl edge_core cl (zrange n))
    (ip_types IP_TYPE_DC IP_TYPE_GPU).

Definition next_cycle (cl : Clocks) : Clocks :=
  mkClocks (Z.succ (ck_now cl)) (ck_cpu cl) (ck_ip cl) (ck_mem cl) (ck_cpu_periods cl) (ck_ip_periods cl)
    (ck_mem_period cl) (ck_dvfs cl).

Definition cycled (cl cl' : Clocks) : Prop :=
  exists cl1, (cl1 = part_edges (next_cycle cl) \/ cl1 = edge_ip IP_TYPE_GPU (part_edges (next_cycle cl)) 0)
              /\ cl' = edge_mem cl1.

Lemma parts_inv uninit p :
  sized p ->
  yields (fun q => sized q /\ clocks q = part_edges (clocks p))
    (p ← for_cores clock_core p; for_ips IP_TYPE_DC IP_TYPE_GPU (clock_ip uninit) p).
Proof.
  intros Hp. eapply ends_bind.
  { unfold for_cores. rewrite (to_cpus _ _ _ _ p Hp). apply (yields_shadow sized clocks _ edge_core); [|exact Hp].
    intros q i Hq. by apply clock_core_inv. }
  intros p1 [H1 E1]. unfold part_edges. rewrite <- E1. unfold for_ips.
  apply (yields_shadow sized clocks _ (fun cl type => foldl (edge_ip type) cl (zrange m))); [|exact H1].
  intros q type Hq. rewrite (to_insts _ _ _ _ q Hq). apply (yields_shadow sized clocks _ (edge_ip type)); [|exact Hq].
  intros q' id Hq'. apply clock_ip_with_inv; [|exact Hq']. intros cl r Hr. by apply tickIP_inv.
Qed.

(** The reading of the power and of the statistics. *)
Lemma periodic_inv p :
  sized p ->
  yields (inside n m gv (clocks p)) (p ← periodic_stats p; p ← periodic_power p; periodic_slack p).
Proof.
  intros Hp. apply sized_inside in Hp. eapply ends_bind; [by apply periodic_stats_inv|]. intros p1 H1.
  eapply ends_bind; [by apply periodic_power_inv|]. intros p2 H2. by apply periodic_slack_inv.
Qed.

Lemma tick_assoc uninit p :
  tick uninit p =
    (p3 ← (p1 ← periodic_stats (p <| ticks ::= Z.succ |>); p2 ← periodic_power p1; periodic_slack p2);
     p4 ← periodic_dvfs p3;
     p6 ← (p5 ← for_cores clock_core p4; for_ips IP_TYPE_DC IP_TYPE_GPU (clock_ip uninit) p5);
     p7 ← clock_gpu uninit p6;
     clock_memory p7).
Proof.
  unfold tick. cbv zeta. unfold mbind, Res_bind. destruct (periodic_stats _); [|done].
  destruct (periodic_power _); [|done]. destruct (periodic_slack _); [|done]. destruct (periodic_dvfs _); [|done].
  by destruct (for_cores _ _).
Qed.

Lemma tick_inv uninit p :
  sized p ->
  yields (fun q => sized q /\ (enableDVFS p = false -> cycled (clocks p) (clocks q))) (tick uninit p).
Proof.
  intros Hp. rewrite tick_assoc.
  assert (sized (p <| ticks ::= Z.succ |>)) as H0 by (by apply (sized_tables_same n m gv false p)).
  eapply ends_bind; [by apply periodic_inv|]. intros p3 [H3 E3].
  eapply ends_bind; [by apply periodic_dvfs_inv|]. intros p4 [H4 E4].
  eapply ends_bind; [by apply parts_inv|]. intros p6 [H6 E6].
  eapply ends_bind; [by apply clock_gpu_inv|]. intros p7 [H7 E7].
  eapply ends_mono; [by apply clock_memory_inv|]. intros q [Hq Eq]. split; [done|]. intros Ed.
  assert (clocks p4 = next_cycle (clocks p)) as E.
  { rewrite E4, E3; [done|]. change (ck_dvfs (clocks p3) = false). by rewrite E3. }
  exists (clocks p7). split; [|done]. rewrite E6, E in E7. exact E7.
Qed.

Lemma run_inv uninit k : forall p, sized p -> yields sized (run uninit k p).
Proof.
  induction k as [|k IH]; intros p Hp; cbn [run]; [by apply ends_ok|].
  eapply ends_bind; [by apply tick_inv|]. intros q [Hq _]. by apply IH.
Qed.
End Edges.
