(* ===== verification/ClockRates.v ===== *)
(** * How often the parts are clocked

    From what one cycle does to the clocks: the last edge of a part whose
    period is [k] is the last multiple of [k] cycles from where it was. *)

From S2P Require Import Prelude.
From S2P Require Import Outcome.
From S2P Require Import GemDefines.
From S2P Require Import Platform.
From S2P Require Import GemTick.
From S2P Require Import GovernorSafety.
From S2P Require Import RunInv.

Import Platform.Platform.
Import GemTick.GemTick.

(** ** One register *)

Definition last_edge (now last period : Z) : Z := last + period * ((now - last) / period).

Lemma edge_idem now last period : 0 < period -> edge now (edge now last period) period = edge now last period.
Proof. intros H. unfold edge. repeat case_bool_decide; lia. Qed.

Lemma last_edge_start now last period : 0 <= now - last < period -> last_edge now last period = last.
Proof. intros H. unfold last_edge. rewrite Z.div_small by lia. lia. Qed.

Lemma edge_last_edge now last period :
  0 < period -> last <= now ->
  edge (Z.succ now) (last_edge now last period) period = last_edge (Z.succ now) last period.
Proof.
  intros Hp Hl. unfold edge, last_edge. pose proof (Z.div_mod (now - last) period ltac:(lia)) as Hd.
  pose proof (Z.mod_pos_bound (now - last) period Hp) as Hm. revert Hd Hm.
  generalize ((now - last) / period) ((now - last) mod period). intros q r Hd Hm. case_bool_decide as Hc.
  - rewrite <- (Z.div_unique (Z.succ now - last) period (q + 1) 0); nia.
  - f_equal. f_equal. apply (Z.div_unique _ _ _ (r + 1)); nia.
Qed.

(** ** The registers of the cores *)

Lemma edge_core_frame cl i :
  edge_core cl i = mkClocks (ck_now cl) (ck_cpu (edge_core cl i)) (ck_ip cl) (ck_mem cl) (ck_cpu_periods cl)
                     (ck_ip_periods cl) (ck_mem_period cl) (ck_dvfs cl).
Proof.
  destruct cl. unfold edge_core. destruct (zget _ _); [|done]. destruct (zget _ _); [|done].
  by destruct (bool_decide _).
Qed.
Lemma edge_cores_frame l : forall cl,
  foldl edge_core cl l = mkClocks (ck_now cl) (ck_cpu (foldl edge_core cl l)) (ck_ip cl) (ck_mem cl) (ck_cpu_periods cl)
                           (ck_ip_periods cl) (ck_mem_period cl) (ck_dvfs cl).
Proof.
  induction l as [|i l IH]; intros cl; cbn [foldl]; [by destruct cl|]. rewrite IH. by rewrite (edge_core_frame cl i).
Qed.

Lemma edge_core_at cl i j last period :
  zget (ck_cpu cl) j = Some last -> zget (ck_cpu_periods cl) j = Some period ->
  zget (ck_cpu (edge_core cl i)) j = Some (if bool_decide (i = j) then edge (ck_now cl) last period else last).
Proof.
  intros H1 H2. unfold edge_core, edge. destruct (bool_decide_reflect (i = j)) as [->|Hij].
  - rewrite H1, H2. destruct (bool_decide _); [|done]. cbn [ck_cpu]. rewrite zget_zalter, H1.
    by rewrite bool_decide_eq_true_2.
  - destruct (zget (ck_cpu cl) i); [|done]. destruct (zget (ck_cpu_periods cl) i); [|done].
    destruct (bool_decide _); [|done]. cbn [ck_cpu]. rewrite zget_zalter. by rewrite bool_decide_eq_false_2.
Qed.

Lemma edge_cores_at l j period : 0 < period -> forall cl last,
  zget (ck_cpu cl) j = Some last -> zget (ck_cpu_periods cl) j = Some period ->
  zget (ck_cpu (foldl edge_core cl l)) j = Some (if bool_decide (j ∈ l) then edge (ck_now cl) last period else last).
Proof.
  intros Hp. induction l as [|i l IH]; intros cl last H1 H2; cbn [foldl].
  - by rewrite bool_decide_eq_false_2 by apply not_elem_of_nil.
  - pose proof (edge_core_at cl i j last period H1 H2) as H3.
    rewrite (IH (edge_core cl i) _ H3) by (by rewrite edge_core_frame).
    replace (ck_now (edge_core cl i)) with (ck_now cl) by (by rewrite edge_core_frame).
    destruct (bool_decide_reflect (i = j)) as [->|Hij].
    + rewrite edge_idem by done. rewrite (bool_decide_eq_true_2 (j ∈ j :: l)) by left.
      by destruct (bool_decide _).
    + f_equal. apply (f_equal (fun b : bool => if b then _ else _)). apply bool_decide_ext. rewrite elem_of_cons. naive_solver.
Qed.

(** ** The registers of the IPs *)

Lemma edge_ip_frame type cl i :
  edge_ip type cl i = mkClocks (ck_now cl) (ck_cpu cl) (ck_ip (edge_ip type cl i)) (ck_mem cl) (ck_cpu_periods cl)
                        (ck_ip_periods cl) (ck_mem_period cl) (ck_dvfs cl).
Proof.
  destruct cl. unfold edge_ip. destruct (zget2 _ _ _); [|done]. destruct (zget2 _ _ _); [|done].
  by destruct (bool_decide _).
Qed.

Lemma edge_ip_at type cl i t j last period :
  zget2 (ck_ip cl) t j = Some last -> zget2 (ck_ip_periods cl) t j = Some period ->
  zget2 (ck_ip (edge_ip type cl i)) t j =
    Some (if bool_decide (type = t /\ i = j) then edge (ck_now cl) last period else last).
Proof.
  intros H1 H2. unfold edge_ip, edge. destruct (bool_decide_reflect (type = t /\ i = j)) as [[-> ->]|Hij].
  - rewrite H1, H2. destruct (bool_decide _); [|done]. cbn [ck_ip]. rewrite zget2_zalter2, H1.
    by rewrite bool_decide_eq_true_2.
  - destruct (zget2 (ck_ip cl) type i); [|done]. destruct (zget2 (ck_ip_periods cl) type i); [|done].
    destruct (bool_decide _); [|done]. cbn [ck_ip]. rewrite zget2_zalter2. by rewrite bool_decide_eq_false_2.
Qed.

(** The two loops are one over the pairs. *)
Definition edge_pair (cl : Clocks) (x : Z * Z) : Clocks := edge_ip x.1 cl x.2.
Definition all_pairs (types ids : list Z) : list (Z * Z) := types ≫= (fun t => pair t <$> ids).

Lemma edge_pairs types ids cl :
  foldl (fun cl type => foldl (edge_ip type) cl ids) cl types = foldl edge_pair cl (all_pairs types ids).
Proof.
  revert cl. induction types as [|t types IH]; intros cl; [done|]. cbn [foldl]. rewrite IH.
  unfold all_pairs. cbn [mbind list_bind]. rewrite foldl_app. f_equal. unfold edge_pair. clear.
  revert cl. induction ids as [|i ids IH]; intros cl; [done|]. cbn. apply IH.
Qed.

Lemma elem_of_all_pairs t i types ids : (t, i) ∈ all_pairs types ids <-> t ∈ types /\ i ∈ ids.
Proof.
  unfold all_pairs. rewrite list_elem_of_bind. setoid_rewrite list_elem_of_fmap. naive_solver.
Qed.

Lemma edge_pairs_frame l : forall cl,
  foldl edge_pair cl l = mkClocks (ck_now cl) (ck_cpu cl) (ck_ip (foldl edge_pair cl l)) (ck_mem cl)
                           (ck_cpu_periods cl) (ck_ip_periods cl) (ck_mem_period cl) (ck_dvfs cl).
Proof.
  induction l as [|x l IH]; intros cl; cbn [foldl]; [by destruct cl|]. rewrite IH. unfold edge_pair.
  by rewrite (edge_ip_frame x.1 cl x.2).
Qed.

Lemma edge_pairs_at l t j period : 0 < period -> forall cl last,
  zget2 (ck_ip cl) t j = Some last -> zget2 (ck_ip_periods cl) t j = Some period ->
  zget2 (ck_ip (foldl edge_pair cl l)) t j =
    Some (if bool_decide ((t, j) ∈ l) then edge (ck_now cl) last period else last).
Proof.
  intros Hp. induction l as [|[t' i] l IH]; intros cl last H1 H2; cbn [foldl].
  - by rewrite bool_decide_eq_false_2 by apply not_elem_of_nil.
  - pose proof (edge_ip_at t' cl i t j last period H1 H2) as H3. change (edge_pair cl (t', i)) with (edge_ip t' cl i).
    rewrite (IH (edge_ip t' cl i) _ H3) by (by rewrite edge_ip_frame).
    replace (ck_now (edge_ip t' cl i)) with (ck_now cl) by (by rewrite edge_ip_frame).
    destruct (bool_decide_reflect (t' = t /\ i = j)) as [[-> ->]|Hij].
    + rewrite edge_idem by done. rewrite (bool_decide_eq_true_2 ((t, j) ∈ (t, j) :: l)) by left.
      by destruct (bool_decide _).
    + f_equal. apply (f_equal (fun b : bool => if b then _ else _)). apply bool_decide_ext. rewrite elem_of_cons. naive_solver.
Qed.

(** ** A cycle *)

(** A register moves as its period says. *)
Definition moves (now : Z) (r r' k : option Z) : Prop :=
  forall last period, r = Some last -> k = Some period -> 0 < period -> r' = Some (edge now last period).

Record cycle_step (n m : Z) (cl cl' : Clocks) : Prop := {
  cs_now : ck_now cl' = Z.succ (ck_now cl);
  cs_periods : (ck_cpu_periods cl', ck_ip_periods cl', ck_mem_period cl', ck_dvfs cl')
               = (ck_cpu_periods cl, ck_ip_periods cl, ck_mem_period cl, ck_dvfs cl);
  cs_cpu : forall i, 0 <= i < n ->
    moves (ck_now cl') (zget (ck_cpu cl) i) (zget (ck_cpu cl') i) (zget (ck_cpu_periods cl) i);
  cs_ip : forall t i, IP_TYPE_DC <= t < IP_TYPE_GPU -> 0 <= i < m ->
    moves (ck_now cl') (zget2 (ck_ip cl) t i) (zget2 (ck_ip cl') t i) (zget2 (ck_ip_periods cl) t i);
  cs_mem : ck_mem cl' = edge (ck_now cl') (ck_mem cl) (ck_mem_period cl)
}.

Lemma elem_of_ip_types first last t : t ∈ ip_types first last <-> first <= t < last.
Proof.
  unfold ip_types. rewrite list_elem_of_fmap. setoid_rewrite elem_of_zrange. split; [intros (k & -> & ?); lia|].
  intros H. exists (t - first). lia.
Qed.

(** [c] has the cores' edges of the cycle, [d] the IPs' too. *)
Lemma edges_step n m cl c d :
  c = mkClocks (Z.succ (ck_now cl)) (ck_cpu c) (ck_ip cl) (ck_mem cl) (ck_cpu_periods cl) (ck_ip_periods cl)
        (ck_mem_period cl) (ck_dvfs cl) ->
  d = mkClocks (ck_now c) (ck_cpu c) (ck_ip d) (ck_mem c) (ck_cpu_periods c) (ck_ip_periods c)
        (ck_mem_period c) (ck_dvfs c) ->
  (forall i, 0 <= i < n ->
     moves (Z.succ (ck_now cl)) (zget (ck_cpu cl) i) (zget (ck_cpu c) i) (zget (ck_cpu_periods cl) i)) ->
  (forall t i, IP_TYPE_DC <= t < IP_TYPE_GPU -> 0 <= i < m ->
     moves (ck_now c) (zget2 (ck_ip c) t i) (zget2 (ck_ip d) t i) (zget2 (ck_ip_periods c) t i)) ->
  cycle_step n m cl (edge_mem d).
Proof.
  intros Ec Ed Hcpu Hip. destruct c as [c1 c2 c3 c4 c5 c6 c7 c8], d as [d1 d2 d3 d4 d5 d6 d7 d8], cl as [e1 e2 e3 e4 e5 e6 e7 e8].
  cbn [ck_now ck_cpu ck_ip ck_mem ck_cpu_periods ck_ip_periods ck_mem_period ck_dvfs] in *.
  injection Ec as -> -> -> -> -> -> ->. injection Ed as -> -> -> -> -> -> ->.
  apply Build_cycle_step; [reflexivity | reflexivity | exact Hcpu | exact Hip | reflexivity].
Qed.

Lemma cycled_step n m cl cl' : cycled n m cl cl' -> cycle_step n m cl cl'.
Proof.
  intros (cl1 & Hcl1 & ->).
  assert (exists extra, cl1 = foldl edge_pair (foldl edge_core (next_cycle cl) (zrange n))
            (all_pairs (ip_types IP_TYPE_DC IP_TYPE_GPU) (zrange m) ++ extra)) as (extra & ->).
  { unfold part_edges in Hcl1. rewrite edge_pairs in Hcl1. destruct Hcl1 as [->| ->].
    - exists []. by rewrite app_nil_r.
    - exists [(IP_TYPE_GPU, 0)]. by rewrite foldl_app. }
  clear Hcl1. apply (edges_step n m cl (foldl edge_core (next_cycle cl) (zrange n))).
  - exact (edge_cores_frame (zrange n) (next_cycle cl)).
  - apply edge_pairs_frame.
  - intros i Hi last period H1 H2 Hp.
    rewrite (edge_cores_at (zrange n) i period Hp (next_cycle cl) last H1 H2).
    rewrite bool_decide_eq_true_2; [reflexivity | by apply elem_of_zrange].
  - intros t i Ht Hi last period H1 H2 Hp. rewrite (edge_pairs_at _ t i period Hp _ last H1 H2).
    rewrite bool_decide_eq_true_2; [reflexivity|]. apply elem_of_app. left.
    apply elem_of_all_pairs. by rewrite elem_of_ip_types, elem_of_zrange.
Qed.

(** ** Cycles *)

(** A register that was in phase is at the last edge of its period. *)
Definition at_rate (now now' : Z) (r r' k : option Z) : Prop :=
  forall last period, r = Some last -> k = Some period -> 0 <= now - last < period ->
  r' = Some (last_edge now' last period).

Record rated (n m k : Z) (cl cl' : Clocks) : Prop := {
  rt_now : ck_now cl' = ck_now cl + k;
  rt_periods : (ck_cpu_periods cl', ck_ip_periods cl', ck_mem_period cl', ck_dvfs cl')
               = (ck_cpu_periods cl, ck_ip_periods cl, ck_mem_period cl, ck_dvfs cl);
  rt_cpu : forall i, 0 <= i < n ->
    at_rate (ck_now cl) (ck_now cl') (zget (ck_cpu cl) i) (zget (ck_cpu cl') i) (zget (ck_cpu_periods cl) i);
  rt_ip : forall t i, IP_TYPE_DC <= t < IP_TYPE_GPU -> 0 <= i < m ->
    at_rate (ck_now cl) (ck_now cl') (zget2 (ck_ip cl) t i) (zget2 (ck_ip cl') t i) (zget2 (ck_ip_periods cl) t i);
  rt_mem : 0 <= ck_now cl - ck_mem cl < ck_mem_period cl ->
    ck_mem cl' = last_edge (ck_now cl') (ck_mem cl) (ck_mem_period cl)
}.

Lemma at_rate_start now r k : at_rate now now r r k.
Proof. intros last period -> _ H. by rewrite last_edge_start. Qed.

Lemma at_rate_moves now now' r r' r'' k :
  now <= now' -> at_rate now now' r r' k -> moves (Z.succ now') r' r'' k -> at_rate now (Z.succ now') r r'' k.
Proof.
  intros Hn Hr Hm last period Hl Hk H. rewrite (Hm _ _ (Hr _ _ Hl Hk H) Hk) by lia.
  by rewrite edge_last_edge by lia.
Qed.

Lemma rated_start n m cl : rated n m 0 cl cl.
Proof.
  constructor; [lia | done | intros; apply at_rate_start .. |]. intros H. by rewrite last_edge_start.
Qed.

Lemma rated_step n m k cl cl1 cl2 : 0 <= k -> rated n m k cl cl1 -> cycle_step n m cl1 cl2 -> rated n m (Z.succ k) cl cl2.
Proof.
  intros Hk [E1 E2 Hcpu Hip Hmem] [F1 F2 Gcpu Gip Gmem]. injection E2 as P1 P2 P3 P4.
  rewrite F1 in *. assert (ck_now cl <= ck_now cl1) as Hle by lia. constructor.
  - lia.
  - by rewrite F2, P1, P2, P3, P4.
  - intros i Hi. rewrite F1. apply (at_rate_moves _ _ _ (zget (ck_cpu cl1) i)); [done | by apply Hcpu |].
    rewrite <- P1. by apply Gcpu.
  - intros t i Ht Hi. rewrite F1. apply (at_rate_moves _ _ _ (zget2 (ck_ip cl1) t i)); [done | by apply Hip |].
    rewrite <- P2. by apply Gip.
  - intros H. rewrite Gmem, Hmem, P3, F1 by done. apply edge_last_edge; lia.
Qed.

Lemma run_rated n m g uninit k : 1 <= n -> 1 <= m -> forall j p0 p,
  sized_tables n m g false p -> enableDVFS p = false -> rated n m (Z.of_nat j) (clocks p0) (clocks p) ->
  yields (fun q => sized_tables n m g false q /\ rated n m (Z.of_nat (j + k)) (clocks p0) (clocks q)) (run uninit k p).
Proof.
  intros Hn Hm. induction k as [|k IH]; intros j p0 p Hp Hd Hr; cbn [run].
  - apply ends_ok. by rewrite Nat.add_0_r.
  - eapply ends_bind; [by apply (tick_inv n m g)|]. intros q [Hq Hc].
    specialize (Hc Hd). apply cycled_step in Hc.
    replace (j + S k)%nat with (S j + k)%nat by lia. apply IH; [done | |].
    + pose proof (cs_periods _ _ _ _ Hc) as Hper. injection Hper. cbn. congruence.
    + rewrite Nat2Z.inj_succ. apply (rated_step n m _ _ (clocks p)); [lia | done | done].
Qed.
