(* ===== verification/GemSample.v ===== *)
(** * A platform to evaluate

    A storage of zeros, the parameters of a small simulation and its files:
    what the witnesses about the platform are run on. *)

From S2P Require Import Prelude.
From S2P Require Import DramConfig.
From S2P Require Import GemDefines.
From S2P Require Import MultiChannel.
From S2P Require Import ClockDomain.
From S2P Require Import Flows.
From S2P Require Import SystemAgent.
From S2P Require Import GemMemory.
From S2P Require Import MemStats.
From S2P Require Import Uncore.
From S2P Require Import Ip.
From S2P Require Import DeviceSafety.
From S2P Require Import Coders.
From S2P Require Import AcceleratorFrames.
From S2P Require Import TraceFile.
From S2P Require Import Gpu.
From S2P Require Import Cores.
From S2P Require Import CoreTheorems.
From S2P Require Import Platform.
From S2P Require Import GemTick.
From S2P Require Import GemBuild.

Module Sample.
Import Platform.Platform.
Import GemBuild.GemBuild.

Definition zero_decoder : Decoder.Decoder := Decoder.mkDecoder zero_coder Decoder.I_Frame 0 0 0 0 0 0.
Definition zero_gpu : Gpu.GemDroidIPGPU :=
  Gpu.mkGPU zero_ip (mkStream [] false) 0 0 0 false false 0 0 0 0 0 0 0.

(** The object an element of the array of a type is. *)
Definition zero_instance (type : Z) : IPInstance :=
  if bool_decide (type ∈ [IP_TYPE_VD; IP_TYPE_AD]) then IPDecoder zero_decoder
  else if bool_decide (type ∈ [IP_TYPE_VE; IP_TYPE_AE]) then IPEncoder zero_coder
  else if bool_decide (type = IP_TYPE_IMG) then IPNocoder zero_coder
  else if bool_decide (type = IP_TYPE_GPU) then IPGPU zero_gpu
  else Device zero_ip.

Definition per_type {A} (x : A) : list A := replicate (Z.to_nat IP_TYPE_END) x.
Definition per_instance {A} (x : A) : list (list A) := per_type (replicate (Z.to_nat MAX_IPS) x).
Definition per_state (x : spec_float) : list (list spec_float) := per_type (replicate (Z.to_nat IP_DVFS_STATES) x).
Definition nought : spec_float := F64.of_Z 0.

Definition zero_uncore : Uncore :=
  mkUncore (GemDroidSA_new 0 0)
    (mkGemMemory (mkWrapper (mkMultiChannel DDR3_micron_32M_8B_x8_sg15 nought [] ClockDomainCrosser_default 0) nought 0 0)
       0 false nought nought 0 0 0)
    (replicate (Z.to_nat MAX_CPUS) 0) (per_type 0).

Definition storage : GemDroid :=
  mkGemDroid 0 0 0 0 0 0 nought nought (replicate 4 0) empty_flows 0 0 0 0 0 (replicate 4 0) (per_instance 0)
    (per_instance 0) (per_instance false) false 0 nought 0 0 false 0 (replicate 4 0) (per_instance 0)
    (per_instance nought) (per_instance 0) (per_type 0) (per_type nought) (per_state nought)
    (per_type (replicate 4 nought)) (replicate 4 (raw_core 0)) zero_uncore (replicate 4 <$> (zero_instance <$> zrange IP_TYPE_END))
    (per_state nought) (per_type nought) (per_type nought) (per_type nought) (per_type nought) nought 0 0 0
    (MemStats.mkMemStats [] nought) false false.

(** One core and one instance of each IP, no trace for the GPU. *)
Definition params (governor timing : Z) : Params :=
  mkParams true 1 governor timing 900 1 500 400 300 1 ["youtube.trace"]%string "none.txt" false true
    (F64.of_Z 1) (F64.of_Z 1)
    (mkMemoryParams DDR3_micron_32M_8B_x8_sg15 (F64.lit 15 10) (F64.lit 15 10) 8192).

(** The display's frame and the decoder's, in two flows of the first
    application. *)
Definition files (trace : list Token) : Files :=
  mkFiles (Some (fun _ _ => F64.of_Z 1, fun _ _ => F64.of_Z 1))
    [[0; IP_TYPE_CPU; IP_TYPE_VD; IP_TYPE_DC; -1]] (fun _ => Some trace) None.

Definition start (governor timing : Z) (trace : list Token) : Res GemDroid :=
  GemDroid_new (params governor timing) (files trace) 0 storage.
End Sample.
