(* ===== verification/PlatformTheorems.v ===== *)
(** * What holds of the platform

    The theorems about the governors and about the whole clock of
    [gemdroid.cc], with the runs that show their hypotheses met. *)

From S2P Require Import Prelude.
From S2P Require Import Outcome.
From S2P Require Import DramConfig.
From S2P Require Import GemDefines.
From S2P Require Import GemMemory.
From S2P Require Import MemoryFreq.
From S2P Require Import Uncore.
From S2P Require Import Ip.
From S2P Require Import Cores.
From S2P Require Import Platform.
From S2P Require Import Governors.
From S2P Require Import GemTick.
From S2P Require Import GemBuild.
From S2P Require Import GovernorSafety.
From S2P Require Import RunInv.
From S2P Require Import ClockRates.
From S2P Require Import GemSample.

Import Platform.Platform.
Import Governors.Governors.

(** ** The tables, decided *)

Definition in_states (n s : Z) : bool := bool_decide (0 <= s) && bool_decide (s < n).
Definition core_okb (c : Core.GemDroidCore) : bool :=
  in_states CORE_DVFS_STATES (Core.dvfsState c) && in_states CORE_DVFS_STATES (Core.optDVFSState c).
Definition ip_okb (ip : GemDroidIP) : bool :=
  in_states IP_DVFS_STATES (dvfsState ip) && in_states IP_DVFS_STATES (m_optDVFSState ip).

(** All cores and instances of the arrays, in use or not. *)
Definition tables_okb (p : GemDroid) : bool :=
  bool_decide (1 <= num_cpus p) && bool_decide (1 <= num_ip_inst p)
  && forallb core_okb (gemdroid_core p) && forallb (forallb (fun x => ip_okb (ip_base x))) (ips p)
  && bool_decide (m_freq (gemdroid_memory p) ∈ reachable_freqs)
  && bool_decide (m_optMemFreq (gemdroid_memory p) = F64.lit 8 10).

Lemma in_states_spec n s : in_states n s = true -> 0 <= s < n.
Proof. unfold in_states. rewrite andb_true_iff, !bool_decide_eq_true. lia. Qed.

Lemma forallb_zget {A} (f : A -> bool) l i x : forallb f l = true -> zget l i = Some x -> f x = true.
Proof.
  intros Hl Hx. unfold zget in Hx. case_bool_decide; [|done].
  apply (forallb_In f l x Hl). by eapply list_elem_of_lookup_2.
Qed.

Lemma tables_okb_spec p : tables_okb p = true -> tables_ok p.
Proof.
  unfold tables_okb. rewrite !andb_true_iff, !bool_decide_eq_true. intros [[[[[H1 H2] Hc] Hi] Hf] Ho].
  split; [done|]. split; [done|]. apply Build_sized_tables; [done | done | done | done | | | done | done].
  - intros i c _ Hget. unfold get_core in Hget. destruct (zget (gemdroid_core p) i) as [c'|] eqn:E; [|done].
    injection Hget as ->. pose proof (forallb_zget _ _ _ _ Hc E) as H. unfold core_okb in H.
    rewrite andb_true_iff in H. destruct H as [Ha Hb]. split; by apply in_states_spec.
  - intros type id x _ Hget. unfold getIPInstance in Hget. destruct (_ && _); [|done].
    destruct (zget2 (ips p) type id) as [x'|] eqn:E; [|done]. injection Hget as ->.
    unfold zget2 in E. destruct (zget (ips p) type) as [row|] eqn:Erow; [|done]. cbn in E.
    pose proof (forallb_zget _ _ _ _ (forallb_zget _ _ _ _ Hi Erow) E) as H. unfold ip_okb in H.
    rewrite andb_true_iff in H. destruct H as [Ha Hb]. split; by apply in_states_spec.
Qed.

(** ** The governors *)

(** What a decision may stop with. *)
Lemma decision_stops p f : tables_ok p -> updateDVFS p = Err f -> stays (governor p) f.
Proof. intros (Hn & Hm & Hp) E. exact (ends_fault _ _ _ (updateDVFS_ends _ _ _ Hn Hm p Hp) E). Qed.

(** C23: whatever the frames took, whatever the power measured, finite or not,
    every governor comes to an end: none of its loops over the frequencies of
    the memory, the states of the parts or the figures of merit goes on. *)
Theorem governors_end p : tables_ok p -> updateDVFS p <> Err OutOfFuel.
Proof. intros Hp E. by destruct (decision_stops p _ Hp E). Qed.

(** The sample platform after a frame of 3 ms in each part. *)
Definition framed (governor : Z) : Res GemDroid :=
  p ← Sample.start governor 1 [];
  Ok (p <| lastTimeTook := Sample.per_type (F64.of_Z 3) |> <| lastEnergyTook := Sample.per_type (F64.of_Z 1) |>
        <| lastPowerTook := Sample.per_type (F64.of_Z 1) |> <| lastFrequency := Sample.per_type (F64.lit 5 10) |>
        <| lastMemFreq := F64.lit 8 10 |>).

(** CoScale lowers the memory from 0.9 to 0.6 GHz. *)
Lemma governors_end_witness :
  match framed GOVERNOR_TYPE_COSCALE with
  | Ok p => tables_ok p /\ updateDVFS p <> Err OutOfFuel
            /\ (q ← updateDVFS p; Ok (m_freq (gemdroid_memory q))) = Ok (F64.lit 6 10)
  | Err _ => False
  end.
Proof.
  assert ((p ← framed GOVERNOR_TYPE_COSCALE;
           q ← updateDVFS p; Ok (tables_okb p, m_freq (gemdroid_memory q))) = Ok (true, F64.lit 6 10)) as H
    by by vm_compute.
  destruct (framed GOVERNOR_TYPE_COSCALE) as [p|]; [|done]. cbn in H. unfold mbind, Res_bind in *.
  destruct (updateDVFS p) as [q|] eqn:E; [|done]. injection H as Hb Hf. apply tables_okb_spec in Hb.
  split; [done|]. split; [|by rewrite Hf]. pose proof (governors_end p Hb) as H. by rewrite E in H.
Defined.

(** ** The clock *)

Lemma sized_tables_ok n m g p : 1 <= n -> 1 <= m -> sized_tables n m g false p -> tables_ok p.
Proof.
  intros Hn Hm H. pose proof (to_cpus _ _ _ _ _ H) as E1. pose proof (to_insts _ _ _ _ _ H) as E2.
  pose proof (to_governor _ _ _ _ _ H) as E3. split; [lia|]. split; [lia|]. by rewrite E1, E2, E3.
Qed.

(** C22: under every governor but the one for a building, however long the
    platform runs, through all cycles of the parts, calls, deliveries, wake-ups
    and decisions of the governor, every core and every accelerator that is in
    use is in a state of its table and the memory at one of its frequencies; and
    the decision that may follow reads no core's table outside of its bounds,
    which the code would not notice. The governor for a building is excluded as
    it goes up two states at once, and from the last state but one leaves the
    table: see [building_leaves_table]. *)
Theorem run_keeps_tables uninit k p q :
  tables_ok p -> governor p <> GOVERNOR_TYPE_BUILDING -> GemTick.run uninit k p = Ok q ->
  tables_ok q /\ updateDVFS q <> Err OutOfTable.
Proof.
  intros (Hn & Hm & Hp) Hg Hq. pose proof (ends_result _ _ _ (run_inv _ _ _ Hn Hm uninit k p Hp) Hq) as H.
  pose proof (sized_tables_ok _ _ _ q Hn Hm H) as Hok. split; [done|]. intros E.
  destruct (decision_stops q _ Hok E) as [_ Hs]. rewrite (to_governor _ _ _ _ q H) in Hs. by apply Hs.
Qed.

(** C24: without a governor each part is clocked at its own rate: after [k]
    cycles the last edge of a core, of an accelerator and of the memory is the
    last multiple of its period from where it was. *)
Theorem clock_rates uninit k p q :
  tables_ok p -> enableDVFS p = false -> GemTick.run uninit k p = Ok q ->
  rated (num_cpus p) (num_ip_inst p) (Z.of_nat k) (clocks p) (clocks q).
Proof.
  intros (Hn & Hm & Hp) Hd Hq.
  pose proof (run_rated _ _ _ uninit k Hn Hm 0 p p Hp Hd (rated_start _ _ _)) as H.
  apply (ends_result _ _ _ H Hq).
Qed.

(** The governor's period has passed: it decides in the first cycle. *)
Definition due_platform (governor : Z) : Res GemDroid :=
  p ← framed governor; Ok (p <| dvfsLastTick := - dvfsPeriod p |>).

(** Sixty cycles, in the first of which the slack governor slows the core
    down. *)
Lemma run_keeps_tables_witness :
  match due_platform GOVERNOR_TYPE_SLACK with
  | Ok p => exists q, GemTick.run Coders.OUT_BUFFER_FULL 60 p = Ok q
                      /\ (tables_ok q /\ updateDVFS q <> Err OutOfTable)
                      /\ (Core.dvfsState <$> zget (gemdroid_core q) 0) = Some 6
  | Err _ => False
  end.
Proof.
  assert ((p ← due_platform GOVERNOR_TYPE_SLACK;
           q ← GemTick.run Coders.OUT_BUFFER_FULL 60 p;
           Ok (tables_okb p, governor p, Core.dvfsState <$> zget (gemdroid_core q) 0))
          = Ok (true, GOVERNOR_TYPE_SLACK, Some 6)) as H by by vm_compute.
  destruct (due_platform GOVERNOR_TYPE_SLACK) as [p|]; [|done]. unfold mbind, Res_bind in H.
  destruct (GemTick.run Coders.OUT_BUFFER_FULL 60 p) as [q|] eqn:E; [|done]. injection H as Hb Hg Hf.
  exists q. split; [done|]. split; [|done].
  apply (run_keeps_tables Coders.OUT_BUFFER_FULL 60 p q (tables_okb_spec p Hb)); [by rewrite Hg | exact E].
Defined.

(** The governor for a building takes a busy core from state 11 to 13, of 13
    states that start with 0: the next reading of its frequency is outside of
    the table. *)
#[local] Existing Instances Core.set_dvfsState Core.set_m_thisDVFSEpochInstructionsCommitted.
Definition busy_building : Res GemDroid :=
  p ← due_platform GOVERNOR_TYPE_BUILDING;
  Ok (p <| gemdroid_core ::= fmap (fun c =>
             Core.upd_stats (fun s => s <| Core.m_thisDVFSEpochInstructionsCommitted := 100000000 |>)
               (c <| Core.dvfsState := CORE_DVFS_STATES - 2 |>)) |>).

Lemma building_leaves_table :
  match busy_building with
  | Ok p => tables_ok p /\ updateDVFS p = Err OutOfTable
            /\ (c ← get_core p 0; Ok (Core.dvfsState (snd (Core.incFreq 2 c)))) = Ok CORE_DVFS_STATES
  | Err _ => False
  end.
Proof.
  assert ((p ← busy_building; c ← get_core p 0;
           Ok (tables_okb p, match updateDVFS p with Err OutOfTable => true | _ => false end,
               Core.dvfsState (snd (Core.incFreq 2 c)))) = Ok (true, true, CORE_DVFS_STATES)) as H by by vm_compute.
  destruct busy_building as [p|]; [|done]. unfold mbind, Res_bind in *. destruct (get_core p 0) as [c|]; [|done].
  injection H as Hb Hu Hs. split; [by apply tables_okb_spec|]. split; [|by rewrite Hs].
  by destruct (updateDVFS p) as [|[]].
Qed.

(** Two hundred cycles: the core's period is 11, the memory's 20. *)
Lemma clock_rates_witness :
  match framed GOVERNOR_TYPE_DISABLED with
  | Ok p => exists q, GemTick.run Coders.OUT_BUFFER_FULL 200 p = Ok q
                      /\ zget (cpuLastTick q) 0 = Some 198 /\ memLastTick q = 200
  | Err _ => False
  end.
Proof.
  assert ((p ← framed GOVERNOR_TYPE_DISABLED;
           q ← GemTick.run Coders.OUT_BUFFER_FULL 200 p;
           Ok (tables_okb p, enableDVFS p, num_cpus p, ticks p, ticks q, zget (cpuLastTick p) 0,
               zget (cpuFreqMultipliers p) 0, memLastTick p, memFreqMultiplier p))
          = Ok (true, false, 1, 0, 200, Some 0, Some 11, 0, 20)) as H by by vm_compute.
  destruct (framed GOVERNOR_TYPE_DISABLED) as [p|]; [|done]. unfold mbind, Res_bind in H.
  destruct (GemTick.run Coders.OUT_BUFFER_FULL 200 p) as [q|] eqn:E; [|done].
  injection H as Hb Hd Hn Ht Ht' Hl Hk Hml Hmk. exists q. split; [done|].
  pose proof (clock_rates _ _ p q (tables_okb_spec p Hb) Hd E) as [_ _ Hcpu _ Hmem].
  cbn in Hcpu, Hmem. rewrite Hn, Ht, Ht' in *. split.
  - by apply (Hcpu 0 ltac:(lia) 0 11 Hl Hk).
  - rewrite Hml, Hmk in Hmem. by apply Hmem.
Defined.
