(* ===== verification/FloatExact.v ===== *)
(** * Doubles that are integers

    A positive integer below 2^53 is a double, and sums and differences of
    such doubles that stay between 0 and 2^53 are exact. A quotient is rounded,
    but truncates to the integer one below 2^52. *)

From S2P Require Import Prelude.
From S2P Require Import DramConfig.

Module FloatExact.

Definition exact_limit : Z := 9007199254740992.

(** The double that is [n]: 53 bits of mantissa. *)
Definition canon (n : Z) : spec_float :=
  S754_finite false (Z.to_pos (n * 2 ^ (52 - Z.log2 n))) (Z.log2 n - 52).

Lemma digits_log2 m : Zpos (digits2_pos m) = Z.log2 (Zpos m) + 1.
Proof.
  assert (forall p, digits2_pos p = Pos.size p) as Hs by (induction p; cbn; congruence).
  destruct m as [p|p|]; cbn; rewrite ?Hs; lia.
Qed.

Lemma iter_pos_iter {A} (g : A -> A) n : forall x, SpecFloat.iter_pos g n x = Pos.iter g x n.
Proof.
  induction n as [n IH|n IH|]; intros x; cbn; [|by rewrite !IH|done].
  rewrite !IH. by rewrite <- !Pos.iter_swap.
Qed.

Lemma iter_xO n m : Zpos (Pos.iter xO m n) = Zpos m * 2 ^ Zpos n.
Proof.
  induction n as [|n IH] using Pos.peano_ind; [cbn; lia|]. rewrite Pos.iter_succ.
  change (Zpos (Pos.iter xO m n)~0) with (2 * Zpos (Pos.iter xO m n)). rewrite IH, Pos2Z.inj_succ, Z.pow_succ_r by lia. lia.
Qed.

(** Shifting out zeros is exact. *)
Lemma shr_zeros n m :
  SpecFloat.iter_pos shr_1 n (Build_shr_record (Zpos m * 2 ^ Zpos n) false false) = Build_shr_record (Zpos m) false false.
Proof.
  rewrite iter_pos_iter, <- iter_xO. induction n as [|n IH] using Pos.peano_ind; [done|].
  rewrite !Pos.iter_succ, <- Pos.iter_swap. cbn. exact IH.
Qed.

Lemma shl_align_down m e c : c <= e -> Zpos (fst (shl_align m e c)) = Zpos m * 2 ^ (e - c).
Proof.
  intros H. unfold shl_align. destruct (c - e) as [|d|d] eqn:E; [|lia|].
  - replace (e - c) with 0 by lia. cbn. lia.
  - cbn. rewrite iter_xO. do 2 f_equal. lia.
Qed.

Section Exact.
Context (n : Z).
Hypothesis Hn : 0 < n < exact_limit.

Lemma log2_bound : 0 <= Z.log2 n <= 52.
Proof. split; [apply Z.log2_nonneg|]. apply Z.lt_succ_r, Z.log2_lt_pow2; [lia|]. apply Hn. Qed.

Lemma fexp_canon : fexp 53 1024 (Z.log2 n + 1) = Z.log2 n - 52.
Proof. pose proof log2_bound. unfold fexp, emin. lia. Qed.

Lemma log2_shifted k m : 0 <= k -> Zpos m = n * 2 ^ k -> Z.log2 (Zpos m) = Z.log2 n + k.
Proof. intros Hk ->. rewrite Z.log2_mul_pow2; lia. Qed.

(** A mantissa with zeros at the end is rounded to the canonical one. *)
Lemma shr_fexp_exact m e : e <= Z.log2 n - 52 -> Zpos m = n * 2 ^ (- e) ->
  shr_fexp 53 1024 (Zpos m) e loc_Exact =
    (Build_shr_record (n * 2 ^ (52 - Z.log2 n)) false false, Z.log2 n - 52).
Proof.
  intros He Hm. pose proof log2_bound as Hl. unfold shr_fexp. change (Zdigits2 (Zpos m)) with (Zpos (digits2_pos m)).
  rewrite digits_log2, (log2_shifted (- e)) by (lia || done).
  replace (Z.log2 n + - e + 1 + e) with (Z.log2 n + 1) by lia. rewrite fexp_canon.
  unfold shr. destruct (Z.log2 n - 52 - e) as [|d|d] eqn:E; [|..].
  - assert (e = Z.log2 n - 52) as -> by lia. rewrite Hm. cbn [shr_record_of_loc].
    by replace (- (Z.log2 n - 52)) with (52 - Z.log2 n) by lia.
  - assert (0 < n * 2 ^ (52 - Z.log2 n)) as Hp by (apply Z.mul_pos_pos; [lia | apply Z.pow_pos_nonneg; lia]).
    cbn [shr_record_of_loc].
    replace (Zpos m) with (Zpos (Z.to_pos (n * 2 ^ (52 - Z.log2 n))) * 2 ^ Zpos d).
    + rewrite shr_zeros, Z2Pos.id by done. f_equal. lia.
    + rewrite Z2Pos.id, Hm, <- Z.mul_assoc, <- Z.pow_add_r by lia. do 2 f_equal. lia.
  - lia.
Qed.

Lemma binary_round_aux_exact m e : e <= Z.log2 n - 52 -> Zpos m = n * 2 ^ (- e) ->
  binary_round_aux 53 1024 false (Zpos m) e loc_Exact = canon n.
Proof.
  intros He Hm. pose proof log2_bound as Hl. unfold binary_round_aux. rewrite shr_fexp_exact by done.
  cbn [shr_m loc_of_shr_record round_nearest_even].
  assert (0 < n * 2 ^ (52 - Z.log2 n)) as Hp by (apply Z.mul_pos_pos; [lia | apply Z.pow_pos_nonneg; lia]).
  unfold canon. pose proof (Z2Pos.id _ Hp) as Hq. revert Hq. generalize (Z.to_pos (n * 2 ^ (52 - Z.log2 n))). intros q Hq.
  rewrite <- Hq, shr_fexp_exact; [|lia | rewrite Hq; do 2 f_equal; lia]. cbn [shr_m]. rewrite <- Hq.
  destruct (Z.leb_spec (Z.log2 n - 52) (1024 - 53)); [done | lia].
Qed.

Lemma normalize_exact m e s : e <= 0 -> Zpos m = n * 2 ^ (- e) -> binary_normalize 53 1024 (Zpos m) e s = canon n.
Proof.
  intros He Hm. pose proof log2_bound as Hl. cbn [binary_normalize]. unfold binary_round.
  rewrite digits_log2, (log2_shifted (- e)) by (lia || done).
  replace (Z.log2 n + - e + 1 + e) with (Z.log2 n + 1) by lia. rewrite fexp_canon.
  destruct (Z.le_gt_cases e (Z.log2 n - 52)) as [Hc|Hc].
  - unfold shl_align. destruct (Z.log2 n - 52 - e) eqn:E; [| |lia]; by apply binary_round_aux_exact.
  - pose proof (shl_align_down m e (Z.log2 n - 52) ltac:(lia)) as Ha.
    unfold shl_align in *. destruct (Z.log2 n - 52 - e) eqn:E; [lia..|]. cbn [fst] in Ha.
    apply binary_round_aux_exact; [lia|]. rewrite Ha, Hm, <- Z.mul_assoc, <- Z.pow_add_r by lia. do 2 f_equal. lia.
Qed.

Lemma of_Z_exact : F64.of_Z n = canon n.
Proof.
  unfold F64.of_Z. pose proof (Z2Pos.id n ltac:(lia)) as Hq. transitivity (binary_normalize 53 1024 (Zpos (Z.to_pos n)) 0 false).
  - by rewrite Hq.
  - apply normalize_exact; [lia|]. rewrite Hq. cbn. lia.
Qed.

Lemma trunc_canon : F32.trunc (canon n) = n.
Proof.
  pose proof log2_bound as Hl. unfold canon. cbn [F32.trunc].
  rewrite Z2Pos.id by (apply Z.mul_pos_pos; [lia | apply Z.pow_pos_nonneg; lia]). case_bool_decide.
  - replace (Z.log2 n) with 52 by lia. rewrite Z.shiftl_mul_pow2 by lia. cbn. lia.
  - rewrite Z.shiftr_div_pow2 by lia. replace (- (Z.log2 n - 52)) with (52 - Z.log2 n) by lia.
    apply Z.div_mul. apply Z.pow_nonzero; lia.
Qed.
End Exact.

Lemma canon_align n e : 0 < n < exact_limit -> e <= Z.log2 n - 52 ->
  Zpos (fst (shl_align (Z.to_pos (n * 2 ^ (52 - Z.log2 n))) (Z.log2 n - 52) e)) = n * 2 ^ (- e).
Proof.
  intros Hn He. pose proof (log2_bound n Hn). rewrite shl_align_down by done.
  rewrite Z2Pos.id by (apply Z.mul_pos_pos; [lia | apply Z.pow_pos_nonneg; lia]).
  rewrite <- Z.mul_assoc, <- Z.pow_add_r by lia. do 2 f_equal. lia.
Qed.

Lemma add_exact a b : 0 < a -> 0 < b -> a + b < exact_limit ->
  F64.add (F64.of_Z a) (F64.of_Z b) = F64.of_Z (a + b).
Proof.
  intros Ha Hb Hab. rewrite !of_Z_exact by lia. pose proof (log2_bound a ltac:(lia)). pose proof (log2_bound b ltac:(lia)).
  unfold F64.add, canon at 1 2. cbn [SFadd cond_Zopp].
  set (e := Z.min (Z.log2 a - 52) (Z.log2 b - 52)). rewrite !canon_align by lia.
  rewrite <- Z.mul_add_distr_r.
  assert (0 < (a + b) * 2 ^ (- e)) as Hp by (apply Z.mul_pos_pos; [lia | apply Z.pow_pos_nonneg; lia]).
  pose proof (Z2Pos.id _ Hp) as Hq. rewrite <- Hq. apply normalize_exact; [lia | lia | done].
Qed.

Lemma trunc_of_Z n : 0 < n < exact_limit -> F32.trunc (F64.of_Z n) = n.
Proof. intros Hn. rewrite of_Z_exact by done. by apply trunc_canon. Qed.

Lemma add_zero_l b : 0 < b < exact_limit -> F64.add (F64.of_Z 0) (F64.of_Z b) = F64.of_Z b.
Proof. intros Hb. by rewrite (of_Z_exact b). Qed.

Lemma sub_exact a b : 0 < b -> b < a -> a < exact_limit -> F64.sub (F64.of_Z a) (F64.of_Z b) = F64.of_Z (a - b).
Proof.
  intros Hb Ha Hl. rewrite !of_Z_exact by lia. pose proof (log2_bound a ltac:(lia)). pose proof (log2_bound b ltac:(lia)).
  unfold F64.sub, canon at 1 2. cbn [SFsub cond_Zopp].
  set (e := Z.min (Z.log2 a - 52) (Z.log2 b - 52)). rewrite !canon_align by lia.
  rewrite <- Z.mul_sub_distr_r.
  assert (0 < (a - b) * 2 ^ (- e)) as Hp by (apply Z.mul_pos_pos; [lia | apply Z.pow_pos_nonneg; lia]).
  pose proof (Z2Pos.id _ Hp) as Hq. rewrite <- Hq. apply normalize_exact; [lia | lia | done].
Qed.

(** ** Quotients

    A quotient is rounded, so it may reach the next integer; it does not when
    the dividend is below 2^52. *)

(** Rounding a mantissa of 53 or 54 bits moves it by less than two units. *)
Lemma shr_floor m e l j : 0 <= j <= 1 -> Z.log2 (Zpos m) = 52 + j -> - 200 <= e <= 200 ->
  exists r s, shr_fexp 53 1024 (Zpos m) e l = (Build_shr_record (Zpos m / 2 ^ j) r s, e + j).
Proof.
  intros Hj Hm He. unfold shr_fexp. change (Zdigits2 (Zpos m)) with (Zpos (digits2_pos m)). rewrite digits_log2, Hm.
  assert (fexp 53 1024 (52 + j + 1 + e) - e = j) as -> by (unfold fexp, emin; lia).
  assert (j = 0 \/ j = 1) as [-> | ->] by lia; cbn [shr].
  - rewrite Z.div_1_r, Z.add_0_r. destruct l as [|[]]; by eexists _, _.
  - change (2 ^ 1) with 2. assert (Zpos m / 2 = Z.div2 (Zpos m)) as -> by (by rewrite Z.div2_div).
    destruct l as [|[]]; cbn [SpecFloat.iter_pos shr_record_of_loc shr_1]; destruct m as [q|q|]; by eexists _, _.
Qed.

Lemma trunc_finite m e : F32.trunc (S754_finite false m e) = if bool_decide (0 <= e) then Zpos m * 2 ^ e else Zpos m / 2 ^ (- e).
Proof. cbn. case_bool_decide; [by rewrite Z.shiftl_mul_pow2 | by rewrite Z.shiftr_div_pow2 by lia]. Qed.

Lemma trunc_round m e l j : 0 <= j <= 1 -> Z.log2 (Zpos m) = 52 + j -> - 200 <= e <= - j ->
  exists c, (c = Zpos m / 2 ^ j \/ c = Zpos m / 2 ^ j + 1) /\
    F32.trunc (binary_round_aux 53 1024 false (Zpos m) e l) = c / 2 ^ (- (e + j)).
Proof.
  intros Hj Hm He. unfold binary_round_aux. destruct (shr_floor m e l j Hj Hm ltac:(lia)) as (r & s & ->).
  cbn [shr_m]. set (f := Zpos m / 2 ^ j).
  assert (2 ^ 52 <= f < 2 ^ 53) as Hf.
  { pose proof (Z.log2_spec (Zpos m) ltac:(lia)) as Hs. rewrite Hm in Hs. unfold f.
    assert (j = 0 \/ j = 1) as [-> | ->] by lia.
    - change (2 ^ (52 + 0)) with (2 ^ 52) in Hs. change (2 ^ Z.succ (52 + 0)) with (2 ^ 53) in Hs. change (2 ^ 0) with 1.
      by rewrite Z.div_1_r.
    - change (2 ^ (52 + 1)) with (2 * 2 ^ 52) in Hs. change (2 ^ Z.succ (52 + 1)) with (2 * 2 ^ 53) in Hs. change (2 ^ 1) with 2.
      split; [apply Z.div_le_lower_bound | apply Z.div_lt_upper_bound]; lia. }
  set (c := round_nearest_even f (loc_of_shr_record _)). exists c.
  assert (c = f \/ c = f + 1) as Hc.
  { unfold c. destruct r, s; cbn; [by right | | by left | by left]. destruct (Z.even f); [by left | by right]. }
  split; [exact Hc|]. clearbody c. destruct c as [|q|q]; [lia| |lia].
  assert (0 <= Z.log2 (Zpos q) - 52 <= 1) as Hj2.
  { assert (2 ^ 52 <= Zpos q < 2 ^ 54) as Hq by lia.
    assert (52 <= Z.log2 (Zpos q)) by (apply Z.log2_le_pow2; lia). assert (Z.log2 (Zpos q) < 54) by (apply Z.log2_lt_pow2; lia). lia. }
  destruct (shr_floor q (e + j) loc_Exact (Z.log2 (Zpos q) - 52) Hj2) as (r2 & s2 & ->); [lia..|]. cbn [shr_m].
  assert (Z.log2 (Zpos q) - 52 = 0 \/ Z.log2 (Zpos q) - 52 = 1) as [Ej|Ej] by lia; rewrite Ej.
  - change (2 ^ 0) with 1. rewrite Z.div_1_r, Z.add_0_r. destruct (Z.leb_spec (e + j) (1024 - 53)); [|lia]. rewrite trunc_finite.
    case_bool_decide; [|done]. replace (e + j) with 0 by lia. change (2 ^ (-0)) with 1. rewrite Z.div_1_r. cbn. lia.
  - assert (Zpos q = 2 ^ 53) as ->.
    { destruct (Z.log2_spec (Zpos q) ltac:(lia)) as [Hs _]. replace (Z.log2 (Zpos q)) with 53 in Hs by lia. lia. }
    change (2 ^ 53 / 2 ^ 1) with (Zpos (Z.to_pos (2 ^ 52))). destruct (Z.leb_spec (e + j + 1) (1024 - 53)); [|lia]. rewrite trunc_finite.
    rewrite Z2Pos.id by lia. case_bool_decide.
    + assert (e + j = 0 \/ e + j = -1) as [-> | ->] by lia; done.
    + replace (- (e + j)) with (- (e + j + 1) + 1) by lia. rewrite Z.pow_add_r by lia.
      change (2 ^ 53) with (2 ^ 52 * 2 ^ 1). rewrite Z.div_mul_cancel_r; [done | apply Z.pow_nonzero; lia | done].
Qed.

(** The mantissa of the quotient. *)
Lemma quotient_bits a b E : 0 < a -> 0 < b -> E = 53 - Z.log2 a + Z.log2 b -> 0 < E -> 2 ^ 52 <= a * 2 ^ E / b < 2 ^ 54.
Proof.
  intros Ha Hb -> HE. destruct (Z.log2_spec a Ha) as [A1 A2]. destruct (Z.log2_spec b Hb) as [B1 B2].
  pose proof (Z.log2_nonneg a) as La. pose proof (Z.log2_nonneg b) as Lb.
  assert (2 ^ Z.log2 a * 2 ^ (53 - Z.log2 a + Z.log2 b) = 2 ^ 53 * 2 ^ Z.log2 b) as E1 by (rewrite <- !Z.pow_add_r by lia; f_equal; lia).
  rewrite Z.pow_succ_r in A2, B2 by lia. pose proof (Z.pow_pos_nonneg 2 (Z.log2 b) ltac:(lia) Lb).
  pose proof (Z.pow_pos_nonneg 2 (53 - Z.log2 a + Z.log2 b) ltac:(lia) ltac:(lia)).
  set (la := 2 ^ Z.log2 a) in *. set (lb := 2 ^ Z.log2 b) in *. set (x := 2 ^ (53 - Z.log2 a + Z.log2 b)) in *.
  split; [apply Z.div_le_lower_bound | apply Z.div_lt_upper_bound]; change (2 ^ 53) with (2 * 2 ^ 52) in *; change (2 ^ 54) with (4 * 2 ^ 52); nia.
Qed.

(** The truncated quotient is the integer one. *)
Lemma trunc_div a b : 0 < b -> 0 < a -> (a / b + 1) * b < 2 ^ 52 -> F32.trunc (F64.div (F64.of_Z a) (F64.of_Z b)) = a / b.
Proof.
  intros Hb Ha Hl. pose proof (Z.div_mod a b ltac:(lia)) as Hdm. pose proof (Z.mod_pos_bound a b Hb) as Hmod.
  set (k := a / b) in *. assert (0 <= k) as Hk by (apply Z.div_pos; lia).
  assert (a < exact_limit /\ b < exact_limit) as [Ha' Hb'] by (unfold exact_limit; nia).
  pose proof (log2_bound a (conj Ha Ha')) as Hla. pose proof (log2_bound b (conj Hb Hb')) as Hlb.
  rewrite !of_Z_exact by done. unfold F64.div, canon. cbn [SFdiv xorb].
  assert (forall n, 0 < n < exact_limit -> Zpos (Z.to_pos (n * 2 ^ (52 - Z.log2 n))) = n * 2 ^ (52 - Z.log2 n) /\
    Z.log2 (n * 2 ^ (52 - Z.log2 n)) = 52) as Hman.
  { intros n Hn. pose proof (log2_bound n Hn). split.
    - apply Z2Pos.id, Z.mul_pos_pos; [lia | apply Z.pow_pos_nonneg; lia].
    - rewrite Z.log2_mul_pow2 by lia. lia. }
  destruct (Hman a (conj Ha Ha')) as [Ema Lma]. destruct (Hman b (conj Hb Hb')) as [Emb Lmb].
  set (ma := Z.to_pos _) in *. set (mb := Z.to_pos (b * _)) in *. clearbody ma mb. clear Hman.
  unfold SFdiv_core_binary. change (Zdigits2 (Zpos ma)) with (Zpos (digits2_pos ma)). change (Zdigits2 (Zpos mb)) with (Zpos (digits2_pos mb)).
  rewrite !digits_log2. rewrite Ema, Emb, Lma, Lmb.
  assert (Z.min (fexp 53 1024 (52 + 1 + (Z.log2 a - 52) - (52 + 1 + (Z.log2 b - 52)))) (Z.log2 a - 52 - (Z.log2 b - 52))
          = - (53 - Z.log2 a + Z.log2 b)) as -> by (unfold fexp, emin; lia).
  assert (Z.log2 a - 52 - (Z.log2 b - 52) - - (53 - Z.log2 a + Z.log2 b) = 53) as -> by lia.
  set (E := 53 - Z.log2 a + Z.log2 b). rewrite Z.shiftl_mul_pow2 by lia.
  assert (a * 2 ^ (52 - Z.log2 a) * 2 ^ 53 / (b * 2 ^ (52 - Z.log2 b)) = a * 2 ^ E / b) as Eq.
  { rewrite <- Z.mul_assoc, <- Z.pow_add_r by lia. replace (52 - Z.log2 a + 53) with (E + (52 - Z.log2 b)) by lia.
    rewrite Z.pow_add_r, Z.mul_assoc by lia. apply Z.div_mul_cancel_r; [lia | apply Z.pow_nonzero; lia]. }
  unfold Z.div in Eq at 1. destruct (Z.div_eucl _ _) as [q r]. cbn in Eq. subst q.
  pose proof (quotient_bits a b E Ha Hb eq_refl ltac:(lia)) as Hq. destruct (a * 2 ^ E / b) as [|q|q] eqn:Eq; [lia| |lia].
  assert (exists j, 0 <= j <= 1 /\ Z.log2 (Zpos q) = 52 + j) as (j & Hj & Hlog).
  { exists (Z.log2 (Zpos q) - 52). assert (52 <= Z.log2 (Zpos q)) by (apply Z.log2_le_pow2; lia).
    assert (Z.log2 (Zpos q) < 54) by (apply Z.log2_lt_pow2; lia). lia. }
  destruct (trunc_round q (- E) (new_location (b * 2 ^ (52 - Z.log2 b)) r) j Hj Hlog) as (c & Hc & ->); [lia|].
  replace (- (- E + j)) with (E - j) by lia. set (F := E - j) in *.
  assert (Zpos q / 2 ^ j = a * 2 ^ F / b) as Ef.
  { rewrite <- Eq. rewrite Z.div_div by (lia || apply Z.pow_pos_nonneg; lia). replace E with (F + j) by lia.
    rewrite Z.pow_add_r, Z.mul_assoc by lia. apply Z.div_mul_cancel_r; [lia | apply Z.pow_nonzero; lia]. }
  assert (2 ^ 52 <= Zpos q / 2 ^ j) as Hf.
  { apply Z.div_le_lower_bound; [apply Z.pow_pos_nonneg; lia|]. rewrite <- Z.pow_add_r by lia.
    destruct (Z.log2_spec (Zpos q) ltac:(lia)) as [Hs _]. rewrite Hlog in Hs. by rewrite Z.add_comm. }
  rewrite Ef in *. clear Ef Eq Hq Hlog. pose proof (Z.pow_pos_nonneg 2 F ltac:(lia) ltac:(lia)) as Hp.
  pose proof (Z.mul_div_le (a * 2 ^ F) b Hb) as Hle. set (f := a * 2 ^ F / b) in *.
  assert (k * 2 ^ F <= f) as Hlow by (apply Z.div_le_lower_bound; nia).
  assert (f + 1 < (k + 1) * 2 ^ F) as Hup.
  { apply Z.nle_gt. intros Hge. assert (2 ^ F <= b) by nia. assert (f <= a) by nia. nia. }
  symmetry. apply (Z.div_unique _ _ _ (c - k * 2 ^ F)); nia.
Qed.

End FloatExact.
