(* ===== verification/SimClock.v ===== *)
(** * Clocks of the simulator ([sim/core.cc], [sim/clocked_object.hh], [sim/clock_domain.cc])

    Ticks are the unit of simulated time. A clocked object counts the cycles
    of its domain; a change of a source clock first aligns all objects to the
    current tick, then sets the periods of the derived domains. *)

From S2P Require Import Prelude.
From S2P Require Import DramConfig.

Module SimClock.

(** ** Units of time *)

Record Units := mkUnits {
  Frequency : Z;
  Float_s : spec_float; Float_ms : spec_float; Float_us : spec_float; Float_ns : spec_float; Float_ps : spec_float;
  Float_Hz : spec_float; Float_kHz : spec_float; Float_MHz : spec_float; Float_GHZ : spec_float;
  Int_s : Z; Int_ms : Z; Int_us : Z; Int_ns : Z; Int_ps : Z
}.

Definition setClockFrequency (ticksPerSecond : Z) : Units :=
  let s := F64.of_Z ticksPerSecond in
  let ms := F64.div s (F64.of_Z 1000) in
  let us := F64.div s (F64.of_Z 1000000) in
  let ns := F64.div s (F64.of_Z 1000000000) in
  let ps := F64.div s (F64.of_Z 1000000000000) in
  let one := F64.of_Z 1 in
  let ms_i := ticksPerSecond / 1000 in
  let us_i := ms_i / 1000 in
  let ns_i := us_i / 1000 in
  mkUnits ticksPerSecond s ms us ns ps (F64.div one s) (F64.div one ms) (F64.div one us) (F64.div one ns)
    ticksPerSecond ms_i us_i ns_i (ns_i / 1000).

(** ** Clocked objects *)

Record Clocked := mkClocked { tick : Z; cycle : Z }.

(** [divCeil] of unsigned 64-bit integers. *)
Definition divCeil (a b : Z) : Z := u64 (a + b - 1) / b.

(** [update]: the next edge at or after the current tick. *)
Definition update (now period : Z) (c : Clocked) : Clocked :=
  if Z.leb now (tick c) then c
  else
    let c := mkClocked (u64 (tick c + period)) (u64 (cycle c + 1)) in
    if Z.leb now (tick c) then c
    else
      let elapsedCycles := divCeil (u64 (now - tick c)) period in
      mkClocked (u64 (tick c + elapsedCycles * period)) (u64 (cycle c + elapsedCycles)).

Definition resetClock (now period : Z) : Clocked :=
  let elapsedCycles := divCeil now period in mkClocked (u64 (elapsedCycles * period)) elapsedCycles.

(** The methods that align first return the object too. *)
Definition clockEdge (now period cycles : Z) (c : Clocked) : Clocked * Z :=
  let c := update now period c in (c, u64 (tick c + period * cycles)).
Definition curCycle (now period : Z) (c : Clocked) : Clocked * Z := let c := update now period c in (c, cycle c).
Definition nextCycle (now period : Z) (c : Clocked) : Clocked * Z := clockEdge now period 1 c.
Definition frequency (u : Units) (period : Z) : Z := Frequency u / period.
Definition ticksToCycles (t period : Z) : Z := divCeil t period.

(** ** Clock domains *)

(** A domain, its divider (of a derived one), its objects and the domains
    derived from it. *)
Inductive ClockDomain := mkDomain (_clockPeriod clockDivider : Z) (members : list Clocked) (children : list ClockDomain).

Definition _clockPeriod (d : ClockDomain) : Z := let 'mkDomain p _ _ _ := d in p.
Definition members (d : ClockDomain) : list Clocked := let 'mkDomain _ _ ms _ := d in ms.
Definition children (d : ClockDomain) : list ClockDomain := let 'mkDomain _ _ _ cs := d in cs.

(** [DerivedClockDomain::updateClockPeriod] *)
Fixpoint updateClockPeriod (now parent : Z) (d : ClockDomain) : ClockDomain :=
  match d with
  | mkDomain p k ms cs =>
      let p' := u64 (parent * k) in
      mkDomain p' k (map (update now p) ms) (map (updateClockPeriod now p') cs)
  end.

(** [SrcClockDomain::clockPeriod] *)
Definition set_clockPeriod (now clock_period : Z) (d : ClockDomain) : Res ClockDomain :=
  if Z.eqb clock_period 0 then Err (Exit "clock period of zero")
  else
    let 'mkDomain p k ms cs := d in
    Ok (mkDomain clock_period k (map (update now p) ms) (map (updateClockPeriod now clock_period) cs)).

(** The constructors: a source, a domain derived from a parent's period, a
    new object of a domain and a new derived domain. *)
Definition SrcClockDomain_new (clock : Z) : Res ClockDomain := set_clockPeriod 0 clock (mkDomain 0 1 [] []).
Definition DerivedClockDomain_new (now parent clk_divider : Z) : Res ClockDomain :=
  if Z.ltb clk_divider 1 then Err (Exit "Clock divider param cannot be less than 1")
  else Ok (updateClockPeriod now parent (mkDomain 0 clk_divider [] [])).
Definition registerWithClockDomain (c : Clocked) (d : ClockDomain) : ClockDomain :=
  let 'mkDomain p k ms cs := d in mkDomain p k (ms ++ [c]) cs.
Definition addDerivedDomain (c d : ClockDomain) : ClockDomain :=
  let 'mkDomain p k ms cs := d in mkDomain p k ms (cs ++ [c]).

(** [VoltageDomain::voltage] *)
Definition set_voltage (v : spec_float) : Res spec_float :=
  if F64.leb v (F64.of_Z 0) then Err (Exit "Voltage should be greater than zero.") else Ok v.

(** ** What they promise *)

(** Times that leave room for a period in 64 bits. *)
Definition room (now period : Z) : Prop := 0 <= now /\ 0 < period /\ now + 2 * period < 18446744073709551616.

Lemma div_ceil_bounds a b : 0 < b -> 0 <= a -> a <= (a + b - 1) / b * b < a + b.
Proof.
  intros Hb Ha. pose proof (Z.div_mod (a + b - 1) b ltac:(lia)). pose proof (Z.mod_pos_bound (a + b - 1) b Hb).
  rewrite (Z.mul_comm _ b). lia.
Qed.

(** C40: after [update] the object is at its first edge that is not past, a whole
    number of periods from where it was, and has counted the cycles between. *)
Theorem update_aligns now period c :
  room now period -> in_u64 (tick c) -> 0 <= cycle c -> cycle c + now + 1 < 18446744073709551616 ->
  let c' := update now period c in
  now <= tick c' /\ (now <= tick c -> c' = c) /\ (tick c < now -> tick c' < now + period) /\
  exists n, 0 <= n /\ tick c' = tick c + n * period /\ cycle c' = cycle c + n.
Proof.
  intros (Hn & Hp & Hroom) Ht Hc Hc2. unfold update, in_u64 in *.
  destruct (Z.leb_spec now (tick c)) as [Hle|Hlt]; cbn [tick cycle].
  { split; [done|]. split; [done|]. split; [lia|]. exists 0. lia. }
  rewrite (u64_small (tick c + period)), (u64_small (cycle c + 1)) by (unfold in_u64; lia).
  destruct (Z.leb_spec now (tick c + period)) as [Hle2|Hlt2]; cbn [tick cycle].
  { split; [done|]. split; [lia|]. split; [lia|]. exists 1. lia. }
  set (rest := now - (tick c + period)). unfold divCeil.
  rewrite (u64_small rest), (u64_small (rest + period - 1)) by (unfold in_u64, rest; lia).
  pose proof (div_ceil_bounds rest period Hp ltac:(unfold rest; lia)) as Hd.
  set (k := (rest + period - 1) / period) in *. assert (0 <= k) by (apply Z.div_pos; unfold rest; lia).
  assert (k <= k * period) by nia.
  rewrite !u64_small by (unfold in_u64, rest in *; lia). split; [unfold rest in *; lia|]. split; [lia|].
  split; [unfold rest in *; lia|]. exists (k + 1). lia.
Qed.

Lemma update_aligns_witness :
  let c := update 1005 10 (mkClocked 0 0) in
  c = mkClocked 1010 101 /\ 1005 <= tick c /\ exists n, 0 <= n /\ tick c = 0 + n * 10 /\ cycle c = 0 + n.
Proof.
  destruct (update_aligns 1005 10 (mkClocked 0 0)) as (H1 & _ & _ & H2); [by repeat split | by split | done | done |].
  split; [by vm_compute|]. split; [exact H1 | exact H2].
Defined.

(** Every derived domain runs at its parent's period times its divider. *)
Fixpoint derived (parent : Z) (d : ClockDomain) : Prop :=
  match d with mkDomain p k _ cs => p = u64 (parent * k) /\ fold_right (fun c P => derived p c /\ P) True cs end.
Definition consistent (d : ClockDomain) : Prop := Forall (derived (_clockPeriod d)) (children d).

Lemma fold_derived p cs : fold_right (fun c P => derived p c /\ P) True cs <-> Forall (derived p) cs.
Proof. induction cs; cbn; [by split | rewrite IHcs, Forall_cons; done]. Qed.

(** Nested induction over a tree of domains. *)
Lemma ClockDomain_tree_ind (P : ClockDomain -> Prop) :
  (forall p k ms cs, Forall P cs -> P (mkDomain p k ms cs)) -> forall d, P d.
Proof.
  intros H. fix IH 1. intros [p k ms cs]. apply H. induction cs as [|c cs IHcs]; [constructor|].
  constructor; [apply IH | exact IHcs].
Qed.

Lemma updateClockPeriod_derived now d : forall parent, derived parent (updateClockPeriod now parent d).
Proof.
  induction d as [p k ms cs IH] using ClockDomain_tree_ind. intros parent. cbn. split; [done|].
  rewrite fold_derived, List.Forall_map. eapply Forall_impl; [exact IH|]. intros c Hc. apply Hc.
Qed.

(** A change of the source clock reaches every derived domain. *)
Theorem set_clockPeriod_propagates now clock_period d d' :
  set_clockPeriod now clock_period d = Ok d' ->
  _clockPeriod d' = clock_period /\ clock_period <> 0 /\ consistent d' /\ length (members d') = length (members d).
Proof.
  unfold set_clockPeriod. destruct (Z.eqb_spec clock_period 0); [done|]. destruct d as [p k ms cs]. intros [= <-].
  split; [done|]. split; [done|]. split; [|by cbn; rewrite length_map].
  unfold consistent. cbn. rewrite List.Forall_map. apply List.Forall_forall. intros c _. apply updateClockPeriod_derived.
Qed.

(** Objects stay on their edges when the clock changes: they were aligned with
    the old period before the new one is used. *)
Theorem clock_change_aligns now clock_period d d' :
  set_clockPeriod now clock_period d = Ok d' -> room now (_clockPeriod d) ->
  Forall (fun c => in_u64 (tick c) /\ 0 <= cycle c /\ cycle c + now + 1 < 18446744073709551616) (members d) ->
  Forall2 (fun c c' => now <= tick c' /\ exists n, 0 <= n /\
             tick c' = tick c + n * _clockPeriod d /\ cycle c' = cycle c + n) (members d) (members d').
Proof.
  unfold set_clockPeriod. destruct (Z.eqb_spec clock_period 0); [done|]. destruct d as [p k ms cs]. intros [= <-] Hroom Hms.
  cbn in *. induction Hms as [|c ms (H1 & H2 & H3) _ IH]; cbn; [constructor|]. constructor; [|done].
  destruct (update_aligns now p c Hroom H1 H2 H3) as (Ha & _ & _ & Hb). done.
Qed.

End SimClock.
