(* ===== verification/EventQueue.v ===== *)
(** * Events and their queue ([sim/eventq.hh], [sim/eventq_impl.hh], [sim/eventq.cc])

    Events live in a heap and point to each other: a queue is a linked list of
    bins (events with the same time and priority), each bin a stack linked by
    [nextInBin]; [nextBin] of an event that is not the top of its bin is stale.
    [GlobalEvent] is one local event per queue. Dereferencing a null or freed
    pointer is [OutOfRange]; [panic] is [Abort]. [A] is the state of the
    simulated objects. *)

From S2P Require Import Prelude.
From stdpp Require Import gmap.
#[local] Open Scope Z_scope.

Module EventQueue.

(** Addresses of events and of global events. *)
Notation EvId := positive.
Notation GId := positive.

(** ** Flags ([base/flags.hh]), 16 bits wide here *)

Module Flags.
Definition isSet (f m : Z) : bool := negb (Z.eqb (Z.land f m) 0).
Definition allSet (f m : Z) : bool := Z.eqb (Z.land f m) m.
Definition noneSet (f m : Z) : bool := Z.eqb (Z.land f m) 0.
Definition clear (f m : Z) : Z := Z.ldiff f m.
Definition set (f m : Z) : Z := Z.lor f m.
End Flags.

Definition PublicRead : Z := 63.
Definition PublicWrite : Z := 29.
Definition Squashed : Z := 1.
Definition Scheduled : Z := 2.
Definition AutoDelete : Z := 4.
Definition AutoSerialize : Z := 8.
Definition IsExitEvent : Z := 16.
Definition IsMainQueue : Z := 32.
Definition Initialized : Z := 31296.
Definition InitMask : Z := 65472.

Definition Default_Pri : Z := 0.
Definition Stat_Event_Pri : Z := 90.
Definition Progress_Event_Pri : Z := 95.
Definition Sim_Exit_Pri : Z := 100.

Definition MaxTick : Z := 18446744073709551615.

(** ** Events *)

(** The subclass, which decides what [process], [globalEvent] and the
    destructor do. *)
Inductive EventClass :=
| Wrapper (object : Z)
| BarrierEvent (g : GId)
| SyncBarrierEvent (g : GId).

Record Event := mkEvent {
  nextBin : option EvId;
  nextInBin : option EvId;
  _when : Z;
  _priority : Z;
  flags : Z;
  instance : Z;
  queue : option nat;
  event_class : EventClass
}.
#[export] Instance Event_eta : Settable Event := fun r =>
  mkEvent (nextBin r) (nextInBin r) (_when r) (_priority r) (flags r) (instance r) (queue r) (event_class r).
#[export] Instance set_nextBin : Setter nextBin := ltac:(mk_setter).
#[export] Instance set_nextInBin : Setter nextInBin := ltac:(mk_setter).
#[export] Instance set_when_ : Setter _when := ltac:(mk_setter).
#[export] Instance set_priority_ : Setter _priority := ltac:(mk_setter).
#[export] Instance set_flags_ : Setter flags := ltac:(mk_setter).
#[export] Instance set_queue : Setter queue := ltac:(mk_setter).

Definition initialized (e : Event) : bool := Z.eqb (Z.land (flags e) InitMask) Initialized.
Definition scheduled (e : Event) : bool := Flags.isSet (flags e) Scheduled.
Definition squashed (e : Event) : bool := Flags.isSet (flags e) Squashed.
Definition set_flag (m : Z) (e : Event) : Event := e <| flags ::= fun f => Flags.set f m |>.
Definition clear_flag (m : Z) (e : Event) : Event := e <| flags ::= fun f => Flags.clear f m |>.
Definition squash : Event -> Event := set_flag Squashed.

Definition guard_assert (b : bool) (msg : string) : Res unit := if b then Ok () else Err (AssertFail msg).

(** The accessors for subclasses, which protect the private flags. *)
Definition getFlags (e : Event) : Z := Z.land (flags e) PublicRead.
Definition isFlagSet (m : Z) (e : Event) : Res bool :=
  _ ← guard_assert (Z.eqb (Z.ldiff m PublicRead) 0) "_flags.noneSet(~PublicRead)";
  Ok (Flags.isSet (flags e) m).
Definition setFlags (m : Z) (e : Event) : Res Event :=
  _ ← guard_assert (Z.eqb (Z.ldiff m PublicWrite) 0) "_flags.noneSet(~PublicWrite)";
  Ok (set_flag m e).
Definition clearFlags (m : Z) (e : Event) : Res Event :=
  _ ← guard_assert (Z.eqb (Z.ldiff m PublicWrite) 0) "_flags.noneSet(~PublicWrite)";
  Ok (clear_flag m e).

Definition setWhen (when : Z) (q : nat) (e : Event) : Event := e <| _when := when |> <| queue := Some q |>.

(** [operator<] and its companions: by time, then by priority. *)
Definition ev_lt (l r : Event) : bool :=
  Z.ltb (_when l) (_when r) || (Z.eqb (_when l) (_when r) && Z.ltb (_priority l) (_priority r)).
Definition ev_le (l r : Event) : bool :=
  Z.ltb (_when l) (_when r) || (Z.eqb (_when l) (_when r) && Z.leb (_priority l) (_priority r)).
Definition ev_eq (l r : Event) : bool := Z.eqb (_when l) (_when r) && Z.eqb (_priority l) (_priority r).

(** ** The linked list of bins *)

Notation Heap := (gmap EvId Event).

Definition deref (h : Heap) (e : EvId) : Res Event := of_option (h !! e).
Definition store (e : EvId) (g : Event -> Event) (h : Heap) : Heap := alter g e h.

(** [event] becomes the top of its bin; the pointer returned is [event]. *)
Definition insertBefore (event : EvId) (curr : option EvId) (h : Heap) : Res Heap :=
  ev ← deref h event;
  let before := store event (fun ev => ev <| nextBin := curr |> <| nextInBin := None |>) h in
  match curr with
  | None => Ok before
  | Some c =>
      cv ← deref h c;
      if ev_lt ev cv then Ok before
      else Ok (store event (fun ev => ev <| nextBin := nextBin cv |> <| nextInBin := curr |>) h)
  end.

(** [while (curr && *curr < *event) { prev = curr; curr = curr->nextBin; }] *)
Fixpoint find_bin (fuel : nat) (ev : Event) (h : Heap) (prev : EvId) (curr : option EvId)
  : Res (EvId * option EvId) :=
  match fuel with
  | O => Err OutOfFuel
  | S fuel =>
      match curr with
      | None => Ok (prev, None)
      | Some c =>
          cv ← deref h c;
          if ev_lt cv ev then find_bin fuel ev h c (nextBin cv) else Ok (prev, Some c)
      end
  end.

(** A chase along pointers passes each event at most once. *)
Definition chase_fuel (h : Heap) : nat := S (size h).

Definition insert (event : EvId) (head : option EvId) (h : Heap) : Res (Heap * option EvId) :=
  ev ← deref h event;
  match head with
  | None => h ← insertBefore event head h; Ok (h, Some event)
  | Some hd =>
      hv ← deref h hd;
      if ev_le ev hv then h ← insertBefore event head h; Ok (h, Some event)
      else
        '(prev, curr) ← find_bin (chase_fuel h) ev h hd (nextBin hv);
        h ← insertBefore event curr h;
        Ok (store prev (fun pv => pv <| nextBin := Some event |>) h, head)
  end.

(** [while (event != next) { ... curr = next; next = next->nextInBin; }] *)
Fixpoint find_item (fuel : nat) (event : EvId) (h : Heap) (curr : EvId) (next : option EvId) : Res EvId :=
  match fuel with
  | O => Err OutOfFuel
  | S fuel =>
      match next with
      | None => Err (Abort "event not found!")
      | Some n =>
          if bool_decide (event = n) then Ok curr
          else nv ← deref h n; find_item fuel event h n (nextInBin nv)
      end
  end.

Definition removeItem (event top : EvId) (h : Heap) : Res (Heap * option EvId) :=
  tv ← deref h top;
  if bool_decide (event = top) then
    match nextInBin tv with
    | None => Ok (h, nextBin tv)
    | Some n => _ ← deref h n; Ok (store n (fun nv => nv <| nextBin := nextBin tv |>) h, Some n)
    end
  else
    curr ← find_item (chase_fuel h) event h top (nextInBin tv);
    ev ← deref h event;
    Ok (store curr (fun cv => cv <| nextInBin := nextInBin ev |>) h, Some top).

Definition remove (self : nat) (event : EvId) (head : option EvId) (h : Heap) : Res (Heap * option EvId) :=
  match head with
  | None => Err (Abort "event not found!")
  | Some hd =>
      ev ← deref h event;
      _ ← guard_assert (bool_decide (queue ev = Some self)) "event->queue == this";
      hv ← deref h hd;
      if ev_eq hv ev then removeItem event hd h
      else
        '(prev, curr) ← find_bin (chase_fuel h) ev h hd (nextBin hv);
        match curr with
        | None => Err (Abort "event not found!")
        | Some c =>
            cv ← deref h c;
            if negb (ev_eq cv ev) then Err (Abort "event not found!")
            else
              '(h, top) ← removeItem event c h;
              Ok (store prev (fun pv => pv <| nextBin := top |>) h, head)
        end
  end.

(** The first half of [serviceOne]: the event at the head leaves the queue. *)
Definition pop_head (head : option EvId) (h : Heap) : Res (EvId * Heap * option EvId) :=
  event ← of_option head;
  ev ← deref h event;
  let h := store event (clear_flag Scheduled) h in
  match nextInBin ev with
  | Some n => _ ← deref h n; Ok (event, store n (fun nv => nv <| nextBin := nextBin ev |>) h, Some n)
  | None => Ok (event, h, nextBin ev)
  end.

(** The traversal of [dump], [serialize] and [debugVerify]: bin after bin, each
    from its top. *)
Fixpoint walk_bin (fuel : nat) (h : Heap) (e : option EvId) : Res (list EvId) :=
  match fuel, e with
  | O, _ => Err OutOfFuel
  | S _, None => Ok []
  | S fuel, Some e => ev ← deref h e; cons e <$> walk_bin fuel h (nextInBin ev)
  end.
Fixpoint walk (fuel : nat) (h : Heap) (e : option EvId) : Res (list EvId) :=
  match fuel, e with
  | O, _ => Err OutOfFuel
  | S _, None => Ok []
  | S fuel, Some e =>
      l ← walk_bin (chase_fuel h) h (Some e);
      ev ← deref h e;
      app l <$> walk fuel h (nextBin ev)
  end.

(** The events that [EventQueue::serialize] writes. *)
Definition auto_serialized (h : Heap) (e : EvId) : bool :=
  match h !! e with Some ev => Flags.isSet (flags ev) AutoSerialize | None => false end.
Definition serialized_events (head : option EvId) (h : Heap) : Res (list EvId) :=
  l ← walk (chase_fuel h) h head; Ok (filter (fun e => auto_serialized h e = true) l).

(** [debugVerify]: the time and the priority of the event before, and the
    events seen; [None] is [return false]. *)
Definition Verified : Type := option (Z * Z * list EvId).

Fixpoint verify_bin (fuel : nat) (h : Heap) (time priority : Z) (seen : list EvId) (e : option EvId) : Res Verified :=
  match fuel, e with
  | O, _ => Err OutOfFuel
  | S _, None => Ok (Some (time, priority, seen))
  | S fuel, Some e =>
      ev ← deref h e;
      if Z.ltb (_when ev) time then Ok None
      else if Z.eqb (_when ev) time && Z.ltb (_priority ev) priority then Ok None
      else if bool_decide (e ∈ seen) then Ok None
      else verify_bin fuel h (_when ev) (_priority ev) (e :: seen) (nextInBin ev)
  end.
Fixpoint verify_bins (fuel : nat) (h : Heap) (time priority : Z) (seen : list EvId) (e : option EvId) : Res bool :=
  match fuel, e with
  | O, _ => Err OutOfFuel
  | S _, None => Ok true
  | S fuel, Some e =>
      v ← verify_bin (chase_fuel h) h time priority seen (Some e);
      match v with
      | None => Ok false
      | Some (time, priority, seen) => ev ← deref h e; verify_bins fuel h time priority seen (nextBin ev)
      end
  end.
Definition debugVerify (head : option EvId) (h : Heap) : Res bool := verify_bins (chase_fuel h) h 0 0 [] head.

(** ** The queues, the global events and the rest of the simulator *)

Record Queue := mkQueue {
  head : option EvId;
  _curTick : Z;
  async_queue : list EvId
}.
#[export] Instance Queue_eta : Settable Queue := fun r => mkQueue (head r) (_curTick r) (async_queue r).
#[export] Instance set_head : Setter head := ltac:(mk_setter).
#[export] Instance set_curTick_ : Setter _curTick := ltac:(mk_setter).
#[export] Instance set_async_queue : Setter async_queue := ltac:(mk_setter).

Definition empty (q : Queue) : bool := bool_decide (head q = None).

(** [replaceHead]: the other head, and the old one. *)
Definition replaceHead (s : option EvId) (q : Queue) : Queue * option EvId := (q <| head := s |>, head q).

(** The subclasses of [GlobalEvent] of the simulation loop. *)
Inductive GlobalClass :=
| GlobalSimLoopExitEvent (cause : string) (code : Z) (repeat : Z)
| GlobalSyncEvent (repeat : Z)
| StatEvent (dump reset : bool) (repeat : Z).

Record Barrier := mkBarrier { numWaiting : Z; generation : Z; numLeft : Z }.

Record Global := mkGlobal {
  barrier : Barrier;
  barrierEvent : list (option EvId);
  global_class : GlobalClass
}.

Record World (A : Type) := mkWorld {
  heap : Heap;
  globals : gmap GId Global;
  queues : list Queue;
  _curEventQueue : nat;
  inParallelMode : bool;
  simQuantum : Z;
  instanceCounter : Z;
  gemdroid_enable : bool;
  async_event : bool;
  async_statdump : bool;
  async_statreset : bool;
  async_exit : bool;
  async_io : bool;
  async_exception : bool;
  objects : A
}.
Arguments mkWorld {A}.
Arguments heap {A}. Arguments globals {A}. Arguments queues {A}. Arguments _curEventQueue {A}.
Arguments inParallelMode {A}. Arguments simQuantum {A}. Arguments instanceCounter {A}.
Arguments gemdroid_enable {A}. Arguments async_event {A}. Arguments async_statdump {A}.
Arguments async_statreset {A}. Arguments async_exit {A}. Arguments async_io {A}.
Arguments async_exception {A}. Arguments objects {A}.

Section Setters.
Context {A : Type}.
#[export] Instance World_eta : Settable (World A) := fun r =>
  mkWorld (heap r) (globals r) (queues r) (_curEventQueue r) (inParallelMode r) (simQuantum r) (instanceCounter r)
    (gemdroid_enable r) (async_event r) (async_statdump r) (async_statreset r) (async_exit r) (async_io r)
    (async_exception r) (objects r).
#[export] Instance set_heap : Setter (@heap A) := ltac:(mk_setter).
#[export] Instance set_globals : Setter (@globals A) := ltac:(mk_setter).
#[export] Instance set_queues : Setter (@queues A) := ltac:(mk_setter).
#[export] Instance set_curEventQueue : Setter (@_curEventQueue A) := ltac:(mk_setter).
#[export] Instance set_inParallelMode : Setter (@inParallelMode A) := ltac:(mk_setter).
#[export] Instance set_instanceCounter : Setter (@instanceCounter A) := ltac:(mk_setter).
#[export] Instance set_gemdroid_enable : Setter (@gemdroid_enable A) := ltac:(mk_setter).
#[export] Instance set_async_event : Setter (@async_event A) := ltac:(mk_setter).
#[export] Instance set_async_statdump : Setter (@async_statdump A) := ltac:(mk_setter).
#[export] Instance set_async_statreset : Setter (@async_statreset A) := ltac:(mk_setter).
#[export] Instance set_async_exit : Setter (@async_exit A) := ltac:(mk_setter).
#[export] Instance set_async_io : Setter (@async_io A) := ltac:(mk_setter).
#[export] Instance set_async_exception : Setter (@async_exception A) := ltac:(mk_setter).
#[export] Instance set_objects : Setter (@objects A) := ltac:(mk_setter).
End Setters.

End EventQueue.
