(* ===== verification/EventQueueSpec.v ===== *)
(** * What an event queue promises

    The abstract queue: bins in increasing order of time and priority, each a
    stack of events. [chain] says which abstract queue a heap represents; the
    operations on pointers refine those on bins. *)

From S2P Require Import Prelude.
From S2P Require Import EventQueue.
From stdpp Require Import gmap sorting.
#[local] Open Scope Z_scope.

Module EventQueueSpec.
Import EventQueue.

(** ** Keys *)

Notation Key := (Z * Z)%type.
Definition key (ev : Event) : Key := (_when ev, _priority ev).
Definition key_lt (a b : Key) : Prop := a.1 < b.1 \/ (a.1 = b.1 /\ a.2 < b.2).
Definition key_le (a b : Key) : Prop := a.1 < b.1 \/ (a.1 = b.1 /\ a.2 <= b.2).

#[export] Instance key_lt_dec a b : Decision (key_lt a b).
Proof. unfold key_lt. apply _. Defined.
#[export] Instance key_le_dec a b : Decision (key_le a b).
Proof. unfold key_le. apply _. Defined.
#[export] Instance key_lt_trans : Transitive key_lt.
Proof. intros [] [] []. unfold key_lt. cbn. lia. Qed.
#[export] Instance key_le_trans : Transitive key_le.
Proof. intros [] [] []. unfold key_le. cbn. lia. Qed.

Ltac key_solve :=
  repeat match goal with k : Key |- _ => destruct k end;
  repeat match goal with H : (_, _) = (_, _) |- _ => injection H as H; subst end;
  unfold key_lt, key_le, key in *; cbn in *; try (f_equal; lia); lia.

Lemma key_cases a b : key_lt a b \/ a = b \/ key_lt b a.
Proof.
  destruct a as [a1 a2], b as [b1 b2]. unfold key_lt. cbn.
  destruct (Z.lt_trichotomy a1 b1) as [?|[->|?]]; [lia | | lia].
  destruct (Z.lt_trichotomy a2 b2) as [?|[->|?]]; [lia | by right; left | lia].
Qed.
Lemma key_lt_irrefl a : ~ key_lt a a.
Proof. unfold key_lt. lia. Qed.

Lemma ev_lt_key l r : ev_lt l r = bool_decide (key_lt (key l) (key r)).
Proof. unfold ev_lt, key_lt, key. cbn [fst snd]. apply eq_true_iff_eq. rewrite bool_decide_eq_true. lia. Qed.
Lemma ev_le_key l r : ev_le l r = bool_decide (key_le (key l) (key r)).
Proof. unfold ev_le, key_le, key. cbn [fst snd]. apply eq_true_iff_eq. rewrite bool_decide_eq_true. lia. Qed.
Lemma ev_eq_key l r : ev_eq l r = bool_decide (key l = key r).
Proof.
  unfold ev_eq, key. destruct (Z.eqb_spec (_when l) (_when r)), (Z.eqb_spec (_priority l) (_priority r));
    symmetry; (apply bool_decide_eq_true_2 || apply bool_decide_eq_false_2); congruence.
Qed.

(** ** The abstract queue *)

Notation Bins := (list (Key * list EvId)).

Definition items (bs : Bins) : list EvId := bs ≫= snd.

Fixpoint bins_insert (k : Key) (e : EvId) (bs : Bins) : Bins :=
  match bs with
  | [] => [(k, [e])]
  | (k', l) :: bs' =>
      if bool_decide (key_lt k k') then (k, [e]) :: bs
      else if bool_decide (k = k') then (k', e :: l) :: bs'
      else (k', l) :: bins_insert k e bs'
  end.

(** A bin that loses its last event goes. *)
Definition bin (k : Key) (l : list EvId) (bs : Bins) : Bins := match l with [] => bs | _ => (k, l) :: bs end.
Definition without (e : EvId) (l : list EvId) : list EvId := filter (fun x => x <> e) l.

Fixpoint bins_remove (k : Key) (e : EvId) (bs : Bins) : Bins :=
  match bs with
  | [] => []
  | (k', l) :: bs' => if bool_decide (k = k') then bin k' (without e l) bs' else (k', l) :: bins_remove k e bs'
  end.

Record bins_ok (bs : Bins) : Prop := {
  bo_sorted : StronglySorted key_lt (fst <$> bs);
  bo_nonempty : Forall (fun b => b.2 <> []) bs;
  bo_nodup : NoDup (items bs)
}.

Lemma items_cons k l bs : items ((k, l) :: bs) = l ++ items bs.
Proof. done. Qed.
Lemma items_bin k l bs : items (bin k l bs) = l ++ items bs.
Proof. by destruct l. Qed.
#[export] Hint Rewrite items_cons items_bin : gem.

Lemma bins_ok_tail b bs : bins_ok (b :: bs) -> bins_ok bs.
Proof.
  destruct b as [k l]. intros [H1 H2 H3]. cbn in H1. rewrite items_cons in H3.
  apply StronglySorted_inv in H1 as [H1 _]. inversion H2; subst. apply NoDup_app in H3 as (_ & _ & H3). by constructor.
Qed.

Lemma bins_ok_above k l bs k' l' : bins_ok ((k, l) :: bs) -> (k', l') ∈ bs -> key_lt k k'.
Proof.
  intros [H1 _ _] Hin. cbn in H1. apply StronglySorted_inv in H1 as [_ H1]. rewrite Forall_forall in H1.
  apply H1, list_elem_of_fmap. by exists (k', l').
Qed.

Lemma bins_insert_items k e bs : items (bins_insert k e bs) ≡ₚ e :: items bs.
Proof.
  induction bs as [|[k' l] bs IH]; cbn [bins_insert]; [done|].
  case_bool_decide; [done|]. case_bool_decide; [done|]. rewrite !items_cons, IH. solve_Permutation.
Qed.

Lemma bins_insert_fst k e bs k' : k' ∈ (fst <$> bins_insert k e bs) -> k' = k \/ k' ∈ (fst <$> bs).
Proof.
  induction bs as [|[k2 l] bs IH]; cbn [bins_insert]; [set_solver|]. repeat case_bool_decide; set_solver.
Qed.

Lemma bins_insert_ok k e bs : bins_ok bs -> e ∉ items bs -> bins_ok (bins_insert k e bs).
Proof.
  intros H He. constructor; [| |by rewrite bins_insert_items; apply NoDup_cons; split; [|apply bo_nodup]].
  - destruct H as [H _ _]. clear He. induction bs as [|[k' l] bs IH]; cbn [bins_insert]; [repeat constructor|].
    apply StronglySorted_inv in H as [Hs Hf]. case_bool_decide as H1; [|case_bool_decide as H2].
    + constructor; [by constructor|]. constructor; [done|]. rewrite Forall_forall in *. intros k2 Hk2.
      transitivity k'; [done | by apply Hf].
    + by constructor.
    + constructor; [by apply IH|]. rewrite Forall_forall in *. intros k2 Hk2.
      apply bins_insert_fst in Hk2 as [->|Hk2]; [|by apply Hf].
      destruct (key_cases k k') as [?|[?|?]]; done.
  - destruct H as [_ H _]. clear He. induction bs as [|[k' l] bs IH]; cbn [bins_insert]; [by repeat constructor|].
    inversion H; subst. repeat case_bool_decide; constructor; auto.
Qed.

Lemma without_notin e l : e ∉ l -> without e l = l.
Proof.
  unfold without. induction l as [|x l IH]; [done|]. intros H.
  rewrite filter_cons_True, IH by set_solver. done.
Qed.

Lemma without_cons_eq e l : e ∉ l -> without e (e :: l) = l.
Proof. intros H. unfold without. rewrite filter_cons_False by auto. by apply without_notin. Qed.
Lemma without_cons_ne e x l : x <> e -> without e (x :: l) = x :: without e l.
Proof. intros H. unfold without. by rewrite filter_cons_True. Qed.

(** Removing what was inserted. *)
Lemma bins_remove_insert k e bs : bins_ok bs -> e ∉ items bs -> bins_remove k e (bins_insert k e bs) = bs.
Proof.
  induction bs as [|[k' l] bs IH]; intros Hok He; cbn [bins_insert].
  - cbn [bins_remove]. by rewrite bool_decide_eq_true_2, without_cons_eq by (done || apply not_elem_of_nil).
  - case_bool_decide as H1; [|case_bool_decide as H2].
    + cbn [bins_remove]. by rewrite bool_decide_eq_true_2, without_cons_eq by (done || apply not_elem_of_nil).
    + subst. cbn [bins_remove]. rewrite items_cons, not_elem_of_app in He.
      rewrite bool_decide_eq_true_2, without_cons_eq by (done || apply He).
      destruct l; [|done]. destruct Hok as [_ Hne _]. by inversion Hne.
    + cbn [bins_remove]. rewrite bool_decide_eq_false_2 by done. rewrite IH; [done | by eapply bins_ok_tail |].
      rewrite items_cons, not_elem_of_app in He. apply He.
Qed.

Lemma without_items e l : NoDup l -> e ∈ l -> e :: without e l ≡ₚ l.
Proof.
  induction l as [|x l IH]; intros Hnd Hin; [by apply not_elem_of_nil in Hin|].
  apply NoDup_cons in Hnd as [Hx Hnd]. destruct (decide (x = e)) as [->|Hne].
  - by rewrite without_cons_eq.
  - rewrite without_cons_ne by done. rewrite Permutation_swap, IH; [done..|]. set_solver.
Qed.

(** The bin of an event that is there. *)
Lemma bins_remove_items k e bs l :
  bins_ok bs -> (k, l) ∈ bs -> e ∈ l -> e :: items (bins_remove k e bs) ≡ₚ items bs.
Proof.
  induction bs as [|[k' l'] bs IH]; intros Hok Hin He; [by apply not_elem_of_nil in Hin|].
  cbn [bins_remove]. pose proof (bo_nodup _ Hok) as Hnd. rewrite items_cons in Hnd. apply NoDup_app in Hnd as (Hl & _ & _).
  apply elem_of_cons in Hin as [[= -> ->]|Hin].
  - rewrite bool_decide_eq_true_2 by done. rewrite items_bin, items_cons. by rewrite <- (without_items e l') at 2.
  - rewrite bool_decide_eq_false_2.
    + rewrite !items_cons. rewrite <- (IH (bins_ok_tail _ _ Hok) Hin He). solve_Permutation.
    + intros ->. by apply (key_lt_irrefl k'), (bins_ok_above k' l' bs k' l).
Qed.

Lemma bins_remove_fst k e bs k' : k' ∈ (fst <$> bins_remove k e bs) -> k' ∈ (fst <$> bs).
Proof.
  induction bs as [|[k2 l] bs IH]; cbn [bins_remove]; [done|]. case_bool_decide; [|set_solver].
  unfold bin. destruct (without e l); set_solver.
Qed.

Lemma bins_remove_ok k e bs l : bins_ok bs -> (k, l) ∈ bs -> e ∈ l -> bins_ok (bins_remove k e bs).
Proof.
  intros H Hin He. constructor.
  - destruct H as [H _ _]. clear Hin He. induction bs as [|[k' l'] bs IH]; cbn [bins_remove]; [constructor|].
    apply StronglySorted_inv in H as [Hs Hf]. case_bool_decide as H1.
    + unfold bin. destruct (without e l'); [done | by constructor].
    + constructor; [by apply IH|]. rewrite Forall_forall in *. intros k2 Hk2. by apply Hf, (bins_remove_fst k e).
  - destruct H as [_ H _]. clear Hin He. induction bs as [|[k' l'] bs IH]; cbn [bins_remove]; [constructor|].
    inversion H; subst. case_bool_decide; [|constructor; auto]. unfold bin. destruct (without e l') eqn:E; [done|].
    by constructor.
  - pose proof (bo_nodup _ H) as Hnd. rewrite <- (bins_remove_items k e bs l H Hin He) in Hnd.
    by apply NoDup_cons in Hnd as [_ ?].
Qed.

(** ** The heap *)

(** What the queue never touches of an event. *)
Definition data (ev : Event) : Z * Z * Z * Z * option nat * EventClass :=
  (_when ev, _priority ev, flags ev, instance ev, queue ev, event_class ev).

Lemma store_same e g h ev : h !! e = Some ev -> store e g h !! e = Some (g ev).
Proof. intros H. unfold store. by rewrite lookup_alter_eq, H. Qed.
Lemma store_other e g h x : x <> e -> store e g h !! x = h !! x.
Proof. intros H. unfold store. by rewrite lookup_alter_ne. Qed.

Lemma store_data e g (h : Heap) : (forall ev, data (g ev) = data ev) -> data <$> store e g h = data <$> h.
Proof.
  intros H. apply map_eq. intros x. rewrite !lookup_fmap. destruct (decide (x = e)) as [->|Hx].
  - unfold store. rewrite lookup_alter_eq. destruct (h !! e) as [ev|]; cbn; [by rewrite H | done].
  - by rewrite store_other.
Qed.

Lemma data_lookup (h h' : Heap) e ev : data <$> h' = data <$> h -> h !! e = Some ev ->
  exists ev', h' !! e = Some ev' /\ data ev' = data ev.
Proof.
  intros H E. apply (f_equal (lookup e)) in H. rewrite !lookup_fmap, E in H.
  destruct (h' !! e) as [ev'|]; [|done]. exists ev'. split; [done|]. by apply (inj Some).
Qed.
Lemma data_key ev ev' : data ev' = data ev -> key ev' = key ev.
Proof. unfold data, key. congruence. Qed.

(** [stack h k l p]: [p] points to a stack of the events [l] with key [k]. *)
Fixpoint stack (h : Heap) (k : Key) (l : list EvId) (p : option EvId) : Prop :=
  match l with
  | [] => p = None
  | e :: l' => p = Some e /\ exists ev, h !! e = Some ev /\ key ev = k /\ stack h k l' (nextInBin ev)
  end.

(** [chain h bs p]: [p] points to the bins [bs]. *)
Fixpoint chain (h : Heap) (bs : Bins) (p : option EvId) : Prop :=
  match bs with
  | [] => p = None
  | (k, l) :: bs' => stack h k l p /\ exists e ev, p = Some e /\ h !! e = Some ev /\ chain h bs' (nextBin ev)
  end.

Lemma stack_frame h h' k l p :
  (forall e ev, e ∈ l -> h !! e = Some ev ->
     exists ev', h' !! e = Some ev' /\ key ev' = key ev /\ nextInBin ev' = nextInBin ev) ->
  stack h k l p -> stack h' k l p.
Proof.
  revert p. induction l as [|e l IH]; intros p Hf; [done|]. cbn. intros (-> & ev & E & Hk & Hs). split; [done|].
  destruct (Hf e ev) as (ev' & E' & Hk' & Hn); [by left | done |]. exists ev'. split; [done|]. split; [congruence|].
  rewrite Hn. apply IH; [|done]. intros x xv Hx. apply Hf. by right.
Qed.

Lemma stack_same h h' k l p : (forall e, e ∈ l -> h' !! e = h !! e) -> stack h k l p -> stack h' k l p.
Proof. intros Hf. apply stack_frame. intros e ev He E. exists ev. by rewrite Hf. Qed.

Lemma chain_same h h' bs p : (forall e, e ∈ items bs -> h' !! e = h !! e) -> chain h bs p -> chain h' bs p.
Proof.
  revert p. induction bs as [|[k l] bs IH]; intros p Hf; [done|]. cbn. rewrite items_cons in Hf.
  intros (Hs & e & ev & -> & E & Hc). split.
  - apply (stack_same h); [|done]. intros x Hx. apply Hf, elem_of_app. by left.
  - exists e, ev. split; [done|]. split.
    + rewrite Hf; [done|]. apply elem_of_app. left. destruct l as [|e' l]; [done|]. destruct Hs as [[= ->] _]. by left.
    + apply IH; [|done]. intros x Hx. apply Hf, elem_of_app. by right.
Qed.

Lemma stack_lookup h k l p e : stack h k l p -> e ∈ l -> exists ev, h !! e = Some ev /\ key ev = k.
Proof.
  revert p. induction l as [|x l IH]; intros p Hs He; [by apply not_elem_of_nil in He|].
  destruct Hs as (-> & ev & E & Hk & Hs). apply elem_of_cons in He as [->|He]; [eauto | by eapply IH].
Qed.

Lemma chain_lookup h bs p e : chain h bs p -> e ∈ items bs ->
  exists k l ev, (k, l) ∈ bs /\ e ∈ l /\ h !! e = Some ev /\ key ev = k.
Proof.
  revert p. induction bs as [|[k l] bs IH]; intros p Hc He; [by apply not_elem_of_nil in He|].
  destruct Hc as (Hs & x & xv & -> & E & Hc). rewrite items_cons in He. apply elem_of_app in He as [He|He].
  - destruct (stack_lookup _ _ _ _ _ Hs He) as (ev & ? & ?). exists k, l, ev. split; [by left | done].
  - destruct (IH _ Hc He) as (k' & l' & ev & ? & ?). exists k', l', ev. split; [by right | done].
Qed.

(** A write that keeps keys and links. *)
Lemma chain_store x g h bs p :
  (forall ev, key (g ev) = key ev /\ nextBin (g ev) = nextBin ev /\ nextInBin (g ev) = nextInBin ev) ->
  chain h bs p -> chain (store x g h) bs p.
Proof.
  intros Hg. revert p.
  assert (forall e ev, h !! e = Some ev -> exists ev', store x g h !! e = Some ev' /\ key ev' = key ev /\
            nextBin ev' = nextBin ev /\ nextInBin ev' = nextInBin ev) as Hx.
  { intros e ev E. destruct (decide (e = x)) as [->|Hne].
    - exists (g ev). split; [by apply store_same | apply Hg].
    - exists ev. by rewrite store_other. }
  induction bs as [|[k l] bs IH]; intros p; [done|]. intros (Hs & e & ev & -> & E & Hc). split.
  - apply (stack_frame h); [|done]. intros y yv _ Ey. destruct (Hx y yv Ey) as (yv' & ? & ? & ? & ?). by exists yv'.
  - destruct (Hx e ev E) as (ev' & E' & _ & Hn & _). exists e, ev'. split; [done|]. split; [done|]. rewrite Hn. by apply IH.
Qed.

(** A bin that is not empty, seen from its top. *)
Lemma chain_cons h k l bs p : chain h ((k, l) :: bs) p -> l <> [] ->
  exists e l' ev, l = e :: l' /\ p = Some e /\ h !! e = Some ev /\ key ev = k /\
    stack h k l' (nextInBin ev) /\ chain h bs (nextBin ev).
Proof.
  intros (Hs & e & ev & -> & E & Hc) Hl. destruct l as [|e' l']; [done|].
  destruct Hs as ([= <-] & ev' & E' & Hk & Hs). rewrite E in E'. injection E' as <-. exists e, l', ev. done.
Qed.

Lemma chain_intro h k e l bs ev : h !! e = Some ev -> key ev = k -> stack h k l (nextInBin ev) ->
  chain h bs (nextBin ev) -> chain h ((k, e :: l) :: bs) (Some e).
Proof. intros E Hk Hs Hc. cbn. split; [|by exists e, ev]. split; [done|]. by exists ev. Qed.

(** ** Fuel *)

Lemma length_dom (h : Heap) l : NoDup l -> (forall e, e ∈ l -> is_Some (h !! e)) -> (length l <= size h)%nat.
Proof.
  intros Hnd Hl. rewrite <- (size_list_to_set (C:=gset EvId) l Hnd), <- size_dom. apply subseteq_size.
  intros e. rewrite elem_of_list_to_set, elem_of_dom. apply Hl.
Qed.

Lemma chain_items_size h bs p : chain h bs p -> bins_ok bs -> (length (items bs) <= size h)%nat.
Proof.
  intros Hc Hok. apply length_dom; [by apply bo_nodup|]. intros e He.
  destruct (chain_lookup _ _ _ _ Hc He) as (? & ? & ev & ? & ? & ? & ?). eauto.
Qed.

Lemma bins_length bs : Forall (fun b => b.2 <> []) bs -> (length bs <= length (items bs))%nat.
Proof.
  induction 1 as [|[k l] bs Hl _ IH]; [done|]. rewrite items_cons, length_app. destruct l; [done|]. cbn in *. lia.
Qed.

Lemma chain_size h bs p : chain h bs p -> bins_ok bs -> (length bs <= size h)%nat.
Proof. intros Hc Hok. pose proof (chain_items_size _ _ _ Hc Hok). pose proof (bins_length bs (bo_nonempty _ Hok)). lia. Qed.

(** ** Insertion *)

(** No bin of [bs] is before [k]. *)
Definition not_before (k : Key) (bs : Bins) : Prop :=
  match bs with [] => True | (k', _) :: _ => ~ key_lt k' k end.
Definition all_before (k : Key) (bs : Bins) : Prop := Forall (fun b => key_lt b.1 k) bs.

Lemma bins_insert_app k e bs1 bs2 : all_before k bs1 -> bins_insert k e (bs1 ++ bs2) = bs1 ++ bins_insert k e bs2.
Proof.
  induction 1 as [|[k' l] bs1 Hk _ IH]; [done|]. cbn [app bins_insert]. cbn in Hk.
  rewrite !bool_decide_eq_false_2, IH; [done | intros ->; by apply key_lt_irrefl in Hk |].
  intros Hk'. apply (key_lt_irrefl k). by transitivity k'.
Qed.

Definition all_other (k : Key) (bs : Bins) : Prop := Forall (fun b => b.1 <> k) bs.

Lemma bins_remove_app k e bs1 bs2 : all_other k bs1 -> bins_remove k e (bs1 ++ bs2) = bs1 ++ bins_remove k e bs2.
Proof.
  induction 1 as [|[k' l] bs1 Hk _ IH]; [done|]. cbn [app bins_remove]. cbn in Hk.
  by rewrite bool_decide_eq_false_2, IH by congruence.
Qed.

Lemma before_other k bs : all_before k bs -> all_other k bs.
Proof.
  intros H. eapply Forall_impl; [exact H|]. intros b Hb Hk. cbn in Hb. rewrite Hk in Hb. by apply key_lt_irrefl in Hb.
Qed.

Lemma insertBefore_chain h bs p e ev :
  chain h bs p -> bins_ok bs -> h !! e = Some ev -> e ∉ items bs -> not_before (key ev) bs ->
  exists g, insertBefore e p h = Ok (store e g h) /\ (forall x, data (g x) = data x) /\
    chain (store e g h) (bins_insert (key ev) e bs) (Some e).
Proof.
  intros Hc Hok E He Hnb. unfold insertBefore, deref. rewrite E. cbn [of_option mbind Res_bind].
  set (before := fun ev => ev <| nextBin := p |> <| nextInBin := None |>).
  assert (chain (store e before h) ((key ev, [e]) :: bs) (Some e)) as Hbefore.
  { eapply chain_intro; [by apply store_same | done | done |]. cbn. apply (chain_same h); [|done].
    intros x Hx. apply store_other. by intros ->. }
  destruct bs as [|[k l] bs].
  { rewrite Hc in *. by exists before. }
  destruct (chain_cons _ _ _ _ _ Hc) as (c & l' & cv & -> & -> & Ec & <- & Hs & Hc').
  { pose proof (bo_nonempty _ Hok) as H. by inversion H. }
  rewrite Ec. cbn [of_option mbind Res_bind bins_insert]. rewrite ev_lt_key.
  case_bool_decide as Hlt; [by exists before|]. rewrite items_cons, not_elem_of_app in He. destruct He as [He1 He2].
  rewrite bool_decide_eq_true_2 by (cbn in Hnb; destruct (key_cases (key ev) (key cv)) as [?|[?|?]]; done).
  eexists. split; [done|]. split; [done|]. eapply chain_intro; [by apply store_same | | |].
  - cbn in Hnb. destruct (key_cases (key ev) (key cv)) as [?|[?|?]]; [done | done | done].
  - cbn. split; [done|]. exists cv. split; [rewrite store_other; [done | intros ->; set_solver]|].
    split; [done|]. apply (stack_same h); [|done]. intros x Hx. apply store_other. intros ->. set_solver.
  - cbn. apply (chain_same h); [|done]. intros x Hx. apply store_other. by intros ->.
Qed.

(** Where the loop of [insert] and [remove] stops: behind the first bin [b] and
    those of [bs1], which are before the event. *)
Lemma find_bin_chain ev h fuel : forall rest kp lp prev pv,
  chain h ((kp, prev :: lp) :: rest) (Some prev) -> bins_ok ((kp, prev :: lp) :: rest) ->
  h !! prev = Some pv -> (length rest < fuel)%nat ->
  exists prev' curr' bs1 k' l' bs2, find_bin fuel ev h prev (nextBin pv) = Ok (prev', curr') /\
    (kp, prev :: lp) :: rest = bs1 ++ (k', prev' :: l') :: bs2 /\
    all_before (key ev) (tail (bs1 ++ [(k', prev' :: l')])) /\ not_before (key ev) bs2 /\ chain h bs2 curr'.
Proof.
  induction fuel as [|fuel IH]; intros rest kp lp prev pv Hc Hok E Hf; [lia|]. cbn [find_bin].
  destruct (chain_cons _ _ _ _ _ Hc) as (e & l' & xv & [= <- <-] & _ & E' & _ & _ & Hc'); [done|].
  rewrite E in E'. injection E' as <-.
  assert (all_before (key ev) []) as Hb by constructor.
  destruct rest as [|[k l] rest].
  { rewrite Hc' in *. exists prev, None, [], kp, lp, []. done. }
  destruct (chain_cons _ _ _ _ _ Hc') as (c & l2 & cv & -> & Hp & Ec & <- & Hs & Hc2).
  { pose proof (bo_nonempty _ Hok) as H. inversion H as [|? ? _ H2]; subst. by inversion H2. }
  rewrite Hp in *. unfold deref. rewrite Ec. cbn [of_option mbind Res_bind]. rewrite ev_lt_key. case_bool_decide as Hlt.
  - destruct (IH rest (key cv) l2 c cv Hc' (bins_ok_tail _ _ Hok) Ec) as (p' & c' & bs1 & k' & l' & bs2 & -> & Eq & H1 & H2 & H3);
      [cbn in Hf; lia|].
    exists p', c', ((kp, prev :: lp) :: bs1), k', l', bs2. rewrite Eq. repeat split; [|done..]. cbn [app tail].
    destruct bs1 as [|b bs1]; cbn [app tail] in *; injection Eq as <-; by constructor.
  - exists prev, (Some c), [], kp, lp, ((key cv, c :: l2) :: rest). done.
Qed.

(** The first bin comes in, whatever holds of its key. *)
Lemma passed_bins (P : Key -> Prop) (b : Key * list EvId) rest bs1 b' bs2 :
  b :: rest = bs1 ++ b' :: bs2 -> P b.1 -> Forall (fun b : Key * list EvId => P b.1) (tail (bs1 ++ [b'])) ->
  Forall (fun b : Key * list EvId => P b.1) (bs1 ++ [b']).
Proof. destruct bs1 as [|b1 bs1]; intros [= -> Eq] Hb H; by constructor. Qed.

(** Another tail behind a bin. *)
Lemma chain_replace h h' bs1 k e l bs2 bs2' p :
  chain h (bs1 ++ (k, e :: l) :: bs2) p ->
  (forall x, x ∈ items bs1 ++ l -> h' !! x = h !! x) ->
  (forall ev, h !! e = Some ev -> exists ev', h' !! e = Some ev' /\ key ev' = key ev /\
     nextInBin ev' = nextInBin ev /\ chain h' bs2' (nextBin ev')) ->
  chain h' (bs1 ++ (k, e :: l) :: bs2') p.
Proof.
  revert p. induction bs1 as [|[k1 l1] bs1 IH]; intros p Hc Hsame He.
  - cbn [app] in *. destruct (chain_cons _ _ _ _ _ Hc) as (? & ? & ev & [= <- <-] & -> & E & Hk & Hs & _); [done|].
    destruct (He ev E) as (ev' & E' & Hk' & Hn & Hc'). eapply chain_intro; [done | congruence | | done].
    rewrite Hn. apply (stack_same h); [|done]. done.
  - cbn [app] in Hc. destruct Hc as (Hs & x & xv & -> & E & Hc).
    assert (forall y, y ∈ l1 -> h' !! y = h !! y) as Hl1.
    { intros y Hy. apply Hsame. rewrite items_cons, !elem_of_app. by left; left. }
    split; [by apply (stack_same h)|]. exists x, xv. split; [done|]. split.
    + rewrite Hl1; [done|]. destruct l1; [done|]. destruct Hs as [[= ->] _]. by left.
    + apply IH; [done | | done]. intros y Hy. apply Hsame. rewrite items_cons.
      apply elem_of_app in Hy. rewrite !elem_of_app. tauto.
Qed.

Lemma items_app bs1 bs2 : items (bs1 ++ bs2) = items bs1 ++ items bs2.
Proof. unfold items. by rewrite bind_app. Qed.

Lemma bins_ok_drop bs1 bs2 : bins_ok (bs1 ++ bs2) -> bins_ok bs2.
Proof. induction bs1 as [|b bs1 IH]; [done|]. intros H. apply IH. by eapply bins_ok_tail. Qed.

(** The write to [prev->nextBin] that ends [insert] and [remove]. *)
Lemma chain_retarget h h1 bs1 k e l bs2 bs2' p q :
  chain h (bs1 ++ (k, e :: l) :: bs2) p -> bins_ok (bs1 ++ (k, e :: l) :: bs2) ->
  (forall x, x ∈ items bs1 ++ e :: l -> h1 !! x = h !! x) -> chain h1 bs2' q -> e ∉ items bs2' ->
  chain (store e (fun ev => ev <| nextBin := q |>) h1) (bs1 ++ (k, e :: l) :: bs2') p.
Proof.
  intros Hc Hok Hsame Hc' He. apply (chain_replace h _ _ _ _ _ bs2); [done | |].
  - pose proof (bo_nodup _ Hok) as Hnd. rewrite items_app, items_cons in Hnd.
    apply NoDup_app in Hnd as (_ & Hd & Hnd). apply NoDup_app in Hnd as (Hnd & _ & _). apply NoDup_cons in Hnd as [Hnd _].
    intros x Hx. rewrite store_other; [apply Hsame; set_solver|]. intros ->.
    apply elem_of_app in Hx as [Hx|Hx]; [|done]. apply (Hd e Hx). by left.
  - intros ev E. eexists. split; [apply store_same; by rewrite Hsame by set_solver|]. split; [done|]. split; [done|].
    cbn. apply (chain_same h1); [|done]. intros x Hx. apply store_other. by intros ->.
Qed.

Lemma insert_refines h bs p e ev :
  chain h bs p -> bins_ok bs -> h !! e = Some ev -> e ∉ items bs ->
  exists h' p', insert e p h = Ok (h', p') /\ chain h' (bins_insert (key ev) e bs) p' /\ data <$> h' = data <$> h.
Proof.
  intros Hc Hok E He. unfold insert, deref. rewrite E. cbn [of_option mbind Res_bind].
  destruct bs as [|[k l] rest].
  { destruct (insertBefore_chain _ _ _ _ _ Hc Hok E He I) as (g & Hi & Hg & Hc'). rewrite Hc in *.
    rewrite Hi. eexists _, _. split; [done|]. split; [done|]. by apply store_data. }
  destruct (chain_cons _ _ _ _ _ Hc) as (hd & l' & hv & -> & -> & Ehd & <- & Hs & Hc').
  { pose proof (bo_nonempty _ Hok) as H. by inversion H. }
  rewrite Ehd. cbn [of_option mbind Res_bind]. rewrite ev_le_key. case_bool_decide as Hle.
  - destruct (insertBefore_chain _ _ _ _ _ Hc Hok E He) as (g & Hi & Hg & Hc2); [cbn; key_solve|].
    rewrite Hi. eexists _, _. split; [done|]. split; [done|]. by apply store_data.
  - destruct (find_bin_chain ev h (chase_fuel h) rest (key hv) l' hd hv Hc Hok) as
      (p' & c' & bs1 & k' & l2 & bs2 & -> & Eq & Hb & Hnb & Hc2); [done | |].
    { unfold chase_fuel. pose proof (chain_size _ _ _ Hc Hok) as Hsz. cbn in Hsz. lia. }
    apply (passed_bins (fun k => key_lt k (key ev)) _ _ _ _ _ Eq) in Hb; [|key_solve].
    rewrite Eq in *. cbn [mbind Res_bind]. rewrite items_app, items_cons in He.
    destruct (insertBefore_chain _ _ _ _ _ Hc2 (bins_ok_drop [_] _ (bins_ok_drop _ _ Hok)) E) as (g & -> & Hg & Hc3);
      [set_solver | done |].
    eexists _, _. split; [done|]. split; [|by rewrite store_data, store_data by done].
    rewrite cons_middle, app_assoc, bins_insert_app, <- app_assoc by done.
    apply (chain_retarget h _ _ _ _ _ bs2); [done | done | | done |].
    + intros x Hx. rewrite store_other; [done|]. intros ->. set_solver.
    + rewrite bins_insert_items. pose proof (bo_nodup _ Hok) as Hnd. rewrite items_app, items_cons in Hnd.
      apply NoDup_app in Hnd as (_ & _ & Hnd). apply NoDup_app in Hnd as (_ & Hd & _).
      specialize (Hd p'). set_solver.
Qed.

(** ** Removal *)

Lemma find_item_stack h k e fuel : forall l c cv,
  h !! c = Some cv -> key cv = k -> stack h k l (nextInBin cv) -> NoDup (c :: l) -> c <> e -> e ∈ l ->
  (length l <= fuel)%nat ->
  exists c', find_item fuel e h c (nextInBin cv) = Ok c' /\ c' ∈ c :: l /\
    forall ev h', h !! e = Some ev -> h' = store c' (fun cv => cv <| nextInBin := nextInBin ev |>) h ->
    stack h' k (c :: without e l) (Some c).
Proof.
  induction fuel as [|fuel IH]; intros l c cv Ec Hk Hs Hnd Hce He Hf; [destruct l; [by apply not_elem_of_nil in He | cbn in Hf; lia]|].
  destruct l as [|n l]; [by apply not_elem_of_nil in He|]. destruct Hs as (Hp & nv & En & Hkn & Hs). rewrite Hp.
  cbn [find_item]. apply NoDup_cons in Hnd as [Hc Hnd]. case_bool_decide as Hen.
  - subst n. exists c. split; [done|]. split; [by left|]. intros ev h' E ->. rewrite E in En. injection En as ->.
    apply NoDup_cons in Hnd as [Hel Hnd]. rewrite without_cons_eq by done. split; [done|].
    eexists. split; [by apply store_same|]. split; [done|]. cbn. apply (stack_same h); [|done].
    intros x Hx. apply store_other. intros ->. apply Hc. by right.
  - unfold deref. rewrite En. cbn [of_option mbind Res_bind].
    destruct (IH l n nv En Hkn Hs Hnd) as (c' & -> & Hc' & Hst); [done | by apply elem_of_cons in He as [?|?] | cbn in Hf; lia |].
    exists c'. split; [done|]. split; [by right|]. intros ev h' E Hh'. specialize (Hst ev h' E Hh').
    rewrite without_cons_ne by done. split; [done|]. exists cv. split; [|by rewrite Hp].
    rewrite Hh', store_other; [done|]. by intros ->.
Qed.

Lemma find_item_absent h k e fuel : forall l c cv,
  h !! c = Some cv -> stack h k l (nextInBin cv) -> e ∉ l -> (length l < fuel)%nat ->
  find_item fuel e h c (nextInBin cv) = Err (Abort "event not found!").
Proof.
  induction fuel as [|fuel IH]; intros l c cv Ec Hs He Hf; [lia|].
  destruct l as [|n l]; [by rewrite Hs|]. destruct Hs as (Hp & nv & En & Hkn & Hs). rewrite Hp.
  cbn [find_item]. rewrite bool_decide_eq_false_2 by set_solver. unfold deref. rewrite En. cbn [of_option mbind Res_bind].
  apply (IH l n nv); [done | done | set_solver | cbn in Hf; lia].
Qed.

Lemma chain_first_size h k l bs p : chain h ((k, l) :: bs) p -> bins_ok ((k, l) :: bs) -> (length l <= size h)%nat.
Proof. intros Hc Hok. pose proof (chain_items_size _ _ _ Hc Hok) as H. rewrite items_cons, length_app in H. lia. Qed.

Lemma removeItem_chain h k l bs p e top :
  chain h ((k, l) :: bs) p -> bins_ok ((k, l) :: bs) -> p = Some top -> e ∈ l ->
  exists h' top', removeItem e top h = Ok (h', top') /\ chain h' (bin k (without e l) bs) top' /\
    data <$> h' = data <$> h /\ (forall x, x ∉ l -> h' !! x = h !! x).
Proof.
  intros Hc Hok -> He. destruct (chain_cons _ _ _ _ _ Hc) as (? & l' & tv & -> & [= <-] & E & Hk & Hs & Hc').
  { pose proof (bo_nonempty _ Hok) as H. by inversion H. }
  pose proof (bo_nodup _ Hok) as Hnd. rewrite items_cons in Hnd. apply NoDup_app in Hnd as (Hnd & Hd & _).
  unfold removeItem, deref. rewrite E. cbn [of_option mbind Res_bind]. case_bool_decide as Het.
  - subst. apply NoDup_cons in Hnd as [Htop Hnd]. rewrite without_cons_eq by done. destruct l' as [|n l'].
    + rewrite Hs. eexists _, _. done.
    + destruct Hs as (-> & nv & En & Hkn & Hs). rewrite En. cbn [of_option mbind Res_bind bin].
      eexists _, _. split; [done|]. split; [|split; [by apply store_data|]].
      * eapply chain_intro; [by apply store_same | done | |]; cbn.
        -- apply (stack_same h); [|done]. intros x Hx. apply store_other. intros ->. apply NoDup_cons in Hnd as [? _]. done.
        -- apply (chain_same h); [|done]. intros x Hx. apply store_other. intros ->. apply (Hd n); set_solver.
      * intros x Hx. apply store_other. intros ->. apply Hx. by right; left.
  - assert (e ∈ l') as He' by (by apply elem_of_cons in He as [->|?]).
    destruct (find_item_stack h k e (chase_fuel h) l' top tv E Hk Hs Hnd) as (c' & -> & Hc2 & Hst); [done | done | |].
    { pose proof (chain_first_size _ _ _ _ _ Hc Hok) as Hsz. unfold chase_fuel. cbn in Hsz. lia. }
    destruct (stack_lookup _ _ _ _ e Hs He') as (ev & Ee & Hke). cbn [mbind Res_bind]. rewrite Ee.
    cbn [of_option mbind Res_bind].
    assert (forall x, x ∉ top :: l' -> store c' (fun cv => cv <| nextInBin := nextInBin ev |>) h !! x = h !! x) as Hout.
    { intros x Hx. apply store_other. by intros ->. }
    eexists _, _. split; [done|]. split; [|split; [by apply store_data | done]].
    rewrite without_cons_ne by done. cbn [bin]. specialize (Hst ev _ Ee eq_refl). split; [done|].
    destruct Hst as [_ (tv' & Et' & _)]. exists top, tv'. split; [done|]. split; [done|].
    apply (chain_same h); [intros x Hx; apply Hout; intros Hx2; by apply (Hd x)|].
    replace (nextBin tv') with (nextBin tv); [done|]. destruct (decide (c' = top)) as [->|Hct].
    + rewrite (store_same _ _ _ tv E) in Et'. by injection Et' as <-.
    + rewrite store_other, E in Et' by done. by injection Et' as <-.
Qed.

Lemma removeItem_absent h k l bs p e top :
  chain h ((k, l) :: bs) p -> bins_ok ((k, l) :: bs) -> p = Some top -> e ∉ l ->
  removeItem e top h = Err (Abort "event not found!").
Proof.
  intros Hc Hok -> He. destruct (chain_cons _ _ _ _ _ Hc) as (? & l' & tv & -> & [= <-] & E & Hk & Hs & Hc').
  { pose proof (bo_nonempty _ Hok) as H. by inversion H. }
  unfold removeItem, deref. rewrite E. cbn [of_option mbind Res_bind]. rewrite bool_decide_eq_false_2 by set_solver.
  rewrite (find_item_absent h k e _ l' top tv E Hs); [done | set_solver |].
  pose proof (chain_first_size _ _ _ _ _ Hc Hok) as Hsz. unfold chase_fuel. cbn in Hsz. lia.
Qed.

(** [remove] looks in the bin of the event's key, and nowhere else. *)
Definition bin_at (k : Key) (bs : Bins) : list EvId :=
  items (filter (fun b => b.1 = k) bs).

Lemma bin_at_cons k l bs k' : bin_at k' ((k, l) :: bs) = if bool_decide (k = k') then l ++ bin_at k' bs else bin_at k' bs.
Proof.
  unfold bin_at. case_bool_decide; [rewrite filter_cons_True by done | rewrite filter_cons_False by done]; done.
Qed.

Lemma bin_at_app k bs1 bs2 : all_other k bs1 -> bin_at k (bs1 ++ bs2) = bin_at k bs2.
Proof.
  induction 1 as [|[k' l] bs1 Hk _ IH]; [done|]. cbn [app]. by rewrite bin_at_cons, bool_decide_eq_false_2, IH.
Qed.

Lemma bin_at_other k bs : all_other k bs -> bin_at k bs = [].
Proof. intros H. rewrite <- (app_nil_r bs). by rewrite bin_at_app. Qed.

Lemma bin_at_items k bs e : e ∈ bin_at k bs -> e ∈ items bs.
Proof.
  induction bs as [|[k' l] bs IH]; [done|]. rewrite bin_at_cons, items_cons. case_bool_decide; set_solver.
Qed.

Lemma bin_at_chain h bs p e ev : chain h bs p -> e ∈ items bs -> h !! e = Some ev -> e ∈ bin_at (key ev) bs.
Proof.
  intros Hc He E. destruct (chain_lookup _ _ _ _ Hc He) as (k & l & ev' & Hin & Hl & E' & Hk).
  rewrite E in E'. injection E' as <-. subst k. unfold bin_at, items. apply list_elem_of_bind.
  exists (key ev, l). split; [done|]. by apply list_elem_of_filter.
Qed.

(** The bins behind one that is not before [k]. *)
Lemma bins_ok_other k k' l bs : bins_ok ((k', l) :: bs) -> ~ key_lt k' k -> all_other k bs.
Proof.
  intros Hok Hk. apply Forall_forall. intros [k2 l2] Hin <-. by apply Hk, (bins_ok_above _ _ _ _ _ Hok Hin).
Qed.

Lemma bins_remove_cons_eq k e l bs : bins_remove k e ((k, l) :: bs) = bin k (without e l) bs.
Proof. cbn [bins_remove]. by rewrite bool_decide_eq_true_2. Qed.

(** What [remove] does of an event, by its bin. *)
Definition removes (e : EvId) (k : Key) (h : Heap) (bs : Bins) (m : Res (Heap * option EvId)) : Prop :=
  if bool_decide (e ∈ bin_at k bs)
  then exists h' p', m = Ok (h', p') /\ chain h' (bins_remove k e bs) p' /\ data <$> h' = data <$> h
  else m = Err (Abort "event not found!").

Lemma removeItem_removes h k l bs e top :
  chain h ((k, l) :: bs) (Some top) -> bins_ok ((k, l) :: bs) -> removes e k h ((k, l) :: bs) (removeItem e top h).
Proof.
  intros Hc Hok. unfold removes. rewrite bin_at_cons, (bool_decide_eq_true_2 (k = k)) by done.
  rewrite bin_at_other, app_nil_r by (eapply bins_ok_other; [done | apply key_lt_irrefl]). case_bool_decide as He.
  - destruct (removeItem_chain _ _ _ _ _ e top Hc Hok eq_refl He) as (h' & top' & -> & H1 & H2 & _).
    eexists _, _. split; [done|]. by rewrite bins_remove_cons_eq.
  - by apply (removeItem_absent _ _ _ _ _ _ _ Hc Hok).
Qed.

(** Removal behind the bin [b] that the loop stops at. *)
Lemma removes_behind h bs1 k' p' l2 bs2 curr e ev p :
  chain h (bs1 ++ (k', p' :: l2) :: bs2) p -> bins_ok (bs1 ++ (k', p' :: l2) :: bs2) ->
  all_other (key ev) (bs1 ++ [(k', p' :: l2)]) -> not_before (key ev) bs2 -> chain h bs2 curr ->
  removes e (key ev) h (bs1 ++ (k', p' :: l2) :: bs2)
    (match curr with
     | None => Err (Abort "event not found!")
     | Some c =>
         cv ← deref h c;
         if negb (ev_eq cv ev) then Err (Abort "event not found!")
         else '(h, top) ← removeItem e c h; Ok (store p' (fun pv => pv <| nextBin := top |>) h, p)
     end).
Proof.
  intros Hc Hok Hother Hnb Hc2. unfold removes.
  rewrite cons_middle, app_assoc, bin_at_app by done.
  destruct bs2 as [|[k l] bs2].
  { rewrite Hc2, bool_decide_eq_false_2; [done | apply not_elem_of_nil]. }
  pose proof (bins_ok_drop [_] _ (bins_ok_drop _ _ Hok)) as Hok2.
  destruct (chain_cons _ _ _ _ _ Hc2) as (c & l' & cv & -> & -> & Ec & <- & _).
  { pose proof (bo_nonempty _ Hok2) as H. by inversion H. }
  unfold deref. rewrite Ec. cbn [of_option mbind Res_bind]. rewrite ev_eq_key.
  destruct (bool_decide_reflect (key cv = key ev)) as [Heq|Heq]; cbn [negb].
  - rewrite Heq in *. pose proof (removeItem_removes h (key ev) (c :: l') bs2 e c Hc2 Hok2) as Hr.
    unfold removes in Hr. case_bool_decide as He; [|by rewrite Hr].
    assert (e ∈ c :: l') as Hel.
    { rewrite bin_at_cons, (bool_decide_eq_true_2 (key ev = key ev)) in He by done.
      by rewrite bin_at_other, app_nil_r in He by (eapply bins_ok_other; [done | apply key_lt_irrefl]). }
    destruct (removeItem_chain _ _ _ _ _ e c Hc2 Hok2 eq_refl Hel) as (h' & top' & -> & H1 & H2 & H3).
    cbn [mbind Res_bind]. eexists _, _. split; [done|]. split; [|by rewrite store_data].
    rewrite bins_remove_app, <- app_assoc, bins_remove_cons_eq by done.
    pose proof (bo_nodup _ Hok) as Hnd. rewrite items_app, !items_cons in Hnd.
    apply NoDup_app in Hnd as (_ & Hd1 & Hnd). apply NoDup_app in Hnd as (_ & Hd2 & _).
    apply (chain_retarget h _ _ _ _ _ ((key ev, c :: l') :: bs2)); [done | done | | done |].
    + intros x Hx. apply H3. intros Hx2. apply elem_of_app in Hx as [Hx|Hx]; [apply (Hd1 x Hx) | apply (Hd2 x Hx)]; set_solver.
    + rewrite items_bin. unfold without. intros Hx. apply (Hd2 p'); [by left|].
      apply elem_of_app in Hx as [Hx|Hx]; [apply list_elem_of_filter in Hx as [_ Hx]|]; apply elem_of_app; auto.
  - cbn in Hnb. rewrite bin_at_cons, (bool_decide_eq_false_2 (key cv = key ev)) by done.
    rewrite bin_at_other, bool_decide_eq_false_2; [done | apply not_elem_of_nil | by eapply bins_ok_other].
Qed.

Lemma remove_chain self h bs p e ev :
  chain h bs p -> bins_ok bs -> h !! e = Some ev -> queue ev = Some self ->
  if bool_decide (e ∈ items bs)
  then exists h' p', remove self e p h = Ok (h', p') /\ chain h' (bins_remove (key ev) e bs) p' /\ data <$> h' = data <$> h
  else remove self e p h = Err (Abort "event not found!").
Proof.
  intros Hc Hok E Hq. rewrite (bool_decide_ext _ (e ∈ bin_at (key ev) bs)).
  2:{ split; [intros He; by eapply bin_at_chain | apply bin_at_items]. }
  change (removes e (key ev) h bs (remove self e p h)).
  unfold remove, deref. destruct bs as [|[k l] rest]; [by rewrite Hc|].
  destruct (chain_cons _ _ _ _ _ Hc) as (hd & l' & hv & -> & -> & Ehd & <- & Hs & Hc').
  { pose proof (bo_nonempty _ Hok) as H. by inversion H. }
  rewrite E, Ehd. cbn [of_option mbind Res_bind]. rewrite Hq, bool_decide_eq_true_2 by done. cbn [guard_assert mbind Res_bind].
  rewrite ev_eq_key. case_bool_decide as Heq.
  - rewrite Heq in *. by apply removeItem_removes.
  - destruct (find_bin_chain ev h (chase_fuel h) rest (key hv) l' hd hv Hc Hok Ehd) as
      (p' & c' & bs1 & k' & l2 & bs2 & -> & Eq & Hb & Hnb & Hc2).
    { unfold chase_fuel. pose proof (chain_size _ _ _ Hc Hok) as Hsz. cbn in Hsz. lia. }
    apply before_other, (passed_bins (fun k => k <> key ev) _ _ _ _ _ Eq) in Hb; [|done].
    rewrite Eq in *. cbn [mbind Res_bind]. by apply removes_behind.
Qed.

(** ** The head *)

Definition bins_pop (bs : Bins) : Bins :=
  match bs with [] => [] | (k, l) :: bs' => bin k (tail l) bs' end.

Lemma bins_pop_ok k e l bs : bins_ok ((k, e :: l) :: bs) -> bins_ok (bins_pop ((k, e :: l) :: bs)).
Proof.
  intros Hok. pose proof (bo_nodup _ Hok) as Hnd. cbn in Hnd. apply NoDup_cons in Hnd as [He Hnd].
  replace (bins_pop _) with (bins_remove k e ((k, e :: l) :: bs)).
  - apply (bins_remove_ok k e _ (e :: l)); [done | by left | by left].
  - rewrite bins_remove_cons_eq. cbn [bins_pop tail]. rewrite without_cons_eq; [done|].
    intros H. apply He. apply elem_of_app. by left.
Qed.

Lemma pop_refines h k e l bs p ev :
  chain h ((k, e :: l) :: bs) p -> bins_ok ((k, e :: l) :: bs) -> h !! e = Some ev ->
  exists h' p', pop_head p h = Ok (e, h', p') /\ chain h' (bins_pop ((k, e :: l) :: bs)) p' /\
    data <$> h' = <[e := data (clear_flag Scheduled ev)]> (data <$> h).
Proof.
  intros Hc Hok E. destruct (chain_cons _ _ _ _ _ Hc) as (? & ? & ev' & [= <- <-] & -> & E' & Hk & Hs & Hc'); [done|].
  rewrite E in E'. injection E' as <-. pose proof (bo_nodup _ Hok) as Hnd. rewrite items_cons in Hnd.
  apply NoDup_app in Hnd as (Hnd & Hd & _). apply NoDup_cons in Hnd as [He Hnd].
  assert (data <$> store e (clear_flag Scheduled) h = <[e:=data (clear_flag Scheduled ev)]> (data <$> h)) as Hdata.
  { unfold store. rewrite <- fmap_insert. f_equal. apply map_eq. intros x. destruct (decide (x = e)) as [->|Hx].
    - by rewrite lookup_alter_eq, lookup_insert_eq, E.
    - by rewrite lookup_alter_ne, lookup_insert_ne. }
  unfold pop_head, deref. cbn [of_option mbind Res_bind]. rewrite E. cbn [of_option mbind Res_bind bins_pop tail].
  destruct l as [|n l].
  - rewrite Hs. eexists _, _. split; [done|]. split; [|done]. cbn [bin]. apply (chain_same h); [|done].
    intros x Hx. apply store_other. intros ->. apply (Hd e); [by left | done].
  - destruct Hs as (-> & nv & En & Hkn & Hs). rewrite store_other, En by set_solver. cbn [of_option mbind Res_bind bin].
    eexists _, _. split; [done|]. split; [|by rewrite store_data].
    apply NoDup_cons in Hnd as [Hn Hnd].
    eapply chain_intro; [apply store_same; rewrite store_other; [done | set_solver] | done | |]; cbn.
    + apply (stack_same h); [|done]. intros x Hx. rewrite !store_other; [done | set_solver | set_solver].
    + apply (chain_same h); [|done]. intros x Hx. rewrite !store_other; [done | |].
      * intros ->. apply (Hd e); [by left | done].
      * intros ->. apply (Hd n); [set_solver | done].
Qed.

(** ** Traversals *)

Lemma walk_bin_stack h k l fuel : forall p, stack h k l p -> (length l < fuel)%nat -> walk_bin fuel h p = Ok l.
Proof.
  revert fuel. induction l as [|e l IH]; intros [|fuel] p Hs Hf; cbn in Hf; try lia.
  - by rewrite Hs.
  - destruct Hs as (-> & ev & E & _ & Hs). cbn [walk_bin]. unfold deref. rewrite E. cbn [of_option mbind Res_bind].
    rewrite IH; [done | done | lia].
Qed.

Lemma walk_chain h fuel : forall bs p, chain h bs p -> bins_ok bs -> (length bs < fuel)%nat ->
  walk fuel h p = Ok (items bs).
Proof.
  induction fuel as [|fuel IH]; intros bs p Hc Hok Hf; [lia|]. destruct bs as [|[k l] bs]; [by rewrite Hc|].
  pose proof (chain_first_size _ _ _ _ _ Hc Hok) as Hsz.
  assert (stack h k l p) as Hs by apply Hc.
  destruct (chain_cons _ _ _ _ _ Hc) as (e & l' & ev & -> & -> & E & Hk & _ & Hc').
  { pose proof (bo_nonempty _ Hok) as H. by inversion H. }
  cbn [walk]. rewrite (walk_bin_stack h k (e :: l') (chase_fuel h) _ Hs) by (unfold chase_fuel; lia).
  cbn [mbind Res_bind]. unfold deref. rewrite E. cbn [of_option mbind Res_bind].
  rewrite (IH bs); [done | done | by eapply bins_ok_tail | cbn in Hf; lia].
Qed.

Lemma verify_bin_stack h k fuel : forall l p t pr seen,
  stack h k l p -> NoDup l -> (forall x, x ∈ l -> x ∉ seen) -> (length l < fuel)%nat -> ~ key_lt k (t, pr) ->
  verify_bin fuel h t pr seen p = Ok (Some (match l with [] => (t, pr) | _ => k end, reverse l ++ seen)).
Proof.
  induction fuel as [|fuel IH]; intros l p t pr seen Hs Hnd Hseen Hf Hk; [lia|].
  destruct l as [|e l]; [by rewrite Hs|]. destruct Hs as (-> & ev & E & <- & Hs). cbn [verify_bin]. unfold deref. rewrite E.
  cbn [of_option mbind Res_bind]. unfold key_lt, key in Hk. cbn in Hk.
  destruct (Z.ltb_spec (_when ev) t); [lia|]. apply NoDup_cons in Hnd as [He Hnd].
  replace (Z.eqb (_when ev) t && Z.ltb (_priority ev) pr) with false by lia.
  rewrite bool_decide_eq_false_2 by (apply Hseen; by left).
  rewrite (IH l); [|done|done| |cbn in Hf; lia|apply key_lt_irrefl].
  - rewrite reverse_cons, <- app_assoc. by destruct l.
  - intros x Hx. apply not_elem_of_cons. split; [by intros -> | apply Hseen; by right].
Qed.

Lemma verify_bins_chain h fuel : forall bs p t pr seen,
  chain h bs p -> bins_ok bs -> (forall x, x ∈ items bs -> x ∉ seen) -> (length bs < fuel)%nat ->
  verify_bins fuel h t pr seen p = Ok (match bs with [] => true | (k, _) :: _ => bool_decide (~ key_lt k (t, pr)) end).
Proof.
  induction fuel as [|fuel IH]; intros bs p t pr seen Hc Hok Hseen Hf; [lia|]. destruct bs as [|[k l] bs]; [by rewrite Hc|].
  pose proof (chain_first_size _ _ _ _ _ Hc Hok) as Hsz.
  assert (stack h k l p) as Hs by apply Hc.
  destruct (chain_cons _ _ _ _ _ Hc) as (e & l' & ev & -> & -> & E & Hk & _ & Hc').
  { pose proof (bo_nonempty _ Hok) as H. by inversion H. }
  cbn [verify_bins]. pose proof (bo_nodup _ Hok) as Hnd. rewrite items_cons in Hnd, Hseen.
  apply NoDup_app in Hnd as (Hnd & Hd & _). case_bool_decide as Hlt.
  - rewrite (verify_bin_stack h k _ (e :: l') _ _ _ _ Hs Hnd); [| set_solver | unfold chase_fuel; lia | done].
    cbn [mbind Res_bind]. destruct k as [t' pr']. unfold deref. rewrite E. cbn [of_option mbind Res_bind].
    rewrite (IH bs); [| done | by eapply bins_ok_tail | | cbn in Hf; lia].
    + destruct bs as [|[k2 l2] bs]; [done|]. rewrite bool_decide_eq_true_2; [done|].
      assert (key_lt (t', pr') k2) by (eapply (bins_ok_above _ _ _ _ _ Hok); by left). intros ?.
      apply (key_lt_irrefl k2). by transitivity (t', pr').
    + intros x Hx Hin. apply elem_of_app in Hin as [Hin|Hin].
      * rewrite elem_of_reverse in Hin. by apply (Hd x).
      * apply (Hseen x); [|done]. apply elem_of_app. by right.
  - assert (key_lt k (t, pr)) as Hk2 by (destruct (decide (key_lt k (t, pr))); done).
    cbn [chase_fuel verify_bin]. unfold deref. rewrite E. cbn [of_option mbind Res_bind]. subst k.
    unfold key_lt, key in Hk2. cbn in Hk2. destruct (Z.ltb_spec (_when ev) t); [done|].
    by replace (Z.eqb (_when ev) t && Z.ltb (_priority ev) pr) with true by lia.
Qed.

(** ** The order of service *)

Fixpoint insert_all (l : list EvId) (p : option EvId) (h : Heap) : Res (Heap * option EvId) :=
  match l with [] => Ok (h, p) | e :: l => '(h, p) ← insert e p h; insert_all l p h end.
Fixpoint pop_all (n : nat) (p : option EvId) (h : Heap) : Res (list EvId) :=
  match n with
  | O => Ok []
  | S n => '(e, h, p) ← pop_head p h; cons e <$> pop_all n p h
  end.

Definition key_at (h : Heap) (e : EvId) : Key := from_option key (0, 0) (h !! e).

Lemma key_at_data (h h' : Heap) : data <$> h' = data <$> h -> forall e, key_at h' e = key_at h e.
Proof.
  intros H e. unfold key_at. destruct (h !! e) as [ev|] eqn:E.
  - destruct (data_lookup h h' e ev H E) as (ev' & -> & Hd). by apply data_key.
  - apply (f_equal (lookup e)) in H. rewrite !lookup_fmap, E in H. by destruct (h' !! e).
Qed.

Lemma bin_at_insert k k' e bs :
  bin_at k (bins_insert k' e bs) = if bool_decide (k' = k) then e :: bin_at k bs else bin_at k bs.
Proof.
  induction bs as [|[k2 l] bs IH]; cbn [bins_insert].
  - rewrite bin_at_cons. by case_bool_decide.
  - destruct (bool_decide_reflect (key_lt k' k2)) as [H1|H1]; [|destruct (bool_decide_reflect (k' = k2)) as [H2|H2]].
    + rewrite (bin_at_cons k'). by case_bool_decide.
    + subst k2. rewrite !bin_at_cons. by destruct (bool_decide_reflect (k' = k)).
    + rewrite !bin_at_cons, IH. destruct (bool_decide_reflect (k2 = k)), (bool_decide_reflect (k' = k)); congruence.
Qed.

Lemma filter_all {A} (P : A -> Prop) `{!forall x, Decision (P x)} l : Forall P l -> filter P l = l.
Proof. induction 1; [done|]. rewrite filter_cons_True; congruence. Qed.
Lemma filter_none {A} (P : A -> Prop) `{!forall x, Decision (P x)} l : Forall (fun x => ~ P x) l -> filter P l = [].
Proof. induction 1; [done|]. rewrite filter_cons_False; congruence. Qed.

Lemma bin_at_filter h bs p k : chain h bs p -> bin_at k bs = filter (fun e => key_at h e = k) (items bs).
Proof.
  revert p. induction bs as [|[k' l] bs IH]; intros p Hc; [done|]. rewrite bin_at_cons, items_cons, filter_app.
  destruct Hc as (Hs & e & ev & _ & _ & Hc). rewrite (IH _ Hc).
  assert (Forall (fun e => key_at h e = k') l) as Hl.
  { apply Forall_forall. intros x Hx. destruct (stack_lookup _ _ _ _ _ Hs Hx) as (xv & Ex & <-). unfold key_at. by rewrite Ex. }
  destruct (bool_decide_reflect (k' = k)) as [->|H].
  - by rewrite (filter_all _ l Hl).
  - rewrite (filter_none _ l); [done|]. eapply Forall_impl; [exact Hl|]. intros x Hx. cbn. congruence.
Qed.

(** The events in the order of the queue are sorted by their keys. *)
Lemma items_sorted h bs p : chain h bs p -> bins_ok bs -> StronglySorted (fun a b => key_le (key_at h a) (key_at h b)) (items bs).
Proof.
  revert p. induction bs as [|[k l] bs IH]; intros p Hc Hok; [constructor|]. rewrite items_cons.
  assert (forall x, x ∈ l -> key_at h x = k) as Hl.
  { intros x Hx. destruct Hc as (Hs & _). destruct (stack_lookup _ _ _ _ _ Hs Hx) as (xv & Ex & <-). unfold key_at. by rewrite Ex. }
  destruct Hc as (_ & e & ev & _ & _ & Hc). specialize (IH _ Hc (bins_ok_tail _ _ Hok)).
  assert (forall x, x ∈ items bs -> key_lt k (key_at h x)) as Hbs.
  { intros x Hx. destruct (chain_lookup _ _ _ _ Hc Hx) as (k2 & l2 & xv & Hin & _ & Ex & Hkx). unfold key_at. rewrite Ex.
    cbn. rewrite Hkx. by apply (bins_ok_above _ _ _ _ _ Hok Hin). }
  clear Hok Hc. induction l as [|x l IHl]; [done|]. cbn [app]. constructor; [apply IHl; set_solver|].
  apply Forall_forall. intros y Hy. rewrite (Hl x) by (by left). apply elem_of_app in Hy as [Hy|Hy].
  - rewrite Hl by (by right). clear. key_solve.
  - specialize (Hbs y Hy). clear -Hbs. generalize dependent (key_at h y). intros. key_solve.
Qed.

Lemma insert_all_chain l : forall h bs p,
  chain h bs p -> bins_ok bs -> NoDup l -> (forall e, e ∈ l -> e ∉ items bs /\ is_Some (h !! e)) ->
  exists h' p' bs', insert_all l p h = Ok (h', p') /\ chain h' bs' p' /\ bins_ok bs' /\ data <$> h' = data <$> h /\
    items bs' ≡ₚ l ++ items bs /\
    forall k, bin_at k bs' = filter (fun e => key_at h e = k) (reverse l) ++ bin_at k bs.
Proof.
  induction l as [|e l IH]; intros h bs p Hc Hok Hnd Hl; [by exists h, p, bs|]. apply NoDup_cons in Hnd as [He Hnd].
  destruct (Hl e) as [Hout [ev E]]; [by left|].
  destruct (insert_refines h bs p e ev Hc Hok E Hout) as (h1 & p1 & Hi & Hc1 & Hd1).
  destruct (IH h1 (bins_insert (key ev) e bs) p1) as (h2 & p2 & bs2 & Hi2 & Hc2 & Hok2 & Hd2 & Hp & Hk);
    [done | by apply bins_insert_ok | done | |].
  { intros x Hx. destruct (Hl x) as [Hx1 [xv Ex]]; [by right|]. split.
    - rewrite bins_insert_items. apply not_elem_of_cons. split; [by intros -> | done].
    - destruct (data_lookup h h1 x xv Hd1 Ex) as (xv' & ? & _). by exists xv'. }
  exists h2, p2, bs2. cbn [insert_all]. rewrite Hi. split; [done|]. split; [done|]. split; [done|].
  split; [congruence|]. split; [rewrite Hp, bins_insert_items; solve_Permutation|].
  intros k. rewrite Hk, bin_at_insert, reverse_cons, filter_app, <- app_assoc.
  assert (key_at h e = key ev) as Hke by (unfold key_at; by rewrite E).
  rewrite (list_filter_iff _ (fun e => key_at h e = k)) by (intros x; by rewrite (key_at_data h h1 Hd1)).
  f_equal. destruct (bool_decide_reflect (key ev = k)) as [Hev|Hev].
  - by rewrite filter_cons_True by congruence.
  - by rewrite filter_cons_False by congruence.
Qed.

Lemma pop_all_chain n : forall h bs p, chain h bs p -> bins_ok bs -> length (items bs) = n -> pop_all n p h = Ok (items bs).
Proof.
  induction n as [|n IH]; intros h bs p Hc Hok Hn; [by destruct (items bs)|].
  destruct bs as [|[k l] bs]; [done|]. pose proof (bo_nonempty _ Hok) as Hne.
  destruct l as [|e l]; [by inversion Hne|].
  destruct (chain_lookup _ _ _ e Hc) as (_ & _ & ev & _ & _ & E & _); [by left|].
  destruct (pop_refines h k e l bs p ev Hc Hok E) as (h' & p' & Hp & Hc' & _). cbn [pop_all]. rewrite Hp. cbn [mbind Res_bind].
  rewrite (IH h' _ _ Hc' (bins_pop_ok _ _ _ _ Hok)).
  - cbn [bins_pop tail]. by rewrite items_bin.
  - cbn [bins_pop tail]. rewrite items_bin. cbn in Hn. by injection Hn.
Qed.

End EventQueueSpec.
