(* ===== verification/EventOps.v ===== *)
(** * Scheduling ([sim/eventq_impl.hh], [sim/eventq.cc], [sim/global_event.cc], [sim/sim_events.cc])

    The methods of queues, events and global events, on the whole state. The
    mutexes protect against other threads and do nothing here. *)

From S2P Require Import Prelude.
From S2P Require Import EventQueue.
From stdpp Require Import gmap.
#[local] Open Scope Z_scope.

Module EventOps.
Import EventQueue.

Section Ops.
Context {A : Type}.
Implicit Types w : World A.

Definition numMainEventQueues w : nat := length (queues w).
Definition get_queue w (self : nat) : Res Queue := of_option (queues w !! self).
Definition upd_queue (self : nat) (g : Queue -> Queue) w : World A := w <| queues ::= alter g self |>.
Definition upd_event (e : EvId) (g : Event -> Event) w : World A := w <| heap ::= store e g |>.

(** [getEventQueue]: as many queues as the index asks for. *)
Definition getEventQueue (index : nat) w : World A :=
  w <| queues ::= fun qs => qs ++ replicate (S index - length qs) (mkQueue None 0 []) |>.

Definition curTick w : Res Z := q ← get_queue w (_curEventQueue w); Ok (_curTick q).
Definition setCurTick (self : nat) (newVal : Z) w : World A := upd_queue self (fun q => q <| _curTick := newVal |>) w.
Definition nextTick (self : nat) w : Res Z :=
  q ← get_queue w self; hd ← of_option (head q); ev ← deref (heap w) hd; Ok (_when ev).

(** The constructor of [Event]; [_when] is not set. *)
Definition new_event (p f : Z) (cls : EventClass) w : Res (World A * EvId) :=
  _ ← guard_assert (Z.eqb (Z.ldiff f PublicWrite) 0) "f.noneSet(~PublicWrite)";
  let e := fresh (dom (heap w)) in
  let n := instanceCounter w + 1 in
  let ev := mkEvent None None 0 p (Z.lor Initialized f) n None cls in
  Ok (w <| instanceCounter := n |> <| heap ::= <[e := ev]> |>, e).

(** [delete event]: a local event with [AutoDelete] in slot 0 deletes its
    global event. *)
Definition delete_event (e : EvId) w : Res (World A) :=
  ev ← deref (heap w) e;
  w ← match event_class ev with
      | Wrapper _ => Ok w
      | BarrierEvent g | SyncBarrierEvent g =>
          auto ← isFlagSet AutoDelete ev;
          if (auto : bool) then
            gl ← of_option (globals w !! g);
            first ← of_option (barrierEvent gl !! 0%nat);
            if bool_decide (first = Some e) then Ok (w <| globals ::= delete g |>) else Ok w
          else Ok w
      end;
  _ ← guard_assert (negb (scheduled ev)) "!scheduled()";
  Ok (w <| heap ::= delete e |>).

(** ** A queue *)

Definition queue_insert (self : nat) (e : EvId) w : Res (World A) :=
  q ← get_queue w self;
  '(h, hd) ← insert e (head q) (heap w);
  Ok (upd_queue self (fun q => q <| head := hd |>) (w <| heap := h |>)).
Definition queue_remove (self : nat) (e : EvId) w : Res (World A) :=
  q ← get_queue w self;
  '(h, hd) ← remove self e (head q) (heap w);
  Ok (upd_queue self (fun q => q <| head := hd |>) (w <| heap := h |>)).

Definition asyncInsert (self : nat) (e : EvId) w : World A :=
  upd_queue self (fun q => q <| async_queue ::= fun l => l ++ [e] |>) w.

(** The events in the order they were added. *)
Definition handleAsyncInsertions (self : nat) w : Res (World A) :=
  _ ← guard_assert (bool_decide (self = _curEventQueue w)) "this == curEventQueue()";
  q ← get_queue w self;
  w ← foldM (fun w e => queue_insert self e w) w (async_queue q);
  Ok (upd_queue self (fun q => q <| async_queue := [] |>) w).

Definition schedule (self : nat) (e : EvId) (when : Z) (global : bool) w : Res (World A) :=
  q ← get_queue w self;
  _ ← guard_assert (Z.leb (_curTick q) when) "when >= getCurTick()";
  ev ← deref (heap w) e;
  _ ← guard_assert (negb (scheduled ev)) "!event->scheduled()";
  _ ← guard_assert (initialized ev) "event->initialized()";
  let w := upd_event e (setWhen when self) w in
  w ← (if inParallelMode w && (negb (bool_decide (self = _curEventQueue w)) || global)
       then Ok (asyncInsert self e w) else queue_insert self e w);
  Ok (upd_event e (set_flag Scheduled) w).

Definition deschedule (self : nat) (e : EvId) w : Res (World A) :=
  ev ← deref (heap w) e;
  _ ← guard_assert (scheduled ev) "event->scheduled()";
  _ ← guard_assert (initialized ev) "event->initialized()";
  _ ← guard_assert (negb (inParallelMode w) || bool_decide (self = _curEventQueue w))
        "!inParallelMode || this == curEventQueue()";
  w ← queue_remove self e w;
  let w := upd_event e (fun ev => clear_flag Scheduled (clear_flag Squashed ev)) w in
  ev ← deref (heap w) e;
  if Flags.isSet (flags ev) AutoDelete then delete_event e w else Ok w.

Definition reschedule (self : nat) (e : EvId) (when : Z) (always : bool) w : Res (World A) :=
  q ← get_queue w self;
  _ ← guard_assert (Z.leb (_curTick q) when) "when >= getCurTick()";
  ev ← deref (heap w) e;
  _ ← guard_assert (always || scheduled ev) "always || event->scheduled()";
  _ ← guard_assert (initialized ev) "event->initialized()";
  _ ← guard_assert (negb (inParallelMode w) || bool_decide (self = _curEventQueue w))
        "!inParallelMode || this == curEventQueue()";
  w ← (if scheduled ev then queue_remove self e w else Ok w);
  let w := upd_event e (setWhen when self) w in
  w ← queue_insert self e w;
  Ok (upd_event e (fun ev => set_flag Scheduled (clear_flag Squashed ev)) w).

(** [EventManager]: an object's methods, on its queue. *)
Definition EventManager_schedule (eventq : nat) (e : EvId) (when : Z) : World A -> Res (World A) :=
  schedule eventq e when false.
Definition EventManager_deschedule (eventq : nat) (e : EvId) : World A -> Res (World A) := deschedule eventq e.
Definition EventManager_reschedule (eventq : nat) (e : EvId) (when : Z) (always : bool) : World A -> Res (World A) :=
  reschedule eventq e when always.

(** What [Event::serialize] writes: time, priority, and the flags as a
    [short]. *)
Definition to_short (x : Z) : Z := if Z.ltb (x mod 65536) 32768 then x mod 65536 else x mod 65536 - 65536.
Definition of_short (x : Z) : Z := x mod 65536.
Definition Event_serialize (ev : Event) : Z * Z * Z := (_when ev, _priority ev, to_short (flags ev)).

(** [Event::unserialize], with the values of the checkpoint. *)
Definition Event_unserialize (cp : Z * Z * Z) (eventq : nat) (e : EvId) w : Res (World A) :=
  ev ← deref (heap w) e;
  w ← (if scheduled ev then deschedule eventq e w else Ok w);
  let '(when, priority, short_flags) := cp in
  ev ← deref (heap w) e;
  _ ← guard_assert (initialized ev) "initialized()";
  let f := Flags.set (of_short short_flags) Initialized in
  let wasScheduled := Flags.isSet f Scheduled && negb (Flags.isSet f Squashed) in
  let w := upd_event e (fun ev => ev <| _when := when |> <| _priority := priority |>
                                     <| flags := Flags.clear f (Z.lor Squashed Scheduled) |>) w in
  if wasScheduled then schedule eventq e when false w else Ok w.

(** ** Global events *)

Definition local_class (c : GlobalClass) (g : GId) : EventClass :=
  match c with GlobalSyncEvent _ => SyncBarrierEvent g | _ => BarrierEvent g end.

(** [BaseGlobalEvent::BaseGlobalEvent]: a local event for each queue. *)
Definition new_global (p f : Z) (c : GlobalClass) w : Res (World A * GId) :=
  let g := fresh (dom (globals w)) in
  let n := Z.of_nat (numMainEventQueues w) in
  '(w, locals) ← foldM (fun '(w, locals) (_ : nat) =>
                     '(w, e) ← new_event p f (local_class c g) w; Ok (w, locals ++ [Some e]))
                   (w, []) (seq 0 (numMainEventQueues w));
  Ok (w <| globals ::= <[g := mkGlobal (mkBarrier n 0 n) locals c]> |>, g).

(** A loop over the queues and the local events. *)
Definition for_locals (g : GId) (body : World A -> nat -> EvId -> Res (World A)) w : Res (World A) :=
  gl ← of_option (globals w !! g);
  foldM (fun w i => o ← of_option (barrierEvent gl !! i); e ← of_option o; body w i e) w
    (seq 0 (numMainEventQueues w)).

Definition global_schedule (g : GId) (when : Z) : World A -> Res (World A) :=
  for_locals g (fun w i e => schedule i e when true w).

Definition global_deschedule (g : GId) w : Res (World A) :=
  let q := _curEventQueue w in
  w ← for_locals g (fun w i e =>
        ev ← deref (heap w) e;
        if scheduled ev then deschedule i e (w <| _curEventQueue := i |>) else Ok w) w;
  Ok (w <| _curEventQueue := q |>).

Definition global_reschedule (g : GId) (when : Z) : World A -> Res (World A) :=
  for_locals g (fun w i e =>
    ev ← deref (heap w) e;
    if scheduled ev then reschedule i e when false w else schedule i e when true w).

Definition global_scheduled (g : GId) w : Res bool :=
  gl ← of_option (globals w !! g);
  foldM (fun b i => if (b : bool) then Ok true else
                      o ← of_option (barrierEvent gl !! i); e ← of_option o;
                      ev ← deref (heap w) e; Ok (scheduled ev))
    false (seq 0 (numMainEventQueues w)).

Definition global_when (g : GId) w : Res Z :=
  _ ← guard_assert (negb (bool_decide (numMainEventQueues w = 0%nat))) "numMainEventQueues > 0";
  gl ← of_option (globals w !! g);
  o ← of_option (barrierEvent gl !! 0%nat); e ← of_option o;
  ev ← deref (heap w) e; Ok (_when ev).

(** [BaseGlobalEvent::~BaseGlobalEvent], when it is not a local event that
    deletes it. A local event that deletes it again is a double free. *)
Definition delete_global (g : GId) w : Res (World A) :=
  w ← for_locals g (fun w _ e => delete_event e w) w;
  _ ← of_option (globals w !! g);
  Ok (w <| globals ::= delete g |>).

(** [new GlobalSimLoopExitEvent(when, cause, code, repeat, serialize)], and
    the other subclasses, which schedule themselves. *)
Definition new_exit_event (when : Z) (cause : string) (code repeat : Z) (serialize : bool) w : Res (World A * GId) :=
  '(w, g) ← new_global Sim_Exit_Pri (Z.lor IsExitEvent (if serialize then AutoSerialize else 0))
              (GlobalSimLoopExitEvent cause code repeat) w;
  w ← global_schedule g when w; Ok (w, g).

Definition exitSimLoop (message : string) (exit_code when repeat : Z) (serialize : bool) w : Res (World A) :=
  '(w, _) ← new_exit_event (u64 (when + simQuantum w)) message exit_code repeat serialize w; Ok w.

Definition new_sync_event (when repeat p f : Z) w : Res (World A * GId) :=
  '(w, g) ← new_global p f (GlobalSyncEvent repeat) w;
  w ← global_schedule g when w; Ok (w, g).

Definition schedStatEvent (dump reset : bool) (when repeat : Z) w : Res (World A) :=
  '(w, g) ← new_global Stat_Event_Pri 0 (StatEvent dump reset repeat) w;
  global_schedule g (u64 (when + simQuantum w)) w.

(** [Barrier::wait]: whether the caller is the last one; the others wait. *)
Definition Barrier_wait (b : Barrier) : Barrier * bool :=
  let left := u32 (numLeft b - 1) in
  if Z.eqb left 0 then (mkBarrier (numWaiting b) (u32 (generation b + 1)) (numWaiting b), true)
  else (mkBarrier (numWaiting b) (generation b) left, false).

(** [globalBarrier], for a thread that never gets help: with one queue it is
    always the last to arrive. *)
Definition globalBarrier (g : GId) w : Res (World A) :=
  gl ← of_option (globals w !! g);
  let '(b, last) := Barrier_wait (barrier gl) in
  if (last : bool) then Ok (w <| globals ::= <[g := mkGlobal b (barrierEvent gl) (global_class gl)]> |>)
  else Err (Exit "waits for the other queues").

(** [process] of the global events. What the statistics write is left out. *)
Definition global_process (g : GId) w : Res (World A) :=
  gl ← of_option (globals w !! g);
  now ← curTick w;
  match global_class gl with
  | GlobalSimLoopExitEvent _ _ repeat | GlobalSyncEvent repeat =>
      if bool_decide (repeat = 0) then Ok w else global_schedule g (u64 (now + repeat)) w
  | StatEvent dump reset repeat =>
      if bool_decide (repeat = 0) then Ok w else schedStatEvent dump reset (u64 (now + repeat)) repeat w
  end.

End Ops.

End EventOps.
