(* ===== verification/SimLoop.v ===== *)
(** * The simulation loop ([sim/eventq.cc:serviceOne], [sim/simulate.cc])

    As GemDroid changed it: with GemDroid enabled only the event with instance
    number 13 is processed, and whether an event ends the simulation is not a
    property of the event but of the global [true_fetch]. One thread is
    modelled; what the objects do when their events are processed
    ([process_wrapped]) and the I/O of [pollQueue] are parameters. *)

From S2P Require Import Prelude.
From S2P Require Import EventQueue.
From S2P Require Import EventOps.
From stdpp Require Import gmap.
#[local] Open Scope Z_scope.

Module SimLoop.
Import EventQueue.
Import EventOps.

(** The simulated objects as the loop uses them. *)
Class Objects (A : Type) := {
  true_fetch : A -> bool;
  process_wrapped : Z -> World A -> Res (World A);
  pollQueue_service : World A -> Res (World A)
}.

Section Loop.
Context {A : Type} `{Objects A}.
Implicit Types w : World A.

(** The virtual method [process]. *)
Definition process (e : EvId) w : Res (World A) :=
  ev ← deref (heap w) e;
  match event_class ev with
  | Wrapper object => process_wrapped object w
  | BarrierEvent g => w ← globalBarrier g w; w ← global_process g w; globalBarrier g w
  | SyncBarrierEvent g =>
      w ← globalBarrier g w; w ← global_process g w; w ← globalBarrier g w;
      handleAsyncInsertions (_curEventQueue w) w
  end.

Definition isExitEvent w : bool := bool_decide (true_fetch (objects w) = false).

(** [serviceOne]: the event that ends the simulation, or a null pointer. *)
Definition serviceOne (self : nat) w : Res (World A * option EvId) :=
  q ← get_queue w self;
  '(event, h, hd) ← pop_head (head q) (heap w);
  let w := upd_queue self (fun q => q <| head := hd |>) (w <| heap := h |>) in
  ev ← deref (heap w) event;
  let finish w :=
    ev ← deref (heap w) event;
    if Flags.isSet (flags ev) AutoDelete && negb (scheduled ev)
    then w ← delete_event event w; Ok (w, None) else Ok (w, None) in
  if negb (squashed ev) then
    let w := setCurTick self (_when ev) w in
    w ← (if negb (gemdroid_enable w) || bool_decide (instance ev = 13) then process event w else Ok w);
    if isExitEvent w then
      ev ← deref (heap w) event;
      _ ← guard_assert (negb (Flags.isSet (flags ev) AutoDelete) || negb (Flags.isSet (flags ev) IsMainQueue))
            "!AutoDelete || !IsMainQueue";
      Ok (w, Some event)
    else finish w
  else finish (upd_event event (clear_flag Squashed) w).

Fixpoint serviceEvents (fuel : nat) (self : nat) (when : Z) w : Res (World A) :=
  match fuel with
  | O => Err OutOfFuel
  | S fuel =>
      q ← get_queue w self;
      if empty q then Ok (setCurTick self when w)
      else
        next ← nextTick self w;
        if Z.ltb when next then Ok (setCurTick self when w)
        else '(w, _) ← serviceOne self w; serviceEvents fuel self when w
  end.

(** [testAndClearAsyncEvent] and what it guards; [true]: [return NULL]. *)
Definition async_requests (self : nat) w : Res (World A * bool) :=
  if async_event w then
    let w := w <| async_event := false |> in
    w ← (if async_statdump w || async_statreset w then
           now ← curTick w;
           w ← schedStatEvent (async_statdump w) (async_statreset w) now 0 w;
           Ok (w <| async_statdump := false |> <| async_statreset := false |>)
         else Ok w);
    w ← (if async_exit w then
           let w := w <| async_exit := false |> in
           now ← curTick w; exitSimLoop "user interrupt received" 0 now 0 false w
         else Ok w);
    w ← (if async_io w then pollQueue_service (w <| async_io := false |>) else Ok w);
    if async_exception w then Ok (w <| async_exception := false |>, true) else Ok (w, false)
  else Ok (w, false).

(** One turn of [doSimLoop]; [Some e]: [return e]. *)
Definition sim_turn (self : nat) w : Res (World A * option (option EvId)) :=
  q ← get_queue w self;
  _ ← guard_assert (negb (empty q)) "!eventq->empty()";
  now ← curTick w;
  next ← nextTick self w;
  _ ← guard_assert (Z.leb now next) "event scheduled in the past";
  '(w, exit_event1) ← (if bool_decide (true_fetch (objects w) = false) then
                         w ← exitSimLoop "Completed trace simulation" 0 now 0 false w; serviceOne self w
                       else Ok (w, None));
  match exit_event1 with
  | Some e => Ok (w, Some (Some e))
  | None =>
      '(w, exit_event) ← serviceOne self w;
      match exit_event with
      | Some e =>
          if negb (gemdroid_enable w) then Ok (w, Some (Some e))
          else '(w, stop) ← async_requests self w; Ok (w, if stop : bool then Some None else None)
      | None => '(w, stop) ← async_requests self w; Ok (w, if stop : bool then Some None else None)
      end
  end.

(** [while (1)], at most [fuel] turns; [None]: still running. *)
Fixpoint sim_turns (fuel : nat) (self : nat) w : Res (World A * option (option EvId)) :=
  match fuel with
  | O => Ok (w, None)
  | S fuel =>
      '(w, ret) ← sim_turn self w;
      match ret with Some e => Ok (w, Some e) | None => sim_turns fuel self w end
  end.

Definition doSimLoop (fuel : nat) (self : nat) w : Res (World A * option EvId) :=
  w ← handleAsyncInsertions self (w <| _curEventQueue := self |>);
  '(w, ret) ← sim_turns fuel self w;
  match ret with Some e => Ok (w, e) | None => Err OutOfFuel end.

(** The virtual method [globalEvent]. *)
Definition globalEvent (e : EvId) w : Res (option GId) :=
  ev ← deref (heap w) e;
  Ok (match event_class ev with Wrapper _ => None | BarrierEvent g | SyncBarrierEvent g => Some g end).

Definition is_exit_class (c : GlobalClass) : bool :=
  match c with GlobalSimLoopExitEvent _ _ _ => true | _ => false end.

(** [simulate], on the main thread: the global event that ended it. *)
Definition simulate (fuel : nat) (num_cycles : Z) w : Res (World A * GId) :=
  now ← curTick w;
  let limit := if Z.ltb num_cycles (MaxTick - now) then u64 (now + num_cycles) else MaxTick in
  '(w, limit_event) ← new_exit_event limit "simulate() limit reached" 0 0 false w;
  '(w, quantum_event) ← (if bool_decide (1 < numMainEventQueues w)%nat then
                           if bool_decide (simQuantum w = 0)
                           then Err (Exit "Quantum for multi-eventq simulation not specified")
                           else
                             '(w, g) ← new_sync_event (u64 (now + simQuantum w)) (simQuantum w) Progress_Event_Pri 0 w;
                             Ok (w <| inParallelMode := true |>, Some g)
                         else Ok (w, None));
  let n := Z.of_nat (numMainEventQueues w) in
  _ ← (if (Barrier_wait (mkBarrier n 0 n)).2 then Ok () else Err (Exit "waits for the other queues"));
  '(w, local_event) ← doSimLoop fuel 0 w;
  match local_event with
  | None => Err (AssertFail "local_event != NULL")
  | Some local_event =>
      let w := w <| inParallelMode := false |> in
      global_event ← globalEvent local_event w;
      match global_event with
      | None => Err (AssertFail "global_event != NULL")
      | Some g =>
          gl ← of_option (globals w !! g);
          _ ← guard_assert (is_exit_class (global_class gl)) "global_exit_event != NULL";
          w ← (if bool_decide (g <> limit_event) then
                 s ← global_scheduled limit_event w;
                 _ ← guard_assert s "limit_event->scheduled()";
                 w ← global_deschedule limit_event w; delete_global limit_event w
               else Ok w);
          w ← match quantum_event with
              | Some q => w ← global_deschedule q w; delete_global q w
              | None => Ok w
              end;
          Ok (w, g)
      end
  end.

End Loop.
End SimLoop.
