(* ===== verification/LoopTheorems.v ===== *)
(** * What the simulation loop does with GemDroid's event

    A world with one queue: the platform's event (instance number 13) among
    others. The others leave the queue without being processed; the platform's
    event is processed each time it comes up and schedules itself again. *)

From S2P Require Import Prelude.
From S2P Require Import EventQueue.
From S2P Require Import EventQueueSpec.
From S2P Require Import EventOps.
From S2P Require Import SimLoop.
From stdpp Require Import gmap sorting.
#[local] Open Scope Z_scope.

Module LoopTheorems.
Import EventQueue.
Import EventQueueSpec.
Import EventOps.
Import SimLoop.

(** ** Flags *)

Lemma isSet_clear_other f b m : Z.ldiff m b = m -> Flags.isSet (Flags.clear f b) m = Flags.isSet f m.
Proof.
  intros H. unfold Flags.isSet, Flags.clear. rewrite Z.ldiff_land, <- Z.land_assoc, (Z.land_comm (Z.lnot b)), <- Z.ldiff_land. by rewrite H.
Qed.
Lemma isSet_clear_same f m : Flags.isSet (Flags.clear f m) m = false.
Proof.
  unfold Flags.isSet, Flags.clear. rewrite Z.ldiff_land, <- Z.land_assoc, (Z.land_comm (Z.lnot m)), Z.land_lnot_diag.
  by rewrite Z.land_0_r.
Qed.
Lemma isSet_set_other f b m : Z.land b m = 0 -> Flags.isSet (Flags.set f b) m = Flags.isSet f m.
Proof. intros H. unfold Flags.isSet, Flags.set. by rewrite Z.land_lor_distr_l, H, Z.lor_0_r. Qed.
Lemma isSet_set_same f m : m <> 0 -> Flags.isSet (Flags.set f m) m = true.
Proof.
  intros H. unfold Flags.isSet, Flags.set. rewrite Z.land_lor_distr_l, Z.land_diag.
  destruct (Z.eqb_spec (Z.lor (Z.land f m) m) 0) as [E|]; [|done]. apply Z.lor_eq_0_iff in E. tauto.
Qed.
Lemma initialized_set f b : Z.land b InitMask = 0 -> Z.land (Flags.set f b) InitMask = Z.land f InitMask.
Proof. intros H. unfold Flags.set. by rewrite Z.land_lor_distr_l, H, Z.lor_0_r. Qed.
Lemma initialized_clear f b : Z.ldiff InitMask b = InitMask -> Z.land (Flags.clear f b) InitMask = Z.land f InitMask.
Proof.
  intros H. unfold Flags.clear. rewrite Z.ldiff_land, <- Z.land_assoc, (Z.land_comm (Z.lnot b)), <- Z.ldiff_land. by rewrite H.
Qed.

Section Run.
Context {A : Type} `{Objects A}.

(** The part of the world that the run does not change. *)
Record quiet (w : World A) : Prop := {
  qt_current : _curEventQueue w = 0%nat;
  qt_serial : inParallelMode w = false;
  qt_enabled : gemdroid_enable w = true;
  qt_no_signal : async_event w = false
}.

Context (w0 : World A).
Hypothesis Hw0 : quiet w0.

(** The world with a heap, a queue and the objects. *)
Definition world (h : Heap) (q : Queue) (a : A) : World A := w0 <| heap := h |> <| queues := [q] |> <| objects := a |>.

Lemma world_curTick h q a : curTick (world h q a) = Ok (_curTick q).
Proof. unfold curTick, get_queue. cbn. by rewrite (qt_current _ Hw0). Qed.

Lemma world_alter h q a g : upd_queue 0 g (world h q a) = world h (g q) a.
Proof. done. Qed.

Lemma queue_insert_world h q a bs e ev :
  chain h bs (head q) -> bins_ok bs -> h !! e = Some ev -> e ∉ items bs ->
  exists h' p', queue_insert 0 e (world h q a) = Ok (world h' (q <| head := p' |>) a) /\
    chain h' (bins_insert (key ev) e bs) p' /\ data <$> h' = data <$> h.
Proof.
  intros Hc Hok E He. destruct (insert_refines _ _ _ _ _ Hc Hok E He) as (h' & p' & Hi & Hc' & Hd).
  exists h', p'. split; [|done]. unfold queue_insert, get_queue. cbn. by rewrite Hi.
Qed.

(** What holds of an event that is not in the queue does not depend on
    pointers. *)
Lemma store_lookup_data (h : Heap) e ev : h !! e = Some ev -> (data <$> h) !! e = Some (data ev).
Proof. intros E. by rewrite lookup_fmap, E. Qed.

Lemma schedule_world h q a bs e ev when global :
  chain h bs (head q) -> bins_ok bs -> h !! e = Some ev -> e ∉ items bs ->
  _curTick q <= when -> scheduled ev = false -> initialized ev = true ->
  exists h' p', schedule 0 e when global (world h q a) = Ok (world h' (q <| head := p' |>) a) /\
    chain h' (bins_insert (when, _priority ev) e bs) p' /\
    data <$> h' = <[e := data (set_flag Scheduled (setWhen when 0 ev))]> (data <$> h).
Proof.
  intros Hc Hok E He Hw Hs Hi. set (ev1 := setWhen when 0 ev). set (h1 := store e (setWhen when 0) h).
  assert (h1 !! e = Some ev1) as E1 by (by apply store_same).
  assert (chain h1 bs (head q)) as Hc1.
  { apply (chain_same h); [|done]. intros x Hx. apply store_other. by intros ->. }
  destruct (queue_insert_world h1 q a bs e ev1 Hc1 Hok E1 He) as (h2 & p2 & Hins & Hc2 & Hd2).
  destruct (data_lookup h1 h2 e ev1 Hd2 E1) as (ev2 & E2 & Hev2).
  exists (store e (set_flag Scheduled) h2), p2. split; [|split].
  - unfold schedule, get_queue, deref. change (queues (world h q a)) with [q].
    cbn [lookup list_lookup of_option mbind Res_bind].
    rewrite (proj2 (Z.leb_le (_curTick q) when) Hw). cbn [guard_assert mbind Res_bind].
    change (heap (world h q a) !! e) with (h !! e). rewrite E. cbn [of_option mbind Res_bind]. rewrite Hs, Hi.
    cbn [negb guard_assert mbind Res_bind]. change (inParallelMode _) with (inParallelMode w0).
    rewrite (qt_serial _ Hw0). cbn [andb].
    change (upd_event e (setWhen when 0) (world h q a)) with (world h1 q a). by rewrite Hins.
  - apply chain_store; [done|]. exact Hc2.
  - unfold store. apply map_eq. intros x. destruct (decide (x = e)) as [->|Hx].
    + rewrite lookup_fmap, lookup_alter_eq, E2, lookup_insert_eq. cbn [fmap option_fmap option_map]. f_equal.
      unfold data in *. cbn in *. congruence.
    + rewrite lookup_fmap, lookup_alter_ne, lookup_insert_ne by done. rewrite <- lookup_fmap, Hd2.
      unfold h1. rewrite !lookup_fmap. by rewrite store_other.
Qed.
(** ** The platform's event and the others *)

Context (te : EvId) (obj : Z) (step : A -> Res A) (next : Z -> Z).

(** What processing the platform's event does. *)
Hypothesis Hprocess : forall w, process_wrapped obj w =
  (a ← step (objects w); let w := w <| objects := a |> in now ← curTick w; schedule 0 te (next now) false w).

Record is_te (t p : Z) (ev : Event) : Prop := {
  te_key : key ev = (t, p);
  te_instance : instance ev = 13;
  te_class : event_class ev = Wrapper obj;
  te_squashed : squashed ev = false;
  te_kept : Flags.isSet (flags ev) AutoDelete = false;
  te_initialized : initialized ev = true
}.

Record is_other (ev : Event) : Prop := {
  ot_instance : instance ev <> 13;
  ot_deleted : Flags.isSet (flags ev) AutoDelete = true -> exists o, event_class ev = Wrapper o
}.

Lemma is_te_data t p ev ev' : data ev' = data ev -> is_te t p ev -> is_te t p ev'.
Proof. unfold data. intros [= E1 E2 E3 E4 E5 E6] []. constructor; unfold key, squashed, initialized in *; congruence. Qed.
Lemma is_other_data ev ev' : data ev' = data ev -> is_other ev -> is_other ev'.
Proof. unfold data. intros [= E1 E2 E3 E4 E5 E6] []. constructor; by rewrite ?E3, ?E4, ?E6. Qed.

(** The event as [pop_head] and [schedule] leave it. *)
Lemma is_te_pop t p ev : is_te t p ev -> is_te t p (clear_flag Scheduled ev).
Proof.
  intros []. constructor; unfold key, squashed, initialized, clear_flag in *; cbn; try done.
  - by rewrite isSet_clear_other.
  - by rewrite isSet_clear_other.
  - by rewrite initialized_clear.
Qed.
Lemma is_te_schedule t p t' ev : is_te t p ev -> is_te t' p (set_flag Scheduled (setWhen t' 0 ev)).
Proof.
  intros [Hk]. constructor; unfold key, squashed, initialized, set_flag, setWhen in *; cbn in *; try done.
  - congruence.
  - by rewrite isSet_set_other.
  - by rewrite isSet_set_other.
  - by rewrite initialized_set.
Qed.

Record loop_state (h : Heap) (q : Queue) (bs : Bins) (t p : Z) : Prop := {
  ls_chain : chain h bs (head q);
  ls_ok : bins_ok bs;
  ls_in : te ∈ items bs;
  ls_te : exists ev, h !! te = Some ev /\ is_te t p ev;
  ls_others : forall e, e ∈ items bs -> e <> te -> exists ev, h !! e = Some ev /\ is_other ev;
  ls_time : Forall (fun b => _curTick q <= b.1.1) bs
}.

(** The events other than [e] are what they were. *)
Definition rest_same (e : EvId) (h h' : Heap) : Prop :=
  forall x xv, x <> e -> h !! x = Some xv -> exists xv', h' !! x = Some xv' /\ data xv' = data xv.

Lemma rest_same_insert e d (h h' : Heap) : data <$> h' = <[e := d]> (data <$> h) -> rest_same e h h'.
Proof.
  intros Hd x xv Hx Ex. apply (f_equal (lookup x)) in Hd. rewrite lookup_insert_ne, !lookup_fmap, Ex in Hd by done.
  destruct (h' !! x) as [xv'|]; [|done]. exists xv'. split; [done|]. by apply (inj Some).
Qed.
Lemma rest_same_trans e h h1 h2 : rest_same e h h1 -> rest_same e h1 h2 -> rest_same e h h2.
Proof.
  intros H1 H2 x xv Hx Ex. destruct (H1 x xv Hx Ex) as (x1 & E1 & D1). destruct (H2 x x1 Hx E1) as (x2 & E2 & D2).
  exists x2. split; [done | congruence].
Qed.
Lemma data_insert_at e d (h h' : Heap) : data <$> h' = <[e := d]> (data <$> h) -> exists ev, h' !! e = Some ev /\ data ev = d.
Proof.
  intros Hd. apply (f_equal (lookup e)) in Hd. rewrite lookup_insert_eq, lookup_fmap in Hd.
  destruct (h' !! e) as [ev|]; [|done]. exists ev. split; [done|]. by apply (inj Some).
Qed.

(** [serviceOne], up to the handling of the event. *)
Lemma serviceOne_pop h q k e l bs ev :
  chain h ((k, e :: l) :: bs) (head q) -> bins_ok ((k, e :: l) :: bs) -> h !! e = Some ev ->
  exists h1 p1 ev1, pop_head (head q) h = Ok (e, h1, p1) /\ chain h1 (bins_pop ((k, e :: l) :: bs)) p1 /\
    h1 !! e = Some ev1 /\ data ev1 = data (clear_flag Scheduled ev) /\ rest_same e h h1 /\
    e ∉ items (bins_pop ((k, e :: l) :: bs)) /\ key ev = k.
Proof.
  intros Hc Hok E. destruct (pop_refines _ _ _ _ _ _ _ Hc Hok E) as (h1 & p1 & Hp & Hc1 & Hd1).
  destruct (data_insert_at _ _ _ _ Hd1) as (ev1 & E1 & Hev1). exists h1, p1, ev1.
  repeat (split; [done|]). split; [by eapply rest_same_insert|]. split.
  - pose proof (bo_nodup _ Hok) as Hnd. cbn in Hnd. apply NoDup_cons in Hnd as [Hnd _].
    cbn [bins_pop tail]. by rewrite items_bin.
  - destruct (chain_cons _ _ _ _ _ Hc) as (? & ? & ev' & [= <- <-] & _ & E' & Hk & _); [done|]. congruence.
Qed.

Lemma deref_at (h : Heap) e ev : h !! e = Some ev -> deref h e = Ok ev.
Proof. unfold deref. by intros ->. Qed.

(** The end of [serviceOne] for an event that stays out of the queue. *)
Definition finish (e : EvId) (w : World A) : Res (World A * option EvId) :=
  ev ← deref (heap w) e;
  if Flags.isSet (flags ev) AutoDelete && negb (scheduled ev)
  then w ← delete_event e w; Ok (w, None) else Ok (w, None).

Lemma finish_other h q a bs e ev :
  chain h bs (head q) -> e ∉ items bs -> h !! e = Some ev -> is_other ev -> scheduled ev = false ->
  exists h', finish e (world h q a) = Ok (world h' q a, None) /\ chain h' bs (head q) /\ rest_same e h h'.
Proof.
  intros Hc He E Hev Hs. unfold finish. change (heap (world h q a)) with h. unfold deref. rewrite E.
  cbn [of_option mbind Res_bind]. rewrite Hs, andb_true_r. destruct (Flags.isSet (flags ev) AutoDelete) eqn:Ha.
  - destruct (ot_deleted _ Hev Ha) as [o Ho]. exists (delete e h).
    unfold delete_event, deref. change (heap (world h q a)) with h. rewrite E. cbn [of_option mbind Res_bind]. rewrite Ho, Hs.
    split; [done|]. split.
    + apply (chain_same h); [|done]. intros x Hx. apply lookup_delete_ne. by intros ->.
    + intros x xv Hx Ex. exists xv. by rewrite lookup_delete_ne.
  - exists h. split; [done|]. split; [done|]. intros x xv _ Ex. by exists xv.
Qed.

Lemma loop_time_pop q k e l bs t' :
  t' <= k.1 -> bins_ok ((k, e :: l) :: bs) -> Forall (fun b => _curTick q <= b.1.1) ((k, e :: l) :: bs) ->
  _curTick q <= t' -> t' = _curTick q \/ t' = k.1 ->
  Forall (fun b : Key * list EvId => t' <= b.1.1) (bins_pop ((k, e :: l) :: bs)).
Proof.
  intros Ht Hok Hq Hle Ht'. assert (Forall (fun b : Key * list EvId => t' <= b.1.1) bs) as Hbs.
  { apply Forall_forall. intros [k' l'] Hin. pose proof (bins_ok_above _ _ _ _ _ Hok Hin) as Hk. cbn.
    unfold key_lt in Hk. lia. }
  cbn [bins_pop tail]. unfold bin. destruct l; [done|]. by constructor.
Qed.

Lemma loop_others h h1 q k e l bs t p :
  loop_state h q ((k, e :: l) :: bs) t p -> rest_same e h h1 ->
  forall x, x ∈ items (bins_pop ((k, e :: l) :: bs)) -> x <> te -> exists ev, h1 !! x = Some ev /\ is_other ev.
Proof.
  intros Hl Hrest x Hx Hne. pose proof (bo_nodup _ (ls_ok _ _ _ _ _ Hl)) as Hnd. cbn in Hnd. apply NoDup_cons in Hnd as [He _].
  cbn [bins_pop tail] in Hx. rewrite items_bin in Hx.
  destruct (ls_others _ _ _ _ _ Hl x) as (ev & E & Hev); [by right | done|].
  destruct (Hrest x ev) as (ev' & E' & Hd); [by intros -> | done |]. exists ev'. split; [done|]. by apply (is_other_data ev).
Qed.

(** Another event comes up: it leaves, and is not processed. *)
Lemma service_other h q a k e l bs t p :
  loop_state h q ((k, e :: l) :: bs) t p -> e <> te -> true_fetch a = true ->
  exists h' q', serviceOne 0 (world h q a) = Ok (world h' q' a, None) /\
    loop_state h' q' (bins_pop ((k, e :: l) :: bs)) t p /\ (_curTick q' = _curTick q \/ _curTick q' = k.1).
Proof.
  intros Hl Hne Hf. pose proof (ls_chain _ _ _ _ _ Hl) as Hc. pose proof (ls_ok _ _ _ _ _ Hl) as Hok.
  destruct (ls_others _ _ _ _ _ Hl e) as (ev & E & Hev); [by left | done|].
  destruct (serviceOne_pop h q _ _ _ _ _ Hc Hok E) as (h1 & p1 & ev1 & Hp & Hc1 & E1 & Hd1 & Hr1 & He1 & Hk).
  assert (is_other ev1) as Hev1.
  { apply (is_other_data (clear_flag Scheduled ev)); [done|]. destruct Hev as [Hi Ha]. constructor; [done|].
    cbn. by rewrite isSet_clear_other. }
  assert (scheduled ev1 = false) as Hs1.
  { unfold data in Hd1. injection Hd1 as _ _ Hfl _ _ _. unfold scheduled. rewrite Hfl. apply isSet_clear_same. }
  assert (_when ev1 = k.1) as Hw1 by (unfold data in Hd1; injection Hd1 as -> _ _ _ _ _; by rewrite <- Hk).
  assert (forall h2 q2, chain h2 (bins_pop ((k, e :: l) :: bs)) (head q2) -> rest_same e h h2 ->
            _curTick q2 = _curTick q \/ _curTick q2 = k.1 -> loop_state h2 q2 (bins_pop ((k, e :: l) :: bs)) t p) as Hstate.
  { intros h2 q2 Hc2 Hr2 Hq2. constructor; [done | by apply bins_pop_ok | | | by apply (loop_others h h2 q _ _ _ _ t p) |].
    - pose proof (ls_in _ _ _ _ _ Hl) as Hin. cbn [bins_pop tail]. rewrite items_bin. rewrite items_cons in Hin.
      by apply elem_of_cons in Hin as [->|Hin].
    - destruct (ls_te _ _ _ _ _ Hl) as (tv & Et & Htv). destruct (Hr2 te tv) as (tv2 & E2 & D2); [congruence | done |].
      exists tv2. split; [done|]. by apply (is_te_data t p tv).
    - pose proof (ls_time _ _ _ _ _ Hl) as Ht. pose proof (Forall_inv Ht) as Hhd. cbn in Hhd.
      apply (loop_time_pop q); [lia | done | done | lia | lia]. }
  unfold serviceOne, get_queue. change (queues (world h q a)) with [q]. cbn [lookup list_lookup of_option mbind Res_bind].
  change (heap (world h q a)) with h. rewrite Hp. cbn [mbind Res_bind].
  change (upd_queue 0 _ _) with (world h1 (q <| head := p1 |>) a). change (heap (world h1 _ a)) with h1.
  rewrite (deref_at h1 e ev1 E1). cbn [mbind Res_bind].
  destruct (squashed ev1) eqn:Hsq; cbn [negb].
  - set (h2 := store e (clear_flag Squashed) h1). set (ev2 := clear_flag Squashed ev1).
    change (upd_event e _ _) with (world h2 (q <| head := p1 |>) a). fold (finish e).
    destruct (finish_other h2 (q <| head := p1 |>) a (bins_pop ((k, e :: l) :: bs)) e ev2) as (h3 & Hfin & Hc3 & Hr3).
    + apply (chain_same h1); [|done]. intros x Hx. apply store_other. by intros ->.
    + done.
    + by apply store_same.
    + destruct Hev1 as [Hi Ha]. constructor; [done|]. cbn. by rewrite isSet_clear_other.
    + unfold scheduled, ev2. cbn. by rewrite isSet_clear_other.
    + exists h3, (q <| head := p1 |>). split; [exact Hfin|]. split; [|by left]. apply Hstate; [done | | by left].
      apply (rest_same_trans e h h1); [done|]. apply (rest_same_trans e h1 h2); [|done].
      intros x xv Hx Ex. exists xv. unfold h2. by rewrite store_other.
  - set (q2 := q <| head := p1 |> <| _curTick := _when ev1 |>).
    change (setCurTick 0 _ _) with (world h1 q2 a). change (gemdroid_enable (world h1 q2 a)) with (gemdroid_enable w0).
    rewrite (qt_enabled _ Hw0), (bool_decide_eq_false_2 (instance ev1 = 13)) by apply Hev1.
    cbn [negb orb mbind Res_bind]. unfold isExitEvent. change (objects (world h1 q2 a)) with a.
    rewrite Hf. cbn [bool_decide decide_rel]. rewrite bool_decide_eq_false_2 by done. fold (finish e).
    destruct (finish_other h1 q2 a (bins_pop ((k, e :: l) :: bs)) e ev1) as (h3 & Hfin & Hc3 & Hr3); [done..|].
    exists h3, q2. split; [exact Hfin|]. split; [|by right]. apply Hstate; [done | | by right].
    by apply (rest_same_trans e h h1).
Qed.

(** An event that is not processed, when no trace is read any more: it ends the
    loop. *)
Lemma service_last h q a k e l bs ev :
  chain h ((k, e :: l) :: bs) (head q) -> bins_ok ((k, e :: l) :: bs) -> h !! e = Some ev ->
  squashed ev = false -> instance ev <> 13 -> Flags.isSet (flags ev) AutoDelete = false -> true_fetch a = false ->
  exists h' q' ev', serviceOne 0 (world h q a) = Ok (world h' q' a, Some e) /\ _curTick q' = k.1 /\
    h' !! e = Some ev' /\ event_class ev' = event_class ev.
Proof.
  intros Hc Hok E Hsq Hi Hdel Hf.
  destruct (serviceOne_pop h q _ _ _ _ _ Hc Hok E) as (h1 & p1 & ev1 & Hp & Hc1 & E1 & Hd1 & _ & _ & Hk).
  unfold data in Hd1. injection Hd1 as Hw _ Hfl Hin _ Hcl. cbn in Hw, Hfl, Hin, Hcl.
  assert (squashed ev1 = false) as Hsq1 by (unfold squashed; rewrite Hfl; by rewrite isSet_clear_other).
  assert (Flags.isSet (flags ev1) AutoDelete = false) as Hdel1 by (rewrite Hfl; by rewrite isSet_clear_other).
  set (q2 := q <| head := p1 |> <| _curTick := _when ev1 |>). exists h1, q2, ev1. split; [|split; [|done]].
  - unfold serviceOne, get_queue. change (queues (world h q a)) with [q]. cbn [lookup list_lookup of_option mbind Res_bind].
    change (heap (world h q a)) with h. rewrite Hp. cbn [mbind Res_bind].
    change (upd_queue 0 _ _) with (world h1 (q <| head := p1 |>) a). change (heap (world h1 _ a)) with h1.
    rewrite (deref_at h1 e ev1 E1). cbn [mbind Res_bind]. rewrite Hsq1. cbn [negb].
    change (setCurTick 0 _ _) with (world h1 q2 a). change (gemdroid_enable (world h1 q2 a)) with (gemdroid_enable w0).
    rewrite (qt_enabled _ Hw0), (bool_decide_eq_false_2 (instance ev1 = 13)) by congruence. cbn [negb orb mbind Res_bind].
    unfold isExitEvent. change (objects (world h1 q2 a)) with a.
    rewrite bool_decide_eq_true_2 by done. change (heap (world h1 q2 a)) with h1. rewrite (deref_at h1 e ev1 E1).
    cbn [mbind Res_bind]. by rewrite Hdel1.
  - cbn. rewrite Hw, <- Hk. done.
Qed.

(** The platform's event comes up: it is processed, and back in the queue. *)
Lemma service_te h q a k l bs t p a' :
  loop_state h q ((k, te :: l) :: bs) t p -> step a = Ok a' -> t <= next t ->
  exists h' q', serviceOne 0 (world h q a) = Ok (world h' q' a', if true_fetch a' then None else Some te) /\
    loop_state h' q' (bins_insert (next t, p) te (bins_pop ((k, te :: l) :: bs))) (next t) p /\ _curTick q' = t.
Proof.
  intros Hl Hstep Hnext. pose proof (ls_chain _ _ _ _ _ Hl) as Hc. pose proof (ls_ok _ _ _ _ _ Hl) as Hok.
  destruct (ls_te _ _ _ _ _ Hl) as (ev & E & Hev).
  destruct (serviceOne_pop h q _ _ _ _ _ Hc Hok E) as (h1 & p1 & ev1 & Hp & Hc1 & E1 & Hd1 & Hr1 & He1 & Hk).
  assert (is_te t p ev1) as Hev1 by (apply (is_te_data t p (clear_flag Scheduled ev)); [done | by apply is_te_pop]).
  assert (scheduled ev1 = false) as Hs1.
  { unfold data in Hd1. injection Hd1 as _ _ Hfl _ _ _. unfold scheduled. rewrite Hfl. apply isSet_clear_same. }
  rewrite (te_key _ _ _ Hev) in Hk. subst k.
  pose proof (te_key _ _ _ Hev1) as Hk1. unfold key in Hk1. injection Hk1 as Hw1 Hp1.
  set (q1 := q <| head := p1 |> <| _curTick := t |>). set (w1 := world h1 q1 a').
  destruct (schedule_world h1 q1 a' _ te ev1 (next t) false Hc1 (bins_pop_ok _ _ _ _ Hok) E1 He1) as (h2 & p2 & Hsch & Hc2 & Hd2);
    [done | done | apply Hev1 |]. rewrite Hp1 in Hc2.
  destruct (data_insert_at _ _ _ _ Hd2) as (ev2 & E2 & Hev2).
  assert (is_te (next t) p ev2) as Hte2 by (eapply is_te_data; [exact Hev2 | by apply (is_te_schedule t p)]).
  exists h2, (q1 <| head := p2 |>). split; [|split; [|done]].
  - unfold serviceOne, get_queue. change (queues (world h q a)) with [q]. cbn [lookup list_lookup of_option mbind Res_bind].
    change (heap (world h q a)) with h. rewrite Hp. cbn [mbind Res_bind].
    change (upd_queue 0 _ _) with (world h1 (q <| head := p1 |>) a). change (heap (world h1 _ a)) with h1.
    rewrite (deref_at h1 te ev1 E1). cbn [mbind Res_bind]. rewrite (te_squashed _ _ _ Hev1), Hw1. cbn [negb].
    change (setCurTick 0 _ _) with (world h1 q1 a). change (gemdroid_enable (world h1 q1 a)) with (gemdroid_enable w0).
    rewrite (qt_enabled _ Hw0), (bool_decide_eq_true_2 (instance ev1 = 13)) by apply Hev1. cbn [negb orb].
    unfold process. change (heap (world h1 q1 a)) with h1. rewrite (deref_at h1 te ev1 E1). cbn [mbind Res_bind].
    rewrite (te_class _ _ _ Hev1), Hprocess. change (objects (world h1 q1 a)) with a. rewrite Hstep. cbn [mbind Res_bind].
    change ((world h1 q1 a) <| objects := a' |>) with (world h1 q1 a'). rewrite world_curTick. cbn [mbind Res_bind].
    change (_curTick q1) with t. rewrite Hsch. cbn [mbind Res_bind]. unfold isExitEvent.
    change (objects (world h2 _ a')) with a'. change (heap (world h2 _ a')) with h2. rewrite (deref_at h2 te ev2 E2).
    cbn [mbind Res_bind]. rewrite (te_kept _ _ _ Hte2). destruct (true_fetch a') eqn:Hf.
    + rewrite bool_decide_eq_false_2 by done. done.
    + rewrite bool_decide_eq_true_2 by done. done.
  - assert (Forall (fun b : Key * list EvId => t <= b.1.1) (bins_pop (((t, p), te :: l) :: bs))) as Htime.
    { pose proof (ls_time _ _ _ _ _ Hl) as Ht. pose proof (Forall_inv Ht) as Hhd. cbn in Hhd.
      apply (loop_time_pop q); cbn; [lia | done | done | lia | lia]. }
    constructor.
    + exact Hc2.
    + apply bins_insert_ok; [by apply bins_pop_ok | done].
    + rewrite bins_insert_items. by left.
    + by exists ev2.
    + intros x Hx Hne. rewrite bins_insert_items in Hx. apply elem_of_cons in Hx as [->|Hx]; [done|].
      apply (loop_others h h2 q _ _ _ _ t p Hl); [|done | done].
      apply (rest_same_trans te h h1); [done | by eapply rest_same_insert].
    + change (_curTick _) with t. apply Forall_forall. intros [k' l'] Hin.
      assert (k' ∈ (fst <$> bins_insert (next t, p) te (bins_pop (((t, p), te :: l) :: bs)))) as Hk'
        by (apply list_elem_of_fmap; by exists (k', l')).
      apply bins_insert_fst in Hk' as [->|Hk']; [done|]. apply list_elem_of_fmap in Hk' as ([k2 l2] & -> & Hin2).
      rewrite Forall_forall in Htime. by apply (Htime _ Hin2).
Qed.

(** A turn of the loop passes its assertions. *)
Lemma sim_turn_begins h q a k e l bs t p :
  loop_state h q ((k, e :: l) :: bs) t p ->
  sim_turn 0 (world h q a) =
    ('(w, exit_event1) ← (if bool_decide (true_fetch a = false) then
                           w ← exitSimLoop "Completed trace simulation" 0 (_curTick q) 0 false (world h q a); serviceOne 0 w
                         else Ok (world h q a, None));
     match exit_event1 with
     | Some e => Ok (w, Some (Some e))
     | None =>
         '(w, exit_event) ← serviceOne 0 w;
         match exit_event with
         | Some e =>
             if negb (gemdroid_enable w) then Ok (w, Some (Some e))
             else '(w, stop) ← async_requests 0 w; Ok (w, if stop : bool then Some None else None)
         | None => '(w, stop) ← async_requests 0 w; Ok (w, if stop : bool then Some None else None)
         end
     end).
Proof.
  intros Hl. pose proof (ls_chain _ _ _ _ _ Hl) as Hc.
  destruct (chain_cons _ _ _ _ _ Hc) as (? & ? & ev & [= <- <-] & Hh & E & Hk & _); [done|].
  unfold sim_turn at 1, get_queue. change (queues (world h q a)) with [q]. cbn [lookup list_lookup of_option mbind Res_bind].
  unfold empty. rewrite Hh, (bool_decide_eq_false_2 (Some e = None)) by done. cbn [negb guard_assert mbind Res_bind]. rewrite world_curTick.
  cbn [mbind Res_bind]. unfold nextTick, get_queue. change (queues (world h q a)) with [q].
  cbn [lookup list_lookup of_option mbind Res_bind]. rewrite Hh. cbn [of_option mbind Res_bind].
  change (heap (world h q a)) with h. rewrite (deref_at h e ev E). cbn [mbind Res_bind].
  pose proof (Forall_inv (ls_time _ _ _ _ _ Hl)) as Ht. cbn in Ht. rewrite <- Hk in Ht. cbn in Ht.
  rewrite (proj2 (Z.leb_le _ _) Ht). done.
Qed.

(** A turn of the loop while the traces last. *)
Lemma sim_turn_service h q a k e l bs t p w' ret :
  loop_state h q ((k, e :: l) :: bs) t p -> true_fetch a = true ->
  serviceOne 0 (world h q a) = Ok (w', ret) -> gemdroid_enable w' = true -> async_event w' = false ->
  sim_turn 0 (world h q a) = Ok (w', None).
Proof.
  intros Hl Hf Hs Hg Ha. rewrite (sim_turn_begins _ _ _ _ _ _ _ _ _ Hl), bool_decide_eq_false_2 by congruence.
  cbn [mbind Res_bind]. rewrite Hs. cbn [mbind Res_bind].
  rewrite Hg. cbn [negb]. unfold async_requests. rewrite Ha. by destruct ret.
Qed.

(** The place of the platform's event in the queue goes down. *)
Fixpoint place (l : list EvId) : nat :=
  match l with [] => 0 | x :: l => if bool_decide (x = te) then 0 else S (place l) end.

(** The loop comes to the platform's event, which is where it was. *)
Lemma turns_to_te n : forall h q a bs t p,
  loop_state h q bs t p -> true_fetch a = true -> place (items bs) = n ->
  exists m h' q' l bs', (m + length (items (((t, p), te :: l) :: bs')) = length (items bs))%nat /\
    sim_turns m 0 (world h q a) = Ok (world h' q' a, None) /\
    loop_state h' q' (((t, p), te :: l) :: bs') t p /\ incl (items (((t, p), te :: l) :: bs')) (items bs).
Proof.
  induction n as [|n IH]; intros h q a bs t p Hl Hf Hn.
  - destruct bs as [|[k [|e l]] bs]; [by destruct (not_elem_of_nil te), Hl | |].
    { pose proof (bo_nonempty _ (ls_ok _ _ _ _ _ Hl)) as H'. by inversion H'. }
    cbn in Hn. destruct (bool_decide_reflect (e = te)) as [->|]; [|done].
    pose proof (ls_chain _ _ _ _ _ Hl) as Hc.
    destruct (chain_cons _ _ _ _ _ Hc) as (? & ? & ev & [= <- <-] & _ & E & Hk & _); [done|].
    destruct (ls_te _ _ _ _ _ Hl) as (ev' & E' & Hev'). rewrite E in E'. injection E' as <-.
    rewrite (te_key _ _ _ Hev') in Hk. subst k. exists 0%nat, h, q, l, bs. split; [done|]. split; [done|]. split; [done|].
    by intros x Hx.
  - destruct bs as [|[k [|e l]] bs]; [done | |].
    { pose proof (bo_nonempty _ (ls_ok _ _ _ _ _ Hl)) as H'. by inversion H'. }
    cbn in Hn. destruct (bool_decide_reflect (e = te)) as [|Hne]; [done|]. injection Hn as Hn.
    destruct (service_other h q a k e l bs t p Hl Hne Hf) as (h1 & q1 & Hs & Hl1 & _).
    assert (items (bins_pop ((k, e :: l) :: bs)) = l ++ items bs) as Hi by (cbn [bins_pop tail]; by rewrite items_bin).
    destruct (IH h1 q1 a _ t p Hl1 Hf) as (m & h2 & q2 & l2 & bs2 & Hm & Hrun & Hl2 & Hincl); [by rewrite Hi|].
    exists (S m), h2, q2, l2, bs2. rewrite Hi in Hm, Hincl.
    change (items ((k, e :: l) :: bs)) with (e :: l ++ items bs).
    split; [rewrite Nat.add_succ_l; cbn [length]; by f_equal|]. split; [|split; [done|]].
    + cbn [sim_turns]. rewrite (sim_turn_service h q a k e l bs t p _ _ Hl Hf Hs); [|apply (qt_enabled _ Hw0)|apply (qt_no_signal _ Hw0)].
      exact Hrun.
    + intros x Hx. right. by apply Hincl.
Qed.

(** [n] cycles of the platform, all of them while traces are read. *)
Inductive runs : nat -> A -> A -> Prop :=
| runs_0 a : runs 0 a a
| runs_S n a a1 a2 : true_fetch a = true -> step a = Ok a1 -> runs n a1 a2 -> runs (S n) a a2.

Lemma sim_turns_app m1 m2 w w1 r :
  sim_turns m1 0 w = Ok (w1, None) -> sim_turns m2 0 w1 = Ok r -> sim_turns (m1 + m2) 0 w = Ok r.
Proof.
  revert w. induction m1 as [|m1 IH]; intros w H1 H2; cbn in *; [by injection H1 as ->|].
  destruct (sim_turn 0 w) as [[w' [e|]]|]; cbn in *; [done | by apply IH | done].
Qed.

(** The loop runs the platform: its event is processed at [t], [next t], ...,
    and the only other thing that happens is that other events leave. *)
Lemma loop_runs_platform n : forall h q a a' bs t p,
  loop_state h q bs t p -> runs n a a' -> (forall i, (i < n)%nat -> Nat.iter i next t <= Nat.iter (S i) next t) ->
  exists m h' q' bs', sim_turns m 0 (world h q a) = Ok (world h' q' a', None) /\
    loop_state h' q' bs' (Nat.iter n next t) p /\ incl (items bs') (items bs) /\
    (m + length (items bs') = n + length (items bs))%nat /\
    _curTick q' = match n with O => _curTick q | S n => Nat.iter n next t end.
Proof.
  induction n as [|n IH]; intros h q a a' bs t p Hl Hr Hnext; inversion Hr as [|? ? a1 ? Hf Hstep Hr1]; subst.
  - exists 0%nat, h, q, bs. split; [done|]. split; [done|]. split; [by intros x Hx|]. done.
  - destruct (turns_to_te _ h q a bs t p Hl Hf eq_refl) as (m1 & h1 & q1 & l & bs1 & Hm1 & Hrun1 & Hl1 & Hi1).
    destruct (service_te h1 q1 a (t, p) l bs1 t p a1 Hl1 Hstep (Hnext 0%nat ltac:(lia))) as (h2 & q2 & Hs & Hl2 & Hq2).
    destruct (IH h2 q2 a1 a' _ (next t) p Hl2 Hr1) as (m3 & h3 & q3 & bs3 & Hrun3 & Hl3 & Hi3 & Hm3 & Hq3).
    { intros i Hi. rewrite <- !Nat.iter_succ_r. apply Hnext. lia. }
    assert (length (items (bins_insert (next t, p) te (bins_pop (((t, p), te :: l) :: bs1))))
            = length (items (((t, p), te :: l) :: bs1))) as Hlen.
    { rewrite bins_insert_items. cbn [bins_pop tail]. by rewrite items_bin. }
    exists (m1 + S m3)%nat, h3, q3, bs3. split; [|split; [|split; [|split]]].
    + eapply sim_turns_app; [exact Hrun1|]. cbn [sim_turns].
      rewrite (sim_turn_service h1 q1 a _ _ _ _ t p _ _ Hl1 Hf Hs); [|apply (qt_enabled _ Hw0)|apply (qt_no_signal _ Hw0)].
      exact Hrun3.
    + by rewrite Nat.iter_succ_r.
    + intros x Hx. apply Hi1. apply Hi3 in Hx. apply (list_elem_of_In _ x). apply (list_elem_of_In _ x) in Hx.
      rewrite bins_insert_items in Hx. cbn [bins_pop tail] in Hx. rewrite items_bin in Hx. done.
    + rewrite Hlen in Hm3. lia.
    + rewrite Hq3, Hq2. destruct n; [done|]. by rewrite Nat.iter_succ_r.
Qed.

End Run.
End LoopTheorems.
