(* ===== verification/EventTheorems.v ===== *)
(** * Properties of the event queue *)

From S2P Require Import Prelude.
From S2P Require Import EventQueue.
From S2P Require Import EventQueueSpec.
From S2P Require Import EventOps.
From S2P Require Import LoopTheorems.
From stdpp Require Import gmap sorting.
#[local] Open Scope Z_scope.

Module EventTheorems.
Import EventQueue.
Import EventQueueSpec.
Import EventOps.
Import LoopTheorems.

(** ** Three events *)

Definition event_at (next in_bin : option EvId) (when prio : Z) : Event :=
  mkEvent next in_bin when prio (Z.lor Initialized Scheduled) 1 (Some 0%nat) (Wrapper 1).

(** Not yet queued: two for the same bin, one before them. *)
Definition loose_heap : Heap :=
  <[1%positive := event_at None None 7 0]> (<[2%positive := event_at None None 7 0]>
    {[3%positive := event_at None None 5 90]}).

(** Queued in the order 3, 2, 1. *)
Definition queued_heap : Heap :=
  <[1%positive := event_at None None 7 0]> (<[2%positive := event_at None (Some 1%positive) 7 0]>
    {[3%positive := event_at (Some 2%positive) None 5 90]}).
Definition queued_bins : Bins := [((5, 90), [3%positive]); ((7, 0), [2%positive; 1%positive])].

Lemma queued_chain : chain queued_heap queued_bins (Some 3%positive).
Proof. cbn. repeat (split || eexists). Qed.
Lemma queued_ok : bins_ok queued_bins.
Proof.
  constructor; [| by repeat constructor |].
  - repeat constructor; cbn; unfold key_lt; cbn; lia.
  - cbn. repeat (apply NoDup_cons; split; [set_solver|]). apply NoDup_nil_2.
Qed.

(** ** The order of service *)

(** C37: whatever the order in which distinct events enter an empty queue, they
    leave it by time and priority, and those that agree in both in the reverse
    order of their arrival. *)
Theorem queue_serves_in_order h l :
  NoDup l -> (forall e, e ∈ l -> is_Some (h !! e)) ->
  exists h' p out, insert_all l None h = Ok (h', p) /\ pop_all (length l) p h' = Ok out /\ out ≡ₚ l /\
    StronglySorted (fun a b => key_le (key_at h a) (key_at h b)) out /\
    forall k, filter (fun e => key_at h e = k) out = filter (fun e => key_at h e = k) (reverse l).
Proof.
  intros Hnd Hl. assert (bins_ok []) as Hok0 by (by repeat constructor).
  destruct (insert_all_chain l h [] None) as (h' & p & bs & Hi & Hc & Hok & Hd & Hp & Hk); [done | done | done | |].
  { intros e He. split; [apply not_elem_of_nil | by apply Hl]. }
  cbn [items mbind list_bind] in Hp. rewrite app_nil_r in Hp.
  exists h', p, (items bs). split; [done|].
  split; [rewrite <- Hp; by apply pop_all_chain|]. split; [done|]. split.
  - pose proof (items_sorted _ _ _ Hc Hok) as Hs. revert Hs. apply StronglySorted_ind; [constructor|].
    intros a l' _ IH Ha. constructor; [done|]. eapply Forall_impl; [exact Ha|]. intros b. cbn.
    by rewrite !(key_at_data h h' Hd).
  - intros k. specialize (Hk k). rewrite (bin_at_filter h' bs p k Hc) in Hk. cbn [bin_at items filter mbind list_bind] in Hk.
    rewrite app_nil_r in Hk. rewrite <- Hk. apply list_filter_iff. intros x. by rewrite (key_at_data h h' Hd).
Qed.


Lemma queue_serves_in_order_witness :
  exists h' p, insert_all [1; 2; 3]%positive None loose_heap = Ok (h', p) /\
    pop_all 3 p h' = Ok [3; 2; 1]%positive.
Proof.
  destruct (queue_serves_in_order loose_heap [1; 2; 3]%positive) as (h' & p & out & Hi & Hp & _).
  - repeat (apply NoDup_cons; split; [set_solver|]). apply NoDup_nil_2.
  - intros e He. repeat (apply elem_of_cons in He as [->|He]; [by eexists|]). by apply not_elem_of_nil in He.
  - assert ((hp ← insert_all [1; 2; 3]%positive None loose_heap; pop_all 3 hp.2 hp.1) = Ok [3; 2; 1]%positive) as H by by vm_compute.
    rewrite Hi in H. exists h', p. done.
Defined.

(** ** Removal *)

(** C38: removing an event from a queue that it belongs to takes exactly this
    event from its bin, and the bin with it when it was the only one; the data
    of the events is not touched. An event that is not in the queue is the
    panic "event not found!". *)
Theorem remove_refines self h bs p e ev :
  chain h bs p -> bins_ok bs -> h !! e = Some ev -> queue ev = Some self ->
  if bool_decide (e ∈ items bs)
  then exists h' p', remove self e p h = Ok (h', p') /\ chain h' (bins_remove (key ev) e bs) p' /\ data <$> h' = data <$> h
  else remove self e p h = Err (Abort "event not found!").
Proof. apply remove_chain. Qed.

Lemma remove_refines_witness :
  exists h' p', remove 0 1%positive (Some 3%positive) queued_heap = Ok (h', p') /\
    chain h' [((5, 90), [3%positive]); ((7, 0), [2%positive])] p'.
Proof.
  pose proof (remove_refines 0 queued_heap queued_bins (Some 3%positive) 1%positive (event_at None None 7 0)
                queued_chain queued_ok eq_refl eq_refl) as H.
  rewrite bool_decide_eq_true_2 in H by (cbn; set_solver). destruct H as (h' & p' & H1 & H2 & _). exists h', p'. done.
Defined.

(** ** The self-check *)

(** [debugVerify] accepts every queue, unless an event with a negative
    priority waits at time 0. *)
Theorem debugVerify_spec h bs p :
  chain h bs p -> bins_ok bs ->
  debugVerify p h = Ok (match bs with [] => true | (k, _) :: _ => bool_decide (~ key_lt k (0, 0)) end).
Proof.
  intros Hc Hok. unfold debugVerify. apply verify_bins_chain; [done | done | |].
  - intros x _. apply not_elem_of_nil.
  - unfold chase_fuel. pose proof (chain_size _ _ _ Hc Hok). lia.
Qed.

(** Everything is in order, but for an event of negative priority at time 0. *)
Lemma debugVerify_spec_witness :
  debugVerify (Some 3%positive) queued_heap = Ok true /\
  debugVerify (Some 1%positive) {[1%positive := event_at None None 0 (-1)]} = Ok false.
Proof.
  split.
  - rewrite (debugVerify_spec _ _ _ queued_chain queued_ok). by vm_compute.
  - rewrite (debugVerify_spec _ [((0, -1), [1%positive])]); [by vm_compute | cbn; repeat (split || eexists) |].
    constructor; [by repeat constructor | by repeat constructor | apply NoDup_singleton].
Defined.

(** ** Scheduling and descheduling *)

Section Serial.
Context {A : Type}.

(** C39: an event that is scheduled and then descheduled leaves the queue, the
    time and the other events as they were, and can be scheduled again. *)
Theorem schedule_deschedule_roundtrip (w0 : World A) h q a bs e ev when :
  quiet w0 -> chain h bs (head q) -> bins_ok bs -> h !! e = Some ev -> e ∉ items bs -> _curTick q <= when ->
  scheduled ev = false -> initialized ev = true -> Flags.isSet (flags ev) AutoDelete = false ->
  exists w1 h2 q2 ev2, schedule 0 e when false (world w0 h q a) = Ok w1 /\
    deschedule 0 e w1 = Ok (world w0 h2 q2 a) /\ chain h2 bs (head q2) /\ _curTick q2 = _curTick q /\
    rest_same e h h2 /\ h2 !! e = Some ev2 /\ scheduled ev2 = false /\ initialized ev2 = true.
Proof.
  intros Hw0 Hc Hok E He Hw Hs Hi Ha.
  destruct (schedule_world w0 Hw0 h q a bs e ev when false Hc Hok E He Hw Hs Hi) as (h1 & p1 & Hsch & Hc1 & Hd1).
  destruct (data_insert_at _ _ _ _ Hd1) as (ev1 & E1 & Hev1).
  assert (key ev1 = (when, _priority ev)) as Hk by (unfold data in Hev1; injection Hev1 as E2 E3 _ _ _ _; unfold key; by rewrite E2, E3).
  pose proof Hev1 as Hev1'. unfold data in Hev1'. injection Hev1' as _ _ Hfl _ Hq _. cbn in Hfl, Hq.
  pose proof (remove_chain 0 h1 _ p1 e ev1 Hc1 (bins_insert_ok _ _ _ Hok He) E1 Hq) as Hr.
  rewrite bool_decide_eq_true_2 in Hr by (rewrite bins_insert_items; by left).
  destruct Hr as (h2 & p2 & Hrem & Hc2 & Hd2). rewrite Hk, bins_remove_insert in Hc2 by done.
  destruct (data_lookup h1 h2 e ev1 Hd2 E1) as (ev2 & E2 & Hev2).
  set (g := fun ev => clear_flag Scheduled (clear_flag Squashed ev)).
  assert (flags ev2 = flags ev1) as Hfl2 by (unfold data in Hev2; congruence).
  exists (world w0 h1 (q <| head := p1 |>) a), (store e g h2), (q <| head := p2 |>), (g ev2).
  assert (store e g h2 !! e = Some (g ev2)) as E3 by (by apply store_same).
  split; [exact Hsch|]. split; [|split; [|split; [done|split; [|split; [exact E3|]]]]].
  - unfold deschedule. change (heap (world w0 h1 _ a)) with h1. rewrite (deref_at h1 e ev1 E1). cbn [mbind Res_bind].
    assert (scheduled ev1 = true) as -> by (unfold scheduled; rewrite Hfl; by apply isSet_set_same).
    assert (initialized ev1 = true) as -> by (unfold initialized in *; rewrite Hfl; by rewrite initialized_set).
    change (inParallelMode (world w0 h1 _ a)) with (inParallelMode w0). rewrite (qt_serial _ Hw0).
    cbn [negb orb guard_assert mbind Res_bind]. unfold queue_remove, get_queue.
    change (queues (world w0 h1 ?q' a)) with [q']. cbn [lookup list_lookup of_option mbind Res_bind].
    change (heap (world w0 h1 _ a)) with h1. change (head (q <| head := p1 |>)) with p1. rewrite Hrem. cbn [mbind Res_bind].
    match goal with |- context [upd_event e ?g' ?w] => change (upd_event e g' w) with (world w0 (store e g h2) (q <| head := p2 |>) a) end.
    change (heap (world w0 (store e g h2) _ a)) with (store e g h2). rewrite (deref_at _ e _ E3). cbn [mbind Res_bind].
    assert (Flags.isSet (flags (g ev2)) AutoDelete = false) as ->; [|done]. cbn. rewrite !isSet_clear_other by done.
    rewrite Hfl2, Hfl, isSet_set_other by done. done.
  - apply chain_store; [done|]. exact Hc2.
  - intros x xv Hx Ex. destruct (rest_same_insert _ _ _ _ Hd1 x xv Hx Ex) as (x1 & Ex1 & Hx1).
    destruct (data_lookup h1 h2 x x1 Hd2 Ex1) as (x2 & Ex2 & Hx2). exists x2. rewrite store_other by done.
    split; [done | congruence].
  - unfold scheduled, initialized in *. cbn. split; [apply isSet_clear_same|].
    rewrite !initialized_clear by done. rewrite Hfl2, Hfl. by rewrite initialized_set.
Qed.
End Serial.

Lemma schedule_deschedule_roundtrip_witness :
  let w := mkWorld (<[4%positive := mkEvent None None 0 0 Initialized 4 None (Wrapper 2)]> queued_heap) ∅
             [mkQueue (Some 3%positive) 0 []] 0 false 0 15 true false false false false false false tt in
  exists w1 w2, schedule 0 4%positive 6 false w = Ok w1 /\ deschedule 0 4%positive w1 = Ok w2.
Proof.
  cbv zeta. set (ev := mkEvent None None 0 0 Initialized 4 None (Wrapper 2)).
  pose proof (schedule_deschedule_roundtrip
     (mkWorld ∅ ∅ [] 0 false 0 15 true false false false false false false tt)
     (<[4%positive := ev]> queued_heap) (mkQueue (Some 3%positive) 0 []) tt queued_bins 4%positive ev 6) as H.
  destruct H as (w1 & h2 & q2 & ev2 & H1 & H2 & _); try done.
  - apply (chain_same queued_heap); [|exact queued_chain]. intros x Hx. apply lookup_insert_ne. intros <-. cbn in Hx. set_solver.
  - apply queued_ok.
  - cbn. set_solver.
  - exists w1, (world (mkWorld ∅ ∅ [] 0 false 0 15 true false false false false false false tt) h2 q2 tt). done.
Defined.

End EventTheorems.
