(* ===== verification/GemLoop.v ===== *)
(** * The platform in the simulation loop ([gemdroid.cc:startup], [tick])

    [GemDroid::tick] is the action of one event, which it schedules again a
    tenth of a nanosecond later; the addition is one of doubles. *)

From S2P Require Import Prelude.
From S2P Require Import DramConfig.
From S2P Require Import GemDefines.
From S2P Require Import Coders.
From S2P Require Import Platform.
From S2P Require Import GemTick.
From S2P Require Import SimClock.
From S2P Require Import EventQueue.
From S2P Require Import EventOps.
From S2P Require Import SimLoop.

Module GemLoop.
Import Platform.Platform.
Import EventQueue.EventQueue.
Import EventOps.EventOps.
Import SimLoop.SimLoop.

(** The object whose [tick] the event [tickEvent] wraps. *)
Definition GEMDROID : Z := 0.

(** [curTick() + (1/GEMDROID_FREQ) * SimClock::Int::ns] *)
Definition next_tick (ns now : Z) : Z :=
  F32.trunc (F64.add (F64.of_Z now) (F64.mul (F64.div (F64.of_Z 1) GEMDROID_FREQ) (F64.of_Z ns))).

Section Platform.
Context (uninit : process_event) (ns : Z) (tickEvent : EvId).
(** The other objects of gem5, and its polling for I/O. *)
Context (process_other : Z -> World GemDroid -> Res (World GemDroid)) (poll : World GemDroid -> Res (World GemDroid)).

Definition GemDroid_tick (w : World GemDroid) : Res (World GemDroid) :=
  p ← GemTick.GemTick.tick uninit (objects w);
  let w := w <| objects := p |> in
  now ← curTick w;
  EventManager_schedule 0 tickEvent (next_tick ns now) w.

#[export] Instance GemDroid_objects : Objects GemDroid := {
  SimLoop.SimLoop.true_fetch := Platform.Platform.true_fetch;
  process_wrapped := fun o => if bool_decide (o = GEMDROID) then GemDroid_tick else process_other o;
  pollQueue_service := poll
}.

(** [startup], with the clock of the object and the period of its domain. *)
Definition startup (c : SimClock.SimClock.Clocked) (period : Z) (w : World GemDroid)
  : Res (World GemDroid * SimClock.SimClock.Clocked) :=
  if negb (gemdroid_enable w) then Ok (w, c)
  else
    now ← curTick w;
    let '(c, edge) := SimClock.SimClock.clockEdge now period 0 c in
    w ← EventManager_schedule 0 tickEvent edge w;
    Ok (w, c).
End Platform.

End GemLoop.
