(* ===== verification/GemLoopTheorems.v ===== *)
(** * The platform under gem5's loop

    The loop of gem5 runs the cycles of the platform, one per tenth of a
    nanosecond, whatever else is in the event queue, until a trace ends. *)

From S2P Require Import Prelude.
From S2P Require Import DramConfig.
From S2P Require Import FloatExact.
From S2P Require Import GemDefines.
From S2P Require Import Coders.
From S2P Require Import Platform.
From S2P Require Import GemTick.
From S2P Require Import GemSample.
From S2P Require Import EventQueue.
From S2P Require Import EventQueueSpec.
From S2P Require Import EventOps.
From S2P Require Import SimLoop.
From S2P Require Import LoopTheorems.
From S2P Require Import GemLoop.
From stdpp Require Import gmap.
#[local] Open Scope Z_scope.

Module GemLoopTheorems.
Import Platform.Platform.
Import EventQueue.EventQueue.
Import EventQueueSpec.EventQueueSpec.
Import EventOps.EventOps.
Import SimLoop.SimLoop.
Import LoopTheorems.LoopTheorems.
Import GemLoop.GemLoop.

(** ** The next cycle *)

(** A nanosecond is a thousand ticks. *)
Definition NS : Z := 1000.

Lemma next_tick_exact now : 0 <= now -> now + 100 < FloatExact.exact_limit -> next_tick NS now = now + 100.
Proof.
  intros Hn Hb. unfold next_tick.
  replace (F64.mul (F64.div (F64.of_Z 1) GEMDROID_FREQ) (F64.of_Z NS)) with (F64.of_Z 100) by by vm_compute.
  unfold FloatExact.exact_limit in *. destruct (Z.eq_dec now 0) as [->|Hnz].
  - by vm_compute.
  - rewrite FloatExact.add_exact, FloatExact.trunc_of_Z by (unfold FloatExact.exact_limit; lia). done.
Qed.

Lemma next_tick_iter t n : 0 <= t -> t + 100 * Z.of_nat n < FloatExact.exact_limit ->
  Nat.iter n (next_tick NS) t = t + 100 * Z.of_nat n.
Proof.
  intros Ht. induction n as [|n IH]; intros Hb; [cbn; lia|]. rewrite Nat.iter_succ, IH by lia.
  rewrite next_tick_exact; lia.
Qed.

(** ** Cycles while the traces last *)

Definition fetching (uninit : process_event) (n : nat) (p : GemDroid) : Prop :=
  forall i q, (i < n)%nat -> GemTick.GemTick.run uninit i p = Ok q -> Platform.Platform.true_fetch q = true.

Section Driven.
Context (uninit : process_event) (tickEvent : EvId).
Context (process_other : Z -> World GemDroid -> Res (World GemDroid)) (poll : World GemDroid -> Res (World GemDroid)).
#[local] Instance objects_here : Objects GemDroid := GemDroid_objects uninit NS tickEvent process_other poll.

Lemma run_runs n : forall p p', GemTick.GemTick.run uninit n p = Ok p' -> fetching uninit n p ->
  runs (GemTick.GemTick.tick uninit) n p p'.
Proof.
  induction n as [|n IH]; intros p p' Hr Hf.
  - injection Hr as ->. constructor.
  - cbn [GemTick.GemTick.run] in Hr. apply bind_Ok in Hr as (p1 & H1 & H2).
    apply (runs_S _ n p p1 p'); [apply (Hf 0%nat p); [lia | done] | done |].
    apply IH; [done|]. intros i q Hi Hq. apply (Hf (S i) q); [lia|]. cbn [GemTick.GemTick.run]. by rewrite H1.
Qed.

Lemma tick_processed w : process_wrapped GEMDROID w =
  (p ← GemTick.GemTick.tick uninit (objects w);
   let w := w <| objects := p |> in now ← curTick w; schedule 0 tickEvent (next_tick NS now) false w).
Proof. unfold process_wrapped, objects_here, GemDroid_objects. by rewrite bool_decide_eq_true_2. Qed.

(** C34: the loop of gem5 runs the platform. As long as the traces last, the
    event that holds [GemDroid::tick] is processed every 100 ticks, starting
    when it was scheduled, so that the platform does its cycles one after the
    other; the assertions of the loop hold, time never goes back, and the
    other events of the queue leave it without having been processed. *)
Theorem platform_driven_by_loop w0 h q bs t prio n p p' :
  quiet w0 -> loop_state tickEvent GEMDROID h q bs t prio ->
  0 <= t -> t + 100 * Z.of_nat n < FloatExact.exact_limit ->
  GemTick.GemTick.run uninit n p = Ok p' -> fetching uninit n p ->
  exists m h' q' bs', sim_turns m 0 (world w0 h q p) = Ok (world w0 h' q' p', None) /\
    loop_state tickEvent GEMDROID h' q' bs' (t + 100 * Z.of_nat n) prio /\
    (forall e, e ∈ items bs' -> e ∈ items bs) /\ (m + length (items bs') = n + length (items bs))%nat /\
    _curTick q' = match n with O => _curTick q | S n => t + 100 * Z.of_nat n end.
Proof.
  intros Hw Hl Ht Hb Hr Hf.
  destruct (loop_runs_platform w0 Hw tickEvent GEMDROID (GemTick.GemTick.tick uninit) (next_tick NS) tick_processed
              n h q p p' bs t prio Hl (run_runs n p p' Hr Hf)) as (m & h' & q' & bs' & H1 & H2 & H3 & H4 & H5).
  { intros i Hi. rewrite !next_tick_iter by lia. lia. }
  exists m, h', q', bs'. rewrite next_tick_iter in H2 by lia. split; [done|]. split; [done|].
  split; [intros e; rewrite !list_elem_of_In; apply H3|]. split; [done|].
  rewrite H5. destruct n as [|n]; [done|]. by rewrite next_tick_iter by lia.
Qed.

End Driven.

(** ** A small world *)

(** The platform's event at time 0, an event of something else before it, and
    one that comes after two cycles. *)
Definition event (next : option EvId) (when prio inst object : Z) : Event :=
  mkEvent next None when prio (Z.lor Initialized Scheduled) inst (Some 0%nat) (Wrapper object).
Definition sample_heap : Heap :=
  <[1%positive := event (Some 3%positive) 0 0 13 GEMDROID]> (<[2%positive := event (Some 1%positive) 0 (-1) 14 7]>
    {[3%positive := event None 150 50 15 8]}).
Definition sample_bins : Bins := [((0, -1), [2%positive]); ((0, 0), [1%positive]); ((150, 50), [3%positive])].
Definition sample_queue : Queue := mkQueue (Some 2%positive) 0 [].
Definition sample_world (p : GemDroid) : World GemDroid :=
  mkWorld sample_heap ∅ [sample_queue] 0 false 0 15 true false false false false false false p.

Lemma sample_quiet p : quiet (sample_world p).
Proof. done. Qed.

Lemma sample_loop_state : loop_state 1%positive GEMDROID sample_heap sample_queue sample_bins 0 0.
Proof.
  constructor.
  - cbn. repeat (split || eexists).
  - constructor; [|by repeat constructor|].
    + repeat constructor; cbn; unfold key_lt; cbn; lia.
    + cbn. repeat (apply NoDup_cons; split; [set_solver|]). apply NoDup_nil_2.
  - cbn. set_solver.
  - eexists. split; [done|]. by constructor.
  - intros e He Hne. cbn in He. repeat (apply elem_of_cons in He as [->|He]); [| done | | by apply not_elem_of_nil in He];
      (eexists; split; [done|]; by constructor).
  - repeat constructor; cbn; lia.
Qed.

Lemma platform_driven_by_loop_witness :
  match Sample.start GOVERNOR_TYPE_DISABLED 1 [] with
  | Ok p => exists m h q p', sim_turns (H := GemDroid_objects OUT_BUFFER_FULL NS 1 (fun _ => Ok) Ok) m 0 (sample_world p)
                             = Ok (world (sample_world p) h q p', None)
                           /\ GemTick.GemTick.run OUT_BUFFER_FULL 2 p = Ok p' /\ _curTick q = 100
  | Err _ => False
  end.
Proof.
  assert ((p ← Sample.start GOVERNOR_TYPE_DISABLED 1 [];
           p1 ← GemTick.GemTick.run OUT_BUFFER_FULL 1 p;
           p2 ← GemTick.GemTick.run OUT_BUFFER_FULL 2 p;
           Ok (Platform.Platform.true_fetch p, Platform.Platform.true_fetch p1)) = Ok (true, true)) as H by by vm_compute.
  destruct (Sample.start GOVERNOR_TYPE_DISABLED 1 []) as [p|]; [|done]. unfold mbind, Res_bind in H.
  destruct (GemTick.GemTick.run OUT_BUFFER_FULL 1 p) as [p1|] eqn:E1; [|done].
  destruct (GemTick.GemTick.run OUT_BUFFER_FULL 2 p) as [p2|] eqn:E2; [|done]. injection H as Hf Hf1.
  destruct (platform_driven_by_loop OUT_BUFFER_FULL 1 (fun _ => Ok) Ok (sample_world p) sample_heap sample_queue sample_bins
              0 0 2 p p2 (sample_quiet p) sample_loop_state) as (m & h & q & bs & Hrun & _ & _ & _ & Hq); [lia | done | done | |].
  - intros [|[|i]] q Hi Hq; [by injection Hq as <- | by rewrite E1 in Hq; injection Hq as <- | lia].
  - exists m, h, q, p2. done.
Defined.

End GemLoopTheorems.
