(* ===== verification/ExitTheorems.v ===== *)
(** * How the simulation ends

    Only [true_fetch] decides whether an event is an exit event: while it is
    set nothing that is scheduled ends the loop, and when it is cleared the
    loop ends with the next event, whichever that is. *)

From S2P Require Import Prelude.
From S2P Require Import Outcome.
From S2P Require Import EventQueue.
From S2P Require Import EventQueueSpec.
From S2P Require Import EventOps.
From S2P Require Import SimLoop.
From S2P Require Import LoopTheorems.
From stdpp Require Import gmap sorting.
#[local] Open Scope Z_scope.

Module ExitTheorems.
Import EventQueue.
Import EventQueueSpec.
Import EventOps.
Import SimLoop.
Import LoopTheorems.

(** ** Scheduling does not touch the objects *)

Section Frame.
Context {A : Type}.

(** The objects are [a]. *)
Definition has (a : A) (w : World A) : Prop := objects w = a.

Lemma queue_insert_has a self e w : has a w -> yields (has a) (queue_insert self e w).
Proof. intros Hw. unfold queue_insert. ends_tac. exact Hw. Qed.
Lemma queue_remove_has a self e w : has a w -> yields (has a) (queue_remove self e w).
Proof. intros Hw. unfold queue_remove. ends_tac. exact Hw. Qed.
Hint Resolve queue_insert_has queue_remove_has : ends.

Lemma delete_event_has a e w : has a w -> yields (has a) (delete_event e w).
Proof.
  intros Hw. unfold delete_event. ends_step. apply (ends_bind (has a)); [|intros w' Hw'; ends_tac; exact Hw'].
  destruct (event_class a0); ends_tac; exact Hw.
Qed.
Hint Resolve delete_event_has : ends.

Lemma handleAsyncInsertions_has a self w : has a w -> yields (has a) (handleAsyncInsertions self w).
Proof.
  intros Hw. unfold handleAsyncInsertions. do 2 ends_step. apply (ends_bind (has a)).
  - apply ends_foldM; [|done]. intros s e _ Hs. by apply queue_insert_has.
  - intros w' Hw'. ends_tac. exact Hw'.
Qed.

Lemma schedule_has a self e when global w : has a w -> yields (has a) (schedule self e when global w).
Proof.
  intros Hw. unfold schedule. do 5 ends_step. cbv zeta. apply (ends_bind (has a)).
  - ends_step; [ends_step; exact Hw | by apply queue_insert_has].
  - intros w' Hw'. ends_tac. exact Hw'.
Qed.
Hint Resolve schedule_has : ends.

Lemma deschedule_has a self e w : has a w -> yields (has a) (deschedule self e w).
Proof.
  intros Hw. unfold deschedule. do 4 ends_step. apply (ends_bind (has a)); [by apply queue_remove_has|].
  intros w' Hw'. cbv zeta. ends_step. ends_step; [by apply delete_event_has | ends_step; exact Hw'].
Qed.

Lemma new_event_has a p f c w : has a w -> yields (fun r => has a r.1) (new_event p f c w).
Proof. intros Hw. unfold new_event. ends_tac. exact Hw. Qed.

Lemma new_global_has a p f c w : has a w -> yields (fun r => has a r.1) (new_global p f c w).
Proof.
  intros Hw. unfold new_global. cbv zeta. apply (ends_bind (fun r => has a r.1)).
  - apply ends_foldM; [|done]. intros [w1 l1] i _ Hs. apply (ends_bind (fun r => has a r.1)); [by apply new_event_has|].
    intros [w2 e] H2. by apply ends_ok.
  - intros [w1 l1] H1. by apply ends_ok.
Qed.

Lemma for_locals_has a g body w :
  (forall w i e, has a w -> yields (has a) (body w i e)) -> has a w -> yields (has a) (for_locals g body w).
Proof.
  intros Hb Hw. unfold for_locals. ends_step. apply ends_foldM; [|done]. intros s i _ Hs. do 2 ends_step. by apply Hb.
Qed.

Lemma global_schedule_has a g when w : has a w -> yields (has a) (global_schedule g when w).
Proof. apply for_locals_has. intros w' i e Hw'. by apply schedule_has. Qed.

Lemma exitSimLoop_has a m c when r s w : has a w -> yields (has a) (exitSimLoop m c when r s w).
Proof.
  intros Hw. unfold exitSimLoop, new_exit_event. apply (ends_bind (fun r => has a r.1)); [|intros [w' ?] Hw'; by apply ends_ok].
  apply (ends_bind (fun r => has a r.1)); [by apply new_global_has|]. intros [w1 g] H1. cbn in H1.
  apply (ends_bind (has a)); [by apply global_schedule_has|]. intros w2 H2. by apply ends_ok.
Qed.

Lemma schedStatEvent_has a d r when rep w : has a w -> yields (has a) (schedStatEvent d r when rep w).
Proof.
  intros Hw. unfold schedStatEvent. apply (ends_bind (fun r => has a r.1)); [by apply new_global_has|].
  intros [w1 g] H1. by apply global_schedule_has.
Qed.

Lemma globalBarrier_has a g w : has a w -> yields (has a) (globalBarrier g w).
Proof. intros Hw. unfold globalBarrier. ends_step. destruct (Barrier_wait _) as [b []]; ends_step. exact Hw. Qed.

Lemma global_process_has a g w : has a w -> yields (has a) (global_process g w).
Proof.
  intros Hw. unfold global_process. do 2 ends_step.
  destruct (global_class a0); (ends_step; [ends_step; exact Hw|]);
    first [by apply global_schedule_has | by apply schedStatEvent_has].
Qed.
End Frame.

(** ** While traces are read nothing ends the loop *)

Section Fetching.
Context {A : Type} `{Objects A}.

Definition fetched (w : World A) : Prop := true_fetch (objects w) = true.

Lemma has_fetched (m : Res (World A)) w : fetched w -> yields (has (objects w)) m -> yields fetched m.
Proof. intros Hf Hm. apply (ends_mono _ _ _ Hm). intros w' Hw'. unfold fetched. by rewrite Hw'. Qed.

(** What the objects do leaves the traces open. *)
Hypothesis Hprocess : forall o w, fetched w -> yields fetched (process_wrapped o w).
Hypothesis Hpoll : forall w, fetched w -> yields fetched (pollQueue_service w).

Lemma process_fetched e w : fetched w -> yields fetched (process e w).
Proof.
  intros Hw. unfold process. ends_step.
  assert (forall g w, fetched w -> yields fetched (globalBarrier g w)) as Hb.
  { intros g w' Hw'. apply (has_fetched _ w'); [done|]. by apply globalBarrier_has. }
  assert (forall g w, fetched w -> yields fetched (global_process g w)) as Hg.
  { intros g w' Hw'. apply (has_fetched _ w'); [done|]. by apply global_process_has. }
  destruct (event_class a); [by apply Hprocess | ..].
  - apply (ends_bind fetched); [by apply Hb|]. intros w1 H1. apply (ends_bind fetched); [by apply Hg|]. intros w2 H2. by apply Hb.
  - apply (ends_bind fetched); [by apply Hb|]. intros w1 H1. apply (ends_bind fetched); [by apply Hg|]. intros w2 H2.
    apply (ends_bind fetched); [by apply Hb|]. intros w3 H3. apply (has_fetched _ w3); [done|]. by apply handleAsyncInsertions_has.
Qed.

Lemma finish_fetched e w : fetched w -> yields (fun r => fetched r.1 /\ r.2 = None) (finish e w).
Proof.
  intros Hw. unfold finish. ends_step. ends_step; [|by apply ends_ok].
  apply (ends_bind fetched); [apply (has_fetched _ w); [done|]; by apply delete_event_has|]. intros w2 H2. by apply ends_ok.
Qed.

(** No event is returned as the one that ends the simulation. *)
Lemma serviceOne_fetched self w : fetched w -> yields (fun r => fetched r.1 /\ r.2 = None) (serviceOne self w).
Proof.
  intros Hw. unfold serviceOne. ends_step. ends_step. destruct a0 as [[event h] hd]. cbv zeta. ends_step.
  ends_step; [|by apply (finish_fetched event)]. apply (ends_bind fetched); [ends_step; [by apply process_fetched | by apply ends_ok]|].
  intros w1 Hf1. unfold isExitEvent. rewrite bool_decide_eq_false_2 by (unfold fetched in Hf1; congruence). by apply (finish_fetched event).
Qed.

Lemma async_requests_fetched self w : fetched w -> yields (fun r => fetched r.1) (async_requests self w).
Proof.
  intros Hw. unfold async_requests. ends_step; [|by apply ends_ok]. cbv zeta.
  apply (ends_bind fetched).
  { ends_step; [|by apply ends_ok]. ends_step. apply (ends_bind fetched); [|intros w2 H2; by apply ends_ok].
    eapply has_fetched; [exact Hw|]. by apply schedStatEvent_has. }
  intros w1 H1. apply (ends_bind fetched).
  { ends_step; [|by apply ends_ok]. ends_step. eapply has_fetched; [exact H1|]. by apply exitSimLoop_has. }
  intros w2 H2. apply (ends_bind fetched); [ends_step; [by apply Hpoll | by apply ends_ok]|].
  intros w3 H3. ends_step; by apply ends_ok.
Qed.

Lemma sim_turn_fetched self w : fetched w ->
  yields (fun r => fetched r.1 /\ (r.2 = None \/ r.2 = Some None)) (sim_turn self w).
Proof.
  intros Hw. unfold sim_turn. do 4 ends_step. ends_step. rewrite bool_decide_eq_false_2 by (unfold fetched in Hw; congruence).
  cbn [mbind Res_bind]. apply (ends_bind (fun r => fetched r.1 /\ r.2 = None)); [by apply serviceOne_fetched|].
  intros [w1 e] [Hf1 He]. cbn in Hf1, He. subst e. apply (ends_bind (fun r => fetched r.1)); [by apply async_requests_fetched|].
  intros [w2 []] Hf2; apply ends_ok; auto.
Qed.

Lemma sim_turns_fetched fuel self w : fetched w ->
  yields (fun r => fetched r.1 /\ (r.2 = None \/ r.2 = Some None)) (sim_turns fuel self w).
Proof.
  revert w. induction fuel as [|fuel IH]; intros w Hw; cbn [sim_turns]; [apply ends_ok; auto|].
  eapply ends_bind; [by apply sim_turn_fetched|]. intros [w1 r] [H1 Hr]. cbn in H1, Hr.
  destruct Hr as [->| ->]; [by apply IH | apply ends_ok; auto].
Qed.
End Fetching.

(** C35: while a trace is being read nothing ends the simulation: neither the
    limit that [simulate] was called with nor any other exit event makes it
    return. *)
Theorem simulate_never_returns {A} `{Objects A} fuel num_cycles (w : World A) :
  fetched w ->
  (forall o w, fetched w -> yields fetched (process_wrapped o w)) ->
  (forall w, fetched w -> yields fetched (pollQueue_service w)) ->
  forall r, simulate fuel num_cycles w <> Ok r.
Proof.
  intros Hw Hprocess Hpoll r Hr. cut (yields (fun _ => False) (simulate fuel num_cycles w)).
  { intros Hy. exact (ends_result _ _ _ Hy Hr). }
  assert (forall p f c w, fetched w -> yields (fun r => fetched r.1) (new_global p f c w)) as Hnew.
  { intros p f c w' Hw'. eapply ends_mono; [by apply new_global_has|]. intros x Hx. unfold fetched. by rewrite Hx. }
  assert (forall g t w, fetched w -> yields fetched (global_schedule g t w)) as Hsch.
  { intros g t w' Hw'. apply (has_fetched _ w'); [done|]. by apply global_schedule_has. }
  unfold simulate. ends_step. cbv zeta. apply (ends_bind (fun r => fetched r.1)).
  { apply (ends_bind (fun r => fetched r.1)); [by apply Hnew|]. intros [w1 g] Hw1. cbn in Hw1.
    apply (ends_bind fetched); [by apply Hsch|]. intros w2 Hw2. by apply ends_ok. }
  intros [w1 limit] Hw1. cbn in Hw1. apply (ends_bind (fun r => fetched r.1)).
  { ends_step; [|by apply ends_ok]. ends_step; [by apply ends_err|].
    apply (ends_bind (fun r => fetched r.1)); [|intros [w3 g3] Hw3; by apply ends_ok].
    apply (ends_bind (fun r => fetched r.1)); [by apply Hnew|]. intros [w2 g] Hw2. cbn in Hw2.
    apply (ends_bind fetched); [by apply Hsch|]. intros w3 Hw3. by apply ends_ok. }
  intros [w2 quantum] Hw2. cbn in Hw2. ends_step. apply (ends_bind (fun r => r.2 = None)).
  { unfold doSimLoop. apply (ends_bind fetched).
    - eapply has_fetched; [exact Hw2|]. by apply handleAsyncInsertions_has.
    - intros w3 Hw3. eapply ends_bind; [by apply (sim_turns_fetched Hprocess Hpoll)|]. intros [w4 ret] [_ Hret]. cbn in Hret.
      destruct Hret as [->| ->]; [by apply ends_err | by apply ends_ok]. }
  intros [w3 e] He. cbn in He. subst e. by apply ends_err.
Qed.

(** ** The end of a trace *)

Section End_of_trace.
Context {A : Type} `{Objects A}.
Context (w0 : World A) (te : EvId) (obj : Z).
Hypothesis Hw0 : quiet w0.

(** The exit event of the loop, and the world that has it. *)
Definition exit_flags : Z := Z.lor Initialized IsExitEvent.

Lemma fresh_items h bs p : chain h bs p -> fresh (dom h) ∉ items bs.
Proof.
  intros Hc Hx. destruct (chain_lookup _ _ _ _ Hc Hx) as (_ & _ & ev & _ & _ & E & _).
  apply (is_fresh (dom h)), elem_of_dom. by exists ev.
Qed.

Lemma exit_scheduled h q a bs msg :
  chain h bs (head q) -> bins_ok bs -> simQuantum w0 = 0 -> in_u64 (_curTick q) ->
  exists h' p' x g w1, exitSimLoop msg 0 (_curTick q) 0 false (world w0 h q a) = Ok (world w1 h' (q <| head := p' |>) a) /\
    quiet w1 /\ chain h' (bins_insert (_curTick q, Sim_Exit_Pri) x bs) p' /\ x ∉ items bs /\ rest_same x h h' /\
    (exists gl, globals w1 !! g = Some gl /\ global_class gl = GlobalSimLoopExitEvent msg 0 0) /\
    exists ev, h' !! x = Some ev /\ squashed ev = false /\ instance ev = instanceCounter w0 + 1 /\
      Flags.isSet (flags ev) AutoDelete = false /\ event_class ev = BarrierEvent g.
Proof.
  intros Hc Hok Hs Hq. set (x := fresh (dom h)). set (g := fresh (dom (globals w0))).
  set (n := instanceCounter w0 + 1). set (ev := mkEvent None None 0 Sim_Exit_Pri exit_flags n None (BarrierEvent g)).
  set (gl := mkGlobal (mkBarrier 1 0 1) [Some x] (GlobalSimLoopExitEvent msg 0 0)).
  set (w1 := w0 <| instanceCounter := n |> <| globals ::= <[g := gl]> |>). set (h1 := <[x := ev]> h).
  assert (quiet w1) as Hw1 by (destruct Hw0; by constructor).
  assert (chain h1 bs (head q)) as Hc1.
  { apply (chain_same h); [|done]. intros y Hy. apply lookup_insert_ne. intros Hxy. apply (fresh_items h bs (head q) Hc). by rewrite <- Hxy in Hy. }
  assert (h1 !! x = Some ev) as Ex by apply lookup_insert_eq.
  destruct (schedule_world w1 Hw1 h1 q a bs x ev (_curTick q) true Hc1 Hok Ex) as (h2 & p2 & Hsch & Hc2 & Hd2);
    [by eapply fresh_items | lia | done | done |].
  destruct (data_insert_at _ _ _ _ Hd2) as (ev2 & E2 & Hev2).
  exists h2, p2, x, g, w1. split; [|split; [done|split; [exact Hc2|split; [by eapply fresh_items|split; [|split]]]]].
  - unfold exitSimLoop, new_exit_event, new_global.
    change (numMainEventQueues (world w0 h q a)) with 1%nat. change (simQuantum (world w0 h q a)) with (simQuantum w0).
    rewrite Hs, Z.add_0_r, u64_small by done. cbn [seq foldM]. unfold new_event.
    change (Z.ldiff (Z.lor IsExitEvent 0) PublicWrite) with 0. cbn [Z.eqb guard_assert mbind Res_bind app].
    unfold global_schedule, for_locals.
    match goal with |- context [globals ?w !! ?g'] => change (globals w) with (<[g := gl]> (globals w0)); change g' with g end.
    rewrite lookup_insert_eq. cbn [of_option mbind Res_bind].
    match goal with |- context [numMainEventQueues ?w] => change (numMainEventQueues w) with 1%nat end.
    cbn [seq foldM barrierEvent gl lookup list_lookup of_option mbind Res_bind].
    match goal with |- context [schedule 0 x _ true ?w] => change w with (world w1 h1 q a) end.
    rewrite Hsch. done.
  - apply (rest_same_trans x h h1); [|by eapply rest_same_insert].
    intros y yv Hy Ey. exists yv. split; [|done]. unfold h1. by rewrite lookup_insert_ne.
  - exists gl. split; [|done]. apply lookup_insert_eq.
  - exists ev2. split; [done|]. unfold data in Hev2. injection Hev2 as _ _ Hf Hi _ Hcl. unfold squashed.
    rewrite Hf, Hi, Hcl. done.
Qed.

Lemma loop_head h q bs t p : loop_state te obj h q bs t p -> exists k e l bs', bs = (k, e :: l) :: bs'.
Proof.
  intros Hl. pose proof (bo_nonempty _ (ls_ok _ _ _ _ _ _ _ Hl)) as Hne. pose proof (ls_in _ _ _ _ _ _ _ Hl) as Hin.
  destruct bs as [|[k [|e l]] bs]; [by apply not_elem_of_nil in Hin | by inversion Hne | by eauto 10].
Qed.

(** The exit event is before whatever is not before it. *)
Lemma bins_insert_first k x bs : not_before k bs -> exists l bs', bins_insert k x bs = (k, x :: l) :: bs'.
Proof.
  destruct bs as [|[k' l] bs]; cbn [bins_insert]; [eauto|]. intros Hk. case_bool_decide; [eauto|].
  rewrite bool_decide_eq_true_2; [destruct (key_cases k k') as [?|[->|?]]; eauto; done|].
  cbn in Hk. destruct (key_cases k k') as [?|[?|?]]; done.
Qed.

Lemma bins_insert_later k x k1 e l bs : key_lt k1 k -> exists bs', bins_insert k x ((k1, e :: l) :: bs) = (k1, e :: l) :: bs'.
Proof.
  intros Hk. cbn [bins_insert]. rewrite bool_decide_eq_false_2 by (intros ?; apply (key_lt_irrefl k); by transitivity k1).
  rewrite bool_decide_eq_false_2 by (intros ->; by apply (key_lt_irrefl k1)). eauto.
Qed.

(** When a trace has ended and nothing else waits at the current tick, the
    next turn of the loop schedules the exit event, serves it and returns it,
    without moving time: the simulation ends with the cause "Completed trace
    simulation". *)
Theorem trace_end_ends_loop h q a bs t p :
  loop_state te obj h q bs t p -> true_fetch a = false -> 13 <= instanceCounter w0 -> simQuantum w0 = 0 ->
  in_u64 (_curTick q) -> not_before (_curTick q, Sim_Exit_Pri) bs ->
  exists w' x g gl, sim_turn 0 (world w0 h q a) = Ok (w', Some (Some x)) /\ globalEvent x w' = Ok (Some g) /\
    globals w' !! g = Some gl /\ global_class gl = GlobalSimLoopExitEvent "Completed trace simulation" 0 0 /\
    curTick w' = Ok (_curTick q).
Proof.
  intros Hl Hf Hn Hs Hq Hnb. destruct (loop_head _ _ _ _ _ Hl) as (k & e & l & bs1 & ->).
  rewrite (sim_turn_begins w0 Hw0 te obj _ _ _ _ _ _ _ _ _ Hl), bool_decide_eq_true_2 by done.
  destruct (exit_scheduled h q a _ "Completed trace simulation" (ls_chain _ _ _ _ _ _ _ Hl) (ls_ok _ _ _ _ _ _ _ Hl) Hs Hq)
    as (h1 & p1 & x & g & w1 & -> & Hw1 & Hc1 & Hx & _ & (gl & Hg & Hgl) & ev & E & Hsq & Hi & Hdel & Hcl).
  pose proof (bins_insert_ok (_curTick q, Sim_Exit_Pri) x _ (ls_ok _ _ _ _ _ _ _ Hl) Hx) as Hok1.
  destruct (bins_insert_first _ x _ Hnb) as (l' & bs' & Hbs). rewrite Hbs in Hc1, Hok1.
  change p1 with (head (q <| head := p1 |>)) in Hc1.
  destruct (service_last w1 Hw1 h1 (q <| head := p1 |>) a _ x l' bs' ev Hc1 Hok1 E) as (h2 & q2 & ev2 & Hserve & Hq2 & E2 & Hcl2);
    [done | lia | done | done |].
  cbn [mbind Res_bind]. rewrite Hserve. cbn [mbind Res_bind]. exists (world w1 h2 q2 a), x, g, gl. split; [done|]. split.
  { unfold globalEvent. change (heap (world w1 h2 q2 a)) with h2. rewrite (deref_at h2 x ev2 E2). cbn [mbind Res_bind].
    by rewrite Hcl2, Hcl. }
  split; [done|]. split; [done|]. rewrite world_curTick by done. by rewrite Hq2.
Qed.

(** C36: an event of anything else that is due at the tick at which a trace
    ended ends the loop in its place, and it is not a global event: the
    assertion of [simulate] on what the loop returned fails. *)
Theorem stray_event_ends_loop h q a k e l bs t p ev o :
  loop_state te obj h q ((k, e :: l) :: bs) t p -> true_fetch a = false -> simQuantum w0 = 0 -> in_u64 (_curTick q) ->
  key_lt k (_curTick q, Sim_Exit_Pri) -> e <> te -> h !! e = Some ev -> squashed ev = false ->
  Flags.isSet (flags ev) AutoDelete = false -> event_class ev = Wrapper o ->
  exists w', sim_turn 0 (world w0 h q a) = Ok (w', Some (Some e)) /\ globalEvent e w' = Ok None.
Proof.
  intros Hl Hf Hs Hq Hk He E Hsq Hdel Hcl.
  rewrite (sim_turn_begins w0 Hw0 te obj _ _ _ _ _ _ _ _ _ Hl), bool_decide_eq_true_2 by done.
  destruct (exit_scheduled h q a _ "Completed trace simulation" (ls_chain _ _ _ _ _ _ _ Hl) (ls_ok _ _ _ _ _ _ _ Hl) Hs Hq)
    as (h1 & p1 & x & g & w1 & -> & Hw1 & Hc1 & Hx & Hrest & _).
  pose proof (bins_insert_ok (_curTick q, Sim_Exit_Pri) x _ (ls_ok _ _ _ _ _ _ _ Hl) Hx) as Hok1.
  destruct (bins_insert_later (_curTick q, Sim_Exit_Pri) x k e l bs Hk) as (bs' & Hbs). rewrite Hbs in Hc1, Hok1.
  change p1 with (head (q <| head := p1 |>)) in Hc1.
  destruct (Hrest e ev) as (ev1 & E1 & Hd1); [intros ->; apply Hx; by left | done|].
  destruct (ls_others _ _ _ _ _ _ _ Hl e) as (ev' & E' & Hev); [by left | done|]. rewrite E in E'. injection E' as <-.
  unfold data in Hd1. injection Hd1 as _ _ Hfl Hi _ Hcl1.
  destruct (service_last w1 Hw1 h1 (q <| head := p1 |>) a _ e l bs' ev1 Hc1 Hok1 E1) as (h2 & q2 & ev2 & Hserve & _ & E2 & Hcl2);
    [by unfold squashed; rewrite Hfl | rewrite Hi; apply Hev | by rewrite Hfl | done |].
  cbn [mbind Res_bind]. rewrite Hserve. cbn [mbind Res_bind]. exists (world w1 h2 q2 a). split; [done|].
  unfold globalEvent. change (heap (world w1 h2 q2 a)) with h2. rewrite (deref_at h2 e ev2 E2). cbn [mbind Res_bind].
  by rewrite Hcl2, Hcl1, Hcl.
Qed.

End End_of_trace.

(** ** Small worlds *)

(** Objects that do nothing; the state is whether a trace is read. *)
Definition idle : Objects bool := {|
  true_fetch := fun b => b; process_wrapped := fun _ => Ok; pollQueue_service := Ok
|}.

Definition plain_event (next : option EvId) (when prio inst object : Z) : Event :=
  mkEvent next None when prio (Z.lor Initialized Scheduled) inst (Some 0%nat) (Wrapper object).
Definition small_world (enable : bool) (h : Heap) (hd : option EvId) (fetch : bool) : World bool :=
  mkWorld h ∅ [mkQueue hd 100 []] 0 false 0 15 enable false false false false false false fetch.

(** gem5 without GemDroid: the limit of [simulate] is served, ends nothing, and
    the loop's assertion that there is an event fails. *)
Lemma simulate_never_returns_witness :
  let w := small_world false ∅ None true in
  simulate (H:=idle) 5 1000 w = Err (AssertFail "!eventq->empty()") /\ forall r, simulate (H:=idle) 5 1000 w <> Ok r.
Proof.
  split; [by vm_compute|]. apply (simulate_never_returns (H:=idle)); [done | by intros; apply ends_ok | by intros; apply ends_ok].
Defined.

(** The platform's event waits for the next cycle. *)
Definition ended_heap : Heap := {[1%positive := plain_event None 200 0 13 0]}.
(** Another event is due in the current tick. *)
Definition stray_heap : Heap := <[2%positive := plain_event (Some 1%positive) 100 50 15 8]> ended_heap.

Lemma trace_end_ends_loop_witness :
  exists w' x g gl, sim_turn (H:=idle) 0 (small_world true ended_heap (Some 1%positive) false) = Ok (w', Some (Some x)) /\
    globalEvent x w' = Ok (Some g) /\ globals w' !! g = Some gl /\
    global_class gl = GlobalSimLoopExitEvent "Completed trace simulation" 0 0 /\ curTick w' = Ok 100.
Proof.
  apply (trace_end_ends_loop (H:=idle) (small_world true ended_heap (Some 1%positive) false) 1%positive 0
           ltac:(done) ended_heap (mkQueue (Some 1%positive) 100 []) false [((200, 0), [1%positive])] 200 0); try done.
  - constructor.
    + cbn. repeat (split || eexists).
    + constructor; [by repeat constructor | by repeat constructor | apply NoDup_singleton].
    + by left.
    + eexists. split; [done|]. by constructor.
    + intros e He Hne. apply list_elem_of_singleton in He. done.
    + repeat constructor. cbn. lia.
  - cbn. unfold key_lt. cbn. lia.
Defined.

Lemma stray_event_ends_loop_witness :
  exists w', sim_turn (H:=idle) 0 (small_world true stray_heap (Some 2%positive) false) = Ok (w', Some (Some 2%positive)) /\
    globalEvent 2%positive w' = Ok None.
Proof.
  apply (stray_event_ends_loop (H:=idle) (small_world true stray_heap (Some 2%positive) false) 1%positive 0
           ltac:(done) stray_heap (mkQueue (Some 2%positive) 100 []) false (100, 50) 2%positive [] [((200, 0), [1%positive])] 200 0
           (plain_event (Some 1%positive) 100 50 15 8) 8); try done.
  - constructor.
    + cbn. repeat (split || eexists).
    + constructor; [| by repeat constructor |].
      * repeat constructor; cbn; unfold key_lt; cbn; lia.
      * cbn. repeat (apply NoDup_cons; split; [set_solver|]). apply NoDup_nil_2.
    + cbn. set_solver.
    + eexists. split; [done|]. by constructor.
    + intros e He Hne. apply elem_of_cons in He as [->|He]; [eexists; split; [done|]; by constructor|].
      apply list_elem_of_singleton in He. done.
    + apply Forall_cons. split; [cbn; lia|]. apply Forall_cons. split; [cbn; lia | by apply Forall_nil].
  - right. split; [done | by vm_compute].
Defined.
End ExitTheorems.
