(* ===== verification/IntMath.v ===== *)
(** * Integer and bit-field arithmetic ([base/intmath.hh], [base/intmath.cc], [base/bitfield.hh])

    The helpers the simulator computes sizes, alignments and fields with, on
    unsigned 64-bit values unless their width is said. *)

From S2P Require Import Prelude.

Module IntMath.

Definition W64 : Z := 18446744073709551616.

(** ** [base/intmath.hh] *)

(** [n & ~(n - 1)] *)
Definition leastSigBit (n : Z) : Z := Z.land n (Z.lnot (n - 1)).
Definition isPowerOf2 (n : Z) : bool := negb (Z.eqb n 0) && Z.eqb (leastSigBit n) n.

(** The loop multiplies [e - 1] times. *)
Fixpoint power_loop (turns : nat) (n result : Z) : Z :=
  match turns with O => result | S turns => power_loop turns n (u64 (result * n)) end.
Definition power (n e : Z) : Z := if Z.eqb e 0 then 1 else power_loop (Z.to_nat (e - 1)) n n.

(** One [if (x & mask) { y += k; x >>= k; }]. *)
Definition log_step (m k : Z) (s : Z * Z) : Z * Z :=
  let '(x, y) := s in if Z.eqb (Z.land x m) 0 then s else (Z.shiftr x k, y + k).

Definition floorLog2_u32 (x : Z) : Res Z :=
  if Z.ltb 0 x then
    Ok (log_step 2 1 (log_step 12 2 (log_step 240 4 (log_step 65280 8 (log_step 4294901760 16 (x, 0)))))).2
  else Err (AssertFail "x > 0").
Definition floorLog2 (x : Z) : Res Z :=
  if Z.ltb 0 x then
    Ok (log_step 2 1 (log_step 12 2 (log_step 240 4 (log_step 65280 8 (log_step 4294901760 16
         (log_step 18446744069414584320 32 (x, 0))))))).2
  else Err (AssertFail "x > 0").

Definition ceilLog2 (n : Z) : Res Z := if Z.eqb n 1 then Ok 0 else y ← floorLog2 (u64 (n - 1)); Ok (y + 1).
Definition floorPow2 (n : Z) : Res Z := y ← floorLog2 n; Ok (u64 (Z.shiftl 1 y)).
Definition ceilPow2 (n : Z) : Res Z := y ← ceilLog2 n; Ok (u64 (Z.shiftl 1 y)).

Definition divCeil (a b : Z) : Z := u64 (a + b - 1) / b.
Definition roundUp (val align : Z) : Z := let mask := u64 (align - 1) in Z.land (u64 (val + mask)) (Z.lnot mask).
Definition roundDown (val align : Z) : Z := let mask := u64 (align - 1) in Z.land val (Z.lnot mask).

(** [isPrime]: trial division by 5, 7, 11, 13, ..., while the square is at
    most [n]; neither 2 nor 3 is tried. *)
Fixpoint isPrime_loop (fuel : nat) (n i : Z) : Res bool :=
  match fuel with
  | O => Err OutOfFuel
  | S fuel =>
      if Z.leb (i * i) n then
        if Z.eqb (n mod i) 0 || Z.eqb (n mod (i + 2)) 0 then Ok false else isPrime_loop fuel n (i + 6)
      else Ok true
  end.
Definition isPrime (n : Z) : Res bool :=
  if Z.eqb n 2 || Z.eqb n 3 then Ok true else isPrime_loop (S (Z.to_nat n)) n 5.

(** [prevPrime]; [%] of a negative number is not reached for [0 < n]. *)
Fixpoint prevPrime_loop (fuel : nat) (n decr : Z) : Res Z :=
  match fuel with
  | O => Err OutOfFuel
  | S fuel =>
      p ← isPrime n;
      if (p : bool) then Ok n else prevPrime_loop fuel (n - decr) (6 - decr)
  end.
Definition prevPrime (n : Z) : Res Z :=
  let n := if Z.even n then n - 1 else n in
  let decr := Z.rem n 3 in
  let '(n, decr) := if Z.eqb decr 0 then (n - 2, 2) else if Z.eqb decr 1 then (n, 4) else (n, decr) in
  prevPrime_loop (S (Z.to_nat n)) n decr.

(** ** [base/bitfield.hh] *)

Definition mask (nbits : Z) : Z := if Z.eqb nbits 64 then W64 - 1 else u64 (u64 (Z.shiftl 1 nbits) - 1).
Definition bits (val first last : Z) : Z := Z.land (Z.shiftr val last) (mask (first - last + 1)).
Definition bit (val b : Z) : Z := bits val b b.
Definition mbits (val first last : Z) : Z := Z.land val (Z.ldiff (mask (first + 1)) (mask last)).
Definition mask2 (first last : Z) : Z := mbits (W64 - 1) first last.

(** The value as an [int64_t]. *)
Definition i64 (x : Z) : Z := let y := u64 x in if Z.ltb y 9223372036854775808 then y else y - W64.
Definition sext (N val : Z) : Z := i64 (if Z.eqb (bit val (N - 1)) 0 then val else Z.lor val (Z.ldiff (W64 - 1) (mask N))).

Definition insertBits (val first last bit_val : Z) : Z :=
  let bmask := u64 (Z.shiftl (mask (first - last + 1)) last) in
  Z.lor (Z.land (u64 (Z.shiftl bit_val last)) bmask) (Z.ldiff val bmask).

Definition findMsbSet (val : Z) : Z :=
  let step (first last k : Z) (s : Z * Z) :=
    let '(v, msb) := s in if Z.eqb (bits v first last) 0 then s else (Z.shiftr v k, msb + k) in
  if Z.eqb val 0 then 0
  else (step 1 1 1 (step 3 2 2 (step 7 4 4 (step 15 8 8 (step 31 16 16 (step 63 32 32 (val, 0))))))).2.
Definition findLsbSet (val : Z) : Z :=
  let step (first k : Z) (s : Z * Z) :=
    let '(v, lsb) := s in if Z.eqb (bits v first 0) 0 then (Z.shiftr v k, lsb + k) else s in
  if Z.eqb val 0 then 64
  else (step 0 1 (step 1 2 (step 3 4 (step 7 8 (step 15 16 (step 31 32 (val, 0))))))).2.

(** ** Logarithms *)

(** A mask of the bits from [k] up to a bound of [x]. *)
Lemma land_high x k w : 0 <= k <= w -> 0 <= x < 2 ^ w -> (Z.land x (2 ^ w - 2 ^ k) = 0 <-> x < 2 ^ k).
Proof.
  intros Hk Hx. assert (0 < 2 ^ k) as Hp by (apply Z.pow_pos_nonneg; lia). replace (2 ^ w - 2 ^ k) with (Z.shiftl (Z.ones (w - k)) k).
  2:{ rewrite Z.shiftl_mul_pow2, Z.ones_equiv by lia. replace (2 ^ w) with (2 ^ (w - k) * 2 ^ k) by (rewrite <- Z.pow_add_r by lia; f_equal; lia). lia. }
  split; intros H.
  - assert (Z.shiftr x k = 0) as Hs.
    { assert (Z.land (Z.shiftr x k) (Z.ones (w - k)) = 0) as Hl.
      { apply (f_equal (fun z => Z.shiftr z k)) in H. rewrite Z.shiftr_land, Z.shiftr_shiftl_l, Z.sub_diag, Z.shiftl_0_r, Z.shiftr_0_l in H by lia. done. }
      rewrite Z.land_ones in Hl by lia. rewrite Z.mod_small in Hl; [done|]. rewrite Z.shiftr_div_pow2 by lia. split; [apply Z.div_pos; lia|].
      apply Z.div_lt_upper_bound; [lia|]. rewrite <- Z.pow_add_r by lia. replace (k + (w - k)) with w by lia. lia. }
    rewrite Z.shiftr_div_pow2 in Hs by lia. apply Z.div_small_iff in Hs; lia.
  - apply Z.bits_inj'. intros i Hi. rewrite Z.land_spec, Z.shiftl_spec, Z.bits_0 by done. destruct (Z.ltb_spec i k).
    + rewrite (Z.testbit_neg_r _ (i - k)) by lia. apply andb_false_r.
    + destruct (Z.eq_dec x 0) as [->|]; [by rewrite Z.bits_0|]. rewrite Z.bits_above_log2; [done | lia |].
      apply Z.lt_le_trans with k; [|done]. apply Z.log2_lt_pow2; lia.
Qed.

(** A step halves the range in which the leading bit is still to be found. *)
Lemma log_step_spec x y k n : 0 < k -> 0 < x < 2 ^ (k + k) -> n = Z.log2 x + y ->
  let '(x', y') := log_step (2 ^ (k + k) - 2 ^ k) k (x, y) in 0 < x' < 2 ^ k /\ n = Z.log2 x' + y'.
Proof.
  intros Hk Hx Hn. unfold log_step. pose proof (land_high x k (k + k) ltac:(lia) ltac:(lia)) as Hl.
  destruct (Z.eqb_spec (Z.land x (2 ^ (k + k) - 2 ^ k)) 0) as [E|E].
  - split; [|done]. split; [lia | by apply Hl].
  - assert (2 ^ k <= x) as Hle by (destruct (Z.lt_ge_cases x (2 ^ k)); [tauto | done]).
    rewrite Z.log2_shiftr, Z.shiftr_div_pow2 by lia. pose proof (Z.log2_le_pow2 x k ltac:(lia)) as Hk2.
    assert (k <= Z.log2 x) by tauto. split; [|lia]. split.
    + apply Z.div_str_pos. split; [apply Z.pow_pos_nonneg; lia | done].
    + apply Z.div_lt_upper_bound; [apply Z.pow_pos_nonneg; lia|]. rewrite <- Z.pow_add_r by lia. apply Hx.
Qed.

Lemma floorLog2_log2 x : 0 < x < W64 -> floorLog2 x = Ok (Z.log2 x).
Proof.
  intros Hx. unfold floorLog2. destruct (Z.ltb_spec 0 x); [|lia]. f_equal. symmetry.
  pose proof (log_step_spec x 0 32 (Z.log2 x) ltac:(lia) Hx ltac:(lia)) as H1. change (2 ^ (32 + 32) - 2 ^ 32) with 18446744069414584320 in H1.
  destruct (log_step _ 32 (x, 0)) as [x1 y1]. destruct H1 as [H1 E1].
  pose proof (log_step_spec x1 y1 16 (Z.log2 x) ltac:(lia) H1 E1) as H2. change (2 ^ (16 + 16) - 2 ^ 16) with 4294901760 in H2.
  destruct (log_step _ 16 _) as [x2 y2]. destruct H2 as [H2 E2].
  pose proof (log_step_spec x2 y2 8 (Z.log2 x) ltac:(lia) H2 E2) as H3. change (2 ^ (8 + 8) - 2 ^ 8) with 65280 in H3.
  destruct (log_step _ 8 _) as [x3 y3]. destruct H3 as [H3 E3].
  pose proof (log_step_spec x3 y3 4 (Z.log2 x) ltac:(lia) H3 E3) as H4. change (2 ^ (4 + 4) - 2 ^ 4) with 240 in H4.
  destruct (log_step _ 4 _) as [x4 y4]. destruct H4 as [H4 E4].
  pose proof (log_step_spec x4 y4 2 (Z.log2 x) ltac:(lia) H4 E4) as H5. change (2 ^ (2 + 2) - 2 ^ 2) with 12 in H5.
  destruct (log_step _ 2 _) as [x5 y5]. destruct H5 as [H5 E5].
  pose proof (log_step_spec x5 y5 1 (Z.log2 x) ltac:(lia) H5 E5) as H6. change (2 ^ (1 + 1) - 2 ^ 1) with 2 in H6.
  destruct (log_step _ 1 _) as [x6 y6]. destruct H6 as [H6 E6]. cbn [snd].
  assert (x6 = 1) as -> by (cbn in H6; lia). cbn in E6. lia.
Qed.

(** [ceilLog2] is the least exponent whose power of two is at least [n]. *)
Lemma ceilLog2_log2_up n : 0 < n < W64 -> ceilLog2 n = Ok (Z.log2_up n).
Proof.
  intros Hn. unfold ceilLog2. destruct (Z.eqb_spec n 1) as [->|]; [done|].
  rewrite u64_small by (unfold in_u64, W64 in *; lia). rewrite floorLog2_log2 by lia. cbn [mbind Res_bind].
  f_equal. rewrite Z.log2_up_eqn by lia. rewrite <- Z.sub_1_r. lia.
Qed.

(** ** Powers of two *)

Lemma isPowerOf2_spec n : 0 <= n -> isPowerOf2 n = true <-> exists k, 0 <= k /\ n = 2 ^ k.
Proof.
  intros Hn. unfold isPowerOf2, leastSigBit. rewrite <- Z.ldiff_land. split.
  - rewrite andb_true_iff, negb_true_iff, Z.eqb_neq, Z.eqb_eq. intros [Hz Hl]. exists (Z.log2 n).
    pose proof (Z.log2_nonneg n). pose proof (Z.log2_spec n ltac:(lia)) as [Hlo Hhi]. split; [done|].
    destruct (Z.eq_dec n (2 ^ Z.log2 n)) as [|Hne]; [done|]. exfalso.
    assert (Z.testbit (Z.ldiff n (n - 1)) (Z.log2 n) = Z.testbit n (Z.log2 n)) as Hb by (by rewrite Hl).
    rewrite Z.ldiff_spec, Z.bit_log2 in Hb by lia.
    assert (Z.log2 (n - 1) = Z.log2 n) as Hlog by (apply Z.log2_unique; lia).
    rewrite <- Hlog, Z.bit_log2 in Hb by lia. done.
  - intros (k & Hk & ->). assert (0 < 2 ^ k) by (apply Z.pow_pos_nonneg; lia).
    rewrite andb_true_iff, negb_true_iff, Z.eqb_neq, Z.eqb_eq. split; [lia|].
    replace (2 ^ k - 1) with (Z.ones k) by (rewrite Z.ones_equiv; lia).
    rewrite Z.ldiff_ones_r by done. rewrite Z.shiftr_div_pow2, Z.div_same, Z.shiftl_1_l by lia. done.
Qed.

(** [ceilPow2] is the least power of two that is at least its argument. *)
Theorem ceilPow2_least n : 0 < n <= 9223372036854775808 ->
  exists p, ceilPow2 n = Ok p /\ n <= p /\ isPowerOf2 p = true /\ forall q, isPowerOf2 q = true -> n <= q -> p <= q.
Proof.
  intros Hn. unfold ceilPow2. rewrite ceilLog2_log2_up by (unfold W64; lia). cbn [mbind Res_bind]. eexists. split; [done|].
  pose proof (Z.log2_up_nonneg n) as H0.
  assert (Z.log2_up n <= 63) as H63 by (apply Z.log2_up_le_pow2; lia).
  assert (2 ^ Z.log2_up n <= 2 ^ 63) by (apply Z.pow_le_mono_r; lia).
  rewrite Z.shiftl_1_l, u64_small by (unfold in_u64; lia). split; [|split].
  - destruct (Z.eq_dec n 1) as [->|]; [done|]. apply Z.log2_up_spec. lia.
  - apply isPowerOf2_spec; [lia|]. by exists (Z.log2_up n).
  - intros q Hq Hle. apply isPowerOf2_spec in Hq as (k & Hk & ->); [|lia].
    apply Z.pow_le_mono_r; [lia|]. apply Z.log2_up_le_pow2; lia.
Qed.

Lemma land_lnot_mask x k : 0 <= k -> Z.land x (Z.lnot (2 ^ k - 1)) = x / 2 ^ k * 2 ^ k.
Proof.
  intros Hk. rewrite <- Z.ldiff_land. replace (2 ^ k - 1) with (Z.ones k) by (rewrite Z.ones_equiv; lia).
  rewrite Z.ldiff_ones_r by done. by rewrite Z.shiftl_mul_pow2, Z.shiftr_div_pow2.
Qed.

(** Alignment to a power of two, up and down, when nothing overflows. *)
Theorem round_spec val k : 0 <= k < 32 -> 0 <= val -> val + 2 ^ k <= W64 ->
  roundDown val (2 ^ k) = 2 ^ k * (val / 2 ^ k) /\
  val <= roundUp val (2 ^ k) < val + 2 ^ k /\ (2 ^ k | roundUp val (2 ^ k)).
Proof.
  intros Hk Hv Hb. assert (0 < 2 ^ k) as Hp by (apply Z.pow_pos_nonneg; lia). unfold roundDown, roundUp, W64 in *.
  rewrite (u64_small (2 ^ k - 1)), (u64_small (val + (2 ^ k - 1))), !land_lnot_mask by (unfold in_u64; lia).
  pose proof (Z.div_mod (val + (2 ^ k - 1)) (2 ^ k) ltac:(lia)). pose proof (Z.mod_pos_bound (val + (2 ^ k - 1)) (2 ^ k) Hp).
  split; [lia|]. split; [lia|]. by exists ((val + (2 ^ k - 1)) / 2 ^ k).
Qed.

Lemma power_loop_spec turns n : forall result, power_loop turns n result mod W64 = (result * n ^ Z.of_nat turns) mod W64.
Proof.
  induction turns as [|turns IH]; intros result; [cbn; f_equal; lia|]. cbn [power_loop].
  rewrite IH, Nat2Z.inj_succ, Z.pow_succ_r by lia. unfold u64. fold W64.
  rewrite Z.mul_mod_idemp_l by done. f_equal. lia.
Qed.

(** [power] wraps around in 64 bits. *)
Theorem power_spec n e : 0 <= n < 4294967296 -> 0 <= e -> u64 (power n e) = u64 (n ^ e).
Proof.
  intros Hn He. unfold power. destruct (Z.eqb_spec e 0) as [->|]; [done|]. unfold u64. fold W64. rewrite power_loop_spec.
  f_equal. rewrite Z2Nat.id by lia. rewrite <- Z.pow_succ_r by lia. f_equal. lia.
Qed.

(** Neither 2 nor 3 is tried: 4 counts as a prime, and the prime below 25 is
    said to be 21. *)
Lemma isPrime_4 : isPrime 4 = Ok true.
Proof. reflexivity. Qed.
Lemma prevPrime_25 : prevPrime 25 = Ok 21.
Proof. reflexivity. Qed.

(** ** Fields *)

Lemma mask_ones n : 0 <= n <= 64 -> mask n = Z.ones n.
Proof.
  intros Hn. unfold mask. destruct (Z.eqb_spec n 64) as [->|]; [done|]. rewrite Z.shiftl_1_l, Z.ones_equiv.
  assert (2 ^ n <= 2 ^ 63) by (apply Z.pow_le_mono_r; lia). assert (0 < 2 ^ n) by (apply Z.pow_pos_nonneg; lia).
  rewrite (u64_small (2 ^ n)), u64_small by (unfold in_u64; lia). lia.
Qed.

Lemma testbit_bits val first last i : 0 <= last <= first -> first < 64 -> 0 <= i ->
  Z.testbit (bits val first last) i = Z.ltb i (first - last + 1) && Z.testbit val (i + last).
Proof.
  intros Hl Hf Hi. unfold bits. rewrite mask_ones, Z.land_spec, Z.shiftr_spec by lia. rewrite andb_comm. f_equal.
  destruct (Z.ltb_spec i (first - last + 1)); [apply Z.ones_spec_low; lia | apply Z.ones_spec_high; lia].
Qed.

Lemma testbit_u64 x i : 0 <= i -> Z.testbit (u64 x) i = Z.ltb i 64 && Z.testbit x i.
Proof.
  intros Hi. unfold u64. change 18446744073709551616 with (2 ^ 64). destruct (Z.ltb_spec i 64).
  - by rewrite Z.mod_pow2_bits_low.
  - by rewrite Z.mod_pow2_bits_high by lia.
Qed.

Lemma testbit_insertBits val first last bit_val i : 0 <= last <= first -> first < 64 -> 0 <= i < 64 ->
  Z.testbit (insertBits val first last bit_val) i =
    if Z.leb last i && Z.leb i first then Z.testbit bit_val (i - last) else Z.testbit val i.
Proof.
  intros Hl Hf Hi. unfold insertBits. rewrite mask_ones by lia.
  rewrite Z.lor_spec, Z.land_spec, Z.ldiff_spec, !testbit_u64, !Z.shiftl_spec by lia.
  destruct (Z.ltb_spec i 64); [|lia]. cbn [andb].
  destruct (Z.leb_spec last i); [|rewrite (Z.testbit_neg_r (Z.ones _)) by lia; rewrite andb_false_r, andb_true_r; done].
  destruct (Z.leb_spec i first); cbn [andb].
  - rewrite Z.ones_spec_low by lia. rewrite andb_true_r, andb_false_r. apply orb_false_r.
  - rewrite Z.ones_spec_high by lia. rewrite andb_false_r, andb_true_r. done.
Qed.

(** A field that was inserted is read back, and the bits outside it stay. *)
Theorem insert_extract val first last b : 0 <= last <= first -> first < 64 ->
  bits (insertBits val first last b) first last = Z.land b (Z.ones (first - last + 1)) /\
  forall f l, 0 <= l <= f -> f < 64 -> f < last \/ first < l -> bits (insertBits val first last b) f l = bits val f l.
Proof.
  intros Hl Hf. split.
  - apply Z.bits_inj'. intros i Hi. rewrite testbit_bits by lia.
    rewrite Z.land_spec. destruct (Z.ltb_spec i (first - last + 1)).
    + rewrite testbit_insertBits by lia. replace (Z.leb last (i + last) && Z.leb (i + last) first) with true by lia.
      rewrite Z.ones_spec_low by lia. replace (i + last - last) with i by lia. by rewrite andb_true_r.
    + rewrite Z.ones_spec_high by lia. by rewrite andb_false_r.
  - intros f l Hfl Hf2 Hd. apply Z.bits_inj'. intros i Hi. rewrite !testbit_bits by lia.
    destruct (Z.ltb_spec i (f - l + 1)); [|done]. rewrite testbit_insertBits by lia.
    by replace (Z.leb last (i + l) && Z.leb (i + l) first) with false by lia.
Qed.

(** [sext] reads [N] bits in two's complement. *)
Theorem sext_spec N val : 1 <= N <= 64 -> 0 <= val < 2 ^ N ->
  sext N val = if Z.ltb val (2 ^ (N - 1)) then val else val - 2 ^ N.
Proof.
  intros HN Hv. assert (2 ^ N <= 2 ^ 64) by (apply Z.pow_le_mono_r; lia). change (2 ^ 64) with W64 in *.
  assert (2 ^ N = 2 * 2 ^ (N - 1)) as Hp by (rewrite <- Z.pow_succ_r by lia; f_equal; lia).
  assert (0 < 2 ^ (N - 1)) by (apply Z.pow_pos_nonneg; lia). unfold sext, bit, bits.
  rewrite mask_ones by lia. replace (N - 1 - (N - 1) + 1) with 1 by lia. rewrite Z.land_ones by lia.
  rewrite Z.shiftr_div_pow2 by lia. change (2 ^ 1) with 2.
  destruct (Z.ltb_spec val (2 ^ (N - 1))).
  - rewrite Z.div_small by lia. change (0 mod 2 =? 0) with true. cbn [negb].
    unfold i64. rewrite u64_small by (unfold in_u64, W64 in *; lia).
    assert (2 ^ (N - 1) <= 2 ^ 63) by (apply Z.pow_le_mono_r; lia). destruct (Z.ltb_spec val 9223372036854775808); lia.
  - replace (val / 2 ^ (N - 1)) with 1 by (apply (Z.div_unique _ _ _ (val - 2 ^ (N - 1))); lia). cbn [Z.modulo Z.eqb].
    change (1 mod 2 =? 0) with false. cbn [Z.eqb].
    assert (Z.lor val (Z.ldiff (W64 - 1) (mask N)) = val + (W64 - 2 ^ N)) as ->.
    { rewrite mask_ones by lia. change (W64 - 1) with (Z.ones 64).
      replace (Z.ldiff (Z.ones 64) (Z.ones N)) with (W64 - 2 ^ N).
      2:{ rewrite Z.ldiff_ones_r by lia. rewrite Z.shiftr_div_pow2, Z.shiftl_mul_pow2, Z.ones_equiv by lia.
          change (Z.pred (2 ^ 64)) with (W64 - 1). replace W64 with (2 ^ (64 - N) * 2 ^ N).
          2:{ rewrite <- Z.pow_add_r by lia. change W64 with (2 ^ 64). f_equal. lia. }
          rewrite <- (Z.div_unique (2 ^ (64 - N) * 2 ^ N - 1) (2 ^ N) (2 ^ (64 - N) - 1) (2 ^ N - 1)); [lia|lia|ring]. }
      replace (W64 - 2 ^ N) with (Z.shiftl (2 ^ (64 - N) - 1) N).
      2:{ rewrite Z.shiftl_mul_pow2, Z.mul_sub_distr_r, <- Z.pow_add_r by lia. replace (64 - N + N) with 64 by lia. change W64 with (2 ^ 64). lia. }
      rewrite <- Z.lxor_lor, <- Z.add_nocarry_lxor; [done| |].
      all: apply Z.bits_inj'; intros i Hi; rewrite Z.land_spec, Z.shiftl_spec, Z.bits_0 by done;
        destruct (Z.ltb_spec i N); [rewrite (Z.testbit_neg_r _ (i - N)) by lia; apply andb_false_r|];
        (destruct (Z.eq_dec val 0) as [->|]; [by rewrite Z.bits_0|]; rewrite (Z.bits_above_log2 val);
          [done | lia | apply Z.lt_le_trans with N; [apply Z.log2_lt_pow2; lia | done]]). }
    unfold i64. rewrite u64_small by (unfold in_u64, W64 in *; lia).
    assert (2 ^ N - 2 ^ (N - 1) <= 2 ^ 63).
    { rewrite Hp. assert (2 ^ (N - 1) <= 2 ^ 63) by (apply Z.pow_le_mono_r; lia). lia. }
    destruct (Z.ltb_spec (val + (W64 - 2 ^ N)) 9223372036854775808); unfold W64 in *; lia.
Qed.

End IntMath.
