(* ===== verification/AddrRange.v ===== *)
(** * Address ranges ([base/addr_range.hh])

    A range of addresses, of which interleaved ranges own every n-th stripe:
    those whose bits [intlvHighBit] down to [intlvHighBit - intlvBits + 1] are
    [intlvMatch]. The three fields are 8 bits wide. [fatal] is [Exit], [panic]
    is [Abort]. *)

From S2P Require Import Prelude.
From S2P Require Import IntMath.

Module AddrRange.
Import IntMath.

Definition u8 (x : Z) : Z := x mod 256.

Record AddrRange := mkAddrRange {
  _start : Z;
  _end : Z;
  intlvHighBit : Z;
  intlvBits : Z;
  intlvMatch : Z
}.

#[export] Instance AddrRange_eq_dec : EqDecision AddrRange.
Proof. solve_decision. Defined.

(** The constructors, and the functions that stand for them. *)
Definition empty_range : AddrRange := mkAddrRange 1 0 0 0 0.
Definition RangeIn (s e : Z) : AddrRange := mkAddrRange s e 0 0 0.
Definition RangeEx (s e : Z) : AddrRange := RangeIn s (u64 (e - 1)).
Definition RangeSize (s size : Z) : AddrRange := RangeIn s (u64 (s + size - 1)).

Definition interleaved (r : AddrRange) : bool := negb (Z.eqb (intlvBits r) 0).
Definition granularity (r : AddrRange) : Z := u64 (Z.shiftl 1 (intlvHighBit r - intlvBits r + 1)).
Definition stripes (r : AddrRange) : Z := u32 (Z.shiftl 1 (intlvBits r)).
Definition size (r : AddrRange) : Z := Z.shiftr (u64 (_end r - _start r + 1)) (intlvBits r).
Definition valid (r : AddrRange) : bool := Z.ltb (_start r) (_end r).

Definition mergesWith (self r : AddrRange) : bool :=
  Z.eqb (_start r) (_start self) && Z.eqb (_end r) (_end self) &&
  Z.eqb (intlvHighBit r) (intlvHighBit self) && Z.eqb (intlvBits r) (intlvBits self).

Definition contains (self : AddrRange) (a : Z) : bool :=
  Z.leb (_start self) a && Z.leb a (_end self) &&
  (negb (interleaved self) ||
   Z.eqb (bits a (intlvHighBit self) (intlvHighBit self - intlvBits self + 1)) (intlvMatch self)).

Definition overlaps (self r : AddrRange) : bool := Z.leb (_start self) (_end r) && Z.leb (_start r) (_end self).

Definition intersects (self r : AddrRange) : Res bool :=
  if negb (interleaved self) then Ok (overlaps self r)
  else if Z.eqb (size r) 1 then Ok (contains self (_start r))
  else if negb (interleaved r) then Ok (overlaps self r)
  else if mergesWith self r then Ok (Z.eqb (intlvMatch self) (intlvMatch r))
  else Err (Abort "Cannot test intersection of interleaved range").

Definition isSubset (self r : AddrRange) : Res bool :=
  if interleaved self then Err (Abort "Cannot test subset of interleaved range")
  else Ok (Z.leb (_start r) (_start self) && Z.leb (_end self) (_end r)).

Definition range_lt (self r : AddrRange) : bool :=
  if Z.eqb (_start self) (_start r) then Z.ltb (intlvMatch self) (intlvMatch r)
  else Z.ltb (_start self) (_start r).

(** The constructor from a collection: [m] is the range built so far. *)
Fixpoint merge_loop (m : AddrRange) (mtch : Z) (ranges : list AddrRange) : Res unit :=
  match ranges with
  | [] => Ok tt
  | r :: ranges =>
      if negb (mergesWith m r) then
        Err (Exit "Can only merge ranges with the same start, end and interleaving bits")
      else if negb (Z.eqb (intlvMatch r) mtch) then Err (Exit "Expected interleave match")
      else merge_loop m (u8 (mtch + 1)) ranges
  end.
Definition merge (ranges : list AddrRange) : Res AddrRange :=
  match ranges with
  | [] => Ok empty_range
  | f :: _ =>
      let m := mkAddrRange (_start f) (_end f) (intlvHighBit f) (intlvBits f) 0 in
      if negb (Z.eqb (zlen ranges) (u64 (Z.shiftl 1 (intlvBits m)))) then
        Err (Exit "Got ranges spanning interleaving bits")
      else _ ← merge_loop m 0 ranges; Ok (RangeIn (_start m) (_end m))
  end.

(** ** Properties *)

(** Fields as the configuration gives them: the slice lies in the address and
    its value fits 8 bits. *)
Definition range_ok (r : AddrRange) : Prop :=
  in_u64 (_start r) /\ in_u64 (_end r) /\ 0 <= intlvBits r <= 8 /\
  intlvBits r <= intlvHighBit r + 1 /\ intlvHighBit r < 64.

Lemma mergesWith_spec self r : mergesWith self r = true <->
  _start r = _start self /\ _end r = _end self /\ intlvHighBit r = intlvHighBit self /\ intlvBits r = intlvBits self.
Proof. unfold mergesWith. rewrite !andb_true_iff, !Z.eqb_eq. tauto. Qed.

Lemma merge_loop_spec m ranges : forall mtch, merge_loop m mtch ranges = Ok tt ->
  0 <= mtch -> mtch + zlen ranges <= 256 ->
  forall i r, ranges !! i = Some r -> mergesWith m r = true /\ intlvMatch r = mtch + Z.of_nat i.
Proof.
  induction ranges as [|r0 ranges IH]; intros mtch H Hm Hlen i r Hi; [done|]. cbn [merge_loop] in H.
  destruct (mergesWith m r0) eqn:E1; [|done]. destruct (Z.eqb_spec (intlvMatch r0) mtch) as [E2|]; [|done]. cbn [negb] in H.
  rewrite zlen_cons in Hlen. destruct i as [|i]; [injection Hi as <-; split; [done | lia]|].
  pose proof (zlen_nonneg ranges). destruct ranges as [|r1 ranges]; [by destruct i|].
  rewrite zlen_cons in *. pose proof (zlen_nonneg ranges). unfold u8 in H. rewrite Z.mod_small in H by lia.
  apply (IH _ H ltac:(lia) ltac:(lia)) in Hi as [? ->]. split; [done | lia].
Qed.

(** The value of the slice of an address. *)
Lemma slice_range a hb nb : 0 <= nb <= 8 -> nb <= hb + 1 -> hb < 64 ->
  0 <= bits a hb (hb - nb + 1) < 2 ^ nb.
Proof.
  intros Hn Hh Hb. unfold bits. replace (hb - (hb - nb + 1) + 1) with nb by lia.
  rewrite mask_ones, Z.land_ones by lia. apply Z.mod_pos_bound. apply Z.pow_pos_nonneg; lia.
Qed.

(** Interleaved ranges that merge are a partition of the range they merge to:
    it contains exactly the addresses that one of them contains, and that is
    exactly one. *)
Theorem merge_partitions ranges m a :
  (forall r, r ∈ ranges -> range_ok r /\ intlvBits r <> 0) -> merge ranges = Ok m ->
  contains m a = true <->
  exists i r, ranges !! i = Some r /\ contains r a = true /\
    forall j r', ranges !! j = Some r' -> contains r' a = true -> j = i.
Proof.
  intros Hok H. destruct ranges as [|f ranges]; cbn [merge] in H.
  { injection H as <-. unfold contains, empty_range. cbn. split; [lia|]. intros (i & r & Hi & _). by destruct i. }
  set (l := f :: ranges) in *. cbn [intlvBits] in H.
  destruct (Hok f) as [(Hs & He & Hb & Hhb & Hh) Hnz]; [left|].
  assert (2 ^ intlvBits f <= 2 ^ 8) as Hp by (apply Z.pow_le_mono_r; lia).
  assert (0 < 2 ^ intlvBits f) by (apply Z.pow_pos_nonneg; lia).
  rewrite Z.shiftl_1_l, u64_small in H by (unfold in_u64; lia).
  destruct (Z.eqb_spec (zlen l) (2 ^ intlvBits f)) as [El|]; [|done]. cbn [negb] in H.
  destruct (merge_loop _ 0 l) as [[]|] eqn:E; [|done]. cbn in H. injection H as <-.
  pose proof (merge_loop_spec _ _ 0 E ltac:(lia) ltac:(lia)) as Hl.
  pose proof (slice_range a (intlvHighBit f) (intlvBits f) Hb Hhb Hh) as Hv.
  set (v := bits a (intlvHighBit f) (intlvHighBit f - intlvBits f + 1)) in *.
  assert (forall i r, l !! i = Some r -> contains r a = Z.leb (_start f) a && Z.leb a (_end f) && Z.eqb v (Z.of_nat i)) as Hc.
  { intros i r Hi. destruct (Hl i r Hi) as [Hm Hmt]. apply mergesWith_spec in Hm as (E1 & E2 & E3 & E4). cbn in E1, E2, E3, E4.
    unfold contains, interleaved. rewrite E1, E2, E3, E4, Hmt. destruct (Z.eqb_spec (intlvBits f) 0); [done|]. done. }
  unfold contains at 1, RangeIn, interleaved. cbn. rewrite andb_true_r. split.
  - intros Ha. destruct (zget_lt l v) as [r Hr]; [lia|]. apply zget_lookup in Hr as [_ Hr].
    exists (Z.to_nat v), r. split; [done|]. rewrite (Hc _ _ Hr), Ha, Z2Nat.id, Z.eqb_refl by lia. split; [done|].
    intros j r' Hj. rewrite (Hc _ _ Hj), Ha. cbn. intros ?%Z.eqb_eq. lia.
  - intros (i & r & Hi & Hci & _). rewrite (Hc _ _ Hi) in Hci. by apply andb_prop in Hci as [? _].
Qed.

(** Ranges without interleaving: the tests are those of the sets of addresses. *)
Theorem plain_tests s1 e1 s2 e2 : s1 <= e1 -> s2 <= e2 ->
  (intersects (RangeIn s1 e1) (RangeIn s2 e2) = Ok true <->
     exists a, contains (RangeIn s1 e1) a = true /\ contains (RangeIn s2 e2) a = true) /\
  (isSubset (RangeIn s1 e1) (RangeIn s2 e2) = Ok true <->
     forall a, contains (RangeIn s1 e1) a = true -> contains (RangeIn s2 e2) a = true).
Proof.
  intros H1 H2. unfold intersects, isSubset, contains, overlaps, RangeIn, interleaved. cbn. split; split.
  - intros [= H]. exists (Z.max s1 s2). lia.
  - intros (a & Ha & Hb). f_equal. lia.
  - intros [= H] a Ha. lia.
  - intros H. f_equal. pose proof (H s1 ltac:(lia)). pose proof (H e1 ltac:(lia)). lia.
Qed.

(** [isSubset] looks at the bounds of the other range only: address 64 is in
    the first range and not in the second, of which it counts as a subset. *)
Lemma isSubset_ignores_interleaving :
  let r := mkAddrRange 0 4095 6 1 0 in
  isSubset (RangeIn 64 127) r = Ok true /\ contains (RangeIn 64 127) 64 = true /\ contains r 64 = false.
Proof. vm_compute. done. Qed.

End AddrRange.
