(* ===== verification/MemPacket.v ===== *)
(** * Requests and packets ([mem/request.hh], [mem/packet.hh], [mem/packet.cc])

    A packet owns its bytes ([data] is the array its pointer points to) and
    holds the request it was made from; the constructor that copies a packet,
    whose data may be shared, is left out. A field of a request that is only
    valid when a private flag says so is an option. The sender's states are a
    stack of opaque values. A [memcpy] that leaves an array is [OutOfRange];
    [panic] is [Abort]. *)

From S2P Require Import Prelude.
From S2P Require Import EventQueue.
From S2P Require Import IntMath.
#[local] Open Scope Z_scope.

Module MemPacket.
Import EventQueue.

Definition u16 (x : Z) : Z := x mod 65536.

(** ** Arrays of bytes *)

Definition read_bytes (m : list Z) (off n : Z) : Res (list Z) :=
  if bool_decide (0 <= off) && bool_decide (0 <= n) && bool_decide (off + n <= zlen m)
  then Ok (take (Z.to_nat n) (drop (Z.to_nat off) m)) else Err OutOfRange.
Definition write_bytes (m : list Z) (off : Z) (src : list Z) : Res (list Z) :=
  if bool_decide (0 <= off) && bool_decide (off + zlen src <= zlen m)
  then Ok (take (Z.to_nat off) m ++ src ++ drop (Z.to_nat (off + zlen src)) m) else Err OutOfRange.

(** Little-endian, which the host and the guest both are. *)
Fixpoint le_bytes (n : nat) (v : Z) : list Z :=
  match n with O => [] | S n => v mod 256 :: le_bytes n (v / 256) end.
Fixpoint le_value (l : list Z) : Z :=
  match l with [] => 0 | b :: l => b + 256 * le_value l end.

(** ** Requests *)

Definition INST_FETCH : Z := 256.
Definition UNCACHEABLE : Z := 4096.
Definition MEM_SWAP_COND : Z := 8388608.
Definition SECURE : Z := 268435456.

Record Request := mkRequest {
  _paddr : option Z;
  _size : option Z;
  _flags : Z;
  masterId : Z;
  _extraData : option Z;
  _contextId : option Z
}.

#[export] Instance eta_Request : Settable Request := fun r =>
  mkRequest (_paddr r) (_size r) (_flags r) (masterId r) (_extraData r) (_contextId r).
#[export] Instance set_extraData : Setter _extraData := ltac:(mk_setter).
#[export] Instance set_contextId : Setter _contextId := ltac:(mk_setter).

Definition assert_valid {A} (o : option A) (msg : string) : Res A :=
  match o with Some a => Ok a | None => Err (AssertFail msg) end.

Definition setPhys (paddr size flags mid : Z) : Request := mkRequest (Some paddr) (Some size) flags mid None None.
Definition setThreadContext (cid : Z) (r : Request) : Request := r <| _contextId := Some cid |>.
Definition getPaddr (r : Request) : Res Z := assert_valid (_paddr r) "privateFlags.isSet(VALID_PADDR)".
Definition req_getSize (r : Request) : Res Z := assert_valid (_size r) "privateFlags.isSet(VALID_SIZE)".
Definition getExtraData (r : Request) : Res Z := assert_valid (_extraData r) "privateFlags.isSet(VALID_EXTRA_DATA)".
Definition setExtraData (v : Z) (r : Request) : Request := r <| _extraData := Some v |>.
Definition contextId (r : Request) : Res Z := assert_valid (_contextId r) "privateFlags.isSet(VALID_CONTEXT_ID)".
Definition isInstFetch (r : Request) : bool := Flags.isSet (_flags r) INST_FETCH.
Definition isUncacheable (r : Request) : bool := Flags.isSet (_flags r) UNCACHEABLE.
Definition isCondSwap (r : Request) : bool := Flags.isSet (_flags r) MEM_SWAP_COND.
Definition req_isSecure (r : Request) : bool := Flags.isSet (_flags r) SECURE.

(** ** Commands *)

Inductive Command :=
| InvalidCmd | ReadReq | ReadResp | ReadRespWithInvalidate | WriteReq | WriteResp | Writeback
| SoftPFReq | HardPFReq | SoftPFResp | HardPFResp | WriteInvalidateReq | WriteInvalidateResp
| UpgradeReq | SCUpgradeReq | UpgradeResp | SCUpgradeFailReq | UpgradeFailResp
| ReadExReq | ReadExResp | LoadLockedReq | StoreCondReq | StoreCondFailReq | StoreCondResp
| SwapReq | SwapResp | MessageReq | MessageResp
| InvalidDestError | BadAddressError | FunctionalReadError | FunctionalWriteError
| PrintReq | FlushReq | InvalidationReq.

Inductive Attribute :=
| IsRead | IsWrite | IsUpgrade | IsInvalidate | NeedsExclusive | IsRequest | IsResponse
| NeedsResponse | IsSWPrefetch | IsHWPrefetch | IsLlsc | HasData | IsError | IsPrint | IsFlush.

#[export] Instance Command_eq_dec : EqDecision Command.
Proof. solve_decision. Defined.
#[export] Instance Attribute_eq_dec : EqDecision Attribute.
Proof. solve_decision. Defined.

(** The attributes of a command and the response to it. *)
Definition commandInfo (c : Command) : list Attribute * Command :=
  match c with
  | InvalidCmd => ([], InvalidCmd)
  | ReadReq => ([IsRead; IsRequest; NeedsResponse], ReadResp)
  | ReadResp => ([IsRead; IsResponse; HasData], InvalidCmd)
  | ReadRespWithInvalidate => ([IsRead; IsResponse; HasData; IsInvalidate], InvalidCmd)
  | WriteReq => ([IsWrite; NeedsExclusive; IsRequest; NeedsResponse; HasData], WriteResp)
  | WriteResp => ([IsWrite; NeedsExclusive; IsResponse], InvalidCmd)
  | Writeback => ([IsWrite; NeedsExclusive; IsRequest; HasData], InvalidCmd)
  | SoftPFReq => ([IsRead; IsRequest; IsSWPrefetch; NeedsResponse], SoftPFResp)
  | HardPFReq => ([IsRead; IsRequest; IsHWPrefetch; NeedsResponse], HardPFResp)
  | SoftPFResp => ([IsRead; IsResponse; IsSWPrefetch; HasData], InvalidCmd)
  | HardPFResp => ([IsRead; IsResponse; IsHWPrefetch; HasData], InvalidCmd)
  | WriteInvalidateReq =>
      ([IsWrite; NeedsExclusive; IsInvalidate; IsRequest; HasData; NeedsResponse], WriteInvalidateResp)
  | WriteInvalidateResp => ([IsWrite; NeedsExclusive; IsResponse], InvalidCmd)
  | UpgradeReq => ([IsInvalidate; NeedsExclusive; IsUpgrade; IsRequest; NeedsResponse], UpgradeResp)
  | SCUpgradeReq => ([IsInvalidate; NeedsExclusive; IsUpgrade; IsLlsc; IsRequest; NeedsResponse], UpgradeResp)
  | UpgradeResp => ([NeedsExclusive; IsUpgrade; IsResponse], InvalidCmd)
  | SCUpgradeFailReq => ([IsInvalidate; NeedsExclusive; IsLlsc; IsRequest; NeedsResponse], UpgradeFailResp)
  | UpgradeFailResp => ([NeedsExclusive; IsResponse], InvalidCmd)
  | ReadExReq => ([IsRead; NeedsExclusive; IsInvalidate; IsRequest; NeedsResponse], ReadExResp)
  | ReadExResp => ([IsRead; NeedsExclusive; IsResponse; HasData], InvalidCmd)
  | LoadLockedReq => ([IsRead; IsLlsc; IsRequest; NeedsResponse], ReadResp)
  | StoreCondReq => ([IsWrite; NeedsExclusive; IsLlsc; IsRequest; NeedsResponse; HasData], StoreCondResp)
  | StoreCondFailReq => ([IsWrite; NeedsExclusive; IsLlsc; IsRequest; NeedsResponse; HasData], StoreCondResp)
  | StoreCondResp => ([IsWrite; NeedsExclusive; IsLlsc; IsResponse], InvalidCmd)
  | SwapReq => ([IsRead; IsWrite; NeedsExclusive; IsRequest; HasData; NeedsResponse], SwapResp)
  | SwapResp => ([IsRead; IsWrite; NeedsExclusive; IsResponse; HasData], InvalidCmd)
  | MessageReq => ([IsWrite; IsRequest; NeedsResponse; HasData], MessageResp)
  | MessageResp => ([IsWrite; IsResponse], InvalidCmd)
  | InvalidDestError => ([IsResponse; IsError], InvalidCmd)
  | BadAddressError => ([IsResponse; IsError], InvalidCmd)
  | FunctionalReadError => ([IsRead; IsResponse; IsError], InvalidCmd)
  | FunctionalWriteError => ([IsWrite; IsResponse; IsError], InvalidCmd)
  | PrintReq => ([IsRequest; IsPrint], InvalidCmd)
  | FlushReq => ([IsRequest; IsFlush; NeedsExclusive], InvalidCmd)
  | InvalidationReq => ([NeedsExclusive; IsInvalidate; IsRequest], InvalidCmd)
  end.

Definition testCmdAttrib (c : Command) (a : Attribute) : bool := bool_decide (a ∈ (commandInfo c).1).
Definition responseCommand (c : Command) : Command := (commandInfo c).2.

(** ** Packets *)

Definition SHARED : Z := 1.
Definition EXPRESS_SNOOP : Z := 2.
Definition SUPPLY_EXCLUSIVE : Z := 4.
Definition MEM_INHIBIT : Z := 8.
Definition VALID_ADDR : Z := 256.
Definition VALID_SIZE : Z := 512.
Definition STATIC_DATA : Z := 4096.
Definition DYNAMIC_DATA : Z := 8192.
Definition ARRAY_DATA : Z := 16384.
Definition SUPPRESS_FUNC_ERROR : Z := 32768.
Definition PREFETCH_SNOOP_SQUASH : Z := 65536.
Definition InvalidPortID : Z := -1.

Record Packet := mkPacket {
  flags : Z;
  cmd : Command;
  req : Request;
  data : option (list Z);
  addr : Z;
  _isSecure : bool;
  size : Z;
  src : Z;
  dest : Z;
  origCmd : Command;
  bytesValidStart : Z;
  bytesValidEnd : Z;
  busFirstWordDelay : Z;
  busLastWordDelay : Z;
  senderState : list positive
}.

#[export] Instance eta_Packet : Settable Packet := fun r =>
  mkPacket (flags r) (cmd r) (req r) (data r) (addr r) (_isSecure r) (size r) (src r) (dest r) (origCmd r)
    (bytesValidStart r) (bytesValidEnd r) (busFirstWordDelay r) (busLastWordDelay r) (senderState r).
#[export] Instance set_flags : Setter flags := ltac:(mk_setter).
#[export] Instance set_cmd : Setter cmd := ltac:(mk_setter).
#[export] Instance set_req : Setter req := ltac:(mk_setter).
#[export] Instance set_data : Setter data := ltac:(mk_setter).
#[export] Instance set_addr : Setter addr := ltac:(mk_setter).
#[export] Instance set_size : Setter size := ltac:(mk_setter).
#[export] Instance set_src : Setter src := ltac:(mk_setter).
#[export] Instance set_dest : Setter dest := ltac:(mk_setter).
#[export] Instance set_origCmd : Setter origCmd := ltac:(mk_setter).
#[export] Instance set_bytesValidStart : Setter bytesValidStart := ltac:(mk_setter).
#[export] Instance set_bytesValidEnd : Setter bytesValidEnd := ltac:(mk_setter).
#[export] Instance set_busFirstWordDelay : Setter busFirstWordDelay := ltac:(mk_setter).
#[export] Instance set_busLastWordDelay : Setter busLastWordDelay := ltac:(mk_setter).
#[export] Instance set_senderState : Setter senderState := ltac:(mk_setter).

Implicit Types pkt : Packet.

Definition isRead pkt : bool := testCmdAttrib (cmd pkt) IsRead.
Definition isWrite pkt : bool := testCmdAttrib (cmd pkt) IsWrite.
Definition isUpgrade pkt : bool := testCmdAttrib (cmd pkt) IsUpgrade.
Definition isRequest pkt : bool := testCmdAttrib (cmd pkt) IsRequest.
Definition isResponse pkt : bool := testCmdAttrib (cmd pkt) IsResponse.
Definition needsExclusive pkt : bool := testCmdAttrib (cmd pkt) NeedsExclusive.
Definition needsResponse pkt : bool := testCmdAttrib (cmd pkt) NeedsResponse.
Definition isInvalidate pkt : bool := testCmdAttrib (cmd pkt) IsInvalidate.
Definition hasData pkt : bool := testCmdAttrib (cmd pkt) HasData.
Definition isReadWrite pkt : bool := isRead pkt && isWrite pkt.
Definition isLLSC pkt : bool := testCmdAttrib (cmd pkt) IsLlsc.
Definition isError pkt : bool := testCmdAttrib (cmd pkt) IsError.
Definition isPrint pkt : bool := testCmdAttrib (cmd pkt) IsPrint.
Definition isFlush pkt : bool := testCmdAttrib (cmd pkt) IsFlush.

Definition set_flag (f : Z) pkt : Packet := pkt <| flags ::= fun fl => Flags.set fl f |>.
Definition clear_flag (f : Z) pkt : Packet := pkt <| flags ::= fun fl => Flags.clear fl f |>.

Definition assertMemInhibit pkt : Packet := set_flag MEM_INHIBIT pkt.
Definition memInhibitAsserted pkt : bool := Flags.isSet (flags pkt) MEM_INHIBIT.
Definition assertShared pkt : Packet := set_flag SHARED pkt.
Definition sharedAsserted pkt : bool := Flags.isSet (flags pkt) SHARED.
Definition setExpressSnoop pkt : Packet := set_flag EXPRESS_SNOOP pkt.
Definition isExpressSnoop pkt : bool := Flags.isSet (flags pkt) EXPRESS_SNOOP.
Definition setSupplyExclusive pkt : Packet := set_flag SUPPLY_EXCLUSIVE pkt.
Definition clearSupplyExclusive pkt : Packet := clear_flag SUPPLY_EXCLUSIVE pkt.
Definition isSupplyExclusive pkt : bool := Flags.isSet (flags pkt) SUPPLY_EXCLUSIVE.
Definition setSuppressFuncError pkt : Packet := set_flag SUPPRESS_FUNC_ERROR pkt.
Definition suppressFuncError pkt : bool := Flags.isSet (flags pkt) SUPPRESS_FUNC_ERROR.
Definition setPrefetchSquashed pkt : Packet := set_flag PREFETCH_SNOOP_SQUASH pkt.
Definition prefetchSquashed pkt : bool := Flags.isSet (flags pkt) PREFETCH_SNOOP_SQUASH.

Definition setBadAddress pkt : Res Packet :=
  _ ← guard_assert (isResponse pkt) "isResponse()"; Ok (pkt <| cmd := BadAddressError |>).
Definition hadBadAddress pkt : bool := bool_decide (cmd pkt = BadAddressError).
Definition copyError pkt (other : Packet) : Res Packet :=
  _ ← guard_assert (isError other) "pkt->isError()"; Ok (pkt <| cmd := cmd other |>).

Definition getSrc pkt : Res Z := _ ← guard_assert (bool_decide (src pkt <> InvalidPortID)) "isSrcValid()"; Ok (src pkt).
Definition getDest pkt : Res Z := _ ← guard_assert (bool_decide (dest pkt <> InvalidPortID)) "isDestValid()"; Ok (dest pkt).
Definition clearSrc pkt : Packet := pkt <| src := InvalidPortID |>.
Definition clearDest pkt : Packet := pkt <| dest := InvalidPortID |>.

Definition getAddr pkt : Res Z :=
  _ ← guard_assert (Flags.isSet (flags pkt) VALID_ADDR) "flags.isSet(VALID_ADDR)"; Ok (addr pkt).
Definition setAddr (a : Z) pkt : Res Packet :=
  _ ← guard_assert (Flags.isSet (flags pkt) VALID_ADDR) "flags.isSet(VALID_ADDR)"; Ok (pkt <| addr := a |>).
Definition getSize pkt : Res Z :=
  _ ← guard_assert (Flags.isSet (flags pkt) VALID_SIZE) "flags.isSet(VALID_SIZE)"; Ok (size pkt).
Definition getOffset (blkSize : Z) pkt : Res Z := a ← getAddr pkt; Ok (Z.land a (u64 (blkSize - 1))).
Definition isSecure pkt : Res bool :=
  _ ← guard_assert (Flags.isSet (flags pkt) VALID_ADDR) "flags.isSet(VALID_ADDR)"; Ok (_isSecure pkt).

Definition convertScToWrite pkt : Res Packet :=
  _ ← guard_assert (isLLSC pkt) "isLLSC()"; _ ← guard_assert (isWrite pkt) "isWrite()"; Ok (pkt <| cmd := WriteReq |>).
Definition convertLlToRead pkt : Res Packet :=
  _ ← guard_assert (isLLSC pkt) "isLLSC()"; _ ← guard_assert (isRead pkt) "isRead()"; Ok (pkt <| cmd := ReadReq |>).

(** The constructors; fields that stay unset are guarded by their flags. *)
Definition bare_packet (r : Request) (c : Command) : Packet :=
  mkPacket 0 c r None 0 false 0 InvalidPortID InvalidPortID InvalidCmd 0 0 0 0 [].
Definition with_addr (a : Z) (secure : bool) pkt : Packet :=
  mkPacket (Flags.set (flags pkt) VALID_ADDR) (cmd pkt) (req pkt) (data pkt) a secure (size pkt) (src pkt) (dest pkt)
    (origCmd pkt) (bytesValidStart pkt) (bytesValidEnd pkt) (busFirstWordDelay pkt) (busLastWordDelay pkt) (senderState pkt).
Definition Packet_new (r : Request) (c : Command) : Packet :=
  let pkt := bare_packet r c in
  let pkt := match _paddr r with Some a => with_addr a (req_isSecure r) pkt | None => pkt end in
  match _size r with Some s => set_flag VALID_SIZE (pkt <| size := u32 s |>) | None => pkt end.
Definition Packet_new_block (r : Request) (c : Command) (blkSize : Z) : Packet :=
  let pkt := bare_packet r c in
  let pkt := match _paddr r with
             | Some a => with_addr (Z.land a (u64 (Z.lnot (blkSize - 1)))) (req_isSecure r) pkt
             | None => pkt end in
  set_flag VALID_SIZE (pkt <| size := u32 blkSize |>).

Definition deleteData pkt : Packet :=
  (clear_flag (Z.lor STATIC_DATA (Z.lor DYNAMIC_DATA ARRAY_DATA)) pkt) <| data := None |>.

Definition reinitFromRequest pkt : Res Packet :=
  a ← assert_valid (_paddr (req pkt)) "req->hasPaddr()";
  s ← req_getSize (req pkt);
  Ok (deleteData (mkPacket (Flags.set 0 (Z.lor VALID_ADDR VALID_SIZE)) (cmd pkt) (req pkt) (data pkt) a
        (req_isSecure (req pkt)) (u32 s) InvalidPortID InvalidPortID (origCmd pkt) 0 0 0 0 (senderState pkt))).

Definition makeResponse pkt : Res Packet :=
  _ ← guard_assert (needsResponse pkt) "needsResponse()";
  _ ← guard_assert (isRequest pkt) "isRequest()";
  let pkt := pkt <| origCmd := cmd pkt |> <| cmd := responseCommand (cmd pkt) |> in
  let pkt := clear_flag EXPRESS_SNOOP pkt in
  Ok (clearSrc (pkt <| dest := src pkt |>)).

Definition setFunctionalResponseStatus (success : bool) pkt : Packet :=
  if success then pkt
  else if isWrite pkt then pkt <| cmd := FunctionalWriteError |> else pkt <| cmd := FunctionalReadError |>.

Definition setSize (s : Z) pkt : Res Packet :=
  _ ← guard_assert (negb (Flags.isSet (flags pkt) VALID_SIZE)) "!flags.isSet(VALID_SIZE)";
  Ok (set_flag VALID_SIZE (pkt <| size := s |>)).

(** [dataStatic], [dataDynamic], [dataDynamicArray]: the pointer and its flags. *)
Definition set_pointer (f : Z) (d : list Z) pkt : Res Packet :=
  _ ← guard_assert (Flags.noneSet (flags pkt) (Z.lor STATIC_DATA (Z.lor DYNAMIC_DATA ARRAY_DATA)))
        "flags.noneSet(STATIC_DATA|DYNAMIC_DATA|ARRAY_DATA)";
  Ok (set_flag f (pkt <| data := Some d |>)).
Definition dataStatic (d : list Z) pkt : Res Packet := set_pointer STATIC_DATA d pkt.
Definition dataDynamicArray (d : list Z) pkt : Res Packet := set_pointer (Z.lor DYNAMIC_DATA ARRAY_DATA) d pkt.
Definition dataDynamic (d : list Z) pkt : Res Packet := set_pointer DYNAMIC_DATA d pkt.

(** [getPtr()], and the array behind the pointer. *)
Definition has_pointer pkt : bool := Flags.isSet (flags pkt) (Z.lor STATIC_DATA DYNAMIC_DATA).
Definition getPtr pkt : Res (list Z) :=
  _ ← guard_assert (has_pointer pkt) "null_ok || flags.isSet(STATIC_DATA|DYNAMIC_DATA)"; of_option (data pkt).

(** [get<T>()] and [set<T>()] for an unsigned type of [n] bytes. *)
Definition pkt_get (n : Z) pkt : Res Z :=
  _ ← guard_assert (has_pointer pkt) "flags.isSet(STATIC_DATA|DYNAMIC_DATA)";
  _ ← guard_assert (bool_decide (n <= size pkt)) "sizeof(T) <= size";
  d ← of_option (data pkt); l ← read_bytes d 0 n; Ok (le_value l).
Definition pkt_set (n v : Z) pkt : Res Packet :=
  _ ← guard_assert (has_pointer pkt) "flags.isSet(STATIC_DATA|DYNAMIC_DATA)";
  _ ← guard_assert (bool_decide (n <= size pkt)) "sizeof(T) <= size";
  d ← of_option (data pkt); d ← write_bytes d 0 (le_bytes (Z.to_nat n) v); Ok (pkt <| data := Some d |>).

(** [setData] and [writeData], from and to offset [off] of an array. *)
Definition setData (p : list Z) (off : Z) pkt : Res Packet :=
  d ← getPtr pkt; n ← getSize pkt; l ← read_bytes p off n; d ← write_bytes d 0 l; Ok (pkt <| data := Some d |>).
Definition writeData (p : list Z) (off : Z) pkt : Res (list Z) :=
  d ← getPtr pkt; n ← getSize pkt; l ← read_bytes d 0 n; write_bytes p off l.
Definition setDataFromBlock (blk_data : list Z) (blkSize : Z) pkt : Res Packet :=
  off ← getOffset blkSize pkt; setData blk_data off pkt.
Definition writeDataToBlock (blk_data : list Z) (blkSize : Z) pkt : Res (list Z) :=
  off ← getOffset blkSize pkt; writeData blk_data off pkt.

(** [junk] is what the new array holds. *)
Definition allocate (junk : Z -> list Z) pkt : Res Packet :=
  match data pkt with
  | Some _ => _ ← guard_assert (has_pointer pkt) "flags.isSet(STATIC_DATA|DYNAMIC_DATA)"; Ok pkt
  | None =>
      _ ← guard_assert (Flags.noneSet (flags pkt) (Z.lor STATIC_DATA DYNAMIC_DATA)) "flags.noneSet(STATIC_DATA|DYNAMIC_DATA)";
      n ← getSize pkt;
      Ok ((set_flag (Z.lor DYNAMIC_DATA ARRAY_DATA) pkt) <| data := Some (junk n) |>)
  end.

Definition pushSenderState (s : positive) pkt : Packet := pkt <| senderState ::= cons s |>.
Definition popSenderState pkt : Res (positive * Packet) :=
  match senderState pkt with
  | [] => Err (AssertFail "senderState != NULL")
  | s :: rest => Ok (s, pkt <| senderState := rest |>)
  end.

(** [memcpy(p + off, q + qoff, n)] *)
Definition copy_bytes (p : list Z) (off : Z) (q : list Z) (qoff n : Z) : Res (list Z) :=
  l ← read_bytes q qoff n; write_bytes p off l.
Definition copy_in (off : Z) (q : list Z) (qoff n : Z) pkt : Res Packet :=
  d ← getPtr pkt; d ← copy_bytes d off q qoff n; Ok (pkt <| data := Some d |>).

(** The offsets and the length of a partial overlap. *)
Definition partial_overlap (func_start func_end val_start val_end size : Z) : Res (Z * Z * Z) :=
  if Z.ltb val_start func_start && Z.leb val_end func_end then
    Ok (i32 (func_start - val_start), 0, i32 (val_end - func_start))
  else if Z.leb func_start val_start && Z.ltb func_end val_end then
    Ok (0, i32 (val_start - func_start), i32 (func_end - val_start))
  else if Z.leb func_start val_start && Z.leb val_end func_end then
    Ok (0, i32 (val_start - func_start), size)
  else Err (Abort "BUG: Missed a case for a partial functional request").

(** How much of the overlap is copied, not to overwrite bytes found before. *)
Definition valid_bytes (d : list Z) (val_offset func_offset overlap_size : Z) pkt : Res (Packet * (Z * Z * Z)) :=
  let bs := bytesValidStart pkt in
  let be := bytesValidEnd pkt in
  if Z.eqb bs 0 && Z.eqb be 0 then
    Ok (pkt <| bytesValidStart := u16 func_offset |> <| bytesValidEnd := u16 (func_offset + overlap_size) |>,
        (val_offset, func_offset, overlap_size))
  else
    let a := func_offset - bs in
    let b := func_offset + overlap_size - be in
    let c := func_offset - be in
    let d' := func_offset + overlap_size - bs in
    if Z.leb 0 a && Z.leb b 0 then Ok (pkt, (val_offset, func_offset, 0))
    else if Z.ltb a 0 && Z.leb 0 d' && Z.leb b 0 then
      Ok (pkt <| bytesValidStart := u16 func_offset |>, (val_offset, func_offset, bs - func_offset))
    else if Z.ltb 0 b && Z.leb c 0 && Z.leb 0 a then
      let o := func_offset + overlap_size - be in
      Ok (pkt <| bytesValidEnd := u16 (be + o) |>, (val_offset + (be - func_offset), be, o))
    else if Z.ltb a 0 && Z.ltb 0 b then
      pkt ← copy_in func_offset d val_offset (bs - func_offset) pkt;
      let o := func_offset + overlap_size - be in
      Ok (pkt <| bytesValidStart := u16 func_offset |> <| bytesValidEnd := u16 (be + o) |>,
          (val_offset + (be - func_offset), be, o))
    else if Z.ltb 0 c && Z.ltb 0 b || Z.ltb a 0 && Z.ltb d' 0 then
      Err (Abort "BUG: Discontiguous bytes found for functional copying!")
    else Ok (pkt, (val_offset, func_offset, overlap_size)).

(** [checkFunctional]: the packet and the value's bytes afterwards, and
    whether the packet is satisfied. Printing is left out. *)
Definition checkFunctional (junk : Z -> list Z) pkt (vaddr : Z) (is_secure : bool) (vsize : Z) (vdata : option (list Z))
  : Res (Packet * option (list Z) * bool) :=
  func_start ← getAddr pkt;
  n ← getSize pkt;
  let func_end := u64 (func_start + n - 1) in
  let val_start := vaddr in
  let val_end := u64 (val_start + vsize - 1) in
  if negb (Bool.eqb is_secure (_isSecure pkt)) || Z.ltb val_end func_start || Z.ltb func_end val_start
  then Ok (pkt, vdata, false)
  else if isPrint pkt then Ok (pkt, vdata, false)
  else
    match vdata with
    | None => Ok (pkt, vdata, false)
    | Some d =>
        let offset := i32 (func_start - val_start) in
        if isRead pkt then
          if Z.leb val_start func_start && Z.leb func_end val_end then
            pkt ← allocate junk pkt; pkt ← copy_in 0 d offset n pkt; Ok (pkt, vdata, true)
          else
            '(val_offset, func_offset, overlap_size) ← partial_overlap func_start func_end val_start val_end vsize;
            '(pkt, (val_offset, func_offset, overlap_size)) ← valid_bytes d val_offset func_offset overlap_size pkt;
            _ ← guard_assert (Z.leb (bytesValidEnd pkt) n) "bytesValidEnd <= getSize()";
            pkt ← copy_in func_offset d val_offset overlap_size pkt;
            Ok (pkt, vdata, Z.eqb (bytesValidStart pkt) 0 && Z.eqb (bytesValidEnd pkt) n)
        else if isWrite pkt then
          p ← getPtr pkt;
          d ← (if Z.leb 0 offset then copy_bytes d offset p 0 (Z.min func_end val_end - func_start + 1)
               else copy_bytes d 0 p (- offset) (Z.min func_end val_end - val_start + 1));
          Ok (pkt, Some d, false)
        else Err (Abort "Don't know how to handle command")
    end.

(** Against another packet, an in-transit request or response. *)
Definition checkFunctional_pkt (junk : Z -> list Z) pkt (other : Packet) : Res (Packet * Packet * bool) :=
  d ← (if hasData other then d ← getPtr other; Ok (Some d) else Ok None);
  a ← getAddr other; s ← isSecure other; n ← getSize other;
  '(pkt, d, r) ← checkFunctional junk pkt a s (i32 n) d;
  Ok (pkt, match d with Some d => other <| data := Some d |> | None => other end, r).

End MemPacket.
