(* ===== verification/PacketTheorems.v ===== *)
(** * What packets promise ([mem/packet.hh], [mem/packet.cc])

    Turning a request into a response, and functional accesses: a functional
    read is only satisfied with bytes of the values it was checked against,
    a functional write updates exactly the bytes they share, and no copy
    leaves an array. *)

From S2P Require Import Prelude.
From stdpp Require Import sets.
From S2P Require Import EventQueue.
From S2P Require Import MemPacket.
#[local] Open Scope Z_scope.

Module PacketTheorems.
Import EventQueue MemPacket.

(** ** Responses *)

(** Every request that needs a response can be turned into one: a response,
    of the same direction, that asks for none, addressed to where the request
    came from; address, size, data and request stay. *)
Theorem makeResponse_spec pkt : needsResponse pkt = true ->
  exists r, makeResponse pkt = Ok r /\ isResponse r = true /\ isRequest r = false /\ needsResponse r = false /\
    isRead r = isRead pkt /\ isWrite r = isWrite pkt /\ isExpressSnoop r = false /\
    dest r = src pkt /\ src r = InvalidPortID /\ origCmd r = cmd pkt /\
    addr r = addr pkt /\ size r = size pkt /\ data r = data pkt /\ req r = req pkt.
Proof.
  intros Hn. unfold makeResponse. rewrite Hn. cbn [guard_assert mbind Res_bind].
  assert (isRequest pkt = true) as -> by (unfold needsResponse, isRequest in *; by destruct (cmd pkt)).
  cbn [guard_assert mbind Res_bind]. eexists. split; [done|].
  unfold isResponse, isRequest, needsResponse, isRead, isWrite, isExpressSnoop, Flags.isSet in *. cbn.
  repeat split; try done; try (by destruct (cmd pkt)).
  apply negb_false_iff, Z.eqb_eq. unfold Flags.clear. rewrite Z.land_ldiff. done.
Qed.

(** ** Copies *)

Lemma zget_take (l : list Z) n i : zget (take n l) i = if bool_decide (i < Z.of_nat n) then zget l i else None.
Proof.
  unfold zget. destruct (bool_decide_reflect (0 <= i)); [|by destruct (bool_decide _)].
  destruct (bool_decide_reflect (i < Z.of_nat n)); [apply lookup_take_lt | apply lookup_take_ge]; lia.
Qed.

Lemma zget_drop (l : list Z) n i : 0 <= i -> zget (drop n l) i = zget l (Z.of_nat n + i).
Proof.
  intros Hi. unfold zget. rewrite !bool_decide_eq_true_2 by lia. rewrite lookup_drop. f_equal. lia.
Qed.

Lemma zget_app (l k : list Z) i : 0 <= i -> zget (l ++ k) i = if bool_decide (i < zlen l) then zget l i else zget k (i - zlen l).
Proof.
  intros Hi. unfold zget, zlen. rewrite (bool_decide_eq_true_2 (0 <= i)) by lia.
  destruct (bool_decide_reflect (i < Z.of_nat (length l))).
  - apply lookup_app_l. lia.
  - rewrite bool_decide_eq_true_2 by lia. rewrite lookup_app_r by lia. f_equal. lia.
Qed.

Lemma zlen_take (l : list Z) n : 0 <= n <= zlen l -> zlen (take (Z.to_nat n) l) = n.
Proof. unfold zlen. intros. rewrite length_take. lia. Qed.
Lemma zlen_drop (l : list Z) n : 0 <= n <= zlen l -> zlen (drop (Z.to_nat n) l) = zlen l - n.
Proof. unfold zlen. intros. rewrite length_drop. lia. Qed.

Lemma read_bytes_spec m off n : 0 <= off -> 0 <= n -> off + n <= zlen m ->
  exists l, read_bytes m off n = Ok l /\ zlen l = n /\ forall i, 0 <= i < n -> zget l i = zget m (off + i).
Proof.
  intros Ho Hn Hb. unfold read_bytes. rewrite !bool_decide_eq_true_2 by lia. cbn [andb]. eexists. split; [done|]. split.
  - rewrite zlen_take; [done|]. rewrite zlen_drop; lia.
  - intros i Hi. rewrite zget_take, bool_decide_eq_true_2, zget_drop by lia. f_equal. lia.
Qed.

Lemma write_bytes_spec m off l : 0 <= off -> off + zlen l <= zlen m ->
  exists m', write_bytes m off l = Ok m' /\ zlen m' = zlen m /\
    forall i, 0 <= i -> zget m' i = if bool_decide (off <= i < off + zlen l) then zget l (i - off) else zget m i.
Proof.
  intros Ho Hb. unfold write_bytes. pose proof (zlen_nonneg l). rewrite !bool_decide_eq_true_2 by lia. cbn [andb].
  eexists. split; [done|]. split.
  - rewrite !zlen_app, zlen_take, zlen_drop by lia. lia.
  - intros i Hi. rewrite zget_app, zlen_take by lia. destruct (bool_decide_reflect (i < off)).
    + rewrite zget_take. rewrite bool_decide_eq_true_2 by lia. rewrite bool_decide_eq_false_2 by lia. done.
    + rewrite zget_app by lia. destruct (bool_decide_reflect (i - off < zlen l)).
      * by rewrite bool_decide_eq_true_2 by lia.
      * rewrite bool_decide_eq_false_2, zget_drop by lia. f_equal. lia.
Qed.

Lemma copy_bytes_spec p off q qoff n : 0 <= off -> 0 <= qoff -> 0 <= n -> off + n <= zlen p -> qoff + n <= zlen q ->
  exists p', copy_bytes p off q qoff n = Ok p' /\ zlen p' = zlen p /\
    forall i, 0 <= i -> zget p' i = if bool_decide (off <= i < off + n) then zget q (qoff + (i - off)) else zget p i.
Proof.
  intros H1 H2 H3 H4 H5. unfold copy_bytes. destruct (read_bytes_spec q qoff n H2 H3 H5) as (l & -> & Hl & Hi).
  cbn [mbind Res_bind]. destruct (write_bytes_spec p off l H1 ltac:(lia)) as (p' & -> & Hl' & Hi').
  exists p'. split; [done|]. split; [done|]. intros i Hi0. rewrite Hi' by done. rewrite Hl.
  destruct (bool_decide_reflect (off <= i < off + n)); [|done]. apply Hi. lia.
Qed.

(** The packet has an array of its size. *)
Definition full_packet pkt (d : list Z) : Prop :=
  Flags.isSet (flags pkt) VALID_ADDR = true /\ Flags.isSet (flags pkt) VALID_SIZE = true /\ has_pointer pkt = true /\
  data pkt = Some d /\ zlen d = size pkt /\ 0 < size pkt < 65536 /\ 0 <= addr pkt /\
  addr pkt + size pkt <= 18446744073709551616.

Lemma copy_in_spec pkt d off q qoff n : has_pointer pkt = true -> data pkt = Some d ->
  0 <= off -> 0 <= qoff -> 0 <= n -> off + n <= zlen d -> qoff + n <= zlen q ->
  exists d', copy_in off q qoff n pkt = Ok (pkt <| data := Some d' |>) /\ zlen d' = zlen d /\
    forall i, 0 <= i -> zget d' i = if bool_decide (off <= i < off + n) then zget q (qoff + (i - off)) else zget d i.
Proof.
  intros Hp Hd H1 H2 H3 H4 H5. unfold copy_in, getPtr. rewrite Hp, Hd. cbn [guard_assert mbind Res_bind of_option].
  destruct (copy_bytes_spec d off q qoff n H1 H2 H3 H4 H5) as (d' & -> & Hl & Hi). cbn [mbind Res_bind]. by exists d'.
Qed.

(** ** Functional reads *)

(** A value in the memory system: where it is, whether it is secure, its bytes. *)
Record Value := mkValue { v_addr : Z; v_secure : bool; v_data : list Z }.

Definition value_ok (v : Value) : Prop :=
  0 <= v_addr v /\ 0 < zlen (v_data v) < 2147483648 /\ v_addr v + zlen (v_data v) <= 18446744073709551616.

(** The byte a value holds at an address. *)
Definition byte_at (v : Value) (x : Z) : option Z := zget (v_data v) (x - v_addr v).

(** The bytes of the packet that count as found are those of values seen. *)
Definition found_in (vs : list Value) pkt (d : list Z) (i : Z) : Prop :=
  exists v, v ∈ vs /\ v_secure v = _isSecure pkt /\ exists b, byte_at v (addr pkt + i) = Some b /\ zget d i = Some b.

Definition reading (vs : list Value) pkt : Prop :=
  exists d, full_packet pkt d /\ isRead pkt = true /\ isPrint pkt = false /\
    0 <= bytesValidStart pkt <= bytesValidEnd pkt /\ bytesValidEnd pkt <= size pkt /\
    forall i, bytesValidStart pkt <= i < bytesValidEnd pkt -> found_in vs pkt d i.

Lemma i32_id x : -2147483648 <= x < 2147483648 -> i32 x = x.
Proof.
  intros H. unfold i32, u32. destruct (Z.le_gt_cases 0 x).
  - rewrite Z.mod_small by lia. rewrite bool_decide_eq_true_2 by lia. done.
  - rewrite <- (Z_mod_plus_full x 1), Z.mod_small by lia. rewrite bool_decide_eq_false_2 by lia. lia.
Qed.

Lemma byte_at_some v x : v_addr v <= x < v_addr v + zlen (v_data v) -> exists b, byte_at v x = Some b.
Proof. intros H. apply zget_lt. lia. Qed.

Definition check (junk : Z -> list Z) (v : Value) pkt : Res (Packet * option (list Z) * bool) :=
  checkFunctional junk pkt (v_addr v) (v_secure v) (zlen (v_data v)) (Some (v_data v)).

(** The overlap, of which the last byte may be left out. *)
Lemma partial_overlap_spec fs n vs m : 0 <= fs -> 0 < n < 65536 -> 0 <= vs -> 0 < m < 2147483648 ->
  vs <= fs + n - 1 -> fs <= vs + m - 1 -> ~ (vs <= fs /\ fs + n - 1 <= vs + m - 1) ->
  exists vo fo o, partial_overlap fs (fs + n - 1) vs (vs + m - 1) m = Ok (vo, fo, o) /\
    0 <= vo /\ 0 <= fo /\ 0 <= o /\ vo + o <= m /\ fo + o <= n /\ fs + fo = vs + vo.
Proof.
  intros H1 H2 H3 H4 H5 H6 H7. unfold partial_overlap.
  destruct (Z.ltb vs fs && Z.leb (vs + m - 1) (fs + n - 1)) eqn:E1.
  { rewrite !i32_id by lia. do 3 eexists. split; [done|]. lia. }
  destruct (Z.leb fs vs && Z.ltb (fs + n - 1) (vs + m - 1)) eqn:E2.
  { rewrite !i32_id by lia. do 3 eexists. split; [done|]. lia. }
  destruct (Z.leb fs vs && Z.leb (vs + m - 1) (fs + n - 1)) eqn:E3; [|lia].
  rewrite i32_id by lia. do 3 eexists. split; [done|]. lia.
Qed.

(** What [checkFunctional] leaves alone. *)
Definition same_access pkt pkt' : Prop :=
  flags pkt' = flags pkt /\ cmd pkt' = cmd pkt /\ addr pkt' = addr pkt /\ size pkt' = size pkt /\ _isSecure pkt' = _isSecure pkt.

Definition discontiguous : Fault := Abort "BUG: Discontiguous bytes found for functional copying!".

Lemma u16_small x : 0 <= x < 65536 -> u16 x = x.
Proof. apply Z.mod_small. Qed.

Lemma found_weaken vs v pkt pkt' d i : same_access pkt pkt' -> found_in vs pkt d i -> found_in (v :: vs) pkt' d i.
Proof.
  intros (_ & _ & Ea & _ & Es) (w & Hw & Hs & b & Hb & Hd). exists w. rewrite Ea, Es.
  split; [by right|]. split; [done|]. by exists b.
Qed.

Lemma found_new vs v pkt d fo vo i b : v_secure v = _isSecure pkt -> addr pkt + fo = v_addr v + vo ->
  zget (v_data v) (vo + (i - fo)) = Some b -> zget d i = Some b -> found_in (v :: vs) pkt d i.
Proof.
  intros Hs He Hv Hd. exists v. split; [left|]. split; [done|]. exists b. split; [|done].
  unfold byte_at. rewrite <- Hv. f_equal. lia.
Qed.

(** The cases of [valid_bytes]: what is still to be copied, and the bytes that
    count as found outside of it are. *)
Lemma valid_bytes_spec vs v pkt d vo fo o :
  full_packet pkt d -> v_secure v = _isSecure pkt ->
  0 <= bytesValidStart pkt <= bytesValidEnd pkt -> bytesValidEnd pkt <= size pkt ->
  (forall i, bytesValidStart pkt <= i < bytesValidEnd pkt -> found_in vs pkt d i) ->
  0 <= vo -> 0 <= fo -> 0 <= o -> vo + o <= zlen (v_data v) -> fo + o <= size pkt -> addr pkt + fo = v_addr v + vo ->
  (exists pkt' d' vo' fo' o', valid_bytes (v_data v) vo fo o pkt = Ok (pkt', (vo', fo', o')) /\
     same_access pkt pkt' /\ data pkt' = Some d' /\ zlen d' = size pkt /\
     0 <= vo' /\ 0 <= fo' /\ 0 <= o' /\ vo' + o' <= zlen (v_data v) /\ fo' + o' <= size pkt /\ addr pkt + fo' = v_addr v + vo' /\
     0 <= bytesValidStart pkt' <= bytesValidEnd pkt' /\ bytesValidEnd pkt' <= size pkt /\
     forall i, bytesValidStart pkt' <= i < bytesValidEnd pkt' -> ~ (fo' <= i < fo' + o') -> found_in (v :: vs) pkt' d' i)
  \/ valid_bytes (v_data v) vo fo o pkt = Err discontiguous.
Proof.
  intros (_ & _ & Hp & Hd & Hld & Hsz & _) Hs Hb1 Hb2 Hf H1 H2 H3 H4 H5 H6. unfold valid_bytes.
  set (bs := bytesValidStart pkt) in *. set (be := bytesValidEnd pkt) in *.
  assert (same_access pkt pkt) as Hsame by done.
  destruct (Z.eqb bs 0 && Z.eqb be 0) eqn:E0.
  { left. do 5 eexists. split; [done|]. split; [done|]. cbn. rewrite !u16_small by lia.
    split; [exact Hd|]. do 9 (split; [lia|]). intros i Hi Hn. lia. }
  cbn zeta. destruct (Z.leb 0 (fo - bs) && Z.leb (fo + o - be) 0) eqn:E1.
  { left. do 5 eexists. split; [done|]. split; [done|]. fold bs be. split; [exact Hd|]. do 9 (split; [lia|]).
    intros i Hi _. by apply (found_weaken vs v pkt pkt), Hf. }
  destruct (Z.ltb (fo - bs) 0 && Z.leb 0 (fo + o - bs) && Z.leb (fo + o - be) 0) eqn:E2.
  { left. do 5 eexists. split; [done|]. split; [done|]. cbn. fold be. rewrite u16_small by lia.
    split; [exact Hd|]. do 9 (split; [lia|]). intros i Hi Hn. apply (found_weaken vs v pkt _); [done|]. apply Hf. lia. }
  destruct (Z.ltb 0 (fo + o - be) && Z.leb (fo - be) 0 && Z.leb 0 (fo - bs)) eqn:E3.
  { left. do 5 eexists. split; [done|]. split; [done|]. cbn. fold bs. rewrite u16_small by lia.
    split; [exact Hd|]. do 9 (split; [lia|]). intros i Hi Hn. apply (found_weaken vs v pkt _); [done|]. apply Hf. lia. }
  destruct (Z.ltb (fo - bs) 0 && Z.ltb 0 (fo + o - be)) eqn:E4.
  { left. destruct (copy_in_spec pkt d fo (v_data v) vo (bs - fo) Hp Hd) as (d' & -> & Hl & Hi); [lia..|].
    cbn [mbind Res_bind]. do 5 eexists. split; [done|]. split; [done|]. cbn. rewrite !u16_small by lia.
    split; [done|]. do 9 (split; [lia|]). intros i Hir Hn. specialize (Hi i ltac:(lia)).
    destruct (bool_decide_reflect (fo <= i < fo + (bs - fo))).
    - destruct (zget_lt (v_data v) (vo + (i - fo)) ltac:(lia)) as [b Eb]. rewrite Eb in Hi.
      by eapply (found_new vs v _ d' fo vo).
    - destruct (Hf i ltac:(lia)) as (w & Hw & Hws & b & Hb & Hdb). exists w. cbn. split; [by right|].
      split; [done|]. exists b. by rewrite Hi. }
  destruct (Z.ltb 0 (fo - be) && Z.ltb 0 (fo + o - be) || Z.ltb (fo - bs) 0 && Z.ltb (fo + o - bs) 0) eqn:E5; [by right | lia].
Qed.

(** A check of a functional read leaves no array. It stops where the bytes
    found are not contiguous, or the packet stays a read of which the bytes
    that count as found are bytes of the values seen; when it reports that the
    read is satisfied, that is all of them. *)
Lemma check_read junk vs v pkt : reading vs pkt -> value_ok v ->
  check junk v pkt = Err discontiguous \/
  exists pkt' r, check junk v pkt = Ok (pkt', Some (v_data v), r) /\ same_access pkt pkt' /\
    if r : bool then exists d, data pkt' = Some d /\ forall i, 0 <= i < size pkt -> found_in (v :: vs) pkt' d i
    else reading (v :: vs) pkt'.
Proof.
  intros (d & Hfull & Hrd & Hpr & Hb1 & Hb2 & Hf) (Hv1 & Hv2 & Hv3).
  pose proof Hfull as (Hva & Hvs & Hp & Hd & Hld & Hsz & Ha & Hend).
  unfold check, checkFunctional, getAddr, getSize. rewrite Hva, Hvs. cbn [guard_assert mbind Res_bind].
  rewrite !u64_small by (unfold in_u64; lia). rewrite Hpr, Hrd.
  assert (forall v, reading (v :: vs) pkt) as Hweak.
  { intros w. exists d. do 5 (split; [done|]). intros i Hi. apply (found_weaken vs w pkt pkt); [done | by apply Hf]. }
  destruct (negb (Bool.eqb (v_secure v) (_isSecure pkt)) || _ || _) eqn:Eo; [by right; eexists _, _|].
  apply orb_false_elim in Eo as [Eo E3]. apply orb_false_elim in Eo as [E1 E2].
  apply negb_false_iff, Bool.eqb_prop in E1. apply Z.ltb_ge in E2, E3.
  destruct (Z.leb (v_addr v) (addr pkt) && Z.leb (addr pkt + size pkt - 1) (v_addr v + zlen (v_data v) - 1)) eqn:Ef.
  - right. unfold allocate. rewrite Hd, Hp. cbn [guard_assert mbind Res_bind]. rewrite i32_id by lia.
    destruct (copy_in_spec pkt d 0 (v_data v) (addr pkt - v_addr v) (size pkt) Hp Hd) as (d' & -> & Hl & Hi); [lia..|].
    cbn [mbind Res_bind]. eexists _, _. split; [done|]. split; [done|]. cbn beta iota. exists d'. split; [done|].
    intros i Hir. specialize (Hi i ltac:(lia)). rewrite bool_decide_eq_true_2 in Hi by lia.
    destruct (zget_lt (v_data v) (addr pkt - v_addr v + (i - 0)) ltac:(lia)) as [b Eb]. rewrite Eb in Hi.
    eapply (found_new vs v _ d' 0 (addr pkt - v_addr v)); [done | cbn; lia | done | done].
  - destruct (partial_overlap_spec (addr pkt) (size pkt) (v_addr v) (zlen (v_data v)))
      as (vo & fo & o & -> & P1 & P2 & P3 & P4 & P5 & P6); [lia..|]. cbn [mbind Res_bind].
    destruct (valid_bytes_spec vs v pkt d vo fo o Hfull E1 Hb1 Hb2 Hf P1 P2 P3 P4 P5 P6)
      as [(pkt' & d' & vo' & fo' & o' & -> & Hsame & Hd' & Hl' & Q1 & Q2 & Q3 & Q4 & Q5 & Q6 & Q7 & Q8 & Hf')| ->]; [|by left].
    right. cbn [mbind Res_bind]. pose proof Hsame as (Efl & Ecmd & Eaddr & Esize & Esec).
    rewrite (proj2 (Z.leb_le _ _) Q8). cbn [guard_assert mbind Res_bind].
    destruct (copy_in_spec pkt' d' fo' (v_data v) vo' o') as (d2 & -> & Hl2 & Hi2); [by unfold has_pointer; rewrite Efl | done | lia..|].
    cbn [mbind Res_bind]. eexists _, _. split; [done|]. split; [done|].
    assert (forall i, bytesValidStart pkt' <= i < bytesValidEnd pkt' -> found_in (v :: vs) (pkt' <| data := Some d2 |>) d2 i) as Hall.
    { intros i Hir. specialize (Hi2 i ltac:(lia)). destruct (bool_decide_reflect (fo' <= i < fo' + o')) as [Hin|Hout].
      - destruct (zget_lt (v_data v) (vo' + (i - fo')) ltac:(lia)) as [b Eb]. rewrite Eb in Hi2.
        eapply (found_new vs v _ d2 fo' vo'); [cbn; congruence | cbn; lia | done | done].
      - destruct (Hf' i Hir Hout) as (w & Hw & Hws & b & Hb & Hdb). exists w. split; [done|]. split; [done|].
        exists b. split; [done|]. by rewrite Hi2. }
    cbn [data upd_field bytesValidStart bytesValidEnd set_data]. destruct (Z.eqb (bytesValidStart pkt') 0 && Z.eqb (bytesValidEnd pkt') (size pkt)) eqn:Er; cbv beta iota.
    + exists d2. split; [done|]. intros i Hir. apply Hall. lia.
    + exists d2. unfold full_packet, isRead, isPrint, has_pointer in *. cbn. rewrite Efl, Ecmd, Eaddr, Esize.
      split; [split_and!; (done || lia)|]. do 4 (split; [done|]). exact Hall.
Qed.

(** ** Against packets under way *)

Definition in_transit (other : Packet) : Prop := exists d, full_packet other d.

Definition values_of (other : Packet) : list Value :=
  match data other with
  | Some d => if hasData other then [mkValue (addr other) (_isSecure other) d] else []
  | None => []
  end.

Lemma set_same_data pkt d : data pkt = Some d -> pkt <| data := Some d |> = pkt.
Proof. intros H. destruct pkt. cbn in *. by rewrite H. Qed.

Lemma check_packet_unfold junk other d pkt : full_packet other d ->
  checkFunctional_pkt junk pkt other =
    '(pkt, d', r) ← checkFunctional junk pkt (addr other) (_isSecure other) (zlen d) (if hasData other then Some d else None);
    Ok (pkt, match d' with Some d => other <| data := Some d |> | None => other end, r).
Proof.
  intros (Hva & Hvs & Hp & Hd & Hld & Hsz & _). unfold checkFunctional_pkt, getPtr, getAddr, isSecure, getSize.
  rewrite Hva, Hvs, Hp, Hd. assert (i32 (size other) = zlen d) as E by (rewrite i32_id; lia).
  destruct (hasData other); cbn [guard_assert mbind Res_bind of_option]; by rewrite E.
Qed.

Lemma check_packet junk vs other pkt : reading vs pkt -> in_transit other ->
  checkFunctional_pkt junk pkt other = Err discontiguous \/
  exists pkt' r, checkFunctional_pkt junk pkt other = Ok (pkt', other, r) /\ same_access pkt pkt' /\
    if r : bool then exists d, data pkt' = Some d /\ forall i, 0 <= i < size pkt -> found_in (values_of other ++ vs) pkt' d i
    else reading (values_of other ++ vs) pkt'.
Proof.
  intros Hr [d Hd]. rewrite (check_packet_unfold junk other d pkt Hd).
  pose proof Hd as (Hva & Hvs & Hp & Hdd & Hld & Hsz & Ha & He). unfold values_of. rewrite Hdd.
  destruct (hasData other).
  - destruct (check_read junk vs (mkValue (addr other) (_isSecure other) d) pkt Hr) as [E|(pkt' & r & E & Hs & H)].
    { unfold value_ok. cbn. lia. }
    + left. unfold check in E. cbn in E. by rewrite E.
    + right. unfold check in E. cbn [v_addr v_secure v_data] in E. rewrite E. cbn [mbind Res_bind]. eexists _, _.
      rewrite (set_same_data other d Hdd). done.
  - right. pose proof Hr as (pd & Hfull & _). pose proof Hfull as (Pa & Ps & _). unfold checkFunctional, getAddr, getSize.
    rewrite Pa, Ps. cbn [guard_assert mbind Res_bind].
    destruct (negb (Bool.eqb (_isSecure other) (_isSecure pkt)) || _ || _); cbn [mbind Res_bind]; [|destruct (isPrint pkt); cbn [mbind Res_bind]];
      (eexists _, _; split; [done|]; split; [done|]; exact Hr).
Qed.

Lemma found_mono vs vs' pkt d i : vs ⊆ vs' -> found_in vs pkt d i -> found_in vs' pkt d i.
Proof. intros Hs (v & Hv & H). exists v. split; [by apply Hs | done]. Qed.

(** ** Functional writes *)

(** A functional write updates the bytes of the value that it covers with its
    own, and no others. *)
Lemma check_write junk v pkt d : full_packet pkt d -> isRead pkt = false -> isWrite pkt = true -> isPrint pkt = false ->
  value_ok v ->
  exists d', check junk v pkt = Ok (pkt, Some d', false) /\ zlen d' = zlen (v_data v) /\
    forall i, 0 <= i < zlen d' ->
      zget d' i = if bool_decide (v_secure v = _isSecure pkt /\ addr pkt <= v_addr v + i < addr pkt + size pkt)
                  then zget d (v_addr v + i - addr pkt) else zget (v_data v) i.
Proof.
  intros Hfull Hrd Hwr Hpr (Hv1 & Hv2 & Hv3). pose proof Hfull as (Hva & Hvs & Hp & Hd & Hld & Hsz & Ha & Hend).
  unfold check, checkFunctional, getAddr, getSize, getPtr. rewrite Hva, Hvs. cbn [guard_assert mbind Res_bind].
  rewrite !u64_small by (unfold in_u64; lia). rewrite Hpr, Hrd, Hwr, Hp, Hd.
  destruct (negb (Bool.eqb (v_secure v) (_isSecure pkt)) || _ || _) eqn:Eo.
  { eexists. split; [done|]. split; [done|]. intros i Hi. rewrite bool_decide_eq_false_2; [done|]. intros [E1 E2].
    rewrite E1, eqb_reflx in Eo. cbn in Eo. lia. }
  apply orb_false_elim in Eo as [Eo E3]. apply orb_false_elim in Eo as [E1 E2].
  apply negb_false_iff, Bool.eqb_prop in E1. apply Z.ltb_ge in E2, E3. cbn [guard_assert mbind Res_bind of_option].
  assert (i32 (addr pkt - v_addr v) = addr pkt - v_addr v) as -> by (apply i32_id; lia).
  destruct (Z.leb_spec 0 (addr pkt - v_addr v)).
  - destruct (copy_bytes_spec (v_data v) (addr pkt - v_addr v) d 0
      (Z.min (addr pkt + size pkt - 1) (v_addr v + zlen (v_data v) - 1) - addr pkt + 1)) as (d' & -> & Hl & Hi); [lia..|].
    cbn [mbind Res_bind]. eexists. split; [done|]. split; [done|]. intros i Hir. rewrite Hi by lia.
    destruct (bool_decide_reflect (v_secure v = _isSecure pkt /\ addr pkt <= v_addr v + i < addr pkt + size pkt)) as [[_ Hin]|Hn].
    + rewrite bool_decide_eq_true_2 by lia. f_equal. lia.
    + rewrite bool_decide_eq_false_2; [done|]. intros H1. apply Hn. split; [done|]. lia.
  - destruct (copy_bytes_spec (v_data v) 0 d (- (addr pkt - v_addr v))
      (Z.min (addr pkt + size pkt - 1) (v_addr v + zlen (v_data v) - 1) - v_addr v + 1)) as (d' & -> & Hl & Hi); [lia..|].
    cbn [mbind Res_bind]. eexists. split; [done|]. split; [done|]. intros i Hir. rewrite Hi by lia.
    destruct (bool_decide_reflect (v_secure v = _isSecure pkt /\ addr pkt <= v_addr v + i < addr pkt + size pkt)) as [[_ Hin]|Hn].
    + rewrite bool_decide_eq_true_2 by lia. f_equal. lia.
    + rewrite bool_decide_eq_false_2; [done|]. intros H1. apply Hn. split; [done|]. lia.
Qed.

End PacketTheorems.
