(* ===== verification/PacketQueue.v ===== *)
(** * Queues of packets at a port ([mem/packet_queue.hh], [mem/packet_queue.cc])

    A packet queue holds packets until their tick and sends the first one when
    its event is processed; a packet that the peer refuses stays first until
    the peer asks for it again. [sendEvent] is the tick at which the event is
    scheduled, [signalled] lists the drain managers that were told so. The
    event manager is reduced to [schedule] and [reschedule] with their
    assertion on the present tick [now]. A refused packet has not changed.
    Labels are for printing and left out. *)

From S2P Require Import Prelude.
From S2P Require Import EventQueue.
From S2P Require Import MemPacket.
#[local] Open Scope Z_scope.

Module PacketQueue.
Import EventQueue MemPacket.

Record DeferredPacket := mkDeferred {
  tick : Z;
  dp_pkt : Packet;
  sendAsSnoop : bool
}.

Record PacketQueue := mkPacketQueue {
  transmitList : list DeferredPacket;
  sendEvent : option Z;
  drainManager : option positive;
  waitingOnRetry : bool;
  signalled : list positive
}.

#[export] Instance eta_PacketQueue : Settable PacketQueue := fun r =>
  mkPacketQueue (transmitList r) (sendEvent r) (drainManager r) (waitingOnRetry r) (signalled r).
#[export] Instance set_transmitList : Setter transmitList := ltac:(mk_setter).
#[export] Instance set_sendEvent : Setter sendEvent := ltac:(mk_setter).
#[export] Instance set_drainManager : Setter drainManager := ltac:(mk_setter).
#[export] Instance set_waitingOnRetry : Setter waitingOnRetry := ltac:(mk_setter).
#[export] Instance set_signalled : Setter signalled := ltac:(mk_setter).

Definition PacketQueue_new : PacketQueue := mkPacketQueue [] None None false [].

(** [EventManager::schedule] and [reschedule] of the send event. *)
Definition em_schedule (now when : Z) (q : PacketQueue) : Res PacketQueue :=
  _ ← guard_assert (bool_decide (now <= when)) "when >= getCurTick()";
  _ ← guard_assert (bool_decide (sendEvent q = None)) "!event->scheduled()";
  Ok (q <| sendEvent := Some when |>).
Definition em_reschedule (now when : Z) (q : PacketQueue) : Res PacketQueue :=
  _ ← guard_assert (bool_decide (now <= when)) "when >= getCurTick()";
  _ ← guard_assert (bool_decide (is_Some (sendEvent q))) "always || event->scheduled()";
  Ok (q <| sendEvent := Some when |>).

(** [checkFunctional]: the packet, the queue (whose packets a functional write
    updates) and whether the packet is satisfied. *)
Fixpoint check_list (junk : Z -> list Z) (pkt : Packet) (l : list DeferredPacket) : Res (Packet * list DeferredPacket * bool) :=
  match l with
  | [] => Ok (pkt, [], false)
  | dp :: l =>
      '(pkt, other, found) ← checkFunctional_pkt junk pkt (dp_pkt dp);
      let dp := mkDeferred (tick dp) other (sendAsSnoop dp) in
      if found : bool then Ok (pkt, dp :: l, true)
      else '(pkt, l, found) ← check_list junk pkt l; Ok (pkt, dp :: l, found)
  end.
Definition checkFunctional (junk : Z -> list Z) (pkt : Packet) (q : PacketQueue) : Res (Packet * PacketQueue * bool) :=
  '(pkt, l, found) ← check_list junk pkt (transmitList q);
  Ok (pkt, q <| transmitList := l |>, found).

Definition schedSendEvent (now when : Z) (q : PacketQueue) : Res PacketQueue :=
  if waitingOnRetry q then
    _ ← guard_assert (bool_decide (sendEvent q = None)) "!sendEvent.scheduled()"; Ok q
  else
    match sendEvent q with
    | None => em_schedule now when q
    | Some w => if Z.ltb when w then em_reschedule now when q else Ok q
    end.

(** The insertion from the second element on. *)
Fixpoint insert_after (dp : DeferredPacket) (l : list DeferredPacket) : list DeferredPacket :=
  match l with
  | [] => [dp]
  | x :: l' => if Z.leb (tick x) (tick dp) then x :: insert_after dp l' else dp :: l
  end.

Definition schedSendTiming (now : Z) (pkt : Packet) (when : Z) (send_as_snoop : bool) (q : PacketQueue) : Res PacketQueue :=
  _ ← guard_assert (bool_decide (now <= when)) "when >= curTick()";
  _ ← guard_assert (negb (isExpressSnoop pkt)) "!pkt->isExpressSnoop()";
  if bool_decide (100 < zlen (transmitList q)) then Err (Abort "Packet queue has grown beyond 100 packets")
  else
    let dp := mkDeferred when pkt send_as_snoop in
    match transmitList q with
    | [] => schedSendEvent now when (q <| transmitList := [dp] |>)
    | f :: l =>
        if Z.ltb when (tick f) then schedSendEvent now when (q <| transmitList := dp :: f :: l |>)
        else if Z.leb (tick (List.last l f)) when then Ok (q <| transmitList := f :: l ++ [dp] |>)
        else Ok (q <| transmitList := f :: insert_after dp l |>)
    end.

Definition deferredPacketReady (now : Z) (q : PacketQueue) : bool :=
  match transmitList q with [] => false | f :: _ => Z.leb (tick f) now end.
Definition deferredPacketReadyTime (q : PacketQueue) : Z :=
  match transmitList q with [] => MaxTick | f :: _ => tick f end.

(** [sendTiming] is the port's: it may call back, and returns whether the
    packet was taken. *)
Section Sending.
Context {W : Type} (sendTiming : Packet -> bool -> PacketQueue * W -> Res (bool * (PacketQueue * W))).

Definition trySendTiming (now : Z) (s : PacketQueue * W) : Res (PacketQueue * W) :=
  let '(q, w) := s in
  _ ← guard_assert (deferredPacketReady now q) "deferredPacketReady()";
  match transmitList q with
  | [] => Err OutOfRange
  | dp :: l =>
      '(ok, (q, w)) ← sendTiming (dp_pkt dp) (sendAsSnoop dp) (q <| transmitList := l |>, w);
      let q := q <| waitingOnRetry := negb ok |> in
      if waitingOnRetry q then
        _ ← guard_assert (bool_decide (sendEvent q = None)) "!sendEvent.scheduled()";
        Ok (q <| transmitList ::= cons dp |>, w)
      else Ok (q, w)
  end.

Definition scheduleSend (now time : Z) (q : PacketQueue) : Res PacketQueue :=
  let nextReady := Z.min (deferredPacketReadyTime q) time in
  if negb (Z.eqb nextReady MaxTick) then
    if bool_decide (sendEvent q = None) then em_schedule now (Z.max nextReady (now + 1)) q else Ok q
  else
    match drainManager q, transmitList q, sendEvent q with
    | Some dm, [], None => Ok (q <| signalled ::= (fun l => l ++ [dm]) |> <| drainManager := None |>)
    | _, _, _ => Ok q
    end.

Definition sendDeferredPacket (now : Z) (s : PacketQueue * W) : Res (PacketQueue * W) :=
  '(q, w) ← trySendTiming now s;
  if negb (waitingOnRetry q) then q ← scheduleSend now MaxTick q; Ok (q, w) else Ok (q, w).

Definition processSendEvent (now : Z) (s : PacketQueue * W) : Res (PacketQueue * W) :=
  _ ← guard_assert (negb (waitingOnRetry s.1)) "!waitingOnRetry"; sendDeferredPacket now s.

Definition retry (now : Z) (s : PacketQueue * W) : Res (PacketQueue * W) :=
  _ ← guard_assert (waitingOnRetry s.1) "waitingOnRetry"; sendDeferredPacket now s.
End Sending.

Definition drain (dm : positive) (q : PacketQueue) : Z * PacketQueue :=
  if bool_decide (transmitList q = []) && bool_decide (sendEvent q = None) then (0, q)
  else (1, q <| drainManager := Some dm |>).

(** The two queues, at a master and at a slave port. *)
Class MasterPort (W : Type) := {
  sendTimingReq : Packet -> PacketQueue * W -> Res (bool * (PacketQueue * W));
  sendTimingSnoopResp : Packet -> PacketQueue * W -> Res (bool * (PacketQueue * W))
}.
Class SlavePort (W : Type) := {
  sendTimingResp : Packet -> PacketQueue * W -> Res (bool * (PacketQueue * W))
}.

Definition Master_sendTiming `{MasterPort W} (pkt : Packet) (send_as_snoop : bool) (s : PacketQueue * W) : Res (bool * (PacketQueue * W)) :=
  if negb send_as_snoop then sendTimingReq pkt s else sendTimingSnoopResp pkt s.
Definition Slave_sendTiming `{SlavePort W} (pkt : Packet) (send_as_snoop : bool) (s : PacketQueue * W) : Res (bool * (PacketQueue * W)) :=
  _ ← guard_assert (negb send_as_snoop) "!send_as_snoop"; sendTimingResp pkt s.

End PacketQueue.
