(* ===== verification/PacketQueueTheorems.v ===== *)
(** * What a packet queue promises ([mem/packet_queue.cc])

    Against a port that does not call back while it is sent a packet, no
    assertion of the queue fails, packets leave at or after their tick, those
    of one tick in the order of their arrival, each once, and the event is
    always due when a packet is. *)

From S2P Require Import Prelude.
From stdpp Require Import sets sorting.
From S2P Require Import EventQueue.
From S2P Require Import MemPacket.
From S2P Require Import PacketTheorems.
From S2P Require Import PacketQueue.
#[local] Open Scope Z_scope.

Module PacketQueueTheorems.
Import EventQueue MemPacket PacketTheorems PacketQueue.

(** ** Insertion *)

Definition by_tick (a b : DeferredPacket) : Prop := tick a <= tick b.
Definition sorted (l : list DeferredPacket) : Prop := StronglySorted by_tick l.

Lemma insert_after_in dp l x : x ∈ insert_after dp l <-> x = dp \/ x ∈ l.
Proof.
  induction l as [|y l IH]; cbn [insert_after]; [set_solver|].
  destruct (Z.leb (tick y) (tick dp)); set_solver.
Qed.

Lemma insert_after_sorted dp l : sorted l -> sorted (insert_after dp l).
Proof.
  induction l as [|x l IH]; intros H; cbn [insert_after]; [repeat constructor|].
  inversion H as [|? ? Hl Hx]; subst. rewrite Forall_forall in Hx. unfold by_tick in Hx.
  destruct (Z.leb_spec (tick x) (tick dp)); constructor; try (by apply IH) || done; apply Forall_forall; intros y Hy; unfold by_tick.
  - apply insert_after_in in Hy as [->|Hy]; [done | by apply Hx].
  - apply elem_of_cons in Hy as [->|Hy]; [lia|]. specialize (Hx y Hy). lia.
Qed.

Lemma insert_after_last dp l : sorted l -> (forall x, x ∈ l -> tick x <= tick dp) -> insert_after dp l = l ++ [dp].
Proof.
  intros _. induction l as [|x l IH]; intros H; [done|]. cbn [insert_after app].
  rewrite (proj2 (Z.leb_le _ _)) by (apply H; left). f_equal. apply IH. intros y Hy. apply H. by right.
Qed.

Lemma deferred_none {A} (P : A -> Prop) `{forall x, Decision (P x)} l : (forall x, x ∈ l -> ~ P x) -> filter P l = [].
Proof.
  induction l as [|x l IH]; intros H0; [done|]. rewrite filter_cons_False by (apply H0; left).
  apply IH. intros y Hy. apply H0. by right.
Qed.

(** The entries of one tick keep their order, a new one last. *)
Lemma insert_after_filter dp l t : sorted l ->
  filter (fun x => tick x = t) (insert_after dp l) = filter (fun x => tick x = t) l ++ filter (fun x => tick x = t) [dp].
Proof.
  induction l as [|x l IH]; intros H; cbn [insert_after]; [done|]. inversion H as [|? ? Hl Hx]; subst.
  rewrite Forall_forall in Hx. unfold by_tick in Hx. destruct (Z.leb_spec (tick x) (tick dp)).
  - rewrite !(filter_cons _ x), IH by done. by destruct (decide (tick x = t)).
  - rewrite (filter_cons _ dp). change [dp] with ([dp] ++ []). rewrite filter_app, filter_nil, app_nil_r, (filter_cons _ dp), filter_nil.
    destruct (decide (tick dp = t)) as [Ht|]; [|by rewrite app_nil_r].
    rewrite (deferred_none (fun x => tick x = t) (x :: l)); [done|].
    intros y [->|Hy]%elem_of_cons Hy2; [lia|]. specialize (Hx y Hy). lia.
Qed.

Lemma last_default {A} (l : list A) : forall z x, List.last (z :: l) x = List.last l z.
Proof.
  induction l as [|a l IH]; intros z x; [done|]. change (List.last (z :: a :: l) x) with (List.last (a :: l) x).
  by rewrite !IH.
Qed.

Lemma last_max l x : sorted (x :: l) -> forall y, y ∈ x :: l -> tick y <= tick (List.last l x).
Proof.
  revert x. induction l as [|z l IH]; intros x H y Hy.
  - apply list_elem_of_singleton in Hy as ->. done.
  - inversion H as [|? ? Hl Hx]; subst. rewrite Forall_forall in Hx. unfold by_tick in Hx.
    rewrite last_default.
    apply elem_of_cons in Hy as [->|Hy].
    + specialize (IH z Hl z ltac:(left)). specialize (Hx z ltac:(left)). lia.
    + by apply IH.
Qed.

(** The three cases of [schedSendTiming] are one insertion. *)
Lemma insertion_cases dp l : sorted l ->
  match l with
  | [] => [dp]
  | f :: l' =>
      if Z.ltb (tick dp) (tick f) then dp :: l
      else if Z.leb (tick (List.last l' f)) (tick dp) then f :: l' ++ [dp] else f :: insert_after dp l'
  end = insert_after dp l.
Proof.
  intros H. destruct l as [|f l]; [done|]. destruct (Z.ltb_spec (tick dp) (tick f)).
  - cbn [insert_after]. by rewrite (proj2 (Z.leb_gt _ _)) by lia.
  - destruct (Z.leb_spec (tick (List.last l f)) (tick dp)).
    + rewrite (insert_after_last dp (f :: l)); [done | done |]. intros x Hx. pose proof (last_max l f H x Hx). lia.
    + cbn [insert_after]. by rewrite (proj2 (Z.leb_le _ _)) by lia.
Qed.

(** ** Runs *)

Section Run.
Context {W : Type} (sendTiming : Packet -> bool -> PacketQueue * W -> Res (bool * (PacketQueue * W))).

(** The port decides whether it takes the packet, and leaves the queue alone. *)
Hypothesis port_quiet : forall p b q w, exists ok w', sendTiming p b (q, w) = Ok (ok, (q, w')).

(** The queue, its peer, the present tick, and what was scheduled and sent so
    far, with the tick at which it was sent. *)
Record State := mkState {
  now : Z;
  queue : PacketQueue;
  peer : W;
  scheduled : list DeferredPacket;
  sent : list (Z * DeferredPacket)
}.

Inductive QOp :=
| QSend (pkt : Packet) (when : Z) (send_as_snoop : bool)
| QFire
| QRetry
| QWait (t : Z).

(** A packet is scheduled for the present or later and is no express snoop;
    the event fires when it is due, the peer retries what it refused, and time
    does not pass an event. *)
Definition legal (s : State) (op : QOp) : Prop :=
  match op with
  | QSend pkt when _ => now s <= when < MaxTick /\ isExpressSnoop pkt = false
  | QFire => is_Some (sendEvent (queue s))
  | QRetry => waitingOnRetry (queue s) = true
  | QWait t => now s <= t /\ forall e, sendEvent (queue s) = Some e -> t <= e
  end.

(** The entry that left the queue at tick [t], if one did. *)
Definition left_queue (t : Z) (before : list DeferredPacket) (q : PacketQueue) : list (Z * DeferredPacket) :=
  if waitingOnRetry q then [] else match before with dp :: _ => [(t, dp)] | [] => [] end.

Definition qop (s : State) (op : QOp) : Res State :=
  match op with
  | QSend pkt when snoop =>
      q ← schedSendTiming (now s) pkt when snoop (queue s);
      Ok (mkState (now s) q (peer s) (scheduled s ++ [mkDeferred when pkt snoop]) (sent s))
  | QFire =>
      let t := default (now s) (sendEvent (queue s)) in
      '(q, w) ← processSendEvent sendTiming t ((queue s) <| sendEvent := None |>, peer s);
      Ok (mkState t q w (scheduled s) (sent s ++ left_queue t (transmitList (queue s)) q))
  | QRetry =>
      '(q, w) ← retry sendTiming (now s) (queue s, peer s);
      Ok (mkState (now s) q w (scheduled s) (sent s ++ left_queue (now s) (transmitList (queue s)) q))
  | QWait t => Ok (mkState t (queue s) (peer s) (scheduled s) (sent s))
  end.

(** While it waits for a retry the first packet is due and no event is
    scheduled; otherwise the event is scheduled for when the first packet is
    due, or for the next tick if it is already. *)
Definition timer_ok (t : Z) (q : PacketQueue) : Prop :=
  if waitingOnRetry q then
    sendEvent q = None /\ match transmitList q with [] => False | f :: _ => tick f <= t end
  else
    match transmitList q with
    | [] => sendEvent q = None
    | f :: _ => exists e, sendEvent q = Some e /\ tick f <= e /\ t <= e /\ e <= Z.max (tick f) (t + 1)
    end.

Record queue_ok (s : State) : Prop := {
  qk_sorted : sorted (transmitList (queue s));
  qk_timer : timer_ok (now s) (queue s);
  qk_ticks : forall x, x ∈ transmitList (queue s) -> tick x < MaxTick;
  qk_size : zlen (transmitList (queue s)) <= 101;
  qk_order : forall t, filter (fun x => tick x = t) (scheduled s) =
                       filter (fun x => tick x = t) ((snd <$> sent s) ++ transmitList (queue s));
  qk_due : forall t x, (t, x) ∈ sent s -> tick x <= t
}.

Definition grown : Fault := Abort "Packet queue has grown beyond 100 packets".

Lemma sched_send pkt when snoop t q : t <= when -> isExpressSnoop pkt = false -> sorted (transmitList q) -> timer_ok t q ->
  schedSendTiming t pkt when snoop q =
    if bool_decide (100 < zlen (transmitList q)) then Err grown
    else Ok (q <| transmitList := insert_after (mkDeferred when pkt snoop) (transmitList q) |>
               <| sendEvent := if waitingOnRetry q then None
                               else match transmitList q with
                                    | [] => Some when
                                    | f :: _ => if Z.ltb when (tick f) then Some when else sendEvent q
                                    end |>).
Proof.
  intros Hw Hs Hsort Ht. unfold schedSendTiming. rewrite (bool_decide_eq_true_2 (t <= when)), Hs by done. cbn [guard_assert mbind Res_bind negb].
  destruct (bool_decide _); [done|]. rewrite <- (insertion_cases _ _ Hsort). unfold timer_ok in Ht.
  destruct q as [l e dm w sg]. cbn in *. unfold schedSendEvent, em_schedule, em_reschedule.
  destruct l as [|f l]; cbn.
  - destruct w; cbn; [tauto|]. by rewrite Ht, !bool_decide_eq_true_2.
  - destruct (Z.ltb_spec when (tick f)).
    + destruct w; cbn.
      * lia.
      * destruct Ht as (e0 & -> & H1 & H2 & H3). rewrite (proj2 (Z.ltb_lt _ _)) by lia.
        rewrite !bool_decide_eq_true_2 by (done || by eexists). done.
    + destruct (Z.leb (tick (List.last l f)) when); destruct w; cbn; try done.
      all: destruct Ht as [-> _]; done.
Qed.

(** Sending the first packet, when it is due and no event is scheduled. *)
Lemma send_first t q w f l : sendEvent q = None -> transmitList q = f :: l -> tick f <= t -> (forall x, x ∈ l -> tick x < MaxTick) ->
  exists q' w', sendDeferredPacket sendTiming t (q, w) = Ok (q', w') /\
    ((waitingOnRetry q' = true /\ transmitList q' = f :: l /\ sendEvent q' = None) \/
     (waitingOnRetry q' = false /\ transmitList q' = l /\
      sendEvent q' = match l with [] => None | x :: _ => Some (Z.max (tick x) (t + 1)) end)).
Proof.
  intros He El Ht Hm. unfold sendDeferredPacket, trySendTiming, deferredPacketReady. rewrite El, (proj2 (Z.leb_le _ _)) by done.
  cbn [guard_assert mbind Res_bind]. destruct (port_quiet (dp_pkt f) (sendAsSnoop f) (q <| transmitList := l |>) w) as (ok & w' & ->).
  cbn [mbind Res_bind]. destruct ok; cbn.
  - unfold scheduleSend, deferredPacketReadyTime. cbn. destruct l as [|x l]; cbn.
    + destruct (drainManager q); rewrite He; cbn; (eexists _, _; split; [done|]; right; done).
    + specialize (Hm x ltac:(left)). replace (Z.min (tick x) MaxTick) with (tick x) by lia.
      destruct (Z.eqb_spec (tick x) MaxTick); [lia|]. rewrite He. cbn. unfold em_schedule. cbn. rewrite He.
      rewrite !bool_decide_eq_true_2 by (done || lia). cbn. eexists _, _. split; [done|]. by right.
  - rewrite He. cbn. eexists _, _. split; [done|]. left. cbn. by rewrite He.
Qed.

(** A send keeps the account: the first packet is where it was, or sent. *)
Lemma fired_ok s t q' w' f l :
  queue_ok s -> transmitList (queue s) = f :: l -> tick f <= t ->
  ((waitingOnRetry q' = true /\ transmitList q' = f :: l /\ sendEvent q' = None) \/
   (waitingOnRetry q' = false /\ transmitList q' = l /\
    sendEvent q' = match l with [] => None | x :: _ => Some (Z.max (tick x) (t + 1)) end)) ->
  queue_ok (mkState t q' w' (scheduled s) (sent s ++ left_queue t (f :: l) q')).
Proof.
  intros [Hs Ht Hm Hz Ho Hd] El Hf Hq. rewrite El in *. unfold left_queue. destruct Hq as [(Hw & Hl & He)|(Hw & Hl & He)]; rewrite Hw.
  - constructor; cbn; rewrite ?Hl, ?app_nil_r; try done. unfold timer_ok. by rewrite Hw, He, Hl.
  - apply StronglySorted_inv in Hs as [Hs _]. constructor; cbn; rewrite ?Hl.
    + done.
    + unfold timer_ok. rewrite Hw, Hl, He. destruct l; [done|]. eexists. split; [done|]. lia.
    + intros x Hx. apply Hm. by right.
    + rewrite zlen_cons in Hz. lia.
    + intros u. rewrite Ho, fmap_app, <- app_assoc. done.
    + intros u x [Hx|Hx]%elem_of_app; [by apply Hd|]. apply list_elem_of_singleton in Hx as [= -> ->]. done.
Qed.

Lemma step_ok s op : queue_ok s -> legal s op ->
  qop s op = Err grown \/ exists s', qop s op = Ok s' /\ queue_ok s'.
Proof.
  intros Hok Hl. pose proof Hok as [Hs Ht Hm Hz Ho Hd]. destruct op as [pkt when snoop| | |t]; cbn [qop legal] in *.
  - destruct Hl as [[Hw1 Hw2] Hx]. rewrite (sched_send pkt when snoop (now s)) by done.
    destruct (bool_decide_reflect (100 < zlen (transmitList (queue s)))) as [|Hlen]; [by left|]. right. cbn [mbind Res_bind].
    eexists. split; [done|]. set (dp := mkDeferred when pkt snoop) in *. constructor; cbn.
    + by apply insert_after_sorted.
    + unfold timer_ok in *. cbn. destruct (waitingOnRetry (queue s)).
      * destruct Ht as [_ Ht]. split; [done|]. destruct (transmitList (queue s)) as [|f l]; [done|]. cbn [insert_after].
        rewrite (proj2 (Z.leb_le _ _)) by (cbn; lia). done.
      * destruct (transmitList (queue s)) as [|f l]; cbn [insert_after]; [exists when; split; [done|]; cbn; lia|]. cbn [tick dp].
        destruct (Z.ltb_spec when (tick f)).
        -- rewrite (proj2 (Z.leb_gt _ _)) by (cbn; lia). exists when. split; [done|]. cbn. lia.
        -- rewrite (proj2 (Z.leb_le _ _)) by (cbn; lia). done.
    + intros x [->|Hx']%insert_after_in; [done | by apply Hm].
    + assert (zlen (insert_after dp (transmitList (queue s))) = zlen (transmitList (queue s)) + 1) as ->; [|lia].
      clear. induction (transmitList (queue s)) as [|x l IH]; cbn [insert_after]; [done|].
      destruct (Z.leb (tick x) (tick dp)); rewrite !zlen_cons; [|done]. by rewrite IH.
    + intros u. rewrite filter_app, Ho, !filter_app, (insert_after_filter dp) by done. by rewrite app_assoc.
    + done.
  - destruct Hl as [e He]. rewrite He. change (default (now s) (Some e)) with e. right. unfold timer_ok in Ht. destruct (waitingOnRetry (queue s)) eqn:Ew; [naive_solver|].
    destruct (transmitList (queue s)) as [|f l] eqn:El; [congruence|]. destruct Ht as (e0 & He0 & H1 & H2 & H3).
    rewrite He in He0. injection He0 as <-. unfold processSendEvent.
    change (waitingOnRetry ((queue s) <| sendEvent := None |>, peer s).1) with (waitingOnRetry (queue s)). rewrite Ew.
    cbn [negb guard_assert mbind Res_bind].
    destruct (send_first e ((queue s) <| sendEvent := None |>) (peer s) f l) as (q' & w' & -> & Hq); [done | done | done | by intros; apply Hm; right |].
    cbn [mbind Res_bind]. eexists. split; [done|]. rewrite <- El. rewrite El. by apply (fired_ok s).
  - right. unfold timer_ok in Ht. rewrite Hl in Ht. destruct Ht as [He Ht]. destruct (transmitList (queue s)) as [|f l] eqn:El; [done|].
    unfold retry. cbn [fst]. rewrite Hl. cbn [guard_assert mbind Res_bind].
    destruct (send_first (now s) (queue s) (peer s) f l) as (q' & w' & -> & Hq); [done | done | done | by intros; apply Hm; right |].
    cbn [mbind Res_bind]. eexists. split; [done|]. by apply (fired_ok s).
  - right. eexists. split; [done|]. destruct Hl as [H1 H2]. constructor; cbn; try done. unfold timer_ok in *.
    destruct (waitingOnRetry (queue s)); destruct (transmitList (queue s)) as [|f l]; try done.
    + split; [tauto|]. lia.
    + destruct Ht as (e & He & H3 & H4 & H5). exists e. specialize (H2 e He). split; [done|]. lia.
Qed.

Inductive reach (t : Z) (w : W) : State -> Prop :=
| reach_new : reach t w (mkState t PacketQueue_new w [] [])
| reach_step s op s' : reach t w s -> legal s op -> qop s op = Ok s' -> reach t w s'.

Fixpoint legal_run (s : State) (ops : list QOp) : Prop :=
  match ops with
  | [] => True
  | op :: ops => legal s op /\ match qop s op with Ok s => legal_run s ops | Err _ => True end
  end.

Lemma reach_run t w ops : forall s s', reach t w s -> legal_run s ops -> foldM qop s ops = Ok s' -> reach t w s'.
Proof.
  induction ops as [|op ops IH]; intros s s' Hr Hl Hf; cbn [foldM legal_run] in *; [by injection Hf as <-|].
  destruct Hl as [Hl1 Hl2]. destruct (qop s op) as [s1|] eqn:E; [|done]. apply (IH s1); [|done|done]. by apply (reach_step t w s op).
Qed.

Lemma reach_ok t w s : reach t w s -> queue_ok s.
Proof.
  induction 1 as [|s op s' _ IH Hl Hs].
  - constructor; cbn.
    + apply SSorted_nil.
    + done.
    + by intros x ?%elem_of_nil.
    + done.
    + done.
    + by intros u x ?%elem_of_nil.
  - destruct (step_ok s op IH Hl) as [E|(s2 & E & H)]; rewrite E in Hs; [done|]. by injection Hs as <-.
Qed.

End Run.

(** C12: against a port that does not call back, a packet queue never fails but
    for growing beyond 100 packets, which it does not get past 101. Whatever
    the port refuses, and in whatever order packets arrive, those of one tick
    leave the queue in the order of their arrival, none before its tick, and
    each once; and unless the queue waits for the port's retry, its event is
    scheduled for when the first packet is due, or the next tick if it is. *)
Theorem queue_keeps_order {W} (sendTiming : Packet -> bool -> PacketQueue * W -> Res (bool * (PacketQueue * W))) t w s op :
  (forall p b q w, exists ok w', sendTiming p b (q, w) = Ok (ok, (q, w'))) ->
  reach sendTiming t w s -> legal s op ->
  (qop sendTiming s op = Err grown \/ exists s', qop sendTiming s op = Ok s') /\
  zlen (transmitList (queue s)) <= 101 /\ timer_ok (now s) (queue s) /\
  (forall u x, (u, x) ∈ sent s -> tick x <= u) /\
  (forall u, filter (fun x => tick x = u) (scheduled s) =
             filter (fun x => tick x = u) ((snd <$> sent s) ++ transmitList (queue s))).
Proof.
  intros Hq Hr Hl. pose proof (reach_ok _ Hq _ _ _ Hr) as Hok. split.
  - destruct (step_ok _ Hq s op Hok Hl) as [|(s' & ? & _)]; [by left | right; by exists s'].
  - by destruct Hok.
Qed.

(** A port that refuses every second packet. *)
Definition picky (p : Packet) (b : bool) (s : PacketQueue * bool) : Res (bool * (PacketQueue * bool)) :=
  Ok (s.2, (s.1, negb s.2)).

Definition small_packet (a : Z) : Packet := Packet_new (setPhys a 4 0 0) ReadReq.

Definition picky_start : State := mkState 0 PacketQueue_new false [] [].
Definition picky_ops : list QOp :=
  [QSend (small_packet 0) 20 false; QSend (small_packet 4) 10 false; QSend (small_packet 8) 10 false; QWait 10; QFire; QRetry].

Lemma picky_legal : legal_run picky picky_start picky_ops.
Proof. vm_compute. split_and!; try done; try (by eexists); intros e [= <-]; done. Qed.

Lemma picky_result : exists s, foldM (qop picky) picky_start picky_ops = Ok s /\
  (addr ∘ dp_pkt <$> transmitList (queue s)) = [8; 0] /\ (fst <$> sent s) = [10] /\ is_Some (sendEvent (queue s)).
Proof. vm_compute. eexists. split_and!; try done. by eexists. Qed.

(** Two packets of tick 10 and one of tick 20: the first is refused once. *)
Lemma queue_keeps_order_witness :
  exists s, foldM (qop picky) picky_start picky_ops = Ok s /\
    (addr ∘ dp_pkt <$> transmitList (queue s)) = [8; 0] /\ (fst <$> sent s) = [10] /\
    (qop picky s QFire = Err grown \/ exists s', qop picky s QFire = Ok s').
Proof.
  destruct picky_result as (s & E & H1 & H2 & H3). exists s. split; [exact E|]. split; [exact H1|]. split; [exact H2|].
  refine (proj1 (queue_keeps_order picky 0 false s QFire _ _ H3)).
  - intros p b q w. by exists w, (negb w).
  - exact (reach_run picky 0 false picky_ops picky_start s (reach_new picky 0 false) picky_legal E).
Defined.

(** ** Functional reads *)

Lemma check_list_sound junk l : forall vs pkt, reading vs pkt -> Forall (in_transit ∘ dp_pkt) l ->
  check_list junk pkt l = Err discontiguous \/
  exists pkt' r, check_list junk pkt l = Ok (pkt', l, r) /\ same_access pkt pkt' /\
    (r = true -> exists d, data pkt' = Some d /\
       forall i, 0 <= i < size pkt -> found_in ((l ≫= values_of ∘ dp_pkt) ++ vs) pkt' d i).
Proof.
  induction l as [|[t o sn] l IH]; intros vs pkt Hr Ho; cbn [check_list].
  { right. eexists _, _. split; [done|]. done. }
  apply Forall_cons in Ho as [Ho1 Ho2]. cbn [dp_pkt tick sendAsSnoop]. cbn in Ho1.
  destruct (check_packet junk vs o pkt Hr Ho1) as [->|(pkt' & r & -> & Hs & H)]; [by left|].
  cbn [mbind Res_bind]. destruct r.
  - right. eexists _, _. split; [done|]. split; [done|]. intros _. destruct H as (d & Hd & H). exists d. split; [done|].
    intros i Hi. apply (found_mono (values_of o ++ vs)); [cbn; set_solver | by apply H].
  - destruct (IH _ pkt' H Ho2) as [->|(pkt2 & r2 & -> & Hs2 & H2)]; [by left|]. right. eexists _, _. split; [done|].
    pose proof Hs as (A1 & A2 & A3 & A4 & A5). pose proof Hs2 as (B1 & B2 & B3 & B4 & B5).
    split; [unfold same_access; split_and!; congruence|]. intros Ht. destruct (H2 Ht) as (d & Hd & H3). exists d. split; [done|].
    intros i Hi. apply (found_mono ((l ≫= values_of ∘ dp_pkt) ++ values_of o ++ vs)); [cbn; set_solver | apply H3; by rewrite A4].
Qed.

(** C13: a functional read that is checked against the packets of a queue copies
    nothing from or to outside of an array and leaves the queue as it is. If
    it is reported as satisfied then each of its bytes is one that a packet of
    the queue holds for its address; otherwise it goes on, or stops where the
    bytes found leave a gap. *)
Theorem functional_read_sound junk pkt q d :
  full_packet pkt d -> isRead pkt = true -> isPrint pkt = false -> bytesValidStart pkt = 0 -> bytesValidEnd pkt = 0 ->
  Forall (in_transit ∘ dp_pkt) (transmitList q) ->
  checkFunctional junk pkt q = Err discontiguous \/
  exists pkt' r, checkFunctional junk pkt q = Ok (pkt', q, r) /\ same_access pkt pkt' /\
    (r = true -> exists d', data pkt' = Some d' /\
       forall i, 0 <= i < size pkt -> found_in (transmitList q ≫= values_of ∘ dp_pkt) pkt' d' i).
Proof.
  intros Hf Hr Hp Hs He Hq. unfold checkFunctional.
  assert (reading [] pkt) as Hread.
  { exists d. rewrite Hs, He. split; [done|]. split; [done|]. split; [done|]. pose proof Hf as (_ & _ & _ & _ & _ & ? & _).
    split; [lia|]. split; [lia|]. intros i Hi. lia. }
  destruct (check_list_sound junk (transmitList q) [] pkt Hread Hq) as [->|(pkt' & r & -> & Hsame & H)]; [by left|].
  right. cbn [mbind Res_bind]. exists pkt', r. rewrite app_nil_r in H. split; [|done].
  destruct q. done.
Qed.

(** Two writes wait in a queue, to bytes 4-7 (the newer) and 0-7. *)
Definition write_packet (a : Z) (bytes : list Z) : Packet :=
  (set_flag DYNAMIC_DATA (Packet_new (setPhys a (zlen bytes) 0 0) WriteReq)) <| data := Some bytes |>.
Definition read_packet (a n : Z) : Packet :=
  (set_flag DYNAMIC_DATA (Packet_new (setPhys a n 0 0) ReadReq)) <| data := Some (replicate (Z.to_nat n) 0) |>.
Definition two_writes : PacketQueue :=
  PacketQueue_new <| transmitList := [mkDeferred 0 (write_packet 4 [24; 25; 26; 27]) false;
                                      mkDeferred 0 (write_packet 0 [10; 11; 12; 13; 14; 15; 16; 17]) false] |>.

(** The outcome of a read of the queue. *)
Definition read_of (a n : Z) (q : PacketQueue) : option (bool * option (list Z) * Z) :=
  match checkFunctional (fun _ => []) (read_packet a n) q with
  | Ok (p, _, r) => Some (r, data p, bytesValidEnd p)
  | Err _ => None
  end.

(** The read is satisfied, with the older bytes: the second packet covers it
    and overwrites what was found. A packet that overlaps the end of a read
    gives it all but the last byte they share. *)
Lemma older_bytes :
  match checkFunctional (fun _ => []) (read_packet 0 8) two_writes with
  | Ok (p, _, r) => Some (r, data p, bytesValidEnd p)
  | Err _ => None
  end = Some (true, Some [10; 11; 12; 13; 14; 15; 16; 17], 8).
Proof. vm_compute. done. Qed.
Lemma last_byte_missed :
  read_of 2 8 (PacketQueue_new <| transmitList := [mkDeferred 0 (write_packet 0 [10; 11; 12; 13; 14; 15; 16; 17]) false] |>)
  = Some (false, Some [12; 13; 14; 15; 16; 0; 0; 0], 5).
Proof. vm_compute. done. Qed.

Lemma two_writes_ok : full_packet (read_packet 0 8) (replicate 8 0) /\ Forall (in_transit ∘ dp_pkt) (transmitList two_writes).
Proof. split; [vm_compute; by split_and!|]. repeat constructor; eexists; vm_compute; by split_and!. Qed.

Lemma functional_read_sound_witness :
  exists pkt' r, checkFunctional (fun _ => []) (read_packet 0 8) two_writes = Ok (pkt', two_writes, r) /\
    data pkt' = Some [10; 11; 12; 13; 14; 15; 16; 17] /\
    exists d', data pkt' = Some d' /\
      forall i, 0 <= i < 8 -> found_in (transmitList two_writes ≫= values_of ∘ dp_pkt) pkt' d' i.
Proof.
  pose proof older_bytes as Ho. destruct two_writes_ok as [Hf Hq].
  destruct (functional_read_sound (fun _ => []) (read_packet 0 8) two_writes _ Hf eq_refl eq_refl eq_refl eq_refl Hq)
    as [E|(p & r & E & _ & H)]; rewrite E in Ho; [discriminate Ho|].
  injection Ho as Hr Hd _. exists p, r. split; [exact E|]. split; [exact Hd|]. exact (H Hr).
Defined.

End PacketQueueTheorems.
