(* ===== verification/AbstractMemory.v ===== *)
(** * Memories ([mem/abstract_mem.hh], [mem/abstract_mem.cc])

    The state a memory controller keeps without any timing: the bytes, the
    addresses locked by load-locked operations, the counters by master.
    [pmemAddr] is the array behind the pointer, or [None] for a null memory;
    [wakeups] lists the contexts whose CPU was woken. The constants of the
    instruction set are ARM's, for which GemDroid is built. *)

From S2P Require Import Prelude.
From stdpp Require Import gmap.
From S2P Require Import EventQueue.
From S2P Require Import AddrRange.
From S2P Require Import MemPacket.
#[local] Open Scope Z_scope.

Module AbstractMemory.
Import EventQueue AddrRange MemPacket.

Definition PageBytes : Z := 4096.
Definition sizeof_IntReg : Z := 8.

Record LockedAddr := mkLocked { la_addr : Z; la_contextId : Z }.

Definition Addr_Mask : Z := 15.
Definition lock_mask (paddr : Z) : Z := Z.ldiff paddr Addr_Mask.

Record AbstractMemory := mkAbstractMemory {
  range : AddrRange;
  pmemAddr : option (list Z);
  lockedAddrList : list LockedAddr;
  bytesRead : gmap Z Z;
  bytesInstRead : gmap Z Z;
  bytesWritten : gmap Z Z;
  numReads : gmap Z Z;
  numWrites : gmap Z Z;
  numOther : gmap Z Z;
  wakeups : list Z
}.

#[export] Instance eta_AbstractMemory : Settable AbstractMemory := fun r =>
  mkAbstractMemory (range r) (pmemAddr r) (lockedAddrList r) (bytesRead r) (bytesInstRead r) (bytesWritten r)
    (numReads r) (numWrites r) (numOther r) (wakeups r).
#[export] Instance set_pmemAddr : Setter pmemAddr := ltac:(mk_setter).
#[export] Instance set_lockedAddrList : Setter lockedAddrList := ltac:(mk_setter).
#[export] Instance set_bytesRead : Setter bytesRead := ltac:(mk_setter).
#[export] Instance set_bytesInstRead : Setter bytesInstRead := ltac:(mk_setter).
#[export] Instance set_bytesWritten : Setter bytesWritten := ltac:(mk_setter).
#[export] Instance set_numReads : Setter numReads := ltac:(mk_setter).
#[export] Instance set_numWrites : Setter numWrites := ltac:(mk_setter).
#[export] Instance set_numOther : Setter numOther := ltac:(mk_setter).
#[export] Instance set_wakeups : Setter wakeups := ltac:(mk_setter).

Definition AbstractMemory_new (r : AddrRange) : Res AbstractMemory :=
  if Z.eqb (AddrRange.size r mod PageBytes) 0 then Ok (mkAbstractMemory r None [] ∅ ∅ ∅ ∅ ∅ ∅ [])
  else Err (Abort "Memory Size not divisible by page size").

Definition setBackingStore (m : list Z) (mem : AbstractMemory) : AbstractMemory := mem <| pmemAddr := Some m |>.
Definition addLockedAddr (l : LockedAddr) (mem : AbstractMemory) : AbstractMemory :=
  mem <| lockedAddrList ::= fun ls => ls ++ [l] |>.

(** A counter of a statistics vector. *)
Definition bump (master n : Z) (c : gmap Z Z) : gmap Z Z := <[master := default 0 (c !! master) + n]> c.

(** ** Load-locked and store-conditional *)

Definition matchesContext (l : LockedAddr) (r : Request) : Res bool :=
  c ← contextId r; Ok (Z.eqb (la_contextId l) c).

(** The first record of the context gets the new address, if there is one. *)
Fixpoint update_lock (paddr : Z) (r : Request) (l : list LockedAddr) : Res (option (list LockedAddr)) :=
  match l with
  | [] => Ok None
  | i :: l =>
      b ← matchesContext i r;
      if b : bool then Ok (Some (mkLocked paddr (la_contextId i) :: l))
      else o ← update_lock paddr r l; Ok (match o with Some l => Some (i :: l) | None => None end)
  end.

Definition trackLoadLocked (pkt : Packet) (mem : AbstractMemory) : Res AbstractMemory :=
  pa ← getPaddr (req pkt);
  let paddr := lock_mask pa in
  o ← update_lock paddr (req pkt) (lockedAddrList mem);
  match o with
  | Some l => Ok (mem <| lockedAddrList := l |>)
  | None => c ← contextId (req pkt); Ok (mem <| lockedAddrList ::= cons (mkLocked paddr c) |>)
  end.

(** Is there a record of the context for the address? *)
Fixpoint find_lock (paddr : Z) (r : Request) (l : list LockedAddr) : Res bool :=
  match l with
  | [] => Ok false
  | i :: l =>
      if Z.eqb (la_addr i) paddr then
        b ← matchesContext i r; if b : bool then Ok true else find_lock paddr r l
      else find_lock paddr r l
  end.

Definition checkLockedAddrList (pkt : Packet) (mem : AbstractMemory) : Res (bool * Packet * AbstractMemory) :=
  pa ← getPaddr (req pkt);
  let paddr := lock_mask pa in
  '(allowStore, pkt) ←
    (if isLLSC pkt then
       b ← find_lock paddr (req pkt) (lockedAddrList mem);
       Ok (b, pkt <| req ::= setExtraData (if b : bool then 1 else 0) |>)
     else Ok (true, pkt));
  if allowStore : bool then
    let hit l := Z.eqb (la_addr l) paddr in
    Ok (true, pkt,
        mem <| wakeups ::= (fun w => w ++ (la_contextId <$> List.filter hit (lockedAddrList mem))) |>
            <| lockedAddrList ::= List.filter (fun l => negb (hit l)) |>)
  else Ok (false, pkt, mem).

Definition writeOK (pkt : Packet) (mem : AbstractMemory) : Res (bool * Packet * AbstractMemory) :=
  match lockedAddrList mem with
  | [] => Ok (negb (isLLSC pkt), if isLLSC pkt then pkt <| req ::= setExtraData 0 |> else pkt, mem)
  | _ => checkLockedAddrList pkt mem
  end.

(** ** Accesses *)

(** [hostAddr], as an offset into the array. *)
Definition in_memory (pkt : Packet) (mem : AbstractMemory) : Res Z :=
  a ← getAddr pkt; n ← getSize pkt;
  sub ← isSubset (RangeIn a (u64 (a + n - 1))) (range mem);
  _ ← guard_assert sub "AddrRange(...).isSubset(range)";
  Ok (a - _start (range mem)).

(** [memcpy(pkt->getPtr(), hostAddr, pkt->getSize())] and back. *)
Definition load (pkt : Packet) (m : list Z) (off : Z) : Res Packet :=
  n ← getSize pkt; copy_in 0 m off n pkt.
Definition store (pkt : Packet) (m : list Z) (off : Z) : Res (list Z) :=
  d ← getPtr pkt; n ← getSize pkt; copy_bytes m off d 0 n.

Definition swap (pkt : Packet) (mem : AbstractMemory) (off : Z) : Res (Packet * AbstractMemory) :=
  match pmemAddr mem with
  | None => Err (Abort "Swap only works if there is real memory (i.e. null=False)")
  | Some m =>
      n ← getSize pkt;
      _ ← guard_assert (bool_decide (n <= sizeof_IntReg)) "sizeof(TheISA::IntReg) >= pkt->getSize()";
      d ← getPtr pkt;
      overwrite_val ← read_bytes d 0 n;
      pkt ← load pkt m off;
      overwrite_mem ←
        (if isCondSwap (req pkt) then
           if Z.eqb n 8 then x ← getExtraData (req pkt); l ← read_bytes m off 8; Ok (bool_decide (le_bytes 8 x = l))
           else if Z.eqb n 4 then x ← getExtraData (req pkt); l ← read_bytes m off 4; Ok (bool_decide (le_bytes 4 (u32 x) = l))
           else Err (Abort "Invalid size for conditional read/write")
         else Ok true);
      m ← (if overwrite_mem : bool then write_bytes m off overwrite_val else Ok m);
      _ ← guard_assert (negb (isInstFetch (req pkt))) "!pkt->req->isInstFetch()";
      Ok (pkt, mem <| pmemAddr := Some m |> <| numOther ::= bump (masterId (req pkt)) 1 |>)
  end.

Definition access_read (pkt : Packet) (mem : AbstractMemory) (off : Z) : Res (Packet * AbstractMemory) :=
  _ ← guard_assert (negb (isWrite pkt)) "!pkt->isWrite()";
  mem ← (if isLLSC pkt then trackLoadLocked pkt mem else Ok mem);
  pkt ← (match pmemAddr mem with Some m => load pkt m off | None => Ok pkt end);
  n ← getSize pkt;
  let master := masterId (req pkt) in
  let mem := mem <| numReads ::= bump master 1 |> <| bytesRead ::= bump master n |> in
  Ok (pkt, if isInstFetch (req pkt) then mem <| bytesInstRead ::= bump master n |> else mem).

Definition access_write (pkt : Packet) (mem : AbstractMemory) (off : Z) : Res (Packet * AbstractMemory) :=
  '(ok, pkt, mem) ← writeOK pkt mem;
  if ok : bool then
    mem ← (match pmemAddr mem with Some m => m ← store pkt m off; Ok (mem <| pmemAddr := Some m |>) | None => Ok mem end);
    _ ← guard_assert (negb (isInstFetch (req pkt))) "!pkt->req->isInstFetch()";
    n ← getSize pkt;
    let master := masterId (req pkt) in
    Ok (pkt, mem <| numWrites ::= bump master 1 |> <| bytesWritten ::= bump master n |>)
  else Ok (pkt, mem).

Definition access (pkt : Packet) (mem : AbstractMemory) : Res (Packet * AbstractMemory) :=
  off ← in_memory pkt mem;
  if memInhibitAsserted pkt then Ok (pkt, mem)
  else
    '(pkt, mem) ←
      (if bool_decide (cmd pkt = SwapReq) then swap pkt mem off
       else if isRead pkt then access_read pkt mem off
       else if isWrite pkt then access_write pkt mem off
       else if isInvalidate pkt then Ok (pkt, mem)
       else Err (Abort "unimplemented"));
    if needsResponse pkt then pkt ← makeResponse pkt; Ok (pkt, mem) else Ok (pkt, mem).

(** What a print request prints is left out. *)
Definition functionalAccess (pkt : Packet) (mem : AbstractMemory) : Res (Packet * AbstractMemory) :=
  off ← in_memory pkt mem;
  if isRead pkt then
    pkt ← (match pmemAddr mem with Some m => load pkt m off | None => Ok pkt end);
    pkt ← makeResponse pkt; Ok (pkt, mem)
  else if isWrite pkt then
    mem ← (match pmemAddr mem with Some m => m ← store pkt m off; Ok (mem <| pmemAddr := Some m |>) | None => Ok mem end);
    pkt ← makeResponse pkt; Ok (pkt, mem)
  else if isPrint pkt then Ok (pkt, mem)
  else Err (Abort "AbstractMemory: unimplemented functional command").

End AbstractMemory.
