(* ===== verification/MemoryTheorems.v ===== *)
(** * What a memory promises ([mem/abstract_mem.cc])

    The memory refines a specification that knows nothing of lists: a byte per
    address and, per context, the granule of 16 bytes it has reserved. *)

From S2P Require Import Prelude.
From stdpp Require Import gmap.
From S2P Require Import EventQueue.
From S2P Require Import AddrRange.
From S2P Require Import MemPacket.
From S2P Require Import PacketTheorems.
From S2P Require Import AbstractMemory.
#[local] Open Scope Z_scope.

Module MemoryTheorems.
Import EventQueue MemPacket PacketTheorems AbstractMemory.

#[export] Instance LockedAddr_eq_dec : EqDecision LockedAddr.
Proof. solve_decision. Defined.

(** ** The specification *)

Record Contents := mkContents {
  byte : Z -> Z;
  reserved : Z -> option Z
}.

Definition granule (pkt : Packet) : Z := lock_mask (default 0 (_paddr (req pkt))).
Definition context (pkt : Packet) : Z := default 0 (_contextId (req pkt)).

Definition put (pkt : Packet) (d : list Z) (f : Z -> Z) : Z -> Z :=
  fun x => if bool_decide (addr pkt <= x < addr pkt + size pkt) then default (f x) (zget d (x - addr pkt)) else f x.
Definition fetch (a n : Z) (f : Z -> Z) : list Z := (fun i => f (a + i)) <$> zrange n.
Definition reserve (c g : Z) (r : Z -> option Z) : Z -> option Z := fun x => if bool_decide (x = c) then Some g else r x.
Definition release (g : Z) (r : Z -> option Z) : Z -> option Z := fun c => if bool_decide (r c = Some g) then None else r c.

(** The condition of a conditional swap. *)
Definition swaps (pkt : Packet) (old : list Z) : bool :=
  negb (isCondSwap (req pkt)) ||
  bool_decide (le_bytes (Z.to_nat (size pkt)) (default 0 (_extraData (req pkt))) = old).

(** The contents, the packet's bytes and its extra data after an access. *)
Definition spec_access (pkt : Packet) (d : list Z) (s : Contents) : Contents * list Z * option Z :=
  let old := fetch (addr pkt) (size pkt) (byte s) in
  let extra := _extraData (req pkt) in
  let stored := mkContents (put pkt d (byte s)) (release (granule pkt) (reserved s)) in
  if bool_decide (cmd pkt = SwapReq) then
    (mkContents (if swaps pkt old then put pkt d (byte s) else byte s) (reserved s), old, extra)
  else if isRead pkt then
    (mkContents (byte s) (if isLLSC pkt then reserve (context pkt) (granule pkt) (reserved s) else reserved s), old, extra)
  else if isWrite pkt then
    if isLLSC pkt then
      if bool_decide (reserved s (context pkt) = Some (granule pkt)) then (stored, d, Some 1) else (s, d, Some 0)
    else (stored, d, extra)
  else (s, d, extra).

(** ** Locks *)

Definition locks_ok (l : list LockedAddr) (r : Z -> option Z) : Prop :=
  NoDup (la_contextId <$> l) /\ forall c g, r c = Some g <-> mkLocked g c ∈ l.

Lemma find_lock_spec paddr r c l : _contextId r = Some c ->
  find_lock paddr r l = Ok (bool_decide (mkLocked paddr c ∈ l)).
Proof.
  intros Hc. induction l as [|[a x] l IH]; cbn [find_lock].
  { by rewrite bool_decide_eq_false_2 by apply not_elem_of_nil. }
  unfold matchesContext, contextId. rewrite Hc. cbn [la_addr la_contextId assert_valid mbind Res_bind].
  rewrite IH. destruct (Z.eqb_spec a paddr) as [->|Hn]; [destruct (Z.eqb_spec x c) as [->|Hn]|].
  - rewrite bool_decide_eq_true_2; [done | left].
  - f_equal. apply bool_decide_ext. rewrite elem_of_cons. naive_solver.
  - f_equal. apply bool_decide_ext. rewrite elem_of_cons. naive_solver.
Qed.

Lemma update_lock_spec paddr r c l : _contextId r = Some c -> NoDup (la_contextId <$> l) ->
  exists o, update_lock paddr r l = Ok o /\
    match o with
    | None => c ∉ la_contextId <$> l
    | Some l' => c ∈ la_contextId <$> l /\ la_contextId <$> l' = la_contextId <$> l /\
                 forall g x, mkLocked g x ∈ l' <-> (if bool_decide (x = c) then g = paddr else mkLocked g x ∈ l)
    end.
Proof.
  intros Hc. induction l as [|[a x] l IH]; intros Hnd; cbn [update_lock].
  { exists None. split; [done | apply not_elem_of_nil]. }
  apply NoDup_cons in Hnd as [Hx Hnd]. cbn in Hx. unfold matchesContext, contextId. rewrite Hc. cbn [la_contextId assert_valid mbind Res_bind].
  destruct (Z.eqb_spec x c) as [->|Hn].
  - eexists. split; [done|]. cbn. split; [left|]. split; [done|]. intros g y. rewrite !elem_of_cons.
    destruct (bool_decide_reflect (y = c)) as [->|Hy]; [|rewrite elem_of_cons; split; intros [[= _ Ey]|Hin]; (by right) || congruence].
    split; [|intros ->; by left]. intros [[= ->]|Hin]; [done|]. exfalso. apply Hx. apply list_elem_of_fmap. by exists (mkLocked g c).
  - destruct (IH Hnd) as (o & -> & Ho). cbn [mbind Res_bind]. eexists. split; [done|]. destruct o as [l'|].
    + destruct Ho as (Hin & Hctx & Hl). cbn. split; [by right|]. split; [by rewrite Hctx|]. intros g y. rewrite !elem_of_cons.
      rewrite Hl. destruct (bool_decide_reflect (y = c)) as [->|Hy].
      * split; [intros [[= _ Ey]|Hin2]; congruence | by right].
      * by rewrite elem_of_cons.
    + cbn. rewrite elem_of_cons. naive_solver.
Qed.

Lemma release_ok g l r : locks_ok l r -> locks_ok (List.filter (fun x => negb (Z.eqb (la_addr x) g)) l) (release g r).
Proof.
  intros [Hnd Hl]. split.
  - clear Hl. induction l as [|x l IH]; [done|]. cbn in *. apply NoDup_cons in Hnd as [Hx Hnd].
    destruct (Z.eqb (la_addr x) g); cbn; [by apply IH|]. apply NoDup_cons. split; [|by apply IH].
    intros Hin. apply Hx. apply list_elem_of_fmap in Hin as (y & Ey & Hy). apply list_elem_of_fmap. exists y. split; [done|].
    apply list_elem_of_In in Hy. apply List.filter_In in Hy as [Hy _]. by apply list_elem_of_In.
  - intros c h. unfold release. rewrite list_elem_of_In, List.filter_In, <- list_elem_of_In. cbn.
    rewrite negb_true_iff, Z.eqb_neq, <- Hl. destruct (bool_decide_reflect (r c = Some g)) as [E|E]; [rewrite E|]; naive_solver.
Qed.

(** ** Bytes *)

Definition represents (start : Z) (m : list Z) (f : Z -> Z) : Prop :=
  forall i, 0 <= i < zlen m -> zget m i = Some (f (start + i)).

Lemma zlist_eq (l k : list Z) : zlen l = zlen k -> (forall i, 0 <= i < zlen l -> zget l i = zget k i) -> l = k.
Proof.
  intros Hl H. apply list_eq. intros i. destruct (Z.lt_ge_cases (Z.of_nat i) (zlen l)) as [Hi|Hi].
  - specialize (H (Z.of_nat i) ltac:(lia)). by rewrite !zget_of_nat in H.
  - unfold zlen in *. rewrite !lookup_ge_None_2 by lia. done.
Qed.

Lemma zlen_fetch a n f : 0 <= n -> zlen (fetch a n f) = n.
Proof. intros. unfold fetch, zrange. rewrite !zlen_fmap. unfold zlen. rewrite length_seq. lia. Qed.

Lemma zget_fetch a n f i : 0 <= i < n -> zget (fetch a n f) i = Some (f (a + i)).
Proof.
  intros Hi. unfold fetch, zrange. rewrite zget_fmap. unfold zget. rewrite bool_decide_eq_true_2 by lia.
  rewrite list_lookup_fmap, lookup_seq_lt by lia. cbn. do 2 f_equal. lia.
Qed.

(** The packet lies in the range, which is not interleaved. *)
Definition inside (pkt : Packet) (s e : Z) : Prop := s <= addr pkt /\ addr pkt + size pkt - 1 <= e.

Lemma read_fetch start m f pkt d : represents start m f -> full_packet pkt d -> inside pkt start (start + zlen m - 1) ->
  read_bytes m (addr pkt - start) (size pkt) = Ok (fetch (addr pkt) (size pkt) f).
Proof.
  intros Hr (_ & _ & _ & _ & Hl & Hs & _) [H1 H2].
  destruct (read_bytes_spec m (addr pkt - start) (size pkt)) as (l & -> & Hll & Hli); [lia..|].
  f_equal. apply zlist_eq; [by rewrite zlen_fetch by lia|]. intros i Hi.
  rewrite Hli, zget_fetch, Hr by lia. do 2 f_equal. lia.
Qed.

Lemma load_spec start m f pkt d : represents start m f -> full_packet pkt d -> inside pkt start (start + zlen m - 1) ->
  load pkt m (addr pkt - start) = Ok (pkt <| data := Some (fetch (addr pkt) (size pkt) f) |>).
Proof.
  intros Hr Hf Hin. unfold load, copy_in, copy_bytes, getSize, getPtr. pose proof Hf as (_ & Hv & Hp & Hd & Hl & Hs & _).
  rewrite Hv, Hp, Hd. cbn [guard_assert mbind Res_bind of_option]. rewrite (read_fetch start m f pkt d) by done. cbn [mbind Res_bind].
  pose proof (zlen_fetch (addr pkt) (size pkt) f ltac:(lia)) as Hlf.
  destruct (write_bytes_spec d 0 (fetch (addr pkt) (size pkt) f)) as (d' & -> & Hl' & Hi'); [lia..|].
  assert (d' = fetch (addr pkt) (size pkt) f) as ->; [|done].
  apply zlist_eq; [lia|]. intros i Hi. rewrite Hi', bool_decide_eq_true_2 by lia. f_equal. lia.
Qed.

Lemma write_put start m f pkt d : represents start m f -> full_packet pkt d -> inside pkt start (start + zlen m - 1) ->
  exists m', write_bytes m (addr pkt - start) d = Ok m' /\ zlen m' = zlen m /\ represents start m' (put pkt d f).
Proof.
  intros Hr Hf [H1 H2]. pose proof Hf as (_ & _ & _ & _ & Hl & Hs & _).
  destruct (write_bytes_spec m (addr pkt - start) d) as (m' & -> & Hl' & Hi'); [lia..|].
  exists m'. split; [done|]. split; [done|]. intros i Hi. rewrite Hi' by lia. unfold put.
  destruct (bool_decide_reflect (addr pkt - start <= i < addr pkt - start + zlen d)).
  - rewrite bool_decide_eq_true_2 by lia. destruct (zget_lt d (i - (addr pkt - start))) as [b Eb]; [lia|].
    replace (start + i - addr pkt) with (i - (addr pkt - start)) by lia. by rewrite Eb.
  - rewrite bool_decide_eq_false_2 by lia. apply Hr. lia.
Qed.

Lemma store_spec start m f pkt d : represents start m f -> full_packet pkt d -> inside pkt start (start + zlen m - 1) ->
  exists m', store pkt m (addr pkt - start) = Ok m' /\ zlen m' = zlen m /\ represents start m' (put pkt d f).
Proof.
  intros Hr Hf Hin. unfold store, copy_bytes, getSize, getPtr. pose proof Hf as (_ & Hv & Hp & Hd & Hl & Hs & _).
  rewrite Hv, Hp, Hd. cbn [guard_assert mbind Res_bind of_option].
  destruct (read_bytes_spec d 0 (size pkt)) as (l & -> & Hll & Hli); [lia..|]. cbn [mbind Res_bind].
  assert (l = d) as ->; [|by apply write_put]. apply zlist_eq; [lia|]. intros i Hi. rewrite Hli by lia. f_equal.
Qed.

(** ** Refinement *)

Definition refines (mem : AbstractMemory) (s : Contents) : Prop :=
  exists m, pmemAddr mem = Some m /\ range mem = AddrRange.RangeIn (AddrRange._start (range mem)) (AddrRange._end (range mem)) /\
    zlen m = AddrRange._end (range mem) - AddrRange._start (range mem) + 1 /\
    represents (AddrRange._start (range mem)) m (byte s) /\ locks_ok (lockedAddrList mem) (reserved s).

(** An access that the memory supports: inside its range, with an array for
    the bytes, the context where it is needed, no write of an instruction
    fetch, and a swap of a size that its kind allows. *)
Definition legal (mem : AbstractMemory) (pkt : Packet) (d : list Z) : Prop :=
  full_packet pkt d /\ inside pkt (AddrRange._start (range mem)) (AddrRange._end (range mem)) /\
  memInhibitAsserted pkt = false /\ is_Some (_paddr (req pkt)) /\
  (isLLSC pkt = true -> is_Some (_contextId (req pkt))) /\ (isWrite pkt = true -> isInstFetch (req pkt) = false) /\
  (if bool_decide (cmd pkt = SwapReq)
   then size pkt <= 8 /\ (isCondSwap (req pkt) = true -> (size pkt = 4 \/ size pkt = 8) /\
          exists v, _extraData (req pkt) = Some v /\ 0 <= v < 256 ^ size pkt)
   else isRead pkt && isWrite pkt = false /\ (isRead pkt || isWrite pkt || isInvalidate pkt = true)).

(** What the packet is after the access. *)
Definition answered (pkt pkt' : Packet) (d : list Z) (extra : option Z) : Prop :=
  data pkt' = Some d /\ _extraData (req pkt') = extra /\ addr pkt' = addr pkt /\ size pkt' = size pkt /\
  cmd pkt' = (if needsResponse pkt then responseCommand (cmd pkt) else cmd pkt) /\
  dest pkt' = (if needsResponse pkt then src pkt else dest pkt).

(** The three kinds of access before the packet is turned around. *)
Definition served (pkt pkt' : Packet) (d : list Z) (extra : option Z) : Prop :=
  data pkt' = Some d /\ _extraData (req pkt') = extra /\ cmd pkt' = cmd pkt /\ addr pkt' = addr pkt /\
  size pkt' = size pkt /\ src pkt' = src pkt /\ dest pkt' = dest pkt.

Lemma with_bytes mem s m m' f : refines mem s -> pmemAddr mem = Some m -> zlen m' = zlen m ->
  represents (AddrRange._start (range mem)) m' f ->
  forall mem', pmemAddr mem' = Some m' -> range mem' = range mem -> lockedAddrList mem' = lockedAddrList mem ->
  refines mem' (mkContents f (reserved s)).
Proof.
  intros (m0 & E & Hr & Hl & Hb & Hk) Em Hlen Hrep mem' Em' Er El. rewrite E in Em. injection Em as ->.
  exists m'. rewrite Er, El, Hlen. done.
Qed.

Lemma swap_ok mem s pkt d : refines mem s -> legal mem pkt d -> cmd pkt = SwapReq ->
  exists pkt' mem', swap pkt mem (addr pkt - AddrRange._start (range mem)) = Ok (pkt', mem') /\
    let '(s', d', extra) := spec_access pkt d s in refines mem' s' /\ served pkt pkt' d' extra /\ range mem' = range mem.
Proof.
  intros Href (Hf & Hin & _ & _ & _ & Hif & Hsw) Hc. pose proof Href as (m & Em & Hrg & Hlm & Hrep & _).
  rewrite bool_decide_eq_true_2 in Hsw by done. destruct Hsw as [H8 Hcs].
  destruct (spec_access pkt d s) as [[s' d'] extra] eqn:Es. unfold spec_access in Es. rewrite bool_decide_eq_true_2 in Es by done.
  injection Es as <- <- <-. unfold swap, getSize, getPtr. rewrite Em.
  assert (isWrite pkt = true) as Hw by (unfold isWrite; by rewrite Hc). specialize (Hif Hw).
  pose proof Hf as (_ & Hv & Hp & Hd & Hl & Hs & _). rewrite Hv, Hp, Hd. cbn [guard_assert mbind Res_bind of_option]. unfold sizeof_IntReg. rewrite bool_decide_eq_true_2 by done.
  cbn [guard_assert mbind Res_bind of_option].
  assert (inside pkt (AddrRange._start (range mem)) (AddrRange._start (range mem) + zlen m - 1)) as Hin' by (unfold inside in *; lia).
  destruct (read_bytes_spec d 0 (size pkt)) as (ov & -> & Hov & Hovi); [lia..|]. cbn [mbind Res_bind].
  assert (ov = d) as -> by (apply zlist_eq; [lia|]; intros i Hi; rewrite Hovi by lia; f_equal).
  rewrite (load_spec _ m (byte s) pkt d) by done. cbn [mbind Res_bind].
  change (req (pkt <| data := _ |>)) with (req pkt). rewrite Hif.
  assert (forall x, le_bytes 4 (u32 x) = le_bytes 4 x \/ ~ (0 <= x < 4294967296)) as H4.
  { intros x. destruct (Z.le_gt_cases 0 x), (Z.lt_ge_cases x 4294967296); try (right; lia). left. by rewrite u32_small. }
  assert ((if isCondSwap (req pkt) then
             if Z.eqb (size pkt) 8 then x ← getExtraData (req pkt); l ← read_bytes m (addr pkt - AddrRange._start (range mem)) 8; Ok (bool_decide (le_bytes 8 x = l))
             else if Z.eqb (size pkt) 4 then x ← getExtraData (req pkt); l ← read_bytes m (addr pkt - AddrRange._start (range mem)) 4; Ok (bool_decide (le_bytes 4 (u32 x) = l))
             else Err (Abort "Invalid size for conditional read/write")
           else Ok true) = Ok (swaps pkt (fetch (addr pkt) (size pkt) (byte s)))) as ->.
  { unfold swaps. destruct (isCondSwap (req pkt)); [|done]. destruct (Hcs eq_refl) as (Hsz & v & Ev & Hvr).
    pose proof (read_fetch _ m (byte s) pkt d Hrep Hf Hin') as Hrd. unfold getExtraData. rewrite Ev. cbn [assert_valid mbind Res_bind negb orb default].
    destruct Hsz as [Hsz|Hsz]; rewrite Hsz in *; cbn [Z.eqb Pos.eqb]; rewrite Hrd; cbn [mbind Res_bind]; [|done].
    destruct (H4 v) as [->|]; [done | lia]. }
  cbn [mbind Res_bind]. destruct (write_put _ m (byte s) pkt d Hrep Hf Hin') as (m' & Hm' & Hlm' & Hrep').
  destruct (swaps _ _); rewrite ?Hm'; cbn [mbind Res_bind negb guard_assert]; (eexists _, _; split; [done|]; split; [|done]).
  - by apply (with_bytes mem s m m' _ Href Em Hlm' Hrep').
  - by apply (with_bytes mem s m m _ Href Em eq_refl Hrep).
Qed.

Lemma read_ok mem s pkt d : refines mem s -> legal mem pkt d -> cmd pkt <> SwapReq -> isRead pkt = true ->
  exists pkt' mem', access_read pkt mem (addr pkt - AddrRange._start (range mem)) = Ok (pkt', mem') /\
    let '(s', d', extra) := spec_access pkt d s in refines mem' s' /\ served pkt pkt' d' extra /\ range mem' = range mem.
Proof.
  intros Href (Hf & Hin & _ & [pa Hpa] & Hctx & _ & Hc) Hns Hr. pose proof Href as (m & Em & Hrg & Hlm & Hrep & Hk).
  rewrite bool_decide_eq_false_2 in Hc by done. destruct Hc as [Hrw _]. rewrite Hr in Hrw. cbn [andb] in Hrw.
  destruct (spec_access pkt d s) as [[s' d'] extra] eqn:Es. unfold spec_access in Es. rewrite bool_decide_eq_false_2, Hr in Es by done.
  injection Es as <- <- <-. unfold access_read. rewrite Hrw. cbn [negb guard_assert mbind Res_bind].
  assert (inside pkt (AddrRange._start (range mem)) (AddrRange._start (range mem) + zlen m - 1)) as Hin' by (unfold inside in *; lia).
  pose proof Hf as (_ & Hv & _ & Hd & _).
  assert (exists mem1, (if isLLSC pkt then trackLoadLocked pkt mem else Ok mem) = Ok mem1 /\ pmemAddr mem1 = Some m /\ range mem1 = range mem /\
    locks_ok (lockedAddrList mem1) (if isLLSC pkt then reserve (context pkt) (granule pkt) (reserved s) else reserved s)) as (mem1 & -> & Em1 & Er1 & Hk1).
  { destruct (isLLSC pkt); [|by exists mem]. destruct (Hctx eq_refl) as [c Ec]. unfold trackLoadLocked, getPaddr, context, granule. rewrite Hpa, Ec.
    cbn [assert_valid mbind Res_bind default]. change (default 0 (Some pa)) with pa. destruct Hk as [Hnd Hk].
    destruct (update_lock_spec (lock_mask pa) (req pkt) c (lockedAddrList mem) Ec Hnd) as (o & -> & Ho). cbn [mbind Res_bind]. destruct o as [l'|].
    - destruct Ho as (_ & Hc2 & Hl2). eexists. split; [done|]. split; [done|]. split; [done|]. split; [cbn; by rewrite Hc2|].
      intros x g. cbn. unfold reserve. rewrite Hl2. destruct (bool_decide_reflect (x = c)) as [->|]; [|apply Hk].
      split; [by intros [= ->] | by intros ->].
    - unfold contextId. rewrite Ec. cbn [assert_valid mbind Res_bind]. eexists. split; [done|]. split; [done|]. split; [done|]. split.
      + cbn. by apply NoDup_cons.
      + intros x g. cbn. unfold reserve. rewrite elem_of_cons. destruct (bool_decide_reflect (x = c)) as [->|].
        * split; [intros [= ->]; by left|]. intros [[= ->]|Hin2]; [done|]. exfalso. apply Ho. apply list_elem_of_fmap. by exists (mkLocked g c).
        * rewrite Hk. split; [by right|]. intros [[= _ Ex]|Hin2]; [congruence | done]. }
  cbn [mbind Res_bind]. rewrite Em1, (load_spec _ m (byte s) pkt d) by done. cbn [mbind Res_bind]. unfold getSize.
  change (flags (pkt <| data := _ |>)) with (flags pkt). rewrite Hv. cbn [guard_assert mbind Res_bind]. eexists _, _. split; [done|].
  split; [|split; [done|]].
  - exists m. destruct (isInstFetch _); cbn; rewrite Er1; done.
  - destruct (isInstFetch _); cbn; done.
Qed.

(** [writeOK]: whether the write is done, and the locks it leaves. *)
Lemma writeOK_spec mem pkt pa r : locks_ok (lockedAddrList mem) r -> _paddr (req pkt) = Some pa ->
  (isLLSC pkt = true -> is_Some (_contextId (req pkt))) ->
  let ok := negb (isLLSC pkt) || bool_decide (r (context pkt) = Some (granule pkt)) in
  exists mem', writeOK pkt mem = Ok (ok, if isLLSC pkt then pkt <| req ::= setExtraData (if ok then 1 else 0) |> else pkt, mem') /\
    pmemAddr mem' = pmemAddr mem /\ range mem' = range mem /\
    locks_ok (lockedAddrList mem') (if ok then release (granule pkt) r else r).
Proof.
  intros Hk Hpa Hctx ok. unfold writeOK, ok, granule, context. rewrite Hpa. change (default 0 (Some pa)) with pa.
  destruct (lockedAddrList mem) as [|x l] eqn:El.
  - exists mem. assert (forall c g, r c <> Some g) as Hnone by (intros c g E; apply (proj2 Hk) in E; by apply elem_of_nil in E).
    rewrite El. destruct (isLLSC pkt); cbn [negb orb].
    + rewrite bool_decide_eq_false_2 by apply Hnone. done.
    + split; [done|]. split; [done|]. split; [done|]. split; [apply NoDup_nil_2|]. intros c g. unfold release.
      rewrite bool_decide_eq_false_2 by apply Hnone. split; [intros Ec; by destruct (Hnone _ _ Ec) | by intros ?%elem_of_nil].
  - unfold checkLockedAddrList, getPaddr. rewrite Hpa, El. cbn [assert_valid mbind Res_bind].
    pose proof (release_ok (lock_mask pa) (x :: l) r Hk) as Hrel. destruct (isLLSC pkt).
    + destruct (Hctx eq_refl) as [c Ec]. rewrite (find_lock_spec _ _ c) by done. rewrite Ec. cbn [mbind Res_bind negb orb].
      change (default 0 (Some c)) with c.
      rewrite (bool_decide_ext (mkLocked (lock_mask pa) c ∈ x :: l) (r c = Some (lock_mask pa))) by (symmetry; apply (proj2 Hk)).
      destruct (bool_decide (r c = Some (lock_mask pa))); eexists; (split; [done|]); (split; [done|]); (split; [done|]); cbn [upd_field set_lockedAddrList lockedAddrList set_wakeups].
      * by rewrite El.
      * by rewrite El.
    + cbn [mbind Res_bind negb orb]. eexists. split; [done|]. split; [done|]. split; [done|]. cbn [upd_field set_lockedAddrList lockedAddrList set_wakeups]. by rewrite El.
Qed.

Lemma write_ok mem s pkt d : refines mem s -> legal mem pkt d -> cmd pkt <> SwapReq -> isRead pkt = false -> isWrite pkt = true ->
  exists pkt' mem', access_write pkt mem (addr pkt - AddrRange._start (range mem)) = Ok (pkt', mem') /\
    let '(s', d', extra) := spec_access pkt d s in refines mem' s' /\ served pkt pkt' d' extra /\ range mem' = range mem.
Proof.
  intros Href (Hf & Hin & _ & [pa Hpa] & Hctx & Hif & _) Hns Hr Hw. pose proof Href as (m & Em & Hrg & Hlm & Hrep & Hk).
  specialize (Hif Hw). destruct (spec_access pkt d s) as [[s' d'] extra] eqn:Es. unfold spec_access in Es.
  rewrite bool_decide_eq_false_2, Hr, Hw in Es by done.
  assert (inside pkt (AddrRange._start (range mem)) (AddrRange._start (range mem) + zlen m - 1)) as Hin' by (unfold inside in *; lia).
  pose proof Hf as (_ & Hv & _ & Hd & _). unfold access_write.
  destruct (writeOK_spec mem pkt pa (reserved s) Hk Hpa Hctx) as (mem1 & -> & Em1 & Er1 & Hk1). cbn [mbind Res_bind].
  remember (negb (isLLSC pkt) || bool_decide (reserved s (context pkt) = Some (granule pkt))) as ok eqn:Eok. symmetry in Eok.
  set (pkt1 := if isLLSC pkt then _ else pkt) in *.
  assert (full_packet pkt1 d /\ addr pkt1 = addr pkt /\ size pkt1 = size pkt /\ flags pkt1 = flags pkt /\ isInstFetch (req pkt1) = false /\
          served pkt pkt1 d (if isLLSC pkt then Some (if ok then 1 else 0) else _extraData (req pkt))) as (Hf1 & Ea & Esz & Efl & Hif1 & Hserved).
  { unfold pkt1. destruct (isLLSC pkt); done. }
  destruct (store_spec _ m (byte s) pkt1 d Hrep Hf1) as (m' & Hm' & Hlm' & Hrep').
  { unfold inside in *. by rewrite Ea, Esz. }
  rewrite Ea in Hm'. unfold put in Hrep'. rewrite Ea, Esz in Hrep'. fold (put pkt d (byte s)) in Hrep'.
  destruct ok.
  - rewrite Em1, Em, Hm'. cbn [mbind Res_bind]. rewrite Hif1. unfold getSize. rewrite Efl, Hv. cbn [negb guard_assert mbind Res_bind].
    assert ((mkContents (put pkt d (byte s)) (release (granule pkt) (reserved s)), d,
             if isLLSC pkt then Some 1 else _extraData (req pkt)) = (s', d', extra)) as Es2.
    { rewrite <- Es. destruct (isLLSC pkt); cbn in Eok; [by rewrite Eok | done]. }
    injection Es2 as <- <- <-. eexists _, _. split; [done|]. split; [|split; [done | by cbn; rewrite Er1]].
    exists m'. cbn. rewrite Er1, Hlm'. done.
  - assert (isLLSC pkt = true) as HL by (by destruct (isLLSC pkt)). rewrite HL in *. cbn in Eok.
    rewrite Eok in Es. injection Es as <- <- <-. eexists _, _. split; [done|]. split; [|done]. exists m. rewrite Em1, Er1. by destruct s.
Qed.

Lemma access_ok mem s pkt d : refines mem s -> legal mem pkt d ->
  exists pkt' mem', access pkt mem = Ok (pkt', mem') /\
    let '(s', d', extra) := spec_access pkt d s in refines mem' s' /\ answered pkt pkt' d' extra /\ range mem' = range mem.
Proof.
  intros Href Hleg. pose proof Hleg as (Hf & [Hin1 Hin2] & Hmi & _ & _ & _ & Hc). pose proof Href as (m & Em & Hrg & Hlm & Hrep & Hk).
  pose proof Hf as (Hva & Hvs & _ & Hd & _ & Hs & Ha & He).
  unfold access, in_memory, getAddr, getSize. rewrite Hva, Hvs. cbn [guard_assert mbind Res_bind].
  unfold AddrRange.isSubset, AddrRange.RangeIn, AddrRange.interleaved. cbn [AddrRange.intlvBits Z.eqb negb mbind Res_bind AddrRange._start AddrRange._end].
  rewrite u64_small by (unfold in_u64; lia). rewrite (proj2 (Z.leb_le _ _) Hin1), (proj2 (Z.leb_le _ _) Hin2). cbn [andb guard_assert mbind Res_bind].
  rewrite Hmi.
  assert (exists pkt' mem',
    (if bool_decide (cmd pkt = SwapReq) then swap pkt mem (addr pkt - AddrRange._start (range mem))
     else if isRead pkt then access_read pkt mem (addr pkt - AddrRange._start (range mem))
     else if isWrite pkt then access_write pkt mem (addr pkt - AddrRange._start (range mem))
     else if isInvalidate pkt then Ok (pkt, mem) else Err (Abort "unimplemented")) = Ok (pkt', mem') /\
    let '(s', d', extra) := spec_access pkt d s in refines mem' s' /\ served pkt pkt' d' extra /\ range mem' = range mem)
    as (pkt1 & mem1 & -> & H1).
  { destruct (bool_decide_reflect (cmd pkt = SwapReq)) as [Hsw|Hsw]; [by apply swap_ok|].
    destruct (isRead pkt) eqn:Er; [by apply read_ok|]. destruct (isWrite pkt) eqn:Ew; [by apply write_ok|].
    destruct Hc as [_ Hc]. cbn in Hc. rewrite Hc. exists pkt, mem. split; [done|].
    unfold spec_access. rewrite bool_decide_eq_false_2, Er, Ew by done. done. }
  cbn [mbind Res_bind]. destruct (spec_access pkt d s) as [[s' d'] extra]. destruct H1 as (Hr1 & (Sd & Sx & Sc & Sa & Ss & Ssr & Sde) & Hrange).
  unfold needsResponse. rewrite Sc. fold (needsResponse pkt). destruct (needsResponse pkt) eqn:En.
  - destruct (makeResponse_spec pkt1) as (r & Hr & _ & _ & _ & _ & _ & _ & D1 & D2 & D3 & D4 & D5 & D6 & D7); [unfold needsResponse; by rewrite Sc|].
    rewrite Hr. cbn [mbind Res_bind]. exists r, mem1. split; [done|]. split; [done|]. split; [|done]. unfold answered. rewrite En.
    assert (cmd r = responseCommand (cmd pkt1)) as Ecr.
    { unfold makeResponse in Hr. destruct (needsResponse pkt1); [|done]. destruct (isRequest pkt1); [|done]. by injection Hr as <-. }
    rewrite Ecr, D1, D4, D5, D6, D7. by split_and!; congruence.
  - exists pkt1, mem1. split; [done|]. split; [done|]. split; [|done]. unfold answered. rewrite En. by split_and!.
Qed.

(** ** Sequences of accesses *)

Fixpoint access_all (mem : AbstractMemory) (pkts : list Packet) : Res (list Packet * AbstractMemory) :=
  match pkts with
  | [] => Ok ([], mem)
  | p :: pkts =>
      '(p', mem) ← access p mem; '(l, mem) ← access_all mem pkts; Ok (p' :: l, mem)
  end.

Fixpoint spec_all (s : Contents) (pkts : list Packet) : Contents * list (list Z * option Z) :=
  match pkts with
  | [] => (s, [])
  | p :: pkts =>
      let '(s, d, extra) := spec_access p (default [] (data p)) s in
      let '(s, l) := spec_all s pkts in (s, (d, extra) :: l)
  end.

(** C5: a memory does what its specification says, access after access: every
    sequence of reads, writes, load-locked, store-conditional and swap
    requests inside its range is answered without a fault or an access outside
    of an array, reads return the last bytes written, a store-conditional
    writes, and reports it, exactly when its context's reservation of the
    granule is alive, and each answer goes back to where its request came from. *)
Theorem memory_refines pkts : forall mem s, refines mem s ->
  (forall p, p ∈ pkts -> exists d, legal mem p d) ->
  exists answers mem', access_all mem pkts = Ok (answers, mem') /\ refines mem' (spec_all s pkts).1 /\
    length answers = length pkts /\
    forall i p a d extra, pkts !! i = Some p -> answers !! i = Some a -> (spec_all s pkts).2 !! i = Some (d, extra) ->
      answered p a d extra.
Proof.
  induction pkts as [|p pkts IH]; intros mem s Href Hl; cbn [access_all spec_all].
  { exists [], mem. split; [done|]. split; [done|]. split; [done|]. by intros []. }
  destruct (Hl p) as [d Hd]; [left|]. pose proof Hd as ((_ & _ & _ & Ed & _) & _). rewrite Ed. change (default [] (Some d)) with d.
  destruct (access_ok mem s p d Href Hd) as (p' & mem1 & -> & H1). destruct (spec_access p d s) as [[s1 d1] x1].
  destruct H1 as (Hr1 & Ha1 & Erange). cbn [mbind Res_bind].
  destruct (IH mem1 s1 Hr1) as (l & mem2 & -> & Hr2 & Hlen & H2).
  { intros q Hq. destruct (Hl q) as [dq Hdq]; [by right|]. exists dq. unfold legal in *. by rewrite Erange. }
  destruct (spec_all s1 pkts) as [s2 l2]. cbn [mbind Res_bind fst snd] in *. eexists _, _. split; [done|]. split; [done|].
  split; [cbn; by rewrite Hlen|]. intros [|i] q a dq x Hq Ha Hs; cbn in *; [|by eapply H2]. by simplify_eq.
Qed.

(** ** A memory of 64 bytes *)

Definition small_memory : AbstractMemory :=
  mkAbstractMemory (AddrRange.RangeIn 64 127) (Some (replicate 64 0)) [] ∅ ∅ ∅ ∅ ∅ ∅ [].

(** A request of context [c] with an array of its own. *)
Definition packet_of (c : Z) (co : Command) (a : Z) (bytes : list Z) : Packet :=
  (set_flag DYNAMIC_DATA (Packet_new (setThreadContext c (setPhys a (zlen bytes) 0 0)) co)) <| data := Some bytes |>.

(** The extra data and the bytes of the answers. *)
Notation outcomes pkts :=
  (match access_all small_memory pkts with
   | Ok (l, _) => Some ((fun p => (_extraData (req p), data p)) <$> l)
   | Err _ => None
   end).

(** Two contexts reserve a granule: the first store-conditional wins. *)
Definition race : list Packet :=
  [packet_of 1 LoadLockedReq 64 [0; 0; 0; 0]; packet_of 2 LoadLockedReq 68 [0; 0; 0; 0];
   packet_of 1 StoreCondReq 64 [1; 2; 3; 4]; packet_of 2 StoreCondReq 68 [5; 6; 7; 8];
   packet_of 3 ReadReq 64 [0; 0; 0; 0; 0; 0; 0; 0]].

Lemma race_outcomes : outcomes race =
  Some [(None, Some [0; 0; 0; 0]); (None, Some [0; 0; 0; 0]); (Some 1, Some [1; 2; 3; 4]); (Some 0, Some [5; 6; 7; 8]);
        (None, Some [1; 2; 3; 4; 0; 0; 0; 0])].
Proof. vm_compute. done. Qed.

(** A swap writes but leaves the reservations; a write releases only the
    granule of its first byte: in both cases the store-conditional that
    follows succeeds though its bytes were overwritten. *)
Lemma swap_keeps_reservation : outcomes
  [packet_of 1 LoadLockedReq 64 [0; 0; 0; 0]; packet_of 2 SwapReq 64 [9; 9; 9; 9]; packet_of 1 StoreCondReq 64 [1; 2; 3; 4]]
  = Some [(None, Some [0; 0; 0; 0]); (None, Some [0; 0; 0; 0]); (Some 1, Some [1; 2; 3; 4])].
Proof. vm_compute. done. Qed.
Lemma long_write_keeps_reservation : outcomes
  [packet_of 1 LoadLockedReq 80 [0; 0; 0; 0]; packet_of 2 WriteReq 64 (replicate 32 9); packet_of 1 StoreCondReq 80 [1; 2; 3; 4]]
  = Some [(None, Some [0; 0; 0; 0]); (None, Some (replicate 32 9)); (Some 1, Some [1; 2; 3; 4])].
Proof. vm_compute. done. Qed.

Definition zeroes : Contents := mkContents (fun _ => 0) (fun _ => None).

Lemma small_memory_refines : refines small_memory zeroes.
Proof.
  exists (replicate 64 0). split; [done|]. split; [done|]. split; [done|]. split.
  - intros i Hi. change (zlen (replicate 64 0)) with 64 in Hi. unfold zget. rewrite bool_decide_eq_true_2 by lia.
    rewrite lookup_replicate_2 by lia. done.
  - split; [apply NoDup_nil_2|]. intros c g. split; [done | by intros ?%elem_of_nil].
Qed.

Lemma race_legal p : p ∈ race -> exists d, legal small_memory p d.
Proof.
  intros Hp. unfold race in Hp. rewrite !elem_of_cons, elem_of_nil in Hp.
  destruct Hp as [->|[->|[->|[->|[->|[]]]]]]; eexists; vm_compute; split_and!; try done; by eexists.
Qed.

Lemma memory_refines_witness :
  exists answers mem', access_all small_memory race = Ok (answers, mem') /\ refines mem' (spec_all zeroes race).1 /\
    ((fun p => _extraData (req p)) <$> answers) = [None; None; Some 1; Some 0; None].
Proof.
  destruct (memory_refines race small_memory zeroes small_memory_refines race_legal) as (l & mem' & E & Hr & _).
  exists l, mem'. split; [exact E|]. split; [exact Hr|].
  pose proof race_outcomes as Ho. rewrite E in Ho. injection Ho as Ho.
  apply (f_equal (fmap fst)) in Ho. rewrite <- list_fmap_compose in Ho. exact Ho.
Defined.

End MemoryTheorems.
