(* ===== verification/DramPort.v ===== *)
(** * The DRAMSim2 memory of gem5 ([mem/dramsim2.hh], [mem/dramsim2.cc])

    A memory behind a slave port: it takes timing requests while there is
    room, hands reads and writes to the simulator, and sends a response per
    request that wants one, reads when the simulator has completed them,
    writes at once. The simulator is the class [DramSim], of which the wrapper
    of [MultiChannel] is an instance; its callbacks are made during its tick
    and do not call it, so they are handled after it, in their order. The
    master at the port is the class [Master]; both its methods may call back.

    Packets are values here: the simulator's queues only look at the packets
    of reads, which nobody changes while they are outstanding; of a write that
    was answered only the place in the queue is used. Labels are left out. *)

From S2P Require Import Prelude.
From stdpp Require Import gmap.
From S2P Require Import DramConfig.
From S2P Require Import MemoryController.
From S2P Require Import MultiChannel.
From S2P Require Import GemMemory.
From S2P Require Import EventQueue.
From S2P Require Import AddrRange.
From S2P Require Import MemPacket.
From S2P Require Import AbstractMemory.
#[local] Open Scope Z_scope.

Module DramPort.
Import EventQueue MemPacket AbstractMemory.

(** ** The simulator *)

Class DramSim (M : Type) := {
  ds_tick : M -> Res (M * list Callback);
  ds_canAccept : M -> Res bool;
  ds_enqueue : M -> bool -> Z -> Res M;
  ds_queueSize : M -> Z;
  ds_burstSize : M -> Z;
  ds_clockPeriod : M -> spec_float
}.

(** The wrapper: the calls of a tick are those recorded during it, and the
    sender of a transaction is 0, 0 when it is not given. *)
#[export] Instance Wrapper_DramSim : DramSim DRAMSim2Wrapper := {
  ds_tick w :=
    w ← Wrapper_tick (w <| dramsim ::= fun d => d <| channels ::= fmap forget_calls |> |>); Ok (w, wrapper_calls w);
  ds_canAccept := canAccept;
  ds_enqueue w is_write a := Wrapper_enqueue w is_write a 0 0;
  ds_queueSize := queueSize;
  ds_burstSize := burstSize;
  ds_clockPeriod := clockPeriod
}.

(** ** The memory object *)

Inductive DrainState := Running | Draining | Drained.

Record DRAMSim2 (M : Type) := mkDRAMSim2 {
  memory : AbstractMemory;
  wrapper : M;
  retryReq : bool;
  retryResp : bool;
  outstandingReads : gmap Z (list Packet);
  outstandingWrites : gmap Z (list Packet);
  nbrOutstandingReads : Z;
  nbrOutstandingWrites : Z;
  responseQueue : list Packet;
  drainManager : option positive;
  drainState : DrainState;
  signalled : list positive;
  sendResponseEvent : option Z;
  tickEvent : option Z;
  pendingDelete : list Packet
}.
Arguments mkDRAMSim2 {M}.
Arguments memory {M}. Arguments wrapper {M}. Arguments retryReq {M}. Arguments retryResp {M}.
Arguments outstandingReads {M}. Arguments outstandingWrites {M}. Arguments nbrOutstandingReads {M}.
Arguments nbrOutstandingWrites {M}. Arguments responseQueue {M}. Arguments drainManager {M}. Arguments drainState {M}.
Arguments signalled {M}. Arguments sendResponseEvent {M}. Arguments tickEvent {M}. Arguments pendingDelete {M}.

Section Setters.
Context {M : Type}.
#[export] Instance eta_DRAMSim2 : Settable (DRAMSim2 M) := fun r =>
  mkDRAMSim2 (memory r) (wrapper r) (retryReq r) (retryResp r) (outstandingReads r) (outstandingWrites r)
    (nbrOutstandingReads r) (nbrOutstandingWrites r) (responseQueue r) (drainManager r) (drainState r) (signalled r)
    (sendResponseEvent r) (tickEvent r) (pendingDelete r).
#[export] Instance set_memory : Setter (@memory M) := ltac:(mk_setter).
#[export] Instance set_wrapper : Setter (@wrapper M) := ltac:(mk_setter).
#[export] Instance set_retryReq : Setter (@retryReq M) := ltac:(mk_setter).
#[export] Instance set_retryResp : Setter (@retryResp M) := ltac:(mk_setter).
#[export] Instance set_outstandingReads : Setter (@outstandingReads M) := ltac:(mk_setter).
#[export] Instance set_outstandingWrites : Setter (@outstandingWrites M) := ltac:(mk_setter).
#[export] Instance set_nbrOutstandingReads : Setter (@nbrOutstandingReads M) := ltac:(mk_setter).
#[export] Instance set_nbrOutstandingWrites : Setter (@nbrOutstandingWrites M) := ltac:(mk_setter).
#[export] Instance set_responseQueue : Setter (@responseQueue M) := ltac:(mk_setter).
#[export] Instance set_drainManager : Setter (@drainManager M) := ltac:(mk_setter).
#[export] Instance set_drainState : Setter (@drainState M) := ltac:(mk_setter).
#[export] Instance set_signalled : Setter (@signalled M) := ltac:(mk_setter).
#[export] Instance set_sendResponseEvent : Setter (@sendResponseEvent M) := ltac:(mk_setter).
#[export] Instance set_tickEvent : Setter (@tickEvent M) := ltac:(mk_setter).
#[export] Instance set_pendingDelete : Setter (@pendingDelete M) := ltac:(mk_setter).
End Setters.

(** The master at the other end of the port. *)
Class Master (M W : Type) := {
  sendTimingResp : Z -> Packet -> DRAMSim2 M * W -> Res (bool * (DRAMSim2 M * W));
  sendRetry : Z -> DRAMSim2 M * W -> Res (DRAMSim2 M * W)
}.

Section Port.
Context {M W : Type} `{DramSim M} `{Master M W}.
Implicit Types d : DRAMSim2 M.

(** The constructor, with the memory of the range and the simulator, whose
    callbacks are registered. *)
Definition DRAMSim2_new (range : AddrRange.AddrRange) (w : M) : Res (DRAMSim2 M) :=
  mem ← AbstractMemory_new range;
  Ok (mkDRAMSim2 mem w false false ∅ ∅ 0 0 [] None Running [] None None []).

Definition init (isConnected : bool) (cacheLineSize : Z) d : Res unit :=
  if negb isConnected then Err (Exit "DRAMSim2 is unconnected!")
  else if negb (Z.eqb cacheLineSize (ds_burstSize (wrapper d)))
  then Err (Exit "DRAMSim2 burst size does not match cache line size") else Ok tt.

Definition nbrOutstanding d : Z := u32 (nbrOutstandingReads d + nbrOutstandingWrites d + zlen (responseQueue d)).

(** The two events of the object. *)
Definition schedule_response (now : Z) d : Res (DRAMSim2 M) :=
  _ ← guard_assert (bool_decide (sendResponseEvent d = None)) "!event->scheduled()"; Ok (d <| sendResponseEvent := Some now |>).
Definition schedule_tick (now when : Z) d : Res (DRAMSim2 M) :=
  _ ← guard_assert (bool_decide (now <= when)) "when >= getCurTick()";
  _ ← guard_assert (bool_decide (tickEvent d = None)) "!event->scheduled()"; Ok (d <| tickEvent := Some when |>).

Definition startup (now clockEdge : Z) d : Res (DRAMSim2 M) := schedule_tick now clockEdge d.

Definition signal_drain d : DRAMSim2 M :=
  match drainManager d with
  | Some dm => if Z.eqb (nbrOutstanding d) 0 then d <| signalled ::= (fun l => l ++ [dm]) |> <| drainManager := None |> else d
  | None => d
  end.

Definition sendResponse (now : Z) (s : DRAMSim2 M * W) : Res (DRAMSim2 M * W) :=
  _ ← guard_assert (negb (retryResp s.1)) "!retryResp";
  match responseQueue s.1 with
  | [] => Err (AssertFail "!responseQueue.empty()")
  | pkt :: _ =>
      '(success, (d, w)) ← sendTimingResp now pkt s;
      if success : bool then
        let d := d <| responseQueue ::= tail |> in
        d ← (if negb (bool_decide (responseQueue d = [])) && bool_decide (sendResponseEvent d = None)
             then schedule_response now d else Ok d);
        Ok (signal_drain d, w)
      else
        let d := d <| retryResp := true |> in
        _ ← guard_assert (bool_decide (sendResponseEvent d = None)) "!sendResponseEvent.scheduled()"; Ok (d, w)
  end.

Definition accessAndRespond (now : Z) (pkt : Packet) d : Res (DRAMSim2 M) :=
  let needs := needsResponse pkt in
  '(pkt, mem) ← access pkt (memory d);
  let d := d <| memory := mem |> in
  if needs then
    _ ← guard_assert (isResponse pkt) "pkt->isResponse()";
    let pkt := pkt <| busFirstWordDelay := 0 |> <| busLastWordDelay := 0 |> in
    let d := d <| responseQueue ::= fun l => l ++ [pkt] |> in
    if negb (retryResp d) && bool_decide (sendResponseEvent d = None) then schedule_response now d else Ok d
  else Ok (d <| pendingDelete ::= fun l => l ++ [pkt] |>).

(** [divCeil(curTick(), wrapper.clockPeriod() * SimClock::Int::ns)], in double. *)
Definition dram_cycle (ns now : Z) (period : spec_float) : Z :=
  let b := F64.mul period (F64.of_Z ns) in
  F32.trunc (F64.div (F64.sub (F64.add (F64.of_Z now) b) (F64.of_Z 1)) b).
(** [curTick() + wrapper.clockPeriod() * SimClock::Int::ns] as a [Tick]. *)
Definition next_tick (ns now : Z) (period : spec_float) : Z :=
  F32.trunc (F64.add (F64.of_Z now) (F64.mul period (F64.of_Z ns))).

(** The first packet for an address; an empty queue leaves the map. *)
Definition take_first (a : Z) (q : gmap Z (list Packet)) : Res (Packet * gmap Z (list Packet)) :=
  match q !! a with
  | None => Err (AssertFail "p != end()")
  | Some [] => Err OutOfRange
  | Some [pkt] => Ok (pkt, delete a q)
  | Some (pkt :: l) => Ok (pkt, <[a := l]> q)
  end.

Definition readComplete (ns now addr cycle : Z) d : Res (DRAMSim2 M) :=
  _ ← guard_assert (Z.eqb cycle (dram_cycle ns now (ds_clockPeriod (wrapper d)))) "cycle == divCeil(...)";
  '(pkt, q) ← take_first addr (outstandingReads d);
  let d := d <| outstandingReads := q |> in
  _ ← guard_assert (negb (Z.eqb (nbrOutstandingReads d) 0)) "nbrOutstandingReads != 0";
  let d := d <| nbrOutstandingReads ::= fun n => u32 (n - 1) |> in
  accessAndRespond now pkt d.

Definition writeComplete (ns now addr cycle : Z) d : Res (DRAMSim2 M) :=
  _ ← guard_assert (Z.eqb cycle (dram_cycle ns now (ds_clockPeriod (wrapper d)))) "cycle == divCeil(...)";
  '(_, q) ← take_first addr (outstandingWrites d);
  let d := d <| outstandingWrites := q |> in
  _ ← guard_assert (negb (Z.eqb (nbrOutstandingWrites d) 0)) "nbrOutstandingWrites != 0";
  let d := d <| nbrOutstandingWrites ::= fun n => u32 (n - 1) |> in
  Ok (signal_drain d).

Definition complete (ns now : Z) d (c : Callback) : Res (DRAMSim2 M) :=
  match c with
  | ReadDone _ a cycle _ _ => readComplete ns now a cycle d
  | WriteDone _ a cycle _ _ => writeComplete ns now a cycle d
  end.

Definition tick (ns now : Z) (s : DRAMSim2 M * W) : Res (DRAMSim2 M * W) :=
  let '(d, w) := s in
  '(m, calls) ← ds_tick (wrapper d);
  d ← foldM (complete ns now) (d <| wrapper := m |>) calls;
  '(d, w) ← (if retryReq d && Z.ltb (nbrOutstanding d) (ds_queueSize (wrapper d))
             then sendRetry now (d <| retryReq := false |>, w) else Ok (d, w));
  d ← schedule_tick now (next_tick ns now (ds_clockPeriod (wrapper d))) d;
  Ok (d, w).

(** [outstanding[addr].push(pkt)] *)
Definition push (a : Z) (pkt : Packet) (q : gmap Z (list Packet)) : gmap Z (list Packet) :=
  <[a := default [] (q !! a) ++ [pkt]]> q.

Definition recvTimingReq (now : Z) (pkt : Packet) d : Res (bool * DRAMSim2 M) :=
  _ ← guard_assert (negb (retryReq d)) "!retryReq";
  let d := d <| pendingDelete := [] |> in
  if memInhibitAsserted pkt then Ok (true, d <| pendingDelete ::= fun l => l ++ [pkt] |>)
  else
    let can_accept := Z.ltb (nbrOutstanding d) (ds_queueSize (wrapper d)) in
    let enqueue d :=
      if can_accept then
        ok ← ds_canAccept (wrapper d);
        _ ← guard_assert ok "wrapper.canAccept()";
        a ← getAddr pkt;
        m ← ds_enqueue (wrapper d) (isWrite pkt) a;
        Ok (true, d <| wrapper := m |>)
      else Ok (false, d <| retryReq := true |>) in
    if isRead pkt then
      d ← (if can_accept then
             a ← getAddr pkt;
             Ok (d <| outstandingReads ::= push a pkt |> <| nbrOutstandingReads ::= fun n => u32 (n + 1) |>)
           else Ok d);
      enqueue d
    else if isWrite pkt then
      d ← (if can_accept then
             a ← getAddr pkt;
             accessAndRespond now pkt (d <| outstandingWrites ::= push a pkt |> <| nbrOutstandingWrites ::= fun n => u32 (n + 1) |>)
           else Ok d);
      enqueue d
    else d ← accessAndRespond now pkt d; Ok (true, d).

Definition recvRetry (now : Z) (s : DRAMSim2 M * W) : Res (DRAMSim2 M * W) :=
  _ ← guard_assert (retryResp s.1) "retryResp";
  sendResponse now (s.1 <| retryResp := false |>, s.2).

(** The packet as a response, and the latency. *)
Definition recvAtomic (pkt : Packet) d : Res (Packet * DRAMSim2 M * Z) :=
  '(pkt, mem) ← access pkt (memory d);
  Ok (pkt, d <| memory := mem |>, if memInhibitAsserted pkt then 0 else 50000).

Fixpoint check_responses (junk : Z -> list Z) (pkt : Packet) (l : list Packet) : Res (Packet * list Packet) :=
  match l with
  | [] => Ok (pkt, [])
  | r :: l =>
      '(pkt, r, _) ← checkFunctional_pkt junk pkt r;
      '(pkt, l) ← check_responses junk pkt l; Ok (pkt, r :: l)
  end.
Definition recvFunctional (junk : Z -> list Z) (pkt : Packet) d : Res (Packet * DRAMSim2 M) :=
  '(pkt, mem) ← functionalAccess pkt (memory d);
  '(pkt, l) ← check_responses junk pkt (responseQueue d);
  Ok (pkt, d <| memory := mem |> <| responseQueue := l |>).

Definition drain (dm : positive) d : Z * DRAMSim2 M :=
  if negb (Z.eqb (nbrOutstanding d) 0) then (1, d <| drainState := Draining |> <| drainManager := Some dm |>)
  else (0, d <| drainState := Drained |>).

End Port.

End DramPort.
