(* ===== verification/DramContract.v ===== *)
(** * The contract of the simulator towards the memory object

    What [mem/dramsim2.cc] relies on: a request that is enqueued is held until
    a tick reports it, each once, with the number of the cycle; there is room
    as long as fewer requests are held than its queue is deep. [DramSimLaws]
    states it, and the wrapper of the multi-channel memory keeps it. *)

From stdpp Require Import gmap.
From S2P Require Import Prelude.
From S2P Require Import DramConfig.
From S2P Require Import DramRank.
From S2P Require Import AddressMapping.
From S2P Require Import BusTypes.
From S2P Require Import RankSafety.
From S2P Require Import CommandQueue.
From S2P Require Import MemoryController.
From S2P Require Import ControllerInv.
From S2P Require Import MemorySystem.
From S2P Require Import IssueStages.
From S2P Require Import PowerStages.
From S2P Require Import ClockDomain.
From S2P Require Import MultiChannel.
From S2P Require Import MultiChannelSafety.
From S2P Require Import GemMemory.
From S2P Require Import MemoryFlow.
From S2P Require Import Outcome.
From S2P Require Import DramPort.
#[local] Open Scope Z_scope.

(** ** When the callbacks are made

    The callbacks of a tick carry the number of the cycle. *)

Definition cycle_of (c : Callback) : Z :=
  match c with ReadDone _ _ cycle _ _ => cycle | WriteDone _ _ cycle _ _ => cycle end.

(** The controller's clock is at [t], and so are its calls. *)
Definition stamped (t : Z) (mc : MemoryController) : Prop :=
  mc_currentClockCycle mc = t /\ Forall (fun c => cycle_of c = t) (callbacks mc).

Section Stages.
Context {cfg : Cfg}.

Lemma update_bank_states_stamped t mc : stamped t mc -> yields (stamped t) (update_bank_states mc).
Proof.
  intros H. unfold update_bank_states. apply ends_foldM; [|done]. intros s i _ Hs. unfold rank_blp. ends_tac; done.
Qed.

Lemma deliver_command_stamped t mc rs : stamped t mc -> yields (fun r => stamped t r.1) (deliver_command mc rs).
Proof. intros H. unfold deliver_command. destruct (mc_outgoingCmdPacket mc); ends_tac; done. Qed.

Lemma writeDone_stamped t par mc p : stamped t mc -> stamped t (writeDone par mc p).
Proof.
  intros [H1 H2]. unfold writeDone. destruct (WriteDataDone par); [|done]. split; [done|]. cbn.
  apply Forall_app. split; [done|]. by repeat constructor.
Qed.

Lemma deliver_write_data_stamped t par mc rs : stamped t mc -> yields (fun r => stamped t r.1) (deliver_write_data par mc rs).
Proof.
  intros H. unfold deliver_write_data. destruct (mc_outgoingDataPacket mc); ends_tac; try done.
  enough (forall m, stamped t m -> stamped t ((writeDone par m b) <| mc_outgoingDataPacket := None |>)) as Hg by (apply Hg; exact H).
  intros m Hm. exact (writeDone_stamped t par m b Hm).
Qed.

Lemma send_write_data_stamped t mc : stamped t mc -> yields (stamped t) (send_write_data mc).
Proof.
  intros H. unfold send_write_data. cbv zeta. destruct (writeDataCountdown _); [by ends_tac|]. ends_tac; try done.
  destruct (mc_outgoingDataPacket _); [by ends_tac|]. destruct (writeDataToSend _); ends_tac; done.
Qed.

Lemma refresh_check_stamped t mc rs : stamped t mc -> yields (fun r => stamped t r.1) (refresh_check mc rs).
Proof. intros H. unfold refresh_check. ends_tac; done. Qed.

Lemma push_write_data_stamped t p mc : stamped t mc -> stamped t (push_write_data p mc).
Proof. intros H. unfold push_write_data. by destruct (_ || _). Qed.

Lemma issue_stamped t mc p : stamped t mc -> yields (stamped t) (issue mc p).
Proof.
  intros H. unfold issue. apply (ends_bind (fun _ => True)); [apply yields_any|]. intros _ _.
  destruct (busPacketType p); unfold MC_issue_read, MC_issue_write, MC_issue_activate, MC_issue_precharge, MC_issue_refresh;
    cbv zeta; ends_tac; try done; by destruct (bool_decide _).
Qed.

Lemma put_on_command_bus_stamped t mc p : stamped t mc -> yields (stamped t) (put_on_command_bus mc p).
Proof. intros H. unfold put_on_command_bus. destruct (mc_outgoingCmdPacket mc); ends_tac; done. Qed.

Lemma pop_and_issue_stamped t mc : stamped t mc -> yields (stamped t) (pop_and_issue mc).
Proof.
  intros H. unfold pop_and_issue. apply (ends_bind (fun _ => True)); [apply yields_any|]. intros [o cq] _. cbv zeta.
  destruct o as [p|]; [|by apply ends_ok]. apply (ends_bind (stamped t)).
  - apply issue_stamped, push_write_data_stamped, H.
  - intros mc' H'. by apply put_on_command_bus_stamped.
Qed.

Lemma schedule_stamped t mc i tr m : stamped t mc -> yields (stamped t) (schedule mc i tr m).
Proof. intros H. unfold schedule. ends_tac. by destruct (bool_decide _). Qed.

Lemma schedule_transaction_stamped t mc : stamped t mc -> yields (stamped t) (schedule_transaction mc).
Proof.
  intros H. unfold schedule_transaction. generalize 0%nat (transactionQueue mc). intros i l. revert i.
  induction l as [|tr l IH]; intros i; cbn [schedule_loop]; cbv zeta; [by apply ends_ok|].
  apply (ends_bind (fun _ => True)); [apply yields_any|]. intros [] _; [by apply schedule_stamped | apply IH].
Qed.

Lemma switch_power_stamped t mc rs i : stamped t mc -> yields (fun r => stamped t r.1) (switch_power mc rs i).
Proof.
  intros H. unfold switch_power, enter_power_down, leave_power_down. destruct USE_LOW_POWER; [|by apply ends_ok]. ends_tac; done.
Qed.

Lemma update_power_stamped t mc rs : stamped t mc -> yields (fun r => stamped t r.1) (update_power mc rs).
Proof.
  intros H. unfold update_power. apply ends_foldM; [|done]. intros [mc' rs'] i _ Hs. cbn [fst snd] in *.
  apply (ends_bind (fun r => stamped t r.1)); [by apply switch_power_stamped|]. intros [mc2 rs2] H2. cbn [fst] in H2.
  apply (ends_bind (stamped t)); [unfold background_power; ends_tac; done|]. intros mc3 H3. by apply ends_ok.
Qed.

Lemma returnReadData_stamped t par mc tr : stamped t mc -> stamped t (returnReadData par mc tr).
Proof.
  intros [H1 H2]. unfold returnReadData. destruct (ReturnReadData par); [|done]. split; [done|]. cbn.
  apply Forall_app. split; [done|]. by repeat constructor.
Qed.

Lemma return_data_stamped t par mc : stamped t mc -> yields (stamped t) (return_data par mc).
Proof.
  intros H. unfold return_data. destruct (returnTransaction mc) as [|ret rets]; [by apply ends_ok|]. cbv zeta.
  destruct (find_pending _ _ _) as [[i tr]|]; [|by ends_tac]. apply (ends_bind (stamped t)).
  - unfold insertHistogram. ends_tac. done.
  - intros mc' H'. apply ends_ok. exact (returnReadData_stamped t par mc' tr H').
Qed.

Lemma update_ranks_stamped t rs : forall mc, stamped t mc -> yields (fun r => stamped t r.2) (update_ranks rs mc).
Proof.
  induction rs as [|r rs IH]; intros mc H; cbn [update_ranks]; [by apply ends_ok|].
  apply (ends_bind (fun x : Rank * MemoryController => stamped t x.2)).
  - unfold Rank_update, Rank_update_outgoing. apply (ends_bind (fun x : Rank * MemoryController => stamped t x.2)).
    + destruct (rk_outgoingDataPacket r); cbv zeta; [|by apply ends_ok]. destruct (bool_decide _); [|by apply ends_ok].
      apply (ends_bind (stamped t)); [|intros mc' H'; by apply ends_ok].
      unfold bus_receiveFromBus, MemoryController_BusReceiver, MemoryController_receiveFromBus. ends_tac. done.
    + intros [r1 mc1] H1. ends_tac. done.
  - intros [r1 mc1] H1. cbn [snd] in H1. apply (ends_bind (fun x : list Rank * MemoryController => stamped t x.2)); [by apply IH|].
    intros [rs2 mc2] H2. by apply ends_ok.
Qed.

Lemma MemoryController_update_stamped t par mc rs : stamped t mc -> yields (fun r => stamped t r.1) (MemoryController_update par mc rs).
Proof.
  intros H. unfold MemoryController_update. cbv zeta.
  apply (ends_bind (stamped t)); [by apply update_bank_states_stamped|]. intros mc1 H1.
  apply (ends_bind (fun r => stamped t r.1)); [by apply deliver_command_stamped|]. intros [mc2 rs2] H2.
  apply (ends_bind (fun r => stamped t r.1)); [by apply deliver_write_data_stamped|]. intros [mc3 rs3] H3.
  apply (ends_bind (stamped t)); [by apply send_write_data_stamped|]. intros mc4 H4.
  apply (ends_bind (fun r => stamped t r.1)); [by apply refresh_check_stamped|]. intros [mc5 rs5] H5.
  apply (ends_bind (stamped t)); [by apply pop_and_issue_stamped|]. intros mc6 H6.
  apply (ends_bind (stamped t)); [by apply schedule_transaction_stamped|]. intros mc7 H7.
  apply (ends_bind (fun r => stamped t r.1)); [by apply update_power_stamped|]. intros [mc8 rs8] H8.
  apply (ends_bind (stamped t)); [by apply return_data_stamped|]. intros mc9 H9. by apply ends_ok.
Qed.

(** The calls of a channel's update, when the record was empty. *)
Lemma MemorySystem_update_calls ms t : mc_currentClockCycle (memoryController ms) = t -> callbacks (memoryController ms) = [] ->
  yields (fun ms' => Forall (fun c => cycle_of c = t) (callbacks (memoryController ms'))) (MemorySystem_update ms).
Proof.
  intros Hc He. unfold MemorySystem_update.
  apply (ends_bind (fun r : list Rank * MemoryController => stamped t r.2)).
  { apply update_ranks_stamped. split; [done|]. by rewrite He. }
  intros [rs mc] H. cbn [snd] in H. cbv zeta. apply (ends_bind (fun r => stamped t r.1)).
  - apply MemoryController_update_stamped. unfold admit_pending, MemoryController_addTransaction.
    destruct (pendingTransactions _); [exact H|].
    destruct (MemoryController_WillAcceptTransaction (memoryController _)) eqn:E; cbn in *; rewrite ?E; exact H.
  - intros [mc' rs'] [_ H']. apply ends_ok. exact H'.
Qed.

End Stages.

(** ** The contract *)

#[export] Existing Instance DramPort.Wrapper_DramSim.

(** A request: its address, and whether it is a read. *)
Definition Held : Type := Z * bool.

Definition call_held (c : Callback) : Held :=
  match c with ReadDone _ a _ _ _ => (a, true) | WriteDone _ a _ _ _ => (a, false) end.

Class DramSimLaws (M : Type) `{DramPort.DramSim M} := {
  ds_ok : Z -> M -> Prop;
  ds_held : M -> list Held;
  law_tick t m : 0 <= t < 2 ^ 62 -> ds_ok t m ->
    exists m' calls, DramPort.ds_tick m = Ok (m', calls) /\ ds_ok (t + 1) m' /\
      ds_held m ≡ₚ ds_held m' ++ (call_held <$> calls) /\ Forall (fun c => cycle_of c = t) calls /\
      DramPort.ds_queueSize m' = DramPort.ds_queueSize m /\ DramPort.ds_clockPeriod m' = DramPort.ds_clockPeriod m;
  law_canAccept t m : ds_ok t m -> zlen (ds_held m) < DramPort.ds_queueSize m -> DramPort.ds_canAccept m = Ok true;
  law_enqueue t m w a : in_u64 a -> ds_ok t m ->
    exists m', DramPort.ds_enqueue m w a = Ok m' /\ ds_ok t m' /\ ds_held m' ≡ₚ (a, negb w) :: ds_held m /\
      DramPort.ds_queueSize m' = DramPort.ds_queueSize m /\ DramPort.ds_clockPeriod m' = DramPort.ds_clockPeriod m
}.

(** ** The wrapper *)

Section Wrapper.
Context (cfg0 : Cfg).

(** The lemmas on the platform's memory are about the wrapper in it. *)
Definition wrap (w : DRAMSim2Wrapper) : GemDroidMemory := mkGemMemory w 0 false (F64.of_Z 1) (F64.of_Z 1) 0 0 0.

Definition wrapper_ok (t : Z) (w : DRAMSim2Wrapper) : Prop :=
  memory_ok cfg0 t (wrap w) /\ queueSize w = @TRANS_QUEUE_DEPTH cfg0.

Definition held_of (m : Msg) : Held := let '(a, _, _, r) := m in (a, r).
Definition wrapper_held (w : DRAMSim2Wrapper) : list Held := held_of <$> in_memory (wrap w).

Lemma held_call c : held_of (call_msg c) = call_held c.
Proof. by destruct c. Qed.

(** [zrange] loops whose body may stop. *)
Lemma ends_zrange {S} (P : Z -> S -> Prop) (body : S -> Z -> Res S) n s :
  0 <= n -> (forall i s, 0 <= i < n -> P i s -> yields (P (i + 1)) (body s i)) -> P 0 s -> yields (P n) (foldM body s (zrange n)).
Proof.
  intros Hn Hb H0.
  assert (forall k m s, (m + k = Z.to_nat n)%nat -> P (Z.of_nat m) s -> yields (P n) (foldM body s (Z.of_nat <$> seq m k))) as Hgen.
  { induction k as [|k IH]; intros m s' Hm HP; cbn.
    - apply ends_ok. replace n with (Z.of_nat m) by lia. done.
    - apply (ends_bind (P (Z.of_nat m + 1))); [apply Hb; [lia | done]|]. intros s2 H2. apply IH; [lia|].
      replace (Z.of_nat (Datatypes.S m)) with (Z.of_nat m + 1) by lia. done. }
  apply (Hgen (Z.to_nat n) 0%nat); [lia | done].
Qed.

Lemma channel_calls_at t m : clock1 (clockDomainCrosser m) = clock2 (clockDomainCrosser m) -> 0 <= @NUM_CHANS (config m) ->
  zlen (channels m) = @NUM_CHANS (config m) ->
  (forall ms, ms ∈ channels m -> callbacks (memoryController ms) = [] /\ mc_currentClockCycle (memoryController ms) = t) ->
  yields (fun m' => Forall (fun c => cycle_of c = t) (mjoin (channel_calls <$> channels m'))) (MultiChannel_update m).
Proof.
  intros Hx Hn Hl Hch. unfold MultiChannel_update, ClockDomainCrosser_update. rewrite bool_decide_true by done.
  apply (ends_bind (fun r => Forall (fun c => cycle_of c = t) (mjoin (channel_calls <$> channels r.2)))).
  2:{ intros [x m'] H. apply ends_ok. exact H. }
  apply (ends_bind (fun r => Forall (fun c => cycle_of c = t) (mjoin (channel_calls <$> channels r)))).
  2:{ intros m' H. apply ends_ok. exact H. }
  unfold actual_update.
  apply (ends_bind (fun chs => Forall (fun c => cycle_of c = t) (mjoin (channel_calls <$> chs)))).
  2:{ intros chs H. apply ends_ok. exact H. }
  set (P := fun (j : Z) (chs : list MemorySystem) => zlen chs = @NUM_CHANS (config m) /\ forall i ms, zget chs i = Some ms ->
    if bool_decide (i < j) then Forall (fun c => cycle_of c = t) (channel_calls ms)
    else callbacks (memoryController ms) = [] /\ mc_currentClockCycle (memoryController ms) = t).
  apply (ends_mono (P (@NUM_CHANS (config m)))).
  - apply ends_zrange; [done| |].
    + intros i chs Hi [Hlen HP]. unfold update_channel. destruct (zget chs i) as [ms|] eqn:E; [|by apply ends_err].
      cbn [of_option mbind Res_bind]. pose proof (HP i ms E) as Hms. rewrite bool_decide_false in Hms by lia. destruct Hms as [H1 H2].
      apply (ends_bind (fun ms' => Forall (fun c => cycle_of c = t) (callbacks (memoryController ms')))).
      { by apply MemorySystem_update_calls. }
      intros ms' Hms'. apply ends_ok. split; [by rewrite zlen_zalter|]. intros j ms2. rewrite zget_zalter.
      destruct (bool_decide_reflect (i = j)) as [<-|Hne].
      * rewrite E. intros [= <-]. by rewrite bool_decide_true by lia.
      * intros Ej. specialize (HP j ms2 Ej). by rewrite (bool_decide_ext _ (j < i)) by lia.
    + split; [done|]. intros i ms E. pose proof (zget_Some_range _ _ _ E). rewrite bool_decide_false by lia. apply Hch.
      apply zget_lookup in E as [_ E]. by apply list_elem_of_lookup_2 in E.
  - intros chs [Hlen HP]. apply Forall_forall. intros c Hc. apply list_elem_of_join in Hc as (l & Hc & Hcl).
    apply list_elem_of_fmap in Hcl as (ms & -> & Hms). apply list_elem_of_lookup in Hms as [i Ei].
    assert (zget chs (Z.of_nat i) = Some ms) as E by (by rewrite zget_of_nat).
    pose proof (zget_Some_range _ _ _ E). specialize (HP _ _ E). rewrite bool_decide_true in HP by lia.
    rewrite Forall_forall in HP. by apply HP.
Qed.

Lemma queue_in_waiting cfg ms t rds wrs : @channel_inv cfg t rds wrs ms ->
  zlen (transactionQueue (memoryController ms)) <= zlen (waiting ms).
Proof.
  intros [Hc _ _ _ _]. pose proof (cv_transactions _ _ _ _ _ _ _ _ Hc) as Ht. unfold waiting, reads_waiting, writes_waiting. cbn zeta.
  rewrite !zlen_app, !zlen_fmap, !zlen_app.
  assert (zlen (transactionQueue (memoryController ms)) = zlen (transactions_of DATA_READ (transactionQueue (memoryController ms)))
    + zlen (transactions_of DATA_WRITE (transactionQueue (memoryController ms)))) as ->.
  { clear -Ht. induction (transactionQueue (memoryController ms)) as [|tr l IH]; [done|]. apply Forall_cons in Ht as [[[E|E] _] Ht];
      change (tr :: l) with ([tr] ++ l); rewrite !transactions_of_app, !transactions_of_singleton, E, !zlen_app, (IH Ht);
      bdec; try congruence; rewrite ?zlen_cons; change (@zlen Key []) with 0; change (@zlen Transaction []) with 0; lia. }
  repeat match goal with |- context [zlen ?l] => pose proof (zlen_nonneg l); generalize dependent (zlen l); intros end. lia.
Qed.

Lemma elem_of_mjoin_len {A B} (f : A -> list B) l x : x ∈ l -> zlen (f x) <= zlen (mjoin (f <$> l)).
Proof.
  induction l as [|y l IH]; intros Hx; [by apply elem_of_nil in Hx|].
  change (mjoin (f <$> y :: l)) with (f y ++ mjoin (f <$> l)). rewrite zlen_app.
  pose proof (zlen_nonneg (f y)). pose proof (zlen_nonneg (mjoin (f <$> l))). apply elem_of_cons in Hx as [->|Hx]; [lia|]. specialize (IH Hx). lia.
Qed.

Lemma all_accept_true cfg chs idx :
  (forall i, i ∈ idx -> exists ms, zget chs i = Some ms /\ MemorySystem_WillAcceptTransaction ms = true) -> all_accept cfg chs idx = Ok true.
Proof.
  induction idx as [|i idx IH]; intros H0; [done|]. cbn [all_accept]. destruct (H0 i) as (ms & -> & E); [left|].
  cbn [of_option mbind Res_bind]. rewrite E. cbn [negb]. apply IH. intros j Hj. apply H0. by right.
Qed.

Lemma wrapper_canAccept t w : wrapper_ok t w -> zlen (wrapper_held w) < queueSize w -> canAccept w = Ok true.
Proof.
  intros [(rds & wrs & Hm) Hq] Hlen. unfold canAccept, willAcceptTransaction. cbn [dramWrapper wrap] in Hm. apply all_accept_true.
  intros i Hi%elem_of_zrange. destruct (mi_channels _ _ _ _ _ Hm i Hi) as (ms & E & Hch). exists ms. split; [done|].
  unfold MemorySystem_WillAcceptTransaction, MemoryController_WillAcceptTransaction. apply bool_decide_eq_true_2.
  pose proof (queue_in_waiting _ _ _ _ _ Hch) as H1.
  assert (zlen (waiting ms) <= zlen (in_memory (wrap w))) as H2.
  { unfold in_memory, wrap. apply (elem_of_mjoin_len waiting). apply zget_lookup in E as [_ E]. by apply list_elem_of_lookup_2 in E. }
  unfold wrapper_held in Hlen. rewrite zlen_fmap in Hlen.
  assert (@TRANS_QUEUE_DEPTH (config (dramsim w)) = @TRANS_QUEUE_DEPTH cfg0) as -> by (by destruct (mi_config _ _ _ _ _ Hm) as [x ->]).
  lia.
Qed.

Lemma wrapper_tick t w : 0 <= t < 2 ^ 62 -> wrapper_ok t w ->
  exists w' calls, DramPort.ds_tick w = Ok (w', calls) /\ wrapper_ok (t + 1) w' /\
    wrapper_held w ≡ₚ wrapper_held w' ++ (call_held <$> calls) /\ Forall (fun c => cycle_of c = t) calls /\
    queueSize w' = queueSize w /\ clockPeriod w' = clockPeriod w.
Proof.
  intros Ht [Hm Hq]. destruct (GemDroidMemory_tick_ok cfg0 t (wrap w) Ht Hm) as (m' & calls & E & Hm' & Hperm & _).
  unfold GemDroidMemory_tick in E. cbn [DramPort.ds_tick DramPort.Wrapper_DramSim].
  change (dramWrapper ((wrap w) <| mem_ticks ::= Z.succ |>)) with w in E.
  destruct (Wrapper_tick (w <| dramsim ::= fun d => d <| channels ::= fmap forget_calls |> |>)) as [w'|] eqn:Ew; [|done].
  cbn [mbind Res_bind] in E |- *. injection E as <- <-. exists w', (wrapper_calls w'). split; [done|].
  unfold Wrapper_tick in Ew. apply bind_Ok in Ew as (d & Ed & Ew). injection Ew as <-.
  split; [split; [exact Hm' | done]|]. split.
  { unfold wrapper_held. rewrite Hperm, fmap_app. apply Permutation_app; [reflexivity|]. rewrite <- list_fmap_compose.
    erewrite list_fmap_ext; [reflexivity|]. intros i c _. apply held_call. }
  split; [|done]. destruct Hm as (rds & wrs & Hm). cbn [dramWrapper wrap] in Hm.
  refine (ends_result _ _ _ (channel_calls_at t (dramsim (w <| dramsim ::= fun d => d <| channels ::= fmap forget_calls |> |>)) _ _ _ _) Ed).
  - exact (mi_ratio _ _ _ _ _ Hm).
  - pose proof (chans_bound _ (ev_geo (mi_env _ _ _ _ _ Hm))). cbn. lia.
  - cbn. rewrite zlen_fmap. apply (mi_len _ _ _ _ _ Hm).
  - intros ms Hms. cbn in Hms. apply list_elem_of_fmap in Hms as (ms0 & -> & Hms0). split; [done|]. cbn.
    apply list_elem_of_lookup in Hms0 as [i Ei].
    assert (0 <= Z.of_nat i < @NUM_CHANS (config (dramsim w))) as Hi.
    { apply lookup_lt_Some in Ei. pose proof (mi_len _ _ _ _ _ Hm) as Hl. unfold zlen in Hl. lia. }
    destruct (mi_channels _ _ _ _ _ Hm _ Hi) as (ms & E & Hch). rewrite zget_of_nat, Ei in E. injection E as <-.
    apply (cv_clock _ _ _ _ _ _ _ _ (ch_ctrl _ _ _ _ Hch)).
Qed.

Lemma wrapper_enqueue t w is_write a : in_u64 a -> wrapper_ok t w ->
  exists w', Wrapper_enqueue w is_write a 0 0 = Ok w' /\ wrapper_ok t w' /\
    wrapper_held w' ≡ₚ (a, negb is_write) :: wrapper_held w /\ queueSize w' = queueSize w /\ clockPeriod w' = clockPeriod w.
Proof.
  intros Ha [Hm Hq]. destruct (call_channel_add cfg0 t (wrap w) is_write a 0 0 Ha Hm) as (w' & E & Hm' & Hp).
  cbn [dramWrapper wrap] in E. exists w'. split; [done|].
  assert (queueSize w' = queueSize w /\ clockPeriod w' = clockPeriod w) as [E1 E2].
  { unfold Wrapper_enqueue in E. apply bind_Ok in E as ([ok m] & _ & E). destruct ok; [|done]. by injection E as <-. }
  split; [split; [exact Hm' | by rewrite E1]|]. split; [|done]. unfold wrapper_held.
  change (in_memory (wrap w')) with (in_memory ((wrap w) <| dramWrapper := w' |>)). by rewrite Hp.
Qed.

#[export] Instance Wrapper_laws : DramSimLaws DRAMSim2Wrapper := {
  ds_ok := wrapper_ok;
  ds_held := wrapper_held;
  law_tick := wrapper_tick;
  law_canAccept := wrapper_canAccept;
  law_enqueue t w is_write a := wrapper_enqueue t w is_write a
}.

End Wrapper.
