(* ===== verification/DramPortSafety.v ===== *)
(** * What the memory object promises ([mem/dramsim2.cc])

    Over any simulator that keeps [DramSimLaws], and a master that answers or
    refuses each response and notes each retry without calling back, no
    assertion of the object fails, and every request that wants a response is
    answered exactly once. *)

From S2P Require Import Prelude.
From stdpp Require Import gmap.
From S2P Require Import DramConfig.
From S2P Require Import FloatExact.
From S2P Require Import MemoryController.
From S2P Require Import MultiChannel.
From S2P Require Import EventQueue.
From S2P Require Import AddrRange.
From S2P Require Import MemPacket.
From S2P Require Import PacketTheorems.
From S2P Require Import AbstractMemory.
From S2P Require Import MemoryTheorems.
From S2P Require Import DramPort.
From S2P Require Import DramContract.
#[local] Open Scope Z_scope.

Module DramPortSafety.
Import EventQueue MemPacket PacketTheorems AbstractMemory MemoryTheorems DramPort.

(** ** The queues by address *)

#[export] Instance zlen_Permutation {A} : Proper ((≡ₚ) ==> eq) (@zlen A).
Proof. intros l l' E. unfold zlen. by rewrite E. Qed.

Definition all_packets (q : gmap Z (list Packet)) : list Packet := map_to_list q ≫= snd.

(** Packets are under their address, and no queue is empty. *)
Definition keyed (q : gmap Z (list Packet)) : Prop := forall a l, q !! a = Some l -> l <> [] /\ Forall (fun p => addr p = a) l.

Lemma all_packets_delete q a l : q !! a = Some l -> all_packets q ≡ₚ l ++ all_packets (delete a q).
Proof. intros E. unfold all_packets. rewrite <- (map_to_list_delete q a l E). done. Qed.

Lemma all_packets_new q a l : q !! a = None -> all_packets (<[a := l]> q) ≡ₚ l ++ all_packets q.
Proof. intros E. unfold all_packets. by rewrite map_to_list_insert. Qed.

Lemma all_packets_insert q a l l' : q !! a = Some l -> all_packets (<[a := l']> q) ≡ₚ l' ++ all_packets (delete a q).
Proof. intros E. rewrite <- insert_delete_eq. apply all_packets_new, lookup_delete_eq. Qed.

Lemma push_packets a pkt q : all_packets (push a pkt q) ≡ₚ pkt :: all_packets q.
Proof.
  unfold push. destruct (q !! a) as [l|] eqn:E; cbn [default].
  - rewrite (all_packets_insert q a l) by done. rewrite (all_packets_delete q a l E). solve_Permutation.
  - by rewrite all_packets_new.
Qed.

Lemma push_keyed a pkt q : addr pkt = a -> keyed q -> keyed (push a pkt q).
Proof.
  intros Ha Hk b l. unfold push. destruct (decide (a = b)) as [<-|Hne].
  - rewrite lookup_insert_eq. intros [= <-]. split; [by destruct (default [] (q !! a))|].
    apply Forall_app. split; [|by repeat constructor]. destruct (q !! a) as [l|] eqn:E; [|constructor]. by apply (Hk a l).
  - rewrite lookup_insert_ne by done. apply Hk.
Qed.

Lemma take_first_ok q a : keyed q -> a ∈ addr <$> all_packets q ->
  exists p q', take_first a q = Ok (p, q') /\ addr p = a /\ all_packets q ≡ₚ p :: all_packets q' /\ keyed q'.
Proof.
  intros Hk Ha. apply list_elem_of_fmap in Ha as (x & Ex & Hx). unfold all_packets in Hx.
  apply list_elem_of_bind in Hx as ([b l] & Hxl & Hb). apply elem_of_map_to_list in Hb. cbn in Hxl.
  pose proof (Hk b l Hb) as [Hne Hf]. rewrite Forall_forall in Hf. pose proof (Hf x Hxl) as E. rewrite <- Ex in E. subst b.
  unfold take_first. rewrite Hb. destruct l as [|p [|p' l]]; [done| |].
  - exists p, (delete a q). split; [done|]. split; [apply Hf; left|]. split; [by rewrite (all_packets_delete q a [p])|].
    intros c m. destruct (decide (a = c)) as [<-|]; [by rewrite lookup_delete_eq | rewrite lookup_delete_ne by done; apply Hk].
  - exists p, (<[a := p' :: l]> q). split; [done|]. split; [apply Hf; left|]. split.
    + rewrite (all_packets_delete q a _ Hb), (all_packets_insert q a _ (p' :: l) Hb). done.
    + intros c m. destruct (decide (a = c)) as [<-|].
      * rewrite lookup_insert_eq. intros [= <-]. split; [done|]. apply Forall_forall. intros y Hy. apply Hf. by right.
      * rewrite lookup_insert_ne by done. apply Hk.
Qed.

(** ** The clock

    When a cycle is a whole number [p] of ticks, the double-precision
    computations of the cycle's number and of the next tick are exact. *)

Lemma dram_clock ns period p k : F64.mul period (F64.of_Z ns) = F64.of_Z p -> 1 < p -> 0 <= k -> (k + 2) * p < 2 ^ 52 ->
  dram_cycle ns (k * p) period = k /\ next_tick ns (k * p) period = (k + 1) * p.
Proof.
  intros E Hp Hk Hb. unfold dram_cycle, next_tick. rewrite E.
  assert (F64.add (F64.of_Z (k * p)) (F64.of_Z p) = F64.of_Z ((k + 1) * p)) as ->.
  { destruct (decide (k = 0)) as [->|Hn].
    - rewrite FloatExact.add_zero_l by (unfold FloatExact.exact_limit; nia). f_equal. lia.
    - rewrite FloatExact.add_exact by (unfold FloatExact.exact_limit; nia). f_equal. lia. }
  rewrite FloatExact.trunc_of_Z by (unfold FloatExact.exact_limit; nia). split; [|done].
  rewrite FloatExact.sub_exact by (unfold FloatExact.exact_limit; nia).
  assert (((k + 1) * p - 1) / p = k) as Ek by (symmetry; apply (Z.div_unique _ _ _ (p - 1)); lia).
  rewrite FloatExact.trunc_div; rewrite ?Ek; [done | lia | nia | nia].
Qed.

(** ** The invariant *)

Section Port.
Context {M W : Type} `{Dsim : DramSim M} {Laws : DramSimLaws M} `{Peer : Master M W}.
Implicit Types d : DRAMSim2 M.

(** The memory's range and the simulator's depth and period stay; [ns] and
    [p] are the ticks of a nanosecond and of a cycle. *)
Context (mem0 : AbstractMemory) (Q : Z) (period : spec_float) (ns p N : Z).

(** What identifies a request and its response: address, size and port. *)
Definition req_key (pkt : Packet) : Z * Z * Z := (addr pkt, size pkt, src pkt).
Definition resp_key (pkt : Packet) : Z * Z * Z := (addr pkt, size pkt, dest pkt).

(** A read or write request that the memory supports; a swap, which is both,
    is not. *)
Definition supported (pkt : Packet) : Prop :=
  isRequest pkt = true /\ cmd pkt <> SwapReq /\ isRead pkt || isWrite pkt = true /\ exists b, legal mem0 pkt b.

Lemma read_needs_response pkt : isRequest pkt = true -> isRead pkt = true -> needsResponse pkt = true.
Proof. unfold isRequest, isRead, needsResponse. by destruct (cmd pkt). Qed.

Lemma response_is_response c : testCmdAttrib c NeedsResponse = true -> testCmdAttrib (responseCommand c) IsResponse = true.
Proof. by destruct c. Qed.

(** [pend] are completions that the simulator has reported and that are still
    to be handled; [acc] and [ans] are the requests accepted and answered.
    While the first response is being sent, [sending], the event of the
    responses that come behind it may be scheduled. *)
Record port_ok (sending : bool) (k now : Z) (pend : list Held) (acc ans : list (Z * Z * Z)) (d : DRAMSim2 M) : Prop := {
  po_sim : ds_ok k (wrapper d);
  po_period : ds_clockPeriod (wrapper d) = period;
  po_depth : ds_queueSize (wrapper d) = Q;
  po_held : ds_held (wrapper d) ++ pend ≡ₚ
    ((fun x => (addr x, true)) <$> all_packets (outstandingReads d)) ++
    ((fun x => (addr x, false)) <$> all_packets (outstandingWrites d));
  po_rkeys : keyed (outstandingReads d);
  po_wkeys : keyed (outstandingWrites d);
  po_reads : forall x, x ∈ all_packets (outstandingReads d) -> supported x /\ isRead x = true;
  po_nr : nbrOutstandingReads d = zlen (all_packets (outstandingReads d));
  po_nw : nbrOutstandingWrites d = zlen (all_packets (outstandingWrites d));
  po_bound : nbrOutstandingReads d + nbrOutstandingWrites d + zlen (responseQueue d) <= Q + 1;
  po_mem : range (memory d) = range mem0 /\ exists s, refines (memory d) s;
  po_event : match sendResponseEvent d with
             | Some e => e = now /\ Z.b2z sending < zlen (responseQueue d) /\ retryResp d = false
             | None => responseQueue d <> [] -> sending = true \/ retryResp d = true
             end;
  po_retry : retryResp d = true -> responseQueue d <> [] /\ sending = false;
  po_sending : sending = true -> responseQueue d <> [];
  po_account : acc ≡ₚ ans ++ (resp_key <$> responseQueue d) ++ (req_key <$> all_packets (outstandingReads d))
}.

Hypothesis Q_fits : 0 < Q < 4294967295.

Lemma nbrOutstanding_ok s k now pend acc ans d : port_ok s k now pend acc ans d ->
  nbrOutstanding d = nbrOutstandingReads d + nbrOutstandingWrites d + zlen (responseQueue d) /\ 0 <= nbrOutstanding d <= Q + 1.
Proof.
  intros H. unfold nbrOutstanding. pose proof (po_bound _ _ _ _ _ _ _ H). rewrite (po_nr _ _ _ _ _ _ _ H), (po_nw _ _ _ _ _ _ _ H) in *.
  pose proof (zlen_nonneg (all_packets (outstandingReads d))). pose proof (zlen_nonneg (all_packets (outstandingWrites d))).
  pose proof (zlen_nonneg (responseQueue d)). rewrite u32_small by (unfold in_u32; lia). lia.
Qed.

(** [accessAndRespond]: what it changes. *)
Definition with_response (now : Z) (mem' : AbstractMemory) (r : Packet) (d : DRAMSim2 M) : DRAMSim2 M :=
  d <| memory := mem' |> <| responseQueue ::= (fun l => l ++ [r]) |>
    <| sendResponseEvent := if retryResp d then sendResponseEvent d else Some (default now (sendResponseEvent d)) |>.
Definition without_response (mem' : AbstractMemory) (r : Packet) (d : DRAMSim2 M) : DRAMSim2 M :=
  d <| memory := mem' |> <| pendingDelete ::= (fun l => l ++ [r]) |>.

Lemma respond_ok now pkt d : supported pkt -> range (memory d) = range mem0 -> (exists s, refines (memory d) s) ->
  exists mem' r, range mem' = range mem0 /\ (exists s, refines mem' s) /\
    (needsResponse pkt = true -> resp_key r = req_key pkt) /\
    accessAndRespond now pkt d = Ok (if needsResponse pkt then with_response now mem' r d else without_response mem' r d).
Proof.
  intros (Hreq & _ & _ & b & Hleg) Hr [s Hs]. unfold accessAndRespond.
  destruct (access_ok (memory d) s pkt b Hs) as (r & mem' & -> & H1).
  { unfold legal in *. by rewrite Hr. }
  destruct (spec_access pkt b s) as [[s' b'] x]. destruct H1 as (Hs' & (_ & _ & Ea & Es & Ec & Ed) & Hrange). cbn [mbind Res_bind].
  exists mem'. destruct (needsResponse pkt) eqn:En.
  - exists (r <| busFirstWordDelay := 0 |> <| busLastWordDelay := 0 |>). split; [by rewrite Hrange|]. split; [by exists s'|].
    split; [intros _; unfold resp_key, req_key; cbn; by rewrite Ea, Es, Ed|].
    assert (isResponse r = true) as -> by (unfold isResponse; rewrite Ec; by apply response_is_response).
    cbn [guard_assert mbind Res_bind]. destruct d as [dm dw rq rr oR oW nR nW q dr ds sg ev tk pd]. cbn. unfold schedule_response. cbn.
    destruct rr; cbn; [done|]. destruct ev; cbn; done.
  - exists r. split; [by rewrite Hrange|]. split; [by exists s'|]. done.
Qed.

Lemma signal_drain_ok s k now pend acc ans d : port_ok s k now pend acc ans d -> port_ok s k now pend acc ans (signal_drain d).
Proof. intros []. unfold signal_drain. destruct (drainManager d); [destruct (Z.eqb _ _)|]; constructor; assumption. Qed.

(** The event of the responses after one has been added. *)
Lemma event_scheduled (s : bool) now (refused : bool) (e : option Z) (l : list Packet) r :
  match e with
  | Some e => e = now /\ Z.b2z s < zlen l /\ refused = false
  | None => l <> [] -> s = true \/ refused = true
  end -> (refused = true -> l <> [] /\ s = false) -> (s = true -> l <> []) ->
  match (if refused then e else Some (default now e)) with
  | Some e => e = now /\ Z.b2z s < zlen l + 1 /\ refused = false
  | None => l ++ [r] <> [] -> s = true \/ refused = true
  end.
Proof.
  intros He Hr Hs. pose proof (zlen_nonneg l). destruct refused.
  - destruct e; [destruct He as (_ & _ & [=]) | intros _; by right].
  - destruct e as [e|]; change (default now (Some e)) with e || change (default now None) with now.
    + destruct He as (-> & He & _). split; [done|]. split; [lia | done].
    + split; [done|]. split; [|done]. destruct s; [|cbn; lia]. specialize (Hs eq_refl). destruct l; [done|]. rewrite zlen_cons.
      pose proof (zlen_nonneg l). cbn. lia.
Qed.

(** A manager that waits is told of the last answer. *)
Definition drain_ok (d : DRAMSim2 M) : Prop := is_Some (drainManager d) -> 0 < nbrOutstanding d.

Lemma signal_drain_done s k now pend acc ans d : port_ok s k now pend acc ans d -> drain_ok (signal_drain d).
Proof.
  intros H. pose proof (nbrOutstanding_ok _ _ _ _ _ _ _ H) as [_ Hn]. unfold signal_drain, drain_ok.
  destruct (drainManager d) eqn:E; [|by rewrite E; intros []]. destruct (Z.eqb_spec (nbrOutstanding d) 0); [by intros []|]. lia.
Qed.

Lemma response_undrained s k now pend acc ans d : port_ok s k now pend acc ans d -> responseQueue d <> [] -> drain_ok d.
Proof.
  intros H Hne _. destruct (nbrOutstanding_ok _ _ _ _ _ _ _ H) as [-> _]. rewrite (po_nr _ _ _ _ _ _ _ H), (po_nw _ _ _ _ _ _ _ H).
  destruct (responseQueue d) as [|r l]; [done|]. rewrite zlen_cons. pose proof (zlen_nonneg l).
  pose proof (zlen_nonneg (all_packets (outstandingReads d))). pose proof (zlen_nonneg (all_packets (outstandingWrites d))). lia.
Qed.

Lemma packet_undrained s k now pend acc ans d x : port_ok s k now pend acc ans d ->
  x ∈ all_packets (outstandingReads d) \/ x ∈ all_packets (outstandingWrites d) -> drain_ok d.
Proof.
  intros H Hx _. destruct (nbrOutstanding_ok _ _ _ _ _ _ _ H) as [-> _]. rewrite (po_nr _ _ _ _ _ _ _ H), (po_nw _ _ _ _ _ _ _ H).
  pose proof (zlen_nonneg (responseQueue d)).
  pose proof (zlen_nonneg (all_packets (outstandingReads d))). pose proof (zlen_nonneg (all_packets (outstandingWrites d))).
  destruct Hx as [Hx|Hx]; apply elem_of_Permutation in Hx as [l Hl]; rewrite Hl, zlen_cons in *; pose proof (zlen_nonneg l); lia.
Qed.

Lemma and_with (A B : Prop) : A -> (A -> B) -> A /\ B.
Proof. tauto. Qed.

(** A completed read is answered; the packet is one of those outstanding for
    the address. *)
Lemma readComplete_ok s k now a cycle pend acc ans d :
  port_ok s k now ((a, true) :: pend) acc ans d -> dram_cycle ns now period = cycle ->
  exists d', readComplete ns now a cycle d = Ok d' /\ port_ok s k now pend acc ans d' /\ drain_ok d' /\ tickEvent d' = tickEvent d /\ retryReq d' = retryReq d.
Proof.
  intros H Hc. pose proof (nbrOutstanding_ok _ _ _ _ _ _ _ H) as [_ Hn].
  destruct H as [Hsim Hper Hq Hheld Hrk Hwk Hrd Hnr Hnw Hb [Hmr Hms] Hev Hre Hse Hacc].
  assert (a ∈ addr <$> all_packets (outstandingReads d)) as Ha.
  { assert ((a, true) ∈ ds_held (wrapper d) ++ (a, true) :: pend) as Hin by (rewrite elem_of_app; right; left).
    rewrite Hheld, elem_of_app in Hin. destruct Hin as [Hin|Hin]; apply list_elem_of_fmap in Hin as (x & Ex & Hx); [|done].
    injection Ex as ->. apply list_elem_of_fmap. by exists x. }
  unfold readComplete. rewrite Hper, Hc, Z.eqb_refl. cbn [guard_assert mbind Res_bind].
  destruct (take_first_ok _ a Hrk Ha) as (x & q & -> & Ex & Hall & Hk). cbn [mbind Res_bind].
  assert (nbrOutstandingReads d <> 0) as Hnz by (rewrite Hnr, Hall, zlen_cons; pose proof (zlen_nonneg (all_packets q)); lia).
  change (nbrOutstandingReads (d <| outstandingReads := q |>)) with (nbrOutstandingReads d).
  rewrite (proj2 (Z.eqb_neq _ _) Hnz). cbn [negb guard_assert mbind Res_bind].
  destruct (Hrd x) as [Hsup Hisr]; [rewrite Hall; left|].
  set (d1 := (d <| outstandingReads := q |>) <| nbrOutstandingReads ::= fun n => u32 (n - 1) |>).
  destruct (respond_ok now x d1 Hsup Hmr Hms) as (mem' & r & Hr' & Hs' & Hkey & ->).
  assert (needsResponse x = true) as Hnx by (apply read_needs_response; [apply Hsup | done]). specialize (Hkey Hnx). rewrite Hnx.
  eexists. split; [done|]. apply and_with; [|intros H'; split; [apply (response_undrained _ _ _ _ _ _ _ H'); cbn; by destruct (responseQueue d) | done]].
  pose proof (zlen_nonneg (all_packets q)) as Hz. rewrite Hall, zlen_cons in Hnr.
  assert (zlen (all_packets (outstandingWrites d)) >= 0) by (pose proof (zlen_nonneg (all_packets (outstandingWrites d))); lia).
  pose proof (zlen_nonneg (responseQueue d)) as Hzr.
  constructor; cbn; try done.
  - apply (Permutation_cons_inv (a := (a, true))). rewrite <- Permutation_middle in Hheld. rewrite Hheld, Hall. cbn. by rewrite Ex.
  - intros y Hy. apply Hrd. rewrite Hall. by right.
  - rewrite Hnr, u32_small by (unfold in_u32; lia). lia.
  - rewrite zlen_snoc, Hnr, u32_small by (unfold in_u32; lia). lia.
  - rewrite zlen_snoc. apply (event_scheduled s now (retryResp d) (sendResponseEvent d)); done.
  - intros E. split; [by destruct (responseQueue d) | by apply Hre].
  - intros _. by destruct (responseQueue d).
  - rewrite Hacc, Hall, fmap_app. cbn. rewrite Hkey. solve_Permutation.
Qed.

Lemma writeComplete_ok s k now a cycle pend acc ans d :
  port_ok s k now ((a, false) :: pend) acc ans d -> dram_cycle ns now period = cycle ->
  exists d', writeComplete ns now a cycle d = Ok d' /\ port_ok s k now pend acc ans d' /\ drain_ok d' /\ tickEvent d' = tickEvent d /\ retryReq d' = retryReq d.
Proof.
  intros H Hc. pose proof (nbrOutstanding_ok _ _ _ _ _ _ _ H) as [_ Hn].
  destruct H as [Hsim Hper Hq Hheld Hrk Hwk Hrd Hnr Hnw Hb Hmem Hev Hre Hse Hacc].
  assert (a ∈ addr <$> all_packets (outstandingWrites d)) as Ha.
  { assert ((a, false) ∈ ds_held (wrapper d) ++ (a, false) :: pend) as Hin by (rewrite elem_of_app; right; left).
    rewrite Hheld, elem_of_app in Hin. destruct Hin as [Hin|Hin]; apply list_elem_of_fmap in Hin as (x & Ex & Hx); [done|].
    injection Ex as ->. apply list_elem_of_fmap. by exists x. }
  unfold writeComplete. rewrite Hper, Hc, Z.eqb_refl. cbn [guard_assert mbind Res_bind].
  destruct (take_first_ok _ a Hwk Ha) as (x & q & -> & Ex & Hall & Hk). cbn [mbind Res_bind].
  assert (nbrOutstandingWrites d <> 0) as Hnz by (rewrite Hnw, Hall, zlen_cons; pose proof (zlen_nonneg (all_packets q)); lia).
  change (nbrOutstandingWrites (d <| outstandingWrites := q |>)) with (nbrOutstandingWrites d).
  rewrite (proj2 (Z.eqb_neq _ _) Hnz). cbn [negb guard_assert mbind Res_bind].
  eexists. split; [done|]. pose proof (zlen_nonneg (all_packets q)) as Hz. rewrite Hall, zlen_cons in Hnw.
  pose proof (zlen_nonneg (responseQueue d)) as Hzr. pose proof (zlen_nonneg (all_packets (outstandingReads d))).
  match goal with |- context [signal_drain ?x] => set (d1 := x) end.
  assert (port_ok s k now pend acc ans d1) as H1;
    [|split; [by apply signal_drain_ok|]; split; [by eapply signal_drain_done | unfold signal_drain; destruct (drainManager _); [destruct (Z.eqb _ _)|]; done]].
  unfold d1. constructor; cbn; try done.
  - apply (Permutation_cons_inv (a := (a, false))). rewrite <- Permutation_middle in Hheld. rewrite Hheld, Hall. cbn. rewrite Ex. solve_Permutation.
  - rewrite Hnw, u32_small by (unfold in_u32; lia). lia.
  - rewrite Hnw, u32_small by (unfold in_u32; lia). lia.
Qed.

Lemma completions_ok s k now calls : forall pend acc ans d,
  port_ok s k now ((call_held <$> calls) ++ pend) acc ans d -> drain_ok d -> Forall (fun c => cycle_of c = dram_cycle ns now period) calls ->
  exists d', foldM (complete ns now) d calls = Ok d' /\ port_ok s k now pend acc ans d' /\ drain_ok d' /\ tickEvent d' = tickEvent d /\ retryReq d' = retryReq d.
Proof.
  induction calls as [|c calls IH]; intros pend acc ans d H Hd Hc; [by exists d|]. apply Forall_cons in Hc as [Hc1 Hc2]. cbn [foldM].
  assert (exists d1, complete ns now d c = Ok d1 /\ port_ok s k now ((call_held <$> calls) ++ pend) acc ans d1 /\ drain_ok d1 /\ tickEvent d1 = tickEvent d /\ retryReq d1 = retryReq d)
    as (d1 & -> & H1 & Hd1 & E1 & E2).
  { destruct c as [id a cy st si|id a cy st si]; cbn in Hc1 |- *; [by apply readComplete_ok | by apply writeComplete_ok]. }
  cbn [mbind Res_bind]. destruct (IH _ _ _ _ H1 Hd1 Hc2) as (d2 & -> & H2 & Hd2 & E3 & E4). exists d2.
  split; [done|]. split; [done|]. split; [done|]. by rewrite E3, E4.
Qed.

(** ** Requests *)

(** What the master may send: requests that the memory supports, and those
    that a cache answers. *)
Definition admissible (pkt : Packet) : Prop := supported pkt \/ memInhibitAsserted pkt = true.

(** The account of a request after its answer. *)
Definition accepted (pkt : Packet) (b : bool) : list (Z * Z * Z) :=
  if b && negb (memInhibitAsserted pkt) && needsResponse pkt then [req_key pkt] else [].

Lemma supported_addr pkt : supported pkt -> getAddr pkt = Ok (addr pkt) /\ in_u64 (addr pkt) /\ memInhibitAsserted pkt = false /\
  (isRead pkt = true -> isWrite pkt = false).
Proof.
  intros (_ & Hns & _ & b & (Hva & _ & _ & _ & _ & Hs & Ha & He) & _ & Hmi & _ & _ & _ & Hc). unfold getAddr. rewrite Hva.
  split; [done|]. split; [unfold in_u64; lia|]. split; [done|]. rewrite bool_decide_eq_false_2 in Hc by done. intros E.
  destruct Hc as [Hc _]. rewrite E in Hc. by destruct (isWrite pkt).
Qed.

Lemma held_room s k now acc ans d : port_ok s k now [] acc ans d -> nbrOutstanding d < Q -> zlen (ds_held (wrapper d)) < ds_queueSize (wrapper d).
Proof.
  intros H Hn. destruct (nbrOutstanding_ok _ _ _ _ _ _ _ H) as [E _]. rewrite (po_depth _ _ _ _ _ _ _ H).
  pose proof (po_held _ _ _ _ _ _ _ H) as Hh. rewrite app_nil_r in Hh. rewrite Hh, zlen_app, !zlen_fmap.
  pose proof (zlen_nonneg (responseQueue d)). rewrite (po_nr _ _ _ _ _ _ _ H), (po_nw _ _ _ _ _ _ _ H) in E. lia.
Qed.

(** A request is accepted exactly when a cache answers it or there is room. *)
Lemma recvTimingReq_ok s k now acc ans d pkt :
  port_ok s k now [] acc ans d -> drain_ok d -> retryReq d = false -> admissible pkt ->
  exists d', let b := memInhibitAsserted pkt || Z.ltb (nbrOutstanding d) Q in
    recvTimingReq now pkt d = Ok (b, d') /\ port_ok s k now [] (accepted pkt b ++ acc) ans d' /\
    retryReq d' = negb b /\ tickEvent d' = tickEvent d /\ (exists l, responseQueue d' = responseQueue d ++ l) /\ drain_ok d'.
Proof.
  intros H Hd Hrq Hadm. unfold recvTimingReq, accepted. rewrite Hrq. cbn [negb guard_assert mbind Res_bind].
  destruct (memInhibitAsserted pkt) eqn:Emi; cbn [orb andb negb].
  { eexists. split; [done|]. split; [destruct H; by constructor|]. split; [done|]. split; [done|]. split; [exists []; by rewrite app_nil_r | done]. }
  destruct Hadm as [Hsup|]; [|congruence]. destruct (supported_addr _ Hsup) as (Ega & Hau & _ & Hrw).
  pose proof (held_room _ _ _ _ _ _ H) as Hroom. pose proof (nbrOutstanding_ok _ _ _ _ _ _ _ H) as [En Hn0].
  change (nbrOutstanding (d <| pendingDelete := [] |>)) with (nbrOutstanding d).
  change (wrapper (d <| pendingDelete := [] |>)) with (wrapper d).
  rewrite (po_depth _ _ _ _ _ _ _ H) in *. destruct (Z.ltb_spec (nbrOutstanding d) Q) as [Hlt|Hge].
  2:{ exists (d <| pendingDelete := [] |> <| retryReq := true |>). cbn [andb negb].
      split; [destruct Hsup as (_ & _ & Hrw2 & _); destruct (isRead pkt); [done|]; by destruct (isWrite pkt)|].
      split; [destruct H; by constructor|]. split; [done|]. split; [done|]. split; [exists []; by rewrite app_nil_r | done]. }
  specialize (Hroom Hlt). cbn [andb negb].
  destruct H as [Hsim Hper Hq Hheld Hrk Hwk Hrd Hnr Hnw Hb [Hmr Hms] Hev Hre Hse Hacc]. rewrite app_nil_r in Hheld.
  pose proof (zlen_nonneg (all_packets (outstandingReads d))) as Hz1. pose proof (zlen_nonneg (all_packets (outstandingWrites d))) as Hz2.
  pose proof (zlen_nonneg (responseQueue d)) as Hz3.
  pose proof (law_canAccept k (wrapper d) Hsim) as Hca. rewrite Hq in Hca. specialize (Hca Hroom).
  destruct (law_enqueue k (wrapper d) (isWrite pkt) (addr pkt) Hau Hsim) as (m' & Hm' & Hok' & Hh' & Hq' & Hp').
  destruct (isRead pkt) eqn:Er.
  - rewrite Ega. cbn [mbind Res_bind]. change (wrapper (_ <| nbrOutstandingReads ::= _ |>)) with (wrapper d).
    rewrite Hca. cbn [guard_assert mbind Res_bind]. rewrite Hm'. cbn [mbind Res_bind]. rewrite (Hrw eq_refl) in *.
    rewrite (read_needs_response pkt (proj1 Hsup) Er).
    eexists. split; [done|]. apply and_with; [|intros H'; split; [done|]; split; [done|]; split; [exists []; by rewrite app_nil_r|];
      apply (packet_undrained _ _ _ _ _ _ _ pkt H'); left; cbn; rewrite push_packets; left].
    constructor; cbn; try done.
    + by rewrite Hp'.
    + by rewrite Hq'.
    + rewrite app_nil_r, Hh', Hheld, push_packets. done.
    + by apply push_keyed.
    + intros x Hx. rewrite push_packets in Hx. apply elem_of_cons in Hx as [->|Hx]; [done | by apply Hrd].
    + rewrite push_packets, zlen_cons, Hnr, u32_small by (unfold in_u32; lia). lia.
    + rewrite Hnr, u32_small by (unfold in_u32; lia). lia.
    + rewrite push_packets, Hacc. cbn. solve_Permutation.
  - assert (isWrite pkt = true) as Ew by (destruct Hsup as (_ & _ & Ew & _); by rewrite Er in Ew).
    rewrite Ew in Hm', Hh' |- *. rewrite Ega. cbn [mbind Res_bind].
    match goal with |- context [accessAndRespond now pkt ?x] => set (d1 := x) end.
    destruct (respond_ok now pkt d1 Hsup Hmr Hms) as (mem' & r & Hr' & Hs' & Hkey & ->). cbn [mbind Res_bind].
    destruct (needsResponse pkt) eqn:Ene.
    + specialize (Hkey eq_refl). change (wrapper (with_response now mem' r d1)) with (wrapper d).
      rewrite Hca. cbn [guard_assert mbind Res_bind]. rewrite Hm'. cbn [mbind Res_bind].
      eexists. split; [done|]. apply and_with; [|intros H'; split; [done|]; split; [done|]; split; [by exists [r]|];
        apply (packet_undrained _ _ _ _ _ _ _ pkt H'); right; cbn; rewrite push_packets; left].
      constructor; cbn; try done.
      * by rewrite Hp'.
      * by rewrite Hq'.
      * rewrite app_nil_r, Hh', Hheld, push_packets. cbn. solve_Permutation.
      * by apply push_keyed.
      * rewrite push_packets, zlen_cons, Hnw, u32_small by (unfold in_u32; lia). lia.
      * rewrite zlen_snoc, Hnw, u32_small by (unfold in_u32; lia). lia.
      * rewrite zlen_snoc. by apply event_scheduled.
      * intros E. split; [by destruct (responseQueue d) | by apply Hre].
      * intros _. by destruct (responseQueue d).
      * rewrite Hacc, fmap_app. cbn. rewrite Hkey. solve_Permutation.
    + change (wrapper (without_response mem' r d1)) with (wrapper d).
      rewrite Hca. cbn [guard_assert mbind Res_bind]. rewrite Hm'. cbn [mbind Res_bind].
      eexists. split; [done|]. apply and_with; [|intros H'; split; [done|]; split; [done|]; split; [exists []; by rewrite app_nil_r|];
        apply (packet_undrained _ _ _ _ _ _ _ pkt H'); right; cbn; rewrite push_packets; left].
      constructor; cbn; try done.
      * by rewrite Hp'.
      * by rewrite Hq'.
      * rewrite app_nil_r, Hh', Hheld, push_packets. cbn. solve_Permutation.
      * by apply push_keyed.
      * rewrite push_packets, zlen_cons, Hnw, u32_small by (unfold in_u32; lia). lia.
      * rewrite Hnw, u32_small by (unfold in_u32; lia). lia.
Qed.

(** ** The master *)

(** Requests sent one after the other, each when no retry is due; a failure
    is the port's. *)
Inductive asked (now : Z) : DRAMSim2 M -> list (Z * Z * Z) -> Res (DRAMSim2 M) -> Prop :=
  | asked_none d : asked now d [] (Ok d)
  | asked_fails d pkt e : retryReq d = false -> admissible pkt -> recvTimingReq now pkt d = Err e -> asked now d [] (Err e)
  | asked_more d pkt b d1 l r : retryReq d = false -> admissible pkt -> recvTimingReq now pkt d = Ok (b, d1) ->
      asked now d1 l r -> asked now d (l ++ accepted pkt b) r.

(** A master keeps an account of the requests that were accepted and of those
    that it has taken an answer for; it may send requests from its own events,
    when it takes a response and when it is told to retry. *)
Class MasterLaws := {
  m_ok : W -> Prop;
  m_asked : W -> list (Z * Z * Z);
  m_answered : W -> list (Z * Z * Z);
  m_act : Z -> DRAMSim2 M * W -> Res (DRAMSim2 M * W);
  law_resp now pkt d w : m_ok w -> exists b l r w',
    sendTimingResp now pkt (d, w) = (d' ← r; Ok (b, (d', w'))) /\ asked now d l r /\ (b = false -> l = [] /\ r = Ok d) /\
    m_ok w' /\ m_asked w' = l ++ m_asked w /\ m_answered w' = (if b : bool then [resp_key pkt] else []) ++ m_answered w;
  law_retry now d w : m_ok w -> exists l r w',
    sendRetry now (d, w) = (d' ← r; Ok (d', w')) /\ asked now d l r /\
    m_ok w' /\ m_asked w' = l ++ m_asked w /\ m_answered w' = m_answered w;
  law_act now d w : m_ok w -> exists l r w',
    m_act now (d, w) = (d' ← r; Ok (d', w')) /\ asked now d l r /\
    m_ok w' /\ m_asked w' = l ++ m_asked w /\ m_answered w' = m_answered w
}.

Lemma asked_ok s k now acc ans d l r : asked now d l r -> port_ok s k now [] acc ans d -> drain_ok d ->
  exists d', r = Ok d' /\ port_ok s k now [] (l ++ acc) ans d' /\ drain_ok d' /\ tickEvent d' = tickEvent d /\
    exists rs, responseQueue d' = responseQueue d ++ rs.
Proof.
  intros Ha. revert acc. induction Ha as [d | d pkt e Hr Hadm E | d pkt b d1 l r Hr Hadm E Ha IH]; intros acc H Hd.
  - exists d. repeat (split; [done|]). exists []. by rewrite app_nil_r.
  - destruct (recvTimingReq_ok _ _ _ _ _ _ _ H Hd Hr Hadm) as (d' & E' & _). congruence.
  - destruct (recvTimingReq_ok _ _ _ _ _ _ _ H Hd Hr Hadm) as (d' & E' & H1 & _ & Et & (rs & Ers) & Hd1).
    rewrite E in E'. injection E' as -> ->. destruct (IH _ H1 Hd1) as (d2 & -> & H2 & Hd2 & Et2 & rs2 & Ers2).
    exists d2. split; [done|]. rewrite <- app_assoc. split; [done|]. split; [done|]. split; [by rewrite Et2|].
    exists (rs ++ rs2). by rewrite Ers2, Ers, app_assoc.
Qed.

Context `{Master_laws : MasterLaws}.

(** The response at the head has been taken. *)
Definition next_response (now : Z) (d : DRAMSim2 M) : Res (DRAMSim2 M) :=
  let d := d <| responseQueue ::= tail |> in
  if negb (bool_decide (responseQueue d = [])) && bool_decide (sendResponseEvent d = None) then schedule_response now d else Ok d.

Lemma next_response_ok k now acc ans d pkt rest : port_ok true k now [] acc ans d -> responseQueue d = pkt :: rest ->
  exists d', next_response now d = Ok d' /\ port_ok false k now [] acc (resp_key pkt :: ans) d' /\ tickEvent d' = tickEvent d.
Proof.
  intros [Hsim Hper Hq Hheld Hrk Hwk Hrd Hnr Hnw Hb Hmem Hev Hre Hse Hacc] Ers. rewrite Ers in *.
  pose proof (zlen_nonneg rest) as Hz. rewrite zlen_cons in *. cbn [Z.b2z] in Hev.
  assert (retryResp d = false) as Hrr by (destruct (retryResp d); [destruct (Hre eq_refl); done | done]).
  assert (forall e, match e with Some e => e = now /\ rest <> [] | None => rest = [] end ->
    port_ok false k now [] acc (resp_key pkt :: ans) (d <| responseQueue ::= tail |> <| sendResponseEvent := e |>)) as Hgen.
  { intros e He. constructor; cbn; rewrite ?Ers; cbn [tail]; try done.
    - lia.
    - destruct e as [e|]; [destruct He as [-> He] | intros; done]. split; [done|]. split; [|done]. destruct rest as [|r l]; [done|].
      rewrite zlen_cons in *. pose proof (zlen_nonneg l). cbn. lia.
    - by rewrite Hrr.
    - rewrite Hacc. cbn. solve_Permutation. }
  assert (forall e, sendResponseEvent d = e -> d <| responseQueue ::= tail |> = d <| responseQueue ::= tail |> <| sendResponseEvent := e |>) as Hself
    by (clear; intros e <-; by destruct d).
  unfold next_response. cbn [upd_field set_responseQueue responseQueue sendResponseEvent]. rewrite Ers. cbn [tail].
  destruct (bool_decide_reflect (rest = [])) as [E0|E0]; cbn [negb andb].
  - eexists. split; [done|]. split; [|done]. destruct (sendResponseEvent d) eqn:Ee; [rewrite E0 in Hev; by destruct Hev as (_ & Hev & _)|].
    rewrite (Hself None) by done. by apply Hgen.
  - destruct (sendResponseEvent d) as [e|] eqn:Ee.
    + eexists. split; [done|]. split; [|done]. rewrite (Hself (Some e)) by done. apply Hgen. by destruct Hev.
    + unfold schedule_response. cbn [upd_field set_responseQueue sendResponseEvent]. rewrite Ee. cbn. eexists. split; [done|].
      split; [by apply Hgen | done].
Qed.

Lemma tick_of_signal d : tickEvent (signal_drain d) = tickEvent d.
Proof. unfold signal_drain. destruct (drainManager d); [destruct (Z.eqb _ _)|]; done. Qed.

(** The response at the head is sent again and again until it is taken. *)
Lemma sendResponse_ok k now d w : port_ok true k now [] (m_asked w) (m_answered w) d -> drain_ok d -> m_ok w ->
  retryResp d = false -> sendResponseEvent d = None ->
  exists d' w', sendResponse now (d, w) = Ok (d', w') /\ port_ok false k now [] (m_asked w') (m_answered w') d' /\ drain_ok d' /\
    m_ok w' /\ tickEvent d' = tickEvent d.
Proof.
  intros H Hd Hw Hrr Hev. unfold sendResponse. cbn [fst]. rewrite Hrr. cbn [negb guard_assert mbind Res_bind].
  pose proof (po_sending _ _ _ _ _ _ _ H eq_refl) as Hne. destruct (responseQueue d) as [|pkt rest] eqn:Eq; [done|].
  destruct (law_resp now pkt d w Hw) as (b & l & r & w' & -> & Hask & Hno & Hw' & Eas & Ean).
  destruct (asked_ok _ _ _ _ _ _ _ _ Hask H Hd) as (d1 & -> & H1 & Hd1 & Et & rs & Ers). cbn [mbind Res_bind].
  rewrite Eq in Ers. rewrite <- Eas in H1. destruct b.
  - destruct (next_response_ok _ _ _ _ _ _ _ H1 Ers) as (d2 & E2 & H2 & Et2). unfold next_response in E2. cbn zeta. rewrite E2.
    cbn [mbind Res_bind]. exists (signal_drain d2), w'. rewrite Ean. split; [done|]. split; [by apply signal_drain_ok|].
    split; [by eapply signal_drain_done|]. split; [done|]. by rewrite tick_of_signal, Et2.
  - destruct (Hno eq_refl) as [-> [= <-]]. cbn. rewrite Hev. cbn. eexists _, _. split; [done|]. split; [|done]. rewrite Ean.
    destruct H1 as [Hsim Hper Hq Hheld Hrk Hwk Hrd Hnr Hnw Hb Hmem Hev1 Hre Hse Hacc]. constructor; cbn; try done.
    + rewrite Hev. by right.
    + intros _. split; [by rewrite Eq | done].
Qed.

(** The event of the responses, and the master's retry. *)
Lemma respond_event_ok k now d w : port_ok false k now [] (m_asked w) (m_answered w) d -> drain_ok d -> m_ok w ->
  sendResponseEvent d <> None ->
  exists d' w', sendResponse now (d <| sendResponseEvent := None |>, w) = Ok (d', w') /\
    port_ok false k now [] (m_asked w') (m_answered w') d' /\ drain_ok d' /\ m_ok w' /\ tickEvent d' = tickEvent d.
Proof.
  intros H Hd Hw He. destruct H as [Hsim Hper Hq Hheld Hrk Hwk Hrd Hnr Hnw Hb Hmem Hev Hre Hse Hacc].
  destruct (sendResponseEvent d) as [e|] eqn:Ee; [|done]. destruct Hev as (-> & Hlen & Hrr).
  assert (responseQueue d <> []) as Hne by (by intros E; rewrite E in Hlen).
  change (tickEvent d) with (tickEvent (d <| sendResponseEvent := None |>)). apply (sendResponse_ok k); try done. constructor; cbn; try done.
  - intros _. by left.
  - by rewrite Hrr.
Qed.

Lemma recvRetry_ok k now d w : port_ok false k now [] (m_asked w) (m_answered w) d -> drain_ok d -> m_ok w -> retryResp d = true ->
  exists d' w', recvRetry now (d, w) = Ok (d', w') /\
    port_ok false k now [] (m_asked w') (m_answered w') d' /\ drain_ok d' /\ m_ok w' /\ tickEvent d' = tickEvent d.
Proof.
  intros H Hd Hw Hrr. unfold recvRetry. cbn [fst snd]. rewrite Hrr. cbn [guard_assert mbind Res_bind].
  destruct H as [Hsim Hper Hq Hheld Hrk Hwk Hrd Hnr Hnw Hb Hmem Hev Hre Hse Hacc]. destruct (Hre Hrr) as [Hne _].
  assert (sendResponseEvent d = None) as Ee by (destruct (sendResponseEvent d); [destruct Hev as (_ & _ & E); congruence | done]).
  change (tickEvent d) with (tickEvent (d <| retryResp := false |>)). apply (sendResponse_ok k); try done. constructor; cbn; try done.
  rewrite Ee. intros _. by left.
Qed.

(** A tick at the start of its cycle. *)
Context (whole_period : F64.mul period (F64.of_Z ns) = F64.of_Z p).
Context (p_range : 1 < p) (N_fits : (N + 1) * p < 2 ^ 52).

Lemma clock_exact k : 0 <= k < N -> dram_cycle ns (k * p) period = k /\ next_tick ns (k * p) period = (k + 1) * p.
Proof using whole_period p_range N_fits.
  intros Hk. apply dram_clock; [done | done | lia | nia].
Qed.

Lemma port_tick_ok k d w : 0 <= k < N -> port_ok false k (k * p) [] (m_asked w) (m_answered w) d -> drain_ok d -> m_ok w -> tickEvent d = None ->
  exists d' w', tick ns (k * p) (d, w) = Ok (d', w') /\ port_ok false (k + 1) (k * p) [] (m_asked w') (m_answered w') d' /\
    drain_ok d' /\ m_ok w' /\ tickEvent d' = Some ((k + 1) * p).
Proof.
  intros Hk H Hd Hw Et. destruct (clock_exact k Hk) as [Hcyc Hnext]. unfold tick.
  destruct (law_tick k (wrapper d)) as (m & calls & -> & Hok & Hheld' & Hcalls & Eq & Ep); [nia | apply H|]. cbn [mbind Res_bind].
  assert (port_ok false (k + 1) (k * p) ((call_held <$> calls) ++ []) (m_asked w) (m_answered w) (d <| wrapper := m |>)) as H1.
  { destruct H as [Hsim Hper Hq Hheld Hrk Hwk Hrd Hnr Hnw Hb Hmem Hev Hre Hse Hacc]. constructor; cbn; try done; [by rewrite Ep | by rewrite Eq|].
    rewrite app_nil_r. rewrite app_nil_r in Hheld. by rewrite <- Hheld'. }
  destruct (completions_ok _ _ _ _ _ _ _ _ H1 Hd) as (d2 & -> & H2 & Hd2 & Et2 & _).
  { rewrite Hcyc. exact Hcalls. }
  cbn [mbind Res_bind]. change (tickEvent (d <| wrapper := m |>)) with (tickEvent d) in Et2.
  assert (exists d3 w3, (if retryReq d2 && Z.ltb (nbrOutstanding d2) (ds_queueSize (wrapper d2))
             then sendRetry (k * p) (d2 <| retryReq := false |>, w) else Ok (d2, w)) = Ok (d3, w3) /\
    port_ok false (k + 1) (k * p) [] (m_asked w3) (m_answered w3) d3 /\ drain_ok d3 /\ m_ok w3 /\ tickEvent d3 = None)
    as (d3 & w3 & -> & H3 & Hd3 & Hw3 & Et3).
  { destruct (retryReq d2 && _); [|exists d2, w; by rewrite Et2].
    assert (port_ok false (k + 1) (k * p) [] (m_asked w) (m_answered w) (d2 <| retryReq := false |>)) as H2' by (destruct H2; by constructor).
    destruct (law_retry (k * p) (d2 <| retryReq := false |>) w Hw) as (l & r & w3 & -> & Hask & Hw3 & Eas & Ean).
    destruct (asked_ok _ _ _ _ _ _ _ _ Hask H2' Hd2) as (d3 & -> & H3 & Hd3 & Et3 & _). rewrite <- Eas, <- Ean in H3.
    exists d3, w3. split; [done|]. split; [done|]. split; [done|]. split; [done|]. rewrite Et3. cbn. by rewrite Et2. }
  cbn [mbind Res_bind]. unfold schedule_tick. rewrite (po_period _ _ _ _ _ _ _ H3), Hnext, Et3.
  rewrite (bool_decide_eq_true_2 (k * p <= (k + 1) * p)) by nia. cbn. eexists _, _. split; [done|]. split; [destruct H3; by constructor | done].
Qed.

(** ** Runs

    The master acts, the two events are processed, the master retries a
    response that it refused, a manager asks to drain, time passes up to the
    next event. *)

Inductive Op := Act | Respond | Retry | Tick | Drain (dm : positive) | Wait (t : Z).

Definition enabled (now : Z) d (op : Op) : bool :=
  match op with
  | Act | Drain _ => true
  | Respond => bool_decide (sendResponseEvent d = Some now)
  | Retry => retryResp d
  | Tick => bool_decide (tickEvent d = Some now)
  | Wait t => bool_decide (now < t) && bool_decide (sendResponseEvent d = None) && bool_decide (t <= default t (tickEvent d))
  end.

Definition run_op (now : Z) (op : Op) (s : DRAMSim2 M * W) : Res (Z * (DRAMSim2 M * W)) :=
  match op with
  | Act => s ← m_act now s; Ok (now, s)
  | Respond => s ← sendResponse now (s.1 <| sendResponseEvent := None |>, s.2); Ok (now, s)
  | Retry => s ← recvRetry now s; Ok (now, s)
  | Tick => s ← tick ns now (s.1 <| tickEvent := None |>, s.2); Ok (now, s)
  | Drain dm => Ok (now, ((drain dm s.1).2, s.2))
  | Wait t => Ok (t, s)
  end.

Inductive reach (s0 : DRAMSim2 M * W) : Z -> DRAMSim2 M * W -> Prop :=
  | reach_start : reach s0 0 s0
  | reach_op now s op now' s' : reach s0 now s -> enabled now s.1 op = true -> run_op now op s = Ok (now', s') -> reach s0 now' s'.

Definition run_ok (now : Z) (s : DRAMSim2 M * W) : Prop :=
  exists k, 0 <= k /\ port_ok false k now [] (m_asked s.2) (m_answered s.2) s.1 /\ drain_ok s.1 /\ m_ok s.2 /\
    tickEvent s.1 = Some (k * p) /\ now <= k * p.

Lemma drain_port_ok k now acc ans dm d : port_ok false k now [] acc ans d -> drain_ok d ->
  port_ok false k now [] acc ans (drain dm d).2 /\ drain_ok (drain dm d).2 /\ tickEvent (drain dm d).2 = tickEvent d.
Proof.
  intros H Hd. pose proof (nbrOutstanding_ok _ _ _ _ _ _ _ H) as [_ Hn]. unfold drain.
  destruct (Z.eqb_spec (nbrOutstanding d) 0); cbn [negb snd]; (split; [destruct H; by constructor|]; split; [|done]); [exact Hd|].
  intros _. change (0 < nbrOutstanding d). lia.
Qed.

(** An enabled operation succeeds, and no time is lost. *)
Lemma run_op_ok now op s : run_ok now s -> now < N * p -> enabled now s.1 op = true ->
  exists now' s', run_op now op s = Ok (now', s') /\ run_ok now' s' /\ now <= now'.
Proof.
  destruct s as [d w]. intros (k & Hk & H & Hd & Hw & Et & Hnow) HN He. cbn [fst snd] in *. destruct op as [| | | |dm|t]; cbn in He; cbn [run_op fst snd].
  - destruct (law_act now d w Hw) as (l & r & w' & -> & Hask & Hw' & Eas & Ean).
    destruct (asked_ok _ _ _ _ _ _ _ _ Hask H Hd) as (d' & -> & H' & Hd' & Et' & _). rewrite <- Eas, <- Ean in H'.
    cbn [mbind Res_bind]. eexists _, _. split; [done|]. split; [|lia]. exists k. cbn. rewrite Et'. done.
  - apply bool_decide_eq_true in He. destruct (respond_event_ok k now d w H Hd Hw) as (d' & w' & -> & H' & Hd' & Hw' & Et'); [congruence|].
    cbn [mbind Res_bind]. eexists _, _. split; [done|]. split; [|lia]. exists k. cbn. rewrite Et'. done.
  - destruct (recvRetry_ok k now d w H Hd Hw He) as (d' & w' & -> & H' & Hd' & Hw' & Et').
    cbn [mbind Res_bind]. eexists _, _. split; [done|]. split; [|lia]. exists k. cbn. rewrite Et'. done.
  - apply bool_decide_eq_true in He. rewrite Et in He. injection He as <-.
    assert (port_ok false k (k * p) [] (m_asked w) (m_answered w) (d <| tickEvent := None |>)) as H1 by (destruct H; by constructor).
    destruct (port_tick_ok k (d <| tickEvent := None |>) w ltac:(nia) H1 Hd Hw eq_refl) as (d' & w' & -> & H' & Hd' & Hw' & Et').
    cbn [mbind Res_bind]. eexists _, _. split; [done|]. split; [|lia]. exists (k + 1). cbn. rewrite Et'.
    split; [lia|]. split; [done|]. split; [done|]. split; [done|]. split; [done | lia].
  - destruct (drain_port_ok _ _ _ _ dm _ H Hd) as (H1 & Hd1 & Et1). eexists _, _. split; [done|]. split; [|lia].
    exists k. cbn [fst snd]. by rewrite Et1.
  - apply andb_prop in He as [He1 Ht]. apply andb_prop in He1 as [Hlt Hne]. rewrite !bool_decide_eq_true in *. rewrite Et in Ht.
    change (default t (Some (k * p))) with (k * p) in Ht. eexists _, _. split; [done|]. split; [|lia]. exists k. cbn [fst snd].
    split; [done|]. split; [|by repeat split].
    destruct H as [Hsim Hper Hq Hheld Hrk Hwk Hrd Hnr Hnw Hb Hmem Hev Hre Hse Hacc]. constructor; try done. by rewrite Hne in *.
Qed.

End Port.

End DramPortSafety.
