(* ===== verification/DramPortTheorems.v ===== *)
(** * What the memory object promises ([mem/dramsim2.cc])

    The theorem on runs of the object, for any simulator and any master that
    keep their laws, and a run over the wrapper of the multi-channel memory. *)

From S2P Require Import Prelude.
From stdpp Require Import gmap.
From S2P Require Import DramConfig.
From S2P Require Import MemoryController.
From S2P Require Import MultiChannel.
From S2P Require Import MultiChannelSafety.
From S2P Require Import GemMemory.
From S2P Require Import MemoryFlow.
From S2P Require Import UncoreSafety.
From S2P Require Import EventQueue.
From S2P Require Import AddrRange.
From S2P Require Import MemPacket.
From S2P Require Import PacketTheorems.
From S2P Require Import AbstractMemory.
From S2P Require Import MemoryTheorems.
From S2P Require Import DramPort.
From S2P Require Import DramContract.
From S2P Require Import DramPortSafety.
#[local] Open Scope Z_scope.

Module DramPortTheorems.
Import EventQueue MemPacket PacketTheorems AbstractMemory MemoryTheorems DramPort DramPortSafety.

Section Serves.
Context {M W : Type} `{Dsim : DramSim M} {Laws : DramSimLaws M} `{Peer : Master M W}.

(** The object over a simulator, with [bytes] behind its range, at the start
    of the simulation. *)
Definition port_start (range : AddrRange.AddrRange) (bytes : list Z) (m : M) : Res (DRAMSim2 M) :=
  d ← DRAMSim2_new range m; startup 0 0 (d <| memory ::= setBackingStore bytes |>).

(** The memory with the bytes of the addresses from [a] to [b]. *)
Context (a b : Z) (bytes : list Z).
Definition backed : AbstractMemory := mkAbstractMemory (AddrRange.RangeIn a b) (Some bytes) [] ∅ ∅ ∅ ∅ ∅ ∅ [].
Context {Master_laws : MasterLaws backed}.

Lemma backed_refines : zlen bytes = b - a + 1 -> exists s, refines backed s.
Proof using.
  intros Hl. exists (mkContents (fun x => default 0 (zget bytes (x - a))) (fun _ => None)), bytes.
  split; [done|]. split; [done|]. split; [done|]. split.
  - intros i Hi. cbn. replace (a + i - a) with i by lia. destruct (zget_lt bytes i Hi) as [x ->]. done.
  - split; [apply NoDup_nil_2|]. intros c g. split; [done | by intros ?%elem_of_nil].
Qed.

Lemma port_start_ok m period Q p : ds_ok 0 m -> ds_held m = [] -> ds_clockPeriod m = period -> ds_queueSize m = Q -> 0 < Q ->
  zlen bytes = b - a + 1 -> (b - a + 1) mod PageBytes = 0 -> b - a + 1 < 2 ^ 64 ->
  exists d, port_start (AddrRange.RangeIn a b) bytes m = Ok d /\ port_ok backed Q period false 0 0 [] [] [] d /\ drain_ok d /\
    tickEvent d = Some (0 * p).
Proof using.
  intros Hok Hh Hp HQ HQ0 Hl Hpage Hb. unfold port_start, DRAMSim2_new, AbstractMemory_new, AddrRange.size. cbn.
  pose proof (zlen_nonneg bytes). rewrite Z.shiftr_0_r, u64_small by (unfold in_u64; lia). rewrite Hpage. cbn [Z.eqb mbind Res_bind].
  eexists. split; [done|]. split; [|by split; [intros []|]]. constructor; cbn; try done.
  - by rewrite Hh.
  - by intros x ?%elem_of_nil.
  - change (zlen (@nil Packet)) with 0. lia.
  - split; [done | by apply backed_refines].
Qed.

Lemma run_op_time ns now op s now' s' : enabled now s.1 op = true -> run_op backed ns now op s = Ok (now', s') -> now <= now'.
Proof using.
  destruct op as [| | | |dm|t]; cbn; intros He E; try (apply bind_Ok in E as (x & _ & E)); injection E as <- <-; try lia.
  apply andb_prop in He as [He _]. apply andb_prop in He as [He _]. apply bool_decide_eq_true in He. lia.
Qed.

(** C2: the DRAMSim2 memory of gem5 serves its port. Over any simulator that
    keeps its contract, and with any master that sends admissible requests,
    from its own events or from within its callbacks, and may refuse any
    response, no operation that is due fails, so none of the object's
    assertions can: not that the callbacks carry the current cycle, that a
    completion finds its packet, that the simulator accepts what the object
    accepted, that no event is scheduled twice. In every state a run reaches,
    the accepted requests that want an answer are, one for one, those that
    were answered, those that wait to be sent and the reads that are
    outstanding; at most one more than the depth of the simulator's queue are
    pending, a draining manager only waits while some are, and time can go on
    or an event is due. *)
Theorem port_serves m w period p ns N :
  ds_ok 0 m -> ds_held m = [] -> 0 < ds_queueSize m < 4294967295 -> ds_clockPeriod m = period ->
  F64.mul period (F64.of_Z ns) = F64.of_Z p -> 1 < p -> (N + 1) * p < 2 ^ 52 ->
  zlen bytes = b - a + 1 -> (b - a + 1) mod PageBytes = 0 -> b - a + 1 < 2 ^ 64 ->
  m_ok backed w -> m_asked backed w = [] -> m_answered backed w = [] ->
  exists d, port_start (AddrRange.RangeIn a b) bytes m = Ok d /\
    forall now s, reach backed ns (d, w) now s -> now < N * p ->
      m_asked backed s.2 ≡ₚ m_answered backed s.2 ++ (resp_key <$> responseQueue s.1) ++ (req_key <$> all_packets (outstandingReads s.1)) /\
      nbrOutstanding s.1 <= ds_queueSize m + 1 /\
      (is_Some (drainManager s.1) -> 0 < nbrOutstanding s.1) /\
      (forall op, enabled now s.1 op = true -> exists r, run_op backed ns now op s = Ok r) /\
      (exists op, op <> Act /\ (forall dm, op <> Drain dm) /\ enabled now s.1 op = true).
Proof.
  intros Hok Hh HQ Hp Hper Hp1 HN Hl Hpage Hb Hw Has Han.
  destruct (port_start_ok m period (ds_queueSize m) p) as (d & E & H & Hd & Et); [done..|lia|done|done|done|].
  exists d. split; [exact E|]. intros now s Hr HNow.
  assert (run_ok backed (ds_queueSize m) period p now s) as (k & Hk & H1 & Hd1 & Hw1 & Et1 & Hnow).
  { revert HNow. induction Hr as [|now s op now' s' Hr IH He Eop]; intros HNow.
    - exists 0. cbn [fst snd]. rewrite Has, Han. split; [done|]. split; [exact H|]. split; [exact Hd|]. split; [exact Hw|]. split; [exact Et | lia].
    - destruct (Z.lt_ge_cases now (N * p)) as [Hlt|Hge].
      + destruct (run_op_ok backed (ds_queueSize m) period ns p N HQ Hper Hp1 HN now op s (IH Hlt) Hlt He) as (n2 & s2 & E2 & H2 & _).
        rewrite Eop in E2. by injection E2 as -> ->.
      + pose proof (run_op_time _ _ _ _ _ _ He Eop). lia. }
  split; [rewrite (po_account _ _ _ _ _ _ _ _ _ _ H1); done|].
  pose proof (nbrOutstanding_ok _ _ _ HQ _ _ _ _ _ _ _ H1) as [_ Hn]. split; [lia|]. split; [exact Hd1|]. split.
  - intros op He. destruct (run_op_ok backed (ds_queueSize m) period ns p N HQ Hper Hp1 HN now op s) as (n2 & s2 & E2 & _); [by exists k|done..|].
    by eexists.
  - destruct (sendResponseEvent s.1) as [e|] eqn:Ee.
    + exists Respond. split; [done|]. split; [done|]. pose proof (po_event _ _ _ _ _ _ _ _ _ _ H1) as Hev. rewrite Ee in Hev. destruct Hev as [-> _].
      cbn. rewrite Ee. by apply bool_decide_eq_true.
    + destruct (decide (now = k * p)) as [->|Hne]; [exists Tick | exists (Wait (k * p))]; (split; [done|]); (split; [done|]); cbn; rewrite Et1.
      * by apply bool_decide_eq_true.
      * rewrite Ee. rewrite !bool_decide_eq_true_2; [done | cbn; lia | done | lia].
Qed.

End Serves.

(** ** A master

    It has a list of requests, sends the next one when it may, also right
    after it has taken a response, and refuses the first responses. *)

Record SampleMaster := mkSample {
  to_send : list Packet;
  refusals : nat;
  sm_asked : list (Z * Z * Z);
  sm_answered : list (Z * Z * Z)
}.

Definition send_next {M : Type} `{DramSim M} (now : Z) (s : DRAMSim2 M * SampleMaster) : Res (DRAMSim2 M * SampleMaster) :=
  let '(d, w) := s in
  match to_send w with
  | [] => Ok (d, w)
  | pkt :: l =>
      if retryReq d then Ok (d, w)
      else
        '(b, d) ← recvTimingReq now pkt d;
        Ok (d, mkSample (if b : bool then l else pkt :: l) (refusals w) (accepted pkt b ++ sm_asked w) (sm_answered w))
  end.

Definition take_response {M : Type} `{DramSim M} (now : Z) (pkt : Packet) (s : DRAMSim2 M * SampleMaster) : Res (bool * (DRAMSim2 M * SampleMaster)) :=
  let '(d, w) := s in
  match refusals w with
  | S n => Ok (false, (d, mkSample (to_send w) n (sm_asked w) (sm_answered w)))
  | O => '(d, w) ← send_next now (d, w); Ok (true, (d, mkSample (to_send w) O (sm_asked w) (resp_key pkt :: sm_answered w)))
  end.

#[export] Instance Sample_Master {M : Type} `{DramSim M} : Master M SampleMaster := {
  sendTimingResp := take_response;
  sendRetry := send_next
}.

Section Sample.
Context {M : Type} `{Dsim : DramSim M} (mem0 : AbstractMemory).

Definition sample_ok (w : SampleMaster) : Prop := Forall (admissible mem0) (to_send w).

Lemma send_next_law now (d : DRAMSim2 M) w : sample_ok w -> exists l r w',
  send_next now (d, w) = (d' ← r; Ok (d', w')) /\ asked mem0 now d l r /\
  sample_ok w' /\ sm_asked w' = l ++ sm_asked w /\ sm_answered w' = sm_answered w /\ refusals w' = refusals w.
Proof.
  intros Hw. unfold send_next. destruct (to_send w) as [|pkt rest] eqn:E; [exists [], (Ok d), w; repeat split; try done; constructor|].
  pose proof Hw as Hw2. unfold sample_ok in Hw2. rewrite E in Hw2. apply Forall_cons in Hw2 as [Hp Hrest].
  destruct (retryReq d) eqn:Er; [exists [], (Ok d), w; repeat split; try done; constructor|].
  destruct (recvTimingReq now pkt d) as [[b d']|e] eqn:Ereq; cbn [mbind Res_bind].
  - exists (accepted pkt b), (Ok d'). eexists. split; [done|]. split; [apply (asked_more _ _ _ _ b d' []); try done; constructor|].
    split; [|done]. unfold sample_ok. cbn [to_send]. destruct b; [done | by rewrite <- E].
  - exists [], (Err e), w. split; [done|]. split; [by apply (asked_fails _ _ d pkt)|]. done.
Qed.

#[export] Program Instance Sample_laws : MasterLaws mem0 (M := M) := {
  m_ok := sample_ok;
  m_asked := sm_asked;
  m_answered := sm_answered;
  m_act := send_next
}.
Next Obligation.
  intros now pkt d w Hw. cbn [sendTimingResp Sample_Master]. unfold take_response. destruct (refusals w) as [|n].
  - destruct (send_next_law now d w Hw) as (l & r & w' & -> & Ha & Hw' & Eas & Ean & _).
    exists true, l, r. eexists. split; [by destruct r|]. split; [done|]. split; [done|]. split; [done|]. cbn. by rewrite Ean.
  - exists false, [], (Ok d). eexists. split; [done|]. split; [constructor|]. by repeat split.
Qed.
Next Obligation.
  intros now d w Hw. destruct (send_next_law now d w Hw) as (l & r & w' & H & Ha & Hw' & Eas & Ean & _). by exists l, r, w'.
Qed.
Next Obligation.
  intros now d w Hw. destruct (send_next_law now d w Hw) as (l & r & w' & H & Ha & Hw' & Eas & Ean & _). by exists l, r, w'.
Qed.

End Sample.

(** ** A run *)

Section Auto.
Context {M W : Type} `{Dsim : DramSim M} `{Peer : Master M W} (mem0 : AbstractMemory) {ML : MasterLaws mem0} (ns : Z).

Definition next_op (now : Z) (d : DRAMSim2 M) : Op :=
  if enabled now d Respond then Respond else if enabled now d Retry then Retry
  else if enabled now d Tick then Tick else Wait (default now (tickEvent d)).

Fixpoint run_ops (ops : list Op) (now : Z) (s : DRAMSim2 M * W) : Res (Z * (DRAMSim2 M * W)) :=
  match ops with
  | [] => Ok (now, s)
  | op :: ops => _ ← guard_assert (enabled now s.1 op) "enabled"; '(now, s) ← run_op mem0 ns now op s; run_ops ops now s
  end.

Fixpoint run_auto (n : nat) (now : Z) (s : DRAMSim2 M * W) : Res (Z * (DRAMSim2 M * W)) :=
  match n with
  | O => Ok (now, s)
  | S n => let op := next_op now s.1 in
      _ ← guard_assert (enabled now s.1 op) "enabled"; '(now, s) ← run_op mem0 ns now op s; run_auto n now s
  end.

Lemma run_ops_reach s0 ops : forall now s now' s', reach mem0 ns s0 now s -> run_ops ops now s = Ok (now', s') -> reach mem0 ns s0 now' s'.
Proof.
  induction ops as [|op ops IH]; intros now s now' s' Hr E; cbn [run_ops] in E; [by injection E as <- <-|].
  destruct (enabled now s.1 op) eqn:He; [|done]. cbn [guard_assert mbind Res_bind] in E.
  apply bind_Ok in E as ([now2 s2] & E1 & E2). eapply IH; [|exact E2]. by eapply reach_op.
Qed.

Lemma run_auto_reach s0 n : forall now s now' s', reach mem0 ns s0 now s -> run_auto n now s = Ok (now', s') -> reach mem0 ns s0 now' s'.
Proof.
  induction n as [|n IH]; intros now s now' s' Hr E; cbn [run_auto] in E; [by injection E as <- <-|].
  cbn zeta in E. destruct (enabled now s.1 (next_op now s.1)) eqn:He; [|done]. cbn [guard_assert mbind Res_bind] in E.
  apply bind_Ok in E as ([now2 s2] & E1 & E2). eapply IH; [|exact E2]. by eapply reach_op.
Qed.
End Auto.

(** A write and two reads of a page of zeroes. *)
Definition page : list Z := replicate 4096 0.
Definition sample_master : SampleMaster :=
  mkSample [packet_of 0 WriteReq 64 [1; 2; 3; 4]; packet_of 1 ReadReq 128 [0; 0; 0; 0]; packet_of 2 ReadReq 64 [0; 0; 0; 0]] 1 [] [].

Notation DDR3 := DDR3_micron_32M_8B_x8_sg15.
Notation wrapper_page := (backed 0 4095 page).

Definition run_of (master : SampleMaster) (start : Res DRAMSim2Wrapper) : Res (Z * (DRAMSim2 DRAMSim2Wrapper * SampleMaster)) :=
  w ← start;
  d ← port_start (AddrRange.RangeIn 0 4095) page w;
  '(now, s) ← run_ops wrapper_page 1000 [Act; Act; Act] 0 (d, master);
  run_auto wrapper_page 1000 100 now s.
Notation sample_run := (run_of sample_master).

Lemma sample_run_reach start now s : sample_run start = Ok (now, s) ->
  exists w d, start = Ok w /\ port_start (AddrRange.RangeIn 0 4095) page w = Ok d /\ reach wrapper_page 1000 (d, sample_master) now s.
Proof.
  intros E. unfold run_of in E. apply bind_Ok in E as (w & -> & E). apply bind_Ok in E as (d & Ed & E).
  apply bind_Ok in E as ([now1 s1] & E1 & E2). exists w, d. split; [done|]. split; [done|].
  eapply run_auto_reach; [|exact E2]. eapply run_ops_reach; [|exact E1]. constructor.
Qed.

Notation DDR3_start := (memory_start DDR3 (F64.lit 15 10) (F64.lit 15 10) 8192).

Lemma run_result {A B C} (r : Res (A * (B * C))) (P : A -> B -> C -> Prop) :
  match r with Ok (x, (y, z)) => P x y z | Err _ => False end -> exists x y z, r = Ok (x, (y, z)) /\ P x y z.
Proof. destruct r as [[x [y z]]|]; [|done]. intros H. by exists x, y, z. Qed.

Lemma sample_run_answers : exists now d w, sample_run DDR3_start = Ok (now, (d, w)) /\
  now = 72000 /\ sm_answered w = [(64, 4, -1); (128, 4, -1); (64, 4, -1)].
Proof.
  apply (run_result (sample_run DDR3_start) (fun now d w => now = 72000 /\ sm_answered w = [(64, 4, -1); (128, 4, -1); (64, 4, -1)])).
  vm_compute. done.
Qed.

(** A swap is counted as a read but enqueued as a write: when the simulator
    completes it no write is outstanding at its address. *)
Lemma swap_breaks_port :
  match run_of (mkSample [packet_of 0 SwapReq 64 [1; 2; 3; 4]] 0 [] []) DDR3_start with
  | Err (AssertFail m) => m = "p != end()"%string
  | _ => False
  end.
Proof. vm_compute. done. Qed.

(** The wrapper at its start keeps the contract and holds nothing. *)
Lemma wrapper_starts ini vdd period megs n : memory_config ini megs n -> is_zero period = false ->
  exists w, memory_start ini vdd period megs = Ok w /\ wrapper_ok (memory_cfg ini n) 0 w /\ wrapper_held w = [] /\
    clockPeriod w = period /\ queueSize w = @TRANS_QUEUE_DEPTH ini.
Proof.
  intros Hc Hz. destruct (memory_start_ok ini vdd period megs n Hc Hz) as (w & Ew & Hw). exists w. split; [done|].
  assert (clockPeriod w = period /\ queueSize w = @TRANS_QUEUE_DEPTH ini) as [E1 E2].
  { unfold memory_start in Ew. apply bind_Ok in Ew as (w0 & E & Ew). injection Ew as <-. unfold Wrapper_new in E.
    apply bind_Ok in E as (m & _ & E). rewrite Hz in E. destruct (bool_decide _); [done|]. destruct (_ || _); [done|]. by injection E as <-. }
  split; [split; [by do 2 eexists | done]|]. split; [|done]. unfold wrapper_held.
  by rewrite (in_memory_nil (memory_cfg ini n) 0 (wrap w) Hw).
Qed.

Lemma sample_admissible : sample_ok wrapper_page sample_master.
Proof.
  apply Forall_forall. intros x Hx. unfold sample_master in Hx. cbn [to_send] in Hx. rewrite !elem_of_cons, elem_of_nil in Hx.
  left. destruct Hx as [->|[->|[->|[]]]]; (split; [done|]); (split; [done|]); (split; [done|]); eexists; vm_compute; split_and!; try done; by eexists.
Qed.

Lemma port_serves_witness : exists w d now s,
  DDR3_start = Ok w /\ port_start (AddrRange.RangeIn 0 4095) page w = Ok d /\
  reach wrapper_page 1000 (d, sample_master) now s /\ sm_answered s.2 = [(64, 4, -1); (128, 4, -1); (64, 4, -1)] /\
  sm_asked s.2 ≡ₚ sm_answered s.2 ++ (resp_key <$> responseQueue s.1) ++ (req_key <$> all_packets (outstandingReads s.1)).
Proof.
  destruct (wrapper_starts DDR3 (F64.lit 15 10) (F64.lit 15 10) 8192 1 DDR3_memory_config) as (w & Ew & Hok & Hh & Hp & Hq); [by vm_compute|].
  assert (@TRANS_QUEUE_DEPTH DDR3 = 64) as Hdepth by (vm_compute; reflexivity). rewrite Hdepth in Hq.
  assert (0 < ds_queueSize w < 4294967295) as Hq2 by (cbn [ds_queueSize Wrapper_DramSim]; lia).
  assert (F64.mul (F64.lit 15 10) (F64.of_Z 1000) = F64.of_Z 1500) as Hper by by vm_compute.
  assert (zlen page = 4095 - 0 + 1) as Hpg by by vm_compute.
  destruct (port_serves (Laws := Wrapper_laws (memory_cfg DDR3 1)) (Master_laws := Sample_laws wrapper_page) 0 4095 page w sample_master (F64.lit 15 10) 1500 1000 1000000
    Hok Hh Hq2 Hp Hper ltac:(lia) ltac:(lia) Hpg eq_refl ltac:(lia) sample_admissible eq_refl eq_refl) as (d & Ed & H).
  destruct sample_run_answers as (now & d2 & w2 & E & -> & Hans).
  destruct (sample_run_reach _ _ _ E) as (w' & d' & Ew' & Ed' & Hreach). rewrite Ew in Ew'. injection Ew' as <-.
  rewrite Ed in Ed'. injection Ed' as <-.
  destruct (H _ _ Hreach) as (Hacc & _); [done|]. exists w, d, 72000, (d2, w2).
  split; [exact Ew|]. split; [exact Ed|]. split; [exact Hreach|]. split; [exact Hans | exact Hacc].
Defined.

End DramPortTheorems.
